(* ===== verification/_CoqProject ===== *)
-Q . S2P
Prelude.v
GoStrings.v
GoTime.v
QuotaConfig.v
ConnList.v
QuotaManager.v
QuotaInv.v
QuotaProps.v
QuotaPersist.v
DynamicConfig.v
QuotaService.v
QuotaServiceProps.v
SpeedConfig.v
SpeedLimiter.v
SpeedInv.v
SpeedProps.v
UserProvider.v
UserProviderProps.v
GoCrypto.v
AdminAuth.v
AdminAPI.v
AdminLaws.v
AdminProps.v
AdminInstances.v
RuleState.v
RuleItems.v
RuleMatch.v
RuleProps.v
RuleTrees.v
RuleMerge.v
RuleBuild.v
RuleBuildProps.v
RuleTheorems.v
DNSRules.v
DNSRouter.v
DNSLookup.v
DNSRouterProps.v
DNSRouterRefs.v
DNSLookupTheorems.v
DNSDemo.v
GoBinary.v
GoAES.v
StartOrder.v
Managers.v
ManagersProps.v
FakeIP.v
FakeIPProps.v
CacheFile.v
BoltLaws.v
CacheFileProps.v
CacheFileTheorems.v
CacheFileFake.v
Srs.v
SrsProps.v
SrsBuild.v
RemoteRuleSet.v
DNSFlight.v
DNSClient.v
DNSClientProps.v
DNSClientTheorems.v
OutboundGroups.v
OutboundGroupsProps.v
TLSFragment.v
TLSFragmentProps.v
Sniffers.v
QUIC.v
QUICProps.v
RouteRules.v
RouteRouter.v
RouteDispatch.v
RouteTheorems.v
RouteReads.v
RouteReturns.v
RouteDemo.v
Trojan.v
TrojanProps.v
InboundUsers.v
InboundUsersProps.v
Geosite.v
GeositeProps.v
