(* ===== verification/Prelude.v ===== *)
(** * A verification library for sing-box with user authentication, quotas and speed limits

    The program is sing-box, a proxy platform, extended by services that manage
    users at run time.  The library models its own decision logic: who may
    connect, how much and how fast (the services under [src/service]), where
    a connection or a DNS query goes (the rules under [src/route/rule], the
    router of [src/route] and [src/dns]), and the managers, stores and file formats
    these rest on.

    ** The parts and how they interact

    An _inbound_ authenticates a user against the list the _user provider_ pushes
    to it, and hands the connection to the router under the user's name.  The router
    looks at its first bytes with the _sniffers_ when a rule says so, and hands a
    connection of an authenticated user to the
    _traffic quota_ service, which counts its bytes and closes it when the user
    is over quota, and to the _speed limiter_, which throttles it.  Both services
    read configuration rows from Redis or PostgreSQL through _dynamic
    configuration_; the quota service writes usage to a _persister_.  The _admin
    API_ drives the three services over HTTP.  Independently, _rules_ decide what
    to do with connections and queries: they are built from options, refer to
    _rule-sets_ that can be reloaded while they are in use, and are evaluated by
    the connection router and by the _DNS router_.  Rule-sets come compiled, in
    _binary rule-set_ files, and domain lists in _geosite_ files.  The _managers_ own
    the outbounds and the DNS transports and start them in the order of their
    dependencies; _groups_ are outbounds that choose among others, by hand or by
    measured delay, and interrupt connections when the choice changes.  The DNS router
    asks transports through the _DNS client_, which caches answers, lets equal questions
    wait for one another and remembers rejected answers.  A TLS connection may be
    written in _fragments_.  The _fakeip store_ hands out addresses for domains and keeps them
    in memory or in the _cache file_, which also remembers selections, rule-sets and
    rejected DNS answers.

    ** Files

    - [Prelude], [GoStrings], [GoTime], [GoCrypto], [GoBinary], [GoAES]: machine
      integers, binary64, errors ([result], [outcome], where [Panic] is a Go panic),
      tactics, hints and generic lemmas; the parts of [strings], [strconv], [time],
      [encoding/base64], [crypto/sha256], [crypto/hmac], [crypto/aes], [crypto/cipher],
      [encoding/binary], [bufio] and [varbin] the source calls, executable; slices.
    - [QuotaConfig], [ConnList], [QuotaManager] ([src/service/trafficquota/manager.go],
      [conn.go]): the configuration and its periods, the connection list as a slice
      with its backing array, the manager with the heap its maps share.  Each method
      is a function from state to state of the method's name.  [QuotaInv] has the
      step relation and the invariant, [QuotaProps] the theorems.
    - [QuotaPersist] ([persist.go], [persist_redis.go]): the persister interface as
      a record with the class of laws [PersisterLaws], discharged by the Redis
      implementation (an increment that fails may have taken effect; the no-op persister,
      which keeps nothing, is outside of them, see [noop_flush_keeps_usage]).  [QuotaService] ([service.go]) uses only the interface;
      [QuotaServiceProps] has the theorems.
    - [DynamicConfig] ([src/service/dynamicconfig]): receiver interface, message,
      notification and row handling.
    - [SpeedConfig], [SpeedLimiter] ([src/service/speedlimiter]): resolution and
      schedules; the limiter map over a heap of token buckets.  [SpeedInv],
      [SpeedProps]: invariants and theorems.
    - [UserProvider] ([src/service/userprovider]): merge of the sources, overlay,
      pushes, one iteration of each source loop.  [UserProviderProps]: refinement of
      a finite map.
    - [AdminAuth], [AdminAPI] ([src/service/adminapi]): tokens, middlewares, route
      table, handlers over three type-class interfaces.  [AdminLaws] states what the
      handlers rely on, [AdminProps] proves the handlers against the laws,
      [AdminInstances] shows that the three services satisfy them.
    - [RuleState] ([src/route/rule/match_state.go]): the packed sets of match
      states.  [RuleItems] ([src/adapter/inbound.go], [rule_item_*.go]): the
      conditions.  [RuleMatch] ([rule_abstract.go], [rule_item_rule_set.go],
      [rule_dns.go]): evaluation of default, logical, headless and DNS rules, and
      rule-sets with their reference counts.  [RuleBuild] ([rule_headless.go],
      [rule_set.go], [rule_set_local.go]): constructors, metadata, reload.
      [RuleProps], [RuleTrees], [RuleMerge], [RuleBuildProps] hold the lemmas,
      [RuleTheorems] the theorems.
    - [DNSRules] ([rule_dns.go], [rule_action.go], [rule_nested_action.go], the mode
      functions of [src/dns/router.go]): construction and validation of DNS rules.
      [DNSRouter] ([src/dns/router.go]): queries, start, close, validation of
      reloads; [DNSLookup]: lookups and the flood counter of the reject action.
      [DNSRouterProps], [DNSRouterRefs], [DNSLookupTheorems]: theorems; [DNSDemo]: a
      running instance.
    - [DNSClient] ([src/dns/client.go], [extension_edns0_subnet.go]): queries, lookups,
      the cache with its lifetimes, rejected answers, fixed responses; [DNSFlight]: equal
      questions that wait for one another, as a step relation, with its theorems.
      [DNSClientProps], [DNSClientTheorems]: what a cached answer is.
    - [Sniffers] ([src/common/sniff]): the stream and packet sniffers, with their theorems.
      [QUIC] ([quic.go], [src/common/ja3], [internal/qtls]): the QUIC sniffer and the
      fingerprints of client hellos; [QUICProps]: theorems.
    - [RouteRules] ([rule_default.go], [rule_action.go]): route rules and their actions
      from options.  [RouteRouter] ([src/route/route.go], [src/common/sniff/sniff.go]):
      the routing metadata, route options and sniffing, with the sniffers of [Sniffers] and
      [QUIC], whose panics are those of the router; [RouteDispatch]
      ([src/route/route.go]): the loop over the rules and the dispatch to outbounds.
      [RouteTheorems], [RouteReads], [RouteReturns]: theorems; [RouteDemo]: a running
      instance, what a second sniff action does, and a packet that stops the router.
    - [StartOrder], [Managers] ([src/adapter/outbound/manager.go],
      [src/dns/transport_manager.go]): rounds of starting, the two managers;
      [ManagersProps]: reachable states and theorems.
    - [OutboundGroups] ([src/protocol/group], [src/common/interrupt],
      [src/common/urltest]): selector and URL test; [OutboundGroupsProps]: theorems.
    - [InboundUsers] ([ReplaceUsers] of the inbounds under [src/protocol], and the user of
      a connection), [InboundUsersProps]: theorems.  [Trojan] ([src/transport/trojan]):
      protocol and service; [TrojanProps]: theorems.
    - [TLSFragment] ([src/common/tlsfragment]): the server name in a client hello and the
      fragmenting connection; [TLSFragmentProps]: theorems.
    - [FakeIP] ([src/dns/transport/fakeip]): the store and the storage in memory;
      storage is a class of operations.  [FakeIPProps] has the arithmetic of ranges, the
      laws of storage and the theorems.
    - [CacheFile] ([src/experimental/cachefile]): the loads and stores over the class
      [Bolt] of database operations; [BoltLaws] states what is relied on and has an
      instance, [CacheFileProps] the encodings and the invariant, [CacheFileTheorems] the
      refinement, [CacheFileFake] the laws of a fakeip storage.
    - [Srs] ([src/common/srs]): binary rule-sets; [SrsProps], [SrsBuild]: round trip and
      what is built from a file.  [RemoteRuleSet] ([rule_set_remote.go]): rule-sets fetched
      over HTTP, with their theorems.  [Geosite], [GeositeProps] ([src/common/geosite]): domain
      lists.

    ** State and operations

    A method of a Go object is a function that takes the object's state and
    returns the new one; mutexes make each method one transition, and the step
    relations ([QuotaInv], [SpeedInv], [UserProviderProps]) interleave methods in any
    order.  Objects that stay reachable after a map drops them (connection lists,
    token buckets, rule-sets) live in a heap or are named by a key, so aliasing is
    visible.  The clock, the iteration order of Go maps and the answers of the
    outside are arguments.  Code that is not in the repository is a class or record
    parameter: [RuleEnv] (IP sets, domain matchers, regular expressions, the DNS
    library), [DNSEnv] (the DNS client, for the router), [ClientEnv] and [FreeLRU] (the
    clock, the message library and the cache of the DNS client), [RouteEnv] (the
    DNS router), [SniffLib] and [HKDF] (the parsers and key derivation of sniffers),
    [Bolt] (the database of the cache file), [SrsEnv] (matchers and sets as bytes, zlib),
    [Outbounds] and [SelectionStore] (for the groups), [Upstream] (the connection that is
    fragmented), [SocksaddrSerializer], [IndexService] and [AuthLib] (addresses and the
    services of inbounds), the rate limiter, Redis, JSON; their laws are named
    hypotheses, and the witnesses instantiate them.

    ** What is shown

    - Quota: a user over quota moves no more bytes; counting refines an abstract
      ledger; persisted plus waiting bytes are conserved by flushes, but for bytes
      whose failed increment had taken effect, which are counted again; status, period resets, snapshots and routing behave as specified; no
      method panics.
    - Speed: every live limiter runs at the speed reported for its user; waiting
      charges exactly the bytes asked for; priorities and schedules.
    - Users: the provider is a finite map; with HTTP inbounds it lets in exactly the
      users of the map, or everyone when there are none; inbounds that know users by
      index keep them apart while lists only grow, and not after other changes.  A
      Trojan service accepts what a client with a user's password sends, for addresses
      with a form of their own on the wire, and nothing under a user without it.
    - Admin API: soundness of authorization, life-cycle of login tokens, nothing
      happens for unauthenticated requests; creation and deletion take effect on all
      controllers or, unless the rollback itself fails, on none (a rolled back creation
      also drops a quota or speed the name had before).
    - Rules: the packed sets are sets; default and logical rules mean the boolean
      formulas of the documentation; a rule-set of plain rules is the disjunction of its
      branches merged into the rule; inherited groups are kept; the match before a DNS
      lookup is exact for rules without address limit, with the one exception the
      code has; reload and reference counting are sound.
    - DNS: a started router answers every query and lookup without a panic; lookups
      never ask a fakeip server; a
      router without legacy mode has no strategy options, uses responses only after
      an evaluate rule, and is not broken by reloads; start and close balance all
      references.  A cached answer was given to the same question, within its lifetime
      unless expiry is off; queries that wait for one another all return.
    - Routing: the first rule that holds on its own and has a final action is selected,
      whatever the rules before it have cached; connections
      go to an existing outbound that supports their network, wrapped by every
      tracker and under the user they came with; one sniff action loses, changes or
      repeats no data, a second one may; a router built from options never panics on
      connections, nor on packets that do not stop the QUIC sniffer.
    - Sniffers: those of DNS, BitTorrent and RDP do not depend on how a stream arrives;
      no packet is recognised by two of the simple ones; a QUIC client hello is
      recognised in any order of its parts, and fingerprints are read back as encoded;
      three packets that stop the QUIC sniffer.
    - Fragments: what a first write is cut into is, put together, what was written, unless
      a label of the server name is empty.
    - Groups: while delays do not wrap, the choice of a URL test is within the tolerance of
      the best and changes only for a better one; a selector keeps its selection over a restart.
    - Managers: until a running manager is closed, creating and removing act on the tag
      given and do not panic; afterwards they panic for every tag it had; starting ends, and succeeds exactly when the dependencies
      exist and are not circular; what removing the default DNS transport does.
    - Fakeip: addresses are in the range and belong to their domain until the range
      has been used up, and survive a restart; a change of the ranges may keep old
      addresses.
    - Cache file: it is a collection of maps, whatever its cache id.
    - File formats: binary rule-sets and geosite files are read back as written, and
      a compiled rule-set of version two or later builds the rules of its source.  A remote rule-set shows what the
      server's answers leave, and the same after a restart.
    - Further theorems not numbered: sets of match states, one address for a domain
      and its way back, positions after a restart, packets after one sniff action,
      lookups and fakeip servers, a query that waits for itself, answers that are
      not checked again, delays that wrap, a second sniff action, an entity tag that
      stays, the first data of multiplexed Trojan streams, sessions that change
      hands, writes that make the fragmenter panic, a packet that stops the router,
      flushes to the no-op persister, the order of starting, delayed saves of the
      fakeip position, files that make the reader panic, pre-matching and routing,
      references of rule-sets, floods of rejections, lookup results, period checks,
      priorities of speeds, users that stay hidden, packet connections,
      configuration changes, period keys, drains and snapshots of quotas, inherited
      match groups, the merge of users, the HTTP source, records in Redis, schedules
      as cyclic intervals, the connection list, clean-up, dynamic rows of the speed
      limiter, the option form of a quota configuration.

    ** Bounds and fuel

    Integers have their Go width where it matters: usage and deltas wrap at 64
    bits, reference counts at 32, match states and their sets are 4 and 16 bits,
    ports 16.  Fuel appears where a loop is not structural: [waitLoop] of the speed
    limiter ([waitN_charges] shows enough fuel for every request), and [legacyLoop]
    and [legacyLookupLoop] of the DNS router, for which one more round than there
    are rules is enough ([started_router_answers]); [startLoop] with one round more
    than there are objects ([start_order]); the readers of binary rule-sets, with the
    number of bytes ([readItems_fuel], [readRule_fuel]); the extensions of a client hello
    below 64 KiB, with the number of bytes ([fragments_reassemble]) or of extensions
    ([hello_roundtrip]); the parts of a hello, with their number
    ([quic_hello_recognised]).  Lifetimes of DNS answers are below [2 ^ 23] seconds where
    a theorem takes [Duration.Seconds] for the exact number.

    ** Not modelled

    The interleaving of critical sections inside one method; log output and [String]
    methods; drivers, sockets, HTTP and JSON themselves; the PostgreSQL persister (SQL);
    the DNS transports; start and close of the connection router and the copying of data
    ([router.go], [conn.go]); opening the cache file, and the reuse of the pooled buffer
    that [SaveRDRC] gives back before its transaction is committed; what the DNS client
    caches, in the model of its locks ([DNSFlight]); the managers of
    inbounds, endpoints and services, which are the outbound manager without
    dependencies; the protocols but for the user lists of inbounds, the groups and Trojan,
    the other transports, experimental APIs and the other services, which are I/O over
    third-party libraries or independent of this core. *)

From Stdlib Require Export Ascii String.
From stdpp Require Export base gmap strings list fin_maps sets.

Local Open Scope string_scope.
Local Open Scope list_scope.
Local Open Scope Z_scope.

(** ** Machine integers *)

(** Go's [int] and [int64]: two's complement on 64 bits. *)
Definition min_int64 : Z := - 2 ^ 63.
Definition max_int64 : Z := 2 ^ 63 - 1.
Definition wrap64 (z : Z) : Z := (z + 2 ^ 63) mod 2 ^ 64 - 2 ^ 63.
Definition int64_range (z : Z) : Prop := min_int64 <= z <= max_int64.

(** Unsigned wrap-around at [w] bits ([uint8], [uint16], [uint64]). *)
Definition wrapu (w : Z) (z : Z) : Z := z mod 2 ^ w.

(** ** IEEE binary64

    A finite value is a significand and an exponent, [m * 2 ^ e]; the encoding
    is not canonical, so equality of values is equality of [m * 2 ^ e].  The
    source only builds products and quotients of magnitude at least [2 ^ -60],
    so results never fall in the subnormal range. *)
Inductive float64 :=
| F64 (m e : Z)
| F64Inf (negative : bool)
| F64NaN.

(** Round to nearest, ties to even, to 53 significant bits. *)
Definition f64_round (m e : Z) : float64 :=
  let k := Z.log2 (Z.abs m) - 52 in
  if k <=? 0 then F64 m e
  else
    let a := Z.abs m in
    let q := a / 2 ^ k in
    let r := a mod 2 ^ k in
    let half := 2 ^ (k - 1) in
    let q' := if (half <? r) || ((half =? r) && Z.odd q) then q + 1 else q in
    F64 (Z.sgn m * q') (e + k).

(** Magnitudes of [2 ^ 1024] and above overflow to an infinity. *)
Definition f64_overflow (f : float64) : float64 :=
  match f with
  | F64 m e =>
      if m =? 0 then f
      else if 1024 <=? Z.log2 (Z.abs m) + e then F64Inf (m <? 0) else f
  | _ => f
  end.

(** [float64(z)] for an integer. *)
Definition f64_of_int (z : Z) : float64 := f64_round z 0.

Definition f64_mul (x y : float64) : float64 :=
  match x, y with
  | F64 m1 e1, F64 m2 e2 =>
      match f64_round (m1 * m2) (e1 + e2) with
      | F64 m e => f64_overflow (F64 m e)
      | f => f
      end
  | F64NaN, _ | _, F64NaN => F64NaN
  | F64Inf s, F64 m _ | F64 m _, F64Inf s =>
      if m =? 0 then F64NaN else F64Inf (xorb s (m <? 0))
  | F64Inf s1, F64Inf s2 => F64Inf (xorb s1 s2)
  end.

(** Division by [2 ^ 30], the only divisor of the source: exact above the
    subnormal range. *)
Definition f64_div_2p30 (x : float64) : float64 :=
  match x with
  | F64 m e => F64 m (e - 30)
  | _ => x
  end.

(** Comparisons with zero; both are false on NaN. *)
Definition f64_gt0 (x : float64) : bool :=
  match x with F64 m _ => 0 <? m | F64Inf s => negb s | F64NaN => false end.
Definition f64_le0 (x : float64) : bool :=
  match x with F64 m _ => m <=? 0 | F64Inf s => s | F64NaN => false end.

(** The exact integer part, towards zero, of a finite value. *)
Definition f64_trunc (m e : Z) : Z :=
  if 0 <=? e then m * 2 ^ e else Z.quot m (2 ^ (- e)).

(** [math.Round] on a finite value: half away from zero. *)
Definition f64_round_away (m e : Z) : Z :=
  if 0 <=? e then m * 2 ^ e
  else Z.sgn m * ((Z.abs m + 2 ^ (- e - 1)) / 2 ^ (- e)).

(** A conversion to [int64] of a value out of range is implementation-defined;
    amd64 yields the most negative integer. *)
Definition int64_of (z : Z) : Z :=
  if (min_int64 <=? z) && (z <=? max_int64) then z else min_int64.

(** [int64(math.Round(x))] and [int(x)]. *)
Definition f64_round_to_int64 (x : float64) : Z :=
  match x with F64 m e => int64_of (f64_round_away m e) | _ => min_int64 end.
Definition f64_to_int (x : float64) : Z :=
  match x with F64 m e => int64_of (f64_trunc m e) | _ => min_int64 end.

(** ** Control effects *)

(** A call that returns or panics. *)
Inductive outcome (A : Type) : Type :=
| Ret (a : A)
| Panic.
Arguments Ret {_} _.
Arguments Panic {_}.

#[export] Instance outcome_ret : MRet outcome := @Ret.
#[export] Instance outcome_bind : MBind outcome := fun A B f m =>
  match m with Ret a => f a | Panic => Panic end.
#[export] Instance outcome_fmap : FMap outcome := fun A B f m =>
  match m with Ret a => Ret (f a) | Panic => Panic end.

Definition returns {A} (m : outcome A) : Prop := exists a, m = Ret a.

(** Sequential iteration of a state transformer that may panic. *)
Fixpoint foldM {A S : Type} (f : S -> A -> outcome S) (l : list A) (s : S) : outcome S :=
  match l with
  | [] => Ret s
  | x :: l' => match f s x with Ret s' => foldM f l' s' | Panic => Panic end
  end.

(** The pair [(value, error)] of a fallible Go call. *)
Inductive result (E A : Type) : Type :=
| Ok (a : A)
| Err (e : E).
Arguments Ok {_ _} _.
Arguments Err {_ _} _.

Definition is_Ok {E A} (r : result E A) : bool :=
  match r with Ok _ => true | Err _ => false end.

(** ** Errors

    [github.com/sagernet/sing/common/exceptions] is not part of the repository:
    its constructors are the operations of a class, and what the code relies on
    is the companion class of laws.  [Errorf] stands for [errors.New] and
    [fmt.Errorf] applied to an already formatted message, [Quote] for the verb
    [%q], which escapes by the Unicode tables and only appears in messages. *)
Class Exceptions := {
  error : Type;
  Errorf : string -> error;
  E_New : list string -> error;
  E_Cause : error -> list string -> error;
  E_Errors : list error -> option error;
  Error : error -> string;
  Quote : string -> string;
}.

Fixpoint str_concat (l : list string) : string :=
  match l with [] => EmptyString | s :: l' => s +:+ str_concat l' end.

Class ExceptionsLaws `(EX : Exceptions) := {
  Error_Errorf s : Error (Errorf s) = s;
  Error_E_New args : Error (E_New args) = str_concat args;
  Error_E_Cause e args : exists sep, Error (E_Cause e args) = str_concat args +:+ sep +:+ Error e;
  E_Errors_nil : E_Errors [] = None;
  E_Errors_cons e es : exists e', E_Errors (e :: es) = Some e';
}.

(** A concrete instance, for evaluating the development: errors as text. *)
#[local] Instance text_exceptions_ops : Exceptions := {|
  error := string;
  Errorf := fun s => s;
  E_New := str_concat;
  E_Cause := fun e args => str_concat args +:+ ": " +:+ e;
  E_Errors := fun es =>
    match es with
    | [] => None
    | e :: es' => Some (e +:+ str_concat (map (fun x => " | " +:+ x) es'))
    end;
  Error := fun e => e;
  Quote := fun s => String (Ascii.ascii_of_nat 34) (s +:+ String (Ascii.ascii_of_nat 34) "");
|}.
Definition text_exceptions : Exceptions := text_exceptions_ops.

#[export] Instance text_laws : ExceptionsLaws text_exceptions.
Proof.
  split; [done|done| |done|by eexists]. intros e args. by exists ": ".
Qed.

(** ** Tactics and hints *)

Create HintDb sb discriminated.
Create Rewrite HintDb sb_map.
Create Rewrite HintDb sb_str.

(** Case analysis on the discriminee of the first [if] or [match] of the goal. *)
Ltac case_goal :=
  match goal with
  | |- context [if ?b then _ else _] => destruct b eqn:?
  | |- context [match ?x with _ => _ end] => destruct x eqn:?
  end.

(** The same in a hypothesis, with trivial cases closed. *)
Ltac case_hyp H :=
  match type of H with
  | context [if ?b then _ else _] => destruct b eqn:?; try discriminate H
  | context [match ?x with _ => _ end] => destruct x eqn:?; try discriminate H
  end.

(** Boolean comparisons to arithmetic facts. *)
Ltac zbool :=
  repeat match goal with
  | H : (_ && _)%bool = true |- _ => apply andb_true_iff in H as [? ?]
  | H : (_ || _)%bool = false |- _ => apply orb_false_iff in H as [? ?]
  | H : negb _ = true |- _ => apply negb_true_iff in H
  | H : negb _ = false |- _ => apply negb_false_iff in H
  | H : (_ <? _)%Z = true |- _ => apply Z.ltb_lt in H
  | H : (_ <? _)%Z = false |- _ => apply Z.ltb_ge in H
  | H : (_ <=? _)%Z = true |- _ => apply Z.leb_le in H
  | H : (_ <=? _)%Z = false |- _ => apply Z.leb_gt in H
  | H : (_ =? _)%Z = true |- _ => apply Z.eqb_eq in H
  | H : (_ =? _)%Z = false |- _ => apply Z.eqb_neq in H
  end.

(** ** Generic lemmas *)

Lemma wrap64_id z : int64_range z -> wrap64 z = z.
Proof.
  unfold int64_range, min_int64, max_int64, wrap64. intros H.
  rewrite Z.mod_small; lia.
Qed.

Lemma wrap64_range z : int64_range (wrap64 z).
Proof.
  unfold int64_range, min_int64, max_int64, wrap64.
  pose proof (Z.mod_pos_bound (z + 2 ^ 63) (2 ^ 64)). lia.
Qed.

Lemma int64_of_range z : int64_range (int64_of z).
Proof.
  unfold int64_of, int64_range. case_goal; zbool; unfold min_int64, max_int64 in *; lia.
Qed.

Lemma int64_of_id z : int64_range z -> int64_of z = z.
Proof.
  unfold int64_range, int64_of. intros [H1 H2].
  apply Z.leb_le in H1 as ->. apply Z.leb_le in H2 as ->. done.
Qed.

#[export] Hint Resolve wrap64_range int64_of_range : sb.
#[export] Hint Rewrite @lookup_insert_eq @lookup_delete_eq @lookup_empty : sb_map.

(** Rounding leaves an integer of at most 53 bits alone. *)
Lemma f64_round_small m e : Z.abs m < 2 ^ 53 -> f64_round m e = F64 m e.
Proof.
  intros Hm. unfold f64_round.
  assert (Z.log2 (Z.abs m) < 53) as Hl.
  { destruct (Z.eq_dec (Z.abs m) 0) as [->|]; [done|].
    apply Z.log2_lt_pow2; lia. }
  case_goal; zbool; [done|lia].
Qed.

Lemma foldM_app {A S} (f : S -> A -> outcome S) l1 l2 s :
  foldM f (l1 ++ l2) s = foldM f l1 s ≫= foldM f l2.
Proof.
  revert s. induction l1 as [|x l1 IH]; intros s; cbn; [done|].
  destruct (f s x); cbn; [apply IH|done].
Qed.

(** An invariant of each step is an invariant of the iteration. *)
Lemma foldM_inv {A S} (P : S -> Prop) (f : S -> A -> outcome S) l s s' :
  (forall s x s', P s -> f s x = Ret s' -> P s') ->
  P s -> foldM f l s = Ret s' -> P s'.
Proof.
  intros Hstep. revert s. induction l as [|x l IH]; intros s Hs Hf; cbn in Hf.
  - by injection Hf as <-.
  - destruct (f s x) as [s1|] eqn:E; [|done]. eapply IH, Hf. by eapply Hstep.
Qed.

(** A step that never panics under an invariant makes an iteration that returns. *)
Lemma foldM_returns {A S} (P : S -> Prop) (f : S -> A -> outcome S) l s :
  (forall s x, P s -> x ∈ l -> exists s', f s x = Ret s' /\ P s') ->
  P s -> exists s', foldM f l s = Ret s' /\ P s'.
Proof.
  revert s. induction l as [|x l IH]; intros s Hstep Hs; cbn.
  - eauto.
  - destruct (Hstep s x Hs) as (s1 & -> & Hs1); [set_solver|].
    apply IH; [|done]. intros s2 y Hs2 Hy. apply Hstep; [done|set_solver].
Qed.

Lemma omap_ext_in {A B} (f g : A -> option B) (l : list A) : (forall x, x ∈ l -> f x = g x) -> omap f l = omap g l.
Proof.
  induction l as [|x l IH]; intros H; cbn; [done|].
  rewrite (H x) by set_solver. rewrite IH; [done|]. intros y Hy. apply H. set_solver.
Qed.

(** Filtering by a test every element passes. *)
Lemma filter_all {A} (f : A -> bool) l : (forall x, x ∈ l -> f x = true) -> List.filter f l = l.
Proof.
  induction l as [|x l IH]; intros H; cbn; [done|].
  rewrite (H x) by set_solver. rewrite IH; [done|]. intros y Hy. apply H. set_solver.
Qed.

Lemma Ok_inj_iff {E A} (a b : A) : @Ok E A a = Ok b <-> a = b.
Proof. split; [by intros [= ->]|by intros ->]. Qed.

(** Strings: concatenation and length. *)
Lemma str_app_nil_l (s : string) : EmptyString +:+ s = s.
Proof. reflexivity. Qed.

Lemma str_app_cons c (s t : string) : String c s +:+ t = String c (s +:+ t).
Proof. reflexivity. Qed.

Lemma str_app_nil_r (s : string) : s +:+ EmptyString = s.
Proof. induction s as [|c s IH]; [done|]. by rewrite str_app_cons, IH. Qed.

Lemma str_app_assoc (a b c : string) : (a +:+ b) +:+ c = a +:+ (b +:+ c).
Proof. induction a as [|x a IH]; [done|]. by rewrite !str_app_cons, IH. Qed.

Lemma str_app_inj_l (a b c : string) : a +:+ b = a +:+ c -> b = c.
Proof. induction a as [|x a IH]; [done|]. rewrite !str_app_cons. intros [=]. by apply IH. Qed.

Lemma str_length_app (a b : string) :
  String.length (a +:+ b) = (String.length a + String.length b)%nat.
Proof. induction a as [|x a IH]; [done|]. rewrite str_app_cons. cbn. by rewrite IH. Qed.

#[export] Hint Rewrite str_app_nil_l str_app_nil_r str_app_cons str_app_assoc : sb_str.

(** Two decompositions of the same string around equally long suffixes agree. *)
Lemma str_app_inj_r (a b c d : string) :
  String.length b = String.length d -> a +:+ b = c +:+ d -> a = c /\ b = d.
Proof.
  revert c. induction a as [|x a IH]; intros [|y c] Hl; autorewrite with sb_str; intros H.
  - done.
  - subst b. cbn in Hl. rewrite str_length_app in Hl. lia.
  - subst d. cbn in Hl. rewrite str_length_app in Hl. lia.
  - injection H as -> H. by destruct (IH c Hl H) as [-> ->].
Qed.
