(* ===== verification/GoStrings.v ===== *)
(** * Go string functions

    The functions of [strings] and [strconv] the modelled code calls, on Go
    strings as sequences of bytes ([string] of eight-bit [ascii]). *)

From S2P Require Import Prelude.

Local Open Scope string_scope.
Local Open Scope list_scope.
Local Open Scope Z_scope.

(** ** Characters *)

Definition ascii_Z (c : Ascii.ascii) : Z := Z.of_N (Ascii.N_of_ascii c).
Definition Z_ascii (z : Z) : Ascii.ascii := Ascii.ascii_of_N (Z.to_N z).
Definition is_digit (c : Ascii.ascii) : bool := (48 <=? ascii_Z c) && (ascii_Z c <=? 57).
Definition digit_val (c : Ascii.ascii) : Z := ascii_Z c - 48.
Definition digit_char (d : Z) : Ascii.ascii := Z_ascii (48 + d).
Definition bytes (l : list Z) : string := String.string_of_list_ascii (map Z_ascii l).

(** ** Searching and cutting *)

(** [strings.Contains]. *)
Fixpoint contains (s sub : string) : bool :=
  String.prefix sub s || match s with EmptyString => false | String _ s' => contains s' sub end.

(** [strings.Contains] for a one-byte separator. *)
Fixpoint has_char (c : Ascii.ascii) (s : string) : bool :=
  match s with EmptyString => false | String x s' => Ascii.eqb x c || has_char c s' end.

(** [strings.Cut] at the first occurrence of a one-byte separator; [strings.SplitN]
    with a limit of two has the two parts, or the whole string alone. *)
Fixpoint cut (sep : Ascii.ascii) (s : string) : option (string * string) :=
  match s with
  | EmptyString => None
  | String c s' =>
      if Ascii.eqb c sep then Some (EmptyString, s')
      else match cut sep s' with
           | Some (a, b) => Some (String c a, b)
           | None => None
           end
  end.

Definition split2 (sep : Ascii.ascii) (s : string) : list string :=
  match cut sep s with Some (a, b) => [a; b] | None => [s] end.

(** [s[n:]]. *)
Fixpoint str_drop (n : nat) (s : string) : string :=
  match n, s with
  | O, _ => s
  | S n', String _ s' => str_drop n' s'
  | S _, EmptyString => EmptyString
  end.

(** [strings.TrimPrefix] and [strings.TrimSuffix]. *)
Definition trim_prefix (s p : string) : string :=
  if String.prefix p s then str_drop (String.length p) s else s.

Fixpoint trim_suffix (s p : string) : string :=
  if String.eqb s p then EmptyString
  else match s with
       | EmptyString => EmptyString
       | String c s' => String c (trim_suffix s' p)
       end.

(** ** White space *)

(** The UTF-8 encodings of the code points of [unicode.IsSpace]. *)
Definition spaces : list string :=
  map (fun z => bytes [z]) [9; 10; 11; 12; 13; 32] ++
  [bytes [0xC2; 0x85]; bytes [0xC2; 0xA0]; bytes [0xE1; 0x9A; 0x80]] ++
  map (fun z => bytes [0xE2; 0x80; z])
    [0x80; 0x81; 0x82; 0x83; 0x84; 0x85; 0x86; 0x87; 0x88; 0x89; 0x8A; 0xA8; 0xA9; 0xAF] ++
  [bytes [0xE2; 0x81; 0x9F]; bytes [0xE3; 0x80; 0x80]].

Definition strip_one (ps : list string) (s : string) : option string :=
  match filter (fun p => String.prefix p s = true) ps with
  | p :: _ => Some (str_drop (String.length p) s)
  | [] => None
  end.

Fixpoint strip (ps : list string) (fuel : nat) (s : string) : string :=
  match fuel with
  | O => s
  | S fuel' => match strip_one ps s with Some s' => strip ps fuel' s' | None => s end
  end.

Fixpoint str_rev_app (s acc : string) : string :=
  match s with EmptyString => acc | String c s' => str_rev_app s' (String c acc) end.
Definition str_rev (s : string) : string := str_rev_app s EmptyString.

(** [strings.TrimSpace].  Every stripped sequence has a byte, so the length of
    the string is enough fuel. *)
Definition trim_space (s : string) : string :=
  let s' := strip spaces (String.length s) s in
  str_rev (strip (map str_rev spaces) (String.length s') (str_rev s')).

(** ** Numbers *)

Fixpoint digits_val (acc : Z) (s : string) : option Z :=
  match s with
  | EmptyString => Some acc
  | String c s' => if is_digit c then digits_val (acc * 10 + digit_val c) s' else None
  end.

(** [strconv.Atoi], [strconv.ParseInt(s, 10, 64)]: [None] on an error. *)
Definition atoi (s : string) : option Z :=
  let check (z : option Z) :=
    match z with
    | Some z => if (min_int64 <=? z) && (z <=? max_int64) then Some z else None
    | None => None
    end in
  match s with
  | EmptyString => None
  | String c s' =>
      if Ascii.eqb c "-"%char then
        match s' with EmptyString => None | _ => check (Z.opp <$> digits_val 0 s') end
      else if Ascii.eqb c "+"%char then
        match s' with EmptyString => None | _ => check (digits_val 0 s') end
      else check (digits_val 0 s)
  end.

(** Decimal digits of a natural number, at least [w] of them. *)
Fixpoint dec_digits (fuel : nat) (w : nat) (n : Z) (acc : string) : string :=
  match fuel with
  | O => acc
  | S fuel' =>
      if (n =? 0) && match w with O => true | _ => false end then acc
      else dec_digits fuel' (pred w) (n / 10) (String (digit_char (n mod 10)) acc)
  end.

(** [fmt.Sprintf("%0wd", n)] and [time]'s [appendInt]: sign, then at least [w]
    digits ([w] at least one).  A number below [2 ^ k] has at most [k] digits. *)
Definition pad_int (w : nat) (n : Z) : string :=
  let a := Z.abs n in
  (if n <? 0 then "-" else "") +:+
  dec_digits (w + Z.to_nat (Z.log2 a) + 1) w a "".

Definition itoa (n : Z) : string := pad_int 1 n.

(** ** Lemmas *)

Lemma prefix_app (p s : string) : String.prefix p (p +:+ s) = true.
Proof.
  induction p as [|c p IH]; [by destruct s|].
  rewrite str_app_cons. cbn. destruct (Ascii.ascii_dec c c); [done|congruence].
Qed.

Lemma prefix_iff (p s : string) : String.prefix p s = true <-> exists t, s = p +:+ t.
Proof.
  split; [|intros [t ->]; apply prefix_app].
  revert s. induction p as [|c p IH]; intros s H; [by exists s|].
  destruct s as [|d s]; [done|]. cbn in H.
  destruct (Ascii.ascii_dec c d) as [->|]; [|done].
  apply IH in H as [t ->]. by exists t.
Qed.

Lemma str_drop_app (p s : string) : str_drop (String.length p) (p +:+ s) = s.
Proof. induction p as [|c p IH]; [done|]. by rewrite str_app_cons. Qed.

Lemma trim_prefix_app (p s : string) : trim_prefix (p +:+ s) p = s.
Proof. unfold trim_prefix. by rewrite prefix_app, str_drop_app. Qed.

Lemma trim_suffix_app (s p : string) : trim_suffix (s +:+ p) p = s.
Proof.
  induction s as [|c s IH].
  - rewrite str_app_nil_l. destruct p; cbn; [done|]. by rewrite Ascii.eqb_refl, String.eqb_refl.
  - rewrite str_app_cons. cbn [trim_suffix].
    destruct (String.eqb_spec (String c (s +:+ p)) p) as [E|]; [|by rewrite IH].
    apply (f_equal String.length) in E. cbn in E. rewrite str_length_app in E. lia.
Qed.

Lemma cut_app (sep : Ascii.ascii) (a b : string) :
  has_char sep a = false -> cut sep (a +:+ String sep b) = Some (a, b).
Proof.
  induction a as [|c a IH]; intros H; autorewrite with sb_str; cbn.
  - by rewrite Ascii.eqb_refl.
  - cbn in H. apply orb_false_iff in H as [-> H]. by rewrite IH.
Qed.

Lemma cut_Some (sep : Ascii.ascii) (s a b : string) :
  cut sep s = Some (a, b) -> s = a +:+ String sep b /\ has_char sep a = false.
Proof.
  revert a. induction s as [|c s IH]; intros a H; [done|]. cbn in H.
  destruct (Ascii.eqb_spec c sep) as [->|Hne].
  - injection H as <- <-. done.
  - destruct (cut sep s) as [[a' b']|]; [|done]. injection H as <- <-.
    destruct (IH a' eq_refl) as [-> Ha]. split; [done|]. cbn.
    rewrite Ha, orb_false_r. by apply Ascii.eqb_neq.
Qed.

Lemma cut_None (sep : Ascii.ascii) (s : string) : cut sep s = None <-> has_char sep s = false.
Proof.
  induction s as [|c s IH]; [done|]. cbn.
  destruct (Ascii.eqb_spec c sep); cbn; [done|].
  destruct (cut sep s) as [[a b]|]; [|by rewrite <-IH].
  split; [done|]. intros H. by apply IH in H.
Qed.

Lemma has_char_app (c : Ascii.ascii) (a b : string) :
  has_char c (a +:+ b) = has_char c a || has_char c b.
Proof. induction a as [|x a IH]; [done|]. rewrite str_app_cons. cbn. by rewrite IH, orb_assoc. Qed.

(** Cutting at the last separator: two keys whose last parts lack the separator
    are equal only when both parts are. *)
Lemma last_sep_inj (sep : Ascii.ascii) (a b c d : string) :
  has_char sep b = false -> has_char sep d = false ->
  a +:+ String sep b = c +:+ String sep d -> a = c /\ b = d.
Proof.
  intros Hb Hd. revert c. induction a as [|x a IH]; intros [|y c]; autorewrite with sb_str; intros H.
  - by injection H as ->.
  - injection H as <- ->. rewrite has_char_app in Hb. cbn in Hb.
    rewrite Ascii.eqb_refl in Hb. cbn in Hb. by rewrite orb_true_r in Hb.
  - injection H as -> <-. rewrite has_char_app in Hd. cbn in Hd.
    rewrite Ascii.eqb_refl in Hd. cbn in Hd. by rewrite orb_true_r in Hd.
  - injection H as -> H. by destruct (IH c H) as [-> ->].
Qed.

(** ** Decimal round trip *)

Lemma Z_ascii_digit d : 0 <= d < 10 -> is_digit (digit_char d) = true /\ digit_val (digit_char d) = d.
Proof.
  intros H. assert (d = 0 \/ d = 1 \/ d = 2 \/ d = 3 \/ d = 4 \/ d = 5 \/ d = 6 \/ d = 7 \/ d = 8 \/ d = 9) as Hd by lia.
  repeat destruct Hd as [->|Hd]; try (split; reflexivity). subst d. split; reflexivity.
Qed.

Lemma digits_val_dec fuel w n acc s : 0 <= n < 10 ^ Z.of_nat fuel ->
  exists k, digits_val acc (dec_digits fuel w n s) = digits_val (acc * 10 ^ k + n) s.
Proof.
  revert w n acc s. induction fuel as [|fuel IH]; intros w n acc s Hn.
  - exists 0. cbn in Hn. replace (acc * 10 ^ 0 + n) with acc by lia. done.
  - cbn [dec_digits]. destruct ((n =? 0) && _) eqn:E.
    + exists 0. zbool. subst n. replace (acc * 10 ^ 0 + 0) with acc by lia. done.
    + rewrite Nat2Z.inj_succ, Z.pow_succ_r in Hn by lia.
      assert (0 <= n mod 10 < 10) as Hd by (apply Z.mod_pos_bound; lia).
      destruct (IH (pred w) (n / 10) acc (String (digit_char (n mod 10)) s)) as [k Hk].
      { split; [apply Z.div_pos; lia|]. apply Z.div_lt_upper_bound; lia. }
      rewrite Hk. cbn [digits_val]. destruct (Z_ascii_digit (n mod 10) Hd) as [-> ->].
      destruct (decide (0 <= k)).
      * exists (k + 1). f_equal. rewrite Z.pow_add_r by lia. pose proof (Z.div_mod n 10). lia.
      * exists (-1). f_equal. rewrite (Z.pow_neg_r 10 k), (Z.pow_neg_r 10 (-1)) by lia.
        pose proof (Z.div_mod n 10). lia.
Qed.

(** The digits come first, whatever follows them. *)
Lemma dec_digits_head fuel n s c s' : 0 <= n ->
  dec_digits (S fuel) 1 n s = String c s' -> is_digit c = true.
Proof.
  assert (forall fuel w n s c s', 0 <= n -> (exists d t, s = String d t /\ is_digit d = true) ->
    dec_digits fuel w n s = String c s' -> is_digit c = true) as H.
  { clear. induction fuel as [|fuel IH]; intros w n s c s' Hn (d & t & -> & Hd) E; cbn in E; [congruence|].
    destruct (_ && _); [congruence|]. eapply IH, E; [apply Z.div_pos; lia|].
    do 2 eexists. split; [done|]. apply Z_ascii_digit, Z.mod_pos_bound. lia. }
  intros Hn E. cbn in E. rewrite andb_false_r in E. eapply H, E; [apply Z.div_pos; lia|].
  do 2 eexists. split; [done|]. apply Z_ascii_digit, Z.mod_pos_bound. lia.
Qed.

Lemma dec_digits_nonempty fuel n : dec_digits (S fuel) 1 n "" <> "".
Proof.
  assert (forall fuel w z c s, dec_digits fuel w z (String c s) <> "") as H.
  { clear. induction fuel as [|fuel IH]; intros w z c s; cbn; [done|]. destruct (_ && _); [done|]. apply IH. }
  cbn. rewrite andb_false_r. apply H.
Qed.

Lemma atoi_itoa n : int64_range n -> atoi (itoa n) = Some n.
Proof.
  unfold int64_range. intros Hr. unfold itoa, pad_int. set (a := Z.abs n).
  change (1 + Z.to_nat (Z.log2 a) + 1)%nat with (S (Z.to_nat (Z.log2 a) + 1)).
  set (f := (Z.to_nat (Z.log2 a) + 1)%nat). set (ds := dec_digits (S f) 1 a "").
  assert (digits_val 0 ds = Some a) as Hv.
  { destruct (digits_val_dec (S f) 1 a 0 "") as [k Hk]; [|unfold ds; rewrite Hk; cbn; f_equal; lia].
    split; [lia|]. assert (0 <= Z.log2 a) by apply Z.log2_nonneg.
    assert (a < 2 ^ (Z.log2 a + 1)).
    { destruct (Z.eq_dec a 0) as [->|]; [done|]. apply Z.log2_lt_pow2; lia. }
    eapply Z.lt_le_trans; [done|]. transitivity (10 ^ (Z.log2 a + 1)); [apply Z.pow_le_mono_l; lia|].
    apply Z.pow_le_mono_r; [lia|]. unfold f. lia. }
  assert (ds <> "") as Hne by apply dec_digits_nonempty.
  assert ((min_int64 <=? n) && (n <=? max_int64) = true) as Hc by (apply andb_true_iff; split; apply Z.leb_le; lia).
  destruct (Z.ltb_spec n 0).
  - autorewrite with sb_str. cbn [atoi]. rewrite Ascii.eqb_refl. destruct ds as [|d ds']; [done|].
    rewrite Hv. cbn. replace (- a) with n by lia. by rewrite Hc.
  - rewrite str_app_nil_l. replace a with n in * by lia. destruct ds as [|d ds'] eqn:E; [done|].
    assert (is_digit d = true) as Hd.
    { eapply (dec_digits_head f a "" d ds'); [lia|exact E]. }
    unfold atoi. destruct (Ascii.eqb_spec d "-"%char) as [->|]; [done|].
    destruct (Ascii.eqb_spec d "+"%char) as [->|]; [done|]. by rewrite Hv, Hc.
Qed.
