(* ===== verification/GoTime.v ===== *)
(** * Go time

    The part of package [time] the quota periods and the schedules use: instants
    as nanoseconds since the Unix epoch, the proleptic Gregorian calendar in UTC,
    the layouts ["2006-01-02"], ["2006-01"] and [RFC3339], and [Sub] with its
    saturation at the range of [Duration]. *)

From S2P Require Import Prelude GoStrings.

Local Open Scope string_scope.
Local Open Scope list_scope.
Local Open Scope Z_scope.

(** ** Calendar *)

Definition second : Z := 10 ^ 9.
Definition minute : Z := 60 * second.
Definition day : Z := 86400 * second.

(** The zero [time.Time]: January 1, year 1, 00:00:00 UTC. *)
Definition zero_time : Z := -62135596800 * second.
Definition IsZero (t : Z) : bool := t =? zero_time.

(** Days of an era of 400 years, from March 1 of its first year. *)
Definition era_days : Z := 146097.

(** Year of era, month and day of a day of era; years start in March. *)
Definition yoe_of_doe (doe : Z) : Z := (doe - doe / 1460 + doe / 36524 - doe / 146096) / 365.
Definition md_of_doy (doy : Z) : Z * Z :=
  let mp := (5 * doy + 2) / 153 in
  (if mp <? 10 then mp + 3 else mp - 9, doy - (153 * mp + 2) / 5 + 1).
Definition doy_of_md (m d : Z) : Z := (153 * (m + (if 2 <? m then -3 else 9)) + 2) / 5 + d - 1.
Definition doe_of (yoe doy : Z) : Z := yoe * 365 + yoe / 4 - yoe / 100 + doy.

(** Year, month and day of a day number (day 0 is 1970-01-01). *)
Definition civil_from_days (z : Z) : Z * Z * Z :=
  let z := z + 719468 in
  let era := z / era_days in
  let doe := z mod era_days in
  let yoe := yoe_of_doe doe in
  let '(m, d) := md_of_doy (doe - (365 * yoe + yoe / 4 - yoe / 100)) in
  (yoe + era * 400 + (if m <=? 2 then 1 else 0), m, d).

Definition days_from_civil (y m d : Z) : Z :=
  let y := y - (if m <=? 2 then 1 else 0) in
  (y / 400) * era_days + doe_of (y mod 400) (doy_of_md m d) - 719468.

Definition is_leap (y : Z) : bool :=
  (y mod 4 =? 0) && (negb (y mod 100 =? 0) || (y mod 400 =? 0)).
Definition days_in (m y : Z) : Z :=
  if m =? 2 then (if is_leap y then 29 else 28)
  else if (m =? 4) || (m =? 6) || (m =? 9) || (m =? 11) then 30 else 31.

(** [t.Date()], [t.Year()], [t.Weekday()] (Sunday is 0), [t.Hour()], [t.Minute()], [t.Unix()]. *)
Definition day_of (t : Z) : Z := t / day.
Definition Date_of (t : Z) : Z * Z * Z := civil_from_days (day_of t).
Definition Year (t : Z) : Z := (Date_of t).1.1.
Definition Weekday (t : Z) : Z := (day_of t + 4) mod 7.
Definition Hour (t : Z) : Z := t mod day / (60 * minute).
Definition Minute (t : Z) : Z := t mod (60 * minute) / minute.
Definition Second (t : Z) : Z := t mod minute / second.
Definition Unix (t : Z) : Z := t / second.

(** [time.Date(y, m, d, hour, min, sec, nsec, time.UTC)] for a month and a day in range. *)
Definition Date (y m d hour min sec nsec : Z) : Z :=
  days_from_civil y m d * day + (hour * 3600 + min * 60 + sec) * second + nsec.

(** [t.AddDate(0, 0, n)] for an instant at midnight: a day that overflows its month
    is normalised by [time.Date]. *)
Definition AddDays (t n : Z) : Z :=
  let '(y, m, d) := Date_of t in
  (days_from_civil y m d + n) * day + t mod day.

(** [t.Sub(u)]: saturates at the range of [Duration]. *)
Definition Sub (t u : Z) : Z := Z.max min_int64 (Z.min max_int64 (t - u)).

(** ** Layouts *)

Definition format_date (t : Z) : string :=
  let '(y, m, d) := Date_of t in
  pad_int 4 y +:+ "-" +:+ pad_int 2 m +:+ "-" +:+ pad_int 2 d.

Definition format_month (t : Z) : string :=
  let '(y, m, d) := Date_of t in pad_int 4 y +:+ "-" +:+ pad_int 2 m.

Definition format_rfc3339 (t : Z) : string :=
  format_date t +:+ "T" +:+ pad_int 2 (Hour t) +:+ ":" +:+ pad_int 2 (Minute t) +:+ ":" +:+
  pad_int 2 (Second t) +:+ "Z".

(** The scanner of [time.Parse]: each step consumes a prefix of the value. *)
Definition skip (c : ascii) (s : string) : option string :=
  match s with
  | String x s' => if Ascii.eqb x c then Some s' else None
  | EmptyString => None
  end.

Definition getnum (s : string) (fixed : bool) : option (Z * string) :=
  match s with
  | String a s1 =>
      if is_digit a then
        match s1 with
        | String b s2 =>
            if is_digit b then Some (digit_val a * 10 + digit_val b, s2)
            else if fixed then None else Some (digit_val a, s1)
        | EmptyString => if fixed then None else Some (digit_val a, s1)
        end
      else None
  | EmptyString => None
  end.

Definition getyear (s : string) : option (Z * string) :=
  match s with
  | String a (String b (String c (String d s'))) =>
      if is_digit a && is_digit b && is_digit c && is_digit d then
        Some (digit_val a * 1000 + digit_val b * 100 + digit_val c * 10 + digit_val d, s')
      else None
  | _ => None
  end.

Definition in_range (lo hi n : Z) : option Z := if (lo <=? n) && (n <=? hi) then Some n else None.

Definition parse_ymd (s : string) : option (Z * Z * Z * string) :=
  '(y, s) ← getyear s; s ← skip "-"%char s;
  '(m, s) ← getnum s true; m ← in_range 1 12 m; s ← skip "-"%char s;
  '(d, s) ← getnum s true; Some (y, m, d, s).

Definition valid_day (y m d : Z) : bool := (1 <=? d) && (d <=? days_in m y).

(** [time.Parse("2006-01-02", s)]. *)
Definition parse_date (s : string) : option Z :=
  '(y, m, d, s) ← parse_ymd s;
  match s with
  | EmptyString => if valid_day y m d then Some (Date y m d 0 0 0 0) else None
  | _ => None
  end.

(** The longest prefix of digits. *)
Fixpoint span_digits (s : string) : string * string :=
  match s with
  | String c s' =>
      if is_digit c then let '(a, b) := span_digits s' in (String c a, b)
      else (EmptyString, s)
  | EmptyString => (EmptyString, s)
  end.

(** [parseNanoseconds]: the first nine digits count. *)
Definition nanos (digits : string) : Z :=
  let k := Nat.min 9 (String.length digits) in
  default 0 (digits_val 0 (String.substring 0 k digits)) * 10 ^ (9 - Z.of_nat k).

(** A fraction after the seconds is accepted though the layout has none. *)
Definition parse_fraction (s : string) : Z * string :=
  match s with
  | String c ((String d _) as s') =>
      if (Ascii.eqb c "."%char || Ascii.eqb c ","%char) && is_digit d then
        let '(ds, rest) := span_digits s' in (nanos ds, rest)
      else (0, s)
  | _ => (0, s)
  end.

(** The zone of the layout [Z07:00], as an offset in seconds. *)
Definition parse_zone (s : string) : option (Z * string) :=
  match s with
  | String "Z"%char s' => Some (0, s')
  | String sign (String h1 (String h2 (String ":"%char (String m1 (String m2 s'))))) =>
      '(hr, _) ← getnum (String h1 (String h2 "")) true;
      '(mm, _) ← getnum (String m1 (String m2 "")) true;
      hr ← in_range 0 24 hr; mm ← in_range 0 60 mm;
      if Ascii.eqb sign "+"%char then Some ((hr * 60 + mm) * 60, s')
      else if Ascii.eqb sign "-"%char then Some (- ((hr * 60 + mm) * 60), s')
      else None
  | _ => None
  end.

(** [time.Parse(time.RFC3339, s)]; an hour may have one digit. *)
Definition parse_rfc3339 (s : string) : option Z :=
  '(y, m, d, s) ← parse_ymd s;
  s ← skip "T"%char s; '(h, s) ← getnum s false; h ← in_range 0 23 h;
  s ← skip ":"%char s; '(mi, s) ← getnum s true; mi ← in_range 0 59 mi;
  s ← skip ":"%char s; '(se, s) ← getnum s true; se ← in_range 0 59 se;
  let '(ns, s) := parse_fraction s in
  '(off, s) ← parse_zone s;
  match s with
  | EmptyString =>
      if valid_day y m d then Some (Date y m d h mi se ns - off * second) else None
  | _ => None
  end.

#[global] Arguments day : simpl never.
#[global] Arguments minute : simpl never.
#[global] Arguments second : simpl never.
#[global] Arguments zero_time : simpl never.
#[global] Arguments Date_of : simpl never.
#[global] Arguments AddDays : simpl never.
#[global] Arguments Date : simpl never.
#[global] Arguments format_date : simpl never.
#[global] Arguments format_month : simpl never.
#[global] Arguments format_rfc3339 : simpl never.

(** ** Lemmas on the calendar *)

(** Exhaustive checks over a short interval, by evaluation. *)
Fixpoint all_from (P : Z -> bool) (fuel : nat) (z : Z) : bool :=
  match fuel with O => true | S f => P z && all_from P f (z + 1) end.

Lemma all_from_spec P fuel z :
  all_from P fuel z = true -> forall x, z <= x < z + Z.of_nat fuel -> P x = true.
Proof.
  revert z. induction fuel as [|f IH]; intros z H x Hx; [lia|].
  cbn in H. apply andb_true_iff in H as [H1 H2].
  destruct (Z.eq_dec x z) as [->|]; [done|]. apply (IH (z + 1) H2). lia.
Qed.

(** First day of a year of era, its end, and the numerator of [yoe_of_doe]. *)
Definition year_start (y : Z) : Z := 365 * y + y / 4 - y / 100.
Definition year_end (y : Z) : Z := if y =? 399 then era_days else year_start (y + 1).
Definition yoe_num (doe : Z) : Z := doe - doe / 1460 + doe / 36524 - doe / 146096.

Lemma yoe_num_mono a b : 0 <= a <= b -> b < era_days -> yoe_num a <= yoe_num b.
Proof. unfold yoe_num, era_days. intros. Z.to_euclidean_division_equations. lia. Qed.

Definition check_year (y : Z) : bool :=
  (365 * y <=? yoe_num (year_start y)) && (yoe_num (year_end y - 1) <? 365 * (y + 1)) &&
  (0 <=? year_start y) && (year_end y <=? era_days) &&
  (year_end y - year_start y =? (if is_leap (y + 1) then 366 else 365)).

Lemma check_year_all y : 0 <= y < 400 -> check_year y = true.
Proof.
  assert (all_from check_year 400 0 = true) as H by (vm_compute; reflexivity).
  intros Hy. apply (all_from_spec _ _ _ H). lia.
Qed.

Definition check_doy (doy : Z) : bool :=
  let '(m, d) := md_of_doy doy in
  (1 <=? m) && (m <=? 12) && (1 <=? d) && (doy_of_md m d =? doy) &&
  (d <=? if m =? 2 then (if doy =? 365 then 29 else 28) else days_in m 1).

Lemma check_doy_all doy : 0 <= doy < 366 -> check_doy doy = true.
Proof.
  assert (all_from check_doy 366 0 = true) as H by (vm_compute; reflexivity).
  intros Hy. apply (all_from_spec _ _ _ H). lia.
Qed.

Definition check_md (i : Z) : bool :=
  let m := i / 31 + 1 in let d := i mod 31 + 1 in
  negb (d <=? days_in m 0) ||
  (let doy := doy_of_md m d in let '(m', d') := md_of_doy doy in
   (m' =? m) && (d' =? d) && (0 <=? doy) && (doy <? 366) &&
   (negb (doy =? 365) || ((m =? 2) && (d =? 29)))).

Lemma check_md_all m d : 1 <= m <= 12 -> 1 <= d <= 31 -> check_md ((m - 1) * 31 + (d - 1)) = true.
Proof.
  assert (all_from check_md 372 0 = true) as H by (vm_compute; reflexivity).
  intros Hm Hd. apply (all_from_spec _ _ _ H). lia.
Qed.

(** Every day of an era lies in one of its years. *)
Lemma find_year doe : 0 <= doe < era_days ->
  exists y, 0 <= y < 400 /\ year_start y <= doe < year_end y.
Proof.
  intros Hd.
  assert (forall n : nat, (n < 400)%nat -> doe < year_end (Z.of_nat n) ->
    exists y, 0 <= y < 400 /\ year_start y <= doe < year_end y) as H.
  { induction n as [|n IH]; intros Hn Hlt.
    - exists 0. split; [lia|]. change (year_start 0) with 0. split; [lia|done].
    - destruct (Z.lt_ge_cases doe (year_end (Z.of_nat n))) as [|Hge]; [apply IH; [lia|done]|].
      exists (Z.of_nat (S n)). split; [lia|]. split; [|done].
      unfold year_end in Hge. replace (Z.of_nat (S n)) with (Z.of_nat n + 1) by lia.
      destruct (Z.eqb_spec (Z.of_nat n) 399); lia. }
  apply (H 399%nat); [lia|]. change (year_end (Z.of_nat 399)) with era_days. lia.
Qed.

Lemma yoe_of_doe_year y doe :
  0 <= y < 400 -> year_start y <= doe < year_end y -> yoe_of_doe doe = y.
Proof.
  intros Hy Hdoe. pose proof (check_year_all y Hy) as C. unfold check_year in C. zbool.
  change (yoe_of_doe doe) with (yoe_num doe / 365).
  assert (yoe_num (year_start y) <= yoe_num doe) by (apply yoe_num_mono; lia).
  assert (yoe_num doe <= yoe_num (year_end y - 1)) by (apply yoe_num_mono; lia).
  symmetry. apply (Z.div_unique _ _ _ (yoe_num doe - 365 * y)); lia.
Qed.

Lemma is_leap_era y k : is_leap (y + k * 400) = is_leap y.
Proof.
  unfold is_leap.
  replace ((y + k * 400) mod 4) with (y mod 4) by (Z.to_euclidean_division_equations; lia).
  replace ((y + k * 400) mod 100) with (y mod 100) by (Z.to_euclidean_division_equations; lia).
  replace ((y + k * 400) mod 400) with (y mod 400) by (Z.to_euclidean_division_equations; lia).
  done.
Qed.

Lemma days_in_era m y k : days_in m (y + k * 400) = days_in m y.
Proof. unfold days_in. by rewrite is_leap_era. Qed.

Lemma days_in_bounds m y : 28 <= days_in m y <= 31.
Proof. unfold days_in. repeat case_match; lia. Qed.

(** Splitting a day number along its civil date loses nothing. *)
Lemma civil_from_days_spec z :
  let '(y, m, d) := civil_from_days z in
  days_from_civil y m d = z /\ 1 <= m <= 12 /\ 1 <= d <= days_in m y.
Proof.
  unfold civil_from_days, days_from_civil.
  set (w := z + 719468). set (era := w / era_days). set (doe := w mod era_days).
  assert (0 <= doe < era_days) as Hdoe by (apply Z.mod_pos_bound; done).
  destruct (find_year doe Hdoe) as (yoe & Hyoe & Hin).
  rewrite (yoe_of_doe_year yoe doe Hyoe Hin).
  pose proof (check_year_all yoe Hyoe) as CY. unfold check_year in CY. zbool.
  fold (year_start yoe). set (doy := doe - year_start yoe).
  assert (0 <= doy < 366) as Hdoy by (subst doy; destruct (is_leap (yoe + 1)); lia).
  pose proof (check_doy_all doy Hdoy) as CD. unfold check_doy in CD.
  destruct (md_of_doy doy) as [m d]. zbool.
  assert (yoe + era * 400 + (if m <=? 2 then 1 else 0) - (if m <=? 2 then 1 else 0) = yoe + era * 400)
    as -> by lia.
  rewrite Z.div_add, Z.div_small, Z_mod_plus_full, Z.mod_small by lia.
  split; [|split; [lia|split; [lia|]]].
  - unfold doe_of. pose proof (Z.div_mod w era_days). subst doy era doe. unfold year_start in *. lia.
  - replace (yoe + era * 400 + (if m <=? 2 then 1 else 0))
      with (yoe + (if m <=? 2 then 1 else 0) + era * 400) by lia.
    rewrite days_in_era.
    unfold days_in in *. destruct (Z.eqb_spec m 2) as [->|]; [|done].
    destruct (Z.eqb_spec doy 365); cbn [Z.leb Z.compare Pos.compare Pos.compare_cont] in *.
    + destruct (is_leap (yoe + 1)); [lia|]. subst doy. lia.
    + destruct (is_leap (yoe + 1)); lia.
Qed.

Lemma days_from_civil_spec y m d :
  1 <= m <= 12 -> 1 <= d <= days_in m y -> civil_from_days (days_from_civil y m d) = (y, m, d).
Proof.
  intros Hm Hd. pose proof (days_in_bounds m y).
  unfold civil_from_days, days_from_civil.
  set (b := if m <=? 2 then 1 else 0). set (yoe := (y - b) mod 400). set (era := (y - b) / 400).
  assert (0 <= yoe < 400) as Hyoe by (apply Z.mod_pos_bound; done).
  assert (y = yoe + b + era * 400) as Hy by (pose proof (Z.div_mod (y - b) 400); subst yoe era; lia).
  pose proof (check_md_all m d Hm ltac:(lia)) as C. unfold check_md in C.
  replace (((m - 1) * 31 + (d - 1)) / 31 + 1) with m in C by (Z.to_euclidean_division_equations; lia).
  replace (((m - 1) * 31 + (d - 1)) mod 31 + 1) with d in C by (Z.to_euclidean_division_equations; lia).
  assert ((d <=? days_in m 0) = true) as Hd0.
  { apply Z.leb_le. unfold days_in in *. repeat case_match; try lia; done. }
  rewrite Hd0 in C. cbn [negb orb] in C.
  pose proof (check_year_all yoe Hyoe) as CY. unfold check_year in CY.
  set (doy := doy_of_md m d) in *.
  destruct (md_of_doy doy) as [m' d'] eqn:Emd. zbool. subst m' d'.
  assert (year_start yoe <= doe_of yoe doy < year_end yoe) as Hin.
  { assert (is_leap y = is_leap (yoe + b)) as Hl by (rewrite Hy; apply is_leap_era).
    unfold doe_of, year_start in *. split; [lia|].
    assert (doy = 365 -> is_leap (yoe + 1) = true) as Hlast.
    { intros ->. match goal with H : (_ || _)%bool = true |- _ => cbn in H end. zbool. subst m d.
      unfold days_in in Hd. cbn in Hd, b. subst b. rewrite <-Hl. destruct (is_leap y); [done|lia]. }
    destruct (is_leap (yoe + 1)); [lia|].
    destruct (Z.eq_dec doy 365) as [E|]; [by specialize (Hlast E)|lia]. }
  replace (era * era_days + doe_of yoe doy - 719468 + 719468) with (doe_of yoe doy + era * era_days) by lia.
  assert (0 <= doe_of yoe doy < era_days) as Hb by lia.
  rewrite Z.div_add, Z_mod_plus_full, (Z.div_small (doe_of _ _)), (Z.mod_small (doe_of _ _))
    by (done || exact Hb).
  rewrite (yoe_of_doe_year yoe _ Hyoe Hin).
  replace (doe_of yoe doy - (365 * yoe + yoe / 4 - yoe / 100)) with doy by (unfold doe_of; lia).
  rewrite Emd. fold b. repeat f_equal. lia.
Qed.

Lemma Date_of_valid t :
  let '(y, m, d) := Date_of t in
  days_from_civil y m d = day_of t /\ 1 <= m <= 12 /\ 1 <= d <= days_in m y.
Proof. apply civil_from_days_spec. Qed.

Lemma day_pos : 0 < day.
Proof. done. Qed.

Lemma day_split t : t = day_of t * day + t mod day.
Proof. unfold day_of. pose proof (Z.div_mod t day). pose proof day_pos. lia. Qed.

Lemma AddDays_eq t n : AddDays t n = t + n * day.
Proof.
  unfold AddDays. pose proof (Date_of_valid t) as H. destruct (Date_of t) as [[y m] d].
  destruct H as [-> _]. rewrite (day_split t) at 3. lia.
Qed.

Lemma day_of_midnight n : day_of (n * day) = n.
Proof. unfold day_of. by rewrite Z.div_mul. Qed.

Lemma midnight_Date t :
  let '(y, m, d) := Date_of t in Date y m d 0 0 0 0 = day_of t * day.
Proof.
  pose proof (Date_of_valid t) as H. destruct (Date_of t) as [[y m] d].
  destruct H as [H _]. unfold Date. rewrite H. lia.
Qed.

(** The date determines the day, and conversely. *)
Lemma Date_of_inj t u : Date_of t = Date_of u <-> day_of t = day_of u.
Proof.
  split; [|unfold Date_of; by intros ->].
  intros E. pose proof (midnight_Date t) as Ht. pose proof (midnight_Date u) as Hu.
  rewrite E in Ht. destruct (Date_of u) as [[y m] d]. pose proof day_pos. nia.
Qed.

(** ** Lemmas on the layouts *)

Lemma pad_int_2 n : 0 <= n < 100 ->
  pad_int 2 n = String (digit_char (n / 10)) (String (digit_char (n mod 10)) "").
Proof.
  intros H. unfold pad_int. rewrite Z.abs_eq by lia.
  destruct (Z.ltb_spec n 0); [lia|]. rewrite str_app_nil_l.
  change (2 + Z.to_nat (Z.log2 n) + 1)%nat with (S (S (Z.to_nat (Z.log2 n) + 1))).
  rewrite Nat.add_1_r. cbn [dec_digits pred]. rewrite !andb_false_r.
  assert (n / 10 / 10 = 0) as -> by (Z.to_euclidean_division_equations; lia).
  cbn [Z.eqb andb]. repeat f_equal. rewrite Z.mod_small; [done|]. Z.to_euclidean_division_equations; lia.
Qed.

Lemma pad_int_4 n : 0 <= n < 10000 ->
  pad_int 4 n = String (digit_char (n / 1000)) (String (digit_char (n / 100 mod 10))
    (String (digit_char (n / 10 mod 10)) (String (digit_char (n mod 10)) ""))).
Proof.
  intros H. unfold pad_int. rewrite Z.abs_eq by lia.
  destruct (Z.ltb_spec n 0); [lia|]. rewrite str_app_nil_l.
  change (4 + Z.to_nat (Z.log2 n) + 1)%nat with (S (S (S (S (Z.to_nat (Z.log2 n) + 1))))).
  rewrite Nat.add_1_r. cbn [dec_digits pred]. rewrite !andb_false_r.
  assert (n / 10 / 10 / 10 / 10 = 0) as -> by (Z.to_euclidean_division_equations; lia).
  cbn [Z.eqb andb]. rewrite !Z.div_div by lia. repeat f_equal.
  rewrite Z.mod_small; [done|]. Z.to_euclidean_division_equations; lia.
Qed.

Lemma getnum_pad n s fixed : 0 <= n < 100 -> getnum (pad_int 2 n +:+ s) fixed = Some (n, s).
Proof.
  intros H. rewrite pad_int_2 by done. autorewrite with sb_str. cbn [getnum].
  destruct (Z_ascii_digit (n / 10)) as [-> ->]; [Z.to_euclidean_division_equations; lia|].
  destruct (Z_ascii_digit (n mod 10)) as [-> ->]; [Z.to_euclidean_division_equations; lia|].
  do 2 f_equal. Z.to_euclidean_division_equations; lia.
Qed.

Lemma getyear_pad n s : 0 <= n < 10000 -> getyear (pad_int 4 n +:+ s) = Some (n, s).
Proof.
  intros H. rewrite pad_int_4 by done. autorewrite with sb_str. cbn [getyear].
  destruct (Z_ascii_digit (n / 1000)) as [-> ->]; [Z.to_euclidean_division_equations; lia|].
  destruct (Z_ascii_digit (n / 100 mod 10)) as [-> ->]; [Z.to_euclidean_division_equations; lia|].
  destruct (Z_ascii_digit (n / 10 mod 10)) as [-> ->]; [Z.to_euclidean_division_equations; lia|].
  destruct (Z_ascii_digit (n mod 10)) as [-> ->]; [Z.to_euclidean_division_equations; lia|].
  cbn [andb]. do 2 f_equal. Z.to_euclidean_division_equations; lia.
Qed.

Lemma skip_same c s : skip c (String c s) = Some s.
Proof. cbn. by rewrite Ascii.eqb_refl. Qed.

Lemma in_range_ok lo hi n : lo <= n <= hi -> in_range lo hi n = Some n.
Proof.
  intros [H1 H2]. unfold in_range. apply Z.leb_le in H1 as ->. by apply Z.leb_le in H2 as ->.
Qed.

(** Run the scanner over printed fields. *)
Ltac scan :=
  repeat (first [ rewrite getyear_pad by lia | rewrite skip_same | rewrite getnum_pad by lia
                | rewrite in_range_ok by lia ]; cbn [mbind option_bind]).

(** Years that the layouts print with four digits. *)
Definition year4 (t : Z) : Prop := 0 <= Year t <= 9999.

Lemma parse_ymd_format t s : year4 t ->
  parse_ymd (format_date t +:+ s) =
  let '(y, m, d) := Date_of t in Some (y, m, d, s).
Proof.
  unfold year4, Year, format_date, parse_ymd. pose proof (Date_of_valid t) as H.
  destruct (Date_of t) as [[y m] d]. cbn. intros Hy.
  destruct H as (_ & Hm & Hd). pose proof (days_in_bounds m y).
  autorewrite with sb_str. by scan.
Qed.

Lemma valid_day_Date t : let '(y, m, d) := Date_of t in valid_day y m d = true.
Proof.
  pose proof (Date_of_valid t) as H. destruct (Date_of t) as [[y m] d].
  destruct H as (_ & _ & H1 & H2). unfold valid_day.
  apply Z.leb_le in H1 as ->. by apply Z.leb_le in H2 as ->.
Qed.

Lemma parse_date_format t : year4 t -> parse_date (format_date t) = Some (day_of t * day).
Proof.
  intros Hy. unfold parse_date.
  rewrite <-(str_app_nil_r (format_date t)), parse_ymd_format by done.
  pose proof (valid_day_Date t) as Hv. pose proof (midnight_Date t) as Hm.
  destruct (Date_of t) as [[y m] d]. cbn [mbind option_bind]. by rewrite Hv, Hm.
Qed.

Lemma format_date_inj t u :
  year4 t -> year4 u -> format_date t = format_date u <-> day_of t = day_of u.
Proof.
  intros Ht Hu. split.
  - intros E. pose proof (parse_date_format t Ht) as H. rewrite E, parse_date_format in H by done.
    injection H. pose proof day_pos. nia.
  - intros E. unfold format_date, Date_of. by rewrite E.
Qed.

Lemma clock_split t :
  t mod day = (Hour t * 3600 + Minute t * 60 + Second t) * second + t mod second /\
  0 <= Hour t < 24 /\ 0 <= Minute t < 60 /\ 0 <= Second t < 60.
Proof.
  unfold Hour, Minute, Second, day, minute, second.
  Z.to_euclidean_division_equations; lia.
Qed.

(** Printing an instant in [RFC3339] and parsing it back drops its nanoseconds. *)
Lemma parse_rfc3339_format t : year4 t -> parse_rfc3339 (format_rfc3339 t) = Some (t - t mod second).
Proof.
  intros Hy. unfold parse_rfc3339, format_rfc3339. destruct (clock_split t) as (Hc & Hh & Hmi & Hs).
  rewrite parse_ymd_format by done.
  pose proof (valid_day_Date t) as Hv. pose proof (midnight_Date t) as Hm. pose proof (day_split t) as Hd.
  destruct (Date_of t) as [[y m] d]. cbn [mbind option_bind].
  autorewrite with sb_str. scan.
  cbn. rewrite Hv. f_equal. unfold Date in *. lia.
Qed.

(** Years of days: a date lies between the first days of its year and of the next one. *)
Lemma new_year_closed y :
  days_from_civil y 1 1 = 365 * (y - 1) + (y - 1) / 4 - (y - 1) / 100 + (y - 1) / 400 - 719162.
Proof.
  unfold days_from_civil, doe_of, era_days. change (doy_of_md 1 1) with 306.
  cbn [Z.leb Z.compare Pos.compare Pos.compare_cont].
  Z.to_euclidean_division_equations; lia.
Qed.

Lemma days_from_civil_year y m d :
  1 <= m <= 12 -> 1 <= d <= days_in m y ->
  days_from_civil y 1 1 <= days_from_civil y m d < days_from_civil (y + 1) 1 1.
Proof.
  intros Hm [Hd1 Hd2].
  assert (m = 1 \/ m = 2 \/ m = 3 \/ m = 4 \/ m = 5 \/ m = 6 \/ m = 7 \/ m = 8 \/ m = 9 \/
          m = 10 \/ m = 11 \/ m = 12) as C by lia.
  rewrite !new_year_closed. unfold days_from_civil, doe_of, era_days, doy_of_md.
  repeat (destruct C as [->|C] || subst m);
    cbn [Z.leb Z.ltb Z.compare Pos.compare Pos.compare_cont] in *;
    unfold days_in in Hd2; cbn in Hd2;
    repeat match type of Hd2 with context [if ?b then _ else _] => destruct b end;
    Z.to_euclidean_division_equations; lia.
Qed.

Lemma year4_of_day t : -719528 <= day_of t <= 2932896 -> year4 t.
Proof.
  unfold year4, Year. pose proof (Date_of_valid t) as H. destruct (Date_of t) as [[y m] d].
  destruct H as (<- & Hm & Hd). pose proof (days_from_civil_year y m d Hm Hd) as H.
  rewrite !new_year_closed in H. cbn [fst]. Z.to_euclidean_division_equations; lia.
Qed.

Lemma format_month_inj t u :
  year4 t -> year4 u ->
  format_month t = format_month u <-> (Date_of t).1 = (Date_of u).1.
Proof.
  unfold format_month, year4, Year.
  pose proof (Date_of_valid t) as Ht. pose proof (Date_of_valid u) as Hu.
  destruct (Date_of t) as [[y m] d], (Date_of u) as [[y' m'] d']. cbn [fst].
  destruct Ht as (_ & Hm & _), Hu as (_ & Hm' & _). intros Hy Hy'. split; [|by intros [= -> ->]].
  intros E. pose proof (getyear_pad y ("-" +:+ pad_int 2 m) ltac:(lia)) as H1.
  rewrite E, getyear_pad in H1 by lia. injection H1 as -> H1.
  apply str_app_inj_l in H1.
  pose proof (getnum_pad m "" true ltac:(lia)) as H2.
  rewrite <-H1, getnum_pad in H2 by lia. by injection H2 as ->.
Qed.

(** ** Durations in seconds

    [time.Duration.Seconds] is a sum of two binary64 numbers, the whole seconds and
    the nanoseconds divided by a billion, each step rounded.  [int] of it is the
    number of whole seconds for durations up to 2 ^ 23 seconds (97 days); above that
    the last nanoseconds of a second can be rounded up to the next one. *)

(** The sum of two numbers, and the quotient of two integers that are not negative:
    the bits after the first 128 places only count by whether there are any. *)
Definition f64_add (x y : float64) : float64 :=
  match x, y with
  | F64 m1 e1, F64 m2 e2 =>
      let e := Z.min e1 e2 in f64_round (m1 * 2 ^ (e1 - e) + m2 * 2 ^ (e2 - e)) e
  | _, _ => F64NaN
  end.

Definition f64_quot (n d : Z) : float64 :=
  f64_round (2 * (n * 2 ^ 128 / d) + (if n * 2 ^ 128 mod d =? 0 then 0 else 1)) (-129).

(** [d.Seconds()] and [int(d.Seconds())], for durations that are not negative. *)
Definition Seconds (d : Z) : float64 := f64_add (f64_of_int (d / second)) (f64_quot (d mod second) second).
Definition intSeconds (d : Z) : Z := f64_to_int (Seconds d).

(** ** Rounding *)

(** Rounding drops [k] bits and is off by at most half of the last one kept. *)
Lemma f64_round_spec m e : 0 <= m -> exists k m', f64_round m e = F64 m' (e + k) /\
  0 <= k /\ 0 <= m' /\ (k = 0 \/ 2 ^ (k + 52) <= m) /\ Z.abs (m' * 2 ^ k - m) * 2 <= 2 ^ k /\
  ((2 ^ k | m) -> m' * 2 ^ k = m).
Proof.
  intros Hm. unfold f64_round. set (k := Z.log2 (Z.abs m) - 52). destruct (k <=? 0) eqn:Hk; zbool.
  { exists 0, m. rewrite Z.add_0_r, Z.pow_0_r. repeat split; try lia. }
  assert (Hkd : k = Z.log2 (Z.abs m) - 52) by done.
  assert (m <> 0).
  { intros Hm0. rewrite Hm0 in Hkd. change (Z.log2 (Z.abs 0)) with 0 in Hkd. lia. }
  set (q := Z.abs m / 2 ^ k). set (r := Z.abs m mod 2 ^ k).
  assert (Hp : 2 ^ k = 2 * 2 ^ (k - 1)) by (rewrite <- Z.pow_succ_r by lia; f_equal; lia).
  assert (0 < 2 ^ (k - 1)) by (apply Z.pow_pos_nonneg; lia).
  assert (Hqr : m = 2 ^ k * q + r) by (unfold q, r; rewrite (Z.abs_eq m) by done; apply Z.div_mod; lia).
  assert (0 <= r < 2 ^ k) by (apply Z.mod_pos_bound; lia).
  assert (0 <= q) by (unfold q; rewrite Z.abs_eq by done; apply Z.div_pos; lia).
  rewrite (Z.sgn_pos m) by lia. rewrite !Z.mul_1_l.
  eexists k, _. split; [reflexivity|]. split; [lia|].
  assert (2 ^ (k + 52) <= m).
  { unfold k. rewrite Z.sub_add. rewrite (Z.abs_eq m) by done. apply Z.log2_spec. lia. }
  destruct ((2 ^ (k - 1) <? r) || ((2 ^ (k - 1) =? r) && Z.odd q)) eqn:Hb.
  - assert (2 ^ (k - 1) <= r).
    { apply orb_true_iff in Hb as [Hb|Hb]; zbool; lia. }
    repeat split; try lia; try nia. intros Hd. exfalso.
    assert (r = 0) by (unfold r; rewrite Z.abs_eq by done; by apply Z.mod_divide; [lia|]). lia.
  - assert (r <= 2 ^ (k - 1)).
    { apply orb_false_iff in Hb as [Hb _]; zbool; lia. }
    repeat split; try lia; try nia. intros Hd.
    assert (r = 0) by (unfold r; rewrite Z.abs_eq by done; by apply Z.mod_divide; [lia|]). nia.
Qed.

(** A whole number [N] of units [2 ^ - e] between which and the next the rounded
    number stays. *)
Lemma f64_to_int_between m e : 0 <= m -> e <= 0 -> m / 2 ^ (- e) <= max_int64 ->
  f64_to_int (F64 m e) = m / 2 ^ (- e).
Proof.
  intros Hm He Hmax. unfold f64_to_int, f64_trunc.
  assert (0 < 2 ^ (- e)) by (apply Z.pow_pos_nonneg; lia).
  assert (0 <= m / 2 ^ (- e)) by (apply Z.div_pos; lia).
  rewrite int64_of_id.
  - destruct (0 <=? e) eqn:Hle; zbool.
    + replace e with 0 by lia. by rewrite Z.pow_0_r, Z.div_1_r, Z.mul_1_r.
    + by rewrite Z.quot_div_nonneg by lia.
  - destruct (0 <=? e) eqn:Hle; zbool; unfold int64_range, min_int64.
    + replace e with 0 in * by lia. rewrite Z.pow_0_r, Z.div_1_r in *. lia.
    + rewrite Z.quot_div_nonneg by lia. lia.
Qed.

(** ** Whole seconds *)

(** The fraction: a number of [2 ^ -129] within one part in 2 ^ 53 of the exact one. *)
Lemma fraction_spec n : 0 <= n < second -> exists k m', f64_quot n second = F64 m' (-129 + k) /\
  0 <= k <= 76 /\ 0 <= m' /\
  second * (m' * 2 ^ k) <= n * 2 ^ 129 + second * 2 ^ 76 /\ n * 2 ^ 129 <= second * (m' * 2 ^ k) + second * 2 ^ 76 /\
  (n = 0 -> m' = 0).
Proof.
  intros Hn. unfold f64_quot. set (q := n * 2 ^ 128 / second). set (b := n * 2 ^ 128 mod second).
  assert (Hs : 0 < second) by done.
  assert (Hqr : n * 2 ^ 128 = second * q + b) by (apply Z.div_mod; lia).
  assert (0 <= b < second) by (apply Z.mod_pos_bound; lia).
  assert (0 <= q) by (apply Z.div_pos; lia).
  set (M := 2 * q + (if b =? 0 then 0 else 1)).
  assert (HM : 0 <= M) by (unfold M; destruct (b =? 0); lia).
  assert (HMu : second * M <= n * 2 ^ 129 + second /\ n * 2 ^ 129 <= second * M + second).
  { replace (2 ^ 129) with (2 * 2 ^ 128) by reflexivity. unfold M. destruct (b =? 0) eqn:Hb; zbool; nia. }
  destruct (f64_round_spec M (-129) HM) as (k & m' & -> & Hk & Hm' & Hlow & Herr & Hk0).
  exists k, m'. split; [done|].
  assert (M <= 2 ^ 129).
  { unfold second in *. assert (n * 2 ^ 129 <= (10 ^ 9 - 1) * 2 ^ 129) by nia. lia. }
  assert (Hk76 : k <= 76).
  { destruct (Z.le_gt_cases k 76) as [|Hgt]; [done|]. destruct Hlow as [->|Hlow]; [lia|].
    assert (2 ^ (77 + 52) <= 2 ^ (k + 52)) by (apply Z.pow_le_mono_r; lia).
    assert (M = 2 ^ 129) by lia. unfold second in *. nia. }
  assert (2 ^ k <= 2 ^ 76) by (apply Z.pow_le_mono_r; lia).
  assert (0 < 2 ^ k) by (apply Z.pow_pos_nonneg; lia).
  repeat split; try lia.
  - assert (m' * 2 ^ k <= M + 2 ^ 75) by lia. unfold second in *. nia.
  - assert (M <= m' * 2 ^ k + 2 ^ 75) by lia. unfold second in *. nia.
  - intros ->. assert (M = 0) as HM0 by (unfold M, q, b; reflexivity).
    rewrite HM0 in Hlow. destruct Hlow as [->|Hlow]; [|assert (0 < 2 ^ (k + 52)) by (apply Z.pow_pos_nonneg; lia); lia].
    rewrite Z.pow_0_r, Z.mul_1_r, HM0 in Hk0. apply Hk0. exists 0. done.
Qed.

Lemma intSeconds_exact d : 0 <= d < 2 ^ 23 * second -> intSeconds d = d / second.
Proof.
  intros Hd. unfold intSeconds, Seconds.
  assert (Hs : 0 < second) by done.
  set (s := d / second). set (n := d mod second).
  assert (Hn : 0 <= n < second) by (apply Z.mod_pos_bound; lia).
  assert (Hsb : 0 <= s < 2 ^ 23).
  { split; [apply Z.div_pos; lia|apply Z.div_lt_upper_bound; lia]. }
  unfold f64_of_int. rewrite f64_round_small by lia.
  destruct (fraction_spec n Hn) as (k & m' & -> & Hk & Hm' & Hup & Hlo & H0).
  unfold f64_add. rewrite (Z.min_r 0) by lia. rewrite Z.sub_diag, Z.pow_0_r, Z.mul_1_r.
  replace (0 - (-129 + k)) with (129 - k) by lia.
  set (S := s * 2 ^ (129 - k) + m').
  assert (Hpk : 0 < 2 ^ k) by (apply Z.pow_pos_nonneg; lia).
  assert (H129 : 2 ^ (129 - k) * 2 ^ k = 2 ^ 129) by (rewrite <- Z.pow_add_r by lia; f_equal; lia).
  assert (Hp129 : 0 < 2 ^ (129 - k)) by (apply Z.pow_pos_nonneg; lia).
  assert (HS : 0 <= S) by (unfold S; nia).
  destruct (f64_round_spec S (-129 + k) HS) as (j & m2 & -> & Hj & Hm2 & Hlow & Herr & Hj0).
  assert (Hpj : 0 < 2 ^ j) by (apply Z.pow_pos_nonneg; lia).
  (* both in units of 2 ^ -129 *)
  assert (HSk : S * 2 ^ k = s * 2 ^ 129 + m' * 2 ^ k) by (unfold S; nia).
  assert (Hjk : j + k <= 99).
  { destruct Hlow as [->|Hlow]; [lia|]. apply Z.le_ngt. intros Hgt.
    assert (2 ^ (j + 52) * 2 ^ k <= S * 2 ^ k) by nia.
    rewrite <- Z.pow_add_r in * by lia.
    assert (2 ^ 152 <= 2 ^ (j + 52 + k)) by (apply Z.pow_le_mono_r; lia).
    unfold second in *. nia. }
  assert (H2jk : 2 ^ j * 2 ^ k <= 2 ^ 99).
  { rewrite <- Z.pow_add_r by lia. apply Z.pow_le_mono_r; lia. }
  assert (Herr2 : Z.abs (m2 * 2 ^ j - S) * 2 ^ k * 2 <= 2 ^ 99) by nia.
  set (V := m2 * 2 ^ j * 2 ^ k).
  assert (HV : S * 2 ^ k - 2 ^ 98 <= V <= S * 2 ^ k + 2 ^ 98).
  { unfold V. assert (Habs : Z.abs (m2 * 2 ^ j - S) * 2 ^ k = Z.abs (m2 * 2 ^ j * 2 ^ k - S * 2 ^ k)).
    { rewrite <- (Z.abs_eq (2 ^ k)) at 1 by lia. rewrite <- Z.abs_mul. f_equal. lia. }
    lia. }
  assert (Hfloor : s * 2 ^ 129 <= V < (s + 1) * 2 ^ 129).
  { destruct (Z.eq_dec n 0) as [Hn0|Hn0].
    - assert (m2 * 2 ^ j = S) as HmS.
      { apply Hj0. unfold S. rewrite (H0 Hn0), Z.add_0_r. exists (s * 2 ^ (129 - k - j)).
        rewrite <- Z.mul_assoc, <- Z.pow_add_r by lia. do 2 f_equal. lia. }
      unfold V. rewrite HmS, HSk, (H0 Hn0). lia.
    - unfold second in *. lia. }
  set (u := 129 - k - j).
  assert (Hu : 0 < 2 ^ u) by (apply Z.pow_pos_nonneg; lia).
  assert (Hujk : 2 ^ j * 2 ^ k * 2 ^ u = 2 ^ 129).
  { rewrite <- !Z.pow_add_r by lia. f_equal. lia. }
  assert (Hdiv : m2 / 2 ^ u = s).
  { unfold V in Hfloor. symmetry. apply (Z.div_unique_pos m2 (2 ^ u) s (m2 - 2 ^ u * s)); [|lia].
    assert (HP : 0 < 2 ^ j * 2 ^ k) by (apply Z.mul_pos_pos; lia).
    rewrite <- Z.mul_assoc, <- Hujk in Hfloor. revert HP Hfloor. generalize (2 ^ j * 2 ^ k). intros P HP [Hf1 Hf2].
    assert (s * 2 ^ u <= m2) by (apply (Z.mul_le_mono_pos_r _ _ P HP); lia).
    assert (m2 < (s + 1) * 2 ^ u) by (apply (Z.mul_lt_mono_pos_r P _ _ HP); lia).
    lia. }
  rewrite f64_to_int_between; replace (- (-129 + k + j)) with u by lia; [done|lia..|].
  rewrite Hdiv. unfold max_int64. lia.
Qed.
