(* ===== verification/QuotaConfig.v ===== *)
(** * Traffic quota configuration and periods

    The configuration half of [service/trafficquota/manager.go]: the resolved
    [QuotaConfig], its construction from the options with group inheritance, its
    validation, the key of the accounting period an instant belongs to, and the
    conversion back to the option form. *)

From S2P Require Import Prelude GoStrings GoTime.

Local Open Scope string_scope.
Local Open Scope list_scope.
Local Open Scope Z_scope.

(** ** Data *)

Definition PeriodDaily : string := "daily".
Definition PeriodWeekly : string := "weekly".
Definition PeriodMonthly : string := "monthly".
Definition PeriodCustom : string := "custom".

Record QuotaConfig := mkQuotaConfig {
  qc_quotaBytes : Z;
  qc_period : string;
  qc_periodStart : Z;
  qc_periodDays : Z;
}.

(** [var resolved QuotaConfig]. *)
Definition zeroQuotaConfig : QuotaConfig := mkQuotaConfig 0 "" zero_time 0.

Record TrafficQuotaGroup := mkTrafficQuotaGroup {
  tqg_Name : string; tqg_QuotaGB : float64; tqg_Period : string;
  tqg_PeriodStart : string; tqg_PeriodDays : Z;
}.

Record TrafficQuotaUser := mkTrafficQuotaUser {
  tqu_Name : string; tqu_Group : string; tqu_QuotaGB : float64; tqu_Period : string;
  tqu_PeriodStart : string; tqu_PeriodDays : Z;
}.

Definition zeroTrafficQuotaUser : TrafficQuotaUser :=
  mkTrafficQuotaUser "" "" (F64 0 0) "" "" 0.

(** ** Operations *)

Section QuotaConfig.
Context `{EX : Exceptions}.

(** [int64(math.Round(quotaGB * float64(1<<30)))]. *)
Definition quotaBytes (quotaGB : float64) : Z :=
  f64_round_to_int64 (f64_mul quotaGB (F64 1 30)).

Definition beginningOfDay (value : Z) : Z :=
  let '(year, month, day) := Date_of value in Date year month day 0 0 0 0.

Definition parsePeriodStart (value : string) : result error Z :=
  match parse_rfc3339 value with
  | Some parsed => Ok parsed
  | None =>
      match parse_date value with
      | Some parsed => Ok parsed
      | None => Err (Errorf ("parse period_start " +:+ Quote value))
      end
  end.

Definition validateQuotaConfig (config : QuotaConfig) : option error :=
  if decide (qc_period config = PeriodDaily \/ qc_period config = PeriodWeekly \/
             qc_period config = PeriodMonthly) then None
  else if decide (qc_period config = PeriodCustom) then
    if IsZero (qc_periodStart config) then Some (E_New ["custom period requires period_start"])
    else if qc_periodDays config <=? 0 then Some (E_New ["custom period requires period_days"])
    else None
  else if decide (qc_period config = "") then Some (E_New ["missing period"])
  else Some (E_New ["unsupported period: "; qc_period config]).

(** [None] in the [Ok] case is the nil configuration of a user without a quota. *)
Definition newQuotaConfig (quotaGB : float64) (period periodStart : string) (periodDays : Z)
    (base : option QuotaConfig) : result error (option QuotaConfig) :=
  let resolved := default zeroQuotaConfig base in
  let resolved :=
    if f64_gt0 quotaGB then
      mkQuotaConfig (quotaBytes quotaGB) (qc_period resolved) (qc_periodStart resolved) (qc_periodDays resolved)
    else resolved in
  let resolved :=
    if decide (period <> "") then
      mkQuotaConfig (qc_quotaBytes resolved) period (qc_periodStart resolved) (qc_periodDays resolved)
    else resolved in
  let started :=
    if decide (periodStart <> "") then
      match parsePeriodStart periodStart with
      | Err e => Err e
      | Ok t => Ok (mkQuotaConfig (qc_quotaBytes resolved) (qc_period resolved) t (qc_periodDays resolved))
      end
    else Ok resolved in
  match started with
  | Err e => Err e
  | Ok resolved =>
      let resolved :=
        if 0 <? periodDays then
          mkQuotaConfig (qc_quotaBytes resolved) (qc_period resolved) (qc_periodStart resolved) periodDays
        else resolved in
      if qc_quotaBytes resolved <=? 0 then Ok None
      else match validateQuotaConfig resolved with
           | Some e => Err e
           | None => Ok (Some resolved)
           end
  end.

Definition periodKey (config : QuotaConfig) (now : Z) : result error string :=
  if decide (qc_period config = PeriodDaily) then Ok (format_date now)
  else if decide (qc_period config = PeriodWeekly) then
    let weekday := Weekday now in
    let weekday := if weekday =? 0 then 7 else weekday in
    let weekStart := AddDays (beginningOfDay now) (- (weekday - 1)) in
    Ok (format_date weekStart)
  else if decide (qc_period config = PeriodMonthly) then Ok (format_month now)
  else if decide (qc_period config = PeriodCustom) then
    if IsZero (qc_periodStart config) || (qc_periodDays config <=? 0) then
      Err (E_New ["invalid custom period configuration"])
    else
      let start := beginningOfDay (qc_periodStart config) in
      let current := beginningOfDay now in
      if current <? start then Ok (format_date start)
      else
        let days := Z.quot (Sub current start) day in
        let offset := Z.quot days (qc_periodDays config) * qc_periodDays config in
        Ok (format_date (AddDays start offset))
  else Err (E_New ["unsupported period: "; qc_period config]).

Definition formatPeriodStart (value : Z) : string :=
  if IsZero value then "" else format_rfc3339 value.

Definition quotaConfigToOption (user : string) (config : QuotaConfig) : TrafficQuotaUser :=
  mkTrafficQuotaUser user "" (f64_div_2p30 (f64_of_int (qc_quotaBytes config)))
    (qc_period config) (formatPeriodStart (qc_periodStart config)) (qc_periodDays config).

(** ** Specification *)

(** What the manager relies on of a stored configuration. *)
Definition config_valid (c : QuotaConfig) : Prop :=
  0 < qc_quotaBytes c /\ validateQuotaConfig c = None.

(** Days of the years 1 to 9999, the range of instants the clock and the options give. *)
Definition date4 (t : Z) : Prop := -719162 <= day_of t <= 2932896.

(** The distance to the start of a custom period is one a [Duration] holds: some 292
    years. *)
Definition in_duration (c : QuotaConfig) (t : Z) : Prop :=
  qc_period c = PeriodCustom -> t - qc_periodStart c <= max_int64 - day.

(** The accounting period of an instant, as a number: calendar day, week from
    Monday, month, or run of [periodDays] days from the start of a custom period,
    whose first run also takes the days before it. *)
Definition period_index (c : QuotaConfig) (t : Z) : Z :=
  if decide (qc_period c = PeriodDaily) then day_of t
  else if decide (qc_period c = PeriodWeekly) then (day_of t + 3) / 7
  else if decide (qc_period c = PeriodMonthly) then
    let '(y, m, _) := Date_of t in y * 12 + (m - 1)
  else Z.max 0 (day_of t - day_of (qc_periodStart c)) / qc_periodDays c.

(** ** Lemmas *)

Lemma beginningOfDay_eq t : beginningOfDay t = day_of t * day.
Proof.
  unfold beginningOfDay. pose proof (midnight_Date t) as H.
  by destruct (Date_of t) as [[y m] d].
Qed.

Lemma validateQuotaConfig_None c :
  validateQuotaConfig c = None <->
  (qc_period c = PeriodDaily \/ qc_period c = PeriodWeekly \/ qc_period c = PeriodMonthly) \/
  (qc_period c = PeriodCustom /\ IsZero (qc_periodStart c) = false /\ 0 < qc_periodDays c).
Proof.
  unfold validateQuotaConfig. case_decide as H1; [tauto|].
  case_decide as H2; [|split; [case_decide; discriminate|tauto]].
  destruct (IsZero (qc_periodStart c)); [split; [done|intros [?|(_ & ? & _)]; [tauto|done]]|].
  destruct (Z.leb_spec (qc_periodDays c) 0); split; try done.
  - intros [?|(_ & _ & ?)]; [tauto|lia].
  - intros _. right. by split_and!.
Qed.

(** A validated configuration always has a key. *)
Lemma periodKey_valid c now : validateQuotaConfig c = None -> exists k, periodKey c now = Ok k.
Proof.
  rewrite validateQuotaConfig_None. unfold periodKey. intros H.
  destruct (decide (qc_period c = PeriodDaily)); [by eexists|].
  destruct (decide (qc_period c = PeriodWeekly)); [by eexists|].
  destruct (decide (qc_period c = PeriodMonthly)); [by eexists|].
  destruct H as [?|(-> & -> & Hd)]; [tauto|]. rewrite decide_True by done.
  destruct (Z.leb_spec (qc_periodDays c) 0); [lia|]. cbn [orb].
  destruct (_ <? _); by eexists.
Qed.

Lemma newQuotaConfig_valid q p s d b c :
  newQuotaConfig q p s d b = Ok (Some c) -> config_valid c.
Proof.
  unfold newQuotaConfig. case_match; [|done].
  match goal with |- context [qc_quotaBytes ?r <=? 0] => generalize r end.
  intros r. destruct (Z.leb_spec (qc_quotaBytes r) 0); [done|].
  destruct (validateQuotaConfig r) eqn:E; [done|]. by intros [= <-].
Qed.

Lemma week_start d wd :
  wd = (if (d + 4) mod 7 =? 0 then 7 else (d + 4) mod 7) -> d - (wd - 1) = 7 * ((d + 3) / 7) - 3.
Proof. intros ->. destruct (Z.eqb_spec ((d + 4) mod 7) 0); Z.to_euclidean_division_equations; lia. Qed.

(** The first day of a period, from its index. *)
Definition period_first_day (c : QuotaConfig) (i : Z) : Z :=
  if decide (qc_period c = PeriodDaily) then i
  else if decide (qc_period c = PeriodWeekly) then 7 * i - 3
  else day_of (qc_periodStart c) + i * qc_periodDays c.

Lemma periodKey_monthly c t : qc_period c = PeriodMonthly -> periodKey c t = Ok (format_month t).
Proof. unfold periodKey. by intros ->. Qed.

Lemma period_index_monthly c t :
  qc_period c = PeriodMonthly -> period_index c t = let '(y, m, _) := Date_of t in y * 12 + (m - 1).
Proof. unfold period_index. by intros ->. Qed.

(** Every other key is the date of the first day of the period. *)
Lemma periodKey_first_day c t :
  validateQuotaConfig c = None -> qc_period c <> PeriodMonthly ->
  in_duration c t ->
  periodKey c t = Ok (format_date (period_first_day c (period_index c t) * day)).
Proof.
  rewrite validateQuotaConfig_None. unfold periodKey, period_first_day, period_index. intros H Hm Hsub.
  destruct (decide (qc_period c = PeriodDaily)) as [|Hd].
  { f_equal. unfold format_date, Date_of. by rewrite day_of_midnight. }
  destruct (decide (qc_period c = PeriodWeekly)) as [|Hw].
  { f_equal. rewrite AddDays_eq, beginningOfDay_eq, <-Z.mul_add_distr_r. do 2 f_equal.
    rewrite Z.add_opp_r. by apply week_start. }
  rewrite decide_False by done. destruct H as [?|(Hp & -> & Hn)]; [tauto|].
  specialize (Hsub Hp). rewrite Hp. rewrite decide_True by done.
  destruct (Z.leb_spec (qc_periodDays c) 0); [lia|]. cbn [orb].
  rewrite !beginningOfDay_eq. set (s := day_of (qc_periodStart c)). set (n := day_of t).
  pose proof day_pos. destruct (Z.ltb_spec (n * day) (s * day)).
  { rewrite Z.max_l by nia. rewrite Z.div_0_l, Z.mul_0_l, Z.add_0_r by lia. done. }
  assert (s <= n) by nia.
  assert (n * day - s * day <= max_int64) as Hmax.
  { pose proof (day_split t). pose proof (day_split (qc_periodStart c)).
    pose proof (Z.mod_pos_bound t day day_pos). pose proof (Z.mod_pos_bound (qc_periodStart c) day day_pos).
    subst n s. lia. }
  unfold Sub. rewrite Z.min_r, Z.max_r, <-Z.mul_sub_distr_r, Z.quot_mul by (unfold min_int64; lia).
  rewrite Z.max_r, AddDays_eq, <-Z.mul_add_distr_r by lia. by rewrite Z.quot_div_nonneg by lia.
Qed.

Lemma period_first_day_inj c i j :
  validateQuotaConfig c = None -> qc_period c <> PeriodMonthly ->
  period_first_day c i = period_first_day c j -> i = j.
Proof.
  rewrite validateQuotaConfig_None. unfold period_first_day. intros H Hm.
  destruct (decide _) as [|Hd]; [lia|]. destruct (decide _) as [|Hw]; [lia|].
  destruct H as [?|(_ & _ & Hn)]; [tauto|]. nia.
Qed.

Lemma periodKey_nonempty c t k : periodKey c t = Ok k -> k <> "".
Proof.
  assert (forall x, format_date x <> "") as Hd.
  { intros x E. unfold format_date in E. destruct (Date_of x) as [[y m] d]. apply (f_equal String.length) in E.
    rewrite !str_length_app in E. cbn in E. lia. }
  assert (format_month t <> "") as Hm.
  { intros E. unfold format_month in E. destruct (Date_of t) as [[y m] d]. apply (f_equal String.length) in E.
    rewrite !str_length_app in E. cbn in E. lia. }
  unfold periodKey. repeat case_goal; try done; intros [= <-]; done.
Qed.

(** The first day of the period of a supported instant is a supported day. *)
Lemma period_first_day_bounds c t :
  validateQuotaConfig c = None -> qc_period c <> PeriodMonthly ->
  date4 t -> date4 (qc_periodStart c) ->
  year4 (period_first_day c (period_index c t) * day).
Proof.
  rewrite validateQuotaConfig_None. unfold period_first_day, period_index, date4. intros H Hm Ht Hs.
  apply year4_of_day. rewrite day_of_midnight.
  destruct (decide _) as [|Hd]; [lia|]. destruct (decide _) as [|Hw]; [Z.to_euclidean_division_equations; lia|].
  rewrite decide_False by done. destruct H as [?|(_ & _ & Hn)]; [tauto|].
  set (x := Z.max 0 _).
  pose proof (Z.div_mod x (qc_periodDays c) ltac:(lia)).
  pose proof (Z.mod_pos_bound x (qc_periodDays c) ltac:(lia)).
  assert (0 <= x / qc_periodDays c) by (apply Z.div_pos; lia). nia.
Qed.

(** Within the supported dates two instants have the same key exactly when they
    fall in the same period. *)
Lemma periodKey_index c t u :
  validateQuotaConfig c = None -> date4 t -> date4 u -> date4 (qc_periodStart c) ->
  in_duration c t -> in_duration c u ->
  periodKey c t = periodKey c u <-> period_index c t = period_index c u.
Proof.
  intros Hv Ht Hu Hs Hst Hsu.
  destruct (decide (qc_period c = PeriodMonthly)) as [Hm|Hm].
  - unfold date4 in *. rewrite !periodKey_monthly, !period_index_monthly by done.
    rewrite Ok_inj_iff, format_month_inj by (apply year4_of_day; lia).
    pose proof (Date_of_valid t) as H1. pose proof (Date_of_valid u) as H2.
    destruct (Date_of t) as [[y m] d], (Date_of u) as [[y' m'] d'].
    destruct H1 as (_ & H1 & _), H2 as (_ & H2 & _). cbn.
    split; [by intros [= -> ->]|]. intros E. assert (y = y') as -> by lia. f_equal. lia.
  - rewrite !periodKey_first_day by done.
    rewrite Ok_inj_iff, format_date_inj, !day_of_midnight by (by apply period_first_day_bounds).
    split; [by apply period_first_day_inj|by intros ->].
Qed.

(** ** The option round trip *)

Lemma quotaBytes_roundtrip b :
  0 < b < 2 ^ 53 -> quotaBytes (f64_div_2p30 (f64_of_int b)) = b.
Proof.
  intros Hb. unfold quotaBytes, f64_of_int. rewrite f64_round_small by lia.
  cbn [f64_div_2p30 f64_mul]. rewrite f64_round_small by lia.
  assert (Z.log2 b < 53) by (apply Z.log2_lt_pow2; lia).
  replace (0 - 30 + 30) with 0 by lia. rewrite Z.mul_1_r. unfold f64_overflow.
  destruct (Z.eqb_spec b 0); [lia|].
  destruct (Z.leb_spec 1024 (Z.log2 (Z.abs b) + 0)); [rewrite Z.abs_eq in * by lia; lia|].
  cbn [f64_round_to_int64 f64_round_away Z.leb Z.compare].
  rewrite Z.pow_0_r, Z.mul_1_r, int64_of_id; [done|].
  unfold int64_range, min_int64, max_int64. lia.
Qed.

Lemma f64_gt0_option b : 0 < b < 2 ^ 53 -> f64_gt0 (f64_div_2p30 (f64_of_int b)) = true.
Proof. intros Hb. unfold f64_of_int. rewrite f64_round_small by lia. cbn. apply Z.ltb_lt. lia. Qed.

Lemma parsePeriodStart_format t :
  date4 t -> parsePeriodStart (format_rfc3339 t) = Ok (t - t mod second).
Proof.
  unfold date4. intros H. unfold parsePeriodStart.
  by rewrite parse_rfc3339_format by (apply year4_of_day; lia).
Qed.

Lemma format_rfc3339_nonempty t : format_rfc3339 t <> "".
Proof.
  unfold format_rfc3339. intros E. apply (f_equal String.length) in E.
  rewrite !str_length_app in E. cbn in E. lia.
Qed.

(** The configuration rebuilt from the option form: the period start loses its
    sub-second part, everything else is kept. *)
Definition truncated (c : QuotaConfig) : QuotaConfig :=
  mkQuotaConfig (qc_quotaBytes c) (qc_period c) 
    (if IsZero (qc_periodStart c) then zero_time else qc_periodStart c - qc_periodStart c mod second)
    (if 0 <? qc_periodDays c then qc_periodDays c else 0).

Lemma IsZero_spec t : reflect (t = zero_time) (IsZero t).
Proof. apply Z.eqb_spec. Qed.

Lemma truncated_valid c :
  config_valid c -> (qc_periodStart c = zero_time \/ zero_time + second <= qc_periodStart c) ->
  config_valid (truncated c).
Proof.
  unfold config_valid. rewrite !validateQuotaConfig_None. intros [Hb H] Hs. split; [done|].
  destruct H as [?|(Hp & Hz & Hd)]; [by left|right]. cbn. split; [done|].
  rewrite Hz. destruct (IsZero_spec (qc_periodStart c)); [done|].
  destruct (Z.ltb_spec 0 (qc_periodDays c)); [|lia]. split; [|lia].
  apply Z.eqb_neq. pose proof (Z.mod_pos_bound (qc_periodStart c) second eq_refl). lia.
Qed.

Lemma day_of_trunc t : day_of (t - t mod second) = day_of t.
Proof. unfold day_of, day. change second with 1000000000. Z.to_euclidean_division_equations; lia. Qed.

(** The key of an instant does not depend on what the truncation drops. *)
Lemma truncated_key c now :
  config_valid c -> (qc_periodStart c = zero_time \/ zero_time + second <= qc_periodStart c) ->
  periodKey (truncated c) now = periodKey c now.
Proof.
  intros Hc Hz. pose proof (truncated_valid c Hc Hz) as [_ Ht]. destruct Hc as [_ Hc].
  rewrite validateQuotaConfig_None in Hc, Ht. unfold periodKey. cbn [truncated qc_period] in *.
  do 3 (case_decide; [done|]). case_decide as Hp; [|done].
  destruct Hc as [?|(_ & -> & Hd)]; [tauto|]. destruct Ht as [?|(_ & -> & Hd')]; [tauto|].
  cbn [truncated qc_periodDays] in *. destruct (Z.ltb_spec 0 (qc_periodDays c)); [|lia].
  rewrite !beginningOfDay_eq. cbn [truncated qc_periodStart].
  destruct (IsZero_spec (qc_periodStart c)) as [->|]; [done|]. by rewrite day_of_trunc.
Qed.

Lemma newQuotaConfig_option user c :
  config_valid c -> qc_quotaBytes c < 2 ^ 53 -> date4 (qc_periodStart c) ->
  (qc_periodStart c = zero_time \/ zero_time + second <= qc_periodStart c) ->
  let o := quotaConfigToOption user c in
  newQuotaConfig (tqu_QuotaGB o) (tqu_Period o) (tqu_PeriodStart o) (tqu_PeriodDays o) None =
  Ok (Some (truncated c)).
Proof.
  intros Hc Hlt Hs Hz. cbn [tqu_QuotaGB tqu_Period tqu_PeriodStart tqu_PeriodDays quotaConfigToOption].
  destruct (truncated_valid c Hc Hz) as [_ Ht]. destruct Hc as [Hb Hv].
  unfold newQuotaConfig, formatPeriodStart, truncated in *.
  rewrite f64_gt0_option, quotaBytes_roundtrip by lia.
  assert (qc_period c <> "") as Hp.
  { intros E. rewrite validateQuotaConfig_None, E in Hv. by destruct Hv as [[?|[?|?]]|[? _]]. }
  rewrite (decide_True _ _ Hp).
  cbn [default qc_quotaBytes qc_periodDays qc_periodStart qc_period zeroQuotaConfig] in *.
  destruct (IsZero_spec (qc_periodStart c)) as [Ez|Ez].
  - cbn [decide]. rewrite decide_False by naive_solver.
    destruct (0 <? qc_periodDays c); cbn [qc_quotaBytes qc_periodDays qc_periodStart qc_period] in *;
      (destruct (Z.leb_spec (qc_quotaBytes c) 0); [lia|]); by rewrite Ht.
  - rewrite decide_True by apply format_rfc3339_nonempty. rewrite parsePeriodStart_format by done.
    destruct (0 <? qc_periodDays c); cbn [qc_quotaBytes qc_periodDays qc_periodStart qc_period] in *;
      (destruct (Z.leb_spec (qc_quotaBytes c) 0); [lia|]); by rewrite Ht.
Qed.
End QuotaConfig.
