(* ===== verification/ConnList.v ===== *)
(** * The tracked-connection list of a quota user

    [connList] of [service/trafficquota/manager.go]: a Go slice, modelled with its
    backing array so that residual references and retained capacity are visible.
    A slot of the array is a tracked connection or nil; a connection is identified
    by its address. *)

From S2P Require Import Prelude.

Local Open Scope list_scope.
Local Open Scope nat_scope.

Abbreviation connId := nat (only parsing).

(** [conns []quotaTrackedConn]: the backing array, whose length is the capacity of
    the slice, and the length of the slice. *)
Record connList := mkConnList {
  cl_arr : list (option connId);
  cl_len : nat;
}.

(** [&connList{}]. *)
Definition emptyConnList : connList := mkConnList [] 0.

Definition cl_cap (l : connList) : nat := length (cl_arr l).

(** The elements of the slice. *)
Definition conns (l : connList) : list connId := omap id (take (cl_len l) (cl_arr l)).

Definition connListShrinkMinCap : nat := 1024.
Definition connListShrinkRatio : nat := 4.

(** [append] past the capacity reallocates; [growslice] is the capacity the runtime
    gives the new array, from the old capacity and the needed length. *)
Definition add (growslice : nat -> nat -> nat) (l : connList) (conn : connId) : connList :=
  if decide (cl_len l < cl_cap l) then
    mkConnList (<[cl_len l := Some conn]> (cl_arr l)) (S (cl_len l))
  else
    mkConnList
      (take (cl_len l) (cl_arr l) ++ Some conn ::
       replicate (growslice (cl_cap l) (S (cl_len l)) - S (cl_len l)) None)
      (S (cl_len l)).

(** The first index of the slice that holds the connection. *)
Definition find_conn (l : connList) (conn : connId) : option nat :=
  fst <$> list_find (fun x => x = Some conn) (take (cl_len l) (cl_arr l)).

(** The reallocation at the end of [remove]. *)
Definition shrink (l : connList) : connList :=
  if decide (connListShrinkMinCap < cl_cap l /\ cl_len l < cl_cap l / connListShrinkRatio) then
    mkConnList (take (cl_len l) (cl_arr l) ++ replicate (cl_len l * 2 + 1 - cl_len l) None) (cl_len l)
  else l.

Definition remove (l : connList) (conn : connId) : connList :=
  match find_conn l conn with
  | None => l
  | Some i =>
      let last := cl_len l - 1 in
      let arr := if decide (i <> last) then <[i := cl_arr l !! last ≫= id]> (cl_arr l) else cl_arr l in
      let arr := <[last := None]> arr in
      shrink (mkConnList arr last)
  end.

(** The connections [closeAll] notifies; the list stays. *)
Definition closeAll (l : connList) : list connId := conns l.

(** [closeAllAndClear]: the connections it notifies and the list it leaves. *)
Definition closeAllAndClear (l : connList) : list connId * connList :=
  (conns l, emptyConnList).

(** [connList.len]. *)
Definition len (l : connList) : nat := cl_len l.

(** ** Well-formed slices: the elements are connections, and no slot past the length
    keeps one alive. *)
Definition cl_wf (l : connList) : Prop :=
  cl_len l <= cl_cap l /\
  (forall i, i < cl_len l -> exists c, cl_arr l !! i = Some (Some c)) /\
  (forall i, cl_len l <= i < cl_cap l -> cl_arr l !! i = Some None).

(** A slice with the elements [cs] and [n] free slots. *)
Definition cl_of (cs : list connId) (n : nat) : connList :=
  mkConnList ((Some <$> cs) ++ replicate n None) (length cs).

Lemma omap_id_Some {A} (l : list A) : omap id (Some <$> l) = l.
Proof. induction l as [|x l IH]; cbn; [done|]. by rewrite IH. Qed.

Lemma conns_cl_of cs n : conns (cl_of cs n) = cs.
Proof.
  unfold conns, cl_of. cbn. rewrite take_app_le, take_ge by (by rewrite length_fmap).
  apply omap_id_Some.
Qed.

Lemma cl_cap_of cs n : cl_cap (cl_of cs n) = length cs + n.
Proof. unfold cl_cap, cl_of. cbn. by rewrite length_app, length_fmap, length_replicate. Qed.

Lemma cl_wf_of cs n : cl_wf (cl_of cs n).
Proof.
  unfold cl_wf. rewrite cl_cap_of. cbn. split_and!; [lia| |].
  - intros i Hi. rewrite lookup_app_l by (by rewrite length_fmap).
    apply lookup_lt_is_Some in Hi as [c Hc]. exists c. by rewrite list_lookup_fmap, Hc.
  - intros i Hi. rewrite lookup_app_r, length_fmap by (rewrite length_fmap; lia).
    apply lookup_replicate_2. lia.
Qed.

(** Every well-formed slice has this form. *)
Lemma cl_wf_inv l : cl_wf l -> l = cl_of (conns l) (cl_cap l - cl_len l).
Proof.
  intros (Hle & Hs & Hn).
  assert (take (cl_len l) (cl_arr l) = Some <$> conns l) as Ht.
  { unfold conns. assert (Forall is_Some (take (cl_len l) (cl_arr l))) as H.
    { apply Forall_lookup. intros i x Hx. apply lookup_take_Some in Hx as [Hx Hi].
      destruct (Hs i Hi) as [c Hc]. rewrite Hc in Hx. injection Hx as <-. by eexists. }
    induction H as [|x xs [c ->] _ IH]; cbn; [done|]. by rewrite IH at 1. }
  assert (length (conns l) = cl_len l) as Hlen.
  { apply (f_equal length) in Ht. rewrite length_take, length_fmap in Ht. unfold cl_cap in Hle. lia. }
  unfold cl_of. rewrite Hlen. destruct l as [arr n]. cbn in *. f_equal.
  rewrite <-Ht. rewrite <-(take_drop n arr) at 1. f_equal.
  apply list_eq. intros i. rewrite lookup_drop. unfold cl_cap in *. cbn in *.
  destruct (decide (n + i < length arr)).
  - rewrite (Hn (n + i)) by lia. symmetry. apply lookup_replicate_2. lia.
  - rewrite (proj2 (lookup_ge_None _ _)) by lia.
    symmetry. apply lookup_ge_None. rewrite length_replicate. lia.
Qed.

Lemma conns_length l : cl_wf l -> length (conns l) = cl_len l.
Proof. intros H. rewrite (cl_wf_inv l H) at 2. done. Qed.

(** Updating the first slot of the right part of an array. *)
Lemma insert_middle {A} (l1 l2 : list A) x y : <[length l1 := y]> (l1 ++ x :: l2) = l1 ++ y :: l2.
Proof. rewrite insert_app_r_alt by done. by rewrite Nat.sub_diag. Qed.

Lemma cl_of_snoc cs c k :
  mkConnList ((Some <$> cs) ++ Some c :: replicate k None) (S (length cs)) = cl_of (cs ++ [c]) k.
Proof. unfold cl_of. rewrite fmap_app, <-app_assoc, length_app, Nat.add_1_r. done. Qed.

Lemma add_of growslice cs n c :
  add growslice (cl_of cs n) c =
  cl_of (cs ++ [c]) (if n is S k then k else growslice (length cs) (S (length cs)) - S (length cs)).
Proof.
  unfold add. rewrite cl_cap_of. cbn [cl_of cl_len cl_arr]. destruct n as [|n].
  - rewrite Nat.add_0_r, decide_False by lia. cbn [replicate].
    rewrite app_nil_r, take_ge by (by rewrite length_fmap). apply cl_of_snoc.
  - rewrite decide_True by lia. cbn [replicate].
    rewrite <-(length_fmap Some cs) at 1. rewrite insert_middle. apply cl_of_snoc.
Qed.

(** The connection leaves with the last one in its place. *)
Definition swap_remove (pre post : list connId) : list connId :=
  match reverse post with [] => pre | z :: mid => pre ++ z :: reverse mid end.

Lemma find_conn_of pre c post n : c ∉ pre -> find_conn (cl_of (pre ++ c :: post) n) c = Some (length pre).
Proof.
  intros Hc. unfold find_conn. cbn [cl_of cl_len cl_arr].
  rewrite take_app_le, take_ge by (by rewrite length_fmap).
  rewrite (proj2 (list_find_Some _ _ (length pre) (Some c))); [done|]. split_and!.
  - by rewrite list_lookup_fmap, lookup_app_r, Nat.sub_diag.
  - done.
  - intros j y Hj Hlt ->. rewrite list_lookup_fmap, lookup_app_l in Hj by done.
    apply fmap_Some in Hj as (c' & Hc' & [= <-]). apply list_elem_of_lookup_2 in Hc'. done.
Qed.

Lemma find_conn_None cs n c : c ∉ cs -> find_conn (cl_of cs n) c = None.
Proof.
  intros Hc. unfold find_conn. cbn [cl_of cl_len cl_arr].
  rewrite take_app_le, take_ge by (by rewrite length_fmap).
  rewrite (proj2 (list_find_None _ _)); [done|]. apply Forall_fmap, Forall_forall.
  intros c' Hc' [= ->]. done.
Qed.

(** Moving the last element over another and clearing its slot. *)
Lemma swap_clear {A} (p m r : list (option A)) (x z : option A) :
  <[length p + S (length m) := None]> (<[length p := (p ++ x :: m ++ z :: r) !! (length p + S (length m)) ≫= id]>
    (p ++ x :: m ++ z :: r)) = p ++ z :: m ++ None :: r.
Proof.
  assert ((p ++ x :: m ++ z :: r) !! (length p + S (length m)) = Some z) as ->.
  { rewrite lookup_app_r by lia. replace (length p + S (length m) - length p) with (S (length m)) by lia.
    rewrite lookup_cons_ne_0 by lia. rewrite Nat.pred_succ, lookup_app_r, Nat.sub_diag by lia. done. }
  cbn [mbind option_bind id]. rewrite insert_middle.
  rewrite insert_app_r_alt by lia. replace (length p + S (length m) - length p) with (S (length m)) by lia.
  change (<[S (length m) := None]> (z :: m ++ z :: r)) with (z :: <[length m := None]> (m ++ z :: r)).
  by rewrite insert_middle.
Qed.

Lemma remove_of pre c post n : c ∉ pre ->
  remove (cl_of (pre ++ c :: post) n) c = shrink (cl_of (swap_remove pre post) (S n)).
Proof.
  intros Hc. unfold remove. rewrite find_conn_of by done. f_equal.
  cbn [cl_of cl_len cl_arr]. rewrite length_app. cbn [length].
  unfold swap_remove. destruct (reverse post) as [|z mid] eqn:E.
  - apply (f_equal reverse) in E. rewrite reverse_involutive in E. cbn in E. subst post. cbn [length].
    rewrite decide_False by lia. unfold cl_of. replace (length pre + 1 - 1) with (length pre) by lia.
    f_equal. rewrite fmap_app, <-app_assoc. rewrite <-(length_fmap Some pre) at 1. apply insert_middle.
  - apply (f_equal reverse) in E. rewrite reverse_involutive, reverse_cons in E. subst post.
    rewrite length_app. cbn [length]. set (m := reverse mid).
    replace (length pre + S (length m + 1) - 1) with (length pre + S (length m)) by lia.
    rewrite decide_True by lia.
    rewrite fmap_app, fmap_cons, fmap_app, <-app_assoc. cbn [app fmap list_fmap].
    rewrite <-app_assoc. cbn [app].
    rewrite <-(length_fmap Some pre), <-(length_fmap Some m), swap_clear.
    unfold cl_of. rewrite fmap_app, length_app, fmap_cons. cbn [length]. rewrite !length_fmap.
    f_equal. by rewrite <-app_assoc.
Qed.

Lemma swap_remove_perm c pre post : pre ++ c :: post ≡ₚ c :: swap_remove pre post.
Proof.
  unfold swap_remove. destruct (reverse post) as [|z mid] eqn:E;
    apply (f_equal reverse) in E; rewrite reverse_involutive in E; subst post.
  - rewrite reverse_nil. symmetry. apply Permutation_cons_append.
  - rewrite reverse_cons. rewrite <-(Permutation_middle pre). f_equiv.
    f_equiv. symmetry. apply Permutation_cons_append.
Qed.

Lemma shrink_of cs n : exists n', shrink (cl_of cs n) = cl_of cs n' /\
  (length cs + n' <= connListShrinkMinCap \/ (length cs + n') / connListShrinkRatio <= length cs).
Proof.
  unfold shrink. rewrite cl_cap_of. cbn [cl_of cl_len cl_arr].
  unfold connListShrinkMinCap, connListShrinkRatio.
  destruct (decide _) as [H|H].
  - exists (S (length cs)). split; [|right; apply Nat.lt_succ_r, Nat.Div0.div_lt_upper_bound; lia].
    rewrite take_app_le, take_ge by (by rewrite length_fmap).
    unfold cl_of. do 2 f_equal. f_equal. lia.
  - exists n. split; [done|]. lia.
Qed.

(** ** What the operations do to the elements *)

Lemma add_spec growslice l c : cl_wf l ->
  cl_wf (add growslice l c) /\ conns (add growslice l c) = conns l ++ [c].
Proof.
  intros H. rewrite (cl_wf_inv l H), add_of, !conns_cl_of. split; [apply cl_wf_of|done].
Qed.

Lemma remove_absent l c : cl_wf l -> c ∉ conns l -> remove l c = l.
Proof.
  intros H Hc. rewrite (cl_wf_inv l H). unfold remove. by rewrite find_conn_None.
Qed.

Lemma remove_present l c : cl_wf l -> c ∈ conns l ->
  cl_wf (remove l c) /\ conns l ≡ₚ c :: conns (remove l c) /\
  (cl_cap (remove l c) <= connListShrinkMinCap \/
   cl_cap (remove l c) / connListShrinkRatio <= cl_len (remove l c)).
Proof.
  intros H Hc. rewrite (cl_wf_inv l H). rewrite conns_cl_of.
  apply list_elem_of_split_l in Hc as (pre & post & -> & Hpre).
  rewrite remove_of by done. destruct (shrink_of (swap_remove pre post) (S (cl_cap l - cl_len l))) as (n' & -> & Hcap).
  rewrite conns_cl_of, cl_cap_of. split_and!; [apply cl_wf_of|apply swap_remove_perm|done].
Qed.

(** Removing any connection keeps the slice well formed and never adds one. *)
Lemma remove_wf l c : cl_wf l -> cl_wf (remove l c).
Proof.
  intros H. destruct (decide (c ∈ conns l)); [by apply remove_present|by rewrite remove_absent].
Qed.

Lemma remove_subset l c : cl_wf l -> conns (remove l c) ⊆ conns l.
Proof.
  intros H x Hx. destruct (decide (c ∈ conns l)) as [Hc|Hc]; [|by rewrite remove_absent in Hx].
  destruct (remove_present l c H Hc) as (_ & -> & _). set_solver.
Qed.

Lemma cl_wf_empty : cl_wf emptyConnList.
Proof. apply (cl_wf_of [] 0). Qed.

#[export] Hint Resolve cl_wf_empty remove_wf : sb.
