(* ===== verification/QuotaManager.v ===== *)
(** * The quota manager and its connections

    [QuotaManager] of [service/trafficquota/manager.go] and the connection wrappers of
    [service/trafficquota/conn.go].  The state holds the manager's maps and the part of
    the heap they share: the [connList]s, which a snapshot or an [onClose] closure can
    keep after the map has dropped them, and the wrapped connections.  Every method is
    one transition; the clock is an argument, and a method that iterates a Go map takes
    the iteration order. *)

From S2P Require Import Prelude GoStrings GoTime QuotaConfig ConnList.

Local Open Scope string_scope.
Local Open Scope list_scope.
Local Open Scope Z_scope.

(** ** Data *)

Abbreviation listLoc := nat (only parsing).

Record userState := mkUserState {
  us_usage : Z;
  us_pendingDelta : Z;
  us_exceeded : bool;
  us_periodKey : string;
}.

(** [&userState{}]. *)
Definition zeroUserState : userState := mkUserState 0 0 false "".

(** [QuotaConn] and [QuotaPacketConn]: [closed], whether [closeOnce] has run, the user
    the [onBytes] closure counts for and the list the [onClose] closure leaves. *)
Record QuotaConn := mkQuotaConn {
  qn_closed : bool;
  qn_closeOnce : bool;
  qn_onBytes : option string;
  qn_onClose : option listLoc;
}.

Record PeriodReset := mkPeriodReset {
  pr_User : string; pr_PreviousKey : string; pr_CurrentPeriod : string;
}.

Record PendingDelta := mkPendingDelta {
  pd_User : string; pd_PeriodKey : string; pd_Delta : Z;
}.

Record Status := mkStatus { st_UsageBytes : Z; st_QuotaBytes : Z; st_Exceeded : bool }.

Record RuntimeState := mkRuntimeState {
  rs_User : TrafficQuotaUser;
  rs_UsageBytes : Z;
  rs_PendingDelta : Z;
  rs_Exceeded : bool;
  rs_PeriodKey : string;
  rs_activeConns : option listLoc;
}.

Record QuotaManager := mkQuotaManager {
  userConfigs : gmap string QuotaConfig;
  activeConns : gmap string listLoc;
  states : gmap string userState;
  dirtySet : gset string;
  dirtyQueue : list string;
  lists : gmap listLoc connList;
  tracked : gmap connId QuotaConn;
}.

Definition set_userConfigs f m := mkQuotaManager (f (userConfigs m)) (activeConns m) (states m)
  (dirtySet m) (dirtyQueue m) (lists m) (tracked m).
Definition set_activeConns f m := mkQuotaManager (userConfigs m) (f (activeConns m)) (states m)
  (dirtySet m) (dirtyQueue m) (lists m) (tracked m).
Definition set_states f m := mkQuotaManager (userConfigs m) (activeConns m) (f (states m))
  (dirtySet m) (dirtyQueue m) (lists m) (tracked m).
Definition set_dirty s q m := mkQuotaManager (userConfigs m) (activeConns m) (states m)
  s q (lists m) (tracked m).
Definition set_lists f m := mkQuotaManager (userConfigs m) (activeConns m) (states m)
  (dirtySet m) (dirtyQueue m) (f (lists m)) (tracked m).
Definition set_tracked f m := mkQuotaManager (userConfigs m) (activeConns m) (states m)
  (dirtySet m) (dirtyQueue m) (lists m) (f (tracked m)).

Definition set_usage z s := mkUserState z (us_pendingDelta s) (us_exceeded s) (us_periodKey s).
Definition set_pendingDelta z s := mkUserState (us_usage s) z (us_exceeded s) (us_periodKey s).
Definition set_exceeded b s := mkUserState (us_usage s) (us_pendingDelta s) b (us_periodKey s).
Definition setPeriodKey k s := mkUserState (us_usage s) (us_pendingDelta s) (us_exceeded s) k.

Definition setPeriodKeyIfEmpty (k : string) (s : userState) : userState :=
  if decide (us_periodKey s = "") then setPeriodKey k s else s.

Definition getPeriodKey (s : userState) : string := us_periodKey s.

(** ** Small operations *)

Definition loadConfig (m : QuotaManager) (user : string) : option QuotaConfig := userConfigs m !! user.
Definition storeConfig (user : string) (config : QuotaConfig) : QuotaManager -> QuotaManager :=
  set_userConfigs <[user := config]>.
Definition deleteConfig (user : string) : QuotaManager -> QuotaManager := set_userConfigs (delete user).

(** [states.LoadOrStore(user, &userState{})]: the state and the updated map. *)
Definition stateFor (user : string) (m : QuotaManager) : userState * QuotaManager :=
  match states m !! user with
  | Some s => (s, m)
  | None => (zeroUserState, set_states <[user := zeroUserState]> m)
  end.

Definition put_state (user : string) (s : userState) : QuotaManager -> QuotaManager :=
  set_states <[user := s]>.

Definition markQuotaExceeded (c : connId) (m : QuotaManager) : QuotaManager :=
  set_tracked (alter (fun q => mkQuotaConn true (qn_closeOnce q) (qn_onBytes q) (qn_onClose q)) c) m.

(** The notifications of [closeAll] and [closeAllAndClear], in the order of the list. *)
Definition markAll (cs : list connId) (m : QuotaManager) : QuotaManager :=
  fold_left (fun m c => markQuotaExceeded c m) cs m.

Definition markDirty (user : string) (m : QuotaManager) : QuotaManager :=
  if decide (user ∈ dirtySet m) then m
  else set_dirty ({[user]} ∪ dirtySet m) (dirtyQueue m ++ [user]) m.

(** The compare-and-swap, then the notification of the user's current list. *)
Definition tripExceeded (user : string) (m : QuotaManager) : QuotaManager :=
  match states m !! user with
  | Some s =>
      if us_exceeded s then m
      else
        let m := put_state user (set_exceeded true s) m in
        match activeConns m !! user with
        | Some l => match lists m !! l with Some cl => markAll (closeAll cl) m | None => m end
        | None => m
        end
  | None => m
  end.

Section QuotaManager.
Context `{EX : Exceptions}.
Context (growslice : nat -> nat -> nat).

Definition ErrQuotaExceeded : error := Errorf "traffic quota exceeded".

Definition GetCurrentPeriodKey (m : QuotaManager) (user : string) (now : Z) : result error string :=
  match loadConfig m user with
  | None => Err (E_New ["traffic-quota user not configured: "; user])
  | Some config => periodKey config now
  end.

Definition mustPeriodKey (m : QuotaManager) (user : string) (now : Z) : outcome string :=
  match GetCurrentPeriodKey m user now with Ok key => Ret key | Err _ => Panic end.

(** ** Construction *)

Fixpoint newGroups (groups : list TrafficQuotaGroup) (acc : gmap string (option QuotaConfig))
    : result error (gmap string (option QuotaConfig)) :=
  match groups with
  | [] => Ok acc
  | group :: rest =>
      if decide (tqg_Name group = "") then Err (E_New ["traffic-quota group missing name"])
      else match newQuotaConfig (tqg_QuotaGB group) (tqg_Period group) (tqg_PeriodStart group)
                   (tqg_PeriodDays group) None with
           | Err err => Err (E_Cause err ["invalid traffic-quota group "; tqg_Name group])
           | Ok config => newGroups rest (<[tqg_Name group := config]> acc)
           end
  end.

(** [groupCopy := *groupConfig] panics on the nil configuration of a group without a
    quota of its own. *)
Definition userBase (groupConfigs : gmap string (option QuotaConfig)) (user : TrafficQuotaUser)
    : outcome (result error (option QuotaConfig)) :=
  if decide (tqu_Group user <> "") then
    match groupConfigs !! tqu_Group user with
    | None => Ret (Err (E_New ["traffic-quota user "; tqu_Name user; " references unknown group "; tqu_Group user]))
    | Some None => Panic
    | Some (Some groupConfig) => Ret (Ok (Some groupConfig))
    end
  else Ret (Ok None).

Fixpoint newUsers (groupConfigs : gmap string (option QuotaConfig)) (users : list TrafficQuotaUser)
    (acc : gmap string QuotaConfig) : outcome (result error (gmap string QuotaConfig)) :=
  match users with
  | [] => Ret (Ok acc)
  | user :: rest =>
      if decide (tqu_Name user = "") then Ret (Err (E_New ["traffic-quota user missing name"]))
      else match userBase groupConfigs user with
           | Panic => Panic
           | Ret (Err err) => Ret (Err err)
           | Ret (Ok base) =>
               match newQuotaConfig (tqu_QuotaGB user) (tqu_Period user) (tqu_PeriodStart user)
                       (tqu_PeriodDays user) base with
               | Err err => Ret (Err (E_Cause err ["invalid traffic-quota user "; tqu_Name user]))
               | Ok None => newUsers groupConfigs rest acc
               | Ok (Some config) => newUsers groupConfigs rest (<[tqu_Name user := config]> acc)
               end
           end
  end.

Definition emptyManager (configs : gmap string QuotaConfig) : QuotaManager :=
  mkQuotaManager configs ∅ ∅ ∅ [] ∅ ∅.

Definition NewQuotaManager (groups : list TrafficQuotaGroup) (users : list TrafficQuotaUser)
    : outcome (result error QuotaManager) :=
  match newGroups groups ∅ with
  | Err err => Ret (Err err)
  | Ok groupConfigs =>
      match newUsers groupConfigs users ∅ with
      | Panic => Panic
      | Ret (Err err) => Ret (Err err)
      | Ret (Ok configs) => Ret (Ok (emptyManager configs))
      end
  end.

(** ** Accounting *)

Definition AddBytes (user : string) (n : Z) (now : Z) (m : QuotaManager) : QuotaManager :=
  if n <=? 0 then m
  else match loadConfig m user with
  | None => m
  | Some config =>
      let (state, m) := stateFor user m in
      let keyed :=
        if decide (us_periodKey state = "") then
          match GetCurrentPeriodKey m user now with
          | Err _ => None
          | Ok key => Some (setPeriodKey key state)
          end
        else Some state in
      match keyed with
      | None => m
      | Some state =>
          let total := wrap64 (us_usage state + n) in
          let state := set_usage total state in
          let state := set_pendingDelta (wrap64 (us_pendingDelta state + n)) state in
          let m := markDirty user (put_state user state m) in
          if qc_quotaBytes config <? total then tripExceeded user m else m
      end
  end.

Definition LoadUsage (user : string) (bytes : Z) (now : Z) (m : QuotaManager) : outcome QuotaManager :=
  match loadConfig m user with
  | None => Ret m
  | Some config =>
      let (state, m) := stateFor user m in
      key ← mustPeriodKey m user now;
      let state := set_usage bytes (setPeriodKeyIfEmpty key state) in
      let m := put_state user state m in
      if qc_quotaBytes config <? bytes then Ret (tripExceeded user m)
      else Ret (put_state user (set_exceeded false state) m)
  end.

Definition Usage (m : QuotaManager) (user : string) : Z :=
  match states m !! user with Some s => us_usage s | None => 0 end.

Definition IsExceeded (m : QuotaManager) (user : string) : bool :=
  match states m !! user with Some s => us_exceeded s | None => false end.

Definition HasQuota (m : QuotaManager) (user : string) : bool :=
  match loadConfig m user with Some _ => true | None => false end.

(** ** Configuration changes *)

Definition ApplyConfig (user : TrafficQuotaUser) (now : Z) (m : QuotaManager)
    : outcome (QuotaManager * option error) :=
  if decide (tqu_Name user = "") then Ret (m, Some (E_New ["traffic-quota user missing name"]))
  else match newQuotaConfig (tqu_QuotaGB user) (tqu_Period user) (tqu_PeriodStart user)
               (tqu_PeriodDays user) None with
  | Err err => Ret (m, Some (E_Cause err ["invalid traffic-quota user "; tqu_Name user]))
  | Ok None => Ret (m, Some (E_New ["invalid traffic-quota user "; tqu_Name user]))
  | Ok (Some config) =>
      let name := tqu_Name user in
      let m := storeConfig name config m in
      let (state, m) := stateFor name m in
      key ← mustPeriodKey m name now;
      let state := setPeriodKeyIfEmpty key state in
      let m := put_state name state m in
      if qc_quotaBytes config <? us_usage state then Ret (tripExceeded name m, None)
      else Ret (put_state name (set_exceeded false state) m, None)
  end.

Definition RemoveConfig (user : string) (m : QuotaManager) : QuotaManager * option error :=
  if decide (user = "") then (m, Some (E_New ["traffic-quota user missing name"]))
  else
    let m := deleteConfig user m in
    let cl := activeConns m !! user in
    let m := set_states (delete user) (set_activeConns (delete user) m) in
    match cl with
    | None => (m, None)
    | Some l =>
        match lists m !! l with
        | None => (m, None)
        | Some cl =>
            let (snapshot, cleared) := closeAllAndClear cl in
            (markAll snapshot (set_lists <[l := cleared]> m), None)
        end
    end.

(** ** Queries *)

Definition StatusOf (m : QuotaManager) (user : string) : option Status :=
  match loadConfig m user with
  | None => None
  | Some config =>
      match states m !! user with
      | None => Some (mkStatus 0 (qc_quotaBytes config) false)
      | Some s => Some (mkStatus (us_usage s) (qc_quotaBytes config) (us_exceeded s))
      end
  end.

Definition GetConfig (m : QuotaManager) (user : string) : option TrafficQuotaUser :=
  quotaConfigToOption user <$> loadConfig m user.

Definition SnapshotState (m : QuotaManager) (user : string) : option RuntimeState :=
  match loadConfig m user with
  | None => None
  | Some config =>
      let s := default zeroUserState (states m !! user) in
      Some (mkRuntimeState (quotaConfigToOption user config) (us_usage s) (us_pendingDelta s)
              (us_exceeded s) (us_periodKey s) (activeConns m !! user))
  end.

Definition RestoreState (state : RuntimeState) (m : QuotaManager) : QuotaManager * option error :=
  let u := rs_User state in
  match newQuotaConfig (tqu_QuotaGB u) (tqu_Period u) (tqu_PeriodStart u) (tqu_PeriodDays u) None with
  | Err err => (m, Some (E_Cause err ["invalid traffic-quota user "; tqu_Name u]))
  | Ok None => (m, Some (E_New ["invalid traffic-quota user "; tqu_Name u]))
  | Ok (Some config) =>
      let m := storeConfig (tqu_Name u) config m in
      let m := put_state (tqu_Name u) (mkUserState (rs_UsageBytes state) (rs_PendingDelta state)
                 (rs_Exceeded state) (rs_PeriodKey state)) m in
      match rs_activeConns state with
      | Some l => (set_activeConns <[tqu_Name u := l]> m, None)
      | None => (set_activeConns (delete (tqu_Name u)) m, None)
      end
  end.

Definition ClearPendingDelta (user : string) (m : QuotaManager) : QuotaManager :=
  match states m !! user with
  | None => m
  | Some s => put_state user (set_pendingDelta 0 s) m
  end.

Definition CurrentPeriodKey (user : string) (now : Z) (m : QuotaManager) : outcome (string * QuotaManager) :=
  let (state, m) := stateFor user m in
  if decide (us_periodKey state <> "") then Ret (us_periodKey state, m)
  else
    key ← mustPeriodKey m user now;
    Ret (key, put_state user (setPeriodKeyIfEmpty key state) m).

(** ** Periods and flushing *)

(** The iteration orders the runtime may give [range m.userConfigs]. *)
Definition names_order (m : QuotaManager) (users : list string) : Prop :=
  NoDup users /\ forall u, u ∈ users <-> is_Some (userConfigs m !! u).

(** One round of the loop of [CheckPeriodReset]. *)
Definition resetUser (now : Z) (acc : QuotaManager * list PeriodReset) (user : string)
    : outcome (QuotaManager * list PeriodReset) :=
  let (m, resets) := acc in
  match states m !! user with
  | None => Ret (m, resets)
  | Some state =>
      currentKey ← mustPeriodKey m user now;
      let previousKey := us_periodKey state in
      if decide (previousKey = "") then Ret (put_state user (setPeriodKey currentKey state) m, resets)
      else if decide (currentKey = previousKey) then Ret (m, resets)
      else Ret (put_state user (mkUserState 0 0 false currentKey) m,
                resets ++ [mkPeriodReset user previousKey currentKey])
  end.

Definition CheckPeriodReset (now : Z) (users : list string) (m : QuotaManager)
    : outcome (QuotaManager * list PeriodReset) :=
  foldM (resetUser now) users (m, []).

(** One round of the drain of [ConsumePendingDeltas]. *)
Definition consumeUser (acc : QuotaManager * list PendingDelta) (user : string)
    : QuotaManager * list PendingDelta :=
  let (m, pending) := acc in
  match states m !! user with
  | None => (m, pending)
  | Some state =>
      let m := put_state user (set_pendingDelta 0 state) m in
      if us_pendingDelta state =? 0 then (m, pending)
      else (m, pending ++ [mkPendingDelta user (us_periodKey state) (us_pendingDelta state)])
  end.

Definition ConsumePendingDeltas (m : QuotaManager) : QuotaManager * list PendingDelta :=
  let users := dirtyQueue m in
  let m := set_dirty ∅ [] m in
  fold_left consumeUser users (m, []).

Definition RestorePendingDelta (user key : string) (delta : Z) (m : QuotaManager) : QuotaManager :=
  if (delta =? 0) || negb (HasQuota m user) then m
  else
    let (state, m) := stateFor user m in
    if decide (us_periodKey state = key) then
      markDirty user (put_state user (set_pendingDelta (wrap64 (us_pendingDelta state + delta)) state) m)
    else m.

(** ** Connections *)

(** [NewQuotaConn(conn, nil, nil)] and [NewQuotaPacketConn(conn, nil, nil)]: a fresh address. *)
Definition NewQuotaConn (m : QuotaManager) : connId * QuotaManager :=
  let c := fresh (dom (tracked m)) in
  (c, set_tracked <[c := mkQuotaConn false false None None]> m).

(** [activeConns.LoadOrStore(user, &connList{})]. *)
Definition connListFor (user : string) (m : QuotaManager) : listLoc * QuotaManager :=
  match activeConns m !! user with
  | Some l => (l, m)
  | None =>
      let l := fresh (dom (lists m)) in
      (l, set_activeConns <[user := l]> (set_lists <[l := emptyConnList]> m))
  end.

(** The pair of closures is the user [onBytes] counts for and the list [onClose] leaves. *)
Definition RegisterConn (user : string) (c : connId) (now : Z) (m : QuotaManager)
    : outcome (QuotaManager * option (string * listLoc)) :=
  match loadConfig m user with
  | None => Ret (m, None)
  | Some _ =>
      let (state, m) := stateFor user m in
      key ← mustPeriodKey m user now;
      let state := setPeriodKeyIfEmpty key state in
      let m := put_state user state m in
      let (l, m) := connListFor user m in
      let m := set_lists (alter (fun cl => add growslice cl c) l) m in
      let m := if us_exceeded state then markQuotaExceeded c m else m in
      Ret (m, Some (user, l))
  end.

(** [quotaConn.onBytes = onBytes; quotaConn.onClose = onClose]. *)
Definition setCallbacks (c : connId) (user : string) (l : listLoc) : QuotaManager -> QuotaManager :=
  set_tracked (alter (fun q => mkQuotaConn (qn_closed q) (qn_closeOnce q) (Some user) (Some l)) c).

(** [QuotaConn.Read] and [Write]: the wrapped connection gives the count and the error. *)
Definition transfer (c : connId) (wrapped : Z * option error) (now : Z) (m : QuotaManager)
    : QuotaManager * (Z * option error) :=
  match tracked m !! c with
  | None => (m, wrapped)
  | Some q =>
      if qn_closed q then (m, (0, Some ErrQuotaExceeded))
      else
        let '(n, err) := wrapped in
        match qn_onBytes q with
        | Some user => if 0 <? n then (AddBytes user n now m, (n, err)) else (m, (n, err))
        | None => (m, (n, err))
        end
  end.

(** [QuotaPacketConn.ReadPacket] and [WritePacket]: the wrapped connection gives the
    error and leaves the buffer with [len] bytes. *)
Definition transferPacket (c : connId) (len : Z) (wrapped : option error) (now : Z) (m : QuotaManager)
    : QuotaManager * option error :=
  match tracked m !! c with
  | None => (m, wrapped)
  | Some q =>
      if qn_closed q then (m, Some ErrQuotaExceeded)
      else match wrapped, qn_onBytes q with
      | None, Some user => if 0 <? len then (AddBytes user len now m, wrapped) else (m, wrapped)
      | _, _ => (m, wrapped)
      end
  end.

(** [Close]: the callback runs once; the wrapped connection gives the error. *)
Definition Close (c : connId) (m : QuotaManager) : QuotaManager :=
  match tracked m !! c with
  | None => m
  | Some q =>
      if qn_closeOnce q then m
      else
        let m := set_tracked <[c := mkQuotaConn (qn_closed q) true (qn_onBytes q) (qn_onClose q)]> m in
        match qn_onClose q with
        | Some l => set_lists (alter (fun cl => remove cl c) l) m
        | None => m
        end
  end.

(** [Service.RoutedConnection] and [RoutedPacketConnection]: the wrapper the router goes
    on with, or none when the connection passes through as it is. *)
Definition RoutedConnection (user : string) (now : Z) (m : QuotaManager)
    : outcome (QuotaManager * option connId) :=
  if decide (user = "") then Ret (m, None)
  else if negb (HasQuota m user) then Ret (m, None)
  else if IsExceeded m user then
    let (c, m) := NewQuotaConn m in
    Ret (markQuotaExceeded c m, Some c)
  else
    let (c, m) := NewQuotaConn m in
    '(m, callbacks) ← RegisterConn user c now m;
    match callbacks with
    | None => Ret (m, None)
    | Some (u, l) => Ret (setCallbacks c u l m, Some c)
    end.

End QuotaManager.
