(* ===== verification/QuotaInv.v ===== *)
(** * Invariants of the quota manager

    The well-formedness of the manager's state and its preservation by every method,
    as a step relation whose reachable states satisfy it. *)

From S2P Require Import Prelude GoStrings GoTime QuotaConfig ConnList QuotaManager.

Local Open Scope string_scope.
Local Open Scope list_scope.
Local Open Scope Z_scope.

(** ** Equations of the small operations *)

Definition close_conn (q : QuotaConn) : QuotaConn :=
  mkQuotaConn true (qn_closeOnce q) (qn_onBytes q) (qn_onClose q).

Definition close_all (cs : list connId) (t : gmap connId QuotaConn) : gmap connId QuotaConn :=
  fold_left (fun t c => alter close_conn c t) cs t.

Lemma markAll_eq cs m : markAll cs m = set_tracked (close_all cs) m.
Proof. revert m. induction cs as [|c cs IH]; intros m; [by destruct m|]. apply (IH (markQuotaExceeded c m)). Qed.

Lemma close_all_lookup cs t c :
  close_all cs t !! c = (fun q => if decide (c ∈ cs) then close_conn q else q) <$> t !! c.
Proof.
  revert t. induction cs as [|c' cs IH]; intros t.
  - cbn. destruct (t !! c); cbn; [|done]. by rewrite decide_False by set_solver.
  - cbn [close_all fold_left]. fold (close_all cs (alter close_conn c' t)). rewrite IH.
    destruct (decide (c = c')) as [->|Hne].
    + rewrite lookup_alter_eq. destruct (t !! c'); cbn; [|done].
      rewrite (decide_True (P := c' ∈ c' :: cs)) by set_solver. by destruct (decide _).
    + rewrite lookup_alter_ne by done. destruct (t !! c); cbn; [|done].
      f_equal. apply decide_ext. set_solver.
Qed.

(** Closing is the only change: the callbacks stay and no flag is cleared. *)
Lemma close_all_inv cs t c q' :
  close_all cs t !! c = Some q' ->
  exists q, t !! c = Some q /\ qn_closeOnce q' = qn_closeOnce q /\ qn_onBytes q' = qn_onBytes q /\
    qn_onClose q' = qn_onClose q /\ (qn_closed q' = true <-> qn_closed q = true \/ c ∈ cs).
Proof.
  rewrite close_all_lookup. destruct (t !! c) as [q|]; cbn; [|done]. intros [= <-].
  exists q. case_decide; cbn; naive_solver.
Qed.

(** The connections of a user's current list. *)
Definition active_list (m : QuotaManager) (u : string) : list connId :=
  match activeConns m !! u with
  | Some l => match lists m !! l with Some cl => conns cl | None => [] end
  | None => []
  end.

Definition state_of (m : QuotaManager) (u : string) : userState := default zeroUserState (states m !! u).

Lemma stateFor_eq u m : exists m0, stateFor u m = (state_of m u, m0) /\
  (forall s, put_state u s m0 = put_state u s m) /\ userConfigs m0 = userConfigs m /\
  (m0 = m \/ states m !! u = None /\ m0 = put_state u zeroUserState m).
Proof.
  unfold stateFor, state_of. destruct (states m !! u) as [s|] eqn:E; cbn.
  - exists m. split_and!; auto.
  - exists (put_state u zeroUserState m). split_and!; auto. intros s. unfold put_state, set_states. cbn.
    by rewrite insert_insert_eq.
Qed.

Lemma tripExceeded_eq u s m : states m !! u = Some s ->
  tripExceeded u m =
  if us_exceeded s then m
  else set_tracked (close_all (active_list m u)) (put_state u (set_exceeded true s) m).
Proof.
  intros E. unfold tripExceeded, active_list. rewrite E. destruct (us_exceeded s); [done|].
  cbn. destruct (activeConns m !! u) as [l|]; [|by destruct m].
  destruct (lists m !! l); [|by destruct m]. apply markAll_eq.
Qed.

(** ** The decision shared by [AddBytes], [LoadUsage] and [ApplyConfig] *)

(** Store the state of a user and set its flag, closing the connections when it rises. *)
Definition settle (u : string) (c : QuotaConfig) (s : userState) (m : QuotaManager) : QuotaManager :=
  if qc_quotaBytes c <? us_usage s then
    set_tracked (if us_exceeded s then id else close_all (active_list m u))
      (put_state u (set_exceeded true s) m)
  else put_state u (set_exceeded false s) m.

Lemma settle_fields u c s m :
  userConfigs (settle u c s m) = userConfigs m /\
  states (settle u c s m) = <[u := set_exceeded (qc_quotaBytes c <? us_usage s) s]> (states m).
Proof. unfold settle. by destruct (_ <? _). Qed.

Lemma put_put u s s' m : put_state u s (put_state u s' m) = put_state u s m.
Proof. unfold put_state, set_states. cbn. by rewrite insert_insert_eq. Qed.

Lemma settle_trip u c s m : qc_quotaBytes c < us_usage s ->
  tripExceeded u (put_state u s m) = settle u c s m.
Proof.
  intros H. unfold settle. rewrite (proj2 (Z.ltb_lt _ _) H).
  rewrite (tripExceeded_eq u s) by (apply lookup_insert_eq). rewrite put_put.
  destruct s as [us pd [] k]; [by destruct m|]. reflexivity.
Qed.

Lemma settle_clear u c s m : us_usage s <= qc_quotaBytes c ->
  put_state u (set_exceeded false s) (put_state u s m) = settle u c s m.
Proof. intros H. unfold settle. rewrite (proj2 (Z.ltb_ge _ _) H). apply put_put. Qed.

(** ** The invariant *)

Section Inv.
Context `{EX : Exceptions}.

Record mgr_inv (m : QuotaManager) : Prop := {
  (** every stored configuration is valid *)
  inv_config u c : userConfigs m !! u = Some c -> config_valid c;
  (** a state or a list belongs to a configured user *)
  inv_state u s : states m !! u = Some s -> is_Some (userConfigs m !! u);
  inv_active u l : activeConns m !! u = Some l -> is_Some (userConfigs m !! u) /\ is_Some (lists m !! l);
  (** the flag says that the usage is over the quota *)
  inv_flag u c s : userConfigs m !! u = Some c -> states m !! u = Some s ->
    us_exceeded s = true <-> qc_quotaBytes c < us_usage s;
  (** the connection lists are well formed, not shared, and hold existing connections *)
  inv_lists l cl : lists m !! l = Some cl -> cl_wf cl;
  inv_unshared u v l : activeConns m !! u = Some l -> activeConns m !! v = Some l -> u = v;
  inv_elems l cl c : lists m !! l = Some cl -> c ∈ conns cl -> is_Some (tracked m !! c);
  (** the connections of a user over quota are closed *)
  inv_closed u s c q : states m !! u = Some s -> us_exceeded s = true -> c ∈ active_list m u ->
    tracked m !! c = Some q -> qn_closed q = true;
  (** an open connection that counts for a user is in the user's current list *)
  inv_tracked c q u : tracked m !! c = Some q -> qn_onBytes q = Some u -> qn_closed q = false ->
    qn_closeOnce q = false -> c ∈ active_list m u /\ qn_onClose q = activeConns m !! u;
  (** the dirty index holds every user with bytes to flush, once *)
  inv_dirty : NoDup (dirtyQueue m) /\ dirtySet m = list_to_set (dirtyQueue m);
  inv_pending u s : states m !! u = Some s -> us_pendingDelta s <> 0 -> u ∈ dirtyQueue m;
}.

Lemma empty_inv configs : map_Forall (fun _ c => config_valid c) configs -> mgr_inv (emptyManager configs).
Proof.
  intros H. split; cbn; try (intros *; rewrite lookup_empty; done).
  - intros u c Hc. by apply (H u c).
  - split; [constructor|done].
Qed.

(** What only concerns the configurations and the states, after both change for a user. *)
Lemma configure_inv m u c s :
  mgr_inv m -> config_valid c -> (us_exceeded s = true <-> qc_quotaBytes c < us_usage s) ->
  (us_pendingDelta s <> 0 -> u ∈ dirtyQueue m) ->
  (us_exceeded s = true -> forall x q, x ∈ active_list m u -> tracked m !! x = Some q -> qn_closed q = true) ->
  mgr_inv (put_state u s (storeConfig u c m)).
Proof.
  intros I Hc Hex Hpd Hup.
  assert (forall v, is_Some (userConfigs m !! v) -> is_Some (<[u:=c]> (userConfigs m) !! v)) as Hsome.
  { intros v Hv. rewrite lookup_insert. case_decide; [by eexists|done]. }
  split; cbn; try apply I.
  - intros v c'. rewrite lookup_insert. case_decide; [by intros [= <-]|apply I].
  - intros v s'. rewrite !lookup_insert. case_decide; [by eexists|apply I].
  - intros v l Hl. destruct (inv_active m I v l Hl). auto.
  - intros v c' s'. rewrite !lookup_insert. case_decide; [by intros [= <-] [= <-]|apply I].
  - intros v s' x q. rewrite lookup_insert. change (active_list (put_state _ _ _) v) with (active_list m v).
    case_decide as Hv; [|by apply (inv_closed m I v)]. subst v. intros [= <-] Hs. by apply Hup.
  - intros v s'. rewrite lookup_insert. case_decide as Hv; [subst v; by intros [= <-]|apply I].
Qed.

(** Closing connections keeps the invariant. *)
Lemma close_inv m cs : mgr_inv m -> mgr_inv (set_tracked (close_all cs) m).
Proof.
  intros I. split; cbn; try apply I.
  - intros l cl x Hl Hx. destruct (inv_elems m I l cl x Hl Hx) as [q Hq].
    rewrite close_all_lookup, Hq. by eexists.
  - intros v s x q Hs Hex Hx Hq. apply close_all_inv in Hq as (q0 & Hq0 & _ & _ & _ & Hcl).
    apply Hcl. left. by apply (inv_closed m I v s x).
  - intros x q v Hq. apply close_all_inv in Hq as (q0 & Hq0 & E1 & E2 & E3 & Hcl).
    rewrite E1, E2, E3. intros H1 H2 H3. apply (inv_tracked m I x q0 v Hq0 H1); [|done].
    destruct (qn_closed q0); [|done]. rewrite (proj2 Hcl) in H2 by auto. done.
Qed.

(** Applying a configuration and settling a state under it. *)
Lemma settle_inv m u c s :
  mgr_inv m -> config_valid c ->
  (us_exceeded s = true -> us_exceeded (state_of m u) = true) ->
  (us_pendingDelta s <> 0 -> u ∈ dirtyQueue m) ->
  mgr_inv (settle u c s (storeConfig u c m)).
Proof.
  intros I Hc Hup Hpd. unfold settle. destruct (Z.ltb_spec (qc_quotaBytes c) (us_usage s)) as [Hq|Hq].
  - destruct (us_exceeded s) eqn:Es.
    + apply configure_inv; [done|done|by split|done|].
      specialize (Hup eq_refl). unfold state_of in Hup.
      destruct (states m !! u) as [s0|] eqn:E; [|done]. intros _ x q. by apply (inv_closed m I u s0).
    + apply (configure_inv (set_tracked (close_all (active_list m u)) m) u c); [by apply close_inv|done|by split|done|].
      cbn. intros _ x q Hx Hx'. apply close_all_inv in Hx' as (q0 & _ & _ & _ & _ & Hcl).
      apply Hcl. by right.
  - apply configure_inv; [done|done|cbn; lia|done|done].
Qed.

(** The same under the stored configuration. *)
Lemma settle_inv_same m u c s :
  mgr_inv m -> userConfigs m !! u = Some c ->
  (us_exceeded s = true -> us_exceeded (state_of m u) = true) ->
  (us_pendingDelta s <> 0 -> u ∈ dirtyQueue m) ->
  mgr_inv (settle u c s m).
Proof.
  intros I Hc Hup Hpd.
  assert (storeConfig u c m = m) as E.
  { unfold storeConfig, set_userConfigs. rewrite insert_id by done. by destruct m. }
  rewrite <-E. apply settle_inv; [done|by apply (inv_config m I u)|done|done].
Qed.

Lemma markDirty_in u m : mgr_inv m -> u ∈ dirtyQueue (markDirty u m).
Proof.
  intros I. unfold markDirty. destruct (decide (u ∈ dirtySet m)) as [Hin|Hin]; cbn; [|set_solver].
  rewrite (proj2 (inv_dirty m I)) in Hin. by apply elem_of_list_to_set in Hin.
Qed.

Lemma markDirty_inv u m : mgr_inv m -> mgr_inv (markDirty u m).
Proof.
  intros I. unfold markDirty. destruct (decide _) as [Hin|Hin]; [done|].
  split; cbn; try apply I.
  - destruct (inv_dirty m I) as [Hnd Hset]. rewrite Hset in Hin. split.
    + apply NoDup_app. split_and!; [done| |apply NoDup_singleton]. set_solver.
    + rewrite Hset, list_to_set_app_L. set_solver.
  - intros v s Hs Hp. apply elem_of_app. left. by apply (inv_pending m I v s).
Qed.

Lemma markDirty_put u s m : markDirty u (put_state u s m) = put_state u s (markDirty u m).
Proof. unfold markDirty. cbn. by destruct (decide _). Qed.

Lemma markDirty_fields u m :
  userConfigs (markDirty u m) = userConfigs m /\ states (markDirty u m) = states m /\
  activeConns (markDirty u m) = activeConns m /\ lists (markDirty u m) = lists m /\
  tracked (markDirty u m) = tracked m.
Proof. unfold markDirty. by destruct (decide _). Qed.

(** ** The methods as settlements *)

Lemma mustPeriodKey_valid m u c now :
  userConfigs m !! u = Some c -> config_valid c ->
  exists k, periodKey c now = Ok k /\ mustPeriodKey m u now = Ret k.
Proof.
  intros Hc [_ Hv]. destruct (periodKey_valid c now Hv) as [k Hk]. exists k.
  unfold mustPeriodKey, GetCurrentPeriodKey, loadConfig. by rewrite Hc, Hk.
Qed.

(** The period key of a user's state after a method that fills an empty one. *)
Definition key_at (c : QuotaConfig) (now : Z) (s : userState) : string :=
  if decide (us_periodKey s = "") then match periodKey c now with Ok k => k | Err _ => "" end
  else us_periodKey s.

Lemma setPeriodKeyIfEmpty_eq c now k s :
  periodKey c now = Ok k -> setPeriodKeyIfEmpty k s = setPeriodKey (key_at c now s) s.
Proof.
  intros H. unfold setPeriodKeyIfEmpty, key_at. rewrite H. destruct (decide _); [done|]. by destruct s.
Qed.

(** The state [AddBytes] stores, before the flag. *)
Definition added (c : QuotaConfig) (n now : Z) (s : userState) : userState :=
  mkUserState (wrap64 (us_usage s + n)) (wrap64 (us_pendingDelta s + n)) (us_exceeded s) (key_at c now s).

Lemma AddBytes_eq u n now m c :
  userConfigs m !! u = Some c -> config_valid c -> 0 < n ->
  let s := added c n now (state_of m u) in
  AddBytes u n now m =
  if qc_quotaBytes c <? us_usage s then settle u c s (markDirty u m) else put_state u s (markDirty u m).
Proof.
  intros Hc [_ Hv] Hn s. unfold AddBytes, loadConfig. rewrite (proj2 (Z.leb_gt n 0)), Hc by lia.
  destruct (stateFor_eq u m) as (m0 & -> & Hput & Hcfg & _).
  unfold GetCurrentPeriodKey, loadConfig. rewrite Hcfg, Hc.
  destruct (periodKey_valid c now Hv) as [k Hk]. rewrite Hk.
  match goal with |- match ?keyed with _ => _ end = _ =>
    assert (keyed = Some (setPeriodKey (key_at c now (state_of m u)) (state_of m u))) as -> end.
  { unfold key_at. rewrite Hk. destruct (decide _); [done|]. by destruct (state_of m u). }
  cbv zeta. rewrite Hput, markDirty_put. subst s. unfold added. cbn.
  destruct (Z.ltb_spec (qc_quotaBytes c) (wrap64 (us_usage (state_of m u) + n))); [|done].
  by apply settle_trip.
Qed.

Lemma Usage_state_of m u : Usage m u = us_usage (state_of m u).
Proof. unfold Usage, state_of. by destruct (states m !! u). Qed.

(** The flag of the state, also of a user without one. *)
Lemma flag_state_of m u c : mgr_inv m -> userConfigs m !! u = Some c ->
  us_exceeded (state_of m u) = true <-> qc_quotaBytes c < us_usage (state_of m u).
Proof.
  intros I Hc. unfold state_of. destruct (states m !! u) as [s|] eqn:Es; [by apply (inv_flag m I u)|].
  destruct (inv_config m I u c Hc). cbn. split; [done|lia].
Qed.

Lemma AddBytes_settle u n now m c :
  mgr_inv m -> userConfigs m !! u = Some c -> 0 < n -> int64_range (Usage m u + n) ->
  AddBytes u n now m = settle u c (added c n now (state_of m u)) (markDirty u m).
Proof.
  intros I Hc Hn Hr. rewrite (AddBytes_eq u n now m c Hc (inv_config m I u c Hc) Hn).
  pose proof (flag_state_of m u c I Hc) as Hf.
  destruct (Z.ltb_spec (qc_quotaBytes c) (us_usage (added c n now (state_of m u)))) as [Hq|Hq]; [done|].
  unfold settle. rewrite (proj2 (Z.ltb_ge _ _)) by done. f_equal.
  unfold added, set_exceeded in *. cbn in *. f_equal.
  rewrite Usage_state_of in Hr. rewrite wrap64_id in Hq by done.
  destruct (us_exceeded (state_of m u)); [|done]. lia.
Qed.

(** Which connections a settlement closes. *)
Lemma tracked_settle m u c s x :
  mgr_inv m -> (us_exceeded s = true -> us_exceeded (state_of m u) = true) ->
  tracked (settle u c s m) !! x =
  (fun q => if (qc_quotaBytes c <? us_usage s) && bool_decide (x ∈ active_list m u) then close_conn q else q)
    <$> tracked m !! x.
Proof.
  intros I Hup. unfold settle. destruct (qc_quotaBytes c <? us_usage s); cbn; [|by destruct (tracked m !! x)].
  destruct (us_exceeded s).
  - cbn. destruct (tracked m !! x) as [q|] eqn:Hq; [|done]. cbn. f_equal.
    case_bool_decide as Hx; [|done]. specialize (Hup eq_refl). unfold state_of in Hup.
    destruct (states m !! u) as [s0|] eqn:Es; [|done].
    pose proof (inv_closed m I u s0 x q Es Hup Hx Hq). destruct q. cbn in *. by subst.
  - rewrite close_all_lookup. destruct (tracked m !! x) as [q|]; [|done]. cbn. f_equal.
    rewrite bool_decide_decide. by destruct (decide _).
Qed.

Lemma AddBytes_inv u n now m :
  mgr_inv m -> int64_range (Usage m u + n) -> mgr_inv (AddBytes u n now m).
Proof.
  intros I Hr. destruct (Z.leb_spec n 0) as [Hn|Hn].
  { unfold AddBytes. by rewrite (proj2 (Z.leb_le n 0)). }
  destruct (userConfigs m !! u) as [c|] eqn:Hc.
  2:{ unfold AddBytes, loadConfig. rewrite Hc. by destruct (n <=? 0). }
  rewrite (AddBytes_settle u n now m c) by done.
  pose proof (markDirty_fields u m) as (F1 & F2 & _).
  apply settle_inv_same; [by apply markDirty_inv|by rewrite F1| |intros _; by apply markDirty_in].
  unfold state_of. by rewrite F2.
Qed.

(** The state [LoadUsage] and [ApplyConfig] settle. *)
Definition keyed (c : QuotaConfig) (now : Z) (s : userState) : userState := setPeriodKey (key_at c now s) s.

Lemma LoadUsage_eq u bytes now m c :
  userConfigs m !! u = Some c -> config_valid c ->
  LoadUsage u bytes now m = Ret (settle u c (set_usage bytes (keyed c now (state_of m u))) m).
Proof.
  intros Hc Hv. unfold LoadUsage, loadConfig. rewrite Hc.
  destruct (stateFor_eq u m) as (m0 & -> & Hput & Hcfg & _).
  destruct (mustPeriodKey_valid m0 u c now) as (k & Hk & ->); [by rewrite Hcfg|done|]. cbn.
  rewrite (setPeriodKeyIfEmpty_eq c now k) by done. fold (keyed c now (state_of m u)). rewrite Hput.
  destruct (Z.ltb_spec (qc_quotaBytes c) bytes); f_equal; [by apply settle_trip|by apply settle_clear].
Qed.

Lemma LoadUsage_inv u bytes now m m' : mgr_inv m -> LoadUsage u bytes now m = Ret m' -> mgr_inv m'.
Proof.
  intros I H. destruct (userConfigs m !! u) as [c|] eqn:Hc.
  - rewrite (LoadUsage_eq u bytes now m c) in H by (done || by apply (inv_config m I u)).
    injection H as <-. apply settle_inv_same; [done|done|done|]. cbn. unfold state_of.
    destruct (states m !! u) as [s|] eqn:E; [|done]. by apply (inv_pending m I u s).
  - unfold LoadUsage, loadConfig in H. rewrite Hc in H. by injection H as <-.
Qed.

Lemma ApplyConfig_eq user now m c :
  tqu_Name user <> "" ->
  newQuotaConfig (tqu_QuotaGB user) (tqu_Period user) (tqu_PeriodStart user) (tqu_PeriodDays user) None = Ok (Some c) ->
  ApplyConfig user now m =
  Ret (settle (tqu_Name user) c (keyed c now (state_of m (tqu_Name user))) (storeConfig (tqu_Name user) c m), None).
Proof.
  intros Hn Hc. unfold ApplyConfig. rewrite decide_False by done. rewrite Hc. set (u := tqu_Name user).
  destruct (stateFor_eq u (storeConfig u c m)) as (m0 & -> & Hput & Hcfg & _).
  destruct (mustPeriodKey_valid m0 u c now) as (k & Hk & ->);
    [rewrite Hcfg; apply lookup_insert_eq|by eapply newQuotaConfig_valid|]. cbn.
  rewrite (setPeriodKeyIfEmpty_eq c now k) by done.
  change (state_of (storeConfig u c m) u) with (state_of m u). fold (keyed c now (state_of m u)). rewrite Hput.
  destruct (Z.ltb_spec (qc_quotaBytes c) (us_usage (keyed c now (state_of m u)))); do 2 f_equal;
    [by apply settle_trip|by apply settle_clear].
Qed.

Lemma ApplyConfig_inv user now m m' e : mgr_inv m -> ApplyConfig user now m = Ret (m', e) -> mgr_inv m'.
Proof.
  intros I H. destruct (decide (tqu_Name user = "")) as [Hn|Hn].
  { unfold ApplyConfig in H. rewrite decide_True in H by done. by injection H as <- <-. }
  destruct (newQuotaConfig (tqu_QuotaGB user) (tqu_Period user) (tqu_PeriodStart user) (tqu_PeriodDays user) None)
    as [[c|]|err] eqn:E.
  - rewrite (ApplyConfig_eq user now m c) in H by done. injection H as <- <-.
    apply settle_inv; [done|by eapply newQuotaConfig_valid|done|]. cbn. unfold state_of.
    destruct (states m !! _) as [s|] eqn:Es; [|done]. by apply (inv_pending m I _ s).
  - unfold ApplyConfig in H. rewrite decide_False, E in H by done. by injection H as <- <-.
  - unfold ApplyConfig in H. rewrite decide_False, E in H by done. by injection H as <- <-.
Qed.

(** A state that keeps the usage and the flag of the old one. *)
Lemma put_inv m u s :
  mgr_inv m -> is_Some (userConfigs m !! u) ->
  us_usage s = us_usage (state_of m u) -> us_exceeded s = us_exceeded (state_of m u) ->
  (us_pendingDelta s <> 0 -> u ∈ dirtyQueue m) -> mgr_inv (put_state u s m).
Proof.
  intros I [c Hc] Hu He Hp.
  assert (put_state u s m = settle u c s m) as ->; [|apply settle_inv_same; congruence || done].
  unfold settle, state_of in *. destruct (Z.ltb_spec (qc_quotaBytes c) (us_usage s)) as [Hq|Hq].
  - destruct (states m !! u) as [s0|] eqn:Es; cbn in *.
    + rewrite He, (proj2 (inv_flag m I u c s0 Hc Es)) by lia. destruct s; cbn in *.
      rewrite He, (proj2 (inv_flag m I u c s0 Hc Es)) by lia. by destruct m.
    + pose proof (inv_config m I u c Hc) as [? _]. lia.
  - assert (us_exceeded s = false) as E; [|destruct s; cbn in *; by rewrite E].
    rewrite He. destruct (states m !! u) as [s0|] eqn:Es; [|done]. cbn in *.
    pose proof (inv_flag m I u c s0 Hc Es). destruct (us_exceeded s0); [|done]. lia.
Qed.

Lemma state_pending m u : mgr_inv m -> us_pendingDelta (state_of m u) <> 0 -> u ∈ dirtyQueue m.
Proof.
  intros I. unfold state_of. destruct (states m !! u) as [s|] eqn:E; [|done]. by apply (inv_pending m I u s).
Qed.

Lemma put_same u s m : states m !! u = Some s -> put_state u s m = m.
Proof. intros H. unfold put_state, set_states. rewrite insert_id by done. by destruct m. Qed.

Lemma CurrentPeriodKey_eq u now m c :
  userConfigs m !! u = Some c -> config_valid c ->
  CurrentPeriodKey u now m =
  Ret (key_at c now (state_of m u), put_state u (keyed c now (state_of m u)) m).
Proof.
  intros Hc Hv. unfold CurrentPeriodKey.
  destruct (stateFor_eq u m) as (m0 & Hsf & Hput & Hcfg & Hm0). rewrite Hsf.
  destruct (decide (us_periodKey (state_of m u) = "")) as [Ek|Ek].
  - rewrite decide_False by tauto.
    destruct (mustPeriodKey_valid m0 u c now) as (k & Hk & ->); [by rewrite Hcfg|done|]. cbn.
    rewrite (setPeriodKeyIfEmpty_eq c now k), Hput by done. unfold keyed.
    unfold key_at at 2. by rewrite decide_True, Hk.
  - rewrite decide_True by done. unfold keyed, key_at. rewrite decide_False by done.
    unfold stateFor, state_of in *. destruct (states m !! u) as [s|] eqn:Es; [|done].
    injection Hsf as <-. cbn in *. rewrite put_same; [done|]. by destruct s.
Qed.

Lemma CurrentPeriodKey_inv u now m m' k : mgr_inv m -> CurrentPeriodKey u now m = Ret (k, m') -> mgr_inv m'.
Proof.
  intros I H. destruct (userConfigs m !! u) as [c|] eqn:Hc.
  - rewrite (CurrentPeriodKey_eq u now m c) in H by (done || by apply (inv_config m I u)).
    injection H as <- <-. apply put_inv; [done|by eexists|done|done|]. by apply state_pending.
  - unfold CurrentPeriodKey in H. destruct (stateFor_eq u m) as (m0 & Hsf & _ & Hcfg & Hm0). rewrite Hsf in H.
    assert (state_of m u = zeroUserState) as Hz.
    { unfold state_of. destruct (states m !! u) eqn:Es; [|done].
      destruct (inv_state m I u _ Es) as [? Hc']. by rewrite Hc in Hc'. }
    rewrite Hz, decide_False in H by (cbn; tauto).
    unfold mustPeriodKey, GetCurrentPeriodKey, loadConfig in H. by rewrite Hcfg, Hc in H.
Qed.

Lemma ClearPendingDelta_inv u m : mgr_inv m -> mgr_inv (ClearPendingDelta u m).
Proof.
  intros I. unfold ClearPendingDelta. destruct (states m !! u) as [s|] eqn:Es; [|done].
  apply put_inv; [done|by eapply I| | |done]; unfold state_of; by rewrite Es.
Qed.

Lemma stateFor_inv u m c m0 :
  mgr_inv m -> userConfigs m !! u = Some c ->
  m0 = m \/ states m !! u = None /\ m0 = put_state u zeroUserState m -> mgr_inv m0.
Proof.
  intros I Hc [->|[Hn ->]]; [done|]. apply put_inv; [done|by eexists| | |done]; unfold state_of; by rewrite Hn.
Qed.

Lemma RestorePendingDelta_inv u k d m : mgr_inv m -> mgr_inv (RestorePendingDelta u k d m).
Proof.
  intros I. unfold RestorePendingDelta, HasQuota, loadConfig.
  destruct (userConfigs m !! u) as [c|] eqn:Hc; [|by rewrite orb_true_r].
  rewrite orb_false_r. destruct (d =? 0); [done|].
  destruct (stateFor_eq u m) as (m0 & -> & Hput & Hcfg & Hm0).
  destruct (decide _).
  - rewrite Hput, markDirty_put. apply put_inv.
    + by apply markDirty_inv.
    + by rewrite (proj1 (markDirty_fields u m)), Hc.
    + unfold state_of. by rewrite (proj1 (proj2 (markDirty_fields u m))).
    + unfold state_of. by rewrite (proj1 (proj2 (markDirty_fields u m))).
    + intros _. by apply markDirty_in.
  - by apply (stateFor_inv u m c).
Qed.

(** ** Periods and flushing *)

Lemma resetUser_inv now u m rs acc' :
  mgr_inv m -> resetUser now (m, rs) u = Ret acc' ->
  mgr_inv acc'.1 /\ userConfigs acc'.1 = userConfigs m /\ dirtyQueue acc'.1 = dirtyQueue m.
Proof.
  intros I H. unfold resetUser in H. destruct (states m !! u) as [s|] eqn:Es; [|by injection H as <-].
  destruct (inv_state m I u s Es) as [c Hc].
  destruct (mustPeriodKey_valid m u c now Hc (inv_config m I u c Hc)) as (k & Hk & Hmk).
  rewrite Hmk in H. cbn in H. destruct (decide (us_periodKey s = "")).
  - injection H as <-. split_and!; [|done..].
    apply put_inv; [done|by eexists| | |cbn; by apply (inv_pending m I u)]; unfold state_of; by rewrite Es.
  - destruct (decide _); injection H as <-; split_and!; [done..| |done|done].
    assert (put_state u (mkUserState 0 0 false k) m = settle u c (mkUserState 0 0 false k) m) as Eq.
    { unfold settle. cbn [us_usage]. destruct (inv_config m I u c Hc) as [Hq _].
      by rewrite (proj2 (Z.ltb_ge _ _)) by lia. }
    cbn [fst]. rewrite Eq. by apply settle_inv_same.
Qed.

Lemma CheckPeriodReset_inv now users m m' rs :
  mgr_inv m -> CheckPeriodReset now users m = Ret (m', rs) -> mgr_inv m'.
Proof.
  intros I H. unfold CheckPeriodReset in H.
  apply (foldM_inv (fun acc => mgr_inv acc.1)) in H; [done| |done].
  intros [m0 rs0] u acc' I0 H0. by apply (resetUser_inv now u m0 rs0).
Qed.

Lemma CheckPeriodReset_returns now users m : mgr_inv m -> returns (CheckPeriodReset now users m).
Proof.
  intros I. unfold CheckPeriodReset.
  destruct (foldM_returns (fun acc => mgr_inv acc.1) (resetUser now) users (m, [])) as (acc & -> & _);
    [|done|by eexists].
  intros [m0 rs] u I0 _. cbn in I0.
  assert (returns (resetUser now (m0, rs) u)) as [acc' E].
  { unfold resetUser. destruct (states m0 !! u) as [s|] eqn:Es; [|by eexists].
    destruct (inv_state m0 I0 u s Es) as [c Hc].
    destruct (mustPeriodKey_valid m0 u c now Hc (inv_config m0 I0 u c Hc)) as (k & _ & ->). cbn.
    repeat case_goal; by eexists. }
  exists acc'. split; [done|]. by apply (resetUser_inv now u m0 rs).
Qed.

(** What a check does to the state of a user under a configuration. *)
Definition reset_state (c : QuotaConfig) (now : Z) (s : userState) : userState :=
  match periodKey c now with
  | Ok k => if decide (us_periodKey s = "") then setPeriodKey k s
            else if decide (k = us_periodKey s) then s else mkUserState 0 0 false k
  | Err _ => s
  end.

(** The reset a check reports for a user. *)
Definition reset_of (now : Z) (m : QuotaManager) (u : string) : option PeriodReset :=
  s ← states m !! u; c ← userConfigs m !! u;
  match periodKey c now with
  | Ok k => if decide (us_periodKey s = "" \/ k = us_periodKey s) then None
            else Some (mkPeriodReset u (us_periodKey s) k)
  | Err _ => None
  end.

Lemma resetUser_eq now u m rs : mgr_inv m ->
  resetUser now (m, rs) u =
  Ret (set_states (fun st => match userConfigs m !! u with
                             | Some c => alter (reset_state c now) u st
                             | None => st end) m,
       rs ++ option_list (reset_of now m u)).
Proof.
  intros I. unfold resetUser, reset_of. destruct (states m !! u) as [s|] eqn:Es.
  - destruct (inv_state m I u s Es) as [c Hc]. rewrite Hc.
    destruct (mustPeriodKey_valid m u c now Hc (inv_config m I u c Hc)) as (k & Hk & ->).
    cbn. rewrite Hk. unfold set_states, put_state. rewrite (alter_alt_Some _ _ _ s) by done.
    unfold reset_state. rewrite Hk. destruct (decide (us_periodKey s = "")).
    + rewrite decide_True by tauto. cbn. by rewrite app_nil_r.
    + destruct (decide (k = us_periodKey s)).
      * rewrite decide_True by tauto. cbn. rewrite app_nil_r, insert_id by done. by destruct m.
      * rewrite decide_False by tauto. done.
  - cbn. rewrite app_nil_r. unfold set_states. destruct (userConfigs m !! u); [rewrite alter_id' by done|]; by destruct m.
Qed.

Lemma reset_fold now users m rs : mgr_inv m -> NoDup users ->
  exists st, foldM (resetUser now) users (m, rs) =
    Ret (set_states (fun _ => st) m, rs ++ omap (reset_of now m) users) /\
  forall u, st !! u = if decide (u ∈ users) then
    s ← states m !! u; Some (match userConfigs m !! u with Some c => reset_state c now s | None => s end)
    else states m !! u.
Proof.
  intros I Hnd. revert m rs I. induction Hnd as [|u users Hu Hnd IH]; intros m rs I.
  - exists (states m). cbn. rewrite app_nil_r. split; [by destruct m|].
    intros v. by rewrite decide_False by set_solver.
  - cbn [foldM]. pose proof (resetUser_eq now u m rs I) as E. rewrite E.
    destruct (resetUser_inv now u m rs _ I E) as (I' & _). cbn [fst] in I'.
    destruct (IH _ (rs ++ option_list (reset_of now m u)) I') as (st & -> & Hst). exists st. split.
    + f_equal. f_equal. rewrite <-app_assoc. f_equal.
      match goal with |- _ ++ ?l = _ => assert (l = omap (reset_of now m) users) as -> end.
      { apply omap_ext_in. intros v Hv. unfold reset_of. cbn.
        destruct (userConfigs m !! u); [rewrite lookup_alter_ne by (intros ->; done)|]; done. }
      cbn. by destruct (reset_of now m u).
    + intros v. rewrite Hst. cbn. destruct (decide (u = v)) as [<-|Hne].
      * rewrite decide_False, decide_True by set_solver.
        destruct (userConfigs m !! u) as [c|]; [rewrite lookup_alter_eq|]; by destruct (states m !! u).
      * assert ((match userConfigs m !! u with Some c => alter (reset_state c now) u (states m) | None => states m end) !! v
          = states m !! v) as -> by (destruct (userConfigs m !! u); [by rewrite lookup_alter_ne|done]).
        destruct (decide (v ∈ users)); [rewrite decide_True by set_solver|rewrite decide_False by set_solver]; done.
Qed.

(** What the drain reports of a user. *)
Definition pending_of (m : QuotaManager) (u : string) : option PendingDelta :=
  match states m !! u with
  | Some s => if us_pendingDelta s =? 0 then None
              else Some (mkPendingDelta u (us_periodKey s) (us_pendingDelta s))
  | None => None
  end.

Definition drain (us : list string) (st : gmap string userState) : gmap string userState :=
  fold_left (fun st u => alter (set_pendingDelta 0) u st) us st.

Lemma drain_lookup us st u :
  drain us st !! u = (fun s => if decide (u ∈ us) then set_pendingDelta 0 s else s) <$> st !! u.
Proof.
  revert st. induction us as [|v us IH]; intros st.
  - cbn. destruct (st !! u); [|done]. cbn. by rewrite decide_False by set_solver.
  - cbn [drain fold_left]. fold (drain us (alter (set_pendingDelta 0) v st)). rewrite IH.
    destruct (decide (v = u)) as [->|Hne].
    + rewrite lookup_alter_eq. destruct (st !! u); [|done]. cbn.
      rewrite (decide_True (P := u ∈ u :: us)) by set_solver. by destruct (decide _).
    + rewrite lookup_alter_ne by done. destruct (st !! u); [|done]. cbn. f_equal. apply decide_ext. set_solver.
Qed.

Lemma consume_fold us m pend :
  NoDup us -> fold_left consumeUser us (m, pend) = (set_states (drain us) m, pend ++ omap (pending_of m) us).
Proof.
  intros Hnd. revert m pend. induction Hnd as [|u us Hu Hnd IH]; intros m pend.
  - cbn. rewrite app_nil_r. by destruct m.
  - assert (forall st, omap (pending_of (set_states (alter (set_pendingDelta st) u) m)) us = omap (pending_of m) us) as Ho.
    { intros st. apply omap_ext_in. intros v Hv.
      unfold pending_of. cbn. rewrite lookup_alter_ne; [done|]. intros ->. done. }
    assert (consumeUser (m, pend) u =
      (set_states (alter (set_pendingDelta 0) u) m, pend ++ option_list (pending_of m u))) as Hc.
    { unfold consumeUser, pending_of. destruct (states m !! u) as [s|] eqn:Es.
      - assert (put_state u (set_pendingDelta 0 s) m = set_states (alter (set_pendingDelta 0) u) m) as ->.
        { unfold put_state, set_states. f_equal. symmetry. by apply alter_alt_Some. }
        destruct (us_pendingDelta s =? 0); cbn; [by rewrite app_nil_r|done].
      - cbn. rewrite app_nil_r. f_equal. unfold set_states. rewrite alter_id' by done. by destruct m. }
    cbn [fold_left]. rewrite Hc, IH, Ho. f_equal. rewrite <-app_assoc. f_equal.
    cbn. by destruct (pending_of m u).
Qed.

Lemma ConsumePendingDeltas_eq m :
  mgr_inv m ->
  ConsumePendingDeltas m =
  (set_states (drain (dirtyQueue m)) (set_dirty ∅ [] m), omap (pending_of m) (dirtyQueue m)).
Proof. intros I. unfold ConsumePendingDeltas. rewrite consume_fold; [done|]. apply (inv_dirty m I). Qed.

(** Draining keeps usage, flag and key. *)
Lemma drain_inv us st u s : drain us st !! u = Some s ->
  exists s0, st !! u = Some s0 /\ us_usage s = us_usage s0 /\ us_exceeded s = us_exceeded s0 /\
    us_periodKey s = us_periodKey s0 /\ (us_pendingDelta s <> 0 -> (u ∉ us) /\ us_pendingDelta s = us_pendingDelta s0).
Proof.
  rewrite drain_lookup. destruct (st !! u) as [s0|]; cbn; [|done]. intros [= <-]. exists s0.
  destruct (decide _); cbn; [|done]. split_and!; done.
Qed.

(** Draining the dirty users leaves nothing pending anywhere. *)
Lemma drained_states m : mgr_inv m -> forall u,
  states (set_states (drain (dirtyQueue m)) (set_dirty ∅ [] m)) !! u = set_pendingDelta 0 <$> states m !! u.
Proof.
  intros I u. cbn. rewrite drain_lookup. destruct (states m !! u) as [s|] eqn:Es; [|done]. cbn. f_equal.
  destruct (decide _) as [|Hn]; [done|]. destruct s as [us pd ex k]. unfold set_pendingDelta. cbn. f_equal.
  destruct (Z.eq_dec pd 0); [done|]. by destruct Hn; apply (inv_pending m I u _ Es).
Qed.

Lemma pending_of_user m u pd : pending_of m u = Some pd -> pd_User pd = u.
Proof.
  unfold pending_of. destruct (states m !! u); [|done]. destruct (_ =? 0); [done|]. by intros [= <-].
Qed.

Lemma omap_pending_users m us v : v ∈ map pd_User (omap (pending_of m) us) -> v ∈ us.
Proof.
  intros H. apply list_elem_of_fmap in H as (pd & -> & Hpd). apply list_elem_of_omap in Hpd as (u & Hu & E).
  by rewrite (pending_of_user m u pd E).
Qed.

Lemma omap_pending_NoDup m us : NoDup us -> NoDup (map pd_User (omap (pending_of m) us)).
Proof.
  induction 1 as [|u us Hu Hnd IH]; [constructor|]. cbn. destruct (pending_of m u) as [pd|] eqn:E; [|done].
  cbn. constructor; [|done]. rewrite (pending_of_user m u pd E). intros H. by apply Hu, (omap_pending_users m).
Qed.

Lemma ConsumePendingDeltas_inv m : mgr_inv m -> mgr_inv (ConsumePendingDeltas m).1.
Proof.
  intros I. rewrite ConsumePendingDeltas_eq by done. split; cbn; try apply I.
  - intros u s Hs. apply drain_inv in Hs as (s0 & Hs0 & _). by apply (inv_state m I u s0).
  - intros u c s Hc Hs. apply drain_inv in Hs as (s0 & Hs0 & -> & -> & _). by apply (inv_flag m I u).
  - intros u s x q Hs Hex. apply drain_inv in Hs as (s0 & Hs0 & _ & He & _). rewrite He in Hex.
    by apply (inv_closed m I u s0).
  - split; [constructor|done].
  - intros u s Hs Hp. apply drain_inv in Hs as (s0 & Hs0 & _ & _ & _ & Hpd). destruct (Hpd Hp) as [Hn E].
    destruct Hn. apply (inv_pending m I u s0 Hs0). congruence.
Qed.

(** ** Removal *)

(** The list of a removed user is emptied. *)
Definition clear_at (l : option nat) (L : gmap nat connList) : gmap nat connList :=
  match l with Some l => <[l := emptyConnList]> L | None => L end.

Lemma RemoveConfig_eq u m : u <> "" -> mgr_inv m ->
  RemoveConfig u m =
  (set_tracked (close_all (active_list m u))
    (set_lists (clear_at (activeConns m !! u))
      (set_states (delete u) (set_activeConns (delete u) (deleteConfig u m)))), None).
Proof.
  intros Hu I. unfold RemoveConfig, active_list. rewrite decide_False by done.
  cbn. destruct (activeConns m !! u) as [l|] eqn:El; [|done].
  destruct (inv_active m I u l El) as [_ [cl Hcl]]. rewrite Hcl. cbn. by rewrite markAll_eq.
Qed.

Lemma RemoveConfig_active_list u v m : mgr_inv m -> v <> u ->
  active_list (RemoveConfig u m).1 v = active_list m v.
Proof.
  intros I Hv. destruct (decide (u = "")) as [->|Hu]; [done|].
  rewrite RemoveConfig_eq by done. unfold active_list. cbn. rewrite lookup_delete_ne by done.
  destruct (activeConns m !! v) as [l|] eqn:El; [|done].
  destruct (activeConns m !! u) as [l'|] eqn:El'; [|done].
  cbn. rewrite lookup_insert_ne; [done|]. intros ->. by destruct Hv; eapply (inv_unshared m I).
Qed.

Lemma RemoveConfig_inv u m : mgr_inv m -> mgr_inv (RemoveConfig u m).1.
Proof.
  intros I. destruct (decide (u = "")) as [->|Hu]; [done|].
  pose proof (fun v => RemoveConfig_active_list u v m I) as Hal.
  rewrite RemoveConfig_eq in * by done. cbn [fst] in *.
  assert (forall l, is_Some (lists m !! l) ->
    is_Some (clear_at (activeConns m !! u) (lists m) !! l)) as HL.
  { intros l Hl. destruct (activeConns m !! u); [|done]. cbn. rewrite lookup_insert. by case_goal. }
  assert (forall l cl, clear_at (activeConns m !! u) (lists m) !! l = Some cl ->
    cl = emptyConnList \/ lists m !! l = Some cl) as HL2.
  { intros l cl. destruct (activeConns m !! u); [|by right].
    cbn. rewrite lookup_insert. case_goal; [intros [= <-]; by left|by right]. }
  split; cbn.
  - intros v c. rewrite lookup_delete_Some. intros [_ Hc]. by apply (inv_config m I v).
  - intros v s. rewrite lookup_delete_Some. intros [Hv Hs]. rewrite lookup_delete_ne by done. by apply (inv_state m I v s).
  - intros v l. rewrite lookup_delete_Some. intros [Hv Hl]. rewrite lookup_delete_ne by done.
    destruct (inv_active m I v l Hl). auto.
  - intros v c s. rewrite !lookup_delete_Some. intros [_ Hc] [_ Hs]. by apply (inv_flag m I v).
  - intros l cl Hl. destruct (HL2 l cl Hl) as [->|Hl']; [apply cl_wf_empty|by apply (inv_lists m I l)].
  - intros v w l. rewrite !lookup_delete_Some. intros [_ Hv] [_ Hw]. by apply (inv_unshared m I v w l).
  - intros l cl x Hl Hx. destruct (HL2 l cl Hl) as [->|Hl']; [by apply elem_of_nil in Hx|].
    destruct (inv_elems m I l cl x Hl' Hx) as [q Hq]. rewrite close_all_lookup, Hq. by eexists.
  - intros v s x q. rewrite lookup_delete_Some. intros [Hv Hs] Hex Hx Hq. rewrite Hal in Hx by done.
    apply close_all_inv in Hq as (q0 & Hq0 & _ & _ & _ & Hcl). apply Hcl. left. by apply (inv_closed m I v s x).
  - intros x q v Hq Hv Ho Ho2. apply close_all_inv in Hq as (q0 & Hq0 & E1 & E2 & E3 & Hcl).
    assert (~ (qn_closed q0 = true \/ x ∈ active_list m u)) as Hno by (rewrite <-Hcl, Ho; done).
    rewrite E1 in Ho2. rewrite E2 in Hv. destruct (inv_tracked m I x q0 v Hq0 Hv) as [Hx Hc]; [by destruct (qn_closed q0); tauto|done|].
    assert (v <> u) as Hne by (intros ->; tauto).
    rewrite Hal by done. rewrite lookup_delete_ne by done. by rewrite E3.
  - apply I.
  - intros v s. rewrite lookup_delete_Some. intros [_ Hs]. by apply (inv_pending m I v s).
Qed.

(** ** Connections *)

Lemma active_list_alter m u v f l :
  (forall cl, lists m !! l = Some cl -> activeConns m !! u = Some l -> v ∈ conns cl -> v ∈ conns (f cl)) ->
  v ∈ active_list m u -> v ∈ active_list (set_lists (alter f l) m) u.
Proof.
  intros Hf. unfold active_list. cbn. destruct (activeConns m !! u) as [l'|]; [|done].
  destruct (decide (l' = l)) as [->|Hne].
  - rewrite lookup_alter_eq. destruct (lists m !! l) as [cl|]; [|done]. cbn. by apply Hf.
  - by rewrite lookup_alter_ne by done.
Qed.

Lemma active_list_alter_inv m u v f l :
  (forall cl, lists m !! l = Some cl -> v ∈ conns (f cl) -> v ∈ conns cl) ->
  v ∈ active_list (set_lists (alter f l) m) u -> v ∈ active_list m u.
Proof.
  intros Hf. unfold active_list. cbn. destruct (activeConns m !! u) as [l'|]; [|done].
  destruct (decide (l' = l)) as [->|Hne].
  - rewrite lookup_alter_eq. destruct (lists m !! l) as [cl|]; [|done]. cbn. by apply Hf.
  - by rewrite lookup_alter_ne by done.
Qed.

(** Marking [closeOnce] only frees the connection from its obligation to be listed. *)
Lemma once_inv m c q : mgr_inv m -> tracked m !! c = Some q ->
  mgr_inv (set_tracked <[c := mkQuotaConn (qn_closed q) true (qn_onBytes q) (qn_onClose q)]> m).
Proof.
  intros I Hq. split; cbn; try apply I.
  - intros l cl x Hl Hx. rewrite lookup_insert. destruct (decide _); [by eexists|by apply (inv_elems m I l cl)].
  - intros u s x q' Hs Hex Hx. change (active_list (set_tracked _ _) u) with (active_list m u) in Hx.
    rewrite lookup_insert. destruct (decide (c = x)) as [<-|]; [|by apply (inv_closed m I u s)].
    intros [= <-]. cbn. by apply (inv_closed m I u s c).
  - intros x q' u. rewrite lookup_insert. destruct (decide (c = x)) as [<-|]; [by intros [= <-]|apply I].
Qed.

(** Removing a connection that has run its [closeOnce] from a list. *)
Lemma unlist_inv m c q l : mgr_inv m -> tracked m !! c = Some q -> qn_closeOnce q = true ->
  mgr_inv (set_lists (alter (fun cl => remove cl c) l) m).
Proof.
  intros I Hq Ho.
  assert (forall l' cl, alter (fun cl => remove cl c) l (lists m) !! l' = Some cl ->
    exists cl0, lists m !! l' = Some cl0 /\ cl_wf cl /\ conns cl ⊆ conns cl0) as HL.
  { intros l' cl. destruct (decide (l = l')) as [<-|Hne].
    - rewrite lookup_alter_eq. destruct (lists m !! l) as [cl0|] eqn:E; cbn; [|done].
      pose proof (inv_lists m I l cl0 E). intros [= <-]. exists cl0.
      split_and!; [done|by apply remove_wf|by apply remove_subset].
    - rewrite lookup_alter_ne by done. intros Hl. exists cl. split_and!; [done| |done].
      by apply (inv_lists m I l'). }
  assert (forall u x, x ∈ active_list (set_lists (alter (fun cl => remove cl c) l) m) u -> x ∈ active_list m u) as HA.
  { intros u x. apply active_list_alter_inv. intros cl Hcl. apply remove_subset. by apply (inv_lists m I l). }
  split; cbn; try apply I.
  - intros u l' Hl. destruct (inv_active m I u l' Hl) as [? [cl Hcl]]. split; [done|].
    apply lookup_alter_is_Some. by eexists.
  - intros l' cl Hl. by destruct (HL l' cl Hl) as (? & _ & ? & _).
  - intros l' cl x Hl Hx. destruct (HL l' cl Hl) as (cl0 & Hcl0 & _ & Hsub).
    apply (inv_elems m I l' cl0); [done|]. by apply Hsub.
  - intros u s x q' Hs Hex Hx. apply (inv_closed m I u s); auto.
  - intros x q' u Hx Hb Hcl Hon. destruct (inv_tracked m I x q' u Hx Hb Hcl Hon) as [Hin ->].
    split; [|done]. revert Hin. apply active_list_alter. intros cl Hcl' _ Hin.
    destruct (decide (c ∈ conns cl)) as [Hc|Hc]; [|by rewrite remove_absent by (done || by apply (inv_lists m I l))].
    destruct (remove_present cl c (inv_lists m I l cl Hcl') Hc) as (_ & Hp & _).
    rewrite Hp in Hin. apply elem_of_cons in Hin as [->|]; [|done]. congruence.
Qed.

Lemma Close_inv c m : mgr_inv m -> mgr_inv (Close c m).
Proof.
  intros I. unfold Close. destruct (tracked m !! c) as [q|] eqn:Hq; [|done].
  destruct (qn_closeOnce q); [done|]. pose proof (once_inv m c q I Hq) as I'.
  destruct (qn_onClose q) as [l|]; [|done].
  eapply (unlist_inv _ c); [done|apply lookup_insert_eq|done].
Qed.

(** A new wrapper without callbacks, open or closed. *)
Lemma alloc_inv m b : mgr_inv m ->
  mgr_inv (set_tracked <[fresh (dom (tracked m)) := mkQuotaConn b false None None]> m).
Proof.
  intros I. set (c := fresh _).
  assert (tracked m !! c = None) as Hc by (apply not_elem_of_dom, is_fresh).
  split; cbn; try apply I.
  - intros l cl x Hl Hx. rewrite lookup_insert. destruct (decide _); [by eexists|by apply (inv_elems m I l cl)].
  - intros u s x q Hs Hex Hx. change (active_list (set_tracked _ _) u) with (active_list m u) in Hx.
    rewrite lookup_insert. destruct (decide (c = x)) as [<-|]; [|by apply (inv_closed m I u s)].
    exfalso. unfold active_list in Hx. destruct (activeConns m !! u); [|by apply elem_of_nil in Hx].
    destruct (lists m !! _) eqn:El; [|by apply elem_of_nil in Hx].
    destruct (inv_elems m I _ _ c El Hx). congruence.
  - intros x q u. rewrite lookup_insert. destruct (decide (c = x)); [by intros [= <-]|apply I].
Qed.

(** [LoadOrStore] of a list. *)
Lemma connListFor_inv m u c : mgr_inv m -> userConfigs m !! u = Some c ->
  exists l m', connListFor u m = (l, m') /\ mgr_inv m' /\ activeConns m' !! u = Some l /\
    userConfigs m' = userConfigs m /\ states m' = states m /\ tracked m' = tracked m /\
    active_list m' u = active_list m u.
Proof.
  intros I Hc. unfold connListFor. destruct (activeConns m !! u) as [l|] eqn:El; [eauto 10|].
  set (l := fresh (dom (lists m))). eexists l, _. split; [done|].
  assert (lists m !! l = None) as Hl by (apply not_elem_of_dom, is_fresh).
  assert (forall v l', activeConns m !! v = Some l' -> l' <> l) as Hne.
  { intros v l' Hv ->. destruct (inv_active m I v l Hv) as [_ [? ?]]. congruence. }
  assert (forall v, active_list (set_activeConns <[u:=l]> (set_lists <[l:=emptyConnList]> m)) v = active_list m v) as HA.
  { intros v. unfold active_list. cbn. destruct (decide (u = v)) as [<-|Hv].
    - by rewrite lookup_insert_eq, lookup_insert_eq, El.
    - rewrite lookup_insert_ne by done. destruct (activeConns m !! v) as [l'|] eqn:E; [|done].
      rewrite lookup_insert_ne; [done|]. intros ->. by eapply Hne. }
  split_and!; [|apply lookup_insert_eq|done..|apply HA].
  split; cbn; try apply I.
  - intros v l'. rewrite !lookup_insert. destruct (decide (u = v)) as [<-|Hv].
    + intros [= <-]. rewrite decide_True by done. split; by eexists.
    + intros Hl'. destruct (inv_active m I v l' Hl'). split; [done|]. by destruct (decide _).
  - intros l' cl. rewrite lookup_insert. destruct (decide _); [intros [= <-]; apply cl_wf_empty|apply I].
  - intros v w l'. rewrite !lookup_insert. destruct (decide (u = v)) as [<-|Hv]; destruct (decide (_ = w)) as [<-|Hw].
    + done.
    + intros [= <-] Hl'. by destruct (Hne w l).
    + intros Hl' [= <-]. by destruct (Hne v l).
    + apply I.
  - intros l' cl x. rewrite lookup_insert. destruct (decide _); [intros [= <-] Hx; by apply elem_of_nil in Hx|apply I].
  - intros v s x q Hs Hex. rewrite HA. by apply (inv_closed m I v s).
  - intros x q v H1 H2 H3 H4. rewrite HA. destruct (inv_tracked m I x q v H1 H2 H3 H4) as [Hx Hc'].
    split; [done|]. rewrite Hc', lookup_insert_ne; [done|]. intros <-.
    unfold active_list in Hx. rewrite El in Hx. by apply elem_of_nil in Hx.
Qed.

Context (growslice : nat -> nat -> nat).

(** A fresh connection enters the list of a user under quota and gets its callbacks. *)
Definition enlist (u : string) (l c : nat) (m : QuotaManager) : QuotaManager :=
  setCallbacks c u l (set_lists (alter (fun cl => add growslice cl c) l) m).

Lemma enlist_lists m l l' c cl : mgr_inv m ->
  alter (fun cl => add growslice cl c) l (lists m) !! l' = Some cl ->
  exists cl0, lists m !! l' = Some cl0 /\ cl_wf cl /\ conns cl = conns cl0 ++ (if decide (l = l') then [c] else []).
Proof.
  intros I. destruct (decide (l = l')) as [<-|Hne].
  - rewrite lookup_alter_eq. destruct (lists m !! l) as [cl0|] eqn:E; cbn; [|done].
    intros [= <-]. exists cl0. destruct (add_spec growslice cl0 c (inv_lists m I l cl0 E)). by split_and!.
  - rewrite lookup_alter_ne by done. intros Hl. exists cl. rewrite app_nil_r.
    split_and!; [done|by apply (inv_lists m I l')|done].
Qed.

Lemma enlist_active_list m u l c v : mgr_inv m -> activeConns m !! u = Some l ->
  active_list (enlist u l c m) v = active_list m v ++ (if decide (u = v) then [c] else []).
Proof.
  intros I Hl. unfold active_list, enlist. cbn. destruct (activeConns m !! v) as [l'|] eqn:El'.
  2:{ destruct (decide (u = v)) as [<-|]; [congruence|done]. }
  destruct (inv_active m I v l' El') as [_ [cl0 Hcl0]].
  destruct (alter (fun cl => add growslice cl c) l (lists m) !! l') as [cl|] eqn:E.
  - apply enlist_lists in E as (cl1 & Hcl1 & _ & ->); [|done]. rewrite Hcl1. f_equal.
    destruct (decide (l = l')) as [<-|Hne]; destruct (decide (u = v)) as [<-|Hv]; try done.
    + by destruct Hv; apply (inv_unshared m I u v l).
    + congruence.
  - assert (is_Some (alter (fun cl => add growslice cl c) l (lists m) !! l')) as [? ?]; [|congruence].
    apply lookup_alter_is_Some. by eexists.
Qed.

Lemma enlist_inv m u l c : mgr_inv m -> activeConns m !! u = Some l ->
  tracked m !! c = Some (mkQuotaConn false false None None) -> IsExceeded m u = false ->
  mgr_inv (enlist u l c m).
Proof.
  intros I Hl Hc Hex. pose proof (fun v => enlist_active_list m u l c v I Hl) as HA.
  assert (forall x, is_Some (tracked m !! x) -> is_Some (tracked (enlist u l c m) !! x)) as HS.
  { intros x Hx. cbn. by apply lookup_alter_is_Some. }
  assert (forall x q, tracked (enlist u l c m) !! x = Some q ->
    (x = c /\ q = mkQuotaConn false false (Some u) (Some l)) \/ (x <> c /\ tracked m !! x = Some q)) as HT.
  { intros x q. cbn. destruct (decide (c = x)) as [<-|Hne].
    - rewrite lookup_alter_eq, Hc. cbn. intros [= <-]. by left.
    - rewrite lookup_alter_ne by done. right. by split. }
  split; try apply I.
  - intros v l' Hl'. destruct (inv_active m I v l' Hl') as [? ?]. split; [done|]. by apply lookup_alter_is_Some.
  - intros l' cl E. by apply enlist_lists in E as (? & _ & ? & _).
  - intros l' cl x E Hx. apply enlist_lists in E as (cl0 & Hcl0 & _ & Heq); [|done]. apply HS.
    rewrite Heq in Hx. apply elem_of_app in Hx as [Hx|Hx]; [by apply (inv_elems m I l' cl0)|].
    destruct (decide _); [|by apply elem_of_nil in Hx]. apply list_elem_of_singleton in Hx as ->. by eexists.
  - intros v s x q Hs Hv. rewrite HA. intros Hx Hq.
    assert (u <> v) as Huv.
    { intros ->. unfold IsExceeded in Hex. cbn in Hs. rewrite Hs in Hex. congruence. }
    rewrite decide_False, app_nil_r in Hx by done.
    destruct (HT x q Hq) as [[-> ->]|[_ Hq']]; [|by apply (inv_closed m I v s x)].
    by pose proof (inv_closed m I v s c _ Hs Hv Hx Hc).
  - intros x q v Hq Hb Hcl Ho. rewrite HA. destruct (HT x q Hq) as [[-> ->]|[Hne Hq']].
    + cbn in Hb. injection Hb as <-. cbn. rewrite decide_True by done. split; [set_solver|done].
    + destruct (inv_tracked m I x q v Hq' Hb Hcl Ho) as [Hx Hoc]. split; [set_solver|done].
Qed.

Lemma HasQuota_spec m u : HasQuota m u = true <-> is_Some (userConfigs m !! u).
Proof. unfold HasQuota, loadConfig. destruct (userConfigs m !! u); split; [by eexists|done|done|by intros [? ?]]. Qed.

(** What routing a connection of a user does. *)
Lemma RoutedConnection_cases u now m : mgr_inv m ->
  exists m' r, RoutedConnection growslice u now m = Ret (m', r) /\ mgr_inv m' /\
  ((u = "" \/ userConfigs m !! u = None) /\ m' = m /\ r = None \/
   exists c, r = Some c /\ tracked m !! c = None /\ u <> "" /\ is_Some (userConfigs m !! u) /\
     if IsExceeded m u then tracked m' = <[c := mkQuotaConn true false None None]> (tracked m) /\ states m' = states m
     else exists l, tracked m' = <[c := mkQuotaConn false false (Some u) (Some l)]> (tracked m) /\
       activeConns m' !! u = Some l /\ active_list m' u = active_list m u ++ [c] /\ Usage m' u = Usage m u).
Proof.
  intros I. unfold RoutedConnection. destruct (decide (u = "")) as [Hu|Hu]; [by eauto 10|].
  unfold HasQuota, loadConfig. destruct (userConfigs m !! u) as [cfg|] eqn:Hcfg; [|by eauto 10].
  pose proof (inv_config m I u cfg Hcfg) as Hv.
  set (c := fresh (dom (tracked m))).
  assert (tracked m !! c = None) as Hc by (apply not_elem_of_dom, is_fresh).
  cbn [negb NewQuotaConn]. destruct (IsExceeded m u) eqn:Hex.
  - do 2 eexists. split; [done|]. unfold markQuotaExceeded, set_tracked. cbn. fold c.
    rewrite alter_insert_eq. cbn. split; [apply (alloc_inv m true I)|]. right. exists c. by split_and!.
  - unfold NewQuotaConn. fold c. set (m1 := set_tracked _ m).
    assert (mgr_inv m1) as I1 by apply (alloc_inv m false I).
    unfold RegisterConn, loadConfig. change (userConfigs m1) with (userConfigs m). rewrite Hcfg.
    destruct (stateFor_eq u m1) as (m0 & -> & Hput & Hcfg0 & _).
    destruct (mustPeriodKey_valid m0 u cfg now) as (k & Hk & ->); [by rewrite Hcfg0|done|]. cbn.
    rewrite Hput, (setPeriodKeyIfEmpty_eq cfg now k) by done. fold (keyed cfg now (state_of m1 u)).
    set (m2 := put_state u (keyed cfg now (state_of m1 u)) m1).
    assert (mgr_inv m2) as I2.
    { apply put_inv; [done|by eexists|done|done|]. by apply state_pending. }
    destruct (connListFor_inv m2 u cfg I2 Hcfg) as (l & m3 & -> & I3 & Hl & _ & Hst & Htr & Hal).
    assert (us_exceeded (keyed cfg now (state_of m1 u)) = false) as Hnx.
    { unfold state_of, IsExceeded in *. cbn. by destruct (states m !! u). }
    rewrite Hnx. exists (enlist u l c m3), (Some c). split; [done|].
    assert (tracked m3 !! c = Some (mkQuotaConn false false None None)) as Hc3 by (rewrite Htr; apply lookup_insert_eq).
    split.
    { apply enlist_inv; [done|done|done|]. unfold IsExceeded. rewrite Hst. unfold m2, put_state, set_states. cbn [states].
      rewrite lookup_insert_eq. exact Hnx. }
    right. exists c. split_and!; [done|done|done|by eexists|]. exists l. split_and!.
    + cbn. rewrite Htr. cbn. by rewrite alter_insert_eq.
    + done.
    + rewrite enlist_active_list, decide_True, Hal by done. done.
    + unfold Usage. cbn. rewrite Hst. cbn. rewrite lookup_insert_eq. unfold state_of. cbn. by destruct (states m !! u).
Qed.

(** ** Snapshots and construction *)

(** When a snapshot may be restored: the user is not configured, the flag agrees with
    the usage, the bytes to flush are indexed and the list is empty and unlinked. *)
Definition restorable (m : QuotaManager) (r : RuntimeState) : Prop :=
  let u := tqu_Name (rs_User r) in
  userConfigs m !! u = None /\
  (forall c, newQuotaConfig (tqu_QuotaGB (rs_User r)) (tqu_Period (rs_User r)) (tqu_PeriodStart (rs_User r))
       (tqu_PeriodDays (rs_User r)) None = Ok (Some c) ->
     rs_Exceeded r = true <-> qc_quotaBytes c < rs_UsageBytes r) /\
  (rs_PendingDelta r <> 0 -> u ∈ dirtyQueue m) /\
  (forall l, rs_activeConns r = Some l -> lists m !! l = Some emptyConnList /\
     forall v, activeConns m !! v <> Some l).

Lemma unconfigured m u : mgr_inv m -> userConfigs m !! u = None ->
  states m !! u = None /\ activeConns m !! u = None /\ active_list m u = [].
Proof.
  intros I Hc. assert (activeConns m !! u = None) as Ha.
  { destruct (activeConns m !! u) eqn:E; [|done]. destruct (inv_active m I u _ E) as [[? ?] _]. congruence. }
  split_and!; [|done|unfold active_list; by rewrite Ha].
  destruct (states m !! u) eqn:E; [|done]. destruct (inv_state m I u _ E). congruence.
Qed.

(** Linking an empty list to a configured user that has none. *)
Lemma link_inv m u l : mgr_inv m -> is_Some (userConfigs m !! u) -> activeConns m !! u = None ->
  lists m !! l = Some emptyConnList -> (forall v, activeConns m !! v <> Some l) ->
  mgr_inv (set_activeConns <[u := l]> m).
Proof.
  intros I Hu Ha Hl Hno.
  assert (forall v, active_list (set_activeConns <[u:=l]> m) v = active_list m v) as HA.
  { intros v. unfold active_list. cbn. rewrite lookup_insert. destruct (decide (u = v)) as [<-|]; [|done].
    by rewrite Hl, Ha. }
  split; cbn; try apply I.
  - intros v l'. rewrite lookup_insert. destruct (decide (u = v)) as [<-|]; [|apply I].
    intros [= <-]. rewrite Hl. split; [done|by eexists].
  - intros v w l'. rewrite !lookup_insert. destruct (decide (u = v)) as [<-|]; destruct (decide (_ = w)) as [<-|]; try done.
    + intros [= <-] Hw. by destruct (Hno w).
    + intros Hw [= <-]. by destruct (Hno v).
    + apply I.
  - intros v s x q. rewrite HA. apply (inv_closed m I v s).
  - intros x q v H1 H2 H3 H4. rewrite HA. destruct (inv_tracked m I x q v H1 H2 H3 H4) as [Hx Hc].
    split; [done|]. rewrite Hc, lookup_insert_ne; [done|]. intros <-.
    unfold active_list in Hx. rewrite Ha in Hx. by apply elem_of_nil in Hx.
Qed.

Lemma RestoreState_inv r m : mgr_inv m -> restorable m r -> mgr_inv (RestoreState r m).1.
Proof.
  intros I (Hc & Hflag & Hpd & Hl). unfold RestoreState.
  destruct (newQuotaConfig _ _ _ _ _) as [[c|]|err] eqn:E; [|done..].
  set (u := tqu_Name (rs_User r)) in *. specialize (Hflag c eq_refl).
  destruct (unconfigured m u I Hc) as (Hs & Ha & Hal).
  set (s := mkUserState _ _ _ _).
  assert (mgr_inv (put_state u s (storeConfig u c m))) as I1.
  { apply configure_inv; [done|by eapply newQuotaConfig_valid|done|done|].
    rewrite Hal. intros _ x q Hx. by apply elem_of_nil in Hx. }
  destruct (rs_activeConns r) as [l|]; cbn [fst].
  - destruct (Hl l eq_refl). apply link_inv; [done|cbn; rewrite lookup_insert_eq; by eexists|done..].
  - assert (set_activeConns (delete u) (put_state u s (storeConfig u c m)) = put_state u s (storeConfig u c m)) as ->; [|done].
    unfold set_activeConns. cbn. rewrite delete_id by done. done.
Qed.

Lemma newUsers_valid groups users acc configs :
  map_Forall (fun _ c => config_valid c) acc -> newUsers groups users acc = Ret (Ok configs) ->
  map_Forall (fun _ c => config_valid c) configs.
Proof.
  revert acc. induction users as [|user users IH]; intros acc Hacc H; cbn in H; [by injection H as <-|].
  destruct (decide _); [done|]. destruct (userBase groups user) as [[base|]|]; try done.
  destruct (newQuotaConfig _ _ _ _ _) as [[c|]|] eqn:E; [|by eapply IH|done].
  eapply IH, H. apply map_Forall_insert_2; [by eapply newQuotaConfig_valid|done].
Qed.

Lemma NewQuotaManager_inv groups users m : NewQuotaManager groups users = Ret (Ok m) -> mgr_inv m.
Proof.
  unfold NewQuotaManager. destruct (newGroups groups ∅) as [g|]; [|done].
  destruct (newUsers g users ∅) as [[configs|]|] eqn:E; [|done..]. intros [= <-].
  apply empty_inv. eapply newUsers_valid, E. apply map_Forall_empty.
Qed.

(** ** Reachable states *)

(** One call into the manager, from the service, the persister or a connection.  The
    byte counts are those the accumulated usage can hold. *)
Inductive step (m : QuotaManager) : QuotaManager -> Prop :=
| step_routed u now m' r : RoutedConnection growslice u now m = Ret (m', r) -> step m m'
| step_transfer c wrapped now :
    (forall q u, tracked m !! c = Some q -> qn_onBytes q = Some u -> int64_range (Usage m u + wrapped.1)) ->
    step m (transfer c wrapped now m).1
| step_packet c len wrapped now :
    (forall q u, tracked m !! c = Some q -> qn_onBytes q = Some u -> int64_range (Usage m u + len)) ->
    step m (transferPacket c len wrapped now m).1
| step_close c : step m (Close c m)
| step_apply user now m' e : ApplyConfig user now m = Ret (m', e) -> step m m'
| step_remove u : step m (RemoveConfig u m).1
| step_restore r : restorable m r -> step m (RestoreState r m).1
| step_load u bytes now m' : LoadUsage u bytes now m = Ret m' -> step m m'
| step_key u now m' k : CurrentPeriodKey u now m = Ret (k, m') -> step m m'
| step_reset now users m' rs : names_order m users -> CheckPeriodReset now users m = Ret (m', rs) -> step m m'
| step_consume : step m (ConsumePendingDeltas m).1
| step_unconsume u k d : step m (RestorePendingDelta u k d m)
| step_clear u : step m (ClearPendingDelta u m).

Inductive reachable : QuotaManager -> Prop :=
| reachable_new groups users m : NewQuotaManager groups users = Ret (Ok m) -> reachable m
| reachable_step m m' : reachable m -> step m m' -> reachable m'.

Lemma transfer_inv c wrapped now m : mgr_inv m ->
  (forall q u, tracked m !! c = Some q -> qn_onBytes q = Some u -> int64_range (Usage m u + wrapped.1)) ->
  mgr_inv (transfer c wrapped now m).1.
Proof.
  intros I Hr. unfold transfer. destruct (tracked m !! c) as [q|]; [|done].
  destruct (qn_closed q); [done|]. destruct wrapped as [n err].
  destruct (qn_onBytes q) as [u|] eqn:Eb; [|done]. destruct (0 <? n); [|done].
  apply AddBytes_inv; [done|]. by eapply Hr.
Qed.

Lemma transferPacket_inv c len wrapped now m : mgr_inv m ->
  (forall q u, tracked m !! c = Some q -> qn_onBytes q = Some u -> int64_range (Usage m u + len)) ->
  mgr_inv (transferPacket c len wrapped now m).1.
Proof.
  intros I Hr. unfold transferPacket. destruct (tracked m !! c) as [q|]; [|done].
  destruct (qn_closed q); [done|]. destruct wrapped; [done|].
  destruct (qn_onBytes q) as [u|] eqn:Eb; [|done]. destruct (0 <? len); [|done].
  apply AddBytes_inv; [done|]. by eapply Hr.
Qed.

Lemma step_inv m m' : mgr_inv m -> step m m' -> mgr_inv m'.
Proof.
  intros I H. destruct H.
  - destruct (RoutedConnection_cases u now m I) as (m1 & r1 & E & I1 & _). congruence.
  - by apply transfer_inv.
  - by apply transferPacket_inv.
  - by apply Close_inv.
  - by eapply ApplyConfig_inv.
  - by apply RemoveConfig_inv.
  - by apply RestoreState_inv.
  - by eapply LoadUsage_inv.
  - by eapply CurrentPeriodKey_inv.
  - by eapply CheckPeriodReset_inv.
  - by apply ConsumePendingDeltas_inv.
  - by apply RestorePendingDelta_inv.
  - by apply ClearPendingDelta_inv.
Qed.

Lemma reachable_inv m : reachable m -> mgr_inv m.
Proof. induction 1; [by eapply NewQuotaManager_inv|by eapply step_inv]. Qed.
End Inv.

#[export] Hint Resolve reachable_inv step_inv : sb.
