(* ===== verification/QuotaProps.v ===== *)
(** * Properties of the traffic quota manager

    The theorems on the configuration, the connection list and the manager, each with a
    witness on a concrete run. *)

From S2P Require Import Prelude GoStrings GoTime QuotaConfig ConnList QuotaManager QuotaInv.

Local Open Scope string_scope.
Local Open Scope list_scope.
Local Open Scope Z_scope.

(** ** A concrete run, for the witnesses *)

Module Demo.
#[global] Existing Instance text_exceptions.

(** The runtime's growth policy for small slices. *)
Definition grow (cap need : nat) : nat := Nat.max (2 * cap) need.

(** 2024-01-01 00:00:00 UTC, a Monday, in nanoseconds. *)
Definition t0 : Z := 1704067200 * second.

(** One user with a daily quota of one GiB. *)
Definition alice : TrafficQuotaUser := mkTrafficQuotaUser "alice" "" (F64 1 0) "daily" "" 0.
Definition alice_config : QuotaConfig := mkQuotaConfig (2 ^ 30) "daily" zero_time 0.

Definition m0 : QuotaManager := emptyManager {["alice" := alice_config]}.
(** A tracked connection. *)
Definition m1 : QuotaManager :=
  match RoutedConnection grow "alice" t0 m0 with Ret (m, _) => m | Panic => m0 end.
(** It transfers two GiB. *)
Definition m2 : QuotaManager := (transfer 0%nat (2 ^ 31, None) t0 m1).1.

Lemma reach0 : reachable grow m0.
Proof. apply (reachable_new grow [] [alice]). vm_compute. reflexivity. Qed.

Lemma reach1 : reachable grow m1.
Proof.
  eapply reachable_step; [apply reach0|]. eapply (step_routed _ _ "alice" t0 _ (Some 0%nat)).
  vm_compute. reflexivity.
Qed.

Lemma reach2 : reachable grow m2.
Proof.
  eapply reachable_step; [apply reach1|]. apply (step_transfer _ _ 0%nat (2 ^ 31, None) t0).
  intros q u Hq Hu. vm_compute in Hq. injection Hq as <-. injection Hu as <-. by vm_compute.
Qed.
End Demo.

Section QuotaProps.
Context `{EX : Exceptions}.
Context (growslice : nat -> nat -> nat).

(** ** Enforcement *)

(** C1: in every reachable state, a connection that counts for a user whose usage is
    over the quota, and that its owner has not closed, moves no more bytes: reads and
    writes return the quota error and a count of zero, packet reads and writes return
    the error, the wrapped connection is not consulted and nothing is counted. *)
Theorem quota_enforced m c q u cfg :
  reachable growslice m -> userConfigs m !! u = Some cfg -> qc_quotaBytes cfg < Usage m u ->
  tracked m !! c = Some q -> qn_onBytes q = Some u -> qn_closeOnce q = false ->
  (forall wrapped now, transfer c wrapped now m = (m, (0, Some ErrQuotaExceeded))) /\
  (forall len wrapped now, transferPacket c len wrapped now m = (m, Some ErrQuotaExceeded)).
Proof.
  intros R Hcfg Hq Hc Hb Ho. pose proof (reachable_inv _ _ R) as I.
  assert (qn_closed q = true) as Hcl.
  { destruct (qn_closed q) eqn:E; [done|]. destruct (inv_tracked m I c q u Hc Hb E Ho) as [Hin _].
    unfold Usage in Hq. destruct (states m !! u) as [s|] eqn:Es.
    - rewrite <-E. apply (inv_closed m I u s c q Es); [|done|done]. by apply (inv_flag m I u cfg s).
    - pose proof (inv_config m I u cfg Hcfg) as [? _]. lia. }
  unfold transfer, transferPacket. rewrite Hc, Hcl. done.
Qed.

(** The status reported for a user says that the quota is exceeded exactly when the
    reported usage is greater than the reported quota, which is positive. *)
Theorem status_exceeded m u st :
  reachable growslice m -> StatusOf m u = Some st ->
  0 < st_QuotaBytes st /\ (st_Exceeded st = true <-> st_QuotaBytes st < st_UsageBytes st).
Proof.
  intros R H. pose proof (reachable_inv _ _ R) as I. unfold StatusOf, loadConfig in H.
  destruct (userConfigs m !! u) as [c|] eqn:Hc; [|done].
  pose proof (inv_config m I u c Hc) as [Hp _].
  destruct (states m !! u) as [s|] eqn:Hs; injection H as <-; cbn; (split; [done|]).
  - by apply (inv_flag m I u).
  - split; [done|lia].
Qed.

(** No method of the manager panics in a reachable state: the period key that
    [mustPeriodKey] asks for exists for every configured user. *)
Theorem manager_never_panics m :
  reachable growslice m ->
  (forall user now, returns (ApplyConfig user now m)) /\
  (forall u bytes now, returns (LoadUsage u bytes now m)) /\
  (forall u now, returns (RoutedConnection growslice u now m)) /\
  (forall u now, is_Some (userConfigs m !! u) -> returns (CurrentPeriodKey u now m)) /\
  (forall now users, names_order m users -> returns (CheckPeriodReset now users m)).
Proof.
  intros R. pose proof (reachable_inv _ _ R) as I. split_and!.
  - intros user now. unfold ApplyConfig. destruct (decide _) as [|Hn]; [by eexists|].
    destruct (newQuotaConfig _ _ _ _ _) as [[c|]|] eqn:E; [|by eexists..].
    eexists. pose proof (ApplyConfig_eq user now m c Hn E) as H. unfold ApplyConfig in H.
    rewrite decide_False, E in H by done. exact H.
  - intros u bytes now. destruct (userConfigs m !! u) as [c|] eqn:Hc.
    + eexists. apply (LoadUsage_eq u bytes now m c Hc). by apply (inv_config m I u).
    + unfold LoadUsage, loadConfig. rewrite Hc. by eexists.
  - intros u now. destruct (RoutedConnection_cases growslice u now m I) as (m' & r & -> & _). by eexists.
  - intros u now [c Hc]. eexists. apply (CurrentPeriodKey_eq u now m c Hc). by apply (inv_config m I u).
  - intros now users _. apply (CheckPeriodReset_returns now users m I).
Qed.

(** ** Accounting *)

(** The ledger the manager implements: per configured user, the quota, the bytes of the
    period, the bytes not yet persisted and the period they belong to. *)
Record Account := mkAccount { ac_quota : Z; ac_usage : Z; ac_pending : Z; ac_period : string }.

Definition account (m : QuotaManager) (u : string) : option Account :=
  c ← userConfigs m !! u;
  let s := state_of m u in
  Some (mkAccount (qc_quotaBytes c) (us_usage s) (us_pendingDelta s) (us_periodKey s)).

Lemma account_settle m u c s v :
  userConfigs m !! u = Some c ->
  account (settle u c s m) v =
  if decide (u = v) then Some (mkAccount (qc_quotaBytes c) (us_usage s) (us_pendingDelta s) (us_periodKey s))
  else account m v.
Proof.
  intros Hc. unfold account, settle, state_of.
  destruct (qc_quotaBytes c <? us_usage s); cbn; destruct (decide (u = v)) as [<-|Hv];
    rewrite ?Hc, ?lookup_insert_eq, ?lookup_insert_ne by done; done.
Qed.

(** C3: [AddBytes] implements the ledger: it credits the bytes to the usage and to the
    unpersisted bytes of the user, in the current period if the account had none, and
    leaves every other account alone; the user is indexed for the next flush, the
    exceeded flag is the comparison with the quota, and exactly the listed connections
    of a user that goes over are closed. *)
Theorem AddBytes_refines m u cfg n now :
  reachable growslice m -> userConfigs m !! u = Some cfg -> 0 < n ->
  int64_range (Usage m u + n) -> int64_range (us_pendingDelta (state_of m u) + n) ->
  let m' := AddBytes u n now m in
  let over := qc_quotaBytes cfg <? Usage m u + n in
  account m' u = Some (mkAccount (qc_quotaBytes cfg) (Usage m u + n) (us_pendingDelta (state_of m u) + n)
                         (key_at cfg now (state_of m u))) /\
  (forall v, v <> u -> account m' v = account m v) /\
  u ∈ dirtyQueue m' /\
  IsExceeded m' u = over /\
  (forall x, tracked m' !! x =
     (fun q => if over && bool_decide (x ∈ active_list m u) then close_conn q else q) <$> tracked m !! x).
Proof.
  intros R Hc Hn Hr1 Hr2. pose proof (reachable_inv _ _ R) as I.
  pose proof (markDirty_fields u m) as (F1 & F2 & F3 & F4 & F5).
  cbv zeta. rewrite (AddBytes_settle u n now m cfg) by done. rewrite Usage_state_of in *.
  assert (added cfg n now (state_of m u) = mkUserState (us_usage (state_of m u) + n)
    (us_pendingDelta (state_of m u) + n) (us_exceeded (state_of m u)) (key_at cfg now (state_of m u))) as ->.
  { unfold added. by rewrite !wrap64_id by done. }
  assert (forall v, state_of (markDirty u m) v = state_of m v) as Hso by (intros v; unfold state_of; by rewrite F2).
  split_and!.
  - by rewrite account_settle, decide_True by (done || by rewrite F1).
  - intros v Hne. rewrite account_settle, decide_False by (done || by rewrite F1).
    unfold account. by rewrite F1, Hso.
  - unfold settle. destruct (_ <? _); cbn; by apply markDirty_in.
  - unfold IsExceeded, settle. cbn [us_usage]. destruct (qc_quotaBytes cfg <? _); cbn; by rewrite lookup_insert_eq.
  - intros x. rewrite tracked_settle by (by apply markDirty_inv || by rewrite Hso).
    unfold active_list. by rewrite F3, F4, F5.
Qed.

(** A drain reports, once each, exactly the users with unpersisted bytes, with the
    amount and the period it belongs to, and leaves every user with none, its usage,
    flag and period unchanged and the dirty index empty: no byte is lost or reported
    twice. *)
Theorem ConsumePendingDeltas_exact m :
  reachable growslice m ->
  let m' := (ConsumePendingDeltas m).1 in
  let pending := (ConsumePendingDeltas m).2 in
  NoDup (map pd_User pending) /\
  (forall u k d, mkPendingDelta u k d ∈ pending <->
     d <> 0 /\ exists s, states m !! u = Some s /\ us_periodKey s = k /\ us_pendingDelta s = d) /\
  (forall u, states m' !! u = set_pendingDelta 0 <$> states m !! u) /\
  dirtyQueue m' = [] /\ dirtySet m' = ∅.
Proof.
  intros R. pose proof (reachable_inv _ _ R) as I. cbv zeta. rewrite ConsumePendingDeltas_eq by done. cbn [fst snd].
  assert (forall p, p ∈ omap (pending_of m) (dirtyQueue m) <-> pending_of m (pd_User p) = Some p /\ pd_User p ∈ dirtyQueue m) as Hin.
  { intros p. rewrite list_elem_of_omap. split.
    - intros (u & Hu & Hp). by rewrite (pending_of_user m u p Hp).
    - intros [Hp Hu]. eauto. }
  destruct (inv_dirty m I) as [Hnd _]. split_and!; [| | |done|done].
  - by apply omap_pending_NoDup.
  - intros u k d. rewrite Hin. cbn [pd_User]. unfold pending_of. split.
    + intros [H _]. destruct (states m !! u) as [s|]; [|done].
      destruct (Z.eqb_spec (us_pendingDelta s) 0); [done|]. injection H as <- <-. eauto.
    + intros (Hd & s & Hs & <- & <-). rewrite Hs. split; [|by apply (inv_pending m I u s)].
      by rewrite (proj2 (Z.eqb_neq _ _)).
  - by apply drained_states.
Qed.

(** ** Periods *)

(** A check at an instant moves every user with a state into the period of that
    instant: a state of an earlier period loses its usage, its unpersisted bytes and
    its flag and is reported with its old and new key, a state of the same period is
    untouched, a state without a period gets the key; nothing else changes. *)
Theorem CheckPeriodReset_spec m now users :
  reachable growslice m -> names_order m users ->
  exists m' resets, CheckPeriodReset now users m = Ret (m', resets) /\
  m' = set_states (fun _ => states m') m /\
  (forall u c s, userConfigs m !! u = Some c -> states m !! u = Some s ->
    exists k, periodKey c now = Ok k /\
      states m' !! u = Some (if decide (us_periodKey s = "") then setPeriodKey k s
                             else if decide (k = us_periodKey s) then s else mkUserState 0 0 false k) /\
      (mkPeriodReset u (us_periodKey s) k ∈ resets <-> us_periodKey s <> "" /\ us_periodKey s <> k)) /\
  (forall r, r ∈ resets -> is_Some (states m !! pr_User r)).
Proof.
  intros R [Hnd Hnames]. pose proof (reachable_inv _ _ R) as I.
  destruct (reset_fold now users m [] I Hnd) as (st & E & Hst).
  exists (set_states (fun _ => st) m), (omap (reset_of now m) users). split_and!; [done|done| |].
  - intros u c s Hc Hs. destruct (inv_config m I u c Hc) as [_ Hv].
    destruct (periodKey_valid c now Hv) as [k Hk]. exists k.
    assert (u ∈ users) as Hu by (apply Hnames; by eexists). split_and!; [done| |].
    + cbn. rewrite Hst, decide_True, Hs, Hc by done. cbn. unfold reset_state. by rewrite Hk.
    + rewrite list_elem_of_omap. unfold reset_of. split.
      * intros (v & _ & H). destruct (states m !! v) as [s'|] eqn:Es; [|done]. cbn in H.
        destruct (userConfigs m !! v) as [c'|] eqn:Ec; [|done]. cbn in H.
        destruct (periodKey c' now); [|done]. destruct (decide _) as [|Hn]; [done|].
        injection H as -> Hkk ->. rewrite Hkk in Hn. split; intros ?; apply Hn; auto.
      * intros [Hn1 Hn2]. exists u. split; [done|]. rewrite Hs. cbn. rewrite Hc. cbn. rewrite Hk.
        rewrite decide_False; [done|]. intros [?|?]; [done|congruence].
  - intros r Hr. apply list_elem_of_omap in Hr as (v & _ & H). unfold reset_of in H.
    destruct (states m !! v) as [s|] eqn:Es; [|done]. cbn in H.
    destruct (userConfigs m !! v) as [c|]; [|done]. cbn in H. destruct (periodKey c now); [|done].
    destruct (decide _); [done|]. injection H as <-. cbn. rewrite Es. by eexists.
Qed.

(** Two instants have the same period key exactly when they lie in the same period
    of the configuration: the same day, the same week from Monday, the same month, or
    the same run of [periodDays] days from the start of a custom period. *)
Theorem periodKey_same_period c t u :
  config_valid c -> date4 t -> date4 u -> date4 (qc_periodStart c) ->
  in_duration c t -> in_duration c u ->
  periodKey c t = periodKey c u <-> period_index c t = period_index c u.
Proof. intros [_ Hv]. by apply periodKey_index. Qed.

(** ** Configuration changes *)

(** Removing a user leaves nothing of it in the maps, closes every connection that
    still counted for it, empties the list those connections were in, and touches no
    other user: configuration, state, list and connections stay. *)
Theorem RemoveConfig_spec m u :
  reachable growslice m -> u <> "" ->
  let m' := (RemoveConfig u m).1 in
  (RemoveConfig u m).2 = None /\
  userConfigs m' !! u = None /\ states m' !! u = None /\ activeConns m' !! u = None /\
  (forall l, activeConns m !! u = Some l -> lists m' !! l = Some emptyConnList) /\
  (forall x q, tracked m' !! x = Some q -> qn_onBytes q = Some u -> qn_closeOnce q = false -> qn_closed q = true) /\
  (forall v, v <> u -> userConfigs m' !! v = userConfigs m !! v /\ states m' !! v = states m !! v /\
     activeConns m' !! v = activeConns m !! v /\ active_list m' v = active_list m v) /\
  (forall x, x ∉ active_list m u -> tracked m' !! x = tracked m !! x).
Proof.
  intros R Hu. pose proof (reachable_inv _ _ R) as I. pose proof (fun v => RemoveConfig_active_list u v m I) as HA.
  pose proof (RemoveConfig_inv u m I) as I'. cbv zeta. rewrite RemoveConfig_eq in * by done. cbn [fst snd] in *.
  split_and!; [done|cbn; by rewrite lookup_delete_eq..| | | |].
  - intros l Hl. cbn. rewrite Hl. cbn. by rewrite lookup_insert_eq.
  - intros x q Hq Hb Ho. destruct (qn_closed q) eqn:E; [done|].
    destruct (inv_tracked _ I' x q u Hq Hb E Ho) as [Hin _].
    unfold active_list in Hin. cbn in Hin. rewrite lookup_delete_eq in Hin. by apply elem_of_nil in Hin.
  - intros v Hv. split_and!; [cbn; by rewrite lookup_delete_ne..|by apply HA].
  - intros x Hx. cbn. rewrite close_all_lookup. destruct (tracked m !! x); [|done]. cbn. by rewrite decide_False.
Qed.

(** Applying a configuration to a user stores it, keeps the usage and the unpersisted
    bytes, and re-decides the flag against the new quota: connections are closed when
    the usage is over it, and a user brought back under it may transfer again.  A
    rejected configuration changes nothing. *)
Theorem ApplyConfig_spec m user now :
  reachable growslice m ->
  exists m' err, ApplyConfig user now m = Ret (m', err) /\
  match newQuotaConfig (tqu_QuotaGB user) (tqu_Period user) (tqu_PeriodStart user) (tqu_PeriodDays user) None with
  | Ok (Some c) =>
      if decide (tqu_Name user = "") then m' = m /\ is_Some err
      else
        let u := tqu_Name user in
        let over := qc_quotaBytes c <? Usage m u in
        err = None /\ userConfigs m' = <[u := c]> (userConfigs m) /\
        states m' = <[u := set_exceeded over (keyed c now (state_of m u))]> (states m) /\
        activeConns m' = activeConns m /\ lists m' = lists m /\
        (forall x, tracked m' !! x =
           (fun q => if over && bool_decide (x ∈ active_list m u) then close_conn q else q) <$> tracked m !! x)
  | _ => m' = m /\ is_Some err
  end.
Proof.
  intros R. pose proof (reachable_inv _ _ R) as I.
  destruct (newQuotaConfig _ _ _ _ _) as [[c|]|] eqn:E.
  2,3: unfold ApplyConfig; rewrite E; destruct (decide _); eauto 10.
  destruct (decide (tqu_Name user = "")) as [Hn|Hn].
  { unfold ApplyConfig. rewrite decide_True by done. eauto 10. }
  rewrite (ApplyConfig_eq user now m c Hn E). set (u := tqu_Name user). do 2 eexists. split; [done|].
  cbv zeta. rewrite Usage_state_of. split; [done|]. unfold settle. cbn [us_usage keyed setPeriodKey].
  pose proof (fun x => tracked_settle m u c (keyed c now (state_of m u)) x I (fun H => H)) as Ht.
  unfold settle in Ht. cbn [us_usage keyed setPeriodKey] in Ht.
  destruct (qc_quotaBytes c <? us_usage (state_of m u)); cbn; split_and!; try done.
Qed.

(** Routing a connection of a user without a quota returns it as it is; of a user
    over quota, a wrapper that is closed from the start; of any other user, an open
    wrapper that is in the user's list and counts its bytes for the user. *)
Theorem RoutedConnection_spec m u now :
  reachable growslice m ->
  exists m' r, RoutedConnection growslice u now m = Ret (m', r) /\
  (r = None <-> u = "" \/ userConfigs m !! u = None) /\
  (r = None -> m' = m) /\
  (forall c, r = Some c -> tracked m !! c = None /\ exists q, tracked m' = <[c := q]> (tracked m) /\
     qn_closeOnce q = false /\
     if IsExceeded m u then qn_closed q = true
     else qn_closed q = false /\ qn_onBytes q = Some u /\ qn_onClose q = activeConns m' !! u /\
          active_list m' u = active_list m u ++ [c]).
Proof.
  intros R. pose proof (reachable_inv _ _ R) as I.
  destruct (RoutedConnection_cases growslice u now m I) as (m' & r & E & _ & H). exists m', r. split; [done|].
  destruct H as [(Hu & -> & ->)|(c & -> & Hc & Hu & [cfg Hcfg] & H)]; [by split_and!|]. split_and!.
  - split; [done|]. intros [?|?]; congruence.
  - done.
  - intros c' [= <-]. split; [done|]. destruct (IsExceeded m u).
    + destruct H as [Ht _]. eexists. split; [done|]. done.
    + destruct H as (l & Ht & Hl & Hal & _). eexists. split; [done|]. cbn. by rewrite Hl.
Qed.

(** A configuration whose option form is exact: the quota is an integer a double holds,
    the start a date of four digits, with no zero instant below the first second. *)
Definition exact_config (c : QuotaConfig) : Prop :=
  qc_quotaBytes c < 2 ^ 53 /\ date4 (qc_periodStart c) /\
  (qc_periodStart c = zero_time \/ zero_time + second <= qc_periodStart c).

(** The rollback of a deletion: restoring, after the removal of a user, the snapshot
    taken before it succeeds and gives a reachable state with the user's status, usage,
    unpersisted bytes, period and current period key back, the list linked again, and
    every other user as it was. *)
Theorem snapshot_remove_restore m u cfg r :
  reachable growslice m -> u <> "" -> userConfigs m !! u = Some cfg -> exact_config cfg ->
  SnapshotState m u = Some r ->
  let m1 := (RemoveConfig u m).1 in
  let m2 := (RestoreState r m1).1 in
  (RestoreState r m1).2 = None /\ reachable growslice m2 /\
  StatusOf m2 u = StatusOf m u /\ states m2 !! u = Some (state_of m u) /\
  (forall now, GetCurrentPeriodKey m2 u now = GetCurrentPeriodKey m u now) /\
  activeConns m2 !! u = activeConns m !! u /\
  (forall v, v <> u -> userConfigs m2 !! v = userConfigs m !! v /\ states m2 !! v = states m !! v /\
     activeConns m2 !! v = activeConns m !! v).
Proof.
  intros R Hu Hc (Hlt & Hd & Hz) Hs. pose proof (reachable_inv _ _ R) as I.
  pose proof (inv_config m I u cfg Hc) as Hv.
  pose proof (newQuotaConfig_option u cfg Hv Hlt Hd Hz) as Hopt. cbv zeta in Hopt.
  unfold SnapshotState, loadConfig in Hs. rewrite Hc in Hs. injection Hs as <-.
  fold (state_of m u). set (s := state_of m u). set (m1 := (RemoveConfig u m).1).
  set (r := mkRuntimeState _ _ _ _ _ _).
  assert (restorable m1 r) as Hr.
  { unfold restorable, m1. rewrite RemoveConfig_eq by done. cbn [r rs_User]. cbn [quotaConfigToOption tqu_Name].
    split_and!; cbn [fst].
    - cbn. by rewrite lookup_delete_eq.
    - intros c. rewrite Hopt. intros [= <-]. by apply (flag_state_of m u cfg).
    - by apply (state_pending m u).
    - cbn. intros l Hl. rewrite Hl. cbn. rewrite lookup_insert_eq. split; [done|].
      intros v Hlv. apply lookup_delete_Some in Hlv as [Hne Hlv]. by apply Hne, (inv_unshared m I u v l). }
  assert (RestoreState r m1 =
    (set_activeConns (match activeConns m !! u with Some l => <[u := l]> | None => delete u end)
      (put_state u (mkUserState (us_usage s) (us_pendingDelta s) (us_exceeded s) (us_periodKey s))
        (storeConfig u (truncated cfg) m1)), None)) as E.
  { unfold RestoreState. cbn [r rs_User rs_UsageBytes rs_PendingDelta rs_Exceeded rs_PeriodKey rs_activeConns].
    rewrite Hopt. cbn [quotaConfigToOption tqu_Name]. by destruct (activeConns m !! u). }
  assert (reachable growslice (RestoreState r m1).1) as R2.
  { eapply reachable_step; [eapply reachable_step; [done|by apply step_remove]|by apply step_restore]. }
  assert (mkUserState (us_usage s) (us_pendingDelta s) (us_exceeded s) (us_periodKey s) = s) as Es by by destruct s.
  cbv zeta. rewrite E in *. cbn [fst snd] in *. rewrite Es in *. split_and!; [done|done| | | | |].
  - unfold StatusOf, loadConfig. cbn. rewrite !lookup_insert_eq, Hc. cbn. unfold s, state_of.
    by destruct (states m !! u).
  - cbn. by rewrite lookup_insert_eq.
  - intros now. unfold GetCurrentPeriodKey, loadConfig. cbn. rewrite lookup_insert_eq, Hc. by apply truncated_key.
  - cbn. unfold m1. rewrite RemoveConfig_eq by done. cbn.
    destruct (activeConns m !! u); [by rewrite lookup_insert_eq|by rewrite lookup_delete_eq].
  - intros v Hne. unfold m1. rewrite RemoveConfig_eq by done. cbn.
    rewrite !lookup_insert_ne, !lookup_delete_ne by done. split_and!; [done|done|].
    destruct (activeConns m !! u); rewrite ?lookup_insert_ne, ?lookup_delete_ne by done; done.
Qed.

(** The option form of a configuration and its reconstruction agree: rebuilding a
    valid configuration from its option form gives a valid configuration with the same
    quota, period and length, whose keys are those of the original at every instant. *)
Theorem config_option_roundtrip user c :
  config_valid c -> exact_config c ->
  let o := quotaConfigToOption user c in
  exists c', newQuotaConfig (tqu_QuotaGB o) (tqu_Period o) (tqu_PeriodStart o) (tqu_PeriodDays o) None = Ok (Some c') /\
    config_valid c' /\ qc_quotaBytes c' = qc_quotaBytes c /\ qc_period c' = qc_period c /\
    (0 <= qc_periodDays c -> qc_periodDays c' = qc_periodDays c) /\
    forall now, periodKey c' now = periodKey c now.
Proof.
  intros Hc (Hlt & Hd & Hz). exists (truncated c). split_and!; [by apply newQuotaConfig_option|by apply truncated_valid|done|done| |].
  - cbn. destruct (Z.ltb_spec 0 (qc_periodDays c)); lia.
  - intros now. by apply truncated_key.
Qed.

(** ** Construction *)

(** What [NewQuotaManager] makes of the group of a user. *)
Definition group_config (groups : list TrafficQuotaGroup) (name : string) : option (option QuotaConfig) :=
  match newGroups groups ∅ with Ok g => g !! name | Err _ => None end.

(** The fields of a configuration resolved over a base. *)
Lemma newQuotaConfig_fields q p st d base c :
  newQuotaConfig q p st d base = Ok (Some c) ->
  let b := default zeroQuotaConfig base in
  qc_quotaBytes c = (if f64_gt0 q then quotaBytes q else qc_quotaBytes b) /\
  qc_period c = (if decide (p = "") then qc_period b else p) /\
  (if decide (st = "") then qc_periodStart c = qc_periodStart b
   else parsePeriodStart st = Ok (qc_periodStart c)) /\
  qc_periodDays c = (if 0 <? d then d else qc_periodDays b).
Proof.
  unfold newQuotaConfig. set (b := default zeroQuotaConfig base). cbv zeta.
  destruct (f64_gt0 q); destruct (decide (p = "")) as [Hp|Hp];
    [rewrite (decide_False (P := p <> "")) by tauto|rewrite (decide_True (P := p <> "")) by done|
     rewrite (decide_False (P := p <> "")) by tauto|rewrite (decide_True (P := p <> "")) by done];
    (destruct (decide (st = "")) as [Hs|Hs];
      [rewrite (decide_False (P := st <> "")) by tauto
      |rewrite (decide_True (P := st <> "")) by done; destruct (parsePeriodStart st) as [t|]; [|done]]);
    (destruct (0 <? d); cbn [qc_quotaBytes qc_period qc_periodStart qc_periodDays];
      (destruct (_ <=? 0); [done|]; destruct (validateQuotaConfig _); [done|]; intros [= <-]; by split_and!)).
Qed.

Lemma newUsers_origin g users acc configs u c :
  newUsers g users acc = Ret (Ok configs) -> configs !! u = Some c ->
  acc !! u = Some c \/ exists user base, user ∈ users /\ tqu_Name user = u /\ userBase g user = Ret (Ok base) /\
    newQuotaConfig (tqu_QuotaGB user) (tqu_Period user) (tqu_PeriodStart user) (tqu_PeriodDays user) base = Ok (Some c).
Proof.
  revert acc. induction users as [|user users IH]; intros acc H Hc; cbn in H; [injection H as <-; by left|].
  destruct (decide _); [done|]. destruct (userBase g user) as [[base|]|] eqn:Eb; try done.
  assert (forall acc', newUsers g users acc' = Ret (Ok configs) -> (acc' !! u = Some c -> acc !! u = Some c \/
      tqu_Name user = u /\ newQuotaConfig (tqu_QuotaGB user) (tqu_Period user) (tqu_PeriodStart user)
        (tqu_PeriodDays user) base = Ok (Some c)) ->
    acc !! u = Some c \/ exists user0 base, user0 ∈ user :: users /\ tqu_Name user0 = u /\ userBase g user0 = Ret (Ok base) /\
      newQuotaConfig (tqu_QuotaGB user0) (tqu_Period user0) (tqu_PeriodStart user0) (tqu_PeriodDays user0) base = Ok (Some c)) as Hstep.
  { intros acc' H' Ha. destruct (IH acc' H' Hc) as [Hacc|(user0 & b & Hin & ?)].
    - destruct (Ha Hacc) as [?|[Hn Hq]]; [by left|right]. exists user, base. split_and!; [set_solver|done..].
    - right. exists user0, b. split; [set_solver|done]. }
  destruct (newQuotaConfig _ _ _ _ base) as [[c'|]|] eqn:E; [|apply (Hstep acc H); tauto|done].
  apply (Hstep _ H). rewrite lookup_insert. destruct (decide _) as [Hn|]; [intros [= ->]; auto|auto].
Qed.

(** Every configuration a constructed manager starts with is valid and comes from an
    entry of the user: quota, period, start and length are the entry's where it sets
    them, and otherwise those of the entry's group, or the zero value without one. *)
Theorem NewQuotaManager_inherits groups users m u c :
  NewQuotaManager groups users = Ret (Ok m) -> userConfigs m !! u = Some c ->
  config_valid c /\
  exists user base, user ∈ users /\ tqu_Name user = u /\
    (if decide (tqu_Group user = "") then base = zeroQuotaConfig
     else group_config groups (tqu_Group user) = Some (Some base)) /\
    qc_quotaBytes c = (if f64_gt0 (tqu_QuotaGB user) then quotaBytes (tqu_QuotaGB user) else qc_quotaBytes base) /\
    qc_period c = (if decide (tqu_Period user = "") then qc_period base else tqu_Period user) /\
    (if decide (tqu_PeriodStart user = "") then qc_periodStart c = qc_periodStart base
     else parsePeriodStart (tqu_PeriodStart user) = Ok (qc_periodStart c)) /\
    qc_periodDays c = (if 0 <? tqu_PeriodDays user then tqu_PeriodDays user else qc_periodDays base).
Proof.
  unfold NewQuotaManager, group_config. destruct (newGroups groups ∅) as [g|]; [|done].
  destruct (newUsers g users ∅) as [[configs|]|] eqn:E; [|done..]. intros [= <-]. cbn. intros Hc.
  destruct (newUsers_origin g users ∅ configs u c E Hc) as [H|(user & base & Hin & Hn & Hb & Hq)].
  { by rewrite lookup_empty in H. }
  split; [by eapply newQuotaConfig_valid|]. exists user, (default zeroQuotaConfig base).
  apply newQuotaConfig_fields in Hq as (? & ? & ? & ?). split_and!; try done.
  unfold userBase in Hb. destruct (decide (tqu_Group user = "")) as [Hg|Hg].
  - rewrite (decide_False (P := tqu_Group user <> "")) in Hb by tauto. by injection Hb as <-.
  - rewrite (decide_True (P := tqu_Group user <> "")) in Hb by done.
    destruct (g !! tqu_Group user) as [[b|]|]; [|done..]. by injection Hb as <-.
Qed.

(** A user that refers to a group without a quota of its own makes the constructor
    panic, on the dereference of the group's nil configuration, even if the user sets
    a quota of its own. *)
Theorem NewQuotaManager_group_without_quota groups user rest :
  is_Ok (newGroups groups ∅) = true -> tqu_Name user <> "" -> tqu_Group user <> "" ->
  group_config groups (tqu_Group user) = Some None ->
  NewQuotaManager groups (user :: rest) = Panic.
Proof.
  intros Hok Hn Hg Hbase. unfold NewQuotaManager, group_config in *.
  destruct (newGroups groups ∅) as [g|]; [|done]. cbn [newUsers]. unfold userBase.
  by rewrite decide_False, (decide_True _ _ Hg), Hbase by done.
Qed.

(** ** The connection list *)

(** Removing a connection from a list takes one occurrence of it out and keeps the
    others, never leaves a reference to a removed connection in the backing array,
    keeps a well-formed slice, and bounds the array: at most 1024 slots, or less than
    four times and four more than the connections left; a connection that is not
    listed changes nothing. *)
Theorem connList_remove_spec l c :
  cl_wf l ->
  cl_wf (remove l c) /\
  (c ∉ conns l -> remove l c = l) /\
  (c ∈ conns l -> conns l ≡ₚ c :: conns (remove l c) /\
     (forall i x, cl_arr (remove l c) !! i = Some (Some x) -> x ∈ conns (remove l c)) /\
     (cl_cap (remove l c) <= 1024 \/ cl_cap (remove l c) < 4 * (len (remove l c) + 1))%nat).
Proof.
  intros H. split_and!; [by apply remove_wf|by apply remove_absent|]. intros Hc.
  destruct (remove_present l c H Hc) as (Hwf & Hp & Hcap). split_and!; [done| |].
  - intros i x Hi. destruct Hwf as (Hle & Hs & Hnil). destruct (decide (i < cl_len (remove l c))%nat) as [Hlt|Hge].
    + unfold conns. apply list_elem_of_omap. exists (Some x). split; [|done].
      apply list_elem_of_lookup. exists i. by rewrite lookup_take_lt.
    + assert (i < cl_cap (remove l c))%nat by (by apply lookup_lt_Some in Hi).
      rewrite Hnil in Hi by lia. done.
  - unfold connListShrinkMinCap, connListShrinkRatio, len in *. destruct Hcap as [?|Hcap]; [by left|right].
    pose proof (Nat.mul_succ_div_gt (cl_cap (remove l c)) 4). lia.
Qed.
End QuotaProps.

(** ** Witnesses *)

Section Witnesses.
Import Demo.

Lemma quota_enforced_witness :
  transfer 0%nat (100, None) t0 m2 = (m2, (0, Some ErrQuotaExceeded)).
Proof.
  destruct (quota_enforced grow m2 0%nat (mkQuotaConn true false (Some "alice") (Some 0%nat)) "alice" alice_config reach2)
    as [H _]; [vm_compute; reflexivity..|]. exact (H (100, None) t0).
Defined.

Lemma status_exceeded_witness :
  0 < 2 ^ 30 /\ (true = true <-> 2 ^ 30 < 2 ^ 31).
Proof.
  assert (StatusOf m2 "alice" = Some (mkStatus (2 ^ 31) (2 ^ 30) true)) as H by (vm_compute; reflexivity).
  exact (status_exceeded grow m2 "alice" _ reach2 H).
Defined.

Lemma manager_never_panics_witness : returns (RoutedConnection grow "alice" (t0 + day) m2).
Proof. apply (manager_never_panics grow m2 reach2). Defined.

Lemma AddBytes_refines_witness :
  IsExceeded (AddBytes "alice" (2 ^ 30 + 1) t0 m1) "alice" = true.
Proof.
  assert (int64_range (Usage m1 "alice" + (2 ^ 30 + 1))) as H1 by (vm_compute; split; discriminate).
  assert (int64_range (us_pendingDelta (state_of m1 "alice") + (2 ^ 30 + 1))) as H2 by (vm_compute; split; discriminate).
  destruct (AddBytes_refines grow m1 "alice" alice_config (2 ^ 30 + 1) t0 reach1 ltac:(vm_compute; reflexivity)
    ltac:(lia) H1 H2) as (_ & _ & _ & H & _).
  rewrite H. vm_compute. reflexivity.
Defined.

Lemma ConsumePendingDeltas_exact_witness :
  mkPendingDelta "alice" "2024-01-01" (2 ^ 31) ∈ (ConsumePendingDeltas m2).2.
Proof.
  apply (ConsumePendingDeltas_exact grow m2 reach2). split; [done|].
  eexists. split_and!; [vm_compute; reflexivity|reflexivity|reflexivity].
Defined.

Lemma names2 : names_order m2 ["alice"].
Proof.
  split; [apply NoDup_singleton|]. intros u. rewrite list_elem_of_singleton.
  change (userConfigs m2) with ({["alice" := alice_config]} : gmap string QuotaConfig). split.
  - intros ->. vm_compute. by eexists.
  - intros [c Hc]. apply lookup_singleton_Some in Hc as [<- _]. done.
Qed.

Lemma CheckPeriodReset_spec_witness :
  exists m' resets, CheckPeriodReset (t0 + day) ["alice"] m2 = Ret (m', resets) /\
    mkPeriodReset "alice" "2024-01-01" "2024-01-02" ∈ resets.
Proof.
  destruct (CheckPeriodReset_spec grow m2 (t0 + day) ["alice"] reach2 names2) as (m' & rs & E & _ & H & _).
  exists m', rs. split; [exact E|].
  destruct (H "alice" alice_config (mkUserState (2 ^ 31) (2 ^ 31) true "2024-01-01")) as (k & Hk & _ & Hr);
    [vm_compute; reflexivity..|].
  assert (k = "2024-01-02") as -> by (vm_compute in Hk; congruence). apply Hr. split; discriminate.
Defined.

Lemma periodKey_same_period_witness :
  periodKey alice_config t0 = periodKey alice_config (t0 + 3 * second) <->
  period_index alice_config t0 = period_index alice_config (t0 + 3 * second).
Proof.
  apply (periodKey_same_period alice_config); [split; reflexivity|vm_compute; split; discriminate..|
    discriminate|discriminate].
Defined.

Lemma RemoveConfig_spec_witness : tracked (RemoveConfig "alice" m1).1 !! 0%nat <> None.
Proof.
  destruct (RemoveConfig_spec grow m1 "alice" reach1 ltac:(discriminate)) as (_ & _ & _ & _ & _ & H & _).
  destruct (tracked (RemoveConfig "alice" m1).1 !! 0%nat) as [q|] eqn:E; [discriminate|].
  vm_compute in E. discriminate.
Defined.

Lemma ApplyConfig_spec_witness : exists m' err, ApplyConfig alice t0 m2 = Ret (m', err) /\ err = None.
Proof.
  destruct (ApplyConfig_spec grow m2 alice t0 reach2) as (m' & err & E & H). exists m', err. split; [exact E|].
  assert (newQuotaConfig (tqu_QuotaGB alice) (tqu_Period alice) (tqu_PeriodStart alice) (tqu_PeriodDays alice) None
    = Ok (Some alice_config)) as Hc by (vm_compute; reflexivity).
  rewrite Hc in H. rewrite decide_False in H by discriminate. apply H.
Defined.

Lemma RoutedConnection_spec_witness :
  exists m' r, RoutedConnection grow "bob" t0 m1 = Ret (m', r) /\ r = None.
Proof.
  destruct (RoutedConnection_spec grow m1 "bob" t0 reach1) as (m' & r & E & H & _).
  exists m', r. split; [exact E|]. apply H. right. vm_compute. reflexivity.
Defined.

Lemma alice_exact : exact_config alice_config.
Proof.
  unfold exact_config. split_and!; [vm_compute; reflexivity|vm_compute; split; discriminate|left; reflexivity].
Qed.

Lemma snapshot_remove_restore_witness :
  exists r, SnapshotState m2 "alice" = Some r /\ (RestoreState r (RemoveConfig "alice" m2).1).2 = None.
Proof.
  exists (mkRuntimeState (quotaConfigToOption "alice" alice_config) (2 ^ 31) (2 ^ 31) true "2024-01-01" (Some 0%nat)).
  split; [vm_compute; reflexivity|].
  destruct (snapshot_remove_restore grow m2 "alice" alice_config
    (mkRuntimeState (quotaConfigToOption "alice" alice_config) (2 ^ 31) (2 ^ 31) true "2024-01-01" (Some 0%nat)) reach2)
    as [H _]; [discriminate|vm_compute; reflexivity|apply alice_exact|vm_compute; reflexivity|exact H].
Defined.

Lemma alice_valid : config_valid alice_config.
Proof. split; reflexivity. Qed.

Lemma config_option_roundtrip_witness :
  exists c', newQuotaConfig (F64 (2 ^ 30) (-30)) "daily" "" 0 None = Ok (Some c') /\ config_valid c'.
Proof.
  destruct (config_option_roundtrip "alice" alice_config alice_valid alice_exact) as (c' & E & Hv & _).
  exists c'. split; [exact E|exact Hv].
Defined.

Lemma NewQuotaManager_inherits_witness : config_valid alice_config.
Proof. apply (NewQuotaManager_inherits [] [alice] m0 "alice"); vm_compute; reflexivity. Defined.

Lemma NewQuotaManager_group_without_quota_witness :
  NewQuotaManager [mkTrafficQuotaGroup "g" (F64 0 0) "daily" "" 0]
    [mkTrafficQuotaUser "alice" "g" (F64 1 0) "" "" 0] = Panic.
Proof.
  apply NewQuotaManager_group_without_quota; [reflexivity|discriminate|discriminate|vm_compute; reflexivity].
Defined.

Lemma connList_remove_spec_witness : cl_wf (remove (cl_of [1; 2; 3]%nat 1) 2%nat).
Proof. apply connList_remove_spec. apply cl_wf_of. Defined.
End Witnesses.
