(* ===== verification/QuotaPersist.v ===== *)
(** * Persistence of quota usage

    The [Persister] interface of [service/trafficquota/persist.go], its no-op
    implementation, and the Redis implementation of [persist_redis.go] over a client
    that is a parameter.  What the service relies on is the class of laws
    [PersisterLaws], which the Redis implementation is proved to satisfy. *)

From S2P Require Import Prelude GoStrings.

Local Open Scope string_scope.
Local Open Scope list_scope.
Local Open Scope Z_scope.

Definition loadManyBatchSize : nat := 512.

Section Persist.
Context `{EX : Exceptions}.

(** ** The interface *)

(** The operations thread the state of the backend, which also decides their failures. *)
Class Persister := {
  pstore : Type;
  p_Load : string -> string -> pstore -> pstore * result error Z;
  p_LoadMany : string -> list string -> pstore -> pstore * result error (gmap string Z);
  p_Save : string -> string -> Z -> pstore -> pstore * option error;
  p_IncrBy : string -> string -> Z -> pstore -> pstore * option error;
  p_Delete : string -> string -> pstore -> pstore * option error;
  p_Close : pstore -> option error;
}.

(** A period key as the manager makes them: without the separator of Redis keys. *)
Definition plain_key (k : string) : Prop := has_char ":"%char k = false.

(** The contract of a backend that keeps what it is given: a map from a user and a
    period to a number of bytes; reads report it and do not change it, and a write
    changes one entry.  A write that reports no error has taken effect; one that reports
    an error may have taken effect or not, since a reply can be lost after the server has
    carried the command out.  The no-op implementation below keeps nothing and is not
    such a backend. *)
Class PersisterLaws (P : Persister) := {
  stored : pstore -> string -> string -> option Z;
  Load_law u k st :
    (forall v j, stored (p_Load u k st).1 v j = stored st v j) /\
    (forall z, (p_Load u k st).2 = Ok z -> z = default 0 (stored st u k));
  LoadMany_law k us st :
    (forall v j, stored (p_LoadMany k us st).1 v j = stored st v j) /\
    (forall r, (p_LoadMany k us st).2 = Ok r -> forall u, u ∈ us -> r !! u = stored st u k);
  Save_law u k z st : plain_key k -> int64_range z ->
    exists effect : bool, ((p_Save u k z st).2 = None -> effect = true) /\
    forall v j, plain_key j -> stored (p_Save u k z st).1 v j =
      if decide (effect = true /\ v = u /\ j = k) then Some z else stored st v j;
  IncrBy_law u k d st : plain_key k ->
    exists effect : bool, ((p_IncrBy u k d st).2 = None -> effect = true) /\
    forall v j, plain_key j -> stored (p_IncrBy u k d st).1 v j =
      if decide (effect = true /\ v = u /\ j = k) then Some (default 0 (stored st u k) + d)
      else stored st v j;
  Delete_law u k st : plain_key k ->
    exists effect : bool, ((p_Delete u k st).2 = None -> effect = true) /\
    forall v j, plain_key j -> stored (p_Delete u k st).1 v j =
      if decide (effect = true /\ v = u /\ j = k) then None else stored st v j;
}.

(** ** The no-op implementation *)

Definition NoopPersister : Persister := {|
  pstore := unit;
  p_Load := fun _ _ st => (st, Ok 0);
  p_LoadMany := fun _ _ st => (st, Ok ∅);
  p_Save := fun _ _ _ st => (st, None);
  p_IncrBy := fun _ _ _ st => (st, None);
  p_Delete := fun _ _ st => (st, None);
  p_Close := fun _ => None;
|}.

(** ** Redis *)

(** A value of an [MGET] reply: nil, a string, or another Go type. *)
Inductive mgetValue := MNil | MStr (s : string) | MOther.

(** [github.com/redis/go-redis]: the commands the persister issues.  [Get] distinguishes
    [redis.Nil] from other errors. *)
Class RedisClient := {
  rstate : Type;
  r_Get : string -> rstate -> rstate * result error (option string);
  r_MGet : list string -> rstate -> rstate * result error (list mgetValue);
  r_Set : string -> Z -> rstate -> rstate * option error;
  r_IncrBy : string -> Z -> rstate -> rstate * option error;
  r_Del : string -> rstate -> rstate * option error;
  r_Scan : Z -> string -> Z -> rstate -> rstate * result error (list string * Z);
  r_Close : rstate -> option error;
}.

(** The documented effect of the commands on the keys of the database: a reply has one
    value per key, [INCRBY] counts from zero on a missing key and refuses a value that
    is not a 64-bit integer or would overflow.  A command that reports no error was
    carried out; one that reports an error (a timeout, a closed connection, a refusal)
    may have been carried out or not. *)
Class RedisLaws (R : RedisClient) := {
  rkeys : rstate -> gmap string string;
  Get_law k st : rkeys (r_Get k st).1 = rkeys st /\
    forall o, (r_Get k st).2 = Ok o -> o = rkeys st !! k;
  MGet_law ks st : rkeys (r_MGet ks st).1 = rkeys st /\
    forall vs, (r_MGet ks st).2 = Ok vs ->
      vs = map (fun k => match rkeys st !! k with Some s => MStr s | None => MNil end) ks;
  Set_law k z st : exists effect : bool, ((r_Set k z st).2 = None -> effect = true) /\
    rkeys (r_Set k z st).1 = if effect then <[k := itoa z]> (rkeys st) else rkeys st;
  IncrBy_redis k d st : exists effect : bool, ((r_IncrBy k d st).2 = None -> effect = true) /\
    if effect then exists v, default (Some 0) (atoi <$> rkeys st !! k) = Some v /\ int64_range (v + d) /\
        rkeys (r_IncrBy k d st).1 = <[k := itoa (v + d)]> (rkeys st)
    else rkeys (r_IncrBy k d st).1 = rkeys st;
  Del_law k st : exists effect : bool, ((r_Del k st).2 = None -> effect = true) /\
    rkeys (r_Del k st).1 = if effect then delete k (rkeys st) else rkeys st;
}.

Definition normalizeRedisPrefix (prefix : string) : string :=
  if decide (prefix = "") then "traffic-quota" else trim_suffix prefix ":".

Section Redis.
Context (R : RedisClient) (keyPrefix : string).

Definition key (user periodKey : string) : string := keyPrefix +:+ ":" +:+ user +:+ ":" +:+ periodKey.

Definition userFromKey (key periodKey : string) : string :=
  let trimmed := trim_prefix key (keyPrefix +:+ ":") in
  trim_suffix trimmed (":" +:+ periodKey).

Definition redis_Load (user periodKey : string) (st : rstate) : rstate * result error Z :=
  match r_Get (key user periodKey) st with
  | (st, Ok None) => (st, Ok 0)
  | (st, Err err) => (st, Err (E_Cause err ["redis GET "; key user periodKey]))
  | (st, Ok (Some value)) =>
      match atoi value with
      | None => (st, Err (E_Cause (Errorf "strconv.ParseInt") ["parse redis quota value"]))
      | Some parsed => (st, Ok parsed)
      end
  end.

(** The loop over the keys of a scanned page. *)
Fixpoint loadPage (periodKey : string) (keys : list string) (acc : gmap string Z) (st : rstate)
    : rstate * result error (gmap string Z) :=
  match keys with
  | [] => (st, Ok acc)
  | k :: keys =>
      match r_Get k st with
      | (st, Ok None) => loadPage periodKey keys acc st
      | (st, Err err) => (st, Err (E_Cause err ["redis GET "; k]))
      | (st, Ok (Some value)) =>
          match atoi value with
          | None => (st, Err (E_Cause (Errorf "strconv.ParseInt") ["parse redis quota value"]))
          | Some parsed => loadPage periodKey keys (<[userFromKey k periodKey := parsed]> acc) st
          end
      end
  end.

(** The cursor loop ends when the server returns the cursor zero; [None] is a loop that
    is still going after [fuel] pages. *)
Fixpoint redis_LoadAll (fuel : nat) (periodKey : string) (cursor : Z) (acc : gmap string Z) (st : rstate)
    : rstate * option (result error (gmap string Z)) :=
  match fuel with
  | O => (st, None)
  | S fuel =>
      let pattern := keyPrefix +:+ ":*:" +:+ periodKey in
      match r_Scan cursor pattern 100 st with
      | (st, Err err) => (st, Some (Err (E_Cause err ["redis SCAN "; pattern])))
      | (st, Ok (keys, nextCursor)) =>
          match loadPage periodKey keys acc st with
          | (st, Err err) => (st, Some (Err err))
          | (st, Ok acc) =>
              if nextCursor =? 0 then (st, Some (Ok acc)) else redis_LoadAll fuel periodKey nextCursor acc st
          end
      end
  end.

(** The loop over the values of a batch. *)
Fixpoint readBatch (batch : list string) (values : list mgetValue) (acc : gmap string Z)
    : result error (gmap string Z) :=
  match batch, values with
  | user :: batch, MNil :: values => readBatch batch values acc
  | user :: batch, MOther :: values => Err (E_New ["unexpected redis MGET value type for "; user])
  | user :: batch, MStr str :: values =>
      match atoi str with
      | None => Err (E_Cause (Errorf "strconv.ParseInt") ["parse redis quota value for "; user])
      | Some parsed => readBatch batch values (<[user := parsed]> acc)
      end
  | _, _ => Ok acc
  end.

(** The batch loop; every round takes a user off the list, so its length is enough fuel. *)
Fixpoint loadBatches (fuel : nat) (periodKey : string) (users : list string) (acc : gmap string Z) (st : rstate)
    : rstate * result error (gmap string Z) :=
  match fuel, users with
  | S fuel, _ :: _ =>
      let batch := take loadManyBatchSize users in
      match r_MGet (map (fun user => key user periodKey) batch) st with
      | (st, Err err) => (st, Err (E_Cause err ["redis MGET traffic quota batch"]))
      | (st, Ok values) =>
          match readBatch batch values acc with
          | Err err => (st, Err err)
          | Ok acc => loadBatches fuel periodKey (drop loadManyBatchSize users) acc st
          end
      end
  | _, _ => (st, Ok acc)
  end.

Definition redis_LoadMany (periodKey : string) (users : list string) (st : rstate)
    : rstate * result error (gmap string Z) := loadBatches (length users) periodKey users ∅ st.

Definition RedisPersister : Persister := {|
  pstore := rstate;
  p_Load := redis_Load;
  p_LoadMany := redis_LoadMany;
  p_Save := fun user periodKey bytes => r_Set (key user periodKey) bytes;
  p_IncrBy := fun user periodKey delta => r_IncrBy (key user periodKey) delta;
  p_Delete := fun user periodKey => r_Del (key user periodKey);
  p_Close := r_Close;
|}.

(** ** The keys determine user and period *)

Lemma key_inj u k v j : plain_key k -> plain_key j -> key u k = key v j -> u = v /\ k = j.
Proof.
  unfold key. intros Hk Hj H. apply str_app_inj_l in H. autorewrite with sb_str in H. injection H as H.
  by apply (last_sep_inj ":"%char).
Qed.

Lemma userFromKey_key u k : userFromKey (key u k) k = u.
Proof.
  unfold userFromKey, key.
  assert (keyPrefix +:+ ":" +:+ u +:+ ":" +:+ k = (keyPrefix +:+ ":") +:+ u +:+ ":" +:+ k) as ->
    by (by rewrite str_app_assoc).
  by rewrite trim_prefix_app, trim_suffix_app.
Qed.

(** ** The contract holds *)

Context {L : RedisLaws R}.

Definition redis_stored (st : rstate) (u k : string) : option Z :=
  rkeys st !! key u k ≫= atoi.

Lemma readBatch_spec k batch acc r st :
  readBatch batch (map (fun k => match rkeys st !! k with Some s => MStr s | None => MNil end)
    (map (fun u => key u k) batch)) acc = Ok r ->
  (forall u, r !! u = if decide (u ∈ batch) then
     match redis_stored st u k with Some z => Some z | None => acc !! u end else acc !! u) /\
  (forall u, u ∈ batch -> is_Some (rkeys st !! key u k) -> is_Some (redis_stored st u k)).
Proof.
  revert acc. induction batch as [|v batch IH]; intros acc H; cbn in H.
  - injection H as <-. split; [intros u; by rewrite decide_False by set_solver|set_solver].
  - unfold redis_stored in *. destruct (rkeys st !! key v k) as [s|] eqn:Ev.
    + destruct (atoi s) as [z|] eqn:Ez; [|done]. destruct (IH _ H) as [IH1 IH2]. split.
      * intros u. rewrite IH1. destruct (decide (u = v)) as [->|Hne].
        -- rewrite (decide_True (P := v ∈ v :: batch)) by set_solver. rewrite Ev, lookup_insert_eq. cbn.
           rewrite Ez. by destruct (decide _).
        -- rewrite lookup_insert_ne by done.
           destruct (decide (u ∈ batch)); [rewrite decide_True by set_solver|rewrite decide_False by set_solver]; done.
      * intros u Hu Hs. apply elem_of_cons in Hu as [->|Hu]; [rewrite Ev; cbn; by eexists|by apply IH2].
    + destruct (IH _ H) as [IH1 IH2]. split.
      * intros u. rewrite IH1. destruct (decide (u = v)) as [->|Hne].
        -- rewrite (decide_True (P := v ∈ v :: batch)) by set_solver. rewrite Ev. cbn. by destruct (decide _).
        -- destruct (decide (u ∈ batch)); [rewrite decide_True by set_solver|rewrite decide_False by set_solver]; done.
      * intros u Hu Hs. apply elem_of_cons in Hu as [->|Hu]; [rewrite Ev in Hs; by destruct Hs|by apply IH2].
Qed.

Lemma loadBatches_spec fuel k us acc st :
  (length us <= fuel)%nat ->
  rkeys (loadBatches fuel k us acc st).1 = rkeys st /\
  (forall r, (loadBatches fuel k us acc st).2 = Ok r -> forall u, r !! u =
     if decide (u ∈ us) then match redis_stored st u k with Some z => Some z | None => acc !! u end else acc !! u).
Proof.
  revert us acc st. induction fuel as [|fuel IH]; intros us acc st Hf.
  { destruct us; [|cbn in Hf; lia]. cbn. split; [done|]. intros r [= <-] u. by rewrite decide_False by set_solver. }
  destruct us as [|u0 us0].
  { cbn. split; [done|]. intros r [= <-] u. by rewrite decide_False by set_solver. }
  set (us := u0 :: us0) in *.
  assert (loadBatches (S fuel) k us acc st =
    match r_MGet (map (fun user => key user k) (take loadManyBatchSize us)) st with
    | (st, Err err) => (st, Err (E_Cause err ["redis MGET traffic quota batch"]))
    | (st, Ok values) =>
        match readBatch (take loadManyBatchSize us) values acc with
        | Err err => (st, Err err)
        | Ok acc => loadBatches fuel k (drop loadManyBatchSize us) acc st
        end
    end) as -> by done.
  pose proof (MGet_law (map (fun user => key user k) (take loadManyBatchSize us)) st) as [Hk Hv].
  destruct (r_MGet _ st) as [st1 [values|err]]; cbn [fst snd] in Hk, Hv; [|by cbn].
  rewrite (Hv values eq_refl). destruct (readBatch _ _ acc) as [acc1|err] eqn:Eb; [|by cbn].
  apply readBatch_spec in Eb as [Hb _].
  destruct (IH (drop loadManyBatchSize us) acc1 st1) as [IH1 IH2].
  { rewrite length_drop. unfold us, loadManyBatchSize in *. cbn [length] in *. lia. }
  split; [by rewrite IH1|]. intros r Hr u. rewrite (IH2 r Hr u), Hb.
  assert (redis_stored st1 u k = redis_stored st u k) as -> by (unfold redis_stored; by rewrite Hk).
  assert (u ∈ us <-> u ∈ take loadManyBatchSize us \/ u ∈ drop loadManyBatchSize us) as Hin
    by (rewrite <-elem_of_app, take_drop; done).
  destruct (decide (u ∈ drop loadManyBatchSize us)); destruct (decide (u ∈ take loadManyBatchSize us));
    destruct (decide (u ∈ us)) as [|Hn]; try tauto; by destruct (redis_stored st u k).
Qed.

#[export] Instance RedisPersister_laws : PersisterLaws RedisPersister.
Proof.
  refine {| stored := (redis_stored : @pstore RedisPersister -> _) |}.
  - intros u k st. cbn. unfold redis_Load, redis_stored. pose proof (Get_law (key u k) st) as [Hk Hv].
    destruct (r_Get (key u k) st) as [st1 [[s|]|err]]; cbn [fst snd] in *.
    + specialize (Hv _ eq_refl). rewrite <-Hv. cbn. destruct (atoi s) as [n|]; cbn; rewrite Hk; (split; [done|]); [by intros z [= <-]|done].
    + specialize (Hv _ eq_refl). rewrite <-Hv. cbn. rewrite Hk. split; [done|]. by intros z [= <-].
    + rewrite Hk. split; [done|]. done.
  - intros k us st. cbn. unfold redis_LoadMany.
    destruct (loadBatches_spec (length us) k us ∅ st (le_n _)) as [Hk Hr]. split.
    + intros v j. unfold redis_stored. by rewrite Hk.
    + intros r Hrr u Hu. rewrite (Hr r Hrr u), decide_True, lookup_empty by done. by destruct (redis_stored st u k).
  - intros u k z st Hk Hz. cbn. unfold redis_stored. destruct (Set_law (key u k) z st) as (effect & He & H).
    exists effect. split; [done|]. intros v j Hj. rewrite H. destruct effect; [|by rewrite decide_False by naive_solver].
    destruct (decide (v = u /\ j = k)) as [[-> ->]|Hne].
    + rewrite decide_True, lookup_insert_eq by done. cbn. by apply atoi_itoa.
    + rewrite decide_False, lookup_insert_ne; [done| |tauto]. intros Heq. apply key_inj in Heq as [-> ->]; tauto.
  - intros u k d st Hk. cbn. unfold redis_stored. destruct (IncrBy_redis (key u k) d st) as (effect & He & H).
    exists effect. split; [done|]. intros v j Hj. destruct effect; [|by rewrite H, decide_False by naive_solver].
    destruct H as (x & Hx & Hr & ->). destruct (decide (v = u /\ j = k)) as [[-> ->]|Hne].
    + rewrite decide_True, lookup_insert_eq by done. cbn. rewrite atoi_itoa by done. f_equal. f_equal.
      destruct (rkeys st !! key u k); cbn in *; [by rewrite Hx|congruence].
    + rewrite decide_False, lookup_insert_ne; [done| |tauto]. intros Heq. apply key_inj in Heq as [-> ->]; tauto.
  - intros u k st Hk. cbn. unfold redis_stored. destruct (Del_law (key u k) st) as (effect & He & H).
    exists effect. split; [done|]. intros v j Hj. rewrite H. destruct effect; [|by rewrite decide_False by naive_solver].
    destruct (decide (v = u /\ j = k)) as [[-> ->]|Hne].
    + by rewrite decide_True, lookup_delete_eq by done.
    + rewrite decide_False, lookup_delete_ne; [done| |tauto]. intros Heq. apply key_inj in Heq as [-> ->]; tauto.
Defined.
End Redis.
End Persist.
