(* ===== verification/DynamicConfig.v ===== *)
(** * Dynamic configuration sources

    [service/dynamicconfig]: the configuration row, the receiver interface both the
    quota and the speed services implement, and how the Redis and the PostgreSQL
    sources turn messages, hash entries, notifications and rows into calls of it. *)

From S2P Require Import Prelude GoStrings.

Local Open Scope string_scope.
Local Open Scope list_scope.
Local Open Scope Z_scope.

Record ConfigRow := mkConfigRow {
  cr_User : string;
  cr_UploadMbps : Z;
  cr_DownloadMbps : Z;
  cr_PerClient : option bool;
  cr_QuotaGB : float64;
  cr_Period : string;
  cr_PeriodStart : string;
  cr_PeriodDays : Z;
  cr_Authoritative : bool;
}.

(** The JSON payload of a Redis message or hash entry. *)
Record redisMessage := mkRedisMessage {
  rm_User : string;
  rm_UploadMbps : Z;
  rm_DownloadMbps : Z;
  rm_PerClient : option bool;
  rm_QuotaGB : float64;
  rm_Period : string;
  rm_PeriodStart : string;
  rm_PeriodDays : Z;
  rm_Delete : bool;
}.

Section Dynamic.
Context `{EX : Exceptions}.

(** [Receiver]: the callbacks of a service whose state is [St]. *)
Record Receiver (St : Type) := mkReceiver {
  Apply : ConfigRow -> St -> outcome (St * option error);
  Remove : string -> St -> outcome (St * option error);
}.
Arguments Apply {_} _ _ _.
Arguments Remove {_} _ _ _.

Context {St : Type} (receiver : Receiver St).

(** ** Redis *)

(** [json.Unmarshal] into a [redisMessage]. *)
Context (Unmarshal : string -> result error redisMessage).

(** The row of a message, which is a partial update. *)
Definition messageRow (msg : redisMessage) : ConfigRow :=
  mkConfigRow (rm_User msg) (rm_UploadMbps msg) (rm_DownloadMbps msg) (rm_PerClient msg)
    (rm_QuotaGB msg) (rm_Period msg) (rm_PeriodStart msg) (rm_PeriodDays msg) false.

(** One hash entry or one published payload: errors are logged and the loop goes on. *)
Definition handlePayload (s : St) (value : string) : outcome St :=
  match Unmarshal value with
  | Err _ => Ret s
  | Ok msg =>
      if decide (rm_User msg = "") then Ret s
      else if rm_Delete msg then fst <$> Remove receiver (rm_User msg) s
      else fst <$> Apply receiver (messageRow msg) s
  end.

(** [pollHash] on the reply of [HGETALL], in the order the map is iterated. *)
Definition pollHash (reply : result error (list string)) (hashKey : string) (s : St)
    : outcome (St * option error) :=
  match reply with
  | Err err => Ret (s, Some (E_Cause err ["HGETALL "; hashKey]))
  | Ok values => (fun s => (s, None)) <$> foldM handlePayload values s
  end.

(** The messages [doSubscribe] handles until its channel is closed. *)
Definition doSubscribe (payloads : list string) (s : St) : outcome (St * error) :=
  (fun s => (s, E_New ["Redis Pub/Sub channel closed"])) <$> foldM handlePayload payloads s.

(** ** PostgreSQL *)

Definition is_ident_start (c : ascii) : bool :=
  let z := ascii_Z c in
  ((97 <=? z) && (z <=? 122)) || ((65 <=? z) && (z <=? 90)) || (z =? 95).
Definition is_ident_char (c : ascii) : bool := is_ident_start c || is_digit c.

Fixpoint str_forall (p : ascii -> bool) (s : string) : bool :=
  match s with EmptyString => true | String c s' => p c && str_forall p s' end.

(** [identifierRe], [^[a-zA-Z_][a-zA-Z0-9_]*$]. *)
Definition identifierRe (name : string) : bool :=
  match name with EmptyString => false | String c s => is_ident_start c && str_forall is_ident_char s end.

Definition validateIdentifier (name : string) : option error :=
  if identifierRe name then None else Some (E_New ["invalid identifier: "; name]).

Definition dquote : string := String (ascii_of_nat 34) "".

Fixpoint double_quotes (s : string) : string :=
  match s with
  | EmptyString => ""
  | String c s' => if Ascii.eqb c (ascii_of_nat 34) then dquote +:+ dquote +:+ double_quotes s'
                   else String c (double_quotes s')
  end.

Definition quoteIdentifier (name : string) : string := dquote +:+ double_quotes name +:+ dquote.

(** A row of the configuration table, without the user. *)
Record pgRow := mkPgRow {
  pg_UploadMbps : Z; pg_DownloadMbps : Z; pg_PerClient : option bool;
  pg_QuotaGB : float64; pg_Period : string; pg_PeriodStart : string; pg_PeriodDays : Z;
}.

Definition pgConfigRow (user : string) (r : pgRow) : ConfigRow :=
  mkConfigRow user (pg_UploadMbps r) (pg_DownloadMbps r) (pg_PerClient r)
    (pg_QuotaGB r) (pg_Period r) (pg_PeriodStart r) (pg_PeriodDays r) true.

(** The answers of the database to the two queries: the rows of [fetchAll] with the
    error the iteration ends with, and for [fetchUser] a row, no row, or an error. *)
Context (queryAll : result error (list (string * pgRow) * option error)).
Context (queryUser : string -> result error (option pgRow)).

Definition fetchAll (s : St) : outcome (St * option error) :=
  match queryAll with
  | Err err => Ret (s, Some (E_Cause err ["dynamic-config postgres fetchAll query"]))
  | Ok (rows, err) =>
      (fun s => (s, err)) <$>
      foldM (fun s '(user, r) => fst <$> Apply receiver (pgConfigRow user r) s) rows s
  end.

Definition fetchUser (user : string) (s : St) : outcome (St * option error) :=
  match queryUser user with
  | Ok None => Remove receiver user s
  | Err err => Ret (s, Some (E_Cause err ["dynamic-config postgres fetchUser "; user]))
  | Ok (Some r) => Apply receiver (pgConfigRow user r) s
  end.

(** One notification of [doListen]. *)
Definition handleNotification (s : St) (payload : string) : outcome St :=
  if String.prefix "del:" payload then
    let user := trim_prefix payload "del:" in
    if decide (user = "") then Ret s else fst <$> Remove receiver user s
  else if decide (payload = "") then fst <$> fetchAll s
  else fst <$> fetchUser payload s.

Definition doListen (payloads : list string) (s : St) : outcome St := foldM handleNotification payloads s.
End Dynamic.

(** The pause before a reconnection, in seconds: doubled while it is under a minute. *)
Definition next_backoff (backoff : Z) : Z := if backoff <? 60 then backoff * 2 else backoff.
