(* ===== verification/QuotaService.v ===== *)
(** * The traffic quota service

    [service/trafficquota/service.go]: the manager together with a persister, which is
    used through its interface.  Every method that takes [persistAccess] or [applyMu]
    is one transition. *)

From S2P Require Import Prelude GoStrings GoTime QuotaConfig ConnList QuotaManager QuotaInv QuotaPersist DynamicConfig.

Local Open Scope string_scope.
Local Open Scope list_scope.
Local Open Scope Z_scope.

Section Service.
Context `{EX : Exceptions}.
Context {P : Persister}.

(** The persister is nil until [initPersister] has run. *)
Record Service := mkService {
  sv_manager : QuotaManager;
  sv_persister : option pstore;
}.

Definition set_manager (m : QuotaManager) (s : Service) : Service := mkService m (sv_persister s).

(** The tail of [applyDynamic] and [ApplyConfig] for a user that was not configured: its
    usage is read back; an error leaves it. *)
Definition loadNewUser (user : string) (now : Z) (s : Service) : outcome Service :=
  match sv_persister s with
  | None => Ret s
  | Some st =>
      '(periodKey, m) ← CurrentPeriodKey user now (sv_manager s);
      let '(st, r) := p_Load user periodKey st in
      match r with
      | Ok bytes => m ← LoadUsage user bytes now m; Ret (mkService m (Some st))
      | Err _ => Ret (mkService m (Some st))
      end
  end.

Definition ApplyConfig (user : TrafficQuotaUser) (now : Z) (s : Service) : outcome (Service * option error) :=
  let isNew := negb (HasQuota (sv_manager s) (tqu_Name user)) in
  '(m, err) ← QuotaManager.ApplyConfig user now (sv_manager s);
  match err with
  | Some err => Ret (set_manager m s, Some err)
  | None =>
      if isNew then s ← loadNewUser (tqu_Name user) now (set_manager m s); Ret (s, None)
      else Ret (set_manager m s, None)
  end.

(** [Delete] of the record of the current period comes first; its error keeps the user. *)
Definition removeConfigLocked (user : string) (now : Z) (s : Service) : outcome (Service * option error) :=
  match sv_persister s with
  | Some st =>
      if HasQuota (sv_manager s) user then
        '(periodKey, m) ← CurrentPeriodKey user now (sv_manager s);
        let '(st, err) := p_Delete user periodKey st in
        match err with
        | Some err => Ret (mkService m (Some st), Some err)
        | None => let '(m, err) := RemoveConfig user m in Ret (mkService m (Some st), err)
        end
      else let '(m, err) := RemoveConfig user (sv_manager s) in Ret (set_manager m s, err)
  | None => let '(m, err) := RemoveConfig user (sv_manager s) in Ret (set_manager m s, err)
  end.

Definition applyDynamic (now : Z) (row : ConfigRow) (s : Service) : outcome (Service * option error) :=
  if f64_le0 (cr_QuotaGB row) then
    if cr_Authoritative row && HasQuota (sv_manager s) (cr_User row) then
      removeConfigLocked (cr_User row) now s
    else Ret (s, None)
  else
    let isNew := negb (HasQuota (sv_manager s) (cr_User row)) in
    '(m, err) ← QuotaManager.ApplyConfig
      (mkTrafficQuotaUser (cr_User row) "" (cr_QuotaGB row) (cr_Period row) (cr_PeriodStart row) (cr_PeriodDays row))
      now (sv_manager s);
    match err with
    | Some err => Ret (set_manager m s, Some err)
    | None =>
        if isNew then s ← loadNewUser (cr_User row) now (set_manager m s); Ret (s, None)
        else Ret (set_manager m s, None)
    end.

Definition removeDynamic (now : Z) (user : string) (s : Service) : outcome (Service * option error) :=
  removeConfigLocked user now s.

(** The receiver handed to the dynamic sources. *)
Definition quotaReceiver (now : Z) : Receiver Service :=
  mkReceiver Service (applyDynamic now) (removeDynamic now).

Definition RestoreState (state : RuntimeState) (now : Z) (s : Service) : outcome (Service * option error) :=
  match QuotaManager.RestoreState state (sv_manager s) with
  | (m, Some err) => Ret (set_manager m s, Some err)
  | (m, None) =>
      match sv_persister s with
      | None => Ret (set_manager m s, None)
      | Some st =>
          let name := tqu_Name (rs_User state) in
          '(periodKey, m) ← (if decide (rs_PeriodKey state = "") then CurrentPeriodKey name now m
                             else Ret (rs_PeriodKey state, m));
          match p_Save name periodKey (rs_UsageBytes state) st with
          | (st, Some err) => Ret (mkService m (Some st), Some err)
          | (st, None) => Ret (mkService (ClearPendingDelta name m) (Some st), None)
          end
      end
  end.

(** ** Start-up *)

(** Restoring the usage of one user; an error is logged and the user skipped. *)
Definition restoreUser (now : Z) (acc : QuotaManager * pstore) (user : string) : outcome (QuotaManager * pstore) :=
  let '(m, st) := acc in
  '(periodKey, m) ← CurrentPeriodKey user now m;
  let '(st, r) := p_Load user periodKey st in
  match r with
  | Err _ => Ret (m, st)
  | Ok usage => m ← LoadUsage user usage now m; Ret (m, st)
  end.

Definition restoreUsage (now : Z) (users : list string) (s : Service) : outcome Service :=
  match sv_persister s with
  | None => Ret s
  | Some st => '(m, st) ← foldM (restoreUser now) users (sv_manager s, st); Ret (mkService m (Some st))
  end.

(** ** Flushing *)

(** One [IncrBy] of the flush: the users to reload by period, and the errors. *)
Definition flushOne (acc : QuotaManager * pstore * gmap string (list string) * list error) (pd : PendingDelta)
    : QuotaManager * pstore * gmap string (list string) * list error :=
  let '(m, st, periodUsers, errs) := acc in
  match p_IncrBy (pd_User pd) (pd_PeriodKey pd) (pd_Delta pd) st with
  | (st, Some err) =>
      (RestorePendingDelta (pd_User pd) (pd_PeriodKey pd) (pd_Delta pd) m, st, periodUsers,
       errs ++ [E_Cause err ["persist traffic quota delta for "; pd_User pd]])
  | (st, None) =>
      (m, st, <[pd_PeriodKey pd := default [] (periodUsers !! pd_PeriodKey pd) ++ [pd_User pd]]> periodUsers, errs)
  end.

(** Storing the reloaded totals of the users of a period. *)
Definition reloadUser (now : Z) (result : gmap string Z) (m : QuotaManager) (user : string) : outcome QuotaManager :=
  match result !! user with
  | Some value => LoadUsage user value now m
  | None => Ret m
  end.

Definition reloadPeriod (now : Z) (acc : QuotaManager * pstore * list error) (entry : string * list string)
    : outcome (QuotaManager * pstore * list error) :=
  let '(m, st, errs) := acc in
  let '(periodKey, users) := entry in
  match p_LoadMany periodKey users st with
  | (st, Err err) => Ret (m, st, errs ++ [E_Cause err ["reload traffic quota totals for period "; periodKey]])
  | (st, Ok result) => m ← foldM (reloadUser now result) users m; Ret (m, st, errs)
  end.

(** The order in which the runtime iterates the map of the periods. *)
Context (range : gmap string (list string) -> list (string * list string)).

Definition flushPending (now : Z) (s : Service) : outcome (Service * option error) :=
  match sv_persister s with
  | None => Ret (s, None)
  | Some st =>
      let '(m, pending) := ConsumePendingDeltas (sv_manager s) in
      let active := List.filter (fun pd => HasQuota m (pd_User pd)) pending in
      match active with
      | [] => Ret (mkService m (Some st), None)
      | _ =>
          let '(m, st, periodUsers, errs) := fold_left flushOne active (m, st, ∅, []) in
          '(m, st, errs) ← foldM (reloadPeriod now) (range periodUsers) (m, st, errs);
          Ret (mkService m (Some st), E_Errors errs)
      end
  end.

(** ** Period resets *)

Definition deletePrevious (acc : pstore * list error) (reset : PeriodReset) : pstore * list error :=
  let '(st, errs) := acc in
  match p_Delete (pr_User reset) (pr_PreviousKey reset) st with
  | (st, Some err) => (st, errs ++ [E_Cause err ["delete previous traffic quota period for "; pr_User reset]])
  | (st, None) => (st, errs)
  end.

Definition handlePeriodResets (now : Z) (users : list string) (s : Service) : outcome (Service * option error) :=
  '(m, resets) ← CheckPeriodReset now users (sv_manager s);
  match resets with
  | [] => Ret (set_manager m s, None)
  | _ =>
      match sv_persister s with
      | None => Ret (set_manager m s, None)
      | Some st =>
          let '(st, errs) := fold_left deletePrevious resets (st, []) in
          Ret (mkService m (Some st), E_Errors errs)
      end
  end.

(** [Close], after the loops have ended: a last flush, then the persister. *)
Definition Close (now : Z) (s : Service) : outcome (Service * option error) :=
  '(s, flushErr) ← flushPending now s;
  let errs := option_list flushErr ++
    match sv_persister s with Some st => option_list (p_Close st) | None => [] end in
  Ret (s, E_Errors errs).
End Service.
