(* ===== verification/QuotaServiceProps.v ===== *)
(** * Properties of the traffic quota service

    What the service promises about persisted usage, proved against the contract of the
    persister. *)

From S2P Require Import Prelude GoStrings GoTime QuotaConfig ConnList QuotaManager QuotaInv QuotaPersist DynamicConfig QuotaService QuotaProps.

Local Open Scope string_scope.
Local Open Scope list_scope.
Local Open Scope Z_scope.

Section ServiceProps.
Context `{EX : Exceptions}.
Context (growslice : nat -> nat -> nat).
Context {P : Persister} {PL : PersisterLaws P}.
Context (range : gmap string (list string) -> list (string * list string)).

(** ** Conservation of bytes *)

(** The bytes of a user waiting in memory for a period. *)
Definition waiting (m : QuotaManager) (u k : string) : Z :=
  match states m !! u with
  | Some s => if decide (us_periodKey s = k) then us_pendingDelta s else 0
  | None => 0
  end.

(** The bytes of a user counted for a period: persisted and waiting. *)
Definition counted (st : pstore) (m : QuotaManager) (u k : string) : Z :=
  default 0 (stored st u k) + waiting m u k.

(** Bytes wait for a proper period, in a 64-bit counter. *)
Definition pending_ok (m : QuotaManager) : Prop :=
  forall u s, states m !! u = Some s -> us_pendingDelta s <> 0 ->
    us_periodKey s <> "" /\ plain_key (us_periodKey s) /\ int64_range (us_pendingDelta s).

(** The deltas of a list for a user and a period. *)
Definition todo (l : list PendingDelta) (u k : string) : Z :=
  foldr (fun pd z => (if decide (pd_User pd = u /\ pd_PeriodKey pd = k) then pd_Delta pd else 0) + z) 0 l.

Lemma todo_cons pd l u k :
  todo (pd :: l) u k = (if decide (pd_User pd = u /\ pd_PeriodKey pd = k) then pd_Delta pd else 0) + todo l u k.
Proof. reflexivity. Qed.

Lemma todo_absent l u k : u ∉ map pd_User l -> todo l u k = 0.
Proof.
  induction l as [|pd l IH]; [done|]. cbn [map]. intros H. rewrite todo_cons, decide_False by set_solver.
  rewrite IH by set_solver. done.
Qed.

(** Each user of a drain contributes its own delta. *)
Lemma todo_omap m us u k : NoDup us ->
  todo (omap (pending_of m) us) u k =
  if decide (u ∈ us) then todo (option_list (pending_of m u)) u k else 0.
Proof.
  induction 1 as [|v us Hv Hnd IH]; [by rewrite decide_False by set_solver|].
  assert (todo (omap (pending_of m) (v :: us)) u k =
    todo (option_list (pending_of m v)) u k + todo (omap (pending_of m) us) u k) as ->.
  { change (omap (pending_of m) (v :: us)) with
      (match pending_of m v with Some y => y :: omap (pending_of m) us | None => omap (pending_of m) us end).
    destruct (pending_of m v) as [pd|].
    - change (option_list (Some pd)) with [pd]. rewrite !todo_cons. change (todo [] u k) with 0. lia.
    - change (todo (option_list None) u k) with 0. lia. }
  destruct (decide (u = v)) as [->|Hne].
  - rewrite decide_True by set_solver. rewrite (todo_absent (omap _ us)); [lia|]. intros H. by apply Hv, (omap_pending_users m).
  - assert (todo (option_list (pending_of m v)) u k = 0) as ->.
    { apply todo_absent. destruct (pending_of m v) as [pd|] eqn:E; [|cbn; set_solver].
      cbn. rewrite (pending_of_user m v pd E). set_solver. }
    rewrite IH. destruct (decide (u ∈ us)); [rewrite decide_True by set_solver|rewrite decide_False by set_solver]; lia.
Qed.

(** A delta that can be put back: the state it came from is empty and of its period. *)
Definition returnable (m : QuotaManager) (pd : PendingDelta) : Prop :=
  pd_Delta pd <> 0 /\ int64_range (pd_Delta pd) /\ plain_key (pd_PeriodKey pd) /\ pd_PeriodKey pd <> "" /\
  exists s, states m !! pd_User pd = Some s /\ us_pendingDelta s = 0 /\ us_periodKey s = pd_PeriodKey pd.

Lemma RestorePendingDelta_eq m pd s : mgr_inv m -> returnable m pd -> states m !! pd_User pd = Some s ->
  RestorePendingDelta (pd_User pd) (pd_PeriodKey pd) (pd_Delta pd) m =
  put_state (pd_User pd) (set_pendingDelta (pd_Delta pd) s) (markDirty (pd_User pd) m).
Proof.
  intros I (Hd & Hr & _ & _ & s' & Hs' & Hp & Hk) Hs. rewrite Hs in Hs'. injection Hs' as <-.
  unfold RestorePendingDelta. rewrite (proj2 (Z.eqb_neq _ _) Hd).
  rewrite (proj2 (HasQuota_spec m (pd_User pd))) by (by apply (inv_state m I _ s)). cbn [negb orb].
  unfold stateFor. rewrite Hs, decide_True, Hp, Z.add_0_l, wrap64_id by done. by rewrite markDirty_put.
Qed.

(** An increment of this delta that reports an error although it has taken effect. *)
Definition lateEffect (pd : PendingDelta) : Prop :=
  exists st, is_Some (p_IncrBy (pd_User pd) (pd_PeriodKey pd) (pd_Delta pd) st).2 /\
    stored (p_IncrBy (pd_User pd) (pd_PeriodKey pd) (pd_Delta pd) st).1 (pd_User pd) (pd_PeriodKey pd) =
      Some (default 0 (stored st (pd_User pd) (pd_PeriodKey pd)) + pd_Delta pd).

(** One round of the flush moves a delta to the store or back into the state, or, when
    the increment reports an error although it has taken effect, both. *)
Lemma flushOne_spec m st pu errs pd m' st' pu' errs' :
  mgr_inv m -> pending_ok m -> returnable m pd ->
  flushOne (m, st, pu, errs) pd = (m', st', pu', errs') ->
  exists again, again `sublist_of` [pd] /\ Forall lateEffect again /\ (again <> [] -> errs' <> []) /\
  (errs <> [] -> errs' <> []) /\
  mgr_inv m' /\ pending_ok m' /\
  (forall v, v <> pd_User pd -> states m' !! v = states m !! v) /\
  (forall u k, plain_key k -> counted st' m' u k = counted st m u k + todo [pd] u k + todo again u k).
Proof.
  intros I Hpk Hret. unfold flushOne.
  pose proof Hret as (Hd & Hr & Hpl & Hne & s & Hs & Hp & Hk).
  destruct (IncrBy_law (pd_User pd) (pd_PeriodKey pd) (pd_Delta pd) st Hpl) as (effect & He & Hst).
  assert (Hlate : is_Some (p_IncrBy (pd_User pd) (pd_PeriodKey pd) (pd_Delta pd) st).2 -> effect = true -> lateEffect pd).
  { intros Hsome ->. exists st. split; [done|]. by rewrite Hst, decide_True by done. }
  destruct (p_IncrBy _ _ _ st) as [st1 [err|]]; cbn [fst snd] in *; intros [= <- <- <- <-].
  - exists (if effect then [pd] else []).
    rewrite (RestorePendingDelta_eq m pd s) by done.
    pose proof (markDirty_fields (pd_User pd) m) as (F1 & F2 & _).
    assert (forall v, states (put_state (pd_User pd) (set_pendingDelta (pd_Delta pd) s) (markDirty (pd_User pd) m)) !! v =
      if decide (pd_User pd = v) then Some (set_pendingDelta (pd_Delta pd) s) else states m !! v) as Hst'.
    { intros v. cbn. rewrite F2. apply lookup_insert. }
    split_and!.
    + by destruct effect; [|apply sublist_nil_l].
    + destruct effect; [|done]. apply Forall_singleton. by apply Hlate.
    + intros _ H. by apply app_eq_nil in H as [_ ?].
    + intros _ H. by apply app_eq_nil in H as [_ ?].
    + rewrite <-(RestorePendingDelta_eq m pd s) by done. by apply RestorePendingDelta_inv.
    + intros v s'. rewrite Hst'. destruct (decide _); [|apply Hpk]. intros [= <-] _. cbn. rewrite Hk. done.
    + intros v Hv. by rewrite Hst', decide_False by done.
    + intros u k Hkk.
      assert (Hstored : default 0 (stored st1 u k) = default 0 (stored st u k) + todo (if effect then [pd] else []) u k).
      { rewrite Hst by done. destruct effect; [|rewrite decide_False by naive_solver; cbn; lia]. rewrite todo_cons.
        change (todo [] u k) with 0. destruct (decide (pd_User pd = u /\ pd_PeriodKey pd = k)) as [[<- <-]|Hn].
        - rewrite decide_True by done. cbn. lia.
        - rewrite decide_False; [lia|]. intros (_ & -> & ->). by apply Hn. }
      unfold counted, waiting. rewrite Hstored, Hst' by done. rewrite (todo_cons pd []). change (todo [] u k) with 0.
      destruct (decide (pd_User pd = u)) as [<-|Hu].
      * rewrite Hs. cbn [us_periodKey us_pendingDelta set_pendingDelta]. rewrite Hk, Hp.
        destruct (decide (pd_PeriodKey pd = k)); [rewrite decide_True by done|rewrite decide_False by tauto]; lia.
      * rewrite decide_False by tauto. lia.
  - rewrite (He eq_refl) in Hst. exists []. split_and!; [apply sublist_nil_l|done|done|done|done|done|done|].
    intros u k Hkk. unfold counted. rewrite Hst, (todo_cons pd []) by done. change (todo [] u k) with 0.
    destruct (decide (pd_User pd = u /\ pd_PeriodKey pd = k)) as [[<- <-]|Hn].
    + rewrite decide_True by done. cbn. lia.
    + rewrite decide_False; [lia|]. intros (_ & ? & ?). apply Hn. by split.
Qed.

Lemma todo_app l1 l2 u k : todo (l1 ++ l2) u k = todo l1 u k + todo l2 u k.
Proof. induction l1 as [|pd l1 IH]; [done|]. cbn [app]. rewrite !todo_cons, IH. lia. Qed.

Lemma flush_fold l m st pu errs m' st' pu' errs' :
  mgr_inv m -> pending_ok m -> NoDup (map pd_User l) -> (forall pd, pd ∈ l -> returnable m pd) ->
  fold_left flushOne l (m, st, pu, errs) = (m', st', pu', errs') ->
  exists again, again `sublist_of` l /\ Forall lateEffect again /\ (again <> [] \/ errs <> [] -> errs' <> []) /\
  mgr_inv m' /\ pending_ok m' /\
  (forall u k, plain_key k -> counted st' m' u k = counted st m u k + todo l u k + todo again u k).
Proof.
  revert m st pu errs. induction l as [|pd l IH]; intros m st pu errs I Hpk Hnd Hret H; cbn [fold_left] in H.
  - injection H as <- <- <- <-. exists []. split_and!; [done|done|naive_solver|done|done|]. intros. cbn. lia.
  - destruct (flushOne (m, st, pu, errs) pd) as [[[m1 st1] pu1] errs1] eqn:E.
    apply NoDup_cons in Hnd as [Hu Hnd].
    destruct (flushOne_spec m st pu errs pd m1 st1 pu1 errs1 I Hpk (Hret pd ltac:(set_solver)) E)
      as (a1 & Hsub1 & Hl1 & Ha1 & Ha1' & I1 & Hpk1 & Hoth & Hc).
    destruct (IH m1 st1 pu1 errs1 I1 Hpk1 Hnd) as (a2 & Hsub2 & Hl2 & Ha2 & I' & Hpk' & Hc'); [|done|].
    + intros pd' Hpd'. destruct (Hret pd' ltac:(set_solver)) as (? & ? & ? & ? & s & Hs & ?).
      unfold returnable. split_and!; [done..|]. exists s. split; [|done]. rewrite Hoth; [done|].
      intros E'. apply Hu. rewrite <-E'. by apply (list_elem_of_fmap_2 pd_User).
    + exists (a1 ++ a2). split_and!; [|by apply Forall_app_2| |done|done|].
      * change (pd :: l) with ([pd] ++ l). by apply sublist_app.
      * intros Hor. apply Ha2. destruct Hor as [Hor|Hor]; [|right; by apply Ha1'].
        destruct a1; [by left|right; by apply Ha1].
      * intros u k Hk. rewrite Hc', Hc, (todo_cons pd l), (todo_cons pd []), todo_app by done. change (todo [] u k) with 0. lia.
Qed.

(** Reading usage back does not touch what waits. *)
Lemma LoadUsage_waiting m u bytes now m' :
  mgr_inv m -> pending_ok m -> LoadUsage u bytes now m = Ret m' ->
  pending_ok m' /\ forall v k, waiting m' v k = waiting m v k.
Proof.
  intros I Hpk H. destruct (userConfigs m !! u) as [c|] eqn:Hc.
  2:{ unfold LoadUsage, loadConfig in H. rewrite Hc in H. by injection H as <-. }
  rewrite (LoadUsage_eq u bytes now m c) in H by (done || by apply (inv_config m I u)). injection H as <-.
  set (s := set_usage bytes (keyed c now (state_of m u))).
  assert (exists b, states (settle u c s m) = <[u := set_exceeded b s]> (states m)) as [b Hb].
  { unfold settle. destruct (_ <? _); by eexists. }
  assert (us_pendingDelta (state_of m u) <> 0 -> us_periodKey (state_of m u) <> "") as Hne.
  { unfold state_of. destruct (states m !! u) as [s0|] eqn:Es; [|done]. intros Hp. by apply (Hpk u s0 Es). }
  assert (us_pendingDelta (state_of m u) <> 0 -> key_at c now (state_of m u) = us_periodKey (state_of m u)) as Hkey.
  { intros Hp. unfold key_at. by rewrite decide_False by auto. }
  split.
  - intros v s'. rewrite Hb, lookup_insert. destruct (decide (u = v)) as [<-|]; [|apply Hpk].
    intros [= <-]. cbn. intros Hp. rewrite Hkey by done. unfold state_of in *.
    destruct (states m !! u) as [s0|] eqn:Es; [|done]. by apply (Hpk u s0).
  - intros v k. unfold waiting. rewrite Hb, lookup_insert. destruct (decide (u = v)) as [<-|]; [|done].
    cbn. destruct (Z.eq_dec (us_pendingDelta (state_of m u)) 0) as [Hz|Hz].
    + rewrite Hz. unfold state_of in Hz. destruct (states m !! u) as [s0|]; cbn in Hz; [rewrite Hz|];
        repeat destruct (decide _); done.
    + rewrite Hkey by done. unfold state_of in *. destruct (states m !! u); [done|]. done.
Qed.

Definition reload_inv (st : pstore) (m : QuotaManager) (errs : list error) (acc : QuotaManager * pstore * list error) : Prop :=
  mgr_inv acc.1.1 /\ pending_ok acc.1.1 /\
  (forall u k, waiting acc.1.1 u k = waiting m u k) /\ (forall u k, stored acc.1.2 u k = stored st u k) /\
  (errs <> [] -> acc.2 <> []).

Lemma reloadPeriod_returns now st0 m0 errs0 acc entry :
  reload_inv st0 m0 errs0 acc -> exists acc', reloadPeriod now acc entry = Ret acc' /\ reload_inv st0 m0 errs0 acc'.
Proof.
  destruct acc as [[m st] errs], entry as [k users]. intros (I & Hpk & Hw & Hst & He). cbn in *.
  pose proof (LoadMany_law k users st) as [Hsame _].
  destruct (p_LoadMany k users st) as [st1 [r|err]]; cbn [fst snd] in *.
  - destruct (foldM_returns (fun m => mgr_inv m /\ pending_ok m /\ forall u k, waiting m u k = waiting m0 u k)
      (reloadUser now r) users m) as (m1 & -> & I1 & Hpk1 & Hw1); [|done|].
    + intros m1 u (I1 & Hpk1 & Hw1) _. unfold reloadUser. destruct (r !! u) as [z|]; [|by eauto].
      destruct (userConfigs m1 !! u) as [c|] eqn:Hc.
      * eexists. split; [apply (LoadUsage_eq u z now m1 c Hc), (inv_config m1 I1 u c Hc)|].
        pose proof (LoadUsage_eq u z now m1 c Hc (inv_config m1 I1 u c Hc)) as E.
        split; [by eapply LoadUsage_inv|]. destruct (LoadUsage_waiting m1 u z now _ I1 Hpk1 E) as [? Hw2].
        split; [done|]. intros. by rewrite Hw2.
      * exists m1. split; [|done]. unfold LoadUsage, loadConfig. by rewrite Hc.
    + cbn. eexists. split; [done|]. split_and!; [done..| |done]. intros. cbn. by rewrite Hsame.
  - eexists. split; [done|]. split_and!; [done..| |].
    + intros. cbn. by rewrite Hsame.
    + cbn. intros _ H. by apply app_eq_nil in H as [_ ?].
Qed.

(** The drain, as the flush uses it. *)
Lemma consumed m : mgr_inv m -> pending_ok m ->
  exists m1 pending, ConsumePendingDeltas m = (m1, pending) /\ mgr_inv m1 /\ pending_ok m1 /\
    NoDup (map pd_User pending) /\ (forall pd, pd ∈ pending -> returnable m1 pd) /\
    (forall st u k, counted st m u k = counted st m1 u k + todo pending u k).
Proof.
  intros I Hpk. pose proof (ConsumePendingDeltas_inv m I) as I1.
  rewrite ConsumePendingDeltas_eq in * by done. cbn [fst] in I1. do 2 eexists. split; [done|].
  destruct (inv_dirty m I) as [Hnd _].
  pose proof (drained_states m I) as Hst.
  split_and!; [done| |by apply omap_pending_NoDup| |].
  - intros u s. rewrite Hst. destruct (states m !! u); [|done]. cbn. by intros [= <-].
  - intros pd Hpd. apply list_elem_of_omap in Hpd as (u & _ & Hu). unfold pending_of in Hu.
    destruct (states m !! u) as [s|] eqn:Es; [|done]. destruct (Z.eqb_spec (us_pendingDelta s) 0) as [|Hz]; [done|].
    injection Hu as <-. destruct (Hpk u s Es Hz) as (? & ? & ?). unfold returnable. cbn [pd_User pd_PeriodKey pd_Delta].
    split_and!; [done..|]. rewrite Hst, Es. cbn. eexists. done.
  - intros st u k. unfold counted. assert (waiting m u k = waiting (set_states (drain (dirtyQueue m)) (set_dirty ∅ [] m)) u k
      + todo (omap (pending_of m) (dirtyQueue m)) u k) as ->; [|lia].
    assert (waiting (set_states (drain (dirtyQueue m)) (set_dirty ∅ [] m)) u k = 0) as ->.
    { unfold waiting. rewrite Hst. destruct (states m !! u); [|done]. cbn. by destruct (decide _). }
    rewrite todo_omap by done. cbn. unfold waiting, pending_of. destruct (states m !! u) as [s|] eqn:Es.
    + destruct (decide (u ∈ dirtyQueue m)) as [Hin|Hn].
      * destruct (Z.eqb_spec (us_pendingDelta s) 0) as [Hz|Hz]; cbn; [rewrite Hz; by destruct (decide _)|].
        destruct (decide (us_periodKey s = k)); [rewrite decide_True by done|rewrite decide_False by tauto]; lia.
      * destruct (Z.eq_dec (us_pendingDelta s) 0) as [Hz|Hz]; [rewrite Hz; by destruct (decide _)|].
        by destruct Hn; apply (inv_pending m I u s).
    + by destruct (decide _).
Qed.

(** C5: with a persister that keeps what it is given ([PersisterLaws]; Redis does, the
    no-op persister does not), and a manager whose waiting bytes belong to a proper
    period ([pending_ok]: a key that is not empty and without the separator of Redis
    keys, a count of 64 bits), a flush loses no bytes, whatever calls of the persister
    fail and in whatever order the periods are reloaded: it returns, the manager it
    leaves is well formed, and for every user and period the bytes persisted plus the
    bytes waiting in memory are those from before, plus each waiting delta of a list
    [again] once more.  That list has only deltas whose increment reported an error
    although it had taken effect, and the flush then reports an error: without such
    increments nothing is counted twice. *)
Theorem flushPending_conserves `{EL : !ExceptionsLaws EX} s st now :
  reachable growslice (sv_manager s) -> pending_ok (sv_manager s) -> sv_persister s = Some st ->
  exists s' st' err again, flushPending range now s = Ret (s', err) /\ sv_persister s' = Some st' /\
    mgr_inv (sv_manager s') /\
    again `sublist_of` (ConsumePendingDeltas (sv_manager s)).2 /\ Forall lateEffect again /\ (again <> [] -> is_Some err) /\
    forall u k, plain_key k -> counted st' (sv_manager s') u k = counted st (sv_manager s) u k + todo again u k.
Proof.
  intros R Hpk Hp. pose proof (reachable_inv _ _ R) as I. unfold flushPending. rewrite Hp.
  set (m := sv_manager s) in *.
  destruct (consumed m I Hpk) as (m1 & pending & E & I1 & Hpk1 & Hnd & Hret & Hc). rewrite E.
  assert (List.filter (fun pd => HasQuota m1 (pd_User pd)) pending = pending) as ->.
  { apply filter_all. intros pd Hpd. destruct (Hret pd Hpd) as (_ & _ & _ & _ & s1 & Hs1 & _).
    apply HasQuota_spec. by apply (inv_state m1 I1 _ s1). }
  destruct pending as [|pd0 rest].
  { do 3 eexists. exists []. split_and!; [done|done|done|done|done|done|]. cbn. intros u k Hk. rewrite (Hc st u k). cbn. lia. }
  set (pending := pd0 :: rest) in *. destruct (fold_left flushOne pending (m1, st, ∅, [])) as [[[m2 st2] pu] errs] eqn:Ef.
  destruct (flush_fold pending m1 st ∅ [] m2 st2 pu errs I1 Hpk1 Hnd Hret Ef) as (again & Hsub & Hl & Ha & I2 & Hpk2 & Hc2).
  destruct (foldM_returns (reload_inv st2 m2 errs) (reloadPeriod now) (range pu) (m2, st2, errs))
    as ([[m3 st3] errs3] & Er & I3 & _ & Hw & Hst & He).
  { intros acc e Hacc _. by apply reloadPeriod_returns. }
  { by split_and!. }
  rewrite Er. cbn in *. do 3 eexists. exists again. split_and!; [done|done|done|done|done| |].
  - intros Hne. destruct errs3 as [|e es]; [by destruct He; [apply Ha; left|]|].
    destruct (E_Errors_cons e es) as [e' ->]. by eexists.
  - intros u k Hk. unfold counted at 1. cbn. rewrite Hst, Hw. fold (counted st2 m2 u k).
    rewrite Hc2 by done. rewrite (Hc st u k). done.
Qed.

(** ** Period resets *)

Lemma deletePrevious_fold resets st errs st' errs' :
  (forall r, r ∈ resets -> plain_key (pr_PreviousKey r)) ->
  fold_left deletePrevious resets (st, errs) = (st', errs') ->
  exists es, errs' = errs ++ es /\
  forall v j, plain_key j ->
    ((forall r, r ∈ resets -> pr_User r <> v \/ pr_PreviousKey r <> j) -> stored st' v j = stored st v j) /\
    (es = [] -> (exists r, r ∈ resets /\ pr_User r = v /\ pr_PreviousKey r = j) -> stored st' v j = None) /\
    (stored st' v j = stored st v j \/ stored st' v j = None).
Proof.
  revert st errs. induction resets as [|r resets IH]; intros st errs Hpl H; cbn [fold_left] in H.
  - injection H as <- <-. exists []. rewrite app_nil_r. split; [done|]. intros v j Hj.
    split_and!; [done| |by left]. intros _ (r & Hr & _). by apply elem_of_nil in Hr.
  - unfold deletePrevious in H at 2. destruct (Delete_law (pr_User r) (pr_PreviousKey r) st (Hpl r ltac:(set_solver))) as (effect & He & Hd).
    destruct (p_Delete (pr_User r) (pr_PreviousKey r) st) as [st1 err] eqn:E. cbn [fst snd] in Hd, He.
    assert (exists es1, (err = None -> es1 = []) /\ (err <> None -> es1 <> []) /\
      fold_left deletePrevious resets (st1, errs ++ es1) = (st', errs')) as (es1 & Hes1 & Hes1' & H').
    { destruct err as [e|]; [exists [E_Cause e ["delete previous traffic quota period for "; pr_User r]]|exists []]; by rewrite ?app_nil_r. }
    destruct (IH st1 (errs ++ es1)) as (es & -> & HH); [set_solver|done|].
    exists (es1 ++ es). split; [by rewrite app_assoc|]. intros v j Hj. destruct (HH v j Hj) as (H1 & H2 & H3).
    specialize (Hd v j Hj). split_and!.
    + intros Hn. rewrite H1 by (intros r' Hr'; apply Hn; set_solver). rewrite Hd, decide_False; [done|].
      intros (_ & -> & ->). destruct (Hn r ltac:(set_solver)); done.
    + intros Hes (r' & Hr' & Hv & Hjj). apply app_eq_nil in Hes as [Ees1 Ees].
      apply elem_of_cons in Hr' as [->|Hr']; [|by apply H2; eauto]. subst v j.
      destruct H3 as [->|]; [|done]. rewrite Hd, decide_True; [done|]. split; [|done].
      apply He. destruct err; [|done]. by destruct Hes1'.
    + destruct H3 as [->|]; [|by right]. rewrite Hd. destruct (decide _); [by right|by left].
Qed.

(** Handling period resets returns and leaves the manager of the check; the only
    records it deletes are those of the previous period of a user that was reset, and
    when it reports no error all of them are gone. *)
Theorem handlePeriodResets_spec `{EL : !ExceptionsLaws EX} s st now users :
  reachable growslice (sv_manager s) -> names_order (sv_manager s) users -> sv_persister s = Some st ->
  (forall u x, states (sv_manager s) !! u = Some x -> plain_key (us_periodKey x)) ->
  exists m' resets s' st' err,
    CheckPeriodReset now users (sv_manager s) = Ret (m', resets) /\
    handlePeriodResets now users s = Ret (s', err) /\ sv_manager s' = m' /\ sv_persister s' = Some st' /\
    forall u k, plain_key k ->
      (stored st' u k = stored st u k \/ (stored st' u k = None /\ exists j, mkPeriodReset u k j ∈ resets)) /\
      (err = None -> (exists j, mkPeriodReset u k j ∈ resets) -> stored st' u k = None).
Proof.
  intros R Hn Hp Hpl. pose proof (reachable_inv _ _ R) as I.
  destruct (reset_fold now users (sv_manager s) [] I (proj1 Hn)) as (sts & E & _).
  set (resets := omap (reset_of now (sv_manager s)) users) in *. cbn [app] in E. fold (CheckPeriodReset now users (sv_manager s)) in E.
  unfold handlePeriodResets. rewrite E. cbn [mbind outcome_bind].
  assert (forall r, r ∈ resets -> plain_key (pr_PreviousKey r)) as Hpr.
  { intros r Hr. apply list_elem_of_omap in Hr as (u & _ & Hr). unfold reset_of in Hr.
    destruct (states (sv_manager s) !! u) as [x|] eqn:Ex; [|done]. cbn in Hr.
    destruct (userConfigs (sv_manager s) !! u); [|done]. cbn in Hr. destruct (periodKey _ _); [|done].
    destruct (decide _); [done|]. injection Hr as <-. by apply (Hpl u x). }
  clearbody resets. destruct resets as [|r0 rest].
  - do 5 eexists. split_and!; [done|done|done|done|]. intros u k Hk. split; [by left|].
    intros _ (j & Hj). by apply elem_of_nil in Hj.
  - set (resets := r0 :: rest) in *. rewrite Hp. destruct (fold_left deletePrevious resets (st, [])) as [st' errs] eqn:Ef.
    destruct (deletePrevious_fold resets st [] st' errs Hpr Ef) as (es & -> & H).
    do 5 eexists. split_and!; [done|done|done|done|]. intros u k Hk.
    destruct (H u k Hk) as (H1 & H2 & H3).
    assert ((exists j, mkPeriodReset u k j ∈ resets) <-> exists r, r ∈ resets /\ pr_User r = u /\ pr_PreviousKey r = k) as Hiff.
    { split; [intros [j Hj]; by eexists|]. intros ([u' k' j] & Hr & <- & <-). by exists j. }
    split.
    + destruct H3 as [|Hnone]; [by left|]. destruct (decide (Exists (fun r => pr_User r = u /\ pr_PreviousKey r = k) resets)) as [Hex|Hex].
      * right. split; [done|]. apply Hiff. apply Exists_exists in Hex as (r & ? & ? & ?). eauto.
      * left. apply H1. intros r Hr. destruct (decide (pr_User r = u)) as [Hu|]; [|by left]. right. intros Hkk.
        apply Hex, Exists_exists. eauto.
    + intros He Hj. apply H2; [|by apply Hiff]. destruct es as [|e es]; [done|].
      destruct (E_Errors_cons e es) as [e' He']. cbn in He. congruence.
Qed.

(** ** Dynamic configuration *)

(** Reading back the usage of a user that has just been configured. *)
Lemma loadNewUser_spec s st u c k now :
  mgr_inv (sv_manager s) -> sv_persister s = Some st -> userConfigs (sv_manager s) !! u = Some c ->
  us_periodKey (state_of (sv_manager s) u) = k -> k <> "" ->
  exists s', loadNewUser u now s = Ret s' /\ mgr_inv (sv_manager s') /\
    userConfigs (sv_manager s') = userConfigs (sv_manager s) /\
    Usage (sv_manager s') u =
      match (p_Load u k st).2 with Ok _ => default 0 (stored st u k) | Err _ => Usage (sv_manager s) u end.
Proof.
  intros I Hp Hc Hk Hne. unfold loadNewUser. rewrite Hp. pose proof (inv_config _ I u c Hc) as Hv.
  rewrite (CurrentPeriodKey_eq u now _ c Hc Hv). cbn [mbind outcome_bind].
  assert (key_at c now (state_of (sv_manager s) u) = k) as Hka.
  { unfold key_at. rewrite decide_False; [done|congruence]. }
  rewrite Hka. set (m1 := put_state u _ (sv_manager s)).
  assert (mgr_inv m1) as I1.
  { apply put_inv; [done|by eexists|done|done|]. by apply state_pending. }
  destruct (Load_law u k st) as [_ Hl]. destruct (p_Load u k st) as [st1 [z|e]]; cbn [fst snd] in *.
  - assert (userConfigs m1 !! u = Some c) as Hc1 by done.
    pose proof (LoadUsage_eq u z now m1 c Hc1 Hv) as E. rewrite E. cbn [mbind outcome_bind]. eexists. split; [done|].
    split_and!; [by eapply LoadUsage_inv| |].
    + cbn. by rewrite (proj1 (settle_fields _ _ _ _)).
    + unfold Usage. cbn. rewrite (proj2 (settle_fields _ _ _ _)), lookup_insert_eq. cbn. by apply Hl.
  - eexists. split; [done|]. split_and!; [done|done|]. cbn. rewrite !Usage_state_of. unfold m1, state_of at 1. cbn.
    by rewrite lookup_insert_eq.
Qed.

(** What a row of a dynamic source does.  Without a quota it leaves the service alone
    unless it is authoritative and the user has one, which it then removes.  With an
    acceptable quota the configuration is stored; a user that already had a quota keeps
    its usage, a new one starts from the bytes persisted for the current period.  A
    rejected configuration changes nothing. *)
Theorem applyDynamic_spec s st now row :
  reachable growslice (sv_manager s) -> sv_persister s = Some st -> cr_User row <> "" ->
  let u := cr_User row in
  exists s' err, applyDynamic now row s = Ret (s', err) /\
  if f64_le0 (cr_QuotaGB row) then
    if cr_Authoritative row && HasQuota (sv_manager s) u then
      err = None -> userConfigs (sv_manager s') !! u = None /\ states (sv_manager s') !! u = None
    else s' = s /\ err = None
  else
    match newQuotaConfig (cr_QuotaGB row) (cr_Period row) (cr_PeriodStart row) (cr_PeriodDays row) None with
    | Ok (Some c) =>
        err = None /\ userConfigs (sv_manager s') !! u = Some c /\
        Usage (sv_manager s') u =
          if HasQuota (sv_manager s) u then Usage (sv_manager s) u
          else match periodKey c now with
               | Ok k => match (p_Load u k st).2 with Ok _ => default 0 (stored st u k) | Err _ => 0 end
               | Err _ => 0
               end
    | _ => sv_manager s' = sv_manager s /\ is_Some err
    end.
Proof.
  intros R Hp Hu u. pose proof (reachable_inv _ _ R) as I. unfold applyDynamic. fold u in Hu |- *.
  destruct (f64_le0 (cr_QuotaGB row)).
  { destruct (cr_Authoritative row && HasQuota (sv_manager s) u) eqn:E; [|by eauto]. apply andb_true_iff in E as [_ E].
    unfold removeConfigLocked. rewrite Hp, E. apply HasQuota_spec in E as [c Hc].
    pose proof (inv_config _ I u c Hc) as Hv. rewrite (CurrentPeriodKey_eq u now _ c Hc Hv). cbn [mbind outcome_bind].
    set (m1 := put_state u _ (sv_manager s)).
    assert (mgr_inv m1) as I1 by (apply put_inv; [done|by eexists|done|done|by apply state_pending]).
    destruct (p_Delete u _ st) as [st1 [e|]]; [by do 2 eexists|].
    destruct (RemoveConfig u m1) as [m2 e] eqn:Er. do 2 eexists. split; [done|]. intros _. cbn.
    rewrite RemoveConfig_eq in Er by done. injection Er as <- <-. cbn. by rewrite !lookup_delete_eq. }
  destruct (newQuotaConfig _ _ _ _ _) as [[c|]|] eqn:E.
  2,3: unfold QuotaManager.ApplyConfig; cbn; rewrite decide_False, E by done; cbn; eauto 10.
  pose proof (ApplyConfig_eq (mkTrafficQuotaUser u "" (cr_QuotaGB row) (cr_Period row) (cr_PeriodStart row) (cr_PeriodDays row))
    now (sv_manager s) c Hu E) as Ea. pose proof (ApplyConfig_inv _ now _ _ _ I Ea) as I1. rewrite Ea. cbn [tqu_Name] in *.
  cbn [mbind outcome_bind]. set (m1 := settle u c _ _) in *.
  destruct (settle_fields u c (keyed c now (state_of (sv_manager s) u)) (storeConfig u c (sv_manager s))) as [F1 F2].
  fold m1 in F1, F2. assert (userConfigs m1 !! u = Some c) as Hc1 by (rewrite F1; apply lookup_insert_eq).
  destruct (HasQuota (sv_manager s) u) eqn:Eq; cbn [negb].
  - do 2 eexists. split; [done|]. cbn. split_and!; [done|done|].
    unfold Usage at 1. rewrite F2, lookup_insert_eq. cbn. by rewrite Usage_state_of.
  - assert (userConfigs (sv_manager s) !! u = None) as Hnone.
    { destruct (userConfigs (sv_manager s) !! u) eqn:Ec; [|done].
      assert (HasQuota (sv_manager s) u = true) by (apply HasQuota_spec; by eexists). congruence. }
    destruct (unconfigured _ u I Hnone) as (Hs & _).
    assert (state_of (sv_manager s) u = zeroUserState) as Hz by (unfold state_of; by rewrite Hs).
    destruct (periodKey_valid c now (proj2 (newQuotaConfig_valid _ _ _ _ _ _ E))) as [k Hk].
    destruct (loadNewUser_spec (set_manager m1 s) st u c k now) as (s' & Es & _ & Hcfg & Hus).
    { done. } { done. } { done. }
    { cbn. unfold state_of. rewrite F2, lookup_insert_eq. cbn. rewrite Hz. unfold key_at. cbn. by rewrite Hk. }
    { by eapply periodKey_nonempty. }
    cbn in Es. rewrite Es. do 2 eexists. split; [done|]. split_and!; [done|by rewrite Hcfg|].
    rewrite Hus, Hk. destruct (p_Load u k st).2; [done|]. cbn. unfold Usage. rewrite F2, lookup_insert_eq. cbn. by rewrite Hz.
Qed.
End ServiceProps.

(** ** Without a backend *)

Section NoopProps.
Context `{EX : Exceptions} `{EL : !ExceptionsLaws EX}.
Context (growslice : nat -> nat -> nat) (range : gmap string (list string) -> list (string * list string)).

Lemma noop_rounds l m st pu errs : exists pu', fold_left (flushOne (P := NoopPersister)) l (m, st, pu, errs) = (m, st, pu', errs).
Proof. revert pu. induction l as [|pd l IH]; intros pu; cbn [fold_left]; [by eexists|]. apply IH. Qed.

Lemma noop_reloads now l m st errs : foldM (reloadPeriod (P := NoopPersister) now) l (m, st, errs) = Ret (m, st, errs).
Proof.
  induction l as [|[k users] l IH]; [done|]. cbn [foldM reloadPeriod p_LoadMany NoopPersister].
  assert (foldM (reloadUser now ∅) users m = Ret m) as -> by (by induction users). exact IH.
Qed.

(** With the no-op persister a flush drops the waiting bytes, which no backend wants, and
    the usage the quotas are compared with stays: the empty reload resets nothing. *)
Theorem noop_flush_keeps_usage s now :
  reachable growslice (sv_manager s) ->
  exists s', flushPending (P := NoopPersister) range now s = Ret (s', None) /\ sv_persister s' = sv_persister s /\
    forall u, Usage (sv_manager s') u = Usage (sv_manager s) u.
Proof.
  intros R. pose proof (reachable_inv _ _ R) as I. unfold flushPending. destruct (sv_persister s) as [st|] eqn:Hp; [|by eauto].
  destruct (ConsumePendingDeltas (sv_manager s)) as [m1 pending] eqn:E. rewrite ConsumePendingDeltas_eq in E by done.
  injection E as <- <-. set (m1 := set_states _ _).
  assert (Hu : forall u, Usage m1 u = Usage (sv_manager s) u).
  { intros u. unfold Usage. rewrite (drained_states (sv_manager s) I). by destruct (states (sv_manager s) !! u). }
  destruct (List.filter _ _) as [|pd0 rest]; [by eexists|]. destruct (noop_rounds (pd0 :: rest) m1 st ∅ []) as [pu ->].
  rewrite noop_reloads. cbn [mbind outcome_bind]. rewrite E_Errors_nil. by eexists.
Qed.
End NoopProps.

(** ** Redis records *)

Section RedisProps.
Context `{EX : Exceptions}.
Context {R : RedisClient} {RL : RedisLaws R} (keyPrefix : string).

(** The records Redis keeps for different users or periods are independent, even for
    user names that contain the separator: their keys differ, the user is recovered from
    a key, an increment that succeeds is seen by the next load of its record, which
    returns the old bytes plus the delta, and by no load of another record. *)
Theorem redis_records_independent u k v j d st :
  plain_key k -> plain_key j ->
  let P := RedisPersister R keyPrefix in
  (key keyPrefix u k = key keyPrefix v j <-> u = v /\ k = j) /\
  userFromKey keyPrefix (key keyPrefix u k) k = u /\
  (forall st' a b, p_IncrBy u k d st = (st', None) ->
     (p_Load v j st).2 = Ok a -> (p_Load v j st').2 = Ok b ->
     b = a + if decide (u = v /\ k = j) then d else 0).
Proof.
  intros Hk Hj P. split_and!.
  - split; [by apply key_inj|by intros [-> ->]].
  - apply userFromKey_key.
  - intros st' a b Hi Ha Hb.
    destruct (IncrBy_law u k d st Hk) as (effect & He & Hs). specialize (Hs v j Hj). rewrite Hi in He, Hs.
    rewrite (He eq_refl) in Hs. cbn [fst snd] in Hs.
    destruct (Load_law v j st) as [_ La]. destruct (Load_law v j st') as [_ Lb].
    rewrite (La a Ha), (Lb b Hb), Hs. destruct (decide (u = v /\ k = j)) as [[-> ->]|Hn].
    + rewrite decide_True by done. done.
    + rewrite decide_False by (intros (_ & -> & ->); tauto). lia.
Qed.
End RedisProps.

(** ** Witnesses *)

(** An in-memory Redis. *)
Module MemRedis.
Import Demo.

Definition get (k : string) (st : gmap string string) : gmap string string * result error (option string) := (st, Ok (st !! k)).
Definition mget (ks : list string) (st : gmap string string) : gmap string string * result error (list mgetValue) :=
  (st, Ok (map (fun k => match st !! k with Some s => MStr s | None => MNil end) ks)).
Definition incr (k : string) (d : Z) (st : gmap string string) : gmap string string * option error :=
  match default (Some 0) (atoi <$> st !! k) with
  | Some v => if (min_int64 <=? v + d) && (v + d <=? max_int64) then (<[k := itoa (v + d)]> st, None)
              else (st, Some (Errorf "ERR increment or decrement would overflow"))
  | None => (st, Some (Errorf "ERR value is not an integer or out of range"))
  end.

Lemma incr_law (k : string) (d : Z) (st : gmap string string) :
  exists effect : bool, ((incr k d st).2 = None -> effect = true) /\
  if effect then exists v, default (Some 0) (atoi <$> st !! k) = Some v /\ int64_range (v + d) /\
      (incr k d st).1 = <[k := itoa (v + d)]> st
  else (incr k d st).1 = st.
Proof.
  unfold incr. destruct (default (Some 0) (atoi <$> st !! k)) as [v|]; [|by exists false].
  destruct ((min_int64 <=? v + d) && (v + d <=? max_int64)) eqn:Er; [|by exists false]. exists true.
  split; [done|]. exists v. zbool. by split_and!.
Qed.

#[export] Instance client : RedisClient := {|
  rstate := gmap string string;
  r_Get := get; r_MGet := mget;
  r_Set := fun k z st => (<[k := itoa z]> st, None);
  r_IncrBy := incr;
  r_Del := fun k st => (delete k st, None);
  r_Scan := fun _ _ _ st => (st, Ok (elements (dom st), 0));
  r_Close := fun _ => None;
|}.

#[export] Instance client_laws : RedisLaws client.
Proof.
  refine {| rkeys := (fun st => st) : @rstate _ client -> gmap string string |}.
  - intros k st. split; [done|]. by intros o [= <-].
  - intros ks st. split; [done|]. by intros vs [= <-].
  - intros k z st. by exists true.
  - exact incr_law.
  - intros k st. by exists true.
Defined.

#[export] Instance persister : Persister := RedisPersister client "traffic-quota".
#[export] Instance persister_laws : PersisterLaws persister := RedisPersister_laws client "traffic-quota".

Definition range (m : gmap string (list string)) : list (string * list string) := map_to_list m.

(** Alice has sent two GiB that are not persisted yet. *)
Definition s2 : Service := mkService m2 (Some (∅ : gmap string string)).

Lemma states2 : states m2 = {["alice" := mkUserState (2 ^ 31) (2 ^ 31) true "2024-01-01"]}.
Proof. vm_compute. reflexivity. Qed.

Lemma pending2 : pending_ok m2.
Proof.
  intros u x. rewrite states2, lookup_singleton_Some. intros [<- <-] _. split_and!; [discriminate|reflexivity|].
  vm_compute. split; discriminate.
Qed.
End MemRedis.

Section ServiceWitnesses.
Import Demo MemRedis.

Lemma flushPending_conserves_witness :
  exists s' st' err, flushPending range t0 s2 = Ret (s', err) /\ sv_persister s' = Some st' /\
    2 ^ 31 <= counted st' (sv_manager s') "alice" "2024-01-01".
Proof.
  destruct (flushPending_conserves grow range s2 ∅ t0 reach2 pending2 eq_refl)
    as (s' & st' & err & again & E & Ep & _ & Hsub & _ & _ & H).
  exists s', st', err. split; [exact E|]. split; [exact Ep|]. rewrite H by reflexivity.
  assert (Hc : (ConsumePendingDeltas (sv_manager s2)).2 = [mkPendingDelta "alice" "2024-01-01" (2 ^ 31)]) by (vm_compute; reflexivity).
  rewrite Hc in Hsub. apply sublist_cons_r in Hsub as [Hsub|(l & -> & Hsub)]; apply sublist_nil_r in Hsub as ->; vm_compute; discriminate.
Defined.

Lemma handlePeriodResets_spec_witness :
  exists s' err, handlePeriodResets (t0 + day) ["alice"] s2 = Ret (s', err).
Proof.
  destruct (handlePeriodResets_spec grow s2 ∅ (t0 + day) ["alice"] reach2 names2 eq_refl)
    as (m' & rs & s' & st' & err & _ & E & _).
  - intros u x. unfold s2. cbn [sv_manager]. rewrite states2, lookup_singleton_Some. intros [<- <-]. reflexivity.
  - exists s', err. exact E.
Defined.

Lemma applyDynamic_spec_witness :
  exists s' err, applyDynamic t0 (mkConfigRow "bob" 0 0 None (F64 1 0) "daily" "" 0 false) s2 = Ret (s', err) /\ err = None.
Proof.
  destruct (applyDynamic_spec grow s2 ∅ t0 (mkConfigRow "bob" 0 0 None (F64 1 0) "daily" "" 0 false) reach2 eq_refl)
    as (s' & err & E & H); [discriminate|]. exists s', err. split; [exact E|].
  assert (newQuotaConfig (F64 1 0) "daily" "" 0 None = Ok (Some alice_config)) as Hc by (vm_compute; reflexivity).
  cbn [cr_QuotaGB cr_Period cr_PeriodStart cr_PeriodDays] in H. rewrite Hc in H. cbn [f64_le0] in H. apply H.
Defined.

Lemma redis_records_independent_witness :
  userFromKey "q" (key "q" "a:b" "2024-01-01") "2024-01-01" = "a:b".
Proof.
  apply (redis_records_independent (R := client) "q" "a:b" "2024-01-01" "a" "2024-01-01" 5 ∅); reflexivity.
Defined.
End ServiceWitnesses.
