(* ===== verification/SpeedConfig.v ===== *)
(** * Speed limiter configuration and schedules

    The configuration half of [service/speedlimiter/manager.go]: the immutable
    [configSnapshot], the resolution of a user's speed over default, group and per-user
    values, the schedules and their textual form. *)

From S2P Require Import Prelude GoStrings GoTime.

Local Open Scope string_scope.
Local Open Scope list_scope.
Local Open Scope Z_scope.

(** ** Data *)

Record SpeedLimiterDefault := mkSpeedLimiterDefault {
  sld_UploadMbps : Z; sld_DownloadMbps : Z; sld_PerClient : bool; sld_ClientTTLMinutes : Z;
}.
Record SpeedLimiterGroup := mkSpeedLimiterGroup {
  slg_Name : string; slg_UploadMbps : Z; slg_DownloadMbps : Z; slg_PerClient : option bool;
}.
Record SpeedLimiterUser := mkSpeedLimiterUser {
  slu_Name : string; slu_Group : string; slu_UploadMbps : Z; slu_DownloadMbps : Z; slu_PerClient : option bool;
}.
Record SpeedLimiterSchedule := mkSpeedLimiterSchedule {
  sls_TimeRange : string; sls_UploadMbps : Z; sls_DownloadMbps : Z; sls_Groups : list string;
}.
Record SpeedLimiterServiceOptions := mkSpeedLimiterServiceOptions {
  slo_Default : option SpeedLimiterDefault;
  slo_Groups : list SpeedLimiterGroup;
  slo_Users : list SpeedLimiterUser;
  slo_Schedules : list SpeedLimiterSchedule;
}.

Record UserSchedule := mkUserSchedule { usch_TimeRange : string; usch_UploadMbps : Z; usch_DownloadMbps : Z }.

Record speedConfig := mkSpeedConfig { sc_UploadMbps : Z; sc_DownloadMbps : Z; sc_PerClient : bool }.
Definition zeroSpeedConfig : speedConfig := mkSpeedConfig 0 0 false.

Record scheduleEntry := mkScheduleEntry {
  se_startHour : Z; se_startMin : Z; se_endHour : Z; se_endMin : Z;
  se_uploadMbps : Z; se_downloadMbps : Z;
  se_groups : gset string;
}.

Record configSnapshot := mkConfigSnapshot {
  cs_defaultConfig : option speedConfig;
  cs_groups : gmap string speedConfig;
  cs_userGroups : gmap string string;
  cs_userOverrides : gmap string speedConfig;
  cs_userRawConfig : gmap string SpeedLimiterUser;
  cs_schedules : list scheduleEntry;
  cs_userSchedules : gmap string (list scheduleEntry);
  cs_clientTTL : Z;
}.

Definition clientLimiterKeySep : ascii := "|"%char.
Definition defaultClientTTLMinutes : Z := 10.

(** ** Resolution *)

(** [if x > 0 { base = x }]. *)
Definition pos_or (x base : Z) : Z := if 0 <? x then x else base.

Definition resolveConfig (s : configSnapshot) (userName : string) : option speedConfig :=
  let base := cs_defaultConfig s in
  let base :=
    match cs_userGroups s !! userName with
    | Some groupName =>
        match cs_groups s !! groupName with
        | Some groupCfg =>
            let b := default zeroSpeedConfig base in
            Some (mkSpeedConfig (pos_or (sc_UploadMbps groupCfg) (sc_UploadMbps b))
                    (pos_or (sc_DownloadMbps groupCfg) (sc_DownloadMbps b)) (sc_PerClient groupCfg))
        | None => base
        end
    | None => base
    end in
  let base :=
    match cs_userOverrides s !! userName with
    | Some override =>
        let b := default zeroSpeedConfig base in
        Some (mkSpeedConfig (pos_or (sc_UploadMbps override) (sc_UploadMbps b))
                (pos_or (sc_DownloadMbps override) (sc_DownloadMbps b)) (sc_PerClient b))
    | None => base
    end in
  match cs_userRawConfig s !! userName with
  | Some raw =>
      match slu_PerClient raw with
      | Some perClient =>
          let b := default zeroSpeedConfig base in
          Some (mkSpeedConfig (sc_UploadMbps b) (sc_DownloadMbps b) perClient)
      | None => base
      end
  | None => base
  end.

Definition hasFixedUserUploadOverride (s : configSnapshot) (userName : string) : bool :=
  match cs_userRawConfig s !! userName with Some raw => 0 <? slu_UploadMbps raw | None => false end.
Definition hasFixedUserDownloadOverride (s : configSnapshot) (userName : string) : bool :=
  match cs_userRawConfig s !! userName with Some raw => 0 <? slu_DownloadMbps raw | None => false end.

Definition matchesTime (e : scheduleEntry) (hour min : Z) : bool :=
  let now := hour * 60 + min in
  let start := se_startHour e * 60 + se_startMin e in
  let end_ := se_endHour e * 60 + se_endMin e in
  if start <=? end_ then (start <=? now) && (now <? end_)
  else (start <=? now) || (now <? end_).

(** The last entry of a list that passes a test: [active] after the loop. *)
Definition last_match (p : scheduleEntry -> bool) (l : list scheduleEntry) : option scheduleEntry :=
  fold_left (fun active e => if p e then Some e else active) l None.

Section Clock.
(** The hour and the minute of a Unix time in the local time zone. *)
Context (local_clock : Z -> Z * Z).

Definition activeGlobalSchedule (s : configSnapshot) (userName : string) (now : Z) : option scheduleEntry :=
  let '(hour, min) := local_clock (Unix now) in
  last_match (fun schedule =>
    matchesTime schedule hour min &&
    (if decide (se_groups schedule = ∅) then true
     else match cs_userGroups s !! userName with
          | Some groupName => bool_decide (groupName ∈ se_groups schedule)
          | None => false
          end)) (cs_schedules s).

Definition activeUserSchedule (s : configSnapshot) (userName : string) (now : Z) : option scheduleEntry :=
  let '(hour, min) := local_clock (Unix now) in
  last_match (fun schedule => matchesTime schedule hour min) (default [] (cs_userSchedules s !! userName)).

(** A schedule over a resolved speed. *)
Definition applySchedule (s : configSnapshot) (userName : string) (active : option scheduleEntry)
    (base : speedConfig) : speedConfig :=
  match active with
  | None => base
  | Some e =>
      mkSpeedConfig
        (if negb (hasFixedUserUploadOverride s userName) && (0 <? se_uploadMbps e) then se_uploadMbps e
         else sc_UploadMbps base)
        (if negb (hasFixedUserDownloadOverride s userName) && (0 <? se_downloadMbps e) then se_downloadMbps e
         else sc_DownloadMbps base)
        (sc_PerClient base)
  end.

Definition effectiveSpeed (s : configSnapshot) (userName : string) (now : Z) : option speedConfig :=
  let base :=
    match resolveConfig s userName with
    | Some base => Some base
    | None => match activeUserSchedule s userName now with Some _ => Some zeroSpeedConfig | None => None end
    end in
  match base with
  | None => None
  | Some base =>
      let base := applySchedule s userName (activeGlobalSchedule s userName now) base in
      Some (applySchedule s userName (activeUserSchedule s userName now) base)
  end.
End Clock.

(** ** The textual form of schedules *)

Section Parsing.
Context `{EX : Exceptions}.

Definition parseTime (s : string) : result error (Z * Z) :=
  let s := trim_space s in
  match cut ":"%char s with
  | None => Err (Errorf "expected HH:MM format")
  | Some (h, m) =>
      match atoi h with
      | Some hour =>
          if (hour <? 0) || (23 <? hour) then Err (Errorf ("invalid hour " +:+ Quote h))
          else match atoi m with
               | Some min =>
                   if (min <? 0) || (59 <? min) then Err (Errorf ("invalid minute " +:+ Quote m))
                   else Ok (hour, min)
               | None => Err (Errorf ("invalid minute " +:+ Quote m))
               end
      | None => Err (Errorf ("invalid hour " +:+ Quote h))
      end
  end.

(** The range [start-end] both parsers read. *)
Definition parseRange (timeRange : string) : result error (Z * Z * (Z * Z)) :=
  match cut "-"%char timeRange with
  | None => Err (Errorf ("invalid time_range format " +:+ Quote timeRange +:+ ", expected HH:MM-HH:MM"))
  | Some (a, b) =>
      match parseTime a with
      | Err err => Err (Errorf ("invalid time_range start " +:+ Quote a +:+ ": " +:+ Error err))
      | Ok start =>
          match parseTime b with
          | Err err => Err (Errorf ("invalid time_range end " +:+ Quote b +:+ ": " +:+ Error err))
          | Ok end_ => Ok (start, end_)
          end
      end
  end.

Definition parseSchedule (s : SpeedLimiterSchedule) : result error scheduleEntry :=
  match parseRange (sls_TimeRange s) with
  | Err err => Err err
  | Ok ((sh, sm), (eh, em)) =>
      Ok (mkScheduleEntry sh sm eh em (sls_UploadMbps s) (sls_DownloadMbps s) (list_to_set (sls_Groups s)))
  end.

Definition parseUserSchedule (s : UserSchedule) : result error scheduleEntry :=
  match parseRange (usch_TimeRange s) with
  | Err err => Err err
  | Ok ((sh, sm), (eh, em)) =>
      Ok (mkScheduleEntry sh sm eh em (usch_UploadMbps s) (usch_DownloadMbps s) ∅)
  end.

Definition toUserSchedule (e : scheduleEntry) : UserSchedule :=
  mkUserSchedule
    (pad_int 2 (se_startHour e) +:+ ":" +:+ pad_int 2 (se_startMin e) +:+ "-" +:+
     pad_int 2 (se_endHour e) +:+ ":" +:+ pad_int 2 (se_endMin e))
    (se_uploadMbps e) (se_downloadMbps e).

(** ** Lemmas *)

(** A schedule whose times are on the clock. *)
Definition schedule_valid (e : scheduleEntry) : Prop :=
  0 <= se_startHour e < 24 /\ 0 <= se_startMin e < 60 /\ 0 <= se_endHour e < 24 /\ 0 <= se_endMin e < 60.

Lemma parseTime_range s h m : parseTime s = Ok (h, m) -> 0 <= h < 24 /\ 0 <= m < 60.
Proof.
  unfold parseTime. destruct (cut _ _) as [[a b]|]; [|done]. destruct (atoi a) as [x|]; [|done].
  destruct (Z.ltb_spec x 0); [done|]. destruct (Z.ltb_spec 23 x); [done|]. cbn [orb].
  destruct (atoi b) as [y|]; [|done]. destruct (Z.ltb_spec y 0); [done|]. destruct (Z.ltb_spec 59 y); [done|].
  cbn [orb]. intros [= <- <-]. lia.
Qed.

(** The two digits of a time are read back. *)
Lemma atoi_pad2 n : 0 <= n < 100 -> atoi (pad_int 2 n) = Some n.
Proof.
  intros H. rewrite pad_int_2 by done.
  destruct (Z_ascii_digit (n / 10)) as [D1 V1]; [Z.to_euclidean_division_equations; lia|].
  destruct (Z_ascii_digit (n mod 10)) as [D2 V2]; [Z.to_euclidean_division_equations; lia|].
  unfold atoi. destruct (Ascii.eqb_spec (digit_char (n / 10)) "-"%char) as [E|]; [rewrite E in D1; done|].
  destruct (Ascii.eqb_spec (digit_char (n / 10)) "+"%char) as [E|]; [rewrite E in D1; done|].
  cbn [digits_val]. rewrite D1, D2, V1, V2.
  replace ((0 * 10 + n / 10) * 10 + n mod 10) with n by (pose proof (Z.div_mod n 10); lia).
  rewrite (proj2 (Z.leb_le _ _)), (proj2 (Z.leb_le _ _)); unfold min_int64, max_int64; (done || lia).
Qed.

(** A two-digit number holds no separator. *)
Lemma pad2_no_char n c : 0 <= n < 100 -> is_digit c = false -> has_char c (pad_int 2 n) = false.
Proof.
  intros H Hc. rewrite pad_int_2 by done. cbn.
  assert (forall d, 0 <= d < 10 -> Ascii.eqb (digit_char d) c = false) as Hd.
  { intros d Hd. apply Ascii.eqb_neq. intros <-. rewrite (proj1 (Z_ascii_digit d Hd)) in Hc. done. }
  rewrite !Hd by (Z.to_euclidean_division_equations; lia). done.
Qed.

(** Nothing that starts with a digit is white space, forwards or backwards. *)
Lemma strip_digit a s fuel : is_digit a = true ->
  strip spaces fuel (String a s) = String a s /\ strip (map str_rev spaces) fuel (String a s) = String a s.
Proof.
  intros H. assert (strip_one spaces (String a s) = None /\ strip_one (map str_rev spaces) (String a s) = None) as [E1 E2].
  { destruct a as [[] [] [] [] [] [] [] []]; try discriminate H; split; reflexivity. }
  destruct fuel; cbn [strip]; rewrite ?E1, ?E2; done.
Qed.

Lemma trim_space_time a b c d :
  is_digit a = true -> is_digit d = true ->
  trim_space (String a (String b (String ":" (String c (String d ""))))) = String a (String b (String ":" (String c (String d "")))).
Proof.
  intros Ha Hd. unfold trim_space. rewrite (proj1 (strip_digit a _ _ Ha)).
  change (str_rev (String a (String b (String ":" (String c (String d "")))))) with
    (String d (String c (String ":" (String b (String a ""))))).
  by rewrite (proj2 (strip_digit d _ _ Hd)).
Qed.

Lemma parseTime_format h m : 0 <= h < 24 -> 0 <= m < 60 ->
  parseTime (pad_int 2 h +:+ ":" +:+ pad_int 2 m) = Ok (h, m).
Proof.
  intros Hh Hm. unfold parseTime.
  assert (trim_space (pad_int 2 h +:+ ":" +:+ pad_int 2 m) = pad_int 2 h +:+ String ":" (pad_int 2 m)) as ->.
  { rewrite !pad_int_2 by lia. autorewrite with sb_str. apply trim_space_time;
      apply Z_ascii_digit; Z.to_euclidean_division_equations; lia. }
  rewrite cut_app.
  - rewrite !atoi_pad2 by lia. destruct (Z.ltb_spec h 0), (Z.ltb_spec 23 h), (Z.ltb_spec m 0), (Z.ltb_spec 59 m); lia || done.
  - apply pad2_no_char; [lia|done].
Qed.
End Parsing.
