(* ===== verification/SpeedLimiter.v ===== *)
(** * The speed limiter

    [LimiterManager] of [service/speedlimiter/manager.go], the throttled connections of
    [conn.go] and the service of [service.go].  The token buckets come from
    [golang.org/x/time/rate], a parameter; they live in a heap, since a connection keeps
    the bucket it was set up with after the manager has dropped it. *)

From S2P Require Import Prelude GoStrings GoTime SpeedConfig DynamicConfig.

Local Open Scope string_scope.
Local Open Scope list_scope.
Local Open Scope Z_scope.

(** ** Token buckets *)

(** [rate.Limiter]: construction, the two setters, the burst and [WaitN] under the
    context of a connection. *)
Class RateLib `{EX : Exceptions} := {
  Limiter : Type;
  rate_Inf : float64;
  rate_NewLimiter : float64 -> Z -> Limiter;
  SetLimit : float64 -> Limiter -> Limiter;
  SetBurst : Z -> Limiter -> Limiter;
  Limit : Limiter -> float64;
  Burst : Limiter -> Z;
  WaitN : Z -> Limiter -> Limiter * option error;
}.

(** The documented accessors. *)
Class RateLaws `(RL : RateLib) := {
  Limit_New l b : Limit (rate_NewLimiter l b) = l;
  Burst_New l b : Burst (rate_NewLimiter l b) = b;
  Limit_SetLimit l x : Limit (SetLimit l x) = l;
  Burst_SetLimit l x : Burst (SetLimit l x) = Burst x;
  Limit_SetBurst b x : Limit (SetBurst b x) = Limit x;
  Burst_SetBurst b x : Burst (SetBurst b x) = b;
  Burst_WaitN n x : Burst (WaitN n x).1 = Burst x;
  Limit_WaitN n x : Limit (WaitN n x).1 = Limit x;
}.

Abbreviation limiterLoc := nat (only parsing).

Definition MbpsToBps : Z := 125000.

Section SpeedLimiter.
Context `{RL : RateLib}.

(** The rate and the burst of a speed: [float64(mbps) * float64(MbpsToBps)] and its
    integer part, at least one. *)
Definition bps (mbps : Z) : float64 := f64_mul (f64_of_int mbps) (f64_of_int MbpsToBps).
Definition burst_of (mbps : Z) : Z :=
  let burst := f64_to_int (bps mbps) in if burst <=? 0 then 1 else burst.

Definition NewLimiter (mbps : Z) : option Limiter :=
  if mbps <=? 0 then None else Some (rate_NewLimiter (bps mbps) (burst_of mbps)).

Definition SetLimiterRate (mbps : Z) (x : Limiter) : Limiter := SetBurst (burst_of mbps) (SetLimit (bps mbps) x).

(** ** State *)

Record UserLimiter := mkUserLimiter {
  ul_Upload : option limiterLoc;
  ul_Download : option limiterLoc;
  ul_lastActive : Z;
}.

Record LimiterManager := mkLimiterManager {
  lm_config : configSnapshot;
  lm_limiters : gmap string UserLimiter;
  lm_lastCheckTime : Z;
  lm_hasChecked : bool;
  lm_heap : gmap limiterLoc Limiter;
}.

Definition set_config (c : configSnapshot) (m : LimiterManager) : LimiterManager :=
  mkLimiterManager c (lm_limiters m) (lm_lastCheckTime m) (lm_hasChecked m) (lm_heap m).
Definition set_limiters f (m : LimiterManager) : LimiterManager :=
  mkLimiterManager (lm_config m) (f (lm_limiters m)) (lm_lastCheckTime m) (lm_hasChecked m) (lm_heap m).
Definition set_heap f (m : LimiterManager) : LimiterManager :=
  mkLimiterManager (lm_config m) (lm_limiters m) (lm_lastCheckTime m) (lm_hasChecked m) (f (lm_heap m)).
Definition set_checked (t : Z) (m : LimiterManager) : LimiterManager :=
  mkLimiterManager (lm_config m) (lm_limiters m) t true (lm_heap m).

(** Storing the result of [NewLimiter]: a fresh address, or nil. *)
Definition alloc (x : option Limiter) (m : LimiterManager) : option limiterLoc * LimiterManager :=
  match x with
  | None => (None, m)
  | Some x => let l := fresh (dom (lm_heap m)) in (Some l, set_heap <[l := x]> m)
  end.

Definition neutralizeLimiter (l : option limiterLoc) (m : LimiterManager) : LimiterManager :=
  match l with
  | None => m
  | Some l => set_heap (alter (SetLimit rate_Inf) l) m
  end.

(** [reconcileLimiterDirection]: the new value of the pointer. *)
Definition reconcileLimiterDirection (l : option limiterLoc) (mbps : Z) (m : LimiterManager)
    : option limiterLoc * LimiterManager :=
  if 0 <? mbps then
    match l with
    | None => alloc (NewLimiter mbps) m
    | Some l => (Some l, set_heap (alter (SetLimiterRate mbps) l) m)
    end
  else (None, neutralizeLimiter l m).

Definition extractUserName (key : string) : string :=
  match cut clientLimiterKeySep key with Some (name, _) => name | None => key end.

(** ** Construction *)

Fixpoint newGroups (groups : list SpeedLimiterGroup) (acc : gmap string speedConfig)
    : result error (gmap string speedConfig) :=
  match groups with
  | [] => Ok acc
  | g :: rest =>
      if decide (slg_Name g = "") then Err (Errorf "speed-limiter group missing name")
      else newGroups rest
        (<[slg_Name g := mkSpeedConfig (slg_UploadMbps g) (slg_DownloadMbps g) (default false (slg_PerClient g))]> acc)
  end.

(** What a user entry changes in a snapshot. *)
Definition putUser (u : SpeedLimiterUser) (s : configSnapshot) : configSnapshot :=
  mkConfigSnapshot (cs_defaultConfig s) (cs_groups s)
    (if decide (slu_Group u = "") then cs_userGroups s else <[slu_Name u := slu_Group u]> (cs_userGroups s))
    (if (0 <? slu_UploadMbps u) || (0 <? slu_DownloadMbps u)
     then <[slu_Name u := mkSpeedConfig (slu_UploadMbps u) (slu_DownloadMbps u) false]> (cs_userOverrides s)
     else cs_userOverrides s)
    (<[slu_Name u := u]> (cs_userRawConfig s))
    (cs_schedules s) (cs_userSchedules s) (cs_clientTTL s).

Fixpoint newUsers (users : list SpeedLimiterUser) (s : configSnapshot) : result error configSnapshot :=
  match users with
  | [] => Ok s
  | u :: rest =>
      if decide (slu_Name u = "") then Err (Errorf "speed-limiter user missing name")
      else if decide (slu_Group u <> "" /\ cs_groups s !! slu_Group u = None) then
        Err (Errorf ("speed-limiter user " +:+ Quote (slu_Name u) +:+ " references unknown group " +:+ Quote (slu_Group u)))
      else newUsers rest (putUser u s)
  end.

Fixpoint newSchedules (l : list SpeedLimiterSchedule) (acc : list scheduleEntry) : result error (list scheduleEntry) :=
  match l with
  | [] => Ok acc
  | s :: rest =>
      match parseSchedule s with
      | Err err => Err err
      | Ok entry => newSchedules rest (acc ++ [entry])
      end
  end.

Definition NewLimiterManager (options : SpeedLimiterServiceOptions) : result error LimiterManager :=
  let ttl :=
    match slo_Default options with
    | Some d => if 0 <? sld_ClientTTLMinutes d then wrap64 (sld_ClientTTLMinutes d * minute) else 0
    | None => 0
    end in
  let ttl := if ttl =? 0 then defaultClientTTLMinutes * minute else ttl in
  let def := (fun d => mkSpeedConfig (sld_UploadMbps d) (sld_DownloadMbps d) (sld_PerClient d)) <$> slo_Default options in
  match newGroups (slo_Groups options) ∅ with
  | Err err => Err err
  | Ok groups =>
      match newUsers (slo_Users options) (mkConfigSnapshot def groups ∅ ∅ ∅ [] ∅ ttl) with
      | Err err => Err err
      | Ok snap =>
          match newSchedules (slo_Schedules options) [] with
          | Err err => Err err
          | Ok schedules =>
              Ok (mkLimiterManager
                    (mkConfigSnapshot (cs_defaultConfig snap) (cs_groups snap) (cs_userGroups snap)
                       (cs_userOverrides snap) (cs_userRawConfig snap) schedules (cs_userSchedules snap) (cs_clientTTL snap))
                    ∅ 0 false ∅)
          end
      end
  end.

(** ** Lookup *)

Context (local_clock : Z -> Z * Z).

(** The configuration in force: with the schedules once they have been checked. *)
Definition currentConfig (m : LimiterManager) (userName : string) : option speedConfig :=
  if lm_hasChecked m then effectiveSpeed local_clock (lm_config m) userName (lm_lastCheckTime m * second)
  else resolveConfig (lm_config m) userName.

(** The key of a limiter; an address is given by its text, none when it is not valid. *)
Definition limiterKey (cfg : speedConfig) (userName : string) (sourceAddr : option string) : string :=
  match sourceAddr with
  | Some addr => if sc_PerClient cfg then userName +:+ String clientLimiterKeySep addr else userName
  | None => userName
  end.

Definition GetOrCreateLimiterForClient (userName : string) (sourceAddr : option string) (now : Z)
    (m : LimiterManager) : LimiterManager * option UserLimiter :=
  match currentConfig m userName with
  | None => (m, None)
  | Some cfg =>
      let key := limiterKey cfg userName sourceAddr in
      match lm_limiters m !! key with
      | Some ul =>
          let ul := mkUserLimiter (ul_Upload ul) (ul_Download ul) (Unix now) in
          (set_limiters <[key := ul]> m, Some ul)
      | None =>
          let (up, m1) := alloc (NewLimiter (sc_UploadMbps cfg)) m in
          let (down, m2) := alloc (NewLimiter (sc_DownloadMbps cfg)) m1 in
          match up, down with
          | None, None => (m, None)
          | _, _ =>
              let ul := mkUserLimiter up down (Unix now) in
              (set_limiters <[key := ul]> m2, Some ul)
          end
      end
  end.

Definition GetOrCreateLimiter (userName : string) (now : Z) (m : LimiterManager) : LimiterManager * option UserLimiter :=
  GetOrCreateLimiterForClient userName None now m.

Definition CurrentSpeed (m : LimiterManager) (userName : string) : option (Z * Z) :=
  (fun cfg => (sc_UploadMbps cfg, sc_DownloadMbps cfg)) <$> currentConfig m userName.

(** ** Updates *)

(** The entry of a key after an update: gone when no direction is limited. *)
Definition putLimiter (key : string) (up down : option limiterLoc) (lastActive : Z)
    : gmap string UserLimiter -> gmap string UserLimiter :=
  match up, down with
  | None, None => delete key
  | _, _ => <[key := mkUserLimiter up down lastActive]>
  end.

(** One visit of [updateLimiterRates]. *)
Definition updateOne (now : Z) (m : LimiterManager) (key : string) : LimiterManager :=
  match lm_limiters m !! key with
  | None => m
  | Some limiter =>
      match effectiveSpeed local_clock (lm_config m) (extractUserName key) now with
      | None =>
          set_limiters (delete key)
            (neutralizeLimiter (ul_Download limiter) (neutralizeLimiter (ul_Upload limiter) m))
      | Some cfg =>
          let (up, m) := reconcileLimiterDirection (ul_Upload limiter) (sc_UploadMbps cfg) m in
          let (down, m) := reconcileLimiterDirection (ul_Download limiter) (sc_DownloadMbps cfg) m in
          set_limiters (putLimiter key up down (ul_lastActive limiter)) m
      end
  end.

(** The orders in which [Range] may visit the limiters. *)
Definition keys_order (m : LimiterManager) (keys : list string) : Prop :=
  NoDup keys /\ forall k, k ∈ keys <-> is_Some (lm_limiters m !! k).

Definition updateLimiterRates (now : Z) (keys : list string) (m : LimiterManager) : LimiterManager :=
  fold_left (updateOne now) keys m.

Definition applyRuntimeState (now : Z) (keys : list string) (m : LimiterManager) : LimiterManager :=
  updateLimiterRates now keys (set_checked (Unix now) m).

(** One visit of [cleanExpiredClientLimiters]. *)
Definition expired (now : Z) (m : LimiterManager) (key : string) (limiter : UserLimiter) : bool :=
  has_char clientLimiterKeySep key && (0 <? ul_lastActive limiter) &&
  (Z.quot (cs_clientTTL (lm_config m)) second <? Unix now - ul_lastActive limiter).

Definition cleanOne (now : Z) (m : LimiterManager) (key : string) : LimiterManager :=
  match lm_limiters m !! key with
  | None => m
  | Some limiter => if expired now m key limiter then set_limiters (delete key) m else m
  end.

Definition cleanExpiredClientLimiters (now : Z) (keys : list string) (m : LimiterManager) : LimiterManager :=
  fold_left (cleanOne now) keys m.

(** The second [Range] visits what the first has left; the orders are given apart. *)
Definition CheckSchedules (now : Z) (keys keys' : list string) (m : LimiterManager) : LimiterManager :=
  cleanExpiredClientLimiters now keys' (updateLimiterRates now keys (set_checked (Unix now) m)).

(** The snapshot [ApplyConfig] stores. *)
Definition applied (user : SpeedLimiterUser) (snap : configSnapshot) : configSnapshot :=
  let name := slu_Name user in
  mkConfigSnapshot (cs_defaultConfig snap) (cs_groups snap)
    (if decide (slu_Group user = "") then delete name (cs_userGroups snap)
     else <[name := slu_Group user]> (cs_userGroups snap))
    (if (0 <? slu_UploadMbps user) || (0 <? slu_DownloadMbps user)
     then <[name := mkSpeedConfig (slu_UploadMbps user) (slu_DownloadMbps user) false]> (cs_userOverrides snap)
     else delete name (cs_userOverrides snap))
    (<[name := user]> (cs_userRawConfig snap))
    (cs_schedules snap) (cs_userSchedules snap) (cs_clientTTL snap).

Definition ApplyConfig (user : SpeedLimiterUser) (now : Z) (keys : list string) (m : LimiterManager)
    : LimiterManager * option error :=
  if decide (slu_Name user = "") then (m, Some (Errorf "speed-limiter user missing name"))
  else if decide (slu_Group user <> "" /\ cs_groups (lm_config m) !! slu_Group user = None) then
    (m, Some (Errorf ("speed-limiter user " +:+ Quote (slu_Name user) +:+ " references unknown group " +:+ Quote (slu_Group user))))
  else if bool_decide (slu_Group user = "") && (slu_UploadMbps user <=? 0) && (slu_DownloadMbps user <=? 0) then
    (m, Some (Errorf ("speed-limiter user " +:+ Quote (slu_Name user) +:+ " missing runtime speed")))
  else (applyRuntimeState now keys (set_config (applied user (lm_config m)) m), None).

(** The snapshot [RemoveConfig] stores; the user's schedules stay. *)
Definition removed (user : string) (snap : configSnapshot) : configSnapshot :=
  mkConfigSnapshot (cs_defaultConfig snap) (cs_groups snap) (delete user (cs_userGroups snap))
    (delete user (cs_userOverrides snap)) (delete user (cs_userRawConfig snap))
    (cs_schedules snap) (cs_userSchedules snap) (cs_clientTTL snap).

(** One visit of the sweep of [RemoveConfig]. *)
Definition removeOne (user : string) (m : LimiterManager) (key : string) : LimiterManager :=
  match lm_limiters m !! key with
  | None => m
  | Some limiter =>
      if bool_decide (key = user) || String.prefix (user +:+ String clientLimiterKeySep "") key then
        set_limiters (delete key)
          (neutralizeLimiter (ul_Download limiter) (neutralizeLimiter (ul_Upload limiter) m))
      else m
  end.

Definition RemoveConfig (user : string) (keys : list string) (m : LimiterManager) : LimiterManager * option error :=
  if decide (user = "") then (m, Some (Errorf "speed-limiter user missing name"))
  else (fold_left (removeOne user) keys (set_config (removed user (lm_config m)) m), None).

Definition GetConfig (m : LimiterManager) (user : string) : option SpeedLimiterUser :=
  cs_userRawConfig (lm_config m) !! user.

Definition setUserSchedules (f : gmap string (list scheduleEntry) -> gmap string (list scheduleEntry))
    (s : configSnapshot) : configSnapshot :=
  mkConfigSnapshot (cs_defaultConfig s) (cs_groups s) (cs_userGroups s) (cs_userOverrides s)
    (cs_userRawConfig s) (cs_schedules s) (f (cs_userSchedules s)) (cs_clientTTL s).

Fixpoint parseAll (l : list UserSchedule) (acc : list scheduleEntry) : result error (list scheduleEntry) :=
  match l with
  | [] => Ok acc
  | s :: rest =>
      match parseUserSchedule s with
      | Err err => Err err
      | Ok entry => parseAll rest (acc ++ [entry])
      end
  end.

Definition ReplaceUserSchedules (user : string) (schedules : list UserSchedule) (now : Z) (keys : list string)
    (m : LimiterManager) : LimiterManager * option error :=
  if decide (user = "") then (m, Some (Errorf "speed-limiter user missing name"))
  else match parseAll schedules [] with
  | Err err => (m, Some err)
  | Ok parsed =>
      let f := match parsed with [] => delete user | _ => <[user := parsed]> end in
      (applyRuntimeState now keys (set_config (setUserSchedules f (lm_config m)) m), None)
  end.

Definition RemoveUserSchedules (user : string) (now : Z) (keys : list string) (m : LimiterManager)
    : LimiterManager * option error :=
  if decide (user = "") then (m, Some (Errorf "speed-limiter user missing name"))
  else (applyRuntimeState now keys (set_config (setUserSchedules (delete user) (lm_config m)) m), None).

Definition GetUserSchedules (m : LimiterManager) (user : string) : option (list UserSchedule) :=
  match cs_userSchedules (lm_config m) !! user with
  | None | Some [] => None
  | Some schedules => Some (map toUserSchedule schedules)
  end.

(** ** Throttled connections *)

(** The chunks [waitN] asks for; each is at least one, so [n] is enough fuel. *)
Fixpoint waitLoop (fuel : nat) (burst n : Z) (x : Limiter) : Limiter * option error :=
  match fuel with
  | O => (x, None)
  | S fuel =>
      if n <=? 0 then (x, None)
      else
        let chunk := if burst <? n then burst else n in
        match WaitN chunk x with
        | (x, Some err) => (x, Some err)
        | (x, None) => waitLoop fuel burst (n - chunk) x
        end
  end.

Definition waitN (n : Z) (x : Limiter) : Limiter * option error :=
  let burst := if Burst x <=? 0 then 1 else Burst x in
  waitLoop (Z.to_nat n) burst n x.

(** [waitN] on the bucket a connection has captured. *)
Definition waitAt (l : option limiterLoc) (n : Z) (m : LimiterManager) : LimiterManager * option error :=
  match l with
  | None => (m, None)
  | Some l =>
      match lm_heap m !! l with
      | None => (m, None)
      | Some x => let (x, err) := waitN n x in (set_heap <[l := x]> m, err)
      end
  end.

(** [ThrottledConn]: the buckets captured at set-up. *)
Record ThrottledConn := mkThrottledConn { tc_upload : option limiterLoc; tc_download : option limiterLoc }.

(** None is the connection as it is. *)
Definition NewThrottledConn (upload download : option limiterLoc) : option ThrottledConn :=
  match upload, download with None, None => None | _, _ => Some (mkThrottledConn upload download) end.

(** [Read]: the wrapped connection reads first, then the upload bucket is charged. *)
Definition tcRead (c : ThrottledConn) (wrapped : Z * option error) (m : LimiterManager)
    : LimiterManager * (Z * option error) :=
  let '(n, err) := wrapped in
  if 0 <? n then
    match waitAt (tc_upload c) n m with
    | (m, Some waitErr) => (m, (n, Some waitErr))
    | (m, None) => (m, (n, err))
    end
  else (m, (n, err)).

(** [Write]: the download bucket is charged first, and its error writes nothing. *)
Definition tcWrite (c : ThrottledConn) (len : Z) (wrapped : Z * option error) (m : LimiterManager)
    : LimiterManager * (Z * option error) :=
  if 0 <? len then
    match waitAt (tc_download c) len m with
    | (m, Some waitErr) => (m, (0, Some waitErr))
    | (m, None) => (m, wrapped)
    end
  else (m, wrapped).

(** ** The service *)

Definition applyDynamic (now : Z) (keys : list string) (row : ConfigRow) (m : LimiterManager)
    : LimiterManager * option error :=
  if (cr_UploadMbps row <=? 0) && (cr_DownloadMbps row <=? 0) then
    if negb (cr_Authoritative row) then (m, None)
    else match GetConfig m (cr_User row) with
         | None => (m, None)
         | Some _ => RemoveConfig (cr_User row) keys m
         end
  else ApplyConfig (mkSpeedLimiterUser (cr_User row) "" (cr_UploadMbps row) (cr_DownloadMbps row) (cr_PerClient row)) now keys m.

(** The receiver handed to the dynamic sources. *)
Definition speedReceiver (now : Z) (keys : LimiterManager -> list string) : Receiver LimiterManager :=
  mkReceiver LimiterManager
    (fun row m => Ret (applyDynamic now (keys m) row m))
    (fun user m => Ret (RemoveConfig user (keys m) m)).

(** [RoutedConnection] and [RoutedPacketConnection]. *)
Definition RoutedConnection (user : string) (source : option string) (now : Z) (m : LimiterManager)
    : LimiterManager * option ThrottledConn :=
  if decide (user = "") then (m, None)
  else match GetOrCreateLimiterForClient user source now m with
       | (m, None) => (m, None)
       | (m, Some ul) => (m, NewThrottledConn (ul_Upload ul) (ul_Download ul))
       end.
End SpeedLimiter.
