(* ===== verification/SpeedInv.v ===== *)
(** * Invariants of the speed limiter

    Ownership of the token buckets, and what an update of the rates does to every
    limiter, whatever the order in which the map is visited. *)

From S2P Require Import Prelude GoStrings GoTime SpeedConfig SpeedLimiter.

Local Open Scope string_scope.
Local Open Scope list_scope.
Local Open Scope Z_scope.

Section SpeedInv.
Context `{RL : RateLib} {RLaws : RateLaws RL}.
Context (local_clock : Z -> Z * Z).

(** ** Ownership *)

(** A bucket of a limiter. *)
Definition bucket (ul : UserLimiter) (l : nat) : Prop := ul_Upload ul = Some l \/ ul_Download ul = Some l.

(** The buckets of the map exist and belong to one limiter and one direction. *)
Record lm_wf (m : LimiterManager) : Prop := {
  wf_heap k ul l : lm_limiters m !! k = Some ul -> bucket ul l -> is_Some (lm_heap m !! l);
  wf_own k k' ul ul' l : lm_limiters m !! k = Some ul -> lm_limiters m !! k' = Some ul' ->
    bucket ul l -> bucket ul' l -> k = k';
  wf_dir k ul l : lm_limiters m !! k = Some ul -> ul_Upload ul = Some l -> ul_Download ul = Some l -> False;
}.

(** A direction of a limiter that runs at a speed: a bucket with its rate and burst, or
    none when the direction is unlimited. *)
Definition runs_at (m : LimiterManager) (l : option nat) (mbps : Z) : Prop :=
  if 0 <? mbps then exists a x, l = Some a /\ lm_heap m !! a = Some x /\ Limit x = bps mbps /\ Burst x = burst_of mbps
  else l = None.

(** A bucket that was let go without a limit. *)
Definition lifted (m : LimiterManager) (l : option nat) : Prop :=
  forall a, l = Some a -> exists x, lm_heap m !! a = Some x /\ Limit x = rate_Inf.

(** A step that only touches the bucket [l] and fresh ones. *)
Record heap_step (l : option nat) (m m' : LimiterManager) : Prop := {
  hs_config : lm_config m' = lm_config m;
  hs_limiters : lm_limiters m' = lm_limiters m;
  hs_checked : lm_hasChecked m' = lm_hasChecked m /\ lm_lastCheckTime m' = lm_lastCheckTime m;
  hs_frame a : is_Some (lm_heap m !! a) -> l <> Some a -> lm_heap m' !! a = lm_heap m !! a;
  hs_mono a : is_Some (lm_heap m !! a) -> is_Some (lm_heap m' !! a);
}.

Lemma neutralize_spec l m :
  (forall a, l = Some a -> is_Some (lm_heap m !! a)) ->
  heap_step l m (neutralizeLimiter l m) /\ lifted (neutralizeLimiter l m) l.
Proof.
  intros Hl. destruct l as [a|]; cbn; [|by split].
  split; [split; try done|].
  - intros b Hb Hne. cbn. apply lookup_alter_ne. congruence.
  - intros b Hb. cbn. by apply lookup_alter_is_Some.
  - intros b [= <-]. destruct (Hl a eq_refl) as [x Hx]. cbn. rewrite lookup_alter_eq, Hx. cbn.
    eexists. split; [done|]. apply Limit_SetLimit.
Qed.

Lemma reconcile_spec l mbps m :
  (forall a, l = Some a -> is_Some (lm_heap m !! a)) ->
  exists l' m', reconcileLimiterDirection l mbps m = (l', m') /\ heap_step l m m' /\ runs_at m' l' mbps /\
    (0 < mbps -> forall a, l = Some a -> l' = Some a) /\ (mbps <= 0 -> lifted m' l) /\
    (forall a, l' = Some a -> is_Some (lm_heap m' !! a) /\ (l = Some a \/ lm_heap m !! a = None)).
Proof.
  intros Hl. unfold reconcileLimiterDirection. unfold runs_at. destruct (Z.ltb_spec 0 mbps) as [Hm|Hm].
  - destruct l as [a|].
    + do 2 eexists. split; [done|]. destruct (Hl a eq_refl) as [x Hx].
      assert (lm_heap (set_heap (alter (SetLimiterRate mbps) a) m) !! a = Some (SetLimiterRate mbps x)) as Hx'.
      { cbn. by rewrite lookup_alter_eq, Hx. }
      split_and!.
      * split; try done; intros b Hb; cbn; [intros Hne; apply lookup_alter_ne; congruence|by apply lookup_alter_is_Some].
      * exists a, (SetLimiterRate mbps x). split_and!; [done|done| |apply Burst_SetBurst].
        unfold SetLimiterRate. by rewrite Limit_SetBurst, Limit_SetLimit.
      * done.
      * lia.
      * intros b [= <-]. rewrite Hx'. split; [by eexists|by left].
    + unfold NewLimiter. rewrite (proj2 (Z.leb_gt _ _)) by lia. cbn [alloc]. set (a := fresh _).
      assert (lm_heap m !! a = None) as Ha by (apply not_elem_of_dom, is_fresh).
      do 2 eexists. split; [done|]. split_and!.
      * split; try done; intros b Hb; cbn.
        -- intros _. apply lookup_insert_ne. intros ->. rewrite Ha in Hb. by destruct Hb.
        -- rewrite lookup_insert. by destruct (decide _).
      * exists a. eexists. split_and!; [done|cbn; by rewrite lookup_insert_eq|apply Limit_New|apply Burst_New].
      * done.
      * lia.
      * intros b [= <-]. cbn. rewrite lookup_insert_eq. split; [by eexists|by right].
  - destruct (neutralize_spec l m Hl) as [Hs Hlf]. do 2 eexists. split; [done|]. split_and!; try done. lia.
Qed.

(** ** One visit *)

(** What the update leaves under a key. *)
Definition updated (now : Z) (snap : configSnapshot) (m' : LimiterManager) (key : string) (ul : UserLimiter) : Prop :=
  match effectiveSpeed local_clock snap (extractUserName key) now with
  | None => lm_limiters m' !! key = None /\ lifted m' (ul_Upload ul) /\ lifted m' (ul_Download ul)
  | Some cfg =>
      (sc_UploadMbps cfg <= 0 -> lifted m' (ul_Upload ul)) /\
      (sc_DownloadMbps cfg <= 0 -> lifted m' (ul_Download ul)) /\
      if (sc_UploadMbps cfg <=? 0) && (sc_DownloadMbps cfg <=? 0) then lm_limiters m' !! key = None
      else exists ul', lm_limiters m' !! key = Some ul' /\ ul_lastActive ul' = ul_lastActive ul /\
        runs_at m' (ul_Upload ul') (sc_UploadMbps cfg) /\ runs_at m' (ul_Download ul') (sc_DownloadMbps cfg) /\
        (forall a, 0 < sc_UploadMbps cfg -> ul_Upload ul = Some a -> ul_Upload ul' = Some a) /\
        (forall a, 0 < sc_DownloadMbps cfg -> ul_Download ul = Some a -> ul_Download ul' = Some a)
  end.

(** A step on the limiter of a key: other limiters and their buckets stay. *)
Record key_step (key : string) (m m' : LimiterManager) : Prop := {
  ks_config : lm_config m' = lm_config m;
  ks_checked : lm_hasChecked m' = lm_hasChecked m /\ lm_lastCheckTime m' = lm_lastCheckTime m;
  ks_limiters k : k <> key -> lm_limiters m' !! k = lm_limiters m !! k;
  ks_frame a : is_Some (lm_heap m !! a) -> (forall ul, lm_limiters m !! key = Some ul -> ~ bucket ul a) ->
    lm_heap m' !! a = lm_heap m !! a;
  ks_mono a : is_Some (lm_heap m !! a) -> is_Some (lm_heap m' !! a);
  ks_own ul' a : lm_limiters m' !! key = Some ul' -> bucket ul' a -> is_Some (lm_heap m' !! a) /\
    ((exists ul, lm_limiters m !! key = Some ul /\ bucket ul a) \/ lm_heap m !! a = None);
  ks_dir ul' a : lm_limiters m' !! key = Some ul' -> ul_Upload ul' = Some a -> ul_Download ul' = Some a -> False;
}.

Lemma key_step_wf key m m' : lm_wf m -> key_step key m m' -> lm_wf m'.
Proof.
  intros W S.
  assert (forall k ul a, lm_limiters m' !! k = Some ul -> bucket ul a ->
    is_Some (lm_heap m' !! a) /\ ((exists ul0, lm_limiters m !! k = Some ul0 /\ bucket ul0 a) \/ (k = key /\ lm_heap m !! a = None))) as H.
  { intros k ul a Hk Hb. destruct (decide (k = key)) as [->|Hne].
    - destruct (ks_own _ _ _ S ul a Hk Hb) as [? [?|?]]; auto.
    - rewrite (ks_limiters _ _ _ S) in Hk by done. split; [|eauto].
      apply (ks_mono _ _ _ S). by apply (wf_heap m W k ul). }
  split.
  - intros k ul l Hk Hb. by apply (H k ul l).
  - intros k k' ul ul' l Hk Hk' Hb Hb'. destruct (H k ul l Hk Hb) as [_ [(u & Hu & Hub)|[-> Hn]]];
      destruct (H k' ul' l Hk' Hb') as [_ [(u' & Hu' & Hub')|[-> Hn']]].
    + by apply (wf_own m W k k' u u' l).
    + destruct (wf_heap m W k u l Hu Hub). congruence.
    + destruct (wf_heap m W k' u' l Hu' Hub'). congruence.
    + done.
  - intros k ul l Hk Hu Hd. destruct (decide (k = key)) as [->|Hne]; [by apply (ks_dir _ _ _ S ul l)|].
    rewrite (ks_limiters _ _ _ S) in Hk by done. by apply (wf_dir m W k ul l).
Qed.

Lemma heap_step_trans_key l1 l2 m m1 m2 key ul f :
  heap_step l1 m m1 -> heap_step l2 m1 m2 -> lm_limiters m !! key = Some ul ->
  (forall a, l1 = Some a -> bucket ul a) -> (forall a, l2 = Some a -> bucket ul a) ->
  (forall k L, k <> key -> f L !! k = L !! k) ->
  (forall ul' a, f (lm_limiters m) !! key = Some ul' -> bucket ul' a -> is_Some (lm_heap m2 !! a) /\
     (bucket ul a \/ lm_heap m !! a = None)) ->
  (forall ul' a, f (lm_limiters m) !! key = Some ul' -> ul_Upload ul' = Some a -> ul_Download ul' = Some a -> False) ->
  key_step key m (set_limiters f m2).
Proof.
  intros S1 S2 Hul H1 H2 Hf Hown Hdir.
  assert (lm_limiters m2 = lm_limiters m) as EL by (rewrite (hs_limiters _ _ _ S2); apply S1).
  split; cbn.
  - rewrite (hs_config _ _ _ S2). apply S1.
  - destruct (hs_checked _ _ _ S1), (hs_checked _ _ _ S2). split; congruence.
  - intros k Hk. rewrite EL. by apply Hf.
  - intros a Ha Hb. rewrite (hs_frame _ _ _ S2), (hs_frame _ _ _ S1); [done|done| | |].
    + intros E. by apply (Hb ul Hul), H1.
    + by apply (hs_mono _ _ _ S1).
    + intros E. by apply (Hb ul Hul), H2.
  - intros a Ha. by apply (hs_mono _ _ _ S2), (hs_mono _ _ _ S1).
  - rewrite EL. intros ul' a Hk Hb. destruct (Hown ul' a Hk Hb) as [? [?|?]]; eauto.
  - rewrite EL. apply Hdir.
Qed.

(** Letting a limiter go. *)
Lemma drop_spec m key ul :
  lm_wf m -> lm_limiters m !! key = Some ul ->
  let m' := set_limiters (delete key) (neutralizeLimiter (ul_Download ul) (neutralizeLimiter (ul_Upload ul) m)) in
  key_step key m m' /\ lm_limiters m' !! key = None /\ lifted m' (ul_Upload ul) /\ lifted m' (ul_Download ul).
Proof.
  intros W Hul m'. destruct (neutralize_spec (ul_Upload ul) m) as [S1 L1].
  { intros a Ha. apply (wf_heap m W key ul a Hul). by left. }
  destruct (neutralize_spec (ul_Download ul) (neutralizeLimiter (ul_Upload ul) m)) as [S2 L2].
  { intros a Ha. apply (hs_mono _ _ _ S1), (wf_heap m W key ul a Hul). by right. }
  assert (lm_limiters m' !! key = None) as Hk.
  { cbn. rewrite (hs_limiters _ _ _ S2), (hs_limiters _ _ _ S1). apply lookup_delete_eq. }
  split_and!.
  - apply (heap_step_trans_key (ul_Upload ul) (ul_Download ul) m (neutralizeLimiter (ul_Upload ul) m) _ key ul); try done.
    + intros a Ha. by left.
    + intros a Ha. by right.
    + intros k L Hne. by apply lookup_delete_ne.
    + intros ul' a. by rewrite lookup_delete_eq.
    + intros ul' a. by rewrite lookup_delete_eq.
  - done.
  - intros a Ha. destruct (L1 a Ha) as (x & Hx & Hlim). exists x. split; [|done]. cbn.
    rewrite (hs_frame _ _ _ S2); [done|by eexists|]. intros E. by apply (wf_dir m W key ul a).
  - done.
Qed.

Lemma runs_at_frame l mbps m m' :
  (forall a, l = Some a -> lm_heap m' !! a = lm_heap m !! a) -> runs_at m l mbps -> runs_at m' l mbps.
Proof.
  unfold runs_at. intros H. destruct (0 <? mbps); [|done].
  intros (a & x & -> & Hx & ?). exists a, x. split; [done|]. by rewrite H.
Qed.

Lemma updateOne_spec now m key ul :
  lm_wf m -> lm_limiters m !! key = Some ul ->
  key_step key m (updateOne local_clock now m key) /\ updated now (lm_config m) (updateOne local_clock now m key) key ul.
Proof.
  intros W Hul. unfold updateOne, updated. rewrite Hul.
  destruct (effectiveSpeed local_clock (lm_config m) (extractUserName key) now) as [cfg|]; [|by apply drop_spec].
  destruct (reconcile_spec (ul_Upload ul) (sc_UploadMbps cfg) m) as (up & m1 & -> & S1 & R1 & K1 & L1 & O1).
  { intros a Ha. apply (wf_heap m W key ul a Hul). by left. }
  destruct (reconcile_spec (ul_Download ul) (sc_DownloadMbps cfg) m1) as (down & m2 & -> & S2 & R2 & K2 & L2 & O2).
  { intros a Ha. apply (hs_mono _ _ _ S1), (wf_heap m W key ul a Hul). by right. }
  assert (forall a, up = Some a -> ul_Download ul <> Some a) as Hsep.
  { intros a Ha E. destruct (O1 a Ha) as [_ [Hu|Hn]]; [by apply (wf_dir m W key ul a)|].
    destruct (wf_heap m W key ul a Hul (or_intror E)). congruence. }
  assert (forall a, up = Some a -> lm_heap m2 !! a = lm_heap m1 !! a) as Hup.
  { intros a Ha. apply (hs_frame _ _ _ S2); [by apply O1|by apply Hsep]. }
  assert (forall f, (forall k L, k <> key -> f L !! k = L !! k) ->
    (f (lm_limiters m) !! key = None \/ f (lm_limiters m) !! key = Some (mkUserLimiter up down (ul_lastActive ul))) ->
    key_step key m (set_limiters f m2)) as HK.
  { intros f Hf Hkey. apply (heap_step_trans_key (ul_Upload ul) (ul_Download ul) m m1 m2 key ul); try done.
    - intros a Ha. by left.
    - intros a Ha. by right.
    - intros ul' a Hk Hb. destruct Hkey as [Hn|Hs]; [congruence|]. rewrite Hs in Hk. injection Hk as <-.
      destruct Hb as [Ha|Ha]; cbn in Ha.
      + destruct (O1 a Ha) as [Hi Ho]. split; [by apply (hs_mono _ _ _ S2)|]. destruct Ho; [left; by left|by right].
      + destruct (O2 a Ha) as [Hi Ho]. split; [done|]. destruct Ho as [Ho|Ho]; [left; by right|].
        destruct (lm_heap m !! a) eqn:E; [|by right].
        destruct (hs_mono _ _ _ S1 a) as [? ?]; [by eexists|congruence].
    - intros ul' a Hk Hu Hd. destruct Hkey as [Hn|Hs]; [congruence|]. rewrite Hs in Hk. injection Hk as <-.
      cbn in Hu, Hd. destruct (O2 a Hd) as [_ [E|E]]; [by apply (Hsep a)|]. destruct (O1 a Hu) as [[? ?] _]. congruence. }
  assert (forall f, (sc_UploadMbps cfg <= 0 -> lifted (set_limiters f m2) (ul_Upload ul)) /\
    (sc_DownloadMbps cfg <= 0 -> lifted (set_limiters f m2) (ul_Download ul))) as HL.
  { intros f. split; [|done]. intros Hm a Ha. destruct (L1 Hm a Ha) as (x & Hx & Hlim). exists x. split; [|done]. cbn.
    rewrite (hs_frame _ _ _ S2); [done|by eexists|]. intros E. by apply (wf_dir m W key ul a). }
  set (f := putLimiter key up down (ul_lastActive ul)).
  assert ((up = None /\ down = None /\ f (lm_limiters m2) !! key = None) \/
    ((up <> None \/ down <> None) /\ f (lm_limiters m2) !! key = Some (mkUserLimiter up down (ul_lastActive ul)))) as Hf.
  { unfold f, putLimiter. destruct up, down; [right|right|right|left]; rewrite ?lookup_insert_eq, ?lookup_delete_eq; auto. }
  assert (lm_limiters m2 = lm_limiters m) as EL by (rewrite (hs_limiters _ _ _ S2); apply S1).
  split; [apply HK|].
  { intros k L Hne. unfold f, putLimiter. destruct up, down; rewrite ?lookup_insert_ne, ?lookup_delete_ne by done; done. }
  { rewrite <-EL. destruct Hf as [(_ & _ & Hf)|[_ Hf]]; auto. }
  split_and!; [apply HL..|]. cbn [lm_limiters set_limiters].
  destruct (Z.leb_spec (sc_UploadMbps cfg) 0) as [Hu|Hu]; destruct (Z.leb_spec (sc_DownloadMbps cfg) 0) as [Hd|Hd]; cbn [andb].
  { unfold runs_at in R1, R2. rewrite (proj2 (Z.ltb_ge _ _) Hu) in R1. rewrite (proj2 (Z.ltb_ge _ _) Hd) in R2. destruct Hf as [(_ & _ & Hf)|[[?|?] _]]; done. }
  all: destruct Hf as [(Hn1 & Hn2 & _)|[_ Hf]];
    [exfalso; unfold runs_at in R1, R2; rewrite ?(proj2 (Z.ltb_lt _ _) Hu) in R1; rewrite ?(proj2 (Z.ltb_lt _ _) Hd) in R2;
     destruct R1 as (? & ? & ? & _) + destruct R2 as (? & ? & ? & _); congruence|].
  all: eexists; split; [exact Hf|]; cbn [ul_Upload ul_Download ul_lastActive]; split_and!; [done| |exact R2| |];
    [by eapply runs_at_frame; [exact Hup|exact R1]|intros a Hp Ha; by apply K1|intros a Hp Ha; by apply K2].
Qed.

(** ** All visits *)

(** Under a key, a later state looks like an earlier one: same entry, same buckets. *)
Definition same_at (key : string) (ul : UserLimiter) (m1 m2 : LimiterManager) : Prop :=
  lm_limiters m2 !! key = lm_limiters m1 !! key /\
  forall a, bucket ul a \/ (exists ul1, lm_limiters m1 !! key = Some ul1 /\ bucket ul1 a) -> lm_heap m2 !! a = lm_heap m1 !! a.

Lemma visit_fold (step : LimiterManager -> string -> LimiterManager) (snap : configSnapshot)
    (post : LimiterManager -> string -> UserLimiter -> Prop) keys m :
  (forall m key ul, lm_config m = snap -> lm_wf m -> lm_limiters m !! key = Some ul ->
     key_step key m (step m key) /\ post (step m key) key ul) ->
  (forall m key, lm_limiters m !! key = None -> step m key = m) ->
  (forall m1 m2 key ul, same_at key ul m1 m2 -> post m1 key ul -> post m2 key ul) ->
  lm_config m = snap -> lm_wf m -> NoDup keys ->
  let m' := fold_left step keys m in
  lm_wf m' /\ lm_config m' = snap /\
  (lm_hasChecked m' = lm_hasChecked m /\ lm_lastCheckTime m' = lm_lastCheckTime m) /\
  (forall k, k ∉ keys -> lm_limiters m' !! k = lm_limiters m !! k) /\
  (forall a, is_Some (lm_heap m !! a) ->
     (forall k ul, k ∈ keys -> lm_limiters m !! k = Some ul -> ~ bucket ul a) -> lm_heap m' !! a = lm_heap m !! a) /\
  (forall k ul, k ∈ keys -> lm_limiters m !! k = Some ul -> post m' k ul).
Proof.
  intros Hstep Hnone Hstable Hc W Hnd. revert m Hc W. induction Hnd as [|k ks Hk Hnd IH]; intros m Hc W; cbn [fold_left].
  { split_and!; try done. intros k ul Hk. by apply elem_of_nil in Hk. }
  destruct (lm_limiters m !! k) as [ul|] eqn:Hul.
  2:{ rewrite (Hnone m k Hul). destruct (IH m Hc W) as (W' & C' & [T1 T2] & L' & F' & P'). split_and!; try done.
      - intros k2 Hk2. apply L'. set_solver.
      - intros a Ha Hb. apply F'; [done|]. intros k2 ul2 Hk2. apply Hb. set_solver.
      - intros k2 ul2 Hk2 Hul2. apply elem_of_cons in Hk2 as [->|Hk2]; [congruence|by apply P']. }
  destruct (Hstep m k ul Hc W Hul) as [S Pk]. pose proof (key_step_wf k m _ W S) as W1.
  assert (lm_config (step m k) = snap) as C1 by (rewrite (ks_config _ _ _ S); done).
  destruct (IH _ C1 W1) as (W' & C' & [T1 T2] & L' & F' & P').
  assert (forall k2, k2 ∈ ks -> k2 <> k) as Hne by (intros k2 Hk2 ->; done).
  destruct (ks_checked _ _ _ S) as [T3 T4]. split_and!; [done|done|congruence|congruence| | |].
  - intros k2 Hk2. rewrite L', (ks_limiters _ _ _ S) by set_solver. done.
  - intros a Ha Hb. rewrite F'.
    + apply (ks_frame _ _ _ S); [done|]. intros ul' Hul'. apply (Hb k); [set_solver|done].
    + by apply (ks_mono _ _ _ S).
    + intros k2 ul2 Hk2. rewrite (ks_limiters _ _ _ S) by auto. apply Hb. set_solver.
  - intros k2 ul2 Hk2 Hul2. apply elem_of_cons in Hk2 as [->|Hk2].
    2:{ apply P'; [done|]. rewrite (ks_limiters _ _ _ S) by auto. done. }
    rewrite Hul in Hul2. injection Hul2 as <-. eapply Hstable, Pk. split; [by apply L'|].
    intros a Ha. apply F'.
    + destruct Ha as [Ha|(ul1 & Hul1 & Ha)]; [|by apply (wf_heap _ W1 k ul1)].
      apply (ks_mono _ _ _ S). by apply (wf_heap m W k ul).
    + intros k2 ul2 Hk2 Hul2 Hb. apply (Hne k2 Hk2). destruct Ha as [Ha|(ul1 & Hul1 & Ha)].
      * rewrite (ks_limiters _ _ _ S) in Hul2 by auto. symmetry. by apply (wf_own m W k k2 ul ul2 a).
      * symmetry. by apply (wf_own _ W1 k k2 ul1 ul2 a).
Qed.

Lemma lifted_frame l m1 m2 : (forall a, l = Some a -> lm_heap m2 !! a = lm_heap m1 !! a) -> lifted m1 l -> lifted m2 l.
Proof. intros H Hl a Ha. rewrite (H a Ha). by apply Hl. Qed.

Lemma updated_stable now snap m1 m2 key ul : same_at key ul m1 m2 -> updated now snap m1 key ul -> updated now snap m2 key ul.
Proof.
  intros [HL HH]. unfold updated. destruct (effectiveSpeed _ _ _ _) as [cfg|].
  - intros (H1 & H2 & H3). split_and!.
    + intros Hp. eapply lifted_frame, H1, Hp. intros a Ha. apply HH. left. by left.
    + intros Hp. eapply lifted_frame, H2, Hp. intros a Ha. apply HH. left. by right.
    + rewrite HL. destruct (_ && _); [done|]. destruct H3 as (ul' & Hul' & ? & R1 & R2 & ?).
      exists ul'. split_and!; [done|done| | |tauto|tauto].
      * eapply (runs_at_frame _ _ m1); [|exact R1]. intros a Ha. apply HH. right. exists ul'. split; [done|by left].
      * eapply (runs_at_frame _ _ m1); [|exact R2]. intros a Ha. apply HH. right. exists ul'. split; [done|by right].
  - rewrite HL. intros (? & H1 & H2). split_and!; [done|..].
    + eapply lifted_frame, H1. intros a Ha. apply HH. left. by left.
    + eapply lifted_frame, H2. intros a Ha. apply HH. left. by right.
Qed.

(** The update of every limiter, for any order of the visits. *)
Lemma updateLimiterRates_spec now keys m :
  lm_wf m -> keys_order m keys ->
  let m' := updateLimiterRates local_clock now keys m in
  lm_wf m' /\ lm_config m' = lm_config m /\
  (lm_hasChecked m' = lm_hasChecked m /\ lm_lastCheckTime m' = lm_lastCheckTime m) /\
  (forall k, lm_limiters m !! k = None -> lm_limiters m' !! k = None) /\
  (forall k ul, lm_limiters m !! k = Some ul -> updated now (lm_config m) m' k ul).
Proof.
  intros W [Hnd Hk]. destruct (visit_fold (updateOne local_clock now) (lm_config m)
    (updated now (lm_config m)) keys m) as (W' & C' & [T1 T2] & L' & _ & P'); try done.
  - intros m1 key ul Hc W1 Hul. rewrite <-Hc. by apply updateOne_spec.
  - intros m1 key Hn. unfold updateOne. by rewrite Hn.
  - intros m1 m2 key ul. apply updated_stable.
  - split_and!; try done.
    + intros k Hn. rewrite L'; [done|]. rewrite Hk, Hn. by intros [? ?].
    + intros k ul Hul. apply P'; [|done]. apply Hk. by eexists.
Qed.

(** ** Keys and users *)

Definition plain_user (u : string) : Prop := has_char clientLimiterKeySep u = false.

Lemma extractUserName_key cfg u addr : plain_user u -> extractUserName (limiterKey cfg u addr) = u.
Proof.
  intros Hu. unfold extractUserName, limiterKey.
  assert (cut clientLimiterKeySep u = None) as Hn by by apply cut_None.
  destruct addr as [a|]; [destruct (sc_PerClient cfg)|]; [rewrite cut_app by done; done|rewrite Hn; done..].
Qed.

(** The sweep of a removal selects the keys of the user. *)
Lemma sweep_user u key : plain_user u ->
  bool_decide (key = u) || String.prefix (u +:+ String clientLimiterKeySep "") key = bool_decide (extractUserName key = u).
Proof.
  intros Hu. apply eq_true_iff_eq. rewrite orb_true_iff, !bool_decide_eq_true, prefix_iff. unfold extractUserName. split.
  - intros [->|[t ->]].
    + by rewrite (proj2 (cut_None _ _) Hu).
    + rewrite str_app_assoc, str_app_cons, str_app_nil_l, cut_app by done. done.
  - destruct (cut clientLimiterKeySep key) as [[a b]|] eqn:E; [|by left].
    intros ->. apply cut_Some in E as [-> _]. right. exists b. by rewrite str_app_assoc, str_app_cons, str_app_nil_l.
Qed.

(** ** The invariant: every limiter runs at the speed in force for its user *)

Definition rates_match (m : LimiterManager) : Prop :=
  forall k ul, lm_limiters m !! k = Some ul ->
    exists cfg, currentConfig local_clock m (extractUserName k) = Some cfg /\
      runs_at m (ul_Upload ul) (sc_UploadMbps cfg) /\ runs_at m (ul_Download ul) (sc_DownloadMbps cfg).

Definition speed_inv (m : LimiterManager) : Prop := lm_wf m /\ rates_match m.

Lemma Unix_second t : Unix (Unix t * second) = Unix t.
Proof. unfold Unix. apply Z.div_mul. done. Qed.

Lemma effectiveSpeed_unix s u t : effectiveSpeed local_clock s u (Unix t * second) = effectiveSpeed local_clock s u t.
Proof. unfold effectiveSpeed, activeUserSchedule, activeGlobalSchedule. by rewrite Unix_second. Qed.

Lemma applyRuntimeState_inv now keys m :
  lm_wf m -> keys_order m keys -> speed_inv (applyRuntimeState local_clock now keys m).
Proof.
  intros W Hk. unfold applyRuntimeState.
  destruct (updateLimiterRates_spec now keys (set_checked (Unix now) m)) as (W' & C' & [T1 T2] & N' & P'); [|done|].
  { destruct W as [W1 W2 W3]. by split. }
  split; [done|]. set (m' := updateLimiterRates _ _ _ _) in *.
  intros k ul' Hul'. unfold currentConfig. rewrite T1, T2, C'. cbn. rewrite effectiveSpeed_unix.
  destruct (lm_limiters m !! k) as [ul|] eqn:Hul; [|rewrite N' in Hul' by done; done].
  specialize (P' k ul Hul). unfold updated in P'. cbn in P'.
  destruct (effectiveSpeed local_clock (lm_config m) (extractUserName k) now) as [cfg|].
  - exists cfg. split; [done|]. destruct P' as (_ & _ & P'). destruct (_ && _); [congruence|].
    destruct P' as (ul2 & Hul2 & _ & R1 & R2 & _). rewrite Hul' in Hul2. injection Hul2 as <-. by split.
  - destruct P' as [P' _]. congruence.
Qed.

(** Deleting limiters keeps the invariant. *)
Lemma delete_inv k m : speed_inv m -> speed_inv (set_limiters (delete k) m).
Proof.
  intros [[W1 W2 W3] R]. split; [split|]; cbn.
  - intros k' ul l Hk. apply lookup_delete_Some in Hk as [_ Hk]. by apply (W1 k').
  - intros k1 k2 ul1 ul2 l H1 H2. apply lookup_delete_Some in H1 as [_ H1]. apply lookup_delete_Some in H2 as [_ H2].
    by apply (W2 k1 k2 ul1 ul2).
  - intros k' ul l Hk. apply lookup_delete_Some in Hk as [_ Hk]. by apply (W3 k').
  - intros k' ul Hk. cbn in Hk. apply lookup_delete_Some in Hk as [_ Hk]. by apply (R k').
Qed.

Lemma cleanExpired_inv now keys m : speed_inv m -> speed_inv (cleanExpiredClientLimiters now keys m).
Proof.
  unfold cleanExpiredClientLimiters. revert m. induction keys as [|k keys IH]; intros m I; cbn; [done|].
  apply IH. unfold cleanOne. destruct (lm_limiters m !! k) as [ul|]; [|done].
  destruct (expired now m k ul); [by apply delete_inv|done].
Qed.

(** ** Creation *)

Lemma alloc_spec mbps m :
  exists l m', alloc (NewLimiter mbps) m = (l, m') /\ heap_step None m m' /\ runs_at m' l mbps /\
    forall a, l = Some a -> is_Some (lm_heap m' !! a) /\ lm_heap m !! a = None.
Proof.
  destruct (reconcile_spec None mbps m) as (l & m' & E & S & R & _ & _ & O); [done|].
  unfold reconcileLimiterDirection in E. destruct (Z.ltb_spec 0 mbps).
  - rewrite E. exists l, m'. split_and!; try done. intros a Ha. destruct (O a Ha) as [? [?|?]]; done.
  - injection E as <- <-. unfold NewLimiter. rewrite (proj2 (Z.leb_le _ _)) by done. exists None, m. by split_and!.
Qed.

(** A touch only changes the time of the last use. *)
Lemma touch_inv k ul t m : speed_inv m -> lm_limiters m !! k = Some ul ->
  speed_inv (set_limiters <[k := mkUserLimiter (ul_Upload ul) (ul_Download ul) t]> m).
Proof.
  intros [[W1 W2 W3] R] Hul.
  assert (forall k' ul', <[k := mkUserLimiter (ul_Upload ul) (ul_Download ul) t]> (lm_limiters m) !! k' = Some ul' ->
    exists ul0, lm_limiters m !! k' = Some ul0 /\ ul_Upload ul0 = ul_Upload ul' /\ ul_Download ul0 = ul_Download ul') as H.
  { intros k' ul'. rewrite lookup_insert. destruct (decide (k = k')) as [<-|]; [|eauto]. intros [= <-]. eauto. }
  split; [split|]; cbn.
  - intros k' ul' l Hk Hb. destruct (H k' ul' Hk) as (ul0 & Hk0 & E1 & E2). apply (W1 k' ul0 l Hk0). unfold bucket. by rewrite E1, E2.
  - intros k1 k2 ul1 ul2 l H1 H2 B1 B2. destruct (H k1 ul1 H1) as (v1 & Hv1 & E1 & E2). destruct (H k2 ul2 H2) as (v2 & Hv2 & E3 & E4).
    apply (W2 k1 k2 v1 v2 l Hv1 Hv2); unfold bucket; by rewrite ?E1, ?E2, ?E3, ?E4.
  - intros k' ul' l Hk. destruct (H k' ul' Hk) as (ul0 & Hk0 & <- & <-). by apply (W3 k').
  - intros k' ul' Hk. destruct (H k' ul' Hk) as (ul0 & Hk0 & <- & <-). by apply (R k').
Qed.

Lemma runs_at_step l mbps m m' o : (forall a, l = Some a -> is_Some (lm_heap m !! a) /\ o <> Some a) ->
  heap_step o m m' -> runs_at m l mbps -> runs_at m' l mbps.
Proof. intros H S. apply runs_at_frame. intros a Ha. destruct (H a Ha). by apply (hs_frame _ _ _ S). Qed.

Lemma GetOrCreate_inv u addr now m :
  plain_user u -> speed_inv m -> speed_inv (GetOrCreateLimiterForClient local_clock u addr now m).1.
Proof.
  intros Hu I. unfold GetOrCreateLimiterForClient.
  destruct (currentConfig local_clock m u) as [cfg|] eqn:Ec; [|done].
  set (key := limiterKey cfg u addr). destruct (lm_limiters m !! key) as [ul|] eqn:Hul; [by apply touch_inv|].
  destruct (alloc_spec (sc_UploadMbps cfg) m) as (up & m1 & -> & S1 & R1 & O1).
  destruct (alloc_spec (sc_DownloadMbps cfg) m1) as (down & m2 & -> & S2 & R2 & O2).
  assert (speed_inv (set_limiters <[key := mkUserLimiter up down (Unix now)]> m2)) as HI; [|by destruct up, down].
  destruct I as [[W1 W2 W3] R].
  assert (lm_limiters m2 = lm_limiters m) as EL by (rewrite (hs_limiters _ _ _ S2); apply S1).
  assert (forall a, is_Some (lm_heap m !! a) -> is_Some (lm_heap m2 !! a)) as Hmono.
  { intros a Ha. by apply (hs_mono _ _ _ S2), (hs_mono _ _ _ S1). }
  assert (forall a, bucket (mkUserLimiter up down (Unix now)) a -> is_Some (lm_heap m2 !! a) /\ lm_heap m !! a = None) as Hnew.
  { intros a [Ha|Ha]; cbn in Ha; [destruct (O1 a Ha); split; [by apply (hs_mono _ _ _ S2)|done]|].
    destruct (O2 a Ha) as [? Hn]. split; [done|]. destruct (lm_heap m !! a) eqn:E; [|done].
    destruct (hs_mono _ _ _ S1 a) as [? ?]; [by eexists|congruence]. }
  split; [split|]; cbn; rewrite ?EL.
  - intros k ul l. rewrite lookup_insert. destruct (decide _); [intros [= <-] Hb; by apply Hnew|].
    intros Hk Hb. by apply Hmono, (W1 k ul).
  - intros k1 k2 ul1 ul2 l. rewrite !lookup_insert. destruct (decide (key = k1)) as [<-|], (decide (_ = k2)) as [<-|]; [done|..].
    + intros [= <-] H2 B1 B2. destruct (Hnew l B1) as [_ ?]. destruct (W1 k2 ul2 l H2 B2). congruence.
    + intros H1 [= <-] B1 B2. destruct (Hnew l B2) as [_ ?]. destruct (W1 k1 ul1 l H1 B1). congruence.
    + apply W2.
  - intros k ul l. rewrite lookup_insert. destruct (decide _); [|apply W3]. intros [= <-]. cbn. intros Ha Hb.
    destruct (O1 l Ha) as [[? ?] _]. destruct (O2 l Hb) as [_ ?]. congruence.
  - intros k ul. cbn. rewrite EL, lookup_insert.
    assert (forall v, currentConfig local_clock (set_limiters <[key := mkUserLimiter up down (Unix now)]> m2) v = currentConfig local_clock m v) as Hcc.
    { intros v. unfold currentConfig. cbn. destruct (hs_checked _ _ _ S1) as [A1 B1], (hs_checked _ _ _ S2) as [A2 B2].
      by rewrite A2, A1, B2, B1, (hs_config _ _ _ S2), (hs_config _ _ _ S1). }
    rewrite Hcc. destruct (decide (key = k)) as [<-|].
    + intros [= <-]. exists cfg. unfold key. rewrite extractUserName_key by done. split_and!; [done| |done].
      eapply (runs_at_step up _ m1 m2 None); [|done|done]. intros a Ha. split; [by apply O1|done].
    + intros Hk. destruct (R k ul Hk) as (c & Hc & Ra & Rb). exists c. split_and!; [done|..].
      * eapply (runs_at_frame _ _ m); [|done]. intros a Ha. cbn.
        assert (is_Some (lm_heap m !! a)) by (apply (W1 k ul a Hk); by left).
        rewrite (hs_frame _ _ _ S2), (hs_frame _ _ _ S1); try done. by apply (hs_mono _ _ _ S1).
      * eapply (runs_at_frame _ _ m); [|done]. intros a Ha. cbn.
        assert (is_Some (lm_heap m !! a)) by (apply (W1 k ul a Hk); by right).
        rewrite (hs_frame _ _ _ S2), (hs_frame _ _ _ S1); try done. by apply (hs_mono _ _ _ S1).
Qed.

(** ** Removal *)

Lemma removeOne_skip u m key : plain_user u -> extractUserName key <> u -> removeOne u m key = m.
Proof.
  intros Hu Hne. unfold removeOne. destruct (lm_limiters m !! key); [|done].
  rewrite sweep_user, bool_decide_eq_false_2 by done. done.
Qed.

Lemma remove_filter u keys m : plain_user u ->
  fold_left (removeOne u) keys m = fold_left (removeOne u) (filter (fun k => extractUserName k = u) keys) m.
Proof.
  intros Hu. revert m. induction keys as [|k keys IH]; intros m; [done|].
  rewrite filter_cons. destruct (decide (extractUserName k = u)); cbn [fold_left]; [apply IH|].
  rewrite removeOne_skip by done. apply IH.
Qed.

(** What a removal leaves of a limiter of the user. *)
Definition let_go (m' : LimiterManager) (key : string) (ul : UserLimiter) : Prop :=
  lm_limiters m' !! key = None /\ lifted m' (ul_Upload ul) /\ lifted m' (ul_Download ul).

Lemma limiters_removed u keys m :
  u <> "" -> plain_user u -> lm_wf m -> keys_order m keys ->
  let m' := (RemoveConfig u keys m).1 in
  (RemoveConfig u keys m).2 = None /\ lm_wf m' /\ lm_config m' = removed u (lm_config m) /\
  (lm_hasChecked m' = lm_hasChecked m /\ lm_lastCheckTime m' = lm_lastCheckTime m) /\
  (forall k ul, lm_limiters m !! k = Some ul -> extractUserName k = u -> let_go m' k ul) /\
  (forall k, extractUserName k <> u -> lm_limiters m' !! k = lm_limiters m !! k) /\
  (forall k ul a, extractUserName k <> u -> lm_limiters m !! k = Some ul -> bucket ul a -> lm_heap m' !! a = lm_heap m !! a).
Proof.
  intros Hne Hu W [Hnd Hk]. unfold RemoveConfig. rewrite decide_False by done. cbn [fst snd].
  rewrite remove_filter by done. set (ks := filter _ keys). set (m0 := set_config _ m).
  assert (lm_wf m0) as W0 by (destruct W; by split).
  destruct (visit_fold (removeOne u) (removed u (lm_config m)) (fun m' k ul => extractUserName k = u -> let_go m' k ul) ks m0)
    as (W' & C' & [T1 T2] & L' & F' & P'); try done.
  - intros m1 key ul Hc W1 Hul. destruct (decide (extractUserName key = u)) as [Hx|Hx].
    + unfold removeOne. rewrite Hul, sweep_user, bool_decide_eq_true_2 by done.
      destruct (drop_spec m1 key ul W1 Hul) as (S & ?). split; [done|]. by intros _.
    + rewrite removeOne_skip by done. split; [|done]. split; try done.
      * intros ul' a Hk' Hb. split; [by apply (wf_heap m1 W1 key ul')|]. left. eauto.
      * intros ul' a Hk' Ha Hb. by apply (wf_dir m1 W1 key ul' a).
  - intros m1 key Hn. unfold removeOne. by rewrite Hn.
  - intros m1 m2 key ul [HL HH] Hp Hx. destruct (Hp Hx) as (? & H1 & H2). split_and!; [by rewrite HL|..].
    + eapply lifted_frame, H1. intros a Ha. apply HH. left. by left.
    + eapply lifted_frame, H2. intros a Ha. apply HH. left. by right.
  - apply NoDup_filter. done.
  - assert (forall k, extractUserName k <> u -> k ∉ ks) as Hks by (intros k Hx Hin; apply list_elem_of_filter in Hin as [? _]; done).
    split_and!; try done.
    + intros k ul Hul Hx. apply P'; [|done|done]. apply list_elem_of_filter. split; [done|]. apply Hk. by eexists.
    + intros k Hx. apply L'. auto.
    + intros k ul a Hx Hul Hb. apply F'; [by apply (wf_heap m W k ul)|].
      intros k2 ul2 Hin Hul2 Hb2. apply list_elem_of_filter in Hin as [Hx2 _].
      apply Hx. by rewrite (wf_own m W k k2 ul ul2 a Hul Hul2 Hb Hb2).
Qed.

(** Removing a user does not change the speed of another. *)
Lemma effectiveSpeed_removed u v s now : v <> u ->
  effectiveSpeed local_clock (removed u s) v now = effectiveSpeed local_clock s v now.
Proof.
  intros Hne. unfold effectiveSpeed, applySchedule, resolveConfig, activeUserSchedule, activeGlobalSchedule,
    hasFixedUserUploadOverride, hasFixedUserDownloadOverride. cbn.
  by rewrite !lookup_delete_ne by done.
Qed.

Lemma resolveConfig_removed u v s : v <> u -> resolveConfig (removed u s) v = resolveConfig s v.
Proof. intros Hne. unfold resolveConfig. cbn. by rewrite !lookup_delete_ne by done. Qed.

Lemma remove_speed_inv u keys m : plain_user u -> keys_order m keys -> speed_inv m -> speed_inv (RemoveConfig u keys m).1.
Proof.
  intros Hu Hk [W R]. destruct (decide (u = "")) as [->|Hne].
  { unfold RemoveConfig. by rewrite decide_True. }
  destruct (limiters_removed u keys m Hne Hu W Hk) as (_ & W' & C' & [T1 T2] & G & L & F). split; [done|].
  set (m' := (RemoveConfig u keys m).1) in *. intros k ul Hul.
  destruct (decide (extractUserName k = u)) as [Hx|Hx].
  - destruct (lm_limiters m !! k) as [ul0|] eqn:E; [destruct (G k ul0 E Hx) as [? _]; congruence|].
    unfold m', RemoveConfig in Hul. rewrite decide_False in Hul by done. cbn [fst] in Hul.
    exfalso. assert (forall ks m1, lm_limiters m1 !! k = None -> lm_limiters (fold_left (removeOne u) ks m1) !! k = None) as Hn.
    { clear. induction ks as [|k' ks IH]; intros m1 H; cbn; [done|]. apply IH. unfold removeOne.
      destruct (lm_limiters m1 !! k') as [ul1|]; [|done]. destruct (_ || _); [|done]. cbn.
      rewrite lookup_delete_None. right.
      destruct (ul_Download ul1), (ul_Upload ul1); done. }
    rewrite Hn in Hul; done.
  - rewrite L in Hul by done. destruct (R k ul Hul) as (cfg & Hc & R1 & R2). exists cfg. split_and!.
    + unfold currentConfig in *. rewrite T1, T2, C', effectiveSpeed_removed, resolveConfig_removed by done. done.
    + eapply runs_at_frame, R1. intros a Ha. apply (F k ul a Hx Hul). by left.
    + eapply runs_at_frame, R2. intros a Ha. apply (F k ul a Hx Hul). by right.
Qed.

(** ** Waiting *)

Lemma waitLoop_spec fuel burst n x : Burst (waitLoop fuel burst n x).1 = Burst x /\ Limit (waitLoop fuel burst n x).1 = Limit x.
Proof.
  revert n x. induction fuel as [|fuel IH]; intros n x; cbn; [done|]. destruct (n <=? 0); [done|].
  set (c := if burst <? n then burst else n). pose proof (Burst_WaitN c x). pose proof (Limit_WaitN c x).
  destruct (WaitN c x) as [y [e|]]; cbn in *; [done|]. destruct (IH (n - c) y). split; congruence.
Qed.

Lemma waitAt_inv l n m : speed_inv m -> speed_inv (waitAt l n m).1.
Proof.
  intros [[W1 W2 W3] R]. unfold waitAt. destruct l as [a|]; [|done]. destruct (lm_heap m !! a) as [x|] eqn:Hx; [|done].
  pose proof (waitLoop_spec (Z.to_nat n) (if Burst x <=? 0 then 1 else Burst x) n x) as [HB HL].
  unfold waitN. destruct (waitLoop _ _ n x) as [y err]. cbn [fst] in *.
  assert (forall b z, lm_heap m !! b = Some z -> exists z', <[a := y]> (lm_heap m) !! b = Some z' /\ Limit z' = Limit z /\ Burst z' = Burst z) as Hh.
  { intros b z Hz. rewrite lookup_insert. destruct (decide (a = b)) as [<-|]; [|eauto]. rewrite Hx in Hz. injection Hz as <-. eauto. }
  split; [split|]; cbn; [|done|done|].
  - intros k ul l Hk Hb. destruct (W1 k ul l Hk Hb) as [z Hz]. destruct (Hh l z Hz) as (z' & ? & _). by eexists.
  - intros k ul Hk. destruct (R k ul Hk) as (cfg & Hc & R1 & R2). exists cfg. split; [done|].
    assert (forall l mbps, runs_at m l mbps -> runs_at (set_heap <[a := y]> m) l mbps) as Hr; [|auto].
    intros l mbps. unfold runs_at. destruct (0 <? mbps); [|done]. intros (b & z & -> & Hz & HLz & HBz).
    destruct (Hh b z Hz) as (z' & ? & ? & ?). exists b, z'. split_and!; [done|done|congruence|congruence].
Qed.

(** ** Reachable states *)

(** One call into the manager; user names do not contain the separator of the keys. *)
Inductive speed_step (m : LimiterManager) : LimiterManager -> Prop :=
| ss_get u addr now : plain_user u -> speed_step m (GetOrCreateLimiterForClient local_clock u addr now m).1
| ss_apply user now keys : keys_order m keys -> speed_step m (ApplyConfig local_clock user now keys m).1
| ss_remove u keys : plain_user u -> keys_order m keys -> speed_step m (RemoveConfig u keys m).1
| ss_replace u l now keys : keys_order m keys -> speed_step m (ReplaceUserSchedules local_clock u l now keys m).1
| ss_unschedule u now keys : keys_order m keys -> speed_step m (RemoveUserSchedules local_clock u now keys m).1
| ss_check now keys keys' : keys_order m keys -> speed_step m (CheckSchedules local_clock now keys keys' m)
| ss_wait l n : speed_step m (waitAt l n m).1.

Inductive speed_reachable : LimiterManager -> Prop :=
| sr_new options m : NewLimiterManager options = Ok m -> speed_reachable m
| sr_step m m' : speed_reachable m -> speed_step m m' -> speed_reachable m'.

Lemma wf_set_config c m : lm_wf m -> lm_wf (set_config c m).
Proof. intros [W1 W2 W3]. by split. Qed.

Lemma speed_step_inv m m' : speed_inv m -> speed_step m m' -> speed_inv m'.
Proof.
  intros I H. pose proof (proj1 I) as W. destruct H.
  - by apply GetOrCreate_inv.
  - unfold ApplyConfig. do 2 (destruct (decide _); [done|]). destruct (_ && _); [done|].
    apply applyRuntimeState_inv; [by apply wf_set_config|done].
  - by apply remove_speed_inv.
  - unfold ReplaceUserSchedules. destruct (decide _); [done|]. destruct (parseAll _ _); [|done].
    apply applyRuntimeState_inv; [by apply wf_set_config|done].
  - unfold RemoveUserSchedules. destruct (decide _); [done|].
    apply applyRuntimeState_inv; [by apply wf_set_config|done].
  - apply cleanExpired_inv. by apply applyRuntimeState_inv.
  - by apply waitAt_inv.
Qed.

Lemma speed_reachable_inv m : speed_reachable m -> speed_inv m.
Proof.
  induction 1 as [options m H|]; [|by eapply speed_step_inv].
  unfold NewLimiterManager in H. destruct (newGroups _ _); [|done]. destruct (newUsers _ _); [|done].
  destruct (newSchedules _ _); [|done]. injection H as <-.
  split; [split|]; cbn; try (intros *; rewrite lookup_empty; done). intros k ul. cbn. by rewrite lookup_empty.
Qed.
End SpeedInv.
