(* ===== verification/SpeedProps.v ===== *)
(** * Properties of the speed limiter

    Resolution of speeds, schedules, the rates of the live limiters, removal, expiry and
    waiting, each with a witness. *)

From S2P Require Import Prelude GoStrings GoTime SpeedConfig DynamicConfig SpeedLimiter SpeedInv.

Local Open Scope string_scope.
Local Open Scope list_scope.
Local Open Scope Z_scope.

(** ** Resolution *)

(** The first positive number of a list of candidates, or the last resort. *)
Definition first_positive (l : list Z) (last : Z) : Z := default last (List.find (fun x => 0 <? x) l).

(** The group of a user that exists. *)
Definition group_of (s : configSnapshot) (u : string) : option speedConfig := cs_userGroups s !! u ≫= (cs_groups s !!.).

(** The speed of a user is, per direction, the first positive one of the per-user
    override, the group and the default; the per-client mode is the user's own setting,
    else that of the group, else that of the default; and a user has no limit at all
    exactly when none of the four sources says anything about it. *)
Theorem resolveConfig_priority s u :
  let over := cs_userOverrides s !! u in
  let group := group_of s u in
  let def := cs_defaultConfig s in
  let own := cs_userRawConfig s !! u ≫= slu_PerClient in
  (resolveConfig s u = None <-> over = None /\ group = None /\ def = None /\ own = None) /\
  forall cfg, resolveConfig s u = Some cfg ->
    sc_UploadMbps cfg = first_positive (map sc_UploadMbps (option_list over ++ option_list group))
                          (default 0 (sc_UploadMbps <$> def)) /\
    sc_DownloadMbps cfg = first_positive (map sc_DownloadMbps (option_list over ++ option_list group))
                            (default 0 (sc_DownloadMbps <$> def)) /\
    sc_PerClient cfg = default (default (default false (sc_PerClient <$> def)) (sc_PerClient <$> group)) own.
Proof.
  cbv zeta. unfold resolveConfig, group_of, first_positive, pos_or.
  destruct (cs_defaultConfig s) as [[du dd dp]|], (cs_userOverrides s !! u) as [[ou od op]|],
    (cs_userGroups s !! u) as [g|]; cbn; try destruct (cs_groups s !! g) as [[gu gd gp]|];
    destruct (cs_userRawConfig s !! u) as [[? ? ? ? [pc|]]|]; cbn;
    (split; [split; [try done; intros (? & ? & ? & ?); congruence|]; try tauto; try done; intros (? & ? & ? & ?); congruence|]);
    try (intros cfg [= <-]; cbn; repeat match goal with |- context [0 <? ?x] => destruct (0 <? x) end; by split_and!); done.
Qed.

(** Schedules replace speeds only in a direction the user has no fixed speed for;
    there the last matching schedule of the user that sets the direction wins, then the
    last matching global schedule that applies to the user's group, then the resolved
    speed.  The per-client mode is never scheduled. *)
Theorem effectiveSpeed_schedules clock s u now cfg base :
  resolveConfig s u = Some base -> effectiveSpeed clock s u now = Some cfg ->
  let user := activeUserSchedule clock s u now in
  let global := activeGlobalSchedule clock s u now in
  sc_UploadMbps cfg =
    (if hasFixedUserUploadOverride s u then sc_UploadMbps base
     else first_positive (map se_uploadMbps (option_list user ++ option_list global)) (sc_UploadMbps base)) /\
  sc_DownloadMbps cfg =
    (if hasFixedUserDownloadOverride s u then sc_DownloadMbps base
     else first_positive (map se_downloadMbps (option_list user ++ option_list global)) (sc_DownloadMbps base)) /\
  sc_PerClient cfg = sc_PerClient base.
Proof.
  intros Hb. unfold effectiveSpeed. rewrite Hb. intros [= <-]. cbv zeta. unfold applySchedule, first_positive.
  destruct (activeGlobalSchedule clock s u now) as [[]|], (activeUserSchedule clock s u now) as [[]|];
    destruct (hasFixedUserUploadOverride s u), (hasFixedUserDownloadOverride s u); cbn;
    repeat match goal with |- context [0 <? ?x] => destruct (0 <? x) end; by split_and!.
Qed.

(** A schedule matches a time of day exactly when the time lies in the cyclic interval
    from its start, included, to its end, excluded: across midnight when the end is
    before the start, and never when both are equal. *)
Theorem matchesTime_cyclic e hour min :
  schedule_valid e -> 0 <= hour < 24 -> 0 <= min < 60 ->
  let start := se_startHour e * 60 + se_startMin e in
  let stop := se_endHour e * 60 + se_endMin e in
  matchesTime e hour min = ((hour * 60 + min - start) mod 1440 <? (stop - start) mod 1440).
Proof.
  intros (Hsh & Hsm & Heh & Hem) Hh Hm. cbv zeta. unfold matchesTime.
  set (t := hour * 60 + min). set (a := se_startHour e * 60 + se_startMin e). set (b := se_endHour e * 60 + se_endMin e).
  assert (0 <= t < 1440 /\ 0 <= a < 1440 /\ 0 <= b < 1440) as (Ht & Ha & Hb) by lia. clearbody t a b.
  assert (forall x, 0 <= x < 1440 -> (x - a) mod 1440 = if a <=? x then x - a else x - a + 1440) as Hmod.
  { intros x Hx. destruct (Z.leb_spec a x); [apply Z.mod_small; lia|].
    rewrite <-(Z.mod_add (x - a) 1 1440) by done. apply Z.mod_small. lia. }
  rewrite !Hmod by done.
  destruct (Z.leb_spec a b), (Z.leb_spec a t), (Z.ltb_spec t b); cbn;
    symmetry; (apply Z.ltb_lt || apply Z.ltb_ge); lia.
Qed.

Section SpeedProps.
Context `{RL : RateLib} {RLaws : RateLaws RL}.
Context (clock : Z -> Z * Z).

(** ** The textual form *)

Lemma parseUserSchedule_valid s e : parseUserSchedule s = Ok e -> schedule_valid e.
Proof.
  unfold parseUserSchedule, parseRange. destruct (cut _ _) as [[a b]|]; [|done].
  destruct (parseTime a) as [[sh sm]|] eqn:Ea; [|done]. destruct (parseTime b) as [[eh em]|] eqn:Eb; [|done].
  intros [= <-]. apply parseTime_range in Ea, Eb. unfold schedule_valid. cbn. lia.
Qed.

Lemma parseUserSchedule_print e : schedule_valid e -> se_groups e = ∅ -> parseUserSchedule (toUserSchedule e) = Ok e.
Proof.
  intros (Hsh & Hsm & Heh & Hem) Hg. unfold parseUserSchedule, parseRange, toUserSchedule. cbn [usch_TimeRange usch_UploadMbps usch_DownloadMbps].
  assert (pad_int 2 (se_startHour e) +:+ ":" +:+ pad_int 2 (se_startMin e) +:+ "-" +:+
    pad_int 2 (se_endHour e) +:+ ":" +:+ pad_int 2 (se_endMin e) =
    (pad_int 2 (se_startHour e) +:+ ":" +:+ pad_int 2 (se_startMin e)) +:+ String "-"
      (pad_int 2 (se_endHour e) +:+ ":" +:+ pad_int 2 (se_endMin e))) as -> by (by rewrite !str_app_assoc).
  rewrite cut_app.
  - rewrite !parseTime_format by lia. destruct e. cbn in *. by subst.
  - rewrite !has_char_app. rewrite !pad2_no_char by (lia || done). done.
Qed.

Lemma parseAll_print l acc : Forall (fun e => schedule_valid e /\ se_groups e = ∅) l ->
  parseAll (map toUserSchedule l) acc = Ok (acc ++ l).
Proof.
  intros H. revert acc. induction H as [|e l [Hv Hg] _ IH]; intros acc; cbn; [by rewrite app_nil_r|].
  rewrite parseUserSchedule_print, IH by done. by rewrite <-app_assoc.
Qed.

Lemma parseAll_valid l acc r : Forall (fun e => schedule_valid e /\ se_groups e = ∅) acc ->
  parseAll l acc = Ok r -> Forall (fun e => schedule_valid e /\ se_groups e = ∅) r /\ length r = (length acc + length l)%nat.
Proof.
  revert acc. induction l as [|s l IH]; intros acc Hacc H; cbn in H.
  - injection H as <-. split; [done|]. cbn. lia.
  - destruct (parseUserSchedule s) as [e|] eqn:E; [|done]. apply IH in H as [H1 H2].
    + split; [done|]. rewrite H2, length_app. cbn. lia.
    + apply Forall_app. split; [done|]. apply Forall_singleton. split; [by eapply parseUserSchedule_valid|].
      unfold parseUserSchedule in E. destruct (parseRange _) as [[[? ?] [? ?]]|]; [|done]. by injection E as <-.
Qed.

Lemma update_config keys now m : keys_order m keys -> lm_wf m ->
  lm_config (applyRuntimeState clock now keys m) = lm_config m.
Proof.
  intros Hk W. unfold applyRuntimeState.
  destruct (updateLimiterRates_spec clock now keys (set_checked (Unix now) m)) as (_ & C & _); [|done|done].
  destruct W. by split.
Qed.

(** Storing schedules and reading them back: a list that is accepted is stored with
    every time on the clock, and what is read back prints times in the canonical form
    and parses to exactly the stored schedules; a list that is not accepted changes
    nothing. *)
Theorem schedules_roundtrip m u l now keys :
  speed_reachable clock m -> keys_order m keys -> u <> "" ->
  let '(m', err) := ReplaceUserSchedules clock u l now keys m in
  match parseAll l [] with
  | Err e => m' = m /\ err = Some e
  | Ok parsed =>
      err = None /\ Forall schedule_valid parsed /\ length parsed = length l /\
      cs_userSchedules (lm_config m') !! u = (if decide (l = []) then None else Some parsed) /\
      (l <> [] -> exists l', GetUserSchedules m' u = Some l' /\ parseAll l' [] = Ok parsed)
  end.
Proof.
  intros R Hk Hu. pose proof (speed_reachable_inv clock m R) as [W _]. unfold ReplaceUserSchedules. rewrite decide_False by done.
  destruct (parseAll l []) as [parsed|e] eqn:E; [|done].
  destruct (parseAll_valid l [] parsed ltac:(constructor) E) as [Hv Hlen]. cbn in Hlen.
  set (f := match parsed with [] => delete u | _ => <[u := parsed]> end).
  pose proof (update_config keys now (set_config (setUserSchedules f (lm_config m)) m) Hk (wf_set_config _ m W)) as HC.
  split_and!; [done|eapply Forall_impl; [exact Hv|by intros e [? _]]|done| |].
  - rewrite HC. cbn. unfold f. destruct l as [|s l], parsed as [|p parsed]; try discriminate Hlen.
    + by rewrite lookup_delete_eq.
    + by rewrite lookup_insert_eq.
  - intros Hl. destruct l as [|s l]; [done|]. destruct parsed as [|p parsed]; [discriminate Hlen|].
    exists (map toUserSchedule (p :: parsed)). split; [|by apply parseAll_print].
    unfold GetUserSchedules. rewrite HC. unfold f. cbn. by rewrite lookup_insert_eq.
Qed.

(** ** Live limiters *)

(** C6: in every reachable state every limiter of the map runs at the speed that is
    reported for its user: each direction has a bucket with the rate and the burst of
    the reported speed, or none if the direction is not limited.  So a change of the
    configuration or of the schedules reaches the connections that are already open. *)
Theorem limiters_run_at_current_speed m key ul :
  speed_reachable clock m -> lm_limiters m !! key = Some ul ->
  exists up down, CurrentSpeed clock m (extractUserName key) = Some (up, down) /\
    runs_at m (ul_Upload ul) up /\ runs_at m (ul_Download ul) down.
Proof.
  intros R Hul. destruct (speed_reachable_inv clock m R) as [_ HR]. destruct (HR key ul Hul) as (cfg & Hc & R1 & R2).
  exists (sc_UploadMbps cfg), (sc_DownloadMbps cfg). unfold CurrentSpeed. by rewrite Hc.
Qed.

(** A connection is throttled by buckets that run at the current speed of its user, at
    the moment it is set up; two connections of a user get the same buckets, unless the
    user is in per-client mode and they come from different addresses. *)
Theorem RoutedConnection_throttle m u addr now m' c :
  speed_reachable clock m -> plain_user u -> RoutedConnection clock u addr now m = (m', Some c) ->
  (exists up down, CurrentSpeed clock m u = Some (up, down) /\
     runs_at m' (tc_upload c) up /\ runs_at m' (tc_download c) down /\ (0 < up \/ 0 < down)) /\
  (forall now2 addr2 cfg, currentConfig clock m u = Some cfg -> sc_PerClient cfg = false \/ addr2 = addr ->
     (RoutedConnection clock u addr2 now2 m').2 = Some c).
Proof.
  intros R Hu H. pose proof (GetOrCreate_inv clock u addr now m Hu (speed_reachable_inv clock m R)) as [_ HR].
  unfold RoutedConnection in *. destruct (decide (u = "")); [done|].
  destruct (GetOrCreateLimiterForClient clock u addr now m) as [m1 [ul|]] eqn:E; [|done].
  injection H as -> Hc. cbn [fst] in HR.
  unfold GetOrCreateLimiterForClient in E. destruct (currentConfig clock m u) as [cfg|] eqn:Ec; [|done].
  set (key := limiterKey cfg u addr) in *.
  assert (lm_limiters m' !! key = Some ul /\ currentConfig clock m' u = Some cfg) as [Hul Hcc].
  { destruct (lm_limiters m !! key) as [ul0|] eqn:E0.
    - injection E as <- <-. split; [cbn; apply lookup_insert_eq|done].
    - destruct (alloc_spec (sc_UploadMbps cfg) m) as (l1 & m1 & E1 & S1 & _).
      destruct (alloc_spec (sc_DownloadMbps cfg) m1) as (l2 & m2 & E2 & S2 & _). rewrite E1, E2 in E.
      assert (currentConfig clock m2 u = Some cfg) as Hm2.
      { unfold currentConfig in *. destruct (hs_checked _ _ _ S1) as [A1 B1], (hs_checked _ _ _ S2) as [A2 B2].
        by rewrite A2, A1, B2, B1, (hs_config _ _ _ S2), (hs_config _ _ _ S1). }
      destruct l1, l2; try done; injection E as <- <-; (split; [cbn; apply lookup_insert_eq|done]). }
  destruct (HR key ul Hul) as (cfg' & Hc' & R1 & R2). unfold key in Hc'. rewrite extractUserName_key in Hc' by done.
  rewrite Hcc in Hc'. injection Hc' as <-.
  assert (ul_Upload ul = tc_upload c /\ ul_Download ul = tc_download c /\ (ul_Upload ul <> None \/ ul_Download ul <> None)) as (E1 & E2 & Hs).
  { unfold NewThrottledConn in Hc. destruct (ul_Upload ul), (ul_Download ul); try done; injection Hc as <-; cbn; auto. }
  split.
  - exists (sc_UploadMbps cfg), (sc_DownloadMbps cfg). unfold CurrentSpeed. rewrite Ec, <-E1, <-E2. split_and!; [done|done|done|].
    unfold runs_at in R1, R2. destruct (Z.ltb_spec 0 (sc_UploadMbps cfg)); [by left|].
    destruct (Z.ltb_spec 0 (sc_DownloadMbps cfg)); [by right|]. tauto.
  - intros now2 addr2 cfg2 [= <-] Hsame. unfold GetOrCreateLimiterForClient. rewrite Hcc.
    assert (limiterKey cfg u addr2 = key) as ->.
    { unfold key, limiterKey. destruct Hsame as [->| ->]; [by destruct addr, addr2|done]. }
    rewrite Hul. cbn. by rewrite E1, E2 in *.
Qed.

(** Removing the configuration of a user lets go every limiter of the user, shared or
    per client, with its rate lifted, so that connections that captured it are no longer
    throttled, and touches no limiter and no bucket of another user. *)
Theorem RemoveConfig_lifts m u keys :
  speed_reachable clock m -> keys_order m keys -> u <> "" -> plain_user u ->
  let m' := (RemoveConfig u keys m).1 in
  GetConfig m' u = None /\
  (forall k ul, lm_limiters m !! k = Some ul -> extractUserName k = u ->
     lm_limiters m' !! k = None /\ lifted m' (ul_Upload ul) /\ lifted m' (ul_Download ul)) /\
  (forall k ul, lm_limiters m !! k = Some ul -> extractUserName k <> u ->
     lm_limiters m' !! k = Some ul /\ forall a, bucket ul a -> lm_heap m' !! a = lm_heap m !! a).
Proof.
  intros R Hk Hne Hu. destruct (speed_reachable_inv clock m R) as [W _].
  destruct (limiters_removed u keys m Hne Hu W Hk) as (_ & _ & C & _ & G & L & F). cbv zeta. split_and!.
  - unfold GetConfig. rewrite C. cbn. by rewrite lookup_delete_eq.
  - apply G.
  - intros k ul Hul Hx. rewrite L by done. split; [done|]. intros a. by apply (F k).
Qed.

(** The clean-up of a check removes exactly the per-client limiters that were last used
    longer ago than the time to live; a limiter shared by a user is never removed. *)
Theorem cleanExpired_exact m now keys :
  NoDup keys -> (forall k, k ∈ keys <-> is_Some (lm_limiters m !! k)) ->
  forall k, lm_limiters (cleanExpiredClientLimiters now keys m) !! k =
    match lm_limiters m !! k with
    | Some ul => if expired now m k ul then None else Some ul
    | None => None
    end.
Proof.
  intros Hnd Hk.
  assert (forall keys m, NoDup keys -> lm_config (cleanExpiredClientLimiters now keys m) = lm_config m /\
    forall k, lm_limiters (cleanExpiredClientLimiters now keys m) !! k =
      match lm_limiters m !! k with
      | Some ul => if decide (k ∈ keys) then if expired now m k ul then None else Some ul else Some ul
      | None => None end) as H.
  { clear. unfold cleanExpiredClientLimiters. intros keys m Hnd. revert m.
    induction Hnd as [|k0 keys Hk0 Hnd IH]; intros m; cbn [fold_left].
    - split; [done|]. intros k. destruct (lm_limiters m !! k); [|done]. by rewrite decide_False by set_solver.
    - destruct (IH (cleanOne now m k0)) as [IHc IH']. unfold cleanOne in *.
      destruct (lm_limiters m !! k0) as [ul0|] eqn:E0; [destruct (expired now m k0 ul0) eqn:Ee|].
      1: split; [by rewrite IHc|]; intros k; rewrite IH'; cbn; destruct (decide (k0 = k)) as [<-|Hne];
         [rewrite lookup_delete_eq, E0, decide_True, Ee by set_solver; done|rewrite lookup_delete_ne by done].
      2,3: split; [done|]; intros k; rewrite IH'; destruct (decide (k0 = k)) as [<-|Hne];
         [rewrite E0, ?decide_False, ?decide_True, ?Ee by set_solver; done|].
      all: destruct (lm_limiters m !! k) as [ul|]; [|done]; unfold expired; cbn;
         destruct (decide (k ∈ keys)); [rewrite decide_True by set_solver|rewrite decide_False by set_solver]; done. }
  intros k. rewrite (proj2 (H keys m Hnd)). destruct (lm_limiters m !! k) eqn:E; [|done].
  rewrite decide_True; [done|]. apply Hk. by eexists.
Qed.

(** ** Waiting *)

(** The chunks of a transfer of [n] bytes for a burst. *)
Fixpoint chunks (fuel : nat) (burst n : Z) : list Z :=
  match fuel with
  | O => []
  | S fuel => if n <=? 0 then [] else Z.min burst n :: chunks fuel burst (n - Z.min burst n)
  end.

(** Charging a bucket chunk by chunk, up to the first error. *)
Fixpoint charge (l : list Z) (x : Limiter) : Limiter * option error :=
  match l with
  | [] => (x, None)
  | c :: l => match WaitN c x with (x, None) => charge l x | r => r end
  end.

Lemma chunks_spec fuel burst n : 0 < burst -> n <= Z.of_nat fuel ->
  foldr Z.add 0 (chunks fuel burst n) = Z.max 0 n /\ Forall (fun c => 0 < c <= burst) (chunks fuel burst n).
Proof.
  intros Hb. revert n. induction fuel as [|fuel IH]; intros n Hn; cbn [chunks].
  - cbn. split; [lia|constructor].
  - destruct (Z.leb_spec n 0); [cbn; split; [lia|constructor]|].
    destruct (IH (n - Z.min burst n)) as [IH1 IH2]; [lia|]. cbn [foldr]. rewrite IH1.
    split; [lia|]. constructor; [lia|done].
Qed.

Lemma waitLoop_charge fuel burst n x : waitLoop fuel burst n x = charge (chunks fuel burst n) x.
Proof.
  revert n x. induction fuel as [|fuel IH]; intros n x; cbn; [done|]. destruct (n <=? 0); [done|]. cbn.
  assert ((if burst <? n then burst else n) = Z.min burst n) as -> by (destruct (Z.ltb_spec burst n); lia).
  destruct (WaitN (Z.min burst n) x) as [y [e|]]; [done|]. apply IH.
Qed.

(** C32: waiting for [n] bytes charges the bucket exactly [n], in chunks of at least one
    byte that never exceed its burst, so that the bucket never refuses a chunk for its
    size; it stops at the first error, and ends. *)
Theorem waitN_charges n x :
  0 <= n ->
  let l := chunks (Z.to_nat n) (Z.max 1 (Burst x)) n in
  waitN n x = charge l x /\ foldr Z.add 0 l = n /\
  Forall (fun c => 0 < c /\ (0 < Burst x -> c <= Burst x)) l /\
  ((forall c y, 0 < c <= Z.max 1 (Burst x) -> (WaitN c y).2 = None) -> (waitN n x).2 = None).
Proof.
  intros Hn. cbv zeta. assert ((if Burst x <=? 0 then 1 else Burst x) = Z.max 1 (Burst x)) as Hb
    by (destruct (Z.leb_spec (Burst x) 0); lia).
  destruct (chunks_spec (Z.to_nat n) (Z.max 1 (Burst x)) n) as [H1 H2]; [lia|lia|].
  assert (waitN n x = charge (chunks (Z.to_nat n) (Z.max 1 (Burst x)) n) x) as E.
  { unfold waitN. rewrite Hb. apply waitLoop_charge. }
  split_and!; [done|lia| |].
  - eapply Forall_impl; [exact H2|]. intros c Hc. cbn in Hc. lia.
  - intros Hw. rewrite E. clear E H1 Hb. revert H2 Hw. generalize (Z.max 1 (Burst x)). intros b.
    generalize (chunks (Z.to_nat n) b n). intros l. revert x. induction l as [|c l IH]; intros x H2 Hw; [done|].
    apply Forall_cons in H2 as [Hc H2]. cbn. pose proof (Hw c x Hc) as He.
    destruct (WaitN c x) as [y e]. cbn in He. subst e. by apply IH.
Qed.

(** A row of a dynamic source without speeds leaves the limiter alone unless it is
    authoritative, and then removes the user's configuration if there is one; a row with
    a speed for a user makes that speed the one in force, schedules apart. *)
Theorem applyDynamic_speed m now keys row :
  speed_reachable clock m -> keys_order m keys -> cr_User row <> "" ->
  let '(m', err) := applyDynamic clock now keys row m in
  err = None /\
  if (cr_UploadMbps row <=? 0) && (cr_DownloadMbps row <=? 0) then
    if cr_Authoritative row && bool_decide (is_Some (GetConfig m (cr_User row))) then GetConfig m' (cr_User row) = None
    else m' = m
  else
    GetConfig m' (cr_User row) =
      Some (mkSpeedLimiterUser (cr_User row) "" (cr_UploadMbps row) (cr_DownloadMbps row) (cr_PerClient row)) /\
    (forall up down, CurrentSpeed clock m' (cr_User row) = Some (up, down) ->
       (0 < cr_UploadMbps row -> up = cr_UploadMbps row) /\ (0 < cr_DownloadMbps row -> down = cr_DownloadMbps row)).
Proof.
  intros R Hk Hu. pose proof (speed_reachable_inv clock m R) as [W _]. unfold applyDynamic.
  destruct ((cr_UploadMbps row <=? 0) && (cr_DownloadMbps row <=? 0)) eqn:Es.
  - destruct (cr_Authoritative row); cbn [negb andb]; [|done].
    destruct (GetConfig m (cr_User row)) as [c|] eqn:Eg; [|by rewrite bool_decide_eq_false_2 by (by intros [? ?])].
    rewrite bool_decide_eq_true_2 by (by eexists).
    assert (forall ks m1, lm_config (fold_left (removeOne (cr_User row)) ks m1) = lm_config m1) as Hc.
    { clear. induction ks as [|k ks IH]; intros m1; cbn; [done|]. rewrite IH. unfold removeOne.
      destruct (lm_limiters m1 !! k) as [ul|]; [|done]. destruct (_ || _); [|done].
      by destruct (ul_Upload ul), (ul_Download ul). }
    unfold RemoveConfig. rewrite decide_False by done. split; [done|]. unfold GetConfig. rewrite Hc. cbn.
    by rewrite lookup_delete_eq.
  - set (user := mkSpeedLimiterUser _ _ _ _ _). unfold ApplyConfig.
    rewrite decide_False by done. rewrite decide_False by (cbn; tauto).
    rewrite <-andb_assoc. cbn [user slu_UploadMbps slu_DownloadMbps]. rewrite Es, andb_false_r. split; [done|].
    set (m0 := set_config (applied user (lm_config m)) m).
    pose proof (update_config keys now m0 Hk (wf_set_config _ m W)) as HC. split.
    { unfold GetConfig. rewrite HC. cbn. by rewrite lookup_insert_eq. }
    intros up down. unfold CurrentSpeed, currentConfig. rewrite HC.
    destruct (updateLimiterRates_spec clock now keys (set_checked (Unix now) m0)) as (_ & _ & [T1 _] & _);
      [destruct (wf_set_config (applied user (lm_config m)) m W); by split|done|].
    unfold applyRuntimeState. rewrite T1. cbn [lm_hasChecked set_checked].
    set (t := lm_lastCheckTime _ * second). intros H.
    destruct (effectiveSpeed clock (lm_config m0) (cr_User row) t) as [cfg|] eqn:Ee; [|done]. cbn in H. injection H as <- <-.
    unfold effectiveSpeed in Ee.
    assert (exists base, resolveConfig (lm_config m0) (cr_User row) = Some base /\
      (0 < cr_UploadMbps row -> sc_UploadMbps base = cr_UploadMbps row) /\
      (0 < cr_DownloadMbps row -> sc_DownloadMbps base = cr_DownloadMbps row)) as (base & Hb & Hup & Hdown).
    { assert (cs_userGroups (lm_config m0) !! cr_User row = None) as H1.
      { unfold m0, applied. cbn [lm_config set_config cs_userGroups]. rewrite decide_True by done. apply lookup_delete_eq. }
      assert ((0 <? cr_UploadMbps row) || (0 <? cr_DownloadMbps row) = true) as H2.
      { apply orb_true_iff. apply andb_false_iff in Es as [?|?]; zbool; [left|right]; by apply Z.ltb_lt. }
      assert (cs_userOverrides (lm_config m0) !! cr_User row = Some (mkSpeedConfig (cr_UploadMbps row) (cr_DownloadMbps row) false)) as H3.
      { unfold m0, applied. cbn [lm_config set_config cs_userOverrides user slu_Name slu_UploadMbps slu_DownloadMbps].
        rewrite H2. apply lookup_insert_eq. }
      assert (cs_userRawConfig (lm_config m0) !! cr_User row = Some user) as H4 by apply lookup_insert_eq.
      unfold resolveConfig. rewrite H1, H3, H4. cbn. unfold pos_or.
      destruct (cr_PerClient row); eexists; (split; [done|]); cbn;
        (split; intros Hp; rewrite (proj2 (Z.ltb_lt _ _) Hp); done). }
    rewrite Hb in Ee. injection Ee as <-.
    assert (forall act b, (0 < cr_UploadMbps row -> sc_UploadMbps (applySchedule (lm_config m0) (cr_User row) act b) = sc_UploadMbps b) /\
      (0 < cr_DownloadMbps row -> sc_DownloadMbps (applySchedule (lm_config m0) (cr_User row) act b) = sc_DownloadMbps b)) as Hs.
    { intros act b. unfold applySchedule, hasFixedUserUploadOverride, hasFixedUserDownloadOverride. cbn.
      rewrite lookup_insert_eq. destruct act as [e|]; [|done]. cbn.
      split; intros Hp; rewrite (proj2 (Z.ltb_lt _ _) Hp); done. }
    split; intros Hp; rewrite !(proj1 (Hs _ _)) || rewrite !(proj2 (Hs _ _)); auto.
Qed.
End SpeedProps.

(** ** Witnesses *)

Module SpeedDemo.
#[global] Existing Instance text_exceptions.

(** A bucket as its rate and burst; it refuses what is larger than the burst. *)
#[export] Instance rate : RateLib := {|
  Limiter := float64 * Z;
  rate_Inf := F64 1 1023;
  rate_NewLimiter := fun l b => (l, b);
  SetLimit := fun l x => (l, x.2);
  SetBurst := fun b x => (x.1, b);
  Limit := fst;
  Burst := snd;
  WaitN := fun n x => (x, if x.2 <? n then Some (Errorf "exceeds limiter's burst") else None);
|}.

#[export] Instance rate_laws : RateLaws rate.
Proof. by split. Qed.

(** UTC. *)
Definition clock (unix : Z) : Z * Z := (Hour (unix * second), Minute (unix * second)).

(** Ten and twenty Mbps by default; Alice uploads at five. *)
Definition options : SpeedLimiterServiceOptions :=
  mkSpeedLimiterServiceOptions (Some (mkSpeedLimiterDefault 10 20 false 0)) []
    [mkSpeedLimiterUser "alice" "" 5 0 None]
    [mkSpeedLimiterSchedule "23:00-06:00" 0 50 []].

Definition m0 : LimiterManager :=
  match NewLimiterManager options with
  | Ok m => m
  | Err _ => mkLimiterManager (mkConfigSnapshot None ∅ ∅ ∅ ∅ [] ∅ 0) ∅ 0 false ∅
  end.
Definition t0 : Z := 1704067200 * second.
Definition m1 : LimiterManager := (GetOrCreateLimiterForClient clock "alice" None t0 m0).1.

Lemma speed_reach0 : speed_reachable clock m0.
Proof. apply (sr_new _ options). vm_compute. reflexivity. Qed.

Lemma speed_reach1 : speed_reachable clock m1.
Proof. eapply sr_step; [apply speed_reach0|]. by apply ss_get. Qed.

Lemma limiters1 : lm_limiters m1 = {["alice" := mkUserLimiter (Some 0%nat) (Some 1%nat) 1704067200]}.
Proof. vm_compute. reflexivity. Qed.

Lemma keys1 : keys_order m1 ["alice"].
Proof.
  split; [apply NoDup_singleton|]. intros k. rewrite limiters1, list_elem_of_singleton. split.
  - intros ->. rewrite lookup_singleton_eq. by eexists.
  - intros [ul H]. by apply lookup_singleton_Some in H as [<- _].
Qed.
End SpeedDemo.

Section SpeedWitnesses.
Import SpeedDemo.

Lemma resolveConfig_priority_witness :
  resolveConfig (lm_config m0) "alice" = Some (mkSpeedConfig 5 20 false) /\ sc_UploadMbps (mkSpeedConfig 5 20 false) = 5.
Proof.
  assert (resolveConfig (lm_config m0) "alice" = Some (mkSpeedConfig 5 20 false)) as H by (vm_compute; reflexivity).
  destruct (proj2 (resolveConfig_priority (lm_config m0) "alice") _ H) as [E _].
  split; [exact H|]. rewrite E. vm_compute. reflexivity.
Defined.

Lemma effectiveSpeed_schedules_witness :
  sc_DownloadMbps (mkSpeedConfig 5 50 false) = 50 /\ sc_UploadMbps (mkSpeedConfig 5 50 false) = 5.
Proof.
  destruct (effectiveSpeed_schedules clock (lm_config m0) "alice" t0 (mkSpeedConfig 5 50 false) (mkSpeedConfig 5 20 false))
    as (H1 & H2 & _); [vm_compute; reflexivity|vm_compute; reflexivity|].
  split; [rewrite H2|rewrite H1]; vm_compute; reflexivity.
Defined.

Lemma matchesTime_cyclic_witness : matchesTime (mkScheduleEntry 23 0 6 0 0 0 ∅) 1 30 = true.
Proof.
  rewrite matchesTime_cyclic; [reflexivity| |lia|lia]. unfold schedule_valid. cbn. lia.
Defined.

Lemma schedules_roundtrip_witness :
  let '(m', err) := ReplaceUserSchedules clock "alice" [mkUserSchedule "8:00 - 9:30" 1 2] t0 ["alice"] m1 in err = None.
Proof.
  pose proof (schedules_roundtrip clock m1 "alice" [mkUserSchedule "8:00 - 9:30" 1 2] t0 ["alice"] speed_reach1 keys1 ltac:(discriminate)) as H.
  destruct (ReplaceUserSchedules clock "alice" [mkUserSchedule "8:00 - 9:30" 1 2] t0 ["alice"] m1) as [m' err].
  assert (parseAll [mkUserSchedule "8:00 - 9:30" 1 2] [] = Ok [mkScheduleEntry 8 0 9 30 1 2 ∅]) as E by (vm_compute; reflexivity).
  rewrite E in H. apply H.
Defined.

Lemma limiters_run_at_current_speed_witness :
  exists up down, CurrentSpeed clock m1 (extractUserName "alice") = Some (up, down).
Proof.
  destruct (limiters_run_at_current_speed clock m1 "alice" (mkUserLimiter (Some 0%nat) (Some 1%nat) 1704067200) speed_reach1)
    as (up & down & H & _); [rewrite limiters1; apply lookup_singleton_eq|]. exists up, down. exact H.
Defined.

Lemma RoutedConnection_throttle_witness :
  exists up down, CurrentSpeed clock m0 "alice" = Some (up, down) /\ (0 < up \/ 0 < down).
Proof.
  destruct (RoutedConnection clock "alice" None t0 m0) as [m' [c|]] eqn:E; [|vm_compute in E; discriminate].
  destruct (RoutedConnection_throttle clock m0 "alice" None t0 m' c speed_reach0 eq_refl E) as [(up & down & H & _ & _ & Hp) _].
  exists up, down. split; [exact H|exact Hp].
Defined.

Lemma RemoveConfig_lifts_witness : GetConfig (RemoveConfig "alice" ["alice"] m1).1 "alice" = None.
Proof.
  destruct (RemoveConfig_lifts clock m1 "alice" ["alice"] speed_reach1 keys1) as [H _]; [discriminate|reflexivity|exact H].
Defined.

Lemma cleanExpired_exact_witness :
  lm_limiters (cleanExpiredClientLimiters (t0 + day) ["alice"] m1) !! "alice" = lm_limiters m1 !! "alice".
Proof.
  rewrite (cleanExpired_exact m1 (t0 + day) ["alice"] (proj1 keys1) (proj2 keys1) "alice"). vm_compute. reflexivity.
Defined.

Lemma waitN_charges_witness :
  foldr Z.add 0 (chunks (Z.to_nat 25) (Z.max 1 (Burst (RateLib := rate) (F64 1 0, 10))) 25) = 25.
Proof. apply (waitN_charges (RL := rate) 25 (F64 1 0, 10)). lia. Defined.

Lemma applyDynamic_speed_witness :
  let '(m', err) := applyDynamic clock t0 ["alice"] (mkConfigRow "alice" 7 0 None (F64 0 0) "" "" 0 false) m1 in err = None.
Proof.
  pose proof (applyDynamic_speed clock m1 t0 ["alice"] (mkConfigRow "alice" 7 0 None (F64 0 0) "" "" 0 false) speed_reach1 keys1
    ltac:(discriminate)) as H.
  destruct (applyDynamic clock t0 ["alice"] (mkConfigRow "alice" 7 0 None (F64 0 0) "" "" 0 false) m1) as [m' err]. apply H.
Defined.
End SpeedWitnesses.
