(* ===== verification/UserProvider.v ===== *)
(** * The user provider

    [service/userprovider]: the users of the managed inbounds, merged from the
    configuration, a file, an HTTP endpoint, Redis and PostgreSQL, with an
    overlay of run-time changes.  Every method that takes [access] is one
    transition of [Service]; the loops of the sources are given by the body of
    one iteration.

    What the outside answers to a call is a value of [Outside], and each read
    of the users of a source has one of its own: the file may change between
    two reads of the same method. *)

From stdpp Require Import sorting.
From S2P Require Import Prelude GoStrings GoTime.

Local Open Scope string_scope.
Local Open Scope list_scope.
Local Open Scope Z_scope.

(** ** Data *)

(** [option.User] and [adapter.User]. *)
Record OptionUser := mkOptionUser {
  ou_Name : string;
  ou_Password : string;
  ou_UUID : string;
  ou_AlterId : Z;
  ou_Flow : string;
}.

Record AdapterUser := mkAdapterUser {
  au_Name : string;
  au_Password : string;
  au_UUID : string;
  au_AlterId : Z;
  au_Flow : string;
}.

#[export] Instance OptionUser_eq_dec : EqDecision OptionUser.
Proof. solve_decision. Defined.
#[export] Instance AdapterUser_eq_dec : EqDecision AdapterUser.
Proof. solve_decision. Defined.

Definition zero_user : AdapterUser := mkAdapterUser "" "" "" 0 "".

Record UserPatch := mkUserPatch {
  up_Password : option string;
  up_UUID : option string;
  up_AlterId : option Z;
  up_Flow : option string;
}.

Definition optionUserToAdapter (u : OptionUser) : AdapterUser :=
  mkAdapterUser (ou_Name u) (ou_Password u) (ou_UUID u) (ou_AlterId u) (ou_Flow u).

Definition adapterUserToOption (u : AdapterUser) : OptionUser :=
  mkOptionUser (au_Name u) (au_Password u) (au_UUID u) (au_AlterId u) (au_Flow u).

(** The assignments of [UpdateUser] from the fields of the patch. *)
Definition patchUser (p : UserPatch) (u : OptionUser) : OptionUser :=
  mkOptionUser (ou_Name u)
    (default (ou_Password u) (up_Password p))
    (default (ou_UUID u) (up_UUID p))
    (default (ou_AlterId u) (up_AlterId p))
    (default (ou_Flow u) (up_Flow p)).

(** ** What the provider is given

    [sing/common/json], the inbound manager and the outbound manager are not
    part of the component.  An inbound supports managed users when the type
    assertion [asManaged] succeeds. *)
Class ProviderEnv `{EX : Exceptions} := {
  UnmarshalUsers : string -> result error (list OptionUser);
  inbound : Type;
  server : Type;
  inbound_Type : inbound -> string;
  asManaged : inbound -> option server;
  srv_Type : server -> string;
  srv_Tag : server -> string;
  ReplaceUsers : list AdapterUser -> server -> server * option error;
  dialer : Type;
}.

(** [*http.Client]: the shared default client, or one with its own transport. *)
Inductive HttpClient `{PE : ProviderEnv} :=
| DefaultClient
| TransportClient (d : dialer).

Record HttpResponse `{EX : Exceptions} := mkHttpResponse {
  rp_StatusCode : Z;
  rp_Status : string;
  rp_Etag : string;
  rp_Body : string;
  rp_BodyErr : option error;
}.

(** [pgx.Rows]: the result of [Scan] for each row, and [rows.Err]. *)
Record Rows `{EX : Exceptions} := mkRows {
  rw_rows : list (result error OptionUser);
  rw_Err : option error;
}.

(** The answers of the file system, the HTTP endpoint, Redis and PostgreSQL.
    [o_OutboundManager] is the manager of the context, when there is one: its
    [Outbound] and its [Default]. *)
Record Outside `{PE : ProviderEnv} := mkOutside {
  o_ReadFile : string -> result error string;
  o_Stat : string -> result error Z;
  o_OutboundManager : option ((string -> option dialer) * option dialer);
  o_NewRequest : string -> option error;
  o_Do : HttpClient -> string -> option string -> result error HttpResponse;
  o_RedisGet : string -> result error string;
  o_PgNew : string -> option error;
  o_Query : string -> result error Rows;
}.

Arguments DefaultClient {_ _}.
Arguments TransportClient {_ _} _.
Arguments mkHttpResponse {_} _ _ _ _ _.
Arguments mkRows {_} _ _.
Arguments mkOutside {_ _} _ _ _ _ _ _ _ _.

Section Sources.
Context `{PE : ProviderEnv}.

(** ** The file source *)

Record FileSource := mkFileSource {
  fs_path : string;
  fs_updateInterval : Z;
  fs_lastModTime : Z;
}.

Definition NewFileSource (path : string) (updateInterval : Z) : FileSource :=
  mkFileSource path (if updateInterval =? 0 then minute else updateInterval) zero_time.

Definition set_lastModTime (t : Z) (s : FileSource) : FileSource :=
  mkFileSource (fs_path s) (fs_updateInterval s) t.

Definition file_Load (w : Outside) (s : FileSource) : FileSource * result error (list OptionUser) :=
  match o_ReadFile w (fs_path s) with
  | Err err => (s, Err (E_Cause err ["read user file"]))
  | Ok content =>
      match UnmarshalUsers content with
      | Err err => (s, Err (E_Cause err ["parse user file"]))
      | Ok users =>
          (match o_Stat w (fs_path s) with Ok t => set_lastModTime t s | Err _ => s end, Ok users)
      end
  end.

(** One tick of [FileSource.Run]: [true] when [onUpdate] is called. *)
Definition file_tick (w : Outside) (s : FileSource) : FileSource * bool :=
  match o_Stat w (fs_path s) with
  | Err _ => (s, false)
  | Ok t => if fs_lastModTime s <? t then (set_lastModTime t s, true) else (s, false)
  end.

(** ** The HTTP source *)

Definition defaultHTTPSourceMaxResponseBytes : Z := 32 * 2 ^ 20.

Record HTTPSource := mkHTTPSource {
  hs_url : string;
  hs_updateInterval : Z;
  hs_downloadDetour : string;
  hs_lastEtag : string;
  hs_cachedUsers : list OptionUser;
  hs_client : option HttpClient;
  hs_closed : bool;
}.

Definition NewHTTPSource (url : string) (updateInterval : Z) (downloadDetour : string) : HTTPSource :=
  mkHTTPSource url (if updateInterval =? 0 then 5 * minute else updateInterval) downloadDetour "" [] None false.

Definition errHTTPSourceClosed : error := Errorf "user-provider http source closed".

Definition buildClientLocked (w : Outside) (s : HTTPSource) : result error HttpClient :=
  let default_dialer (d : option dialer) :=
    match d with
    | Some d => Ok (TransportClient d)
    | None =>
        match o_OutboundManager w with
        | Some (_, Some d) => Ok (TransportClient d)
        | _ => Ok DefaultClient
        end
    end in
  if decide (hs_downloadDetour s <> "") then
    match o_OutboundManager w with
    | Some (Outbound, _) =>
        match Outbound (hs_downloadDetour s) with
        | None => Err (E_New ["download detour not found: "; hs_downloadDetour s])
        | Some d => default_dialer (Some d)
        end
    | None => default_dialer None
    end
  else default_dialer None.

Definition ensureClient (w : Outside) (s : HTTPSource) : HTTPSource * result error HttpClient :=
  if hs_closed s then (s, Err errHTTPSourceClosed)
  else
    match hs_client s with
    | Some c => (s, Ok c)
    | None =>
        match buildClientLocked w s with
        | Err err => (s, Err err)
        | Ok c =>
            (mkHTTPSource (hs_url s) (hs_updateInterval s) (hs_downloadDetour s) (hs_lastEtag s)
               (hs_cachedUsers s) (Some c) (hs_closed s), Ok c)
        end
    end.

(** [io.ReadAll] of [http.MaxBytesReader]: a body over the limit is an error. *)
Definition readBody (limit : Z) (r : HttpResponse) : result error string :=
  if limit <? Z.of_nat (String.length (rp_Body r)) then Err (Errorf "http: request body too large")
  else match rp_BodyErr r with Some err => Err err | None => Ok (rp_Body r) end.

Definition http_fetch (w : Outside) (s : HTTPSource) : HTTPSource * option error :=
  let '(s, rc) := ensureClient w s in
  match rc with
  | Err err => (s, Some err)
  | Ok client =>
      match o_NewRequest w (hs_url s) with
      | Some err => (s, Some err)
      | None =>
          match o_Do w client (hs_url s) (if decide (hs_lastEtag s <> "") then Some (hs_lastEtag s) else None) with
          | Err err => (s, Some err)
          | Ok response =>
              if rp_StatusCode response =? 200 then
                match readBody defaultHTTPSourceMaxResponseBytes response with
                | Err err => (s, Some (E_Cause err ["read users response"]))
                | Ok content =>
                    match UnmarshalUsers content with
                    | Err err => (s, Some (E_Cause err ["parse users response"]))
                    | Ok users =>
                        (mkHTTPSource (hs_url s) (hs_updateInterval s) (hs_downloadDetour s)
                           (if decide (rp_Etag response <> "") then rp_Etag response else hs_lastEtag s)
                           users (hs_client s) (hs_closed s), None)
                    end
                end
              else if rp_StatusCode response =? 304 then (s, None)
              else (s, Some (E_New ["unexpected status: "; rp_Status response]))
          end
      end
  end.

(** [Close]; [true] when the idle connections of the client are closed. *)
Definition http_Close (s : HTTPSource) : HTTPSource * bool :=
  if hs_closed s then (s, false)
  else
    (mkHTTPSource (hs_url s) (hs_updateInterval s) (hs_downloadDetour s) (hs_lastEtag s)
       (hs_cachedUsers s) (hs_client s) true,
     match hs_client s with Some (TransportClient _) => true | _ => false end).

(** ** The Redis source *)

Record RedisSource := mkRedisSource {
  rd_key : string;
  rd_channel : string;
  rd_updateInterval : Z;
  rd_cachedUsers : list OptionUser;
}.

Definition NewRedisSource (key channel : string) (updateInterval : Z) : RedisSource :=
  mkRedisSource key (if decide (channel = "") then key +:+ ":notify" else channel)
    (if updateInterval =? 0 then 30 * second else updateInterval) [].

Definition redis_fetch (w : Outside) (s : RedisSource) : RedisSource * option error :=
  match o_RedisGet w (rd_key s) with
  | Err err => (s, Some (E_Cause err ["redis GET "; rd_key s]))
  | Ok result =>
      match UnmarshalUsers result with
      | Err err => (s, Some (E_Cause err ["parse redis users"]))
      | Ok users => (mkRedisSource (rd_key s) (rd_channel s) (rd_updateInterval s) users, None)
      end
  end.

(** ** The PostgreSQL source *)

Record PostgresSource := mkPostgresSource {
  pg_connectionString : string;
  pg_table : string;
  pg_notifyChannel : string;
  pg_updateInterval : Z;
  pg_pool : bool;
  pg_cachedUsers : list OptionUser;
}.

Definition NewPostgresSource (connectionString table notifyChannel : string) (updateInterval : Z) : PostgresSource :=
  mkPostgresSource connectionString
    (if decide (table = "") then "users" else table)
    (if decide (notifyChannel = "") then "user_changes" else notifyChannel)
    (if updateInterval =? 0 then minute else updateInterval) false [].

Definition postgres_Start (w : Outside) (s : PostgresSource) : PostgresSource * option error :=
  match o_PgNew w (pg_connectionString s) with
  | Some err => (s, Some (E_Cause err ["connect to PostgreSQL"]))
  | None =>
      (mkPostgresSource (pg_connectionString s) (pg_table s) (pg_notifyChannel s) (pg_updateInterval s) true
         (pg_cachedUsers s), None)
  end.

(** The loop over the rows stops at the first that does not scan. *)
Fixpoint scanRows (rows : list (result error OptionUser)) (users : list OptionUser) : result error (list OptionUser) :=
  match rows with
  | [] => Ok users
  | Err err :: _ => Err (E_Cause err ["scan user row"])
  | Ok u :: rows => scanRows rows (users ++ [u])
  end.

Definition userQuery (table : string) : string :=
  "SELECT name, COALESCE(password, ''), COALESCE(uuid, ''), COALESCE(alter_id, 0), COALESCE(flow, '') FROM " +:+ table.

(** A query on a pool that was not opened is a nil dereference. *)
Definition postgres_fetch (w : Outside) (s : PostgresSource) : outcome (PostgresSource * option error) :=
  if negb (pg_pool s) then Panic
  else
    Ret match o_Query w (userQuery (pg_table s)) with
        | Err err => (s, Some (E_Cause err ["query users table"]))
        | Ok rows =>
            match scanRows (rw_rows rows) [] with
            | Err err => (s, Some err)
            | Ok users =>
                match rw_Err rows with
                | Some err => (s, Some (E_Cause err ["iterate user rows"]))
                | None =>
                    (mkPostgresSource (pg_connectionString s) (pg_table s) (pg_notifyChannel s)
                       (pg_updateInterval s) (pg_pool s) users, None)
                end
            end
        end.

End Sources.

Section Service.
Context `{PE : ProviderEnv}.

(** ** The service

    A nil overlay or set of deleted names, which only a literal [Service] can
    have, reads as the empty one, so [ensureOverlayUsersLocked] and
    [ensureDeletedUsersLocked] are the identity. *)
Record Service := mkService {
  up_inboundTags : list string;
  up_servers : list server;
  up_inlineUsers : list OptionUser;
  up_overlayUsers : gmap string OptionUser;
  up_deletedUsers : gset string;
  up_fileSource : option FileSource;
  up_httpSource : option HTTPSource;
  up_redisSource : option RedisSource;
  up_postgresSource : option PostgresSource;
  up_allUsers : list AdapterUser;
}.

Definition set_servers (x : list server) (s : Service) : Service :=
  mkService (up_inboundTags s) x (up_inlineUsers s) (up_overlayUsers s) (up_deletedUsers s)
    (up_fileSource s) (up_httpSource s) (up_redisSource s) (up_postgresSource s) (up_allUsers s).
Definition set_overlay (x : gmap string OptionUser) (d : gset string) (s : Service) : Service :=
  mkService (up_inboundTags s) (up_servers s) (up_inlineUsers s) x d
    (up_fileSource s) (up_httpSource s) (up_redisSource s) (up_postgresSource s) (up_allUsers s).
Definition set_file (x : option FileSource) (s : Service) : Service :=
  mkService (up_inboundTags s) (up_servers s) (up_inlineUsers s) (up_overlayUsers s) (up_deletedUsers s)
    x (up_httpSource s) (up_redisSource s) (up_postgresSource s) (up_allUsers s).
Definition set_http (x : option HTTPSource) (s : Service) : Service :=
  mkService (up_inboundTags s) (up_servers s) (up_inlineUsers s) (up_overlayUsers s) (up_deletedUsers s)
    (up_fileSource s) x (up_redisSource s) (up_postgresSource s) (up_allUsers s).
Definition set_redis (x : option RedisSource) (s : Service) : Service :=
  mkService (up_inboundTags s) (up_servers s) (up_inlineUsers s) (up_overlayUsers s) (up_deletedUsers s)
    (up_fileSource s) (up_httpSource s) x (up_postgresSource s) (up_allUsers s).
Definition set_postgres (x : option PostgresSource) (s : Service) : Service :=
  mkService (up_inboundTags s) (up_servers s) (up_inlineUsers s) (up_overlayUsers s) (up_deletedUsers s)
    (up_fileSource s) (up_httpSource s) (up_redisSource s) x (up_allUsers s).
Definition set_allUsers (x : list AdapterUser) (s : Service) : Service :=
  mkService (up_inboundTags s) (up_servers s) (up_inlineUsers s) (up_overlayUsers s) (up_deletedUsers s)
    (up_fileSource s) (up_httpSource s) (up_redisSource s) (up_postgresSource s) x.

(** [option.UserProviderServiceOptions], with the sources already built. *)
Record ServiceOptions := mkServiceOptions {
  uo_Inbounds : list string;
  uo_Users : list OptionUser;
  uo_File : option FileSource;
  uo_HTTP : option HTTPSource;
  uo_Redis : option RedisSource;
  uo_Postgres : option PostgresSource;
}.

Definition NewService (options : ServiceOptions) : result error Service :=
  match uo_Inbounds options with
  | [] => Err (E_New ["missing inbounds"])
  | _ =>
      Ok (mkService (uo_Inbounds options) [] (uo_Users options) ∅ ∅
            (uo_File options) (uo_HTTP options) (uo_Redis options) (uo_Postgres options) [])
  end.

(** *** Merging *)

Definition sourceUsersLocked (w : Outside) (s : Service) : Service * result error (list AdapterUser) :=
  let rest :=
    map optionUserToAdapter (match up_httpSource s with Some h => hs_cachedUsers h | None => [] end) ++
    map optionUserToAdapter (match up_redisSource s with Some r => rd_cachedUsers r | None => [] end) ++
    map optionUserToAdapter (match up_postgresSource s with Some p => pg_cachedUsers p | None => [] end) in
  let inline := map optionUserToAdapter (up_inlineUsers s) in
  match up_fileSource s with
  | None => (s, Ok (inline ++ rest))
  | Some f =>
      let '(f, r) := file_Load w f in
      (set_file (Some f) s,
       match r with
       | Err err => Err (E_Cause err ["load file source"])
       | Ok fileUsers => Ok (inline ++ map optionUserToAdapter fileUsers ++ rest)
       end)
  end.

(** One turn of the loop over the users of the sources. *)
Definition mergeSource (deleted : gset string) (acc : gmap string AdapterUser * list string) (user : AdapterUser)
    : gmap string AdapterUser * list string :=
  let '(mergedUsers, userNames) := acc in
  if decide (au_Name user ∈ deleted) then acc
  else
    (<[au_Name user := user]> mergedUsers,
     match mergedUsers !! au_Name user with
     | None => userNames ++ [au_Name user]
     | Some _ => userNames
     end).

(** One turn of the loop over the overlay. *)
Definition mergeOverlay (acc : gmap string AdapterUser * list string) (kv : string * OptionUser)
    : gmap string AdapterUser * list string :=
  let '(mergedUsers, overlayOnlyNames) := acc in
  (<[kv.1 := optionUserToAdapter kv.2]> mergedUsers,
   match mergedUsers !! kv.1 with
   | None => overlayOnlyNames ++ [kv.1]
   | Some _ => overlayOnlyNames
   end).

(** [sort.Strings]. *)
Definition sortStrings (l : list string) : list string := merge_sort String.le l.

(** The merge, given the order in which the overlay is iterated. *)
Definition mergeUsers (sourceUsers : list AdapterUser) (deleted : gset string) (overlay : list (string * OptionUser))
    : list AdapterUser :=
  let '(mergedUsers, userNames) := foldl (mergeSource deleted) (∅, []) sourceUsers in
  let '(mergedUsers, overlayOnlyNames) := foldl mergeOverlay (mergedUsers, []) overlay in
  map (fun name => default zero_user (mergedUsers !! name)) (userNames ++ sortStrings overlayOnlyNames).

Definition mergedUsersLocked (w : Outside) (s : Service) : Service * result error (list AdapterUser) :=
  let '(s, r) := sourceUsersLocked w s in
  (s, match r with
      | Err err => Err err
      | Ok sourceUsers => Ok (mergeUsers sourceUsers (up_deletedUsers s) (map_to_list (up_overlayUsers s)))
      end).

(** *** Pushing *)

Definition pushOne (users : list AdapterUser) (acc : list server * list error) (srv : server) : list server * list error :=
  let '(servers, errs) := acc in
  let '(srv', err) := ReplaceUsers users srv in
  (servers ++ [srv'],
   match err with
   | Some err => errs ++ [E_Cause err ["push to inbound/"; srv_Type srv'; "["; srv_Tag srv'; "]"]]
   | None => errs
   end).

(** Every server gets the list, whatever the ones before it answered. *)
Definition pushUsers (users : list AdapterUser) (s : Service) : Service * option error :=
  let '(servers, errs) := foldl (pushOne users) ([], []) (up_servers s) in
  (set_servers servers s, match errs with [] => None | _ => E_Errors errs end).

Definition loadAndPushLocked (w : Outside) (s : Service) : Service * option error :=
  let '(s, r) := mergedUsersLocked w s in
  match r with
  | Err err => (s, Some err)
  | Ok allUsers => pushUsers allUsers (set_allUsers allUsers s)
  end.

Definition loadAndPush (w : Outside) (s : Service) : Service * option error := loadAndPushLocked w s.

(** The error is logged. *)
Definition onSourceUpdate (w : Outside) (s : Service) : Service := (loadAndPush w s).1.

(** *** Start-up and shut-down *)

Fixpoint resolveServers (Get : string -> option inbound) (tags : list string) (servers : list server)
    : list server * option error :=
  match tags with
  | [] => (servers, None)
  | tag :: tags =>
      match Get tag with
      | None => (servers, Some (E_New ["inbound "; tag; " not found"]))
      | Some ib =>
          match asManaged ib with
          | None =>
              (servers, Some (E_New ["inbound/"; inbound_Type ib; "["; tag; "] does not support user-provider"]))
          | Some srv => resolveServers Get tags (servers ++ [srv])
          end
      end
  end.

(** The stage [StartStateStart]; the loops of the sources run from here on. *)
Definition Start (Get : string -> option inbound) (w : Outside) (s : Service) : Service * option error :=
  let '(servers, err) := resolveServers Get (up_inboundTags s) (up_servers s) in
  let s := set_servers servers s in
  match err with
  | Some err => (s, Some err)
  | None =>
      let '(s, err) := loadAndPush w s in
      match err with
      | Some err => (s, Some (E_Cause err ["initial user load"]))
      | None =>
          match up_postgresSource s with
          | None => (s, None)
          | Some p =>
              let '(p, err) := postgres_Start w p in
              (set_postgres (Some p) s,
               match err with Some err => Some (E_Cause err ["start PostgreSQL source"]) | None => None end)
          end
      end
  end.

(** Closing: the HTTP source refuses further fetches.  The Redis client and the
    PostgreSQL pool are closed by their drivers. *)
Definition Close (s : Service) : Service :=
  set_http (match up_httpSource s with Some h => Some (http_Close h).1 | None => None end) s.

(** *** The loops of the sources: one iteration, then [onSourceUpdate] when it
    is called.  The first fetch of a [Run], each poll and each notification
    have the same body; [w'] answers the reads of the update. *)
Definition fileRun (w w' : Outside) (s : Service) : Service :=
  match up_fileSource s with
  | None => s
  | Some f =>
      let '(f, update) := file_tick w f in
      let s := set_file (Some f) s in
      if update then onSourceUpdate w' s else s
  end.

Definition httpRun (w w' : Outside) (s : Service) : Service :=
  match up_httpSource s with
  | None => s
  | Some h =>
      let '(h, err) := http_fetch w h in
      let s := set_http (Some h) s in
      match err with Some _ => s | None => onSourceUpdate w' s end
  end.

Definition redisRun (w w' : Outside) (s : Service) : Service :=
  match up_redisSource s with
  | None => s
  | Some r =>
      let '(r, err) := redis_fetch w r in
      let s := set_redis (Some r) s in
      match err with Some _ => s | None => onSourceUpdate w' s end
  end.

Definition postgresRun (w w' : Outside) (s : Service) : outcome Service :=
  match up_postgresSource s with
  | None => Ret s
  | Some p =>
      '(p, err) ← postgres_fetch w p;
      let s := set_postgres (Some p) s in
      Ret match err with Some _ => s | None => onSourceUpdate w' s end
  end.

(** *** Operations *)

Definition ListUsers (s : Service) : list AdapterUser := up_allUsers s.

(** The loops that look a name up stop at the first user that has it. *)
Fixpoint findUser (name : string) (users : list AdapterUser) : option AdapterUser :=
  match users with
  | [] => None
  | user :: users => if decide (au_Name user = name) then Some user else findUser name users
  end.

Definition GetUser (name : string) (s : Service) : option AdapterUser := findUser name (up_allUsers s).

Definition CreateUser (w1 w2 : Outside) (user : OptionUser) (s : Service) : Service * option error :=
  if decide (ou_Name user = "") then (s, Some (E_New ["missing name"]))
  else
    let '(s, r) := mergedUsersLocked w1 s in
    match r with
    | Err err => (s, Some err)
    | Ok users =>
        match findUser (ou_Name user) users with
        | Some _ => (s, Some (E_New ["user "; ou_Name user; " already exists"]))
        | None =>
            loadAndPushLocked w2
              (set_overlay (<[ou_Name user := user]> (up_overlayUsers s)) (up_deletedUsers s ∖ {[ou_Name user]}) s)
        end
    end.

Definition UpdateUser (w1 w2 : Outside) (name : string) (patch : UserPatch) (s : Service) : Service * option error :=
  let '(s, r) := mergedUsersLocked w1 s in
  match r with
  | Err err => (s, Some err)
  | Ok users =>
      match findUser name users with
      | None => (s, Some (E_New ["user "; name; " not found"]))
      | Some currentUser =>
          let updatedUser := patchUser patch (adapterUserToOption currentUser) in
          loadAndPushLocked w2
            (set_overlay (<[name := updatedUser]> (up_overlayUsers s)) (up_deletedUsers s ∖ {[name]}) s)
      end
  end.

Definition DeleteUser (w1 w2 w3 : Outside) (name : string) (s : Service) : Service * option error :=
  let '(s, r) := mergedUsersLocked w1 s in
  match r with
  | Err err => (s, Some err)
  | Ok users =>
      match findUser name users with
      | None => (s, Some (E_New ["user "; name; " not found"]))
      | Some _ =>
          let '(s, r) := sourceUsersLocked w2 s in
          match r with
          | Err err => (s, Some err)
          | Ok sourceUsers =>
              let deleted :=
                match findUser name sourceUsers with
                | Some _ => {[name]} ∪ up_deletedUsers s
                | None => up_deletedUsers s ∖ {[name]}
                end in
              loadAndPushLocked w3 (set_overlay (delete name (up_overlayUsers s)) deleted s)
          end
      end
  end.

End Service.

Arguments mkService {_ _} _ _ _ _ _ _ _ _ _ _.
