(* ===== verification/UserProviderProps.v ===== *)
(** * Correctness of the user provider

    The abstract view of the provider is a finite map from names to users: the
    overlay over the last entry of each name of the sources that is not marked
    deleted.  The merge lists that map, each operation is the map operation of
    its name, and every run keeps the invariant the merge relies on. *)

From stdpp Require Import sorting.
From S2P Require Import Prelude GoStrings GoTime UserProvider.

Local Open Scope string_scope.
Local Open Scope list_scope.
Local Open Scope Z_scope.

(** ** The abstract view *)

(** The last entry of each name that is not deleted. *)
Definition sourceView (deleted : gset string) (src : list AdapterUser) : gmap string AdapterUser :=
  list_to_map (reverse ((fun u => (au_Name u, u)) <$> filter (fun u => au_Name u ∉ deleted) src)).

Definition usersView (overlay : gmap string OptionUser) (deleted : gset string) (src : list AdapterUser)
    : gmap string AdapterUser :=
  (optionUserToAdapter <$> overlay) ∪ sourceView deleted src.

(** Overlay entries are stored under their names. *)
Definition overlay_keyed (overlay : gmap string OptionUser) : Prop :=
  map_Forall (fun k u => ou_Name u = k) overlay.

(** A list of users lists a map: one entry for each name, under that name. *)
Definition lists (users : list AdapterUser) (m : gmap string AdapterUser) : Prop :=
  NoDup (map au_Name users) /\ forall name, findUser name users = m !! name.

Lemma sourceView_snoc deleted src u :
  sourceView deleted (src ++ [u]) =
  if decide (au_Name u ∈ deleted) then sourceView deleted src
  else <[au_Name u := u]> (sourceView deleted src).
Proof.
  unfold sourceView. rewrite filter_app, fmap_app, reverse_app.
  destruct (decide (au_Name u ∈ deleted)).
  - rewrite (filter_cons_False _ u []) by tauto. done.
  - rewrite (filter_cons_True _ u []) by done. done.
Qed.

Lemma sourceView_named deleted src name u : sourceView deleted src !! name = Some u -> au_Name u = name.
Proof.
  unfold sourceView. intros H. apply elem_of_list_to_map_2 in H.
  rewrite elem_of_reverse in H. apply list_elem_of_fmap in H as (x & [= -> ->] & _). done.
Qed.

Lemma sourceView_is_Some deleted src name :
  is_Some (sourceView deleted src !! name) <-> name ∉ deleted /\ exists u, u ∈ src /\ au_Name u = name.
Proof.
  induction src as [|u src IH] using rev_ind.
  - split; [intros [? H]; done|intros (_ & u & H & _); set_solver].
  - rewrite sourceView_snoc. destruct (decide (au_Name u ∈ deleted)) as [Hd|Hd].
    + rewrite IH. set_solver.
    + destruct (decide (au_Name u = name)) as [<-|Hne].
      * rewrite lookup_insert_eq. set_solver.
      * rewrite lookup_insert_ne, IH by done. set_solver.
Qed.

Lemma overlay_keyed_insert overlay u : overlay_keyed overlay -> overlay_keyed (<[ou_Name u := u]> overlay).
Proof. apply map_Forall_insert_2. done. Qed.

Lemma overlay_keyed_delete overlay name : overlay_keyed overlay -> overlay_keyed (delete name overlay).
Proof. apply map_Forall_delete. Qed.

Lemma usersView_named overlay deleted src name u :
  overlay_keyed overlay -> usersView overlay deleted src !! name = Some u -> au_Name u = name.
Proof.
  intros Hk H. unfold usersView in H. apply lookup_union_Some_raw in H as [H|[_ H]].
  - rewrite lookup_fmap in H. destruct (overlay !! name) as [o|] eqn:E; [|done].
    injection H as <-. by apply Hk in E.
  - by eapply sourceView_named.
Qed.

(** Whether a name is deleted only matters for the users that have it. *)
Lemma sourceView_ext d d' src name : (name ∈ d <-> name ∈ d') -> sourceView d src !! name = sourceView d' src !! name.
Proof.
  intros H. induction src as [|u src IH] using rev_ind; [done|]. rewrite !sourceView_snoc.
  destruct (decide (au_Name u = name)) as [<-|Hne].
  - destruct (decide (au_Name u ∈ d)), (decide (au_Name u ∈ d')); try tauto. by rewrite !lookup_insert_eq.
  - destruct (decide (au_Name u ∈ d)), (decide (au_Name u ∈ d')); by rewrite ?lookup_insert_ne.
Qed.

Lemma sourceView_None d src name : name ∈ d \/ findUser name src = None -> sourceView d src !! name = None.
Proof.
  intros H. destruct (sourceView d src !! name) eqn:E; [|done].
  assert (is_Some (sourceView d src !! name)) as (Hn & u & Hu & Hun)%sourceView_is_Some by by rewrite E.
  destruct H as [H|H]; [done|]. exfalso. revert H Hu Hun. clear. induction src as [|v src IH]; [set_solver|]. cbn.
  destruct (decide (au_Name v = name)); [done|]. set_solver.
Qed.

Lemma usersView_insert overlay d src u :
  usersView (<[ou_Name u := u]> overlay) (d ∖ {[ou_Name u]}) src =
  <[ou_Name u := optionUserToAdapter u]> (usersView overlay d src).
Proof.
  apply map_eq. intros k. unfold usersView. rewrite lookup_union, lookup_fmap.
  destruct (decide (ou_Name u = k)) as [<-|Hne].
  - rewrite !lookup_insert_eq. cbn. by destruct (_ !! _).
  - rewrite !lookup_insert_ne, lookup_union, lookup_fmap by done. f_equal. apply sourceView_ext. set_solver.
Qed.

Lemma usersView_delete overlay d d' src name :
  (forall k, k <> name -> k ∈ d' <-> k ∈ d) -> name ∈ d' \/ findUser name src = None ->
  usersView (delete name overlay) d' src = delete name (usersView overlay d src).
Proof.
  intros Hd Hn. apply map_eq. intros k. unfold usersView. rewrite lookup_union, lookup_fmap.
  destruct (decide (name = k)) as [<-|Hne].
  - rewrite !lookup_delete_eq, sourceView_None by done. done.
  - rewrite !lookup_delete_ne, lookup_union, lookup_fmap by done. f_equal. apply sourceView_ext. by apply Hd.
Qed.

(** ** The merge lists the view *)

Lemma foldl_mergeSource deleted src :
  let acc := foldl (mergeSource deleted) (∅, []) src in
  acc.1 = sourceView deleted src /\ NoDup acc.2 /\ (forall n, n ∈ acc.2 <-> is_Some (acc.1 !! n)).
Proof.
  induction src as [|u src IH] using rev_ind.
  - split_and!; [done|apply NoDup_nil_2|]. intros n. cbn. rewrite lookup_empty. split; [set_solver|by intros [? ?]].
  - rewrite foldl_app, sourceView_snoc. cbn [foldl].
    destruct (foldl (mergeSource deleted) (∅, []) src) as [m names]. cbn in IH. destruct IH as (-> & Hnd & Hin).
    unfold mergeSource. destruct (decide (au_Name u ∈ deleted)) as [Hd|Hd]; [done|]. cbn [fst snd].
    destruct (sourceView deleted src !! au_Name u) as [v|] eqn:E.
    + split_and!; [done|done|]. intros n. rewrite Hin.
      destruct (decide (au_Name u = n)) as [<-|]; [rewrite E, lookup_insert_eq|rewrite lookup_insert_ne by done]; done.
    + split_and!; [done| |].
      * apply NoDup_app. split_and!; [done| |apply NoDup_singleton].
        intros x Hx ->%list_elem_of_singleton. apply Hin in Hx as [? Hx]. congruence.
      * intros n. rewrite elem_of_app, Hin, list_elem_of_singleton.
        destruct (decide (au_Name u = n)) as [<-|]; [rewrite lookup_insert_eq; naive_solver|].
        rewrite lookup_insert_ne by done. naive_solver.
Qed.

Lemma foldl_mergeOverlay m0 (l : list (string * OptionUser)) : NoDup l.*1 ->
  foldl mergeOverlay (m0, []) l =
  ((optionUserToAdapter <$> list_to_map l) ∪ m0, filter (fun n => m0 !! n = None) l.*1).
Proof.
  induction l as [|[k u] l IH] using rev_ind; intros Hnd.
  - cbn. rewrite fmap_empty, map_empty_union. done.
  - rewrite foldl_app. rewrite fmap_app in Hnd. cbn [fmap list_fmap] in Hnd.
    apply NoDup_app in Hnd as (Hnd & Hk & _).
    assert (k ∉ l.*1) as Hkl by (intros H; eapply Hk; [exact H|set_solver]).
    rewrite IH by done. cbn [foldl]. unfold mergeOverlay. cbn [fst snd].
    assert ((list_to_map l : gmap string OptionUser) !! k = None) as Hl by by apply not_elem_of_list_to_map_1.
    f_equal.
    + rewrite list_to_map_snoc, fmap_insert, insert_union_l by done. done.
    + rewrite lookup_union, lookup_fmap, Hl, fmap_app, filter_app. cbn.
      destruct (m0 !! k) as [v|] eqn:E; cbn; destruct (decide _); try congruence; by rewrite ?app_nil_r.
Qed.

Lemma findUser_listed (f : string -> AdapterUser) names name :
  NoDup names -> (forall n, n ∈ names -> au_Name (f n) = n) ->
  findUser name (map f names) = if decide (name ∈ names) then Some (f name) else None.
Proof.
  intros Hnd Hf. induction names as [|n names IH]; [done|]. cbn [map findUser].
  apply NoDup_cons in Hnd as [Hn Hnd]. rewrite Hf by set_solver.
  destruct (decide (n = name)) as [->|Hne].
  - rewrite decide_True by set_solver. done.
  - rewrite IH; [|done|set_solver]. destruct (decide (name ∈ names)).
    + rewrite decide_True by set_solver. done.
    + rewrite decide_False by set_solver. done.
Qed.

(** The names in the order of the merge. *)
Definition mergedNames (src : list AdapterUser) (deleted : gset string) (l : list (string * OptionUser)) : list string :=
  (foldl (mergeSource deleted) (∅, []) src).2 ++
  sortStrings (filter (fun n => sourceView deleted src !! n = None) l.*1).

Lemma mergeUsers_names overlay deleted src l :
  l ≡ₚ map_to_list overlay ->
  mergeUsers src deleted l =
    map (fun n => default zero_user (usersView overlay deleted src !! n)) (mergedNames src deleted l) /\
  NoDup (mergedNames src deleted l) /\
  (forall n, n ∈ mergedNames src deleted l <-> is_Some (usersView overlay deleted src !! n)).
Proof.
  intros Hl. assert (NoDup l.*1) as Hnd by (rewrite Hl; apply NoDup_fst_map_to_list).
  assert (list_to_map l = overlay) as Hm.
  { rewrite (list_to_map_proper l (map_to_list overlay)) by done. apply list_to_map_to_list. }
  assert (forall n, n ∈ l.*1 <-> is_Some (overlay !! n)) as Hin.
  { intros n. rewrite <-Hm. split.
    - intros H. destruct (list_to_map l !! n) eqn:E; [done|]. by apply not_elem_of_list_to_map_2 in E.
    - intros [x Hx]. apply elem_of_list_to_map_2 in Hx. apply list_elem_of_fmap. by exists (n, x). }
  unfold mergeUsers, mergedNames. pose proof (foldl_mergeSource deleted src) as Hs.
  destruct (foldl (mergeSource deleted) (∅, []) src) as [m names]. cbn [fst snd] in *. destruct Hs as (-> & Hn & Hns).
  rewrite foldl_mergeOverlay, Hm by done. fold (usersView overlay deleted src).
  set (extra := filter (fun n => sourceView deleted src !! n = None) l.*1).
  assert (sortStrings extra ≡ₚ extra) as Hp by apply merge_sort_Permutation. split_and!; [done| |].
  - apply NoDup_app. split_and!; [done| |rewrite Hp; by apply NoDup_filter].
    intros n Hx. rewrite Hp. intros [He _]%list_elem_of_filter. apply Hns in Hx as [? Hx]. congruence.
  - intros n. rewrite elem_of_app, Hp, Hns. unfold extra. rewrite list_elem_of_filter, Hin.
    unfold usersView. rewrite lookup_union, lookup_fmap.
    destruct (overlay !! n), (sourceView deleted src !! n); cbn;
      split; intros H; eauto; destruct H as [[? ?]|[? [? ?]]] || destruct H as [? ?]; try done; eauto.
Qed.

Lemma mergeUsers_lists overlay deleted src l :
  overlay_keyed overlay -> l ≡ₚ map_to_list overlay ->
  lists (mergeUsers src deleted l) (usersView overlay deleted src).
Proof.
  intros Hk Hl. destruct (mergeUsers_names overlay deleted src l Hl) as (-> & Hnd & Hin).
  set (f := fun n => default zero_user (usersView overlay deleted src !! n)).
  assert (forall n, n ∈ mergedNames src deleted l -> au_Name (f n) = n) as Hf.
  { intros n [u Hu]%Hin. unfold f. rewrite Hu. cbn. by eapply usersView_named. }
  split.
  - rewrite map_map. rewrite (map_ext_in _ id); [by rewrite map_id|].
    intros n Hn. apply Hf. by apply list_elem_of_In.
  - intros name. rewrite findUser_listed by done. unfold f.
    destruct (decide (name ∈ _)) as [H|H]; rewrite Hin in H.
    + destruct H as [u ->]. done.
    + symmetry. destruct (_ !! name); [|done]. destruct H. eauto.
Qed.

(** The order of the merge does not depend on the iteration over the overlay. *)
Lemma mergeUsers_order overlay deleted src l1 l2 :
  l1 ≡ₚ map_to_list overlay -> l2 ≡ₚ map_to_list overlay ->
  mergeUsers src deleted l1 = mergeUsers src deleted l2.
Proof.
  intros H1 H2. destruct (mergeUsers_names overlay deleted src l1 H1) as (-> & _).
  destruct (mergeUsers_names overlay deleted src l2 H2) as (-> & _). f_equal.
  unfold mergedNames. f_equal. unfold sortStrings.
  apply (Sorted_unique String.le); try (apply Sorted_merge_sort; apply _).
  rewrite !merge_sort_Permutation. by rewrite H1, H2.
Qed.

Section Provider.
Context `{PE : ProviderEnv}.

(** ** Frames *)

(** The states the same sources feed: the time of the last read of the file
    does not matter. *)
Definition same_sources (s s' : Service) : Prop :=
  up_inlineUsers s = up_inlineUsers s' /\ up_httpSource s = up_httpSource s' /\
  up_redisSource s = up_redisSource s' /\ up_postgresSource s = up_postgresSource s' /\
  fs_path <$> up_fileSource s = fs_path <$> up_fileSource s'.

#[local] Instance same_sources_equiv : Equivalence same_sources.
Proof. split; unfold same_sources; [intros ?|intros ???|intros ?????]; naive_solver congruence. Qed.

(** What a read of the sources gives. *)
Definition loads (w : Outside) (s : Service) : result error (list AdapterUser) := (sourceUsersLocked w s).2.

Definition view (s : Service) (src : list AdapterUser) : gmap string AdapterUser :=
  usersView (up_overlayUsers s) (up_deletedUsers s) src.

Lemma file_Load_path w f : fs_path (file_Load w f).1 = fs_path f.
Proof. unfold file_Load. repeat case_goal; done. Qed.

Lemma file_Load_proper w f f' : fs_path f = fs_path f' -> (file_Load w f).2 = (file_Load w f').2.
Proof. intros H. unfold file_Load. rewrite H. repeat case_goal; done. Qed.

#[local] Instance loads_proper w : Proper (same_sources ==> eq) (loads w).
Proof.
  intros s s' (Hi & Hh & Hr & Hp & Hf). unfold loads, sourceUsersLocked. rewrite Hi, Hh, Hr, Hp.
  destruct (up_fileSource s) as [f|], (up_fileSource s') as [f'|]; try discriminate Hf; [|done].
  injection Hf as Hf. apply (file_Load_proper w) in Hf.
  destruct (file_Load w f), (file_Load w f'). cbn in *. by subst.
Qed.

(** A read only moves the time of the file source. *)
Lemma sourceUsersLocked_frame w s : exists f,
  sourceUsersLocked w s = (set_file f s, loads w s) /\ same_sources s (set_file f s).
Proof.
  unfold loads, sourceUsersLocked. pose proof (file_Load_path w) as Hp.
  destruct (up_fileSource s) as [f|] eqn:E.
  - specialize (Hp f). destruct (file_Load w f) as [f' r]. exists (Some f'). split; [done|].
    split_and!; try done. cbn. rewrite E. cbn in *. by rewrite Hp.
  - exists None. split; [|split_and!; try done; cbn; by rewrite E]. f_equal. destruct s. cbn in *. by subst.
Qed.

Lemma mergedUsersLocked_frame w s : exists f,
  mergedUsersLocked w s =
    (set_file f s,
     match loads w s with
     | Ok src => Ok (mergeUsers src (up_deletedUsers s) (map_to_list (up_overlayUsers s)))
     | Err err => Err err
     end) /\ same_sources s (set_file f s).
Proof.
  destruct (sourceUsersLocked_frame w s) as (f & Hf & Hs). exists f.
  unfold mergedUsersLocked. rewrite Hf. done.
Qed.

Lemma foldl_pushOne users srvs acc :
  foldl (pushOne users) acc srvs =
  (acc.1 ++ map (fun v => (ReplaceUsers users v).1) srvs,
   acc.2 ++ omap (fun v => match (ReplaceUsers users v).2 with
                           | Some err => Some (E_Cause err ["push to inbound/"; srv_Type (ReplaceUsers users v).1;
                                                            "["; srv_Tag (ReplaceUsers users v).1; "]"])
                           | None => None
                           end) srvs).
Proof.
  revert acc. induction srvs as [|v srvs IH]; intros [sv errs]; cbn; [by rewrite !app_nil_r|].
  rewrite IH. unfold pushOne. destruct (ReplaceUsers users v) as [v' [e|]]; cbn; by rewrite <-!app_assoc.
Qed.

(** Every server gets the list; the call succeeds when all of them accept it. *)
Lemma pushUsers_spec `{EL : !ExceptionsLaws EX} users s :
  (pushUsers users s).1 = set_servers (map (fun v => (ReplaceUsers users v).1) (up_servers s)) s /\
  ((pushUsers users s).2 = None <-> Forall (fun v => (ReplaceUsers users v).2 = None) (up_servers s)).
Proof.
  unfold pushUsers. rewrite foldl_pushOne. cbn. split; [done|].
  generalize (up_servers s). intros l. split.
  - intros H. apply Forall_forall. intros v Hv. destruct ((ReplaceUsers users v).2) as [e|] eqn:E; [|done].
    exfalso. destruct (omap _ l) as [|e1 es] eqn:Eo; cbn in H.
    + assert (E_Cause e ["push to inbound/"; srv_Type (ReplaceUsers users v).1; "["; srv_Tag (ReplaceUsers users v).1; "]"] ∈ @nil error) as Hx.
      { rewrite <-Eo. apply list_elem_of_omap. exists v. split; [done|]. by rewrite E. }
      set_solver.
    + destruct (E_Errors_cons e1 es) as [e' He]. congruence.
  - intros H. induction H as [|v l Hv Hl IH]; cbn; [done|]. rewrite Hv. exact IH.
Qed.

(** ** The invariant *)

Definition up_inv (s : Service) : Prop :=
  overlay_keyed (up_overlayUsers s) /\
  dom (up_overlayUsers s) ## up_deletedUsers s /\
  NoDup (map au_Name (up_allUsers s)).

Lemma up_inv_set_file f s : up_inv (set_file f s) <-> up_inv s.
Proof. done. Qed.

Lemma merged_lists w s src :
  up_inv s -> loads w s = Ok src ->
  exists f users, mergedUsersLocked w s = (set_file f s, Ok users) /\
    same_sources s (set_file f s) /\ lists users (view s src).
Proof.
  intros (Hk & _) Hl. destruct (mergedUsersLocked_frame w s) as (f & Hm & Hs). rewrite Hl in Hm.
  exists f. eexists. split_and!; [exact Hm|done|]. by apply mergeUsers_lists.
Qed.

(** The tail of every operation: a successful read makes the users a listing of
    the view and pushes them. *)
Lemma loadAndPushLocked_ok `{EL : !ExceptionsLaws EX} w s src :
  up_inv s -> loads w s = Ok src ->
  let s' := (loadAndPushLocked w s).1 in
  up_inv s' /\ same_sources s s' /\
  up_overlayUsers s' = up_overlayUsers s /\ up_deletedUsers s' = up_deletedUsers s /\
  lists (up_allUsers s') (view s src) /\
  up_servers s' = map (fun v => (ReplaceUsers (up_allUsers s') v).1) (up_servers s) /\
  ((loadAndPushLocked w s).2 = None <-> Forall (fun v => (ReplaceUsers (up_allUsers s') v).2 = None) (up_servers s)).
Proof.
  intros Hi Hl. destruct (merged_lists w s src Hi Hl) as (f & users & Hm & Hs & Hu).
  unfold loadAndPushLocked. rewrite Hm.
  destruct (pushUsers_spec users (set_allUsers users (set_file f s))) as [-> Hp].
  cbn [fst]. split_and!; try done.
  - destruct Hi as (? & ? & _). split_and!; [done|done|]. apply Hu.
Qed.

Lemma loadAndPushLocked_inv `{EL : !ExceptionsLaws EX} w s :
  up_inv s ->
  let s' := (loadAndPushLocked w s).1 in
  up_inv s' /\ up_overlayUsers s' = up_overlayUsers s /\ up_deletedUsers s' = up_deletedUsers s /\
  ((exists src, loads w s = Ok src /\ lists (up_allUsers s') (view s src)) \/
   (up_allUsers s' = up_allUsers s /\ (loadAndPushLocked w s).2 <> None)).
Proof.
  intros Hi. destruct (loads w s) as [src|e] eqn:E.
  - destruct (loadAndPushLocked_ok w s src Hi E) as (? & _ & ? & ? & ? & _). split_and!; eauto.
  - destruct (mergedUsersLocked_frame w s) as (f & Hm & Hs). rewrite E in Hm.
    unfold loadAndPushLocked. rewrite Hm. cbn. split_and!; auto.
Qed.

(** ** The operations refine those of a finite map *)

Inductive user_op :=
| OpCreate (user : OptionUser)
| OpUpdate (name : string) (patch : UserPatch)
| OpDelete (name : string).

Definition spec_op (o : user_op) (m : gmap string AdapterUser) : result error (gmap string AdapterUser) :=
  match o with
  | OpCreate user =>
      if decide (ou_Name user = "") then Err (E_New ["missing name"])
      else match m !! ou_Name user with
           | Some _ => Err (E_New ["user "; ou_Name user; " already exists"])
           | None => Ok (<[ou_Name user := optionUserToAdapter user]> m)
           end
  | OpUpdate name patch =>
      match m !! name with
      | None => Err (E_New ["user "; name; " not found"])
      | Some user => Ok (<[name := optionUserToAdapter (patchUser patch (adapterUserToOption user))]> m)
      end
  | OpDelete name =>
      match m !! name with
      | None => Err (E_New ["user "; name; " not found"])
      | Some _ => Ok (delete name m)
      end
  end.

Definition run_op (w1 w2 w3 : Outside) (o : user_op) (s : Service) : Service * option error :=
  match o with
  | OpCreate user => CreateUser w1 w2 user s
  | OpUpdate name patch => UpdateUser w1 w2 name patch s
  | OpDelete name => DeleteUser w1 w2 w3 name s
  end.

(** The state after an operation that changed the overlay. *)
Definition pushed (s : Service) (m : gmap string AdapterUser) (r : Service * option error) : Prop :=
  lists (up_allUsers r.1) m /\
  up_servers r.1 = map (fun v => (ReplaceUsers (up_allUsers r.1) v).1) (up_servers s) /\
  (r.2 = None <-> Forall (fun v => (ReplaceUsers (up_allUsers r.1) v).2 = None) (up_servers s)).

Definition unchanged (s : Service) (err : error) (r : Service * option error) : Prop :=
  r.2 = Some err /\ up_overlayUsers r.1 = up_overlayUsers s /\ up_deletedUsers r.1 = up_deletedUsers s /\
  up_allUsers r.1 = up_allUsers s /\ up_servers r.1 = up_servers s.

(** What an operation promises when the sources read as [src] throughout. *)
Definition refines (s : Service) (src : list AdapterUser) (spec : result error (gmap string AdapterUser))
    (r : Service * option error) : Prop :=
  up_inv r.1 /\ same_sources s r.1 /\
  match spec with
  | Err err => unchanged s err r
  | Ok m => view r.1 src = m /\ pushed s m r
  end.

Lemma set_overlay_inv_insert u f s :
  up_inv s -> up_inv (set_overlay (<[ou_Name u := u]> (up_overlayUsers s)) (up_deletedUsers s ∖ {[ou_Name u]}) (set_file f s)).
Proof.
  intros (Hk & Hd & Hn). split_and!; [by apply overlay_keyed_insert| |done]. cbn. set_solver.
Qed.

Lemma set_overlay_inv_delete name d f s :
  (forall k, k <> name -> k ∈ d <-> k ∈ up_deletedUsers s) -> up_inv s ->
  up_inv (set_overlay (delete name (up_overlayUsers s)) d (set_file f s)).
Proof.
  intros Hdd (Hk & Hd & Hn). split_and!; [by apply overlay_keyed_delete| |done]. cbn.
  rewrite dom_delete. intros k Hk1 Hk2. apply elem_of_difference in Hk1 as [Hk1 Hne].
  apply Hdd in Hk2; set_solver.
Qed.

(** The common tail: the overlay changes, then a read and a push. *)
Lemma overlay_change_refines `{EL : !ExceptionsLaws EX} w s f ov d src m :
  up_inv (set_overlay ov d (set_file f s)) -> same_sources s (set_file f s) -> loads w s = Ok src ->
  usersView ov d src = m ->
  refines s src (Ok m) (loadAndPushLocked w (set_overlay ov d (set_file f s))).
Proof.
  intros Hi Hs Hl Hv.
  assert (same_sources s (set_overlay ov d (set_file f s))) as Hs' by exact Hs.
  rewrite (loads_proper w _ _ Hs') in Hl.
  destruct (loadAndPushLocked_ok w _ src Hi Hl) as (H1 & H2 & H3 & H4 & H5 & H6 & H7).
  unfold refines, pushed. split_and!; [done|by etransitivity| | |done|done].
  - unfold view. rewrite H3, H4. exact Hv.
  - unfold view in H5. cbn in H5. by rewrite Hv in H5.
Qed.

Lemma refused s f src err :
  up_inv s -> same_sources s (set_file f s) -> refines s src (Err err) (set_file f s, Some err).
Proof. intros Hi Hs. split_and!; done. Qed.

Lemma CreateUser_refines `{EL : !ExceptionsLaws EX} w1 w2 user s src :
  up_inv s -> loads w1 s = Ok src -> loads w2 s = Ok src ->
  refines s src (spec_op (OpCreate user) (view s src)) (CreateUser w1 w2 user s).
Proof.
  intros Hi H1 H2. unfold CreateUser, spec_op. destruct (decide (ou_Name user = "")).
  - split_and!; done.
  - destruct (merged_lists w1 s src Hi H1) as (f & users & -> & Hs & _ & Hl). rewrite <-Hl.
    destruct (findUser (ou_Name user) users); [by apply refused|]. cbn [up_overlayUsers up_deletedUsers set_file].
    apply overlay_change_refines; [by apply set_overlay_inv_insert|done|done|]. apply usersView_insert.
Qed.

Lemma UpdateUser_refines `{EL : !ExceptionsLaws EX} w1 w2 name patch s src :
  up_inv s -> loads w1 s = Ok src -> loads w2 s = Ok src ->
  refines s src (spec_op (OpUpdate name patch) (view s src)) (UpdateUser w1 w2 name patch s).
Proof.
  intros Hi H1 H2. unfold UpdateUser, spec_op.
  destruct (merged_lists w1 s src Hi H1) as (f & users & -> & Hs & _ & Hl). rewrite <-Hl.
  destruct (findUser name users) as [u|] eqn:E; [|by apply refused].
  assert (name = ou_Name (patchUser patch (adapterUserToOption u))) as Hn.
  { rewrite Hl in E. apply usersView_named in E; [done|apply Hi]. }
  cbn [up_overlayUsers up_deletedUsers set_file]. rewrite Hn.
  apply overlay_change_refines; [by apply set_overlay_inv_insert|done|done|]. apply usersView_insert.
Qed.

Lemma DeleteUser_refines `{EL : !ExceptionsLaws EX} w1 w2 w3 name s src :
  up_inv s -> loads w1 s = Ok src -> loads w2 s = Ok src -> loads w3 s = Ok src ->
  refines s src (spec_op (OpDelete name) (view s src)) (DeleteUser w1 w2 w3 name s).
Proof.
  intros Hi H1 H2 H3. unfold DeleteUser, spec_op.
  destruct (merged_lists w1 s src Hi H1) as (f & users & -> & Hs & _ & Hl). rewrite <-Hl.
  destruct (findUser name users) as [u|] eqn:E; [|by apply refused].
  rewrite (loads_proper w2 _ _ Hs) in H2.
  destruct (sourceUsersLocked_frame w2 (set_file f s)) as (f' & -> & Hs'). rewrite H2.
  cbn [up_overlayUsers up_deletedUsers set_file]. change (set_file f' (set_file f s)) with (set_file f' s) in *.
  apply overlay_change_refines; [|by etransitivity|done|].
  - apply set_overlay_inv_delete; [|done]. intros k Hk. case_goal; set_solver.
  - apply usersView_delete; [intros k Hk; case_goal; set_solver|].
    case_goal; [left; set_solver|by right].
Qed.

(** ** Runs *)

(** One transition of the service, the creation of a user of the given name apart:
    an operation, one iteration of the loop of a source, or the shutdown. *)
Inductive step_without (name : string) : Service -> Service -> Prop :=
| without_op w1 w2 w3 o s :
    (forall u, o = OpCreate u -> ou_Name u <> name) -> step_without name s (run_op w1 w2 w3 o s).1
| without_file w w' s : step_without name s (fileRun w w' s)
| without_http w w' s : step_without name s (httpRun w w' s)
| without_redis w w' s : step_without name s (redisRun w w' s)
| without_postgres w w' s s' : postgresRun w w' s = Ret s' -> step_without name s s'
| without_close s : step_without name s (Close s).

(** A name marked deleted is in neither the overlay nor the current users. *)
Definition hidden (name : string) (s : Service) : Prop :=
  name ∈ up_deletedUsers s /\ findUser name (up_allUsers s) = None.

Lemma view_not_deleted s src name u : up_inv s -> view s src !! name = Some u -> name ∉ up_deletedUsers s.
Proof.
  intros (_ & Hd & _) H Hin. unfold view, usersView in H. apply lookup_union_Some_raw in H as [H|[_ H]].
  - rewrite lookup_fmap in H. destruct (up_overlayUsers s !! name) eqn:E; [|done].
    apply elem_of_dom_2 in E. set_solver.
  - rewrite sourceView_None in H by auto. done.
Qed.

(** An operation is refused, or changes the overlay and then reads and pushes. *)
Lemma run_op_shape w1 w2 w3 o s : up_inv s -> exists f,
  (run_op w1 w2 w3 o s).1 = set_file f s \/
  exists ov d w, run_op w1 w2 w3 o s = loadAndPushLocked w (set_overlay ov d (set_file f s)) /\
    up_inv (set_overlay ov d (set_file f s)) /\
    (forall name, name ∈ up_deletedUsers s -> (forall u, o = OpCreate u -> ou_Name u <> name) -> name ∈ d).
Proof.
  intros Hi. assert (exists f, s = set_file f s) as [f0 Hf0] by (exists (up_fileSource s); by destruct s).
  destruct o as [user|name patch|name]; cbn [run_op].
  - unfold CreateUser. destruct (decide (ou_Name user = "")); [by exists f0; left|].
    destruct (mergedUsersLocked_frame w1 s) as (f & -> & _). exists f.
    destruct (loads w1 s) as [src|]; [|by left]. case_goal; [by left|]. right.
    cbn [up_overlayUsers up_deletedUsers set_file]. do 3 eexists. split_and!; [done|by apply set_overlay_inv_insert|].
    intros k Hk Ho. specialize (Ho user eq_refl). cbn. set_solver.
  - unfold UpdateUser. destruct (mergedUsersLocked_frame w1 s) as (f & -> & _). exists f.
    destruct (loads w1 s) as [src|]; [|by left].
    destruct (mergeUsers_lists (up_overlayUsers s) (up_deletedUsers s) src (map_to_list (up_overlayUsers s)))
      as [_ Hl]; [apply Hi|done|].
    case_goal; [|by left]. right. rewrite Hl in Heqo.
    pose proof (view_not_deleted s src _ _ Hi Heqo) as Hnd. apply usersView_named in Heqo; [|apply Hi].
    cbn [up_overlayUsers up_deletedUsers set_file].
    assert (name = ou_Name (patchUser patch (adapterUserToOption a))) as Hn by done. rewrite Hn.
    do 3 eexists. split_and!; [done|by apply set_overlay_inv_insert|]. intros k Hk _. cbn in *. set_solver.
  - unfold DeleteUser. destruct (mergedUsersLocked_frame w1 s) as (f & -> & _).
    destruct (loads w1 s) as [src|]; [|by exists f; left].
    destruct (mergeUsers_lists (up_overlayUsers s) (up_deletedUsers s) src (map_to_list (up_overlayUsers s)))
      as [_ Hl]; [apply Hi|done|].
    case_goal; [|by exists f; left]. rewrite Hl in Heqo.
    pose proof (view_not_deleted s src _ _ Hi Heqo) as Hnd.
    destruct (sourceUsersLocked_frame w2 (set_file f s)) as (f' & -> & _). exists f'.
    destruct (loads w2 _) as [src2|]; [|by left]. right.
    cbn [up_overlayUsers up_deletedUsers set_file]. do 3 eexists. split_and!; [done| |].
    + apply (set_overlay_inv_delete _ _ f'); [|done]. intros k Hk. case_goal; cbn; set_solver.
    + intros k Hk _. case_goal; cbn; set_solver.
Qed.

(** Reading and pushing keeps the invariant and what is hidden. *)
Lemma loadAndPush_keeps `{EL : !ExceptionsLaws EX} w s :
  up_inv s ->
  up_inv (loadAndPushLocked w s).1 /\ (forall name, hidden name s -> hidden name (loadAndPushLocked w s).1).
Proof.
  intros Hi. destruct (loadAndPushLocked_inv w s Hi) as (H1 & H2 & H3 & H4). split; [done|].
  intros name [Hd Hf]. split; [by rewrite H3|].
  destruct H4 as [(src & _ & _ & ->)|[-> _]]; [|done].
  destruct (view s src !! name) eqn:E; [|done]. by destruct (view_not_deleted s src name _ Hi E).
Qed.

Lemma run_op_keeps `{EL : !ExceptionsLaws EX} w1 w2 w3 o s :
  up_inv s ->
  up_inv (run_op w1 w2 w3 o s).1 /\
  (forall name, (forall u, o = OpCreate u -> ou_Name u <> name) -> hidden name s -> hidden name (run_op w1 w2 w3 o s).1).
Proof.
  intros Hi. destruct (run_op_shape w1 w2 w3 o s Hi) as (f & [->|(ov & d & w & -> & Hi' & Hd)]); [done|].
  destruct (loadAndPush_keeps w _ Hi') as [H1 H2]. split; [done|].
  intros name Ho [Hn Hf]. apply H2. split; [by apply Hd|done].
Qed.

(** Every transition but a creation keeps the invariant and what is hidden. *)
Lemma step_without_keeps `{EL : !ExceptionsLaws EX} name s s' :
  step_without name s s' -> up_inv s -> up_inv s' /\ (hidden name s -> hidden name s').
Proof.
  intros Hstep Hi.
  assert (forall w t, up_inv t -> up_deletedUsers t = up_deletedUsers s -> up_allUsers t = up_allUsers s ->
    up_inv (onSourceUpdate w t) /\ (hidden name s -> hidden name (onSourceUpdate w t))) as Hload.
  { intros w t Ht Hd Ha. destruct (loadAndPush_keeps w t Ht) as [H1 H2]. split; [exact H1|].
    intros [? ?]. apply H2. unfold hidden. by rewrite Hd, Ha. }
  destruct Hstep as [w1 w2 w3 o s Ho|w w' s|w w' s|w w' s|w w' s s' H|s].
  - destruct (run_op_keeps w1 w2 w3 o s Hi). auto.
  - unfold fileRun. destruct (up_fileSource s) as [f|]; [|done]. destruct (file_tick w f) as [f' []]; [|done].
    by apply Hload.
  - unfold httpRun. destruct (up_httpSource s) as [h|]; [|done]. destruct (http_fetch w h) as [h' [e|]]; [done|].
    by apply Hload.
  - unfold redisRun. destruct (up_redisSource s) as [r|]; [|done]. destruct (redis_fetch w r) as [r' [e|]]; [done|].
    by apply Hload.
  - unfold postgresRun in H. destruct (up_postgresSource s) as [p|]; [|by injection H as <-].
    destruct (postgres_fetch w p) as [[p' [e|]]|]; cbn in H; [by injection H as <-| |done].
    injection H as <-. by apply Hload.
  - done.
Qed.

(** ** Theorems *)

(** The merge of the sources and the overlay lists the abstract view: each
    name once, the overlay entry where there is one, otherwise the last source entry,
    and no deleted name; the names of the sources come first, those only in the overlay
    follow in increasing order, and the list does not depend on the order in which the
    overlay map is iterated. *)
Theorem mergeUsers_spec overlay deleted src l :
  overlay_keyed overlay -> l ≡ₚ map_to_list overlay ->
  lists (mergeUsers src deleted l) (usersView overlay deleted src) /\
  mergeUsers src deleted l = mergeUsers src deleted (map_to_list overlay) /\
  exists fromSources overlayOnly,
    map au_Name (mergeUsers src deleted l) = fromSources ++ overlayOnly /\
    (forall n, n ∈ fromSources <-> is_Some (sourceView deleted src !! n)) /\
    Sorted String.le overlayOnly.
Proof.
  intros Hk Hl. split_and!; [by apply mergeUsers_lists|by apply (mergeUsers_order overlay)|].
  destruct (mergeUsers_names overlay deleted src l Hl) as (-> & _ & Hin).
  exists (foldl (mergeSource deleted) (∅, []) src).2. eexists. split_and!.
  - rewrite map_map. rewrite (map_ext_in _ id), map_id; [done|].
    intros n Hn. apply list_elem_of_In, Hin in Hn as [u Hu]. rewrite Hu. cbn. by eapply usersView_named.
  - intros n. destruct (foldl_mergeSource deleted src) as (<- & _ & H). apply H.
  - apply Sorted_merge_sort. apply _.
Qed.

(** C23: while the sources read the same, creating, updating and deleting users are
    the operations of a finite map on the abstract view, errors included; after a change
    the current users list the new map, every managed inbound was handed that list, and
    the call fails exactly when an inbound refused it. *)
Theorem provider_refines_map `{EL : !ExceptionsLaws EX} w1 w2 w3 o s src :
  up_inv s -> loads w1 s = Ok src -> loads w2 s = Ok src -> loads w3 s = Ok src ->
  refines s src (spec_op o (view s src)) (run_op w1 w2 w3 o s).
Proof.
  intros Hi H1 H2 H3. destruct o; cbn [run_op];
    [by apply CreateUser_refines|by apply UpdateUser_refines|by apply DeleteUser_refines].
Qed.

(** Once a user that a source provides has been deleted, no reload of any
    source, no other operation and no answer of the outside brings it back: only a
    creation under its name does. *)
Theorem deleted_user_stays_hidden `{EL : !ExceptionsLaws EX} w1 w2 w3 name s s1 s2 src :
  up_inv s -> loads w2 s = Ok src -> is_Some (findUser name src) ->
  DeleteUser w1 w2 w3 name s = (s1, None) ->
  rtc (step_without name) s1 s2 ->
  up_inv s2 /\ GetUser name s2 = None /\ name ∉ map au_Name (ListUsers s2).
Proof.
  intros Hi Hl [u Hu] Hdel Hrun.
  assert (up_inv s1 /\ hidden name s1) as H1.
  { revert Hdel. unfold DeleteUser. destruct (mergedUsersLocked_frame w1 s) as (f & -> & Hs).
    destruct (loads w1 s) as [src1|]; [|done]. case_goal; [|done].
    rewrite (loads_proper w2 _ _ Hs) in Hl.
    destruct (sourceUsersLocked_frame w2 (set_file f s)) as (f' & -> & _). rewrite Hl, Hu. intros Hd.
    cbn [up_overlayUsers up_deletedUsers set_file] in Hd. change (set_file f' (set_file f s)) with (set_file f' s) in Hd.
    match type of Hd with loadAndPushLocked w3 ?t = _ => assert (up_inv t) as Hit end.
    { apply (set_overlay_inv_delete _ _ f'); [|done]. cbn. set_solver. }
    destruct (loadAndPushLocked_inv w3 _ Hit) as (H1 & H2 & H3 & H4). rewrite Hd in H1, H2, H3, H4. cbn [fst snd] in *.
    split; [done|]. split; [rewrite H3; cbn; set_solver|].
    destruct H4 as [(src3 & _ & _ & ->)|[_ ?]]; [|done].
    destruct (view _ src3 !! name) eqn:E; [|done].
    apply view_not_deleted in E; [|done]. destruct E. cbn. set_solver. }
  assert (up_inv s2 /\ hidden name s2) as (Hi2 & _ & H2).
  { clear Hdel. induction Hrun as [|a b c Hab _ IH]; [done|]. apply IH.
    destruct (step_without_keeps name a b Hab) as [? ?]; naive_solver. }
  split_and!; [done|exact H2|]. intros (v & Hv & Hin)%list_elem_of_fmap.
  unfold ListUsers in Hin. revert H2 Hv Hin. generalize (up_allUsers s2). clear. intros l.
  induction l as [|x l IH]; [set_solver|]. cbn. destruct (decide (au_Name x = name)); [done|]. set_solver.
Qed.

(** A fetch of the HTTP source replaces the cached users only by the parsed
    body of a complete response with status 200, and remembers its Etag when it has one;
    every failure and a 304 keep the cache and the Etag; after [Close] a fetch changes
    nothing and fails, so no client is built then. *)
Theorem http_fetch_spec w s s' err :
  http_fetch w s = (s', err) ->
  (hs_closed s = true -> s' = s /\ err = Some errHTTPSourceClosed) /\
  hs_closed s' = hs_closed s /\
  (forall c, hs_client s = Some c -> hs_client s' = Some c) /\
  ((hs_cachedUsers s' = hs_cachedUsers s /\ hs_lastEtag s' = hs_lastEtag s) \/
   (err = None /\ exists client response users,
      hs_client s' = Some client /\
      o_Do w client (hs_url s) (if decide (hs_lastEtag s <> "") then Some (hs_lastEtag s) else None) = Ok response /\
      rp_StatusCode response = 200 /\ rp_BodyErr response = None /\
      Z.of_nat (String.length (rp_Body response)) <= defaultHTTPSourceMaxResponseBytes /\
      UnmarshalUsers (rp_Body response) = Ok users /\ hs_cachedUsers s' = users /\
      hs_lastEtag s' = (if decide (rp_Etag response <> "") then rp_Etag response else hs_lastEtag s))).
Proof.
  unfold http_fetch, ensureClient. destruct (hs_closed s) eqn:Ec.
  { intros [= <- <-]. split_and!; auto. }
  assert (exists s1 rc, (match hs_client s with
    | Some c => (s, Ok c)
    | None => match buildClientLocked w s with
              | Err e => (s, Err e)
              | Ok c => (mkHTTPSource (hs_url s) (hs_updateInterval s) (hs_downloadDetour s) (hs_lastEtag s)
                           (hs_cachedUsers s) (Some c) false, Ok c)
              end
    end) = (s1, rc) /\ hs_url s1 = hs_url s /\ hs_lastEtag s1 = hs_lastEtag s /\ hs_closed s1 = false /\
    hs_cachedUsers s1 = hs_cachedUsers s /\ (forall c, hs_client s = Some c -> hs_client s1 = Some c) /\
    (forall c, rc = Ok c -> hs_client s1 = Some c)) as (s1 & rc & -> & Hu & He & Hc & Hca & Hcl & Hrc).
  { destruct (hs_client s) as [c|] eqn:E; [do 2 eexists; split_and!; try done; naive_solver|].
    destruct (buildClientLocked w s); do 2 eexists; split_and!; try done; naive_solver. }
  destruct rc as [client|e]; [|intros [= <- <-]; split_and!; auto; done].
  rewrite Hu, He. destruct (o_NewRequest w (hs_url s)); [intros [= <- <-]; split_and!; auto; done|].
  destruct (o_Do w client (hs_url s) _) as [resp|e] eqn:Edo; [|intros [= <- <-]; split_and!; auto; done].
  destruct (Z.eqb_spec (rp_StatusCode resp) 200) as [H200|].
  - unfold readBody. destruct (Z.ltb_spec defaultHTTPSourceMaxResponseBytes (Z.of_nat (String.length (rp_Body resp))));
      [intros [= <- <-]; split_and!; auto; done|].
    destruct (rp_BodyErr resp) eqn:Eb; [intros [= <- <-]; split_and!; auto; done|].
    destruct (UnmarshalUsers (rp_Body resp)) as [users|e] eqn:Eu; [|intros [= <- <-]; split_and!; auto; done].
    intros [= <- <-]. cbn. split_and!; auto; [done|]. right. split; [done|]. exists client, resp, users. auto 10.
  - destruct (rp_StatusCode resp =? 304); intros [= <- <-]; split_and!; auto; done.
Qed.

(** A creation that an inbound refuses reports the error and still leaves the
    user in place. *)
Lemma CreateUser_failed_push_keeps_user `{EL : !ExceptionsLaws EX} w1 w2 user s src :
  up_inv s -> loads w1 s = Ok src -> loads w2 s = Ok src ->
  ou_Name user <> "" -> view s src !! ou_Name user = None ->
  Exists (fun v => forall users, (ReplaceUsers users v).2 <> None) (up_servers s) ->
  let r := CreateUser w1 w2 user s in
  r.2 <> None /\ GetUser (ou_Name user) r.1 = Some (optionUserToAdapter user).
Proof.
  intros Hi H1 H2 Hn Hv Hex. pose proof (CreateUser_refines w1 w2 user s src Hi H1 H2) as (_ & _ & H).
  cbn [spec_op] in H. rewrite decide_False, Hv in H by done. destruct H as (_ & [_ Hl] & _ & He). split.
  - intros E. apply He in E. apply Exists_exists in Hex as (v & Hv1 & Hv2). rewrite Forall_forall in E.
    by eapply Hv2, E.
  - unfold GetUser. rewrite Hl. apply lookup_insert_eq.
Qed.

End Provider.

(** ** A concrete provider *)

Module ProviderDemo.
#[local] Existing Instance text_exceptions.

(** Two inbounds that keep the list they are given; the second needs a UUID for
    every user, the way a TUIC inbound does.  A file holds one user, or two. *)
#[export] Instance env : ProviderEnv := {|
  UnmarshalUsers := fun s =>
    if String.eqb s "A" then Ok [mkOptionUser "alice" "pw" "u1" 0 ""]
    else if String.eqb s "AB" then Ok [mkOptionUser "alice" "pw" "u1" 0 ""; mkOptionUser "bob" "pw" "u2" 0 ""]
    else Err "bad JSON";
  inbound := string;
  server := bool * list AdapterUser;
  inbound_Type := fun i => i;
  asManaged := fun i => Some (false, []);
  srv_Type := fun v => "tuic";
  srv_Tag := fun v => "in";
  ReplaceUsers := fun users v =>
    if v.1 && negb (forallb (fun u => negb (String.eqb (au_UUID u) "")) users) then (v, Some "missing uuid")
    else ((v.1, users), None);
  dialer := unit;
|}.

Definition outside (content : string) : Outside :=
  mkOutside (fun _ => Ok content) (fun _ => Ok 7) None (fun _ => None)
    (fun _ _ _ => Ok (mkHttpResponse 200 "200 OK" "e1" "AB" None)) (fun _ => Ok content) (fun _ => None) (fun _ => Err "down").

Definition s0 : Service :=
  mkService ["in"] [(false, []); (true, [])] [mkOptionUser "root" "x" "u0" 0 ""] ∅ ∅
    (Some (NewFileSource "users.json" 0)) (Some (NewHTTPSource "http://h/" 0 "")) None None [].

(** After the first load. *)
Definition s1 : Service := (loadAndPush (outside "A") s0).1.

Definition src1 : list AdapterUser := [mkAdapterUser "root" "x" "u0" 0 ""; mkAdapterUser "alice" "pw" "u1" 0 ""].

(** After the deletion of the user of the file. *)
Definition s2 : Service := (DeleteUser (outside "A") (outside "A") (outside "A") "alice" s1).1.

Definition carol : OptionUser := mkOptionUser "carol" "c" "" 0 "".

Lemma s0_inv : up_inv s0.
Proof. split_and!; [apply map_Forall_empty|set_solver|apply NoDup_nil_2]. Qed.

Lemma s1_inv : up_inv s1.
Proof. apply (loadAndPush_keeps (outside "A") s0 s0_inv). Qed.
End ProviderDemo.

Section ProviderWitnesses.
Import ProviderDemo.
#[local] Existing Instance text_exceptions.

Lemma mergeUsers_spec_witness :
  lists (mergeUsers src1 {["root"]} [("carol", carol)]) (usersView {["carol" := carol]} {["root"]} src1) /\
  map au_Name (mergeUsers src1 {["root"]} [("carol", carol)]) = ["alice"; "carol"].
Proof.
  split; [|vm_compute; reflexivity].
  apply (mergeUsers_spec {["carol" := carol]} {["root"]} src1 [("carol", carol)]).
  - apply map_Forall_singleton. reflexivity.
  - rewrite map_to_list_singleton. reflexivity.
Defined.

(** The user without a UUID is refused by the second inbound and stays. *)
Lemma provider_refines_map_witness :
  (CreateUser (outside "A") (outside "A") carol s1).2 <> None /\
  GetUser "carol" (CreateUser (outside "A") (outside "A") carol s1).1 = Some (optionUserToAdapter carol) /\
  refines s1 src1 (spec_op (OpCreate carol) (view s1 src1)) (CreateUser (outside "A") (outside "A") carol s1).
Proof.
  split; [vm_compute; discriminate|]. split; [vm_compute; reflexivity|].
  apply (provider_refines_map (outside "A") (outside "A") (outside "A") (OpCreate carol) s1 src1);
    [apply s1_inv|vm_compute; reflexivity|vm_compute; reflexivity|vm_compute; reflexivity].
Defined.

(** The file then gains a user; the deleted one stays hidden. *)
Lemma deleted_user_stays_hidden_witness :
  DeleteUser (outside "A") (outside "A") (outside "A") "alice" s1 = (s2, None) /\
  GetUser "alice" (httpRun (outside "AB") (outside "AB") s2) = None /\
  is_Some (GetUser "bob" (httpRun (outside "AB") (outside "AB") s2)).
Proof.
  assert (DeleteUser (outside "A") (outside "A") (outside "A") "alice" s1 = (s2, None)) as H
    by (vm_compute; reflexivity).
  split; [exact H|]. split; [|eexists; vm_compute; reflexivity].
  apply (deleted_user_stays_hidden (outside "A") (outside "A") (outside "A") "alice" s1 s2
           (httpRun (outside "AB") (outside "AB") s2) src1).
  - apply s1_inv.
  - vm_compute. reflexivity.
  - eexists. vm_compute. reflexivity.
  - exact H.
  - apply rtc_once. apply without_http.
Defined.

Lemma http_fetch_spec_witness :
  exists h, http_fetch (outside "A") (NewHTTPSource "http://h/" 0 "") = (h, None) /\
    hs_lastEtag h = "e1" /\ length (hs_cachedUsers h) = 2%nat /\ hs_closed h = false.
Proof.
  eexists. split; [vm_compute; reflexivity|]. split; [reflexivity|]. split; [reflexivity|].
  eapply (http_fetch_spec (outside "A") (NewHTTPSource "http://h/" 0 "")). vm_compute. reflexivity.
Defined.
End ProviderWitnesses.
