(* ===== verification/GoCrypto.v ===== *)
(** * Encodings and digests

    What the token code uses of [encoding/base64], [crypto/sha256] and
    [crypto/hmac], on Go byte strings, executable. *)

From S2P Require Import Prelude GoStrings.

Local Open Scope string_scope.
Local Open Scope list_scope.
Local Open Scope Z_scope.

Definition to_bytes (s : string) : list Z := map ascii_Z (String.list_ascii_of_string s).

(** ** Base64 *)

(** The URL-safe alphabet and the standard one differ in the last two digits. *)
Inductive alphabet := URLAlphabet | StdAlphabet.

Definition b64_char (al : alphabet) (d : Z) : Z :=
  if d <? 26 then 65 + d
  else if d <? 52 then 97 + (d - 26)
  else if d <? 62 then 48 + (d - 52)
  else match al with
       | URLAlphabet => if d =? 62 then 45 else 95
       | StdAlphabet => if d =? 62 then 43 else 47
       end.

Definition b64_val (al : alphabet) (c : Z) : option Z :=
  if (65 <=? c) && (c <=? 90) then Some (c - 65)
  else if (97 <=? c) && (c <=? 122) then Some (c - 97 + 26)
  else if (48 <=? c) && (c <=? 57) then Some (c - 48 + 52)
  else match al with
       | URLAlphabet => if c =? 45 then Some 62 else if c =? 95 then Some 63 else None
       | StdAlphabet => if c =? 43 then Some 62 else if c =? 47 then Some 63 else None
       end.

(** Unpadded encoding, three bytes at a time. *)
Fixpoint b64_encode (al : alphabet) (l : list Z) : list Z :=
  match l with
  | a :: b :: c :: l' =>
      let n := a * 65536 + b * 256 + c in
      b64_char al (n / 262144) :: b64_char al (n / 4096 mod 64) ::
      b64_char al (n / 64 mod 64) :: b64_char al (n mod 64) :: b64_encode al l'
  | [a; b] =>
      let n := (a * 65536 + b * 256) in
      [b64_char al (n / 262144); b64_char al (n / 4096 mod 64); b64_char al (n / 64 mod 64)]
  | [a] =>
      let n := a * 65536 in
      [b64_char al (n / 262144); b64_char al (n / 4096 mod 64)]
  | [] => []
  end.

(** Decoding of digits: the bits left over in the last group are dropped. *)
Fixpoint b64_decode (al : alphabet) (l : list Z) : option (list Z) :=
  match l with
  | [] => Some []
  | [_] => None
  | [w; x] =>
      match b64_val al w, b64_val al x with
      | Some w, Some x => Some [(w * 262144 + x * 4096) / 65536]
      | _, _ => None
      end
  | [w; x; y] =>
      match b64_val al w, b64_val al x, b64_val al y with
      | Some w, Some x, Some y =>
          let n := w * 262144 + x * 4096 + y * 64 in
          Some [n / 65536; n / 256 mod 256]
      | _, _, _ => None
      end
  | w :: x :: y :: z :: l' =>
      match b64_val al w, b64_val al x, b64_val al y, b64_val al z with
      | Some w, Some x, Some y, Some z =>
          let n := w * 262144 + x * 4096 + y * 64 + z in
          match b64_decode al l' with
          | Some r => Some (n / 65536 :: n / 256 mod 256 :: n mod 256 :: r)
          | None => None
          end
      | _, _, _, _ => None
      end
  end.

(** Carriage returns and line feeds are skipped. *)
Definition b64_skip (l : list Z) : list Z := List.filter (fun c => negb ((c =? 10) || (c =? 13))) l.

(** [base64.RawURLEncoding]. *)
Definition RawURLEncode (s : string) : string := bytes (b64_encode URLAlphabet (to_bytes s)).
Definition RawURLDecode (s : string) : option string :=
  bytes <$> b64_decode URLAlphabet (b64_skip (to_bytes s)).

(** [base64.StdEncoding]: the last group is padded with [=] to four bytes. *)
Definition b64_unpad (l : list Z) : option (list Z) :=
  if negb (Nat.eqb (length l mod 4) 0) then None
  else match reverse l with
       | 61 :: 61 :: r => Some (reverse r)
       | 61 :: r => Some (reverse r)
       | _ => Some l
       end.
Definition StdDecode (s : string) : option string :=
  match b64_unpad (b64_skip (to_bytes s)) with
  | Some l => bytes <$> b64_decode StdAlphabet l
  | None => None
  end.

(** ** SHA-256 *)

Definition add32 (x y : Z) : Z := (x + y) mod 2 ^ 32.
Definition rotr (n x : Z) : Z := Z.lor (Z.shiftr x n) (Z.shiftl x (32 - n) mod 2 ^ 32).
Definition not32 (x : Z) : Z := 2 ^ 32 - 1 - x.

(** The constants are the first 32 bits of the fractional parts of the cube
    roots of the first 64 primes and of the square roots of the first eight. *)
Fixpoint cbrt_bits (n : nat) (acc p : Z) : Z :=
  match n with
  | O => acc
  | S n' =>
      let next := acc + 2 ^ Z.of_nat n' in
      cbrt_bits n' (if next * next * next <=? p then next else acc) p
  end.

Definition is_prime (n : Z) : bool :=
  (1 <? n) && forallb (fun d => negb (n mod d =? 0)) (seqZ 2 (n - 2)).

(** The 64th prime is 311. *)
Definition primes : list Z := List.filter is_prime (seqZ 2 310).

Definition sha_K : list Z :=
  Eval vm_compute in map (fun p => cbrt_bits 36 0 (p * 2 ^ 96) mod 2 ^ 32) primes.

Definition sha_H0 : list Z :=
  Eval vm_compute in map (fun p => Z.sqrt (p * 2 ^ 64) mod 2 ^ 32) (take 8 primes).

(** [n] bytes of an integer, the most significant first. *)
Fixpoint be_bytes (n : nat) (z : Z) : list Z :=
  match n with O => [] | S n' => be_bytes n' (z / 256) ++ [z mod 256] end.

Fixpoint be_words (l : list Z) : list Z :=
  match l with
  | a :: b :: c :: d :: l' => (((a * 256 + b) * 256 + c) * 256 + d) :: be_words l'
  | _ => []
  end.

(** Padding to a multiple of 64 bytes, with the length in bits at the end. *)
Definition sha_pad (l : list Z) : list Z :=
  let n := Z.of_nat (length l) in
  l ++ [128] ++ replicate (Z.to_nat ((55 - n) mod 64)) 0 ++ be_bytes 8 (8 * n).

(** The message schedule, the last word first: 48 words are added. *)
Fixpoint sha_schedule (n : nat) (w : list Z) : list Z :=
  match n with
  | O => w
  | S n' =>
      let x := default 0 (w !! 14%nat) in
      let y := default 0 (w !! 1%nat) in
      let s0 := Z.lxor (Z.lxor (rotr 7 x) (rotr 18 x)) (Z.shiftr x 3) in
      let s1 := Z.lxor (Z.lxor (rotr 17 y) (rotr 19 y)) (Z.shiftr y 10) in
      let z := add32 (add32 (default 0 (w !! 15%nat)) s0) (add32 (default 0 (w !! 6%nat)) s1) in
      sha_schedule n' (z :: w)
  end.

Definition sha_round (st : list Z) (kw : Z * Z) : list Z :=
  match st with
  | [a; b; c; d; e; f; g; h] =>
      let S1 := Z.lxor (Z.lxor (rotr 6 e) (rotr 11 e)) (rotr 25 e) in
      let ch := Z.lxor (Z.land e f) (Z.land (not32 e) g) in
      let t1 := add32 (add32 (add32 h S1) (add32 ch kw.1)) kw.2 in
      let S0 := Z.lxor (Z.lxor (rotr 2 a) (rotr 13 a)) (rotr 22 a) in
      let maj := Z.lxor (Z.lxor (Z.land a b) (Z.land a c)) (Z.land b c) in
      [add32 t1 (add32 S0 maj); a; b; c; add32 d t1; e; f; g]
  | _ => st
  end.

Definition sha_block (st : list Z) (block : list Z) : list Z :=
  let w := reverse (sha_schedule 48 (reverse (be_words block))) in
  zip_with add32 st (foldl sha_round st (zip sha_K w)).

Fixpoint sha_blocks (fuel : nat) (st : list Z) (l : list Z) : list Z :=
  match fuel, l with
  | S fuel', _ :: _ => sha_blocks fuel' (sha_block st (take 64 l)) (drop 64 l)
  | _, _ => st
  end.

(** The number of bytes bounds the number of blocks. *)
Definition sha256 (l : list Z) : list Z :=
  let p := sha_pad l in
  sha_blocks (length p) sha_H0 p ≫= be_bytes 4.

(** ** HMAC *)

Definition hmac_sha256 (key msg : string) : string :=
  let k := to_bytes key in
  let k := if (64 <? Z.of_nat (length k)) then sha256 k else k in
  let k := k ++ replicate (64 - length k) 0 in
  let inner := sha256 (map (fun x => Z.lxor x 0x36) k ++ to_bytes msg) in
  bytes (sha256 (map (fun x => Z.lxor x 0x5c) k ++ inner)).

(** Published test vectors: FIPS 180-4 for the digest, RFC 4231 test case 2
    for the code. *)
Example sha256_abc :
  be_words (sha256 (to_bytes "abc")) =
  [0xba7816bf; 0x8f01cfea; 0x414140de; 0x5dae2223; 0xb00361a3; 0x96177a9c; 0xb410ff61; 0xf20015ad].
Proof. vm_compute. reflexivity. Qed.

Example hmac_rfc4231_2 :
  be_words (to_bytes (hmac_sha256 "Jefe" "what do ya want for nothing?")) =
  [0x5bdcc146; 0xbf60754e; 0x6a042426; 0x089575c7; 0x5a003f08; 0x9d273983; 0x9dec58b9; 0x64ec3843].
Proof. vm_compute. reflexivity. Qed.

Example base64_vector : RawURLEncode "Man?>" = "TWFuPz4" /\ RawURLDecode "TWFuPz4" = Some "Man?>" /\ StdDecode "TWE=" = Some "Ma".
Proof. vm_compute. done. Qed.

(** ** Round trips *)

Definition byte_list (l : list Z) : Prop := Forall (fun x => 0 <= x < 256) l.

Lemma ascii_Z_range c : 0 <= ascii_Z c < 256.
Proof. unfold ascii_Z. pose proof (Ascii.N_ascii_bounded c). lia. Qed.

Lemma Z_ascii_Z c : Z_ascii (ascii_Z c) = c.
Proof. unfold Z_ascii, ascii_Z. rewrite N2Z.id. apply Ascii.ascii_N_embedding. Qed.

Lemma ascii_Z_ascii z : 0 <= z < 256 -> ascii_Z (Z_ascii z) = z.
Proof. intros H. unfold Z_ascii, ascii_Z. rewrite Ascii.N_ascii_embedding by lia. lia. Qed.

Lemma to_bytes_range s : byte_list (to_bytes s).
Proof.
  unfold byte_list, to_bytes. apply Forall_forall. intros x (c & -> & _)%list_elem_of_fmap. apply ascii_Z_range.
Qed.

Lemma bytes_to_bytes s : bytes (to_bytes s) = s.
Proof.
  unfold bytes, to_bytes. rewrite map_map. rewrite (map_ext _ id), map_id by apply Z_ascii_Z.
  apply String.string_of_list_ascii_of_string.
Qed.

Lemma to_bytes_bytes l : byte_list l -> to_bytes (bytes l) = l.
Proof.
  unfold bytes, to_bytes, byte_list. intros H. rewrite String.list_ascii_of_string_of_list_ascii, map_map.
  rewrite (map_ext_in _ id), map_id; [done|]. intros z Hz. apply ascii_Z_ascii.
  rewrite Forall_forall in H. apply H. by apply list_elem_of_In.
Qed.

(** Induction three elements at a time. *)
Lemma list_ind3 {A} (P : list A -> Prop) :
  P [] -> (forall a, P [a]) -> (forall a b, P [a; b]) -> (forall a b c l, P l -> P (a :: b :: c :: l)) ->
  forall l, P l.
Proof.
  intros H0 H1 H2 H3. assert (forall n l, (length l <= n)%nat -> P l) as H.
  { induction n as [|n IH]; intros [|a [|b [|c l]]] Hl; cbn in Hl; try lia; auto. apply H3, IH. lia. }
  intros l. by apply (H (length l)).
Qed.

Lemma b64_val_char al d : 0 <= d < 64 -> b64_val al (b64_char al d) = Some d.
Proof.
  intros H. unfold b64_char. destruct (Z.ltb_spec d 26); [|destruct (Z.ltb_spec d 52); [|destruct (Z.ltb_spec d 62);
    [|destruct al, (Z.eqb_spec d 62)]]].
  all: unfold b64_val; repeat case_goal;
    repeat match goal with H : (_ && _)%bool = false |- _ => apply andb_false_iff in H as [H|H] end;
    zbool; try lia; f_equal; lia.
Qed.

(** The digits are letters, digits and two more characters: no line break, no
    dot. *)
Lemma b64_char_plain al d : 0 <= d < 64 ->
  0 <= b64_char al d < 256 /\ b64_char al d <> 10 /\ b64_char al d <> 13 /\ b64_char al d <> 46.
Proof. intros H. unfold b64_char. repeat case_goal; zbool; lia. Qed.

Ltac euclid := Z.to_euclidean_division_equations; lia.

Lemma b64_encode_plain al l : byte_list l ->
  Forall (fun c => 0 <= c < 256 /\ c <> 10 /\ c <> 13 /\ c <> 46) (b64_encode al l).
Proof.
  induction l as [|a|a b|a b c l IH] using list_ind3; intros H; cbn [b64_encode].
  - constructor.
  - inversion_clear H. repeat constructor; apply b64_char_plain; euclid.
  - inversion_clear H as [|? ? ? H']. inversion_clear H'. repeat constructor; apply b64_char_plain; euclid.
  - inversion_clear H as [|? ? ? H']. inversion_clear H' as [|? ? ? H'']. inversion_clear H''.
    repeat (constructor; [apply b64_char_plain; euclid|]). by apply IH.
Qed.

Lemma b64_decode_encode al l : byte_list l -> b64_decode al (b64_encode al l) = Some l.
Proof.
  induction l as [|a|a b|a b c l IH] using list_ind3; intros H; cbn [b64_encode]; [done|..].
  - inversion_clear H. cbn [b64_decode]. rewrite !b64_val_char by euclid. do 2 f_equal. euclid.
  - inversion_clear H as [|? ? ? H']. inversion_clear H'. cbn [b64_decode].
    rewrite !b64_val_char by euclid. do 2 f_equal; [|f_equal]; euclid.
  - inversion_clear H as [|? ? ? H']. inversion_clear H' as [|? ? ? H'']. inversion_clear H''.
    cbn [b64_decode]. rewrite !b64_val_char by euclid. rewrite IH by done.
    do 2 f_equal; [|f_equal; [|f_equal]]; euclid.
Qed.

Lemma RawURL_roundtrip s : RawURLDecode (RawURLEncode s) = Some s.
Proof.
  unfold RawURLDecode, RawURLEncode. pose proof (to_bytes_range s) as Hb.
  pose proof (b64_encode_plain URLAlphabet _ Hb) as Hp.
  rewrite to_bytes_bytes by (eapply Forall_impl; [exact Hp|intros x Hx; apply Hx]).
  unfold b64_skip. rewrite filter_all.
  - rewrite b64_decode_encode by done. cbn. by rewrite bytes_to_bytes.
  - intros x Hx. rewrite Forall_forall in Hp. apply Hp in Hx. apply negb_true_iff, orb_false_iff.
    split; apply Z.eqb_neq; tauto.
Qed.

Lemma RawURLEncode_no_dot s : has_char "."%char (RawURLEncode s) = false.
Proof.
  unfold RawURLEncode. pose proof (b64_encode_plain URLAlphabet _ (to_bytes_range s)) as Hp.
  induction Hp as [|c l Hc _ IH]; [done|].
  change (bytes (c :: l)) with (String (Z_ascii c) (bytes l)). cbn [has_char].
  rewrite IH, orb_false_r. apply Ascii.eqb_neq.
  intros E. apply (f_equal ascii_Z) in E. rewrite ascii_Z_ascii in E by tauto. change (ascii_Z "."%char) with 46 in E. tauto.
Qed.

Lemma RawURLEncode_nonempty s : s <> "" -> RawURLEncode s <> "".
Proof.
  intros H E. pose proof (RawURL_roundtrip s) as R. rewrite E in R. cbn in R. congruence.
Qed.

(** The code has 32 bytes, whatever it signs. *)
Lemma be_bytes_length n z : length (be_bytes n z) = n.
Proof. revert z. induction n as [|n IH]; intros z; cbn; [done|]. rewrite length_app, IH. cbn. lia. Qed.

Lemma sha_round_length st kw : length st = 8%nat -> length (sha_round st kw) = 8%nat.
Proof. destruct st as [|a [|b [|c [|d [|e [|f [|g [|h [|]]]]]]]]]; cbn; lia. Qed.

Lemma sha_block_length st block : length st = 8%nat -> length (sha_block st block) = 8%nat.
Proof.
  intros H. unfold sha_block. rewrite length_zip_with.
  assert (forall l st, length st = 8%nat -> length (foldl sha_round st l) = 8%nat) as Hf.
  { induction l as [|x l IH]; intros st' Hst; cbn; [done|]. apply IH. by apply sha_round_length. }
  rewrite Hf by done. lia.
Qed.

Lemma sha256_length l : length (sha256 l) = 32%nat.
Proof.
  unfold sha256. assert (forall fuel st p, length st = 8%nat -> length (sha_blocks fuel st p) = 8%nat) as Hb.
  { induction fuel as [|fuel IH]; intros st p Hst; cbn; [done|]. destruct p; [done|]. apply IH. by apply sha_block_length. }
  specialize (Hb (length (sha_pad l)) sha_H0 (sha_pad l) eq_refl).
  destruct (sha_blocks _ _ _) as [|a [|b [|c [|d [|e [|f [|g [|h [|]]]]]]]]]; try discriminate Hb.
  cbn [mbind list_bind]. rewrite !length_app, !be_bytes_length. done.
Qed.

Lemma hmac_sha256_nonempty key msg : hmac_sha256 key msg <> "".
Proof.
  unfold hmac_sha256. match goal with |- bytes (sha256 ?l) <> "" => pose proof (sha256_length l) as H; destruct (sha256 l) end; [done|].
  done.
Qed.
