(* ===== verification/AdminAuth.v ===== *)
(** * Authentication of the admin API

    [service/adminapi/auth.go] and [handler_auth.go]: static tokens, signed
    login tokens, basic credentials, and the login endpoint.  The clock is an
    argument.  The JSON form of the claims is a parameter. *)

From S2P Require Import Prelude GoStrings GoTime GoCrypto.

Local Open Scope string_scope.
Local Open Scope list_scope.
Local Open Scope Z_scope.

(** ** Strings *)

Definition lower_char (c : ascii) : ascii :=
  if (65 <=? ascii_Z c) && (ascii_Z c <=? 90) then Z_ascii (ascii_Z c + 32) else c.
Fixpoint lower_ascii (s : string) : string :=
  match s with EmptyString => EmptyString | String c s' => String (lower_char c) (lower_ascii s') end.

(** [strings.EqualFold] against an ASCII word without [k] and [s], the two
    letters that fold to a non-ASCII code point. *)
Definition equalFold (s t : string) : bool := String.eqb (lower_ascii s) (lower_ascii t).

(** [s[:n]]. *)
Fixpoint str_take (n : nat) (s : string) : string :=
  match n, s with S n', String c s' => String c (str_take n' s') | _, _ => EmptyString end.

(** ** Data *)

Record AuthSubject := mkAuthSubject {
  as_Username : string;
  as_StaticToken : bool;
}.

Record loginTokenClaims := mkClaims {
  ltc_Username : string;
  ltc_Expires : Z;
}.

Record Authenticator := mkAuthenticator {
  a_admins : gmap string string;
  a_staticTokens : gset string;
  a_tokenSecret : string;
  a_tokenTTL : Z;
}.

Inductive authError :=
| errUnauthorized
| errTokenExpired
| errLoginDisabled
| errNegativeTTL
| errJSON.

#[export] Instance authError_eq_dec : EqDecision authError.
Proof. solve_decision. Defined.

(** A request body as its readers see it: the bytes they get, then either the
    end of the body or an error. *)
Record ReqBody := mkReqBody {
  b_data : string;
  b_err : bool;
}.

Record Request := mkRequest {
  rq_Method : string;
  rq_Path : string;
  rq_Authorization : string;
  rq_Body : ReqBody;
}.

Record loginRequest := mkLoginRequest {
  lr_Username : string;
  lr_Password : string;
}.

(** [encoding/json] on the claims and on the login request. *)
Class AuthJSON := {
  MarshalClaims : loginTokenClaims -> option string;
  UnmarshalClaims : string -> option loginTokenClaims;
  DecodeLogin : ReqBody -> option loginRequest;
}.

(** JSON keeps ASCII text and 64-bit integers. *)
Definition ascii_only (s : string) : bool := forallb (fun z => z <? 128) (to_bytes s).

Class AuthJSONLaws (J : AuthJSON) := {
  claims_roundtrip c : ascii_only (ltc_Username c) = true -> int64_range (ltc_Expires c) ->
    exists p, MarshalClaims c = Some p /\ p <> "" /\ UnmarshalClaims p = Some c;
}.

(** [option.AdminAPIServiceOptions], the part the authenticator reads. *)
Record AuthOptions := mkAuthOptions {
  ao_Admins : list (string * string);
  ao_Tokens : list string;
  ao_TokenSecret : string;
  ao_TokenTTL : Z;
}.

Definition defaultTokenTTL : Z := 12 * (60 * minute).

(** ** Construction *)

Definition NewAuthenticator (options : AuthOptions) : result authError Authenticator :=
  let tokenTTL := ao_TokenTTL options in
  if tokenTTL <? 0 then Err errNegativeTTL
  else
    let tokenTTL := if tokenTTL =? 0 then defaultTokenTTL else tokenTTL in
    let admins := foldl (fun m ad => <[ad.1 := ad.2]> m) ∅ (ao_Admins options) in
    let staticTokens :=
      foldl (fun (m : gset string) token => if decide (token = "") then m else {[token]} ∪ m) ∅ (ao_Tokens options) in
    Ok (mkAuthenticator admins staticTokens (ao_TokenSecret options) tokenTTL).

Section Auth.
Context {J : AuthJSON}.

(** ** Tokens *)

Definition signToken (a : Authenticator) (payload : string) : string := hmac_sha256 (a_tokenSecret a) payload.

Definition issueLoginTokenWithExpiry (a : Authenticator) (now : Z) (username : string) : result authError (string * Z) :=
  if decide (a_tokenSecret a = "") then Err errLoginDisabled
  else if a_tokenTTL a <=? 0 then Err errLoginDisabled
  else
    let expiresAt := now + a_tokenTTL a in
    let claims := mkClaims username (Unix expiresAt) in
    match MarshalClaims claims with
    | None => Err errJSON
    | Some payload =>
        let payloadEncoded := RawURLEncode payload in
        let signatureEncoded := RawURLEncode (signToken a payloadEncoded) in
        Ok (payloadEncoded +:+ "." +:+ signatureEncoded, expiresAt)
    end.

Definition issueLoginToken (a : Authenticator) (now : Z) (username : string) : result authError string :=
  match issueLoginTokenWithExpiry a now username with Ok (token, _) => Ok token | Err err => Err err end.

Definition validateBearerToken (a : Authenticator) (now : Z) (token : string) : result authError AuthSubject :=
  if decide (token = "") then Err errUnauthorized
  else if decide (token ∈ a_staticTokens a) then Ok (mkAuthSubject "" true)
  else if decide (a_tokenSecret a = "") then Err errUnauthorized
  else
    match cut "."%char token with
    | None => Err errUnauthorized
    | Some (payloadEncoded, signatureEncoded) =>
        if decide (payloadEncoded = "" \/ signatureEncoded = "") then Err errUnauthorized
        else
          match RawURLDecode signatureEncoded with
          | None => Err errUnauthorized
          | Some signature =>
              if negb (String.eqb signature (signToken a payloadEncoded)) then Err errUnauthorized
              else
                match RawURLDecode payloadEncoded with
                | None => Err errUnauthorized
                | Some payload =>
                    match UnmarshalClaims payload with
                    | None => Err errUnauthorized
                    | Some claims =>
                        if decide (ltc_Username claims = "") then Err errTokenExpired
                        else if ltc_Expires claims <=? Unix now then Err errTokenExpired
                        else Ok (mkAuthSubject (ltc_Username claims) false)
                    end
                end
          end
    end.

(** ** Credentials *)

Definition validateBasicCredentials (a : Authenticator) (username password : string) : result authError AuthSubject :=
  match a_admins a !! username with
  | None => Err errUnauthorized
  | Some expectedPassword =>
      if negb (String.eqb expectedPassword password) then Err errUnauthorized
      else Ok (mkAuthSubject username false)
  end.

Definition extractBearerToken (authorization : string) : string :=
  if (String.length authorization <? 7)%nat then ""
  else if negb (equalFold (str_take 7 authorization) "Bearer ") then ""
  else trim_space (str_drop 7 authorization).

(** [http.Request.BasicAuth]. *)
Definition BasicAuth (authorization : string) : option (string * string) :=
  if (String.length authorization <? 6)%nat then None
  else if negb (equalFold (str_take 6 authorization) "Basic ") then None
  else match StdDecode (str_drop 6 authorization) with
       | Some cs => cut ":"%char cs
       | None => None
       end.

Definition validateAuthorization (a : Authenticator) (now : Z) (request : Request) : result authError AuthSubject :=
  let token := extractBearerToken (rq_Authorization request) in
  if decide (token <> "") then validateBearerToken a now token
  else
    match BasicAuth (rq_Authorization request) with
    | None => Err errUnauthorized
    | Some (username, password) => validateBasicCredentials a username password
    end.

(** ** Login *)

(** A status, with the token and the expiry of a successful login. *)
Definition LoginHandler (a : Authenticator) (now : Z) (request : Request) : Z * option (string * string) :=
  if negb (String.eqb (rq_Method request) "POST") then (405, None)
  else
    match DecodeLogin (rq_Body request) with
    | None => (400, None)
    | Some login =>
        match a_admins a !! lr_Username login with
        | None => (401, None)
        | Some expectedPassword =>
            if decide (expectedPassword <> lr_Password login) then (401, None)
            else
              match issueLoginTokenWithExpiry a now (lr_Username login) with
              | Ok (token, expiresAt) => (200, Some (token, format_rfc3339 expiresAt))
              | Err err => if decide (err = errLoginDisabled) then (503, None) else (500, None)
              end
        end
    end.

(** ** Lemmas *)

Lemma NewAuthenticator_admins options a u p :
  NewAuthenticator options = Ok a -> a_admins a !! u = Some p -> (u, p) ∈ ao_Admins options.
Proof.
  unfold NewAuthenticator. destruct (_ <? 0); [done|]. intros [= <-]. cbn. generalize (ao_Admins options). intros l.
  induction l as [|[k v] l IH] using rev_ind; [done|]. rewrite foldl_app. cbn.
  destruct (decide (k = u)) as [->|Hne].
  - rewrite lookup_insert_eq. intros [= ->]. set_solver.
  - rewrite lookup_insert_ne by done. set_solver.
Qed.

Lemma NewAuthenticator_tokens options a t :
  NewAuthenticator options = Ok a -> t ∈ a_staticTokens a <-> t <> "" /\ t ∈ ao_Tokens options.
Proof.
  unfold NewAuthenticator. destruct (_ <? 0); [done|]. intros [= <-]. cbn. generalize (ao_Tokens options). intros l.
  induction l as [|x l IH] using rev_ind; [set_solver|]. rewrite foldl_app. cbn.
  destruct (decide (x = "")) as [->|]; set_solver.
Qed.

Lemma NewAuthenticator_secret options a :
  NewAuthenticator options = Ok a -> a_tokenSecret a = ao_TokenSecret options /\ 0 < a_tokenTTL a.
Proof.
  unfold NewAuthenticator. destruct (Z.ltb_spec (ao_TokenTTL options) 0); [done|].
  intros [= <-]. cbn. split; [done|]. destruct (Z.eqb_spec (ao_TokenTTL options) 0); [done|lia].
Qed.

(** A token that was issued is accepted until the second of its expiry. *)
Lemma issued_token_validates `{JL : !AuthJSONLaws J} a now username token expiresAt now' :
  issueLoginTokenWithExpiry a now username = Ok (token, expiresAt) ->
  username <> "" -> ascii_only username = true -> int64_range (Unix (now + a_tokenTTL a)) ->
  token ∉ a_staticTokens a ->
  expiresAt = now + a_tokenTTL a /\
  validateBearerToken a now' token =
    (if Unix now' <? Unix expiresAt then Ok (mkAuthSubject username false) else Err errTokenExpired).
Proof.
  intros Hi Hu Ha Hr Hs. unfold issueLoginTokenWithExpiry in Hi.
  destruct (decide (a_tokenSecret a = "")) as [|Hsec]; [done|]. destruct (_ <=? 0); [done|].
  destruct (claims_roundtrip (mkClaims username (Unix (now + a_tokenTTL a))) Ha Hr) as (p & Hm & Hp & Hun).
  rewrite Hm in Hi. injection Hi as <- <-. split; [done|]. unfold validateBearerToken.
  set (pe := RawURLEncode p) in *. assert (pe <> "") as Hpe by by apply RawURLEncode_nonempty.
  rewrite decide_False by (destruct pe; [done|by rewrite str_app_cons]).
  rewrite decide_False by done. rewrite decide_False by done.
  change ("." +:+ RawURLEncode (signToken a pe)) with (String "."%char (RawURLEncode (signToken a pe))).
  rewrite cut_app by apply RawURLEncode_no_dot.
  rewrite decide_False; [|intros [?|H]; [done|]; by apply RawURLEncode_nonempty in H; [|apply hmac_sha256_nonempty]].
  rewrite RawURL_roundtrip, String.eqb_refl. cbn [negb]. unfold pe. rewrite RawURL_roundtrip, Hun. cbn.
  rewrite decide_False by done. rewrite Z.leb_antisym. by destruct (Unix now' <? _).
Qed.

(** What an accepted token is. *)
Lemma accepted_token_inv a now token subject :
  validateBearerToken a now token = Ok subject ->
  (token ∈ a_staticTokens a /\ subject = mkAuthSubject "" true) \/
  (a_tokenSecret a <> "" /\ exists pe se payload claims,
     token = pe +:+ "." +:+ se /\ RawURLDecode se = Some (hmac_sha256 (a_tokenSecret a) pe) /\
     RawURLDecode pe = Some payload /\ UnmarshalClaims payload = Some claims /\
     subject = mkAuthSubject (ltc_Username claims) false /\
     ltc_Username claims <> "" /\ Unix now < ltc_Expires claims).
Proof.
  unfold validateBearerToken. destruct (decide (token = "")); [done|].
  destruct (decide (token ∈ a_staticTokens a)); [intros [= <-]; by left|].
  destruct (decide (a_tokenSecret a = "")); [done|].
  destruct (cut "."%char token) as [[pe se]|] eqn:Ec; [|done]. destruct (decide _); [done|].
  destruct (RawURLDecode se) as [sg|] eqn:Es; [|done].
  destruct (String.eqb_spec sg (signToken a pe)) as [->|]; [|done]. cbn [negb].
  destruct (RawURLDecode pe) as [p|] eqn:Ep; [|done]. destruct (UnmarshalClaims p) as [c|] eqn:Eu; [|done].
  destruct (decide (ltc_Username c = "")); [done|]. destruct (Z.leb_spec (ltc_Expires c) (Unix now)); [done|].
  intros [= <-]. right. split; [done|]. exists pe, se, p, c. apply cut_Some in Ec as [-> _]. auto 10.
Qed.

End Auth.
