(* ===== verification/AdminAPI.v ===== *)
(** * The admin API

    [service/adminapi]: the handlers over the user provider, the quota
    controller and the speed controller, which they use through interfaces,
    the route table and the middlewares.

    An interface is a type class over the state of the service behind it; the
    [World] of a handler has the three states, each absent when the field of
    the service is nil.  A handler maps a request and a world to a world and a
    response. *)

From S2P Require Import Prelude GoStrings GoTime GoCrypto QuotaConfig ConnList QuotaManager SpeedConfig UserProvider AdminAuth.

Local Open Scope string_scope.
Local Open Scope list_scope.
Local Open Scope Z_scope.

(** ** Interfaces *)

Section Interfaces.
Context `{EX : Exceptions}.

Class UserProviderI (U : Type) := {
  UP_ListUsers : U -> list AdapterUser;
  UP_GetUser : string -> U -> option AdapterUser;
  UP_CreateUser : OptionUser -> U -> U * option error;
  UP_UpdateUser : string -> UserPatch -> U -> U * option error;
  UP_DeleteUser : string -> U -> U * option error;
}.

Class QuotaControllerI (Q : Type) := {
  QC_ApplyConfig : TrafficQuotaUser -> Q -> Q * option error;
  QC_RemoveConfig : string -> Q -> Q * option error;
  QC_GetConfig : string -> Q -> option TrafficQuotaUser;
  QC_SnapshotState : string -> Q -> option RuntimeState;
  QC_RestoreState : RuntimeState -> Q -> Q * option error;
  QC_QuotaStatus : string -> Q -> option Status;
}.

Class SpeedControllerI (S : Type) := {
  SC_ApplyConfig : SpeedLimiterUser -> S -> S * option error;
  SC_RemoveConfig : string -> S -> S * option error;
  SC_GetConfig : string -> S -> option SpeedLimiterUser;
  SC_ReplaceUserSchedules : string -> list UserSchedule -> S -> S * option error;
  SC_GetUserSchedules : string -> S -> option (list UserSchedule);
  SC_RemoveUserSchedules : string -> S -> S * option error;
}.

End Interfaces.

(** ** Requests and responses *)

Record createUserRequest := mkCreateUserRequest {
  cr_User : OptionUser;
  cr_Quota : option TrafficQuotaUser;
  cr_Speed : option SpeedLimiterUser;
  cr_SpeedSchedules : list UserSchedule;
}.

Record updateUserRequest := mkUpdateUserRequest {
  ur_Name : string;
  ur_Password : option string;
  ur_UUID : option string;
  ur_AlterId : option Z;
  ur_Flow : option string;
}.

Record deleteUserRequest := mkDeleteUserRequest {
  dr_Name : string;
  dr_User : string;
  dr_PurgeLimit : option bool;
}.

Record putQuotaRequest := mkPutQuotaRequest {
  pq_QuotaGB : float64;
  pq_Period : string;
  pq_PeriodStart : string;
  pq_PeriodDays : Z;
}.

Record deleteRuntimeState := mkDeleteRuntimeState {
  ds_user : option OptionUser;
  ds_quota : option RuntimeState;
  ds_speed : option SpeedLimiterUser;
  ds_schedules : option (list UserSchedule);
}.

Inductive RespBody :=
| BodyLogin (token expiresAt : string)
| BodyUsers (users : list AdapterUser)
| BodyUser (user : AdapterUser)
| BodyQuotaStatus (usage quota : Z) (exceeded : bool)
| BodySpeed (upload download : Z)
| BodySchedules (schedules : list UserSchedule).

Record Response := mkResponse { resp_Status : Z; resp_Body : option RespBody }.

Definition status (z : Z) : Response := mkResponse z None.
Definition json (b : RespBody) : Response := mkResponse 200 (Some b).

(** [encoding/json] on the requests, and the test for a context error. *)
Class AdminEnv `{EX : Exceptions} := {
  DecodeNamed : ReqBody -> option string;
  UnmarshalCreate : string -> option createUserRequest;
  UnmarshalUser : string -> option OptionUser;
  DecodeUpdate : ReqBody -> option updateUserRequest;
  DecodeDelete : ReqBody -> option deleteUserRequest;
  DecodePutQuota : ReqBody -> option putQuotaRequest;
  DecodeSpeedUser : ReqBody -> option SpeedLimiterUser;
  DecodeSchedules : ReqBody -> option (list UserSchedule);
  isContextError : error -> bool;
}.

Record World (U Q S : Type) := mkWorld {
  w_user : option U;
  w_quota : option Q;
  w_speed : option S;
}.
Arguments mkWorld {_ _ _} _ _ _.
Arguments w_user {_ _ _} _.
Arguments w_quota {_ _ _} _.
Arguments w_speed {_ _ _} _.

(** ** Error classification *)

(** [strings.ToLower] as far as the search for an ASCII text can see it: the
    ASCII letters and the two other code points with an ASCII lower case,
    U+0130 and U+212A. *)
Fixpoint toLower (s : string) : string :=
  match s with
  | EmptyString => EmptyString
  | String c s' =>
      match s' with
      | String d s'' =>
          if (ascii_Z c =? 0xC4) && (ascii_Z d =? 0xB0) then String "i"%char (toLower s'')
          else match s'' with
               | String e s''' =>
                   if (ascii_Z c =? 0xE2) && (ascii_Z d =? 0x84) && (ascii_Z e =? 0xAA)
                   then String "k"%char (toLower s''')
                   else String (lower_char c) (toLower s')
               | EmptyString => String (lower_char c) (toLower s')
               end
      | EmptyString => String (lower_char c) EmptyString
      end
  end.

Section Handlers.
Context `{AE : AdminEnv}.

Definition isUserProviderValidationError (err : error) : bool :=
  let message := toLower (Error err) in
  contains message "missing " || contains message "already exists" || contains message "invalid ".

Definition isUserProviderNotFoundError (err : error) : bool := contains (toLower (Error err)) "not found".

Definition isRuntimeControlValidationError (err : error) : bool :=
  let message := toLower (Error err) in
  contains message "missing " || contains message "invalid " || contains message "unsupported " ||
  contains message "parse ".

Definition userProviderErrorStatus (err : option error) : Z :=
  match err with
  | None => 204
  | Some err =>
      if isContextError err then 503
      else if isUserProviderNotFoundError err then 404
      else if isUserProviderValidationError err then 400
      else 500
  end.

Definition runtimeControlErrorStatus (err : option error) : Z :=
  match err with
  | None => 204
  | Some err =>
      if isContextError err then 503
      else if isRuntimeControlValidationError err then 400
      else 500
  end.

Definition writeUserProviderError (err : option error) : Response := status (userProviderErrorStatus err).
Definition writeRuntimeControlError (err : option error) : Response := status (runtimeControlErrorStatus err).

(** ** Decoding *)

Definition readRequestBody (request : Request) : option string :=
  if b_err (rq_Body request) then None else Some (b_data (rq_Body request)).

Definition decodeCreateUserRequest (request : Request) : option createUserRequest :=
  match readRequestBody request with
  | None => None
  | Some body =>
      match UnmarshalCreate body with
      | None => None
      | Some createRequest =>
          if decide (ou_Name (cr_User createRequest) <> "") then Some createRequest
          else
            match UnmarshalUser body with
            | None => None
            | Some flatUser =>
                Some (mkCreateUserRequest flatUser (cr_Quota createRequest) (cr_Speed createRequest)
                        (cr_SpeedSchedules createRequest))
            end
      end
  end.

Definition userName (r : deleteUserRequest) : string :=
  if decide (dr_User r <> "") then dr_User r else dr_Name r.

Context {U Q S : Type} `{UPI : !UserProviderI U} `{QCI : !QuotaControllerI Q} `{SCI : !SpeedControllerI S}.

#[local] Abbreviation World := (World U Q S).

Definition set_user (u : U) (w : World) : World := mkWorld (Some u) (w_quota w) (w_speed w).
Definition set_quota (q : Q) (w : World) : World := mkWorld (w_user w) (Some q) (w_speed w).
Definition set_speed (s : S) (w : World) : World := mkWorld (w_user w) (w_quota w) (Some s).

(** A call of a method on a controller that is there. *)
Definition on_user {A} (f : U -> U * option A) (w : World) : World * option A :=
  match w_user w with Some u => let '(u, r) := f u in (set_user u w, r) | None => (w, None) end.
Definition on_quota {A} (f : Q -> Q * option A) (w : World) : World * option A :=
  match w_quota w with Some q => let '(q, r) := f q in (set_quota q w, r) | None => (w, None) end.
Definition on_speed {A} (f : S -> S * option A) (w : World) : World * option A :=
  match w_speed w with Some s => let '(s, r) := f s in (set_speed s w, r) | None => (w, None) end.

Definition cause (err : option error) (args : list string) : list error :=
  match err with Some err => [E_Cause err args] | None => [] end.

(** ** User handlers *)

Definition ListUsersHandler (request : Request) (w : World) : World * Response :=
  match w_user w with
  | None => (w, status 503)
  | Some u => (w, json (BodyUsers (UP_ListUsers u)))
  end.

Definition GetUserHandler (request : Request) (w : World) : World * Response :=
  match w_user w with
  | None => (w, status 503)
  | Some u =>
      match DecodeNamed (rq_Body request) with
      | None => (w, status 400)
      | Some name =>
          if decide (name = "") then (w, status 400)
          else match UP_GetUser name u with
               | None => (w, status 404)
               | Some user => (w, json (BodyUser user))
               end
      end
  end.

Definition rollbackCreatedUser (name : string) (quotaApplied speedApplied : bool) (w : World) : World * option error :=
  let '(w, e1) := if speedApplied then on_speed (SC_RemoveConfig name) w else (w, None) in
  let '(w, e2) := if speedApplied then on_speed (SC_RemoveUserSchedules name) w else (w, None) in
  let '(w, e3) := if quotaApplied then on_quota (QC_RemoveConfig name) w else (w, None) in
  let '(w, e4) := on_user (UP_DeleteUser name) w in
  (w, E_Errors (cause e1 ["remove speed config"] ++ cause e2 ["remove speed schedules"] ++
                cause e3 ["remove quota config"] ++ cause e4 ["delete created user"])).

Definition handleCreateRollbackError (name : string) (quotaApplied speedApplied : bool) (createErr : error) (w : World)
    : World * Response :=
  let '(w, rollbackErr) := rollbackCreatedUser name quotaApplied speedApplied w in
  (w, writeRuntimeControlError
        match rollbackErr with
        | Some rollbackErr => E_Errors [createErr; E_Cause rollbackErr ["rollback create user lifecycle"]]
        | None => Some createErr
        end).

(** The three calls that follow the creation; each is skipped when the request
    has nothing for it. *)
Definition createQuota (cr : createUserRequest) (w : World) : World * option error :=
  match cr_Quota cr with
  | None => (w, None)
  | Some q =>
      on_quota (QC_ApplyConfig (mkTrafficQuotaUser (ou_Name (cr_User cr)) (tqu_Group q) (tqu_QuotaGB q) (tqu_Period q)
                                  (tqu_PeriodStart q) (tqu_PeriodDays q))) w
  end.
Definition createSpeed (cr : createUserRequest) (w : World) : World * option error :=
  match cr_Speed cr with
  | None => (w, None)
  | Some s =>
      on_speed (SC_ApplyConfig (mkSpeedLimiterUser (ou_Name (cr_User cr)) (slu_Group s) (slu_UploadMbps s)
                                  (slu_DownloadMbps s) (slu_PerClient s))) w
  end.
Definition createSchedules (cr : createUserRequest) (w : World) : World * option error :=
  match cr_SpeedSchedules cr with
  | [] => (w, None)
  | l => on_speed (SC_ReplaceUserSchedules (ou_Name (cr_User cr)) l) w
  end.

Definition isSet {A} (x : option A) : bool := match x with Some _ => true | None => false end.

Definition CreateUserHandler (request : Request) (w : World) : World * Response :=
  if negb (isSet (w_user w)) then (w, status 503)
  else
    match decodeCreateUserRequest request with
    | None => (w, status 400)
    | Some cr =>
        let name := ou_Name (cr_User cr) in
        if decide (name = "") then (w, status 400)
        else if isSet (cr_Quota cr) && negb (isSet (w_quota w)) then (w, status 503)
        else if (isSet (cr_Speed cr) || negb (Nat.eqb (length (cr_SpeedSchedules cr)) 0)) && negb (isSet (w_speed w))
        then (w, status 503)
        else
          let '(w, err) := on_user (UP_CreateUser (cr_User cr)) w in
          match err with
          | Some err => (w, writeUserProviderError (Some err))
          | None =>
              let '(w, err) := createQuota cr w in
              match err with
              | Some err => handleCreateRollbackError name false false err w
              | None =>
                  let '(w, err) := createSpeed cr w in
                  match err with
                  | Some err => handleCreateRollbackError name (isSet (cr_Quota cr)) false err w
                  | None =>
                      let '(w, err) := createSchedules cr w in
                      match err with
                      | Some err => handleCreateRollbackError name (isSet (cr_Quota cr)) (isSet (cr_Speed cr)) err w
                      | None => (w, status 204)
                      end
                  end
              end
          end
    end.

Definition UpdateUserHandler (request : Request) (w : World) : World * Response :=
  if negb (isSet (w_user w)) then (w, status 503)
  else
    match DecodeUpdate (rq_Body request) with
    | None => (w, status 400)
    | Some r =>
        if decide (ur_Name r = "") then (w, status 400)
        else
          let '(w, err) :=
            on_user (UP_UpdateUser (ur_Name r) (mkUserPatch (ur_Password r) (ur_UUID r) (ur_AlterId r) (ur_Flow r))) w in
          match err with
          | Some err => (w, writeUserProviderError (Some err))
          | None => (w, status 204)
          end
    end.

Definition snapshotDeleteRuntimeState (name : string) (w : World) : deleteRuntimeState :=
  mkDeleteRuntimeState
    (u ← w_user w; adapterUserToOption <$> UP_GetUser name u)
    (q ← w_quota w; QC_SnapshotState name q)
    (s ← w_speed w; SC_GetConfig name s)
    (s ← w_speed w; SC_GetUserSchedules name s).

(** Stops at the first error. *)
Definition cleanupDeleteRuntimeState (name : string) (w : World) : World * option error :=
  let '(w, err) := on_speed (SC_RemoveUserSchedules name) w in
  match err with
  | Some err => (w, Some err)
  | None =>
      let '(w, err) := on_speed (SC_RemoveConfig name) w in
      match err with
      | Some err => (w, Some err)
      | None => on_quota (QC_RemoveConfig name) w
      end
  end.

(** The name the schedules are restored under is the empty one when there was
    no user. *)
Definition restoreDeleteRuntimeState (state : deleteRuntimeState) (w : World) : World * option error :=
  let '(w, e1) := match ds_user state with Some user => on_user (UP_CreateUser user) w | None => (w, None) end in
  let '(w, e2) := match ds_quota state with Some q => on_quota (QC_RestoreState q) w | None => (w, None) end in
  let '(w, e3) := match ds_speed state with Some s => on_speed (SC_ApplyConfig s) w | None => (w, None) end in
  let '(w, e4) :=
    match ds_schedules state with
    | Some l =>
        on_speed (SC_ReplaceUserSchedules match ds_user state with Some u => ou_Name u | None => "" end l) w
    | None => (w, None)
    end in
  (w, E_Errors (cause e1 ["restore deleted user"] ++ cause e2 ["restore quota runtime state"] ++
                cause e3 ["restore speed config"] ++ cause e4 ["restore speed schedules"])).

Definition DeleteUserHandler (request : Request) (w : World) : World * Response :=
  if negb (isSet (w_user w)) then (w, status 503)
  else
    match DecodeDelete (rq_Body request) with
    | None => (w, status 400)
    | Some r =>
        let name := userName r in
        if decide (name = "") then (w, status 400)
        else
          let state := snapshotDeleteRuntimeState name w in
          match ds_user state with
          | None => (w, status 404)
          | Some _ =>
              let '(w, err) := on_user (UP_DeleteUser name) w in
              match err with
              | Some err => (w, writeUserProviderError (Some err))
              | None =>
                  let '(w, err) := cleanupDeleteRuntimeState name w in
                  match err with
                  | None => (w, status 204)
                  | Some err =>
                      let '(w, restoreErr) := restoreDeleteRuntimeState state w in
                      (w, writeRuntimeControlError
                            match restoreErr with
                            | Some restoreErr => E_Errors [err; E_Cause restoreErr ["restore delete runtime state"]]
                            | None => Some err
                            end)
                  end
              end
          end
    end.

(** ** Quota handlers; [user] is the URL parameter. *)

Definition GetQuotaStatusHandler (user : string) (request : Request) (w : World) : World * Response :=
  match w_quota w with
  | None => (w, status 503)
  | Some q =>
      if decide (user = "") then (w, status 400)
      else match QC_QuotaStatus user q with
           | None => (w, status 404)
           | Some st => (w, json (BodyQuotaStatus (st_UsageBytes st) (st_QuotaBytes st) (st_Exceeded st)))
           end
  end.

(** The response to the error of a controller. *)
Definition finish (r : World * option error) : World * Response :=
  match r with
  | (w, Some err) => (w, writeRuntimeControlError (Some err))
  | (w, None) => (w, status 204)
  end.

Definition PutQuotaHandler (user : string) (request : Request) (w : World) : World * Response :=
  if negb (isSet (w_quota w)) then (w, status 503)
  else if decide (user = "") then (w, status 400)
  else
    match DecodePutQuota (rq_Body request) with
    | None => (w, status 400)
    | Some r =>
        finish (on_quota (QC_ApplyConfig (mkTrafficQuotaUser user "" (pq_QuotaGB r) (pq_Period r) (pq_PeriodStart r)
                                            (pq_PeriodDays r))) w)
    end.

Definition DeleteQuotaHandler (user : string) (request : Request) (w : World) : World * Response :=
  if negb (isSet (w_quota w)) then (w, status 503)
  else if decide (user = "") then (w, status 400)
  else finish (on_quota (QC_RemoveConfig user) w).

(** ** Speed handlers *)

Definition GetSpeedHandler (user : string) (request : Request) (w : World) : World * Response :=
  match w_speed w with
  | None => (w, status 503)
  | Some s =>
      if decide (user = "") then (w, status 400)
      else match SC_GetConfig user s with
           | None => (w, status 404)
           | Some c => (w, json (BodySpeed (slu_UploadMbps c) (slu_DownloadMbps c)))
           end
  end.

Definition PutSpeedHandler (user : string) (request : Request) (w : World) : World * Response :=
  if negb (isSet (w_speed w)) then (w, status 503)
  else if decide (user = "") then (w, status 400)
  else
    match DecodeSpeedUser (rq_Body request) with
    | None => (w, status 400)
    | Some r =>
        finish (on_speed (SC_ApplyConfig (mkSpeedLimiterUser user (slu_Group r) (slu_UploadMbps r) (slu_DownloadMbps r)
                                            (slu_PerClient r))) w)
    end.

Definition DeleteSpeedHandler (user : string) (request : Request) (w : World) : World * Response :=
  if negb (isSet (w_speed w)) then (w, status 503)
  else if decide (user = "") then (w, status 400)
  else finish (on_speed (SC_RemoveConfig user) w).

Definition GetSpeedSchedulesHandler (user : string) (request : Request) (w : World) : World * Response :=
  match w_speed w with
  | None => (w, status 503)
  | Some s =>
      if decide (user = "") then (w, status 400)
      else match SC_GetUserSchedules user s with
           | None => (w, status 404)
           | Some l => (w, json (BodySchedules l))
           end
  end.

Definition PutSpeedSchedulesHandler (user : string) (request : Request) (w : World) : World * Response :=
  if negb (isSet (w_speed w)) then (w, status 503)
  else if decide (user = "") then (w, status 400)
  else
    match DecodeSchedules (rq_Body request) with
    | None => (w, status 400)
    | Some l => finish (on_speed (SC_ReplaceUserSchedules user l) w)
    end.

Definition DeleteSpeedSchedulesHandler (user : string) (request : Request) (w : World) : World * Response :=
  if negb (isSet (w_speed w)) then (w, status 503)
  else if decide (user = "") then (w, status 400)
  else finish (on_speed (SC_RemoveUserSchedules user) w).

(** ** Middlewares *)

Definition Handler : Type := Request -> World -> World * Response.

Definition postOnly (next : Handler) : Handler := fun request w =>
  if negb (String.eqb (rq_Method request) "POST") then (w, status 405) else next request w.

Definition adminAPIMaxRequestBytes : nat := Z.to_nat (2 ^ 20).

(** [http.MaxBytesReader]: the readers get at most the limit, then an error. *)
Definition limitBody (limit : nat) (b : ReqBody) : ReqBody :=
  if (limit <? String.length (b_data b))%nat then mkReqBody (str_take limit (b_data b)) true else b.

Definition bodyLimitMiddleware (next : Handler) : Handler := fun request w =>
  next (mkRequest (rq_Method request) (rq_Path request) (rq_Authorization request)
          (limitBody adminAPIMaxRequestBytes (rq_Body request))) w.

Context {J : AuthJSON}.

(** The subject is put into the context of the request; no handler reads it. *)
Definition Middleware (a : Authenticator) (now : Z) (next : Handler) : Handler := fun request w =>
  match validateAuthorization a now request with
  | Err _ => (w, status 401)
  | Ok _ => next request w
  end.

Definition authenticatedPost (a : Authenticator) (now : Z) (handler : Handler) : Handler :=
  postOnly (Middleware a now handler).

Definition loginRoute (a : Authenticator) (now : Z) : Handler := fun request w =>
  (w, match LoginHandler a now request with
      | (z, Some (token, expiresAt)) => mkResponse z (Some (BodyLogin token expiresAt))
      | (z, None) => status z
      end).

(** ** Routes

    The table [NewService] registers: a method, or any with [Handle], a pattern
    below the base path, and the handler for a value of the parameter [user].
    The matching of [chi] is a parameter. *)
Record Route := mkRoute {
  rt_Method : option string;
  rt_Pattern : string;
  rt_Handler : string -> Handler;
}.

Definition loginPattern : string := "/auth/login".

Definition routes (a : Authenticator) (now : Z) : list Route :=
  let post p h := mkRoute None p (fun _ => authenticatedPost a now h) in
  let auth m p h := mkRoute (Some m) p (fun user => Middleware a now (h user)) in
  [ mkRoute None loginPattern (fun _ => postOnly (loginRoute a now));
    post "/user/list" ListUsersHandler;
    post "/user/get" GetUserHandler;
    post "/user/create" CreateUserHandler;
    post "/user/update" UpdateUserHandler;
    post "/user/delete" DeleteUserHandler;
    auth "GET" "/quota/{user}" GetQuotaStatusHandler;
    auth "PUT" "/quota/{user}" PutQuotaHandler;
    auth "DELETE" "/quota/{user}" DeleteQuotaHandler;
    auth "GET" "/speed/{user}" GetSpeedHandler;
    auth "PUT" "/speed/{user}" PutSpeedHandler;
    auth "DELETE" "/speed/{user}" DeleteSpeedHandler;
    auth "GET" "/speed/{user}/schedules" GetSpeedSchedulesHandler;
    auth "PUT" "/speed/{user}/schedules" PutSpeedSchedulesHandler;
    auth "DELETE" "/speed/{user}/schedules" DeleteSpeedSchedulesHandler ].

(** What [chi] answers for a path and a method: the index of a route of the
    table with the URL parameter, or a status of its own when there is none. *)
Inductive Matched := MatchRoute (i : nat) (user : string) | NoMatch (code : Z).

Definition ServeHTTP (chi : list (option string * string) -> string -> string -> Matched)
    (a : Authenticator) (now : Z) (basePath : string) : Handler :=
  bodyLimitMiddleware (fun request w =>
    let table := routes a now in
    match chi (map (fun r => (rt_Method r, basePath +:+ rt_Pattern r)) table) (rq_Method request) (rq_Path request) with
    | NoMatch code => (w, status code)
    | MatchRoute i user =>
        match table !! i with
        | Some r => rt_Handler r user request w
        | None => (w, status 404)
        end
    end).

End Handlers.

(** ** The base path *)

Definition defaultBasePath : string := "/admin/v1".

(** The segments between slashes. *)
Fixpoint segments (s : string) : list string :=
  match s with
  | EmptyString => [""]
  | String c s' =>
      if Ascii.eqb c "/"%char then "" :: segments s'
      else match segments s' with
           | seg :: rest => String c seg :: rest
           | [] => [String c ""]
           end
  end.

(** [path.Clean] on a rooted path: empty segments and dots go, a double dot
    takes the segment before it along. *)
Definition cleanStep (acc : list string) (seg : string) : list string :=
  if decide (seg = "" \/ seg = ".") then acc
  else if decide (seg = "..") then removelast acc
  else acc ++ [seg].

Definition joinPath (l : list string) : string :=
  match l with [] => "/" | _ => str_concat (map (fun seg => "/" +:+ seg) l) end.

Definition pathClean (s : string) : string := joinPath (foldl cleanStep [] (segments s)).

Definition normalizeBasePath (rawPath : string) : string :=
  let trimmedPath := trim_space rawPath in
  if decide (trimmedPath = "" \/ trimmedPath = "/") then defaultBasePath
  else
    let trimmedPath := if String.prefix "/" trimmedPath then trimmedPath else "/" +:+ trimmedPath in
    let cleanedPath := pathClean trimmedPath in
    if decide (cleanedPath = "." \/ cleanedPath = "/") then defaultBasePath else cleanedPath.

(** ** Resolution of the managed services

    A service of the manager, by the interfaces its type implements. *)
Section Resolve.
Context {UPV QCV SCV : Type}.

Record ManagedService := mkManagedService {
  ms_self : bool;
  ms_UserProvider : option UPV;
  ms_QuotaController : option QCV;
  ms_SpeedController : option SCV;
}.

Definition first_of {A} (x y : option A) : option A := match x with Some _ => x | None => y end.

Definition resolveStep (acc : option UPV * option QCV * option SCV) (s : ManagedService)
    : option UPV * option QCV * option SCV :=
  if ms_self s then acc
  else
    let '(up, qc, sc) := acc in
    (first_of up (ms_UserProvider s), first_of qc (ms_QuotaController s), first_of sc (ms_SpeedController s)).

Definition resolveManagedServices (serviceManager : option (list ManagedService))
    : option UPV * option QCV * option SCV :=
  match serviceManager with
  | None => (None, None, None)
  | Some services => foldl resolveStep (None, None, None) services
  end.
End Resolve.
