(* ===== verification/AdminLaws.v ===== *)
(** * What the admin API may rely on

    The laws of the three interfaces of [AdminAPI], stated on what the getters
    show, and the effect of the composite operations of the handlers under
    those laws.  A call that reports an error has carried its change out or
    has changed nothing, in the user provider; it changes nothing visible in the
    quota and speed controllers, but for the restoration of a quota, which may
    leave that of its user in any state. *)

From S2P Require Import Prelude GoStrings QuotaConfig ConnList QuotaManager SpeedConfig UserProvider AdminAuth AdminAPI.

Local Open Scope string_scope.
Local Open Scope list_scope.
Local Open Scope Z_scope.

(** A view with one entry replaced. *)
Definition upd {A} (n : string) (x : A) (f : string -> A) : string -> A :=
  fun k => if decide (k = n) then x else f k.

Section Laws.
Context `{EX : Exceptions}.

Class UserProviderLaws (U : Type) `{UPI : !UserProviderI U} := {
  up_wf : U -> Prop;
  UP_create_ok u s s' : up_wf s -> UP_CreateUser u s = (s', None) ->
    up_wf s' /\ ou_Name u <> "" /\ UP_GetUser (ou_Name u) s = None /\
    forall k, UP_GetUser k s' = upd (ou_Name u) (Some (optionUserToAdapter u)) (fun k => UP_GetUser k s) k;
  UP_create_err u s s' err : up_wf s -> UP_CreateUser u s = (s', Some err) ->
    up_wf s' /\ ((forall k, UP_GetUser k s' = UP_GetUser k s) \/
      (UP_GetUser (ou_Name u) s = None /\
       forall k, UP_GetUser k s' = upd (ou_Name u) (Some (optionUserToAdapter u)) (fun k => UP_GetUser k s) k));
  UP_delete_err n s s' err : up_wf s -> UP_DeleteUser n s = (s', Some err) ->
    up_wf s' /\ ((forall k, UP_GetUser k s' = UP_GetUser k s) \/
      forall k, UP_GetUser k s' = upd n None (fun k => UP_GetUser k s) k);
  UP_delete_ok n s s' : up_wf s -> UP_DeleteUser n s = (s', None) ->
    up_wf s' /\ forall k, UP_GetUser k s' = upd n None (fun k => UP_GetUser k s) k;
  UP_named n s u : up_wf s -> UP_GetUser n s = Some u -> au_Name u = n;
}.

(** What a user's quota looks like from outside: its period and its status. *)
Definition quota_view {Q} `{!QuotaControllerI Q} (q : Q) (n : string) : option string * option Status :=
  (tqu_Period <$> QC_GetConfig n q, QC_QuotaStatus n q).

Class QuotaControllerLaws (Q : Type) `{QCI : !QuotaControllerI Q} := {
  qc_wf : Q -> Prop;
  qc_restorable : RuntimeState -> Prop;
  QC_apply_ok c q q' : qc_wf q -> QC_ApplyConfig c q = (q', None) ->
    qc_wf q' /\ is_Some (QC_GetConfig (tqu_Name c) q') /\
    forall k, k <> tqu_Name c -> quota_view q' k = quota_view q k;
  QC_apply_err c q q' err : qc_wf q -> QC_ApplyConfig c q = (q', Some err) ->
    qc_wf q' /\ forall k, quota_view q' k = quota_view q k;
  QC_remove_ok n q q' : qc_wf q -> QC_RemoveConfig n q = (q', None) ->
    qc_wf q' /\ forall k, quota_view q' k = upd n (None, None) (quota_view q) k;
  QC_remove_err n q q' err : qc_wf q -> QC_RemoveConfig n q = (q', Some err) ->
    qc_wf q' /\ forall k, quota_view q' k = quota_view q k;
  QC_restore_ok n q0 st q q' : qc_wf q0 -> QC_SnapshotState n q0 = Some st -> qc_restorable st ->
    qc_wf q -> QC_RestoreState st q = (q', None) ->
    qc_wf q' /\ forall k, quota_view q' k = upd n (quota_view q0 n) (quota_view q) k;
  QC_restore_err n q0 st q q' err : qc_wf q0 -> QC_SnapshotState n q0 = Some st -> qc_restorable st ->
    qc_wf q -> QC_RestoreState st q = (q', Some err) ->
    qc_wf q' /\ forall k, k <> n -> quota_view q' k = quota_view q k;
  QC_snapshot_none n q : qc_wf q -> QC_SnapshotState n q = None -> quota_view q n = (None, None);
}.

Class SpeedControllerLaws (S : Type) `{SCI : !SpeedControllerI S} := {
  sc_wf : S -> Prop;
  SC_named n s c : sc_wf s -> SC_GetConfig n s = Some c -> slu_Name c = n;
  SC_apply_ok c s s' : sc_wf s -> SC_ApplyConfig c s = (s', None) ->
    sc_wf s' /\ (forall k, SC_GetConfig k s' = upd (slu_Name c) (Some c) (fun k => SC_GetConfig k s) k) /\
    forall k, SC_GetUserSchedules k s' = SC_GetUserSchedules k s;
  SC_apply_err c s s' err : sc_wf s -> SC_ApplyConfig c s = (s', Some err) ->
    sc_wf s' /\ (forall k, SC_GetConfig k s' = SC_GetConfig k s) /\
    forall k, SC_GetUserSchedules k s' = SC_GetUserSchedules k s;
  SC_remove_ok n s s' : sc_wf s -> SC_RemoveConfig n s = (s', None) ->
    sc_wf s' /\ (forall k, SC_GetConfig k s' = upd n None (fun k => SC_GetConfig k s) k) /\
    forall k, SC_GetUserSchedules k s' = SC_GetUserSchedules k s;
  SC_remove_err n s s' err : sc_wf s -> SC_RemoveConfig n s = (s', Some err) ->
    sc_wf s' /\ (forall k, SC_GetConfig k s' = SC_GetConfig k s) /\
    forall k, SC_GetUserSchedules k s' = SC_GetUserSchedules k s;
  SC_replace_ok n l s s' : sc_wf s -> SC_ReplaceUserSchedules n l s = (s', None) ->
    sc_wf s' /\ (forall k, SC_GetConfig k s' = SC_GetConfig k s) /\
    (l <> [] -> is_Some (SC_GetUserSchedules n s')) /\
    (forall s0, sc_wf s0 -> SC_GetUserSchedules n s0 = Some l -> SC_GetUserSchedules n s' = Some l) /\
    forall k, k <> n -> SC_GetUserSchedules k s' = SC_GetUserSchedules k s;
  SC_replace_err n l s s' err : sc_wf s -> SC_ReplaceUserSchedules n l s = (s', Some err) ->
    sc_wf s' /\ (forall k, SC_GetConfig k s' = SC_GetConfig k s) /\
    forall k, SC_GetUserSchedules k s' = SC_GetUserSchedules k s;
  SC_unschedule_ok n s s' : sc_wf s -> SC_RemoveUserSchedules n s = (s', None) ->
    sc_wf s' /\ (forall k, SC_GetConfig k s' = SC_GetConfig k s) /\
    forall k, SC_GetUserSchedules k s' = upd n None (fun k => SC_GetUserSchedules k s) k;
  SC_unschedule_err n s s' err : sc_wf s -> SC_RemoveUserSchedules n s = (s', Some err) ->
    sc_wf s' /\ (forall k, SC_GetConfig k s' = SC_GetConfig k s) /\
    forall k, SC_GetUserSchedules k s' = SC_GetUserSchedules k s;
}.

End Laws.

(** ** Views of a world *)

Section Views.
Context `{EX : Exceptions}.
Context {U Q S : Type} `{UPI : !UserProviderI U} `{QCI : !QuotaControllerI Q} `{SCI : !SpeedControllerI S}.
Context `{UPL : !UserProviderLaws U} `{QCL : !QuotaControllerLaws Q} `{SCL : !SpeedControllerLaws S}.

#[local] Abbreviation World := (World U Q S).

Definition users_of (w : World) (n : string) : option AdapterUser := u ← w_user w; UP_GetUser n u.
Definition quota_of (w : World) (n : string) : option string * option Status :=
  match w_quota w with Some q => quota_view q n | None => (None, None) end.
Definition speed_of (w : World) (n : string) : option SpeedLimiterUser := s ← w_speed w; SC_GetConfig n s.
Definition schedules_of (w : World) (n : string) : option (list UserSchedule) := s ← w_speed w; SC_GetUserSchedules n s.

Definition opt_all {A} (P : A -> Prop) (x : option A) : Prop := match x with Some a => P a | None => True end.

Definition world_wf (w : World) : Prop :=
  opt_all up_wf (w_user w) /\ opt_all qc_wf (w_quota w) /\ opt_all sc_wf (w_speed w).

(** The same controllers are there. *)
Definition same_shape (w w' : World) : Prop :=
  isSet (w_user w') = isSet (w_user w) /\ isSet (w_quota w') = isSet (w_quota w) /\
  isSet (w_speed w') = isSet (w_speed w).

(** The four views after a step, in terms of those before it. *)
Record effect (w w' : World) (fu : (string -> option AdapterUser) -> string -> option AdapterUser)
    (fq : (string -> option string * option Status) -> string -> option string * option Status)
    (fs : (string -> option SpeedLimiterUser) -> string -> option SpeedLimiterUser)
    (fc : (string -> option (list UserSchedule)) -> string -> option (list UserSchedule)) : Prop := mkEffect {
  eff_wf : world_wf w' /\ same_shape w w';
  eff_users : forall k, users_of w' k = fu (users_of w) k;
  eff_quota : forall k, quota_of w' k = fq (quota_of w) k;
  eff_speed : forall k, speed_of w' k = fs (speed_of w) k;
  eff_schedules : forall k, schedules_of w' k = fc (schedules_of w) k;
}.

(** Nothing visible changed. *)
Definition unchanged_world (w w' : World) : Prop := effect w w' (fun f => f) (fun f => f) (fun f => f) (fun f => f).

(** Nothing visible changed but under one name. *)
Definition only_name (n : string) (w w' : World) : Prop :=
  (world_wf w' /\ same_shape w w') /\
  forall k, k <> n -> users_of w' k = users_of w k /\ quota_of w' k = quota_of w k /\
    speed_of w' k = speed_of w k /\ schedules_of w' k = schedules_of w k.

End Views.

(** Well-formedness and shape of the last of several worlds. *)
Ltac shape := unfold same_shape in *; split_and!; first [done|congruence].

(** Rewrites a goal about the last world back to the first. *)
Ltac chase :=
  let k := fresh "k" in
  intros k; unfold upd in *;
  repeat match goal with
  | H : forall k, _ ?w k = _ |- context [users_of ?w ?x] => rewrite (H x)
  | H : forall k, _ ?w k = _ |- context [quota_of ?w ?x] => rewrite (H x)
  | H : forall k, _ ?w k = _ |- context [speed_of ?w ?x] => rewrite (H x)
  | H : forall k, _ ?w k = _ |- context [schedules_of ?w ?x] => rewrite (H x)
  | |- context [decide (?a = ?b)] => destruct (decide (a = b)); subst
  end; try congruence; try done.

Section Effects.
Context `{EX : Exceptions}.
Context {U Q S : Type} `{UPI : !UserProviderI U} `{QCI : !QuotaControllerI Q} `{SCI : !SpeedControllerI S}.
Context `{UPL : !UserProviderLaws U} `{QCL : !QuotaControllerLaws Q} `{SCL : !SpeedControllerLaws S}.

#[local] Abbreviation World := (World U Q S).

Lemma unchanged_refl w : world_wf w -> unchanged_world w w.
Proof. intros H. by split. Qed.

Lemma unchanged_trans w1 w2 w3 : unchanged_world w1 w2 -> unchanged_world w2 w3 -> unchanged_world w1 w3.
Proof.
  intros [[? [? [? ?]]]] [[? [? [? ?]]]]. split; [shape|..]; intros k; congruence.
Qed.

Lemma only_name_trans n w1 w2 w3 : only_name n w1 w2 -> only_name n w2 w3 -> only_name n w1 w3.
Proof.
  intros [[? [? [? ?]]] HA] [[? [? [? ?]]] HB]. split; [shape|]. intros k Hk.
  destruct (HA k Hk) as (? & ? & ? & ?), (HB k Hk) as (? & ? & ? & ?). split_and!; congruence.
Qed.

Lemma effect_only n w w' fu fq fs fc : effect w w' fu fq fs fc ->
  (forall k, k <> n -> fu (users_of w) k = users_of w k) -> (forall k, k <> n -> fq (quota_of w) k = quota_of w k) ->
  (forall k, k <> n -> fs (speed_of w) k = speed_of w k) -> (forall k, k <> n -> fc (schedules_of w) k = schedules_of w k) ->
  only_name n w w'.
Proof.
  intros [Hw Hu Hq Hs Hc] H1 H2 H3 H4. split; [done|]. intros k Hk. rewrite Hu, Hq, Hs, Hc. auto.
Qed.

Lemma upd_other {A} n (x : A) f k : k <> n -> upd n x f k = f k.
Proof. intros Hk. unfold upd. by rewrite decide_False. Qed.

(** *** Effects of the calls on one controller *)

Lemma delete_user_effect n w w' :
  world_wf w -> on_user (UP_DeleteUser n) w = (w', None) ->
  effect w w' (upd n None) (fun f => f) (fun f => f) (fun f => f).
Proof.
  intros (Hu & Hq & Hs) H. unfold on_user in H. destruct w as [[u|] q s]; cbn in *.
  - destruct (UP_DeleteUser n u) as [u' [e|]] eqn:E; [done|]. injection H as <-.
    destruct (UP_delete_ok n u u' Hu E) as [Hu' Hk]. split; [done|exact Hk|done..].
  - injection H as <-. split; [done| |done..]. intros k. unfold upd. by destruct (decide (k = n)).
Qed.

Lemma create_user_effect user w w' :
  world_wf w -> isSet (w_user w) = true -> on_user (UP_CreateUser user) w = (w', None) ->
  users_of w (ou_Name user) = None /\
  effect w w' (upd (ou_Name user) (Some (optionUserToAdapter user))) (fun f => f) (fun f => f) (fun f => f).
Proof.
  intros (Hu & Hq & Hs) Hset H. unfold on_user in H. destruct w as [[u|] q s]; cbn in *; [|done].
  destruct (UP_CreateUser user u) as [u' [e|]] eqn:E; [done|]. injection H as <-.
  destruct (UP_create_ok user u u' Hu E) as (Hu' & _ & Hn & Hk). split; [exact Hn|]. by split.
Qed.

(** A view changed under a condition. *)
Definition upd_if {A} (b : bool) (n : string) (x : A) (f : string -> A) : string -> A :=
  if b then upd n x f else f.

Lemma upd_if_other {A} b n (x : A) f k : k <> n -> upd_if b n x f k = f k.
Proof. destruct b; [apply upd_other|done]. Qed.

Lemma create_user_err user w w' err :
  world_wf w -> on_user (UP_CreateUser user) w = (w', Some err) ->
  exists b, (b = true -> users_of w (ou_Name user) = None) /\
    effect w w' (upd_if b (ou_Name user) (Some (optionUserToAdapter user))) (fun f => f) (fun f => f) (fun f => f).
Proof.
  intros (Hu & Hq & Hs) H. unfold on_user in H. destruct w as [[u|] q s]; cbn in *; [|done].
  destruct (UP_CreateUser user u) as [u' [e|]] eqn:E; [|done]. injection H as <- <-.
  destruct (UP_create_err user u u' e Hu E) as (Hu' & [Hk|[Hn Hk]]); [exists false|exists true]; (split; [done|]); by split.
Qed.

Lemma delete_user_err n w w' err :
  world_wf w -> on_user (UP_DeleteUser n) w = (w', Some err) ->
  exists b, effect w w' (upd_if b n None) (fun f => f) (fun f => f) (fun f => f).
Proof.
  intros (Hu & Hq & Hs) H. unfold on_user in H. destruct w as [[u|] q s]; cbn in *; [|done].
  destruct (UP_DeleteUser n u) as [u' [e|]] eqn:E; [|done]. injection H as <- <-.
  destruct (UP_delete_err n u u' e Hu E) as (Hu' & [Hk|Hk]); [exists false|exists true]; by split.
Qed.

Lemma remove_quota_effect n w w' :
  world_wf w -> on_quota (QC_RemoveConfig n) w = (w', None) ->
  effect w w' (fun f => f) (upd n (None, None)) (fun f => f) (fun f => f).
Proof.
  intros (Hu & Hq & Hs) H. unfold on_quota in H. destruct w as [u [q|] s]; cbn in *.
  - destruct (QC_RemoveConfig n q) as [q' [e|]] eqn:E; [done|]. injection H as <-.
    destruct (QC_remove_ok n q q' Hq E) as [Hq' Hk]. by split.
  - injection H as <-. split; [done|done| |done..]. intros k. unfold upd. by destruct (decide (k = n)).
Qed.

Lemma remove_quota_err n w w' err :
  world_wf w -> on_quota (QC_RemoveConfig n) w = (w', Some err) -> unchanged_world w w'.
Proof.
  intros (Hu & Hq & Hs) H. unfold on_quota in H. destruct w as [u [q|] s]; cbn in *; [|done].
  destruct (QC_RemoveConfig n q) as [q' [e|]] eqn:E; [|done]. injection H as <- <-.
  destruct (QC_remove_err n q q' e Hq E) as [Hq' Hk]. by split.
Qed.

Lemma remove_speed_effect n w w' :
  world_wf w -> on_speed (SC_RemoveConfig n) w = (w', None) ->
  effect w w' (fun f => f) (fun f => f) (upd n None) (fun f => f).
Proof.
  intros (Hu & Hq & Hs) H. unfold on_speed in H. destruct w as [u q [s|]]; cbn in *.
  - destruct (SC_RemoveConfig n s) as [s' [e|]] eqn:E; [done|]. injection H as <-.
    destruct (SC_remove_ok n s s' Hs E) as (Hs' & Hk & Hc). by split.
  - injection H as <-. split; [done|done|done| |done]. intros k. unfold upd. by destruct (decide (k = n)).
Qed.

Lemma remove_speed_err n w w' err :
  world_wf w -> on_speed (SC_RemoveConfig n) w = (w', Some err) -> unchanged_world w w'.
Proof.
  intros (Hu & Hq & Hs) H. unfold on_speed in H. destruct w as [u q [s|]]; cbn in *; [|done].
  destruct (SC_RemoveConfig n s) as [s' [e|]] eqn:E; [|done]. injection H as <- <-.
  destruct (SC_remove_err n s s' e Hs E) as (Hs' & Hk & Hc). by split.
Qed.

Lemma unschedule_effect n w w' :
  world_wf w -> on_speed (SC_RemoveUserSchedules n) w = (w', None) ->
  effect w w' (fun f => f) (fun f => f) (fun f => f) (upd n None).
Proof.
  intros (Hu & Hq & Hs) H. unfold on_speed in H. destruct w as [u q [s|]]; cbn in *.
  - destruct (SC_RemoveUserSchedules n s) as [s' [e|]] eqn:E; [done|]. injection H as <-.
    destruct (SC_unschedule_ok n s s' Hs E) as (Hs' & Hk & Hc). by split.
  - injection H as <-. split; [done|done|done|done|]. intros k. unfold upd. by destruct (decide (k = n)).
Qed.

Lemma unschedule_err n w w' err :
  world_wf w -> on_speed (SC_RemoveUserSchedules n) w = (w', Some err) -> unchanged_world w w'.
Proof.
  intros (Hu & Hq & Hs) H. unfold on_speed in H. destruct w as [u q [s|]]; cbn in *; [|done].
  destruct (SC_RemoveUserSchedules n s) as [s' [e|]] eqn:E; [|done]. injection H as <- <-.
  destruct (SC_unschedule_err n s s' e Hs E) as (Hs' & Hk & Hc). by split.
Qed.

(** *** The calls of a creation *)

Lemma createQuota_effect cr w w' :
  world_wf w -> (isSet (cr_Quota cr) && negb (isSet (w_quota w)) = false) -> createQuota cr w = (w', None) ->
  exists x, (isSet (cr_Quota cr) = true -> is_Some x.1) /\
    effect w w' (fun f => f) (upd_if (isSet (cr_Quota cr)) (ou_Name (cr_User cr)) x) (fun f => f) (fun f => f).
Proof.
  intros (Hu & Hq & Hs) Hset H. unfold createQuota in H. destruct (cr_Quota cr) as [c|]; cbn [isSet] in *.
  - unfold on_quota in H. destruct w as [u [q|] s]; cbn in *; [|done].
    destruct (QC_ApplyConfig _ q) as [q' [e|]] eqn:E; [done|]. injection H as <-.
    destruct (QC_apply_ok _ q q' Hq E) as (Hq' & Hc & Hk). cbn in Hc, Hk.
    exists (quota_view q' (ou_Name (cr_User cr))). split; [intros _; cbn; by apply fmap_is_Some|]. split; [done|done| |done..].
    intros k. cbn. unfold upd. destruct (decide (k = _)) as [->|]; [done|by apply Hk].
  - injection H as <-. exists (None, None). split; [done|]. by split.
Qed.

Lemma createQuota_err cr w w' err :
  world_wf w -> createQuota cr w = (w', Some err) -> unchanged_world w w'.
Proof.
  intros (Hu & Hq & Hs) H. unfold createQuota, on_quota in H. destruct (cr_Quota cr) as [c|]; [|done].
  destruct w as [u [q|] s]; cbn in *; [|done]. destruct (QC_ApplyConfig _ q) as [q' [e|]] eqn:E; [|done].
  injection H as <- <-. destruct (QC_apply_err _ q q' e Hq E) as (Hq' & Hk). by split.
Qed.

(** The speed configuration a request stores. *)
Definition requestedSpeed (cr : createUserRequest) : option SpeedLimiterUser :=
  s ← cr_Speed cr;
  Some (mkSpeedLimiterUser (ou_Name (cr_User cr)) (slu_Group s) (slu_UploadMbps s) (slu_DownloadMbps s) (slu_PerClient s)).

Lemma createSpeed_effect cr w w' :
  world_wf w -> (isSet (cr_Speed cr) && negb (isSet (w_speed w)) = false) -> createSpeed cr w = (w', None) ->
  effect w w' (fun f => f) (fun f => f)
    (upd_if (isSet (cr_Speed cr)) (ou_Name (cr_User cr)) (requestedSpeed cr)) (fun f => f).
Proof.
  intros (Hu & Hq & Hs) Hset H. unfold createSpeed, requestedSpeed in *. destruct (cr_Speed cr) as [c|]; cbn in *.
  - unfold on_speed in H. destruct w as [u q [s|]]; cbn in *; [|done].
    destruct (SC_ApplyConfig _ s) as [s' [e|]] eqn:E; [done|]. injection H as <-.
    destruct (SC_apply_ok _ s s' Hs E) as (Hs' & Hk & Hc). by split.
  - injection H as <-. by split.
Qed.

Lemma createSpeed_err cr w w' err :
  world_wf w -> createSpeed cr w = (w', Some err) -> unchanged_world w w'.
Proof.
  intros (Hu & Hq & Hs) H. unfold createSpeed, on_speed in H. destruct (cr_Speed cr) as [c|]; [|done].
  destruct w as [u q [s|]]; cbn in *; [|done]. destruct (SC_ApplyConfig _ s) as [s' [e|]] eqn:E; [|done].
  injection H as <- <-. destruct (SC_apply_err _ s s' e Hs E) as (Hs' & Hk & Hc). by split.
Qed.

Lemma createSchedules_effect cr w w' :
  world_wf w -> (negb (Nat.eqb (length (cr_SpeedSchedules cr)) 0) && negb (isSet (w_speed w)) = false) ->
  createSchedules cr w = (w', None) ->
  exists x, (cr_SpeedSchedules cr <> [] -> is_Some x) /\
    effect w w' (fun f => f) (fun f => f) (fun f => f)
      (upd_if (negb (Nat.eqb (length (cr_SpeedSchedules cr)) 0)) (ou_Name (cr_User cr)) x).
Proof.
  intros (Hu & Hq & Hs) Hset H. unfold createSchedules in H. destruct (cr_SpeedSchedules cr) as [|c l]; cbn in *.
  - injection H as <-. exists None. split; [done|]. by split.
  - unfold on_speed in H. destruct w as [u q [s|]]; cbn in *; [|done].
    destruct (SC_ReplaceUserSchedules _ _ s) as [s' [e|]] eqn:E; [done|]. injection H as <-.
    destruct (SC_replace_ok _ _ s s' Hs E) as (Hs' & Hk & Hsome & _ & Hc).
    exists (SC_GetUserSchedules (ou_Name (cr_User cr)) s'). split; [intros _; by apply Hsome|]. split; [done..|].
    intros k. cbn. unfold upd. destruct (decide (k = _)) as [->|]; [done|by apply Hc].
Qed.

Lemma createSchedules_err cr w w' err :
  world_wf w -> createSchedules cr w = (w', Some err) -> unchanged_world w w'.
Proof.
  intros (Hu & Hq & Hs) H. unfold createSchedules, on_speed in H. destruct (cr_SpeedSchedules cr) as [|c l]; [done|].
  destruct w as [u q [s|]]; cbn in *; [|done]. destruct (SC_ReplaceUserSchedules _ _ s) as [s' [e|]] eqn:E; [|done].
  injection H as <- <-. destruct (SC_replace_err _ _ s s' e Hs E) as (Hs' & Hk & Hc). by split.
Qed.

(** *** Rolling back and restoring *)

Lemma E_Errors_None `{EL : !ExceptionsLaws EX} es : E_Errors es = None -> es = [].
Proof. destruct es as [|e es]; [done|]. destruct (E_Errors_cons e es) as [e' ->]. done. Qed.

Lemma cause_nil err args : cause err args = [] -> err = None.
Proof. by destruct err. Qed.

(** Each step of a rollback is done or not; without an error all of them are. *)
Lemma rollback_effect `{EL : !ExceptionsLaws EX} n qa sa w w' err :
  world_wf w -> rollbackCreatedUser n qa sa w = (w', err) ->
  exists bu bq bs bc, (err = None -> bu = true /\ bq = qa /\ bs = sa /\ bc = sa) /\
    effect w w' (upd_if bu n None) (upd_if bq n (None, None)) (upd_if bs n None) (upd_if bc n None).
Proof.
  intros Hw H. unfold rollbackCreatedUser in H.
  destruct (if sa then on_speed (SC_RemoveConfig n) w else (w, None)) as [w1 e1] eqn:E1.
  destruct (if sa then on_speed (SC_RemoveUserSchedules n) w1 else (w1, None)) as [w2 e2] eqn:E2.
  destruct (if qa then on_quota (QC_RemoveConfig n) w2 else (w2, None)) as [w3 e3] eqn:E3.
  destruct (on_user (UP_DeleteUser n) w3) as [w4 e4] eqn:E4. injection H as <- H.
  assert (exists b, (e1 = None -> b = sa) /\ effect w w1 (fun f => f) (fun f => f) (upd_if b n None) (fun f => f))
    as (bs & Hbs & [[? [? [? ?]]]]).
  { destruct sa; [|injection E1 as <- <-; exists false; by split]. destruct e1; [exists false; split; [done|]; by eapply remove_speed_err|].
    exists true. split; [done|]. by apply remove_speed_effect. }
  assert (exists b, (e2 = None -> b = sa) /\ effect w1 w2 (fun f => f) (fun f => f) (fun f => f) (upd_if b n None))
    as (bc & Hbc & [[? [? [? ?]]]]).
  { destruct sa; [|injection E2 as <- <-; exists false; by split]. destruct e2; [exists false; split; [done|]; by eapply unschedule_err|].
    exists true. split; [done|]. by apply unschedule_effect. }
  assert (exists b, (e3 = None -> b = qa) /\ effect w2 w3 (fun f => f) (upd_if b n (None, None)) (fun f => f) (fun f => f))
    as (bq & Hbq & [[? [? [? ?]]]]).
  { destruct qa; [|injection E3 as <- <-; exists false; by split]. destruct e3; [exists false; split; [done|]; by eapply remove_quota_err|].
    exists true. split; [done|]. by apply remove_quota_effect. }
  assert (exists b, (e4 = None -> b = true) /\ effect w3 w4 (upd_if b n None) (fun f => f) (fun f => f) (fun f => f))
    as (bu & Hbu & [[? [? [? ?]]]]).
  { destruct e4; [|exists true; split; [done|]; by apply delete_user_effect].
    apply delete_user_err in E4 as [b Hb]; [|done]. by exists b. }
  exists bu, bq, bs, bc. split.
  - intros ->. apply E_Errors_None in H. apply app_eq_nil in H as [?%cause_nil H]. apply app_eq_nil in H as [?%cause_nil H].
    apply app_eq_nil in H as [?%cause_nil ?%cause_nil]. auto.
  - split; [shape|..]; destruct bu, bq, bs, bc; cbn [upd_if] in *; chase.
Qed.

(** The clean-up of a deletion removes everything, or stops with part of it done. *)
Lemma cleanup_effect n w w' err :
  world_wf w -> cleanupDeleteRuntimeState n w = (w', err) ->
  match err with
  | None => effect w w' (fun f => f) (upd n (None, None)) (upd n None) (upd n None)
  | Some _ => exists bs bc, effect w w' (fun f => f) (fun f => f) (upd_if bs n None) (upd_if bc n None)
  end.
Proof.
  intros Hw H. unfold cleanupDeleteRuntimeState in H.
  destruct (on_speed (SC_RemoveUserSchedules n) w) as [w1 [e1|]] eqn:E1.
  { injection H as <- <-. exists false, false. by eapply unschedule_err. }
  apply unschedule_effect in E1 as [[? [? [? ?]]]]; [|done].
  destruct (on_speed (SC_RemoveConfig n) w1) as [w2 [e2|]] eqn:E2.
  { injection H as <- <-. exists false, true. apply remove_speed_err in E2 as [[? [? [? ?]]]]; [|done].
    split; [shape|..]; cbn [upd_if]; chase. }
  apply remove_speed_effect in E2 as [[? [? [? ?]]]]; [|done].
  destruct err as [err|].
  - exists true, true. apply remove_quota_err in H as [[? [? [? ?]]]]; [|done]. split; [shape|..]; cbn [upd_if]; chase.
  - apply remove_quota_effect in H as [[? [? [? ?]]]]; [|done]. split; [shape|..]; chase.
Qed.

Lemma snapshot_user n w0 user : world_wf w0 -> ds_user (snapshotDeleteRuntimeState n w0) = Some user ->
  exists a, users_of w0 n = Some a /\ user = adapterUserToOption a /\ au_Name a = n.
Proof.
  intros Hw0 Hds. unfold snapshotDeleteRuntimeState in Hds. cbn in Hds. unfold users_of.
  destruct Hw0 as (Hu & _). destruct (w_user w0) as [u|]; [|done]. cbn in *. destruct (UP_GetUser n u) as [a|] eqn:Ha; [|done].
  exists a. injection Hds as <-. split_and!; [done|done|]. by eapply UP_named.
Qed.

(** What the snapshot holds comes back, whatever the clean-up had removed. *)
Lemma restore_user_effect n w0 user w w' :
  world_wf w0 -> ds_user (snapshotDeleteRuntimeState n w0) = Some user ->
  world_wf w -> isSet (w_user w) = isSet (w_user w0) -> on_user (UP_CreateUser user) w = (w', None) ->
  ou_Name user = n /\ effect w w' (upd n (users_of w0 n)) (fun f => f) (fun f => f) (fun f => f).
Proof.
  intros Hw0 Hds Hw Hset H. destruct (snapshot_user n w0 user Hw0 Hds) as (a & Ha & -> & Hn).
  apply create_user_effect in H as [_ H]; [|done|].
  - split; [done|]. cbn [ou_Name adapterUserToOption] in H. rewrite Hn in H. rewrite Ha. by destruct a.
  - rewrite Hset. unfold users_of in Ha. by destruct (w_user w0).
Qed.

Lemma restore_quota_effect n w0 st w w' :
  world_wf w0 -> ds_quota (snapshotDeleteRuntimeState n w0) = Some st -> qc_restorable st ->
  world_wf w -> isSet (w_quota w) = isSet (w_quota w0) -> on_quota (QC_RestoreState st) w = (w', None) ->
  effect w w' (fun f => f) (upd n (quota_of w0 n)) (fun f => f) (fun f => f).
Proof.
  intros (_ & Hq0 & _) Hds Hre (Hu & Hq & Hs) Hset H. cbn in Hds. unfold quota_of at 1.
  destruct (w_quota w0) as [q0|]; cbn in *; [|done]. unfold on_quota in H.
  destruct w as [u [q|] s]; cbn in *; [|done]. destruct (QC_RestoreState st q) as [q' [e|]] eqn:E; [done|].
  injection H as <-. destruct (QC_restore_ok n q0 st q q' Hq0 Hds Hre Hq E) as [Hq' Hk]. by split.
Qed.

(** A restoration that fails leaves the quotas of other users alone. *)
Lemma restore_quota_err n w0 st w w' err :
  world_wf w0 -> ds_quota (snapshotDeleteRuntimeState n w0) = Some st -> qc_restorable st ->
  world_wf w -> on_quota (QC_RestoreState st) w = (w', Some err) -> only_name n w w'.
Proof.
  intros (_ & Hq0 & _) Hds Hre (Hu & Hq & Hs) H. cbn in Hds.
  destruct (w_quota w0) as [q0|]; cbn in *; [|done]. unfold on_quota in H.
  destruct w as [u [q|] s]; cbn in *; [|done]. destruct (QC_RestoreState st q) as [q' [e|]] eqn:E; [|done].
  injection H as <- <-. destruct (QC_restore_err n q0 st q q' e Hq0 Hds Hre Hq E) as [Hq' Hk].
  split; [by split|]. intros k Hne. split_and!; [done|by apply Hk|done|done].
Qed.

Lemma restore_speed_effect n w0 c w w' :
  world_wf w0 -> speed_of w0 n = Some c -> slu_Name c = n ->
  world_wf w -> isSet (w_speed w) = isSet (w_speed w0) -> on_speed (SC_ApplyConfig c) w = (w', None) ->
  effect w w' (fun f => f) (fun f => f) (upd n (speed_of w0 n)) (fun f => f).
Proof.
  intros _ Hc Hn (Hu & Hq & Hs) Hset H. rewrite Hc. unfold on_speed in H.
  assert (isSet (w_speed w) = true) as Hset' by (rewrite Hset; unfold speed_of in Hc; by destruct (w_speed w0)).
  destruct w as [u q [s|]]; cbn in *; [|done]. destruct (SC_ApplyConfig c s) as [s' [e|]] eqn:E; [done|].
  injection H as <-. destruct (SC_apply_ok c s s' Hs E) as (Hs' & Hk & Hsc). rewrite Hn in Hk. by split.
Qed.

Lemma restore_schedules_effect n w0 l w w' :
  world_wf w0 -> schedules_of w0 n = Some l ->
  world_wf w -> isSet (w_speed w) = isSet (w_speed w0) -> on_speed (SC_ReplaceUserSchedules n l) w = (w', None) ->
  effect w w' (fun f => f) (fun f => f) (fun f => f) (upd n (schedules_of w0 n)).
Proof.
  intros (_ & _ & Hs0) Hl (Hu & Hq & Hs) Hset H. rewrite Hl. unfold on_speed in H. unfold schedules_of in Hl.
  destruct (w_speed w0) as [s0|]; cbn in *; [|done].
  destruct w as [u q [s|]]; cbn in *; [|done]. destruct (SC_ReplaceUserSchedules n l s) as [s' [e|]] eqn:E; [done|].
  injection H as <-. destruct (SC_replace_ok n l s s' Hs E) as (Hs' & Hk & _ & Hre & Hsc).
  split; [done..|]. intros k. unfold upd, schedules_of. cbn.
  destruct (decide (k = n)) as [->|]; [by apply (Hre s0)|by apply Hsc].
Qed.

Lemma apply_speed_err c w w' err :
  world_wf w -> on_speed (SC_ApplyConfig c) w = (w', Some err) -> unchanged_world w w'.
Proof.
  intros (Hu & Hq & Hs) H. unfold on_speed in H. destruct w as [u q [s|]]; cbn in *; [|done].
  destruct (SC_ApplyConfig c s) as [s' [e|]] eqn:E; [|done]. injection H as <- <-.
  destruct (SC_apply_err c s s' e Hs E) as (Hs' & Hk & Hc). by split.
Qed.

Lemma replace_schedules_err n l w w' err :
  world_wf w -> on_speed (SC_ReplaceUserSchedules n l) w = (w', Some err) -> unchanged_world w w'.
Proof.
  intros (Hu & Hq & Hs) H. unfold on_speed in H. destruct w as [u q [s|]]; cbn in *; [|done].
  destruct (SC_ReplaceUserSchedules n l s) as [s' [e|]] eqn:E; [|done]. injection H as <- <-.
  destruct (SC_replace_err n l s s' e Hs E) as (Hs' & Hk & Hc). by split.
Qed.

Lemma unchanged_only n w w' : unchanged_world w w' -> only_name n w w'.
Proof. intros H. by eapply effect_only. Qed.

(** A step of the restoration that may have nothing to restore. *)
Lemma skip_effect w : world_wf w -> unchanged_world w w.
Proof. apply unchanged_refl. Qed.

(** What the snapshot holds comes back, whatever the clean-up had removed. *)
Lemma restore_effect `{EL : !ExceptionsLaws EX} n w0 user w w' bq bs bc :
  world_wf w0 -> ds_user (snapshotDeleteRuntimeState n w0) = Some user ->
  opt_all qc_restorable (ds_quota (snapshotDeleteRuntimeState n w0)) ->
  effect w0 w (upd n None) (upd_if bq n (None, None)) (upd_if bs n None) (upd_if bc n None) ->
  restoreDeleteRuntimeState (snapshotDeleteRuntimeState n w0) w = (w', None) ->
  unchanged_world w0 w'.
Proof.
  intros Hw0 Hds Hre [[Hw [Su [Sq Ss]]] He1 He2 He3 He4] H. unfold restoreDeleteRuntimeState in H. rewrite Hds in H.
  destruct (on_user (UP_CreateUser user) w) as [w1 e1] eqn:E1.
  destruct (match ds_quota _ with Some _ => _ | None => _ end) as [w2 e2] eqn:E2.
  destruct (match ds_speed _ with Some _ => _ | None => _ end) as [w3 e3] eqn:E3.
  destruct (match ds_schedules _ with Some _ => _ | None => _ end) as [w4 e4] eqn:E4. injection H as <- H.
  apply E_Errors_None in H. apply app_eq_nil in H as [->%cause_nil H]. apply app_eq_nil in H as [->%cause_nil H].
  apply app_eq_nil in H as [->%cause_nil ->%cause_nil].
  destruct (restore_user_effect n w0 user w w1 Hw0 Hds Hw Su E1) as [Hn [[? [? [? ?]]]]].
  assert (exists b, effect w1 w2 (fun f => f) (upd_if b n (quota_of w0 n)) (fun f => f) (fun f => f) /\
    (b = false -> quota_of w0 n = (None, None))) as (b2 & [[? [? [? ?]]]] & Hb2).
  { destruct (ds_quota _) as [st|] eqn:Eq.
    - exists true. split; [|done]. eapply restore_quota_effect; [done|exact Eq|done|done|congruence|done].
    - injection E2 as <-. exists false. split; [by apply skip_effect|]. intros _. cbn in Eq. unfold quota_of.
      destruct Hw0 as (_ & Hq0 & _). destruct (w_quota w0) as [q0|]; [|done]. by apply QC_snapshot_none. }
  assert (effect w2 w3 (fun f => f) (fun f => f) (upd_if (isSet (speed_of w0 n)) n (speed_of w0 n)) (fun f => f))
    as [[? [? [? ?]]]].
  { change (ds_speed (snapshotDeleteRuntimeState n w0)) with (speed_of w0 n) in E3.
    destruct (speed_of w0 n) as [c|] eqn:Ec; [|injection E3 as <-; by apply skip_effect]. cbn [isSet upd_if].
    rewrite <-Ec. eapply restore_speed_effect; [done|exact Ec| |done|congruence|done].
    unfold speed_of in Ec. destruct Hw0 as (_ & _ & Hs0). destruct (w_speed w0) as [s0|]; [|done].
    by eapply SC_named. }
  assert (effect w3 w4 (fun f => f) (fun f => f) (fun f => f)
    (upd_if (isSet (schedules_of w0 n)) n (schedules_of w0 n))) as [[? [? [? ?]]]].
  { change (ds_schedules (snapshotDeleteRuntimeState n w0)) with (schedules_of w0 n) in E4. rewrite Hn in E4.
    destruct (schedules_of w0 n) as [l|] eqn:El; [|injection E4 as <-; by apply skip_effect]. cbn [isSet upd_if].
    rewrite <-El. eapply restore_schedules_effect; [done|exact El|done|congruence|done]. }
  split; [shape|..].
  - chase.
  - destruct b2, bq; cbn [upd_if] in *; chase. all: by rewrite Hb2.
  - destruct (speed_of w0 n) eqn:Ec, bs; cbn [upd_if isSet] in *; chase.
  - destruct (schedules_of w0 n) eqn:Ec, bc; cbn [upd_if isSet] in *; chase.
Qed.

(** Whatever fails, a restoration touches nothing but what the name has. *)
Lemma restore_only n w0 user w w' err :
  world_wf w0 -> ds_user (snapshotDeleteRuntimeState n w0) = Some user ->
  opt_all qc_restorable (ds_quota (snapshotDeleteRuntimeState n w0)) ->
  world_wf w -> same_shape w0 w -> restoreDeleteRuntimeState (snapshotDeleteRuntimeState n w0) w = (w', err) ->
  only_name n w w'.
Proof.
  intros Hw0 Hds Hre Hw (Su & Sq & Ss) H. unfold restoreDeleteRuntimeState in H. rewrite Hds in H.
  destruct (on_user (UP_CreateUser user) w) as [w1 e1] eqn:E1.
  destruct (match ds_quota _ with Some _ => _ | None => _ end) as [w2 e2] eqn:E2.
  destruct (match ds_speed _ with Some _ => _ | None => _ end) as [w3 e3] eqn:E3.
  destruct (match ds_schedules _ with Some _ => _ | None => _ end) as [w4 e4] eqn:E4. injection H as <- _.
  pose proof (snapshot_user n w0 user Hw0 Hds) as (a & Ha & -> & Hn).
  assert (Hnm : ou_Name (adapterUserToOption a) = n) by done.
  assert (O1 : only_name n w w1).
  { destruct e1 as [e|].
    - apply create_user_err in E1 as (b & _ & E1); [|done]. rewrite Hnm in E1.
      eapply effect_only; [exact E1|..]; intros; done || by apply upd_if_other.
    - destruct (restore_user_effect n w0 _ w w1 Hw0 Hds Hw Su E1) as [_ E]. eapply effect_only; [exact E|..]; intros; done || by apply upd_other. }
  pose proof O1 as [[W1 (U1 & Q1 & S1)] _].
  assert (O2 : only_name n w1 w2).
  { destruct (ds_quota _) as [st|] eqn:Eq; [|injection E2 as <- <-; by apply unchanged_only, unchanged_refl].
    destruct e2 as [e|]; [by apply (restore_quota_err n w0 st w1 w2 e)|].
    eapply effect_only; [eapply restore_quota_effect; [exact Hw0|exact Eq|done|done|congruence|done]|..]; intros; done || by apply upd_other. }
  pose proof O2 as [[W2 (U2 & Q2 & S2)] _].
  assert (O3 : only_name n w2 w3).
  { change (ds_speed (snapshotDeleteRuntimeState n w0)) with (speed_of w0 n) in E3.
    destruct (speed_of w0 n) as [c|] eqn:Ec; [|injection E3 as <- <-; by apply unchanged_only, unchanged_refl].
    destruct e3 as [e|]; [by eapply unchanged_only, apply_speed_err|].
    eapply effect_only; [eapply (restore_speed_effect n w0 c); [done|done| |done|congruence|done]|..]; [|intros; done || by apply upd_other..].
    unfold speed_of in Ec. destruct Hw0 as (_ & _ & Hs0). destruct (w_speed w0) as [s0|]; [|done]. by eapply SC_named. }
  pose proof O3 as [[W3 (U3 & Q3 & S3)] _].
  eapply only_name_trans; [exact O1|]. eapply only_name_trans; [exact O2|]. eapply only_name_trans; [exact O3|].
  change (ds_schedules (snapshotDeleteRuntimeState n w0)) with (schedules_of w0 n) in E4. cbv beta iota in E4. rewrite Hnm in E4.
  destruct (schedules_of w0 n) as [l|] eqn:El; [|injection E4 as <- <-; by apply unchanged_only, unchanged_refl].
  destruct e4 as [e|]; [by eapply unchanged_only, replace_schedules_err|].
  eapply effect_only; [eapply (restore_schedules_effect n w0 l); [done|done|done|congruence|done]|..]; intros; done || by apply upd_other.
Qed.

End Effects.
