(* ===== verification/AdminProps.v ===== *)
(** * Correctness of the admin API

    Authentication: what a login token is worth, what an accepted request
    proved, and that nothing happens for a request that proved nothing.
    Lifecycle: a creation and a deletion take effect on all controllers or,
    when a later step fails and the compensation succeeds, on none. *)

From S2P Require Import Prelude GoStrings GoTime GoCrypto QuotaConfig ConnList QuotaManager SpeedConfig UserProvider AdminAuth AdminAPI AdminLaws.

Local Open Scope string_scope.
Local Open Scope list_scope.
Local Open Scope Z_scope.

(** ** Header text *)

(** Printing ASCII characters, which [trim_space] leaves alone. *)
Definition visible_char (c : ascii) : bool := (33 <=? ascii_Z c) && (ascii_Z c <=? 126).
Fixpoint visible (s : string) : bool :=
  match s with EmptyString => true | String c s' => visible_char c && visible s' end.

Lemma visible_app a b : visible (a +:+ b) = visible a && visible b.
Proof. induction a as [|c a IH]; [done|]. rewrite str_app_cons. cbn. by rewrite IH, andb_assoc. Qed.

Lemma visible_rev_app s acc : visible (str_rev_app s acc) = visible s && visible acc.
Proof.
  revert acc. induction s as [|c s IH]; intros acc; [done|]. cbn. rewrite IH. cbn.
  by destruct (visible s), (visible_char c), (visible acc).
Qed.

Lemma str_rev_app_app s acc acc' : str_rev_app s (acc +:+ acc') = str_rev_app s acc +:+ acc'.
Proof.
  revert acc. induction s as [|c s IH]; intros acc; [done|]. cbn. rewrite <-str_app_cons. apply IH.
Qed.

Lemma str_rev_involutive s : str_rev (str_rev s) = s.
Proof.
  unfold str_rev. assert (forall s acc, str_rev_app (str_rev_app s acc) "" = str_rev_app acc "" +:+ s) as H.
  { clear. induction s as [|c s IH]; intros acc; cbn; [by rewrite str_app_nil_r|]. rewrite IH. cbn.
    change (String c "") with ("" +:+ String c ""). rewrite str_rev_app_app, str_app_assoc. done. }
  by rewrite H.
Qed.

(** No white space starts with a printing character, in either direction. *)
Lemma strip_visible ps fuel s :
  forallb (fun p => match p with EmptyString => false | String c _ => negb (visible_char c) end) ps = true ->
  visible s = true -> strip ps fuel s = s.
Proof.
  intros Hps Hs. destruct fuel as [|fuel]; [done|]. cbn. unfold strip_one.
  assert (filter (fun p => String.prefix p s = true) ps = []) as ->; [|done].
  induction ps as [|p ps IH]; [done|]. cbn [forallb] in Hps. apply andb_true_iff in Hps as [Hp Hps].
  rewrite filter_cons_False; [by apply IH|]. destruct p as [|c p]; [discriminate Hp|]. intros Hx. destruct s as [|d s]; [discriminate Hx|]. cbn in Hx.
  destruct (Ascii.ascii_dec c d) as [->|]; [|discriminate Hx]. cbn in Hs. apply andb_true_iff in Hs as [Hs _].
  by rewrite Hs in Hp.
Qed.

Lemma trim_space_visible s : visible s = true -> trim_space s = s.
Proof.
  intros H. unfold trim_space. cbv zeta.
  rewrite (strip_visible spaces _ s); [|vm_compute; reflexivity|done].
  rewrite strip_visible; [apply str_rev_involutive|vm_compute; reflexivity|].
  unfold str_rev. by rewrite visible_rev_app, H.
Qed.

Lemma RawURLEncode_visible s : visible (RawURLEncode s) = true.
Proof.
  unfold RawURLEncode.
  assert (forall l, byte_list l -> Forall (fun c => 33 <= c <= 126) (b64_encode URLAlphabet l)) as H.
  { assert (forall d, 0 <= d < 64 -> 33 <= b64_char URLAlphabet d <= 126) as Hc.
    { intros d Hd. unfold b64_char. repeat case_goal; zbool; lia. }
    induction l as [|a|a b|a b c l IH] using list_ind3; intros Hl; cbn [b64_encode].
    - constructor.
    - inversion_clear Hl. repeat constructor; apply Hc; euclid.
    - inversion_clear Hl as [|? ? ? H']. inversion_clear H'. repeat constructor; apply Hc; euclid.
    - inversion_clear Hl as [|? ? ? H']. inversion_clear H' as [|? ? ? H'']. inversion_clear H''.
      repeat (constructor; [apply Hc; euclid|]). by apply IH. }
  specialize (H _ (to_bytes_range s)). induction H as [|c l Hc _ IH]; [done|].
  change (bytes (c :: l)) with (String (Z_ascii c) (bytes l)). cbn [visible]. rewrite IH, andb_true_r.
  unfold visible_char. rewrite ascii_Z_ascii by lia. apply andb_true_iff. split; apply Z.leb_le; lia.
Qed.

Lemma extractBearerToken_visible token : visible token = true -> extractBearerToken ("Bearer " +:+ token) = token.
Proof.
  intros H. unfold extractBearerToken. rewrite str_length_app. change (String.length "Bearer ") with 7%nat.
  destruct (Nat.ltb_spec (7 + String.length token) 7); [lia|].
  change (str_take 7 ("Bearer " +:+ token)) with "Bearer ".
  change (equalFold "Bearer " "Bearer ") with true. cbn [negb].
  change (str_drop 7 ("Bearer " +:+ token)) with token. by apply trim_space_visible.
Qed.

Section AuthProps.
Context {J : AuthJSON}.

(** An issued token is printable text, so it survives the header. *)
Lemma issued_token_visible a now username token expiresAt :
  issueLoginTokenWithExpiry a now username = Ok (token, expiresAt) -> visible token = true /\ token <> "".
Proof.
  unfold issueLoginTokenWithExpiry. destruct (decide _); [done|]. destruct (_ <=? 0); [done|].
  destruct (MarshalClaims _) as [p|]; [|done]. intros [= <- <-].
  rewrite !visible_app, !RawURLEncode_visible. split; [done|].
  destruct (RawURLEncode p); [done|]. by rewrite str_app_cons.
Qed.

(** C33: a successful login hands out a token only for the configured password of
    an administrator; sent back as a bearer token it authenticates exactly that administrator
    in every second before the announced expiry, and is refused as expired from then on. *)
Theorem login_token_lifecycle `{JL : !AuthJSONLaws J} a now request login token expires :
  DecodeLogin (rq_Body request) = Some login ->
  LoginHandler a now request = (200, Some (token, expires)) ->
  lr_Username login <> "" -> ascii_only (lr_Username login) = true ->
  int64_range (Unix (now + a_tokenTTL a)) -> token ∉ a_staticTokens a ->
  a_admins a !! lr_Username login = Some (lr_Password login) /\
  expires = format_rfc3339 (now + a_tokenTTL a) /\
  forall now' request', rq_Authorization request' = "Bearer " +:+ token ->
    validateAuthorization a now' request' =
      if Unix now' <? Unix (now + a_tokenTTL a) then Ok (mkAuthSubject (lr_Username login) false)
      else Err errTokenExpired.
Proof.
  intros Hd Hl Hu Ha Hr Hs. unfold LoginHandler in Hl. rewrite Hd in Hl.
  destruct (negb _); [done|]. destruct (a_admins a !! lr_Username login) as [pw|]; [|done].
  destruct (decide (pw <> lr_Password login)) as [|Hpw]; [done|]. apply dec_stable in Hpw.
  destruct (issueLoginTokenWithExpiry a now (lr_Username login)) as [[t e]|err] eqn:E; [|by destruct (decide _)].
  injection Hl as <- <-. destruct (issued_token_visible _ _ _ _ _ E) as [Hv Hne].
  destruct (issued_token_validates a now (lr_Username login) t e 0 E Hu Ha Hr Hs) as [-> _].
  split_and!; [by rewrite Hpw|done|]. intros now' request' Hreq. unfold validateAuthorization.
  rewrite Hreq, extractBearerToken_visible by done. rewrite decide_True by done.
  by destruct (issued_token_validates a now (lr_Username login) t _ now' E Hu Ha Hr Hs) as [_ ->].
Qed.

(** C9: a request is accepted only with a configured static token, with the user
    name and password of an administrator, or with a token whose signature is the HMAC of its
    payload under the configured secret and whose claims name a user and have not expired. *)
Theorem authorization_sound options a now request subject :
  NewAuthenticator options = Ok a ->
  validateAuthorization a now request = Ok subject ->
  (exists token, token ∈ ao_Tokens options /\ token <> "" /\
     extractBearerToken (rq_Authorization request) = token /\ subject = mkAuthSubject "" true) \/
  (exists username password, (username, password) ∈ ao_Admins options /\
     BasicAuth (rq_Authorization request) = Some (username, password) /\ subject = mkAuthSubject username false) \/
  (ao_TokenSecret options <> "" /\ exists pe se payload claims,
     extractBearerToken (rq_Authorization request) = pe +:+ "." +:+ se /\
     RawURLDecode se = Some (hmac_sha256 (ao_TokenSecret options) pe) /\
     RawURLDecode pe = Some payload /\ UnmarshalClaims payload = Some claims /\
     subject = mkAuthSubject (ltc_Username claims) false /\
     ltc_Username claims <> "" /\ Unix now < ltc_Expires claims).
Proof.
  intros Ha. unfold validateAuthorization.
  destruct (decide (extractBearerToken (rq_Authorization request) <> "")) as [Hne|_].
  - intros H. apply accepted_token_inv in H as [[Hin ->]|H].
    + left. eexists. split_and!; [|exact Hne|done|done]. by apply (NewAuthenticator_tokens options a _ Ha) in Hin as [_ ?].
    + right. right. by destruct (NewAuthenticator_secret options a Ha) as [<- _].
  - destruct (BasicAuth _) as [[u p]|]; [|done]. unfold validateBasicCredentials.
    destruct (a_admins a !! u) as [pw|] eqn:E; [|done]. destruct (String.eqb_spec pw p) as [->|]; [|done].
    cbn. intros [= <-]. right. left. exists u, p. split_and!; [|done|done]. by eapply NewAuthenticator_admins.
Qed.

End AuthProps.

Section ServeProps.
Context `{AE : AdminEnv}.
Context {J : AuthJSON}.
Context {U Q S : Type} `{UPI : !UserProviderI U} `{QCI : !QuotaControllerI Q} `{SCI : !SpeedControllerI S}.

(** The routes but the first are behind the authentication. *)
Lemma routes_guarded (a : Authenticator) now i (r : Route (U := U) (Q := Q) (S := S)) user request w err :
  validateAuthorization a now request = Err err -> routes a now !! i = Some r ->
  r = mkRoute None loginPattern (fun _ => postOnly (loginRoute a now)) \/
  exists z, rt_Handler r user request w = (w, status z).
Proof.
  intros Herr H. destruct i as [|i]; [left; cbn in H; by injection H as <-|right].
  assert (forall h : Handler, Middleware a now h request w = (w, status 401)) as Hauth.
  { intros h. unfold Middleware. by rewrite Herr. }
  assert (forall h : Handler, exists z, authenticatedPost a now h request w = (w, status z)) as Hpost.
  { intros h. unfold authenticatedPost, postOnly. destruct (negb _); eauto. }
  do 14 (destruct i as [|i]; [injection H as <-; cbn [rt_Handler]; eauto|]). done.
Qed.

(** C30: a request that is not authenticated changes nothing, whatever the route
    and the body; the only answer with content it can get is the token of a login with the
    right password. *)
Theorem unauthenticated_requests_do_nothing chi a now basePath request (w : World U Q S) :
  (forall subject, validateAuthorization a now request <> Ok subject) ->
  let '(w', r) := ServeHTTP chi a now basePath request w in
  w' = w /\
  match resp_Body r with
  | None => True
  | Some (BodyLogin token expiresAt) =>
      exists login, DecodeLogin (limitBody adminAPIMaxRequestBytes (rq_Body request)) = Some login /\
        a_admins a !! lr_Username login = Some (lr_Password login) /\ rq_Method request = "POST"
  | Some _ => False
  end.
Proof.
  intros Hno. unfold ServeHTTP, bodyLimitMiddleware.
  set (request' := mkRequest _ _ _ _).
  assert (exists err, validateAuthorization a now request' = Err err) as [err Herr].
  { change (validateAuthorization a now request') with (validateAuthorization a now request).
    destruct (validateAuthorization a now request) as [sub|e]; [by destruct (Hno sub)|by exists e]. }
  destruct (chi _ _ _) as [i user|code]; [|done].
  destruct (routes a now !! i) as [r|] eqn:Ei; [|done].
  destruct (routes_guarded a now i r user request' w err Herr Ei) as [->|[z ->]]; [|done].
  cbn [rt_Handler]. unfold postOnly, loginRoute, LoginHandler.
  change (rq_Method request') with (rq_Method request).
  destruct (String.eqb_spec (rq_Method request) "POST") as [Hp|]; [|done]. cbn [negb].
  destruct (DecodeLogin (rq_Body request')) as [login|] eqn:El; [|done].
  destruct (a_admins a !! lr_Username login) as [pw|] eqn:Ea; [|done].
  destruct (decide (pw <> lr_Password login)) as [|Hpw]; [done|]. apply dec_stable in Hpw.
  destruct (issueLoginTokenWithExpiry a now (lr_Username login)) as [[t x]|e]; [|by destruct (decide _)].
  split; [done|]. cbn. exists login. rewrite Ea, Hpw. auto.
Qed.

End ServeProps.

Section Lifecycle.
Context `{AE : AdminEnv}.
Context {U Q S : Type} `{UPI : !UserProviderI U} `{QCI : !QuotaControllerI Q} `{SCI : !SpeedControllerI S}.
Context `{UPL : !UserProviderLaws U} `{QCL : !QuotaControllerLaws Q} `{SCL : !SpeedControllerLaws S}.
Context `{EL : !ExceptionsLaws EX}.

(** The world after a request to create a user was carried out. *)
Definition created (cr : createUserRequest) (w w' : World U Q S) : Prop :=
  let name := ou_Name (cr_User cr) in
  users_of w name = None /\
  exists xq xc,
    (isSet (cr_Quota cr) = true -> is_Some xq.1) /\ (cr_SpeedSchedules cr <> [] -> is_Some xc) /\
    effect w w' (upd name (Some (optionUserToAdapter (cr_User cr)))) (upd_if (isSet (cr_Quota cr)) name xq)
      (upd_if (isSet (cr_Speed cr)) name (requestedSpeed cr))
      (upd_if (negb (Nat.eqb (length (cr_SpeedSchedules cr)) 0)) name xc).

(** Nothing is configured under a name. *)
Definition unlimited (n : string) (w : World U Q S) : Prop :=
  quota_of w n = (None, None) /\ speed_of w n = None /\ schedules_of w n = None.

(** The end of a creation that a controller refused with [err], after the user was created.
    The rollback started from [w1], the world with the user and, as [qa] and [sa] say, the
    quota and the speed of the request.  A rollback without error leaves no user under the
    name, and no quota, speed or schedules where one of the request had been applied, which is
    the world from before when nothing was configured under the name; a rollback that fails
    somewhere leaves everything under other names alone. *)
Definition rolled_back (cr : createUserRequest) (w w' : World U Q S) (r : Response) : Prop :=
  let name := ou_Name (cr_User cr) in
  exists qa sa err w1 xq rollbackErr,
    users_of w name = None /\
    (qa = true -> isSet (cr_Quota cr) = true) /\ (sa = true -> isSet (cr_Speed cr) = true) /\
    effect w w1 (upd name (Some (optionUserToAdapter (cr_User cr)))) (upd_if qa name xq)
      (upd_if sa name (requestedSpeed cr)) (fun f => f) /\
    rollbackCreatedUser name qa sa w1 = (w', rollbackErr) /\
    r = writeRuntimeControlError
          match rollbackErr with
          | Some e => E_Errors [err; E_Cause e ["rollback create user lifecycle"]]
          | None => Some err
          end /\
    match rollbackErr with
    | None =>
        effect w w' (fun f => f) (upd_if qa name (None, None)) (upd_if sa name None) (upd_if sa name None) /\
        (unlimited name w -> unchanged_world w w')
    | Some _ => only_name name w w'
    end.

Lemma rollback_ends cr qa sa err (w w1 w' : World U Q S) r xq :
  let name := ou_Name (cr_User cr) in
  world_wf w -> users_of w name = None ->
  (qa = true -> isSet (cr_Quota cr) = true) -> (sa = true -> isSet (cr_Speed cr) = true) ->
  effect w w1 (upd name (Some (optionUserToAdapter (cr_User cr)))) (upd_if qa name xq)
    (upd_if sa name (requestedSpeed cr)) (fun f => f) ->
  handleCreateRollbackError name qa sa err w1 = (w', r) -> rolled_back cr w w' r.
Proof.
  intros name Hw Hn Hqa Hsa He Hh. unfold handleCreateRollbackError in Hh.
  destruct (rollbackCreatedUser name qa sa w1) as [w2 re] eqn:E. injection Hh as <- <-.
  exists qa, sa, err, w1, xq, re. split_and!; [done..|].
  pose proof He as [[? [? [? ?]]]]. apply rollback_effect in E as (bu & bq & bs & bc & Hb & E); [|done].
  destruct re as [re|].
  - eapply only_name_trans; (eapply effect_only; [eassumption|..]); intros; first [done|by apply upd_other|by apply upd_if_other].
  - destruct (Hb eq_refl) as (-> & -> & -> & ->). pose proof E as [[? [? [? ?]]]].
    split; [split; [shape|..]; destruct qa, sa; cbn [upd_if] in *; chase|]. intros (Hq & Hs & Hc).
    split; [shape|..]; destruct qa, sa; cbn [upd_if] in *; chase.
Qed.

(** C10: a request to create a user ends in one of four ways.  It takes effect on every
    controller it names and is answered with 204; or it is refused, with 400 or 503, before
    anything is touched; or the user provider reports an error, and nothing changed but that
    the user may be there (its list was refused by an inbound); or a controller refuses its
    part and the request is rolled back.  A rollback that reports no error leaves no user
    under the name and removes the quota, and the speed with the schedules, that the request
    had applied: nothing is changed when the name had none before, and a configuration the
    name had before is lost; a rollback that reports an error has changed nothing but what
    the name has. *)
Theorem create_user_all_or_nothing request cr (w w' : World U Q S) r :
  world_wf w -> decodeCreateUserRequest request = Some cr ->
  CreateUserHandler request w = (w', r) ->
  let name := ou_Name (cr_User cr) in
  (r = status 204 /\ created cr w w') \/
  (w' = w /\ (r = status 400 \/ r = status 503)) \/
  (exists err kept, on_user (UP_CreateUser (cr_User cr)) w = (w', Some err) /\ r = writeUserProviderError (Some err) /\
     (kept = true -> users_of w name = None) /\
     effect w w' (upd_if kept name (Some (optionUserToAdapter (cr_User cr)))) (fun f => f) (fun f => f) (fun f => f)) \/
  rolled_back cr w w' r.
Proof.
  intros Hw Hd. unfold CreateUserHandler. rewrite Hd.
  destruct (isSet (w_user w)) eqn:Hset; cbn [negb]; [|intros [= <- <-]; auto].
  destruct (decide _); [intros [= <- <-]; auto|].
  destruct (isSet (cr_Quota cr) && negb (isSet (w_quota w))) eqn:Hq; [intros [= <- <-]; auto|].
  destruct ((isSet (cr_Speed cr) || _) && negb (isSet (w_speed w))) eqn:Hs; [intros [= <- <-]; auto|].
  destruct (on_user (UP_CreateUser (cr_User cr)) w) as [w1 [err|]] eqn:E1.
  { intros [= <- <-]. right. right. left. destruct (create_user_err _ _ _ _ Hw E1) as (kept & Hk & He). by exists err, kept. }
  apply create_user_effect in E1 as [Hn [[? [Su [Sq Ss]]]]]; [|done|done].
  destruct (createQuota cr w1) as [w2 [err|]] eqn:E2.
  { intros H'. right. right. right. apply createQuota_err in E2 as [[? [? [? ?]]]]; [|done].
    apply (rollback_ends cr false false err w w2 w' r (None, None)); try done.
    split; [shape|..]; cbn [upd_if]; chase. }
  apply createQuota_effect in E2 as (xq & Hxq & [[? [? [? ?]]]]); [|done|by rewrite Sq].
  destruct (createSpeed cr w2) as [w3 [err|]] eqn:E3.
  { intros H'. right. right. right. apply createSpeed_err in E3 as [[? [? [? ?]]]]; [|done].
    apply (rollback_ends cr (isSet (cr_Quota cr)) false err w w3 w' r xq); try done.
    split; [shape|..]; destruct (isSet (cr_Quota cr)); cbn [upd_if] in *; chase. }
  assert (isSet (w_speed w2) = isSet (w_speed w)) as Ss2 by congruence.
  apply createSpeed_effect in E3 as [[? [? [? Ss3]]]]; [|done|].
  2:{ rewrite Ss2. destruct (isSet (cr_Speed cr)); [|done]. cbn in *. exact Hs. }
  destruct (createSchedules cr w3) as [w4 [err|]] eqn:E4.
  { intros H'. right. right. right. apply createSchedules_err in E4 as [[? [? [? ?]]]]; [|done].
    apply (rollback_ends cr (isSet (cr_Quota cr)) (isSet (cr_Speed cr)) err w w4 w' r xq); try done.
    split; [shape|..]; destruct (isSet (cr_Quota cr)), (isSet (cr_Speed cr)); cbn [upd_if] in *; chase. }
  apply createSchedules_effect in E4 as (xc & Hxc & [[? [? [? ?]]]]); [|done|].
  2:{ rewrite Ss3, Ss2. destruct (negb (Nat.eqb _ _)); [|done]. cbn. rewrite orb_true_r in Hs. exact Hs. }
  intros [= <- <-]. left. split; [done|]. split; [done|]. exists xq, xc. split_and!; [done|done|].
  split; [shape|..];
    destruct (isSet (cr_Quota cr)), (isSet (cr_Speed cr)), (negb (Nat.eqb _ _)); cbn [upd_if] in *; chase.
Qed.

(** C31: a request to delete a user, whose quota can be restored from its snapshot
    ([qc_restorable]; for the quota service, fewer than [2 ^ 53] bytes and a period start
    that its date format can carry), ends in one of four ways.  The user is not known and
    nothing changed; or the user provider reports an error and nothing changed but that the
    user may be gone (the shorter list was refused by an inbound); or the user, its quota,
    its speed and its schedules are gone and the answer is 204; or a later removal failed
    and the snapshot is restored, which leaves nothing changed when the restoration reports
    no error, and nothing but what the name has when it reports one. *)
Theorem delete_user_all_or_nothing request req (w w' : World U Q S) r :
  world_wf w -> opt_all qc_restorable (ds_quota (snapshotDeleteRuntimeState (userName req) w)) ->
  isSet (w_user w) = true -> DecodeDelete (rq_Body request) = Some req -> userName req <> "" ->
  DeleteUserHandler request w = (w', r) ->
  let name := userName req in
  (users_of w name = None /\ w' = w /\ r = status 404) \/
  (exists err gone, on_user (UP_DeleteUser name) w = (w', Some err) /\ r = writeUserProviderError (Some err) /\
     effect w w' (upd_if gone name None) (fun f => f) (fun f => f) (fun f => f)) \/
  (r = status 204 /\ effect w w' (upd name None) (upd name (None, None)) (upd name None) (upd name None)) \/
  (exists err w2 restoreErr,
     restoreDeleteRuntimeState (snapshotDeleteRuntimeState name w) w2 = (w', restoreErr) /\
     match restoreErr with
     | None => r = writeRuntimeControlError (Some err) /\ unchanged_world w w'
     | Some e => r = writeRuntimeControlError (E_Errors [err; E_Cause e ["restore delete runtime state"]]) /\ only_name name w w'
     end).
Proof.
  intros Hw Hre Hset Hd Hn. unfold DeleteUserHandler. rewrite Hset, Hd. cbn [negb]. rewrite decide_False by done.
  set (name := userName req). cbv zeta.
  destruct (ds_user (snapshotDeleteRuntimeState name w)) as [user|] eqn:Eds.
  2:{ intros [= <- <-]. left. split_and!; [|done|done]. cbn in Eds. unfold users_of.
      destruct (w_user w) as [u|]; [|done]. cbn in *. by destruct (UP_GetUser name u). }
  destruct (on_user (UP_DeleteUser name) w) as [w1 [err|]] eqn:E1.
  { intros [= <- <-]. right. left. destruct (delete_user_err _ _ _ _ Hw E1) as [gone He]. by exists err, gone. }
  apply delete_user_effect in E1 as [[? [? [? ?]]]]; [|done].
  destruct (cleanupDeleteRuntimeState name w1) as [w2 [err|]] eqn:E2; apply cleanup_effect in E2; try done.
  - destruct E2 as (bs & bc & [[? [? [? ?]]]]).
    assert (He : effect w w2 (upd name None) (upd_if false name (None, None)) (upd_if bs name None) (upd_if bc name None))
      by (split; [shape|..]; destruct bs, bc; cbn [upd_if] in *; chase).
    destruct (restoreDeleteRuntimeState (snapshotDeleteRuntimeState name w) w2) as [w3 re] eqn:E3.
    intros [= <- <-]. right. right. right. exists err, w2, re. split; [done|]. destruct re as [re|]; (split; [done|]).
    + eapply only_name_trans; [eapply effect_only; [exact He|..]; intros; first [by apply upd_other|by apply upd_if_other]|].
      eapply (restore_only name w user); try done. shape.
    + by eapply (restore_effect name w user w2 w3 false bs bc).
  - destruct E2 as [[? [? [? ?]]]]. intros [= <- <-]. right. right. left. split; [done|].
    split; [shape|..]; chase.
Qed.

End Lifecycle.

(** ** A concrete authenticator *)

(** Decimal numbers have no comma. *)
Lemma dec_digits_no_comma fuel w n acc : 0 <= n ->
  has_char ","%char (dec_digits fuel w n acc) = has_char ","%char acc.
Proof.
  revert w n acc. induction fuel as [|fuel IH]; intros w n acc Hn; [done|]. cbn [dec_digits].
  destruct (_ && _); [done|]. rewrite IH by (apply Z.div_pos; lia). cbn [has_char].
  destruct (Ascii.eqb_spec (digit_char (n mod 10)) ","%char) as [E|]; [|done].
  destruct (Z_ascii_digit (n mod 10)) as [Hd _]; [apply Z.mod_pos_bound; lia|]. by rewrite E in Hd.
Qed.

Lemma itoa_no_comma n : has_char ","%char (itoa n) = false.
Proof.
  unfold itoa, pad_int. rewrite has_char_app, dec_digits_no_comma by lia. by destruct (n <? 0).
Qed.

Module AuthDemo.
(** Claims as the expiry and the name. *)
#[export] Instance auth_json : AuthJSON := {|
  MarshalClaims := fun c => Some (itoa (ltc_Expires c) +:+ String ","%char (ltc_Username c));
  UnmarshalClaims := fun s =>
    match cut ","%char s with
    | Some (e, u) => match atoi e with Some z => Some (mkClaims u z) | None => None end
    | None => None
    end;
  DecodeLogin := fun b =>
    match cut ":"%char (b_data b) with Some (u, p) => Some (mkLoginRequest u p) | None => None end;
|}.

#[export] Instance auth_json_laws : AuthJSONLaws auth_json.
Proof.
  split. intros [u e] _ He. cbn in *. eexists. split_and!; [reflexivity| |].
  - destruct (itoa e); [done|]. by rewrite str_app_cons.
  - rewrite cut_app by apply itoa_no_comma. by rewrite atoi_itoa.
Qed.

Definition options : AuthOptions := mkAuthOptions [("root", "secret")] ["static-token"] "key" 0.
Definition a0 : Authenticator := match NewAuthenticator options with Ok a => a | Err _ => mkAuthenticator ∅ ∅ "" 0 end.
(** 2024-01-01 00:00:00 UTC. *)
Definition t0 : Z := 1704067200 * second.
Definition login : Request := mkRequest "POST" "/admin/v1/auth/login" "" (mkReqBody "root:secret" false).
Definition token : string := match LoginHandler a0 t0 login with (_, Some (t, _)) => t | _ => "" end.
Definition bearer : Request := mkRequest "POST" "/admin/v1/user/list" ("Bearer " +:+ token) (mkReqBody "" false).
End AuthDemo.

Section AuthWitnesses.
Import AuthDemo.

(** Accepted a second before midnight of the expiry, refused at it. *)
Lemma login_token_lifecycle_witness :
  validateAuthorization a0 (t0 + 43199 * second) bearer = Ok (mkAuthSubject "root" false) /\
  validateAuthorization a0 (t0 + 43200 * second) bearer = Err errTokenExpired.
Proof.
  assert (LoginHandler a0 t0 login = (200, Some (token, "2024-01-01T12:00:00Z"))) as H by (vm_compute; reflexivity).
  destruct (login_token_lifecycle a0 t0 login (mkLoginRequest "root" "secret") token "2024-01-01T12:00:00Z") as (_ & _ & Hv);
    [reflexivity|exact H|discriminate|reflexivity| | |].
  - split; vm_compute; discriminate.
  - vm_compute. discriminate.
  - split; rewrite Hv by reflexivity; vm_compute; reflexivity.
Defined.

Lemma authorization_sound_witness :
  exists subject, validateAuthorization a0 t0 bearer = Ok subject /\ as_StaticToken subject = false /\
  ((exists token, token ∈ ao_Tokens options /\ token <> "" /\
     extractBearerToken (rq_Authorization bearer) = token /\ subject = mkAuthSubject "" true) \/
   (exists username password, (username, password) ∈ ao_Admins options /\
     BasicAuth (rq_Authorization bearer) = Some (username, password) /\ subject = mkAuthSubject username false) \/
   (ao_TokenSecret options <> "" /\ exists pe se payload claims,
     extractBearerToken (rq_Authorization bearer) = pe +:+ "." +:+ se /\
     RawURLDecode se = Some (hmac_sha256 (ao_TokenSecret options) pe) /\
     RawURLDecode pe = Some payload /\ UnmarshalClaims payload = Some claims /\
     subject = mkAuthSubject (ltc_Username claims) false /\
     ltc_Username claims <> "" /\ Unix t0 < ltc_Expires claims)).
Proof.
  exists (mkAuthSubject "root" false). split; [vm_compute; reflexivity|]. split; [reflexivity|].
  apply (authorization_sound options a0 t0 bearer); vm_compute; reflexivity.
Defined.

End AuthWitnesses.
