(* ===== verification/AdminInstances.v ===== *)
(** * The services behind the admin API

    The user provider, the quota service and the speed limiter implement the
    interfaces of [AdminAPI] and satisfy the laws of [AdminLaws], so the
    theorems on the handlers hold of the composed program.

    An instance fixes what a call takes besides its arguments: the clock, the
    answers of the sources, which have to read the same throughout, and the
    iteration order over the limiters. *)

From S2P Require Import Prelude GoStrings GoTime QuotaConfig ConnList QuotaManager QuotaInv QuotaPersist DynamicConfig QuotaService SpeedConfig SpeedLimiter SpeedInv SpeedProps UserProvider UserProviderProps GoCrypto AdminAuth AdminAPI AdminLaws AdminProps QuotaProps.

Local Open Scope string_scope.
Local Open Scope list_scope.
Local Open Scope Z_scope.

(** ** The user provider *)

Section Provider.
Context `{PE : ProviderEnv} `{EL : !ExceptionsLaws EX}.
Context (w : Outside).

#[export] Instance provider_ops : UserProviderI UserProvider.Service := {|
  UP_ListUsers := UserProvider.ListUsers;
  UP_GetUser := UserProvider.GetUser;
  UP_CreateUser := UserProvider.CreateUser w w;
  UP_UpdateUser := UserProvider.UpdateUser w w;
  UP_DeleteUser := UserProvider.DeleteUser w w w;
|}.

(** The current users are those of the last read of the sources. *)
Definition provider_wf (s : UserProvider.Service) : Prop :=
  up_inv s /\ exists src, loads w s = Ok src /\ lists (up_allUsers s) (view s src).

(** A change that reports no error is the change of the abstract map. *)
Lemma refines_step s src spec s' :
  loads w s = Ok src -> refines s src spec (s', None) ->
  exists m, spec = Ok m /\ provider_wf s' /\ forall k, UserProvider.GetUser k s' = m !! k.
Proof.
  intros Hl (Hi & Hs & Hm). cbn [fst] in *. destruct spec as [m|e]; [|by destruct Hm as [? _]].
  destruct Hm as (Hv & Hlists & _). cbn [fst] in *. exists m. split; [done|]. split; [|apply Hlists].
  split; [done|]. exists src. rewrite <-(loads_proper w _ _ Hs), Hv. done.
Qed.

(** One that reports an error has changed nothing, or is the change of the abstract map
    with a list some inbound refused. *)
Lemma refines_error s src spec s' err :
  loads w s = Ok src -> lists (up_allUsers s) (view s src) -> refines s src spec (s', Some err) ->
  provider_wf s' /\ ((forall k, UserProvider.GetUser k s' = UserProvider.GetUser k s) \/
    exists m, spec = Ok m /\ forall k, UserProvider.GetUser k s' = m !! k).
Proof.
  intros Hl Hls (Hi & Hs & Hm). cbn [fst] in *. destruct spec as [m|e].
  - destruct Hm as (Hv & Hlists & _). cbn [fst] in *. split; [|right; exists m; split; [done|apply Hlists]].
    split; [done|]. exists src. rewrite <-(loads_proper w _ _ Hs), Hv. done.
  - destruct Hm as (_ & Ho & Hd & Ha & _). cbn [fst] in *. unfold UserProvider.GetUser. rewrite Ha. split; [|by left].
    split; [done|]. exists src. rewrite <-(loads_proper w _ _ Hs). split; [done|]. rewrite Ha. unfold view. by rewrite Ho, Hd.
Qed.

#[export] Instance provider_laws : UserProviderLaws UserProvider.Service.
Proof.
  refine {| up_wf := provider_wf |}.
  - intros u s s' (Hi & src & Hl & Hlists) H. cbn in H |- *.
    pose proof (CreateUser_refines w w u s src Hi Hl Hl) as R. rewrite H in R.
    destruct (refines_step s src _ s' Hl R) as (m & Hm & Hwf & Hget). cbn [spec_op] in Hm.
    destruct (decide (ou_Name u = "")); [done|]. destruct (view s src !! ou_Name u) as [x|] eqn:E; [done|].
    injection Hm as <-. unfold UserProvider.GetUser at 1. rewrite (proj2 Hlists), E. split_and!; [done|done|done|].
    intros k. rewrite Hget. unfold upd, UserProvider.GetUser. rewrite (proj2 Hlists).
    destruct (decide (k = ou_Name u)) as [->|]; [apply lookup_insert_eq|by apply lookup_insert_ne].
  - intros u s s' err (Hi & src & Hl & Hlists) H. cbn in H |- *.
    pose proof (CreateUser_refines w w u s src Hi Hl Hl) as R. rewrite H in R.
    destruct (refines_error s src _ s' err Hl Hlists R) as (Hwf & [Hget|(m & Hm & Hget)]); (split; [done|]); [by left|].
    cbn [spec_op] in Hm. destruct (decide (ou_Name u = "")); [done|]. destruct (view s src !! ou_Name u) as [x|] eqn:E; [done|].
    injection Hm as <-. right. unfold UserProvider.GetUser at 1. rewrite (proj2 Hlists), E. split; [done|].
    intros k. rewrite Hget. unfold upd, UserProvider.GetUser. rewrite (proj2 Hlists).
    destruct (decide (k = ou_Name u)) as [->|]; [apply lookup_insert_eq|by apply lookup_insert_ne].
  - intros n s s' err (Hi & src & Hl & Hlists) H. cbn in H |- *.
    pose proof (DeleteUser_refines w w w n s src Hi Hl Hl Hl) as R. rewrite H in R.
    destruct (refines_error s src _ s' err Hl Hlists R) as (Hwf & [Hget|(m & Hm & Hget)]); (split; [done|]); [by left|].
    cbn [spec_op] in Hm. destruct (view s src !! n) as [x|] eqn:E; [|done]. injection Hm as <-. right.
    intros k. rewrite Hget. unfold upd, UserProvider.GetUser. rewrite (proj2 Hlists).
    destruct (decide (k = n)) as [->|]; [apply lookup_delete_eq|by apply lookup_delete_ne].
  - intros n s s' (Hi & src & Hl & Hlists) H. cbn in H |- *.
    pose proof (DeleteUser_refines w w w n s src Hi Hl Hl Hl) as R. rewrite H in R.
    destruct (refines_step s src _ s' Hl R) as (m & Hm & Hwf & Hget). cbn [spec_op] in Hm.
    destruct (view s src !! n) as [x|] eqn:E; [|done]. injection Hm as <-. split; [done|].
    intros k. rewrite Hget. unfold upd, UserProvider.GetUser. rewrite (proj2 Hlists).
    destruct (decide (k = n)) as [->|]; [apply lookup_delete_eq|by apply lookup_delete_ne].
  - intros n s u (Hi & src & Hl & Hlists) H. cbn in H. unfold UserProvider.GetUser in H. rewrite (proj2 Hlists) in H.
    eapply usersView_named; [apply Hi|exact H].
Defined.

End Provider.

(** ** The speed limiter *)

Section Speed.
Context `{RL : RateLib}.
Context (clock : Z -> Z * Z) (now : Z) (keys : LimiterManager -> list string).

#[export] Instance speed_ops : SpeedControllerI LimiterManager := {|
  SC_ApplyConfig := fun c m => SpeedLimiter.ApplyConfig clock c now (keys m) m;
  SC_RemoveConfig := fun n m => SpeedLimiter.RemoveConfig n (keys m) m;
  SC_GetConfig := fun n m => SpeedLimiter.GetConfig m n;
  SC_ReplaceUserSchedules := fun n l m => ReplaceUserSchedules clock n l now (keys m) m;
  SC_GetUserSchedules := fun n m => GetUserSchedules m n;
  SC_RemoveUserSchedules := fun n m => RemoveUserSchedules clock n now (keys m) m;
|}.

(** No visit of the limiters touches the configuration. *)
Lemma neutralize_config a m : lm_config (neutralizeLimiter a m) = lm_config m.
Proof. destruct a; reflexivity. Qed.

Lemma reconcile_config a x m : lm_config (reconcileLimiterDirection a x m).2 = lm_config m.
Proof.
  unfold reconcileLimiterDirection, alloc. destruct (0 <? x); [|apply neutralize_config].
  destruct a; [done|]. by destruct (NewLimiter x).
Qed.

Lemma updateOne_config t m key : lm_config (updateOne clock t m key) = lm_config m.
Proof.
  unfold updateOne. destruct (lm_limiters m !! key) as [ul|]; [|done].
  destruct (effectiveSpeed _ _ _ _) as [cfg|]; [|cbn; by rewrite !neutralize_config].
  pose proof (reconcile_config (ul_Upload ul) (sc_UploadMbps cfg) m) as H1.
  destruct (reconcileLimiterDirection _ _ m) as [up m1].
  pose proof (reconcile_config (ul_Download ul) (sc_DownloadMbps cfg) m1) as H2.
  destruct (reconcileLimiterDirection _ _ m1) as [down m2]. cbn in *. congruence.
Qed.

Lemma applyRuntimeState_config t ks m : lm_config (applyRuntimeState clock t ks m) = lm_config m.
Proof.
  unfold applyRuntimeState, updateLimiterRates.
  assert (forall m, lm_config (fold_left (updateOne clock t) ks m) = lm_config m) as H; [|by rewrite H].
  induction ks as [|k ks IH]; intros m'; cbn; [done|]. by rewrite IH, updateOne_config.
Qed.

Lemma removeAll_config n ks m : lm_config (fold_left (removeOne n) ks m) = lm_config m.
Proof.
  revert m. induction ks as [|k ks IH]; intros m; cbn; [done|]. rewrite IH. unfold removeOne.
  destruct (lm_limiters m !! k); [|done]. case_goal; [|done]. cbn. by rewrite !neutralize_config.
Qed.

(** Stored configurations are under their names, stored schedules came from the parser. *)
Definition speed_wf (m : LimiterManager) : Prop :=
  map_Forall (fun k c => slu_Name c = k) (cs_userRawConfig (lm_config m)) /\
  map_Forall (fun _ l => Forall (fun e => schedule_valid e /\ se_groups e = ∅) l) (cs_userSchedules (lm_config m)).

Lemma GetUserSchedules_stored m n l : speed_wf m -> GetUserSchedules m n = Some l ->
  exists parsed, parsed <> [] /\ l = map toUserSchedule parsed /\ parseAll l [] = Ok parsed.
Proof.
  intros [_ Hs] H. unfold GetUserSchedules in H. destruct (cs_userSchedules (lm_config m) !! n) as [[|e es]|] eqn:E; try done.
  injection H as <-. exists (e :: es). split_and!; [done|done|]. apply (parseAll_print (e :: es) []). by eapply Hs.
Qed.

(** The views of a manager with other configuration fields. *)
Lemma speed_views m m' f g :
  cs_userRawConfig (lm_config m') = f (cs_userRawConfig (lm_config m)) ->
  cs_userSchedules (lm_config m') = g (cs_userSchedules (lm_config m)) ->
  (forall k, SpeedLimiter.GetConfig m' k = f (cs_userRawConfig (lm_config m)) !! k) /\
  (forall k, GetUserSchedules m' k =
     match g (cs_userSchedules (lm_config m)) !! k with None | Some [] => None | Some l => Some (map toUserSchedule l) end).
Proof. intros H1 H2. unfold SpeedLimiter.GetConfig, GetUserSchedules. by rewrite H1, H2. Qed.

Lemma upd_insert {A} (n : string) (x : A) (m : gmap string A) k : <[n := x]> m !! k = upd n (Some x) (fun k => m !! k) k.
Proof. unfold upd. destruct (decide (k = n)) as [->|]; [apply lookup_insert_eq|by apply lookup_insert_ne]. Qed.

Lemma upd_delete {A} (n : string) (m : gmap string A) k : delete n m !! k = upd n None (fun k => m !! k) k.
Proof. unfold upd. destruct (decide (k = n)) as [->|]; [apply lookup_delete_eq|by apply lookup_delete_ne]. Qed.

Lemma apply_speed_ok c m m' : speed_wf m -> SpeedLimiter.ApplyConfig clock c now (keys m) m = (m', None) ->
  speed_wf m' /\ (forall k, SpeedLimiter.GetConfig m' k = upd (slu_Name c) (Some c) (SpeedLimiter.GetConfig m) k) /\
  forall k, GetUserSchedules m' k = GetUserSchedules m k.
Proof.
  intros [Hr Hs] H. unfold SpeedLimiter.ApplyConfig in H. destruct (decide _); [done|]. destruct (decide _); [done|]. destruct (_ && _ && _); [done|]. injection H as <-.
  unfold speed_wf, SpeedLimiter.GetConfig, GetUserSchedules. rewrite !applyRuntimeState_config. cbn.
  split_and!; [by apply map_Forall_insert_2|done| |done]. intros k. apply upd_insert.
Qed.

Lemma replace_schedules_ok n l m m' : speed_wf m -> ReplaceUserSchedules clock n l now (keys m) m = (m', None) ->
  exists parsed, parseAll l [] = Ok parsed /\ speed_wf m' /\
  (forall k, SpeedLimiter.GetConfig m' k = SpeedLimiter.GetConfig m k) /\
  GetUserSchedules m' n = (match parsed with [] => None | _ => Some (map toUserSchedule parsed) end) /\
  (forall k, k <> n -> GetUserSchedules m' k = GetUserSchedules m k).
Proof.
  intros [Hr Hs] H. unfold ReplaceUserSchedules in H. destruct (decide _); [done|].
  destruct (parseAll l []) as [parsed|e] eqn:E; [|done]. injection H as <-. exists parsed. split; [done|].
  destruct (parseAll_valid l [] parsed ltac:(constructor) E) as [Hv _].
  unfold speed_wf, SpeedLimiter.GetConfig, GetUserSchedules. rewrite !applyRuntimeState_config. cbn.
  destruct parsed as [|p ps].
  - split_and!; [done|by apply map_Forall_delete|done|by rewrite lookup_delete_eq|].
    intros k Hk. by rewrite lookup_delete_ne.
  - split_and!; [done|by apply map_Forall_insert_2|done|by rewrite lookup_insert_eq|].
    intros k Hk. by rewrite lookup_insert_ne.
Qed.

#[export] Instance speed_laws : SpeedControllerLaws LimiterManager.
Proof.
  refine {| sc_wf := speed_wf |}; cbn.
  - intros n s c [Hr _] H. by apply Hr in H.
  - intros c s s' Hw H. by apply apply_speed_ok.
  - intros c s s' err Hw H. unfold SpeedLimiter.ApplyConfig in H.
    destruct (decide _); [by injection H as <- <-|]. destruct (decide _); [by injection H as <- <-|].
    destruct (_ && _ && _); [by injection H as <- <-|done].
  - intros n s s' [Hr Hs] H. unfold SpeedLimiter.RemoveConfig in H. destruct (decide _); [done|]. injection H as <-.
    unfold speed_wf, SpeedLimiter.GetConfig, GetUserSchedules. rewrite !removeAll_config. cbn.
    split_and!; [by apply map_Forall_delete|done| |done]. intros k. apply upd_delete.
  - intros n s s' err Hw H. unfold SpeedLimiter.RemoveConfig in H. destruct (decide _); [|done]. injection H as <- <-. done.
  - intros n l s s' Hw H. destruct (replace_schedules_ok n l s s' Hw H) as (parsed & E & Hw' & Hk & Hn & Ho).
    split_and!; [done|done| | |done].
    + intros Hl. rewrite Hn. destruct (parseAll_valid l [] parsed ltac:(constructor) E) as [_ Hlen].
      destruct parsed; [|done]. by destruct l.
    + intros s0 Hw0 H0. destruct (GetUserSchedules_stored s0 n l Hw0 H0) as (p & Hp & -> & Hparse).
      rewrite Hparse in E. injection E as <-. rewrite Hn. by destruct p.
  - intros n l s s' err Hw H. unfold ReplaceUserSchedules in H. destruct (decide _); [by injection H as <- <-|].
    destruct (parseAll l []); [done|]. by injection H as <- <-.
  - intros n s s' [Hr Hs] H. unfold RemoveUserSchedules in H. destruct (decide _); [done|]. injection H as <-.
    unfold speed_wf, SpeedLimiter.GetConfig, GetUserSchedules. rewrite !applyRuntimeState_config. cbn.
    split_and!; [done|by apply map_Forall_delete|done|]. intros k. unfold upd.
    destruct (decide (k = n)) as [->|]; [by rewrite lookup_delete_eq|by rewrite lookup_delete_ne].
  - intros n s s' err Hw H. unfold RemoveUserSchedules in H. destruct (decide _); [|done]. by injection H as <- <-.
Defined.

End Speed.

(** ** The quota service *)

Section Quota.
Context `{EX : Exceptions} {P : Persister} (now : Z).

(** A panic of the service would end the request without an answer; the laws
    say nothing of such a call but that it does not count as a success. *)
Definition or_panic (s : QuotaService.Service) (r : outcome (QuotaService.Service * option error))
    : QuotaService.Service * option error :=
  match r with Ret r => r | Panic => (s, Some (Errorf "panic")) end.

#[export] Instance quota_ops : QuotaControllerI QuotaService.Service := {|
  QC_ApplyConfig := fun c s => or_panic s (QuotaService.ApplyConfig c now s);
  QC_RemoveConfig := fun n s => or_panic s (QuotaService.removeConfigLocked n now s);
  QC_GetConfig := fun n s => QuotaManager.GetConfig (sv_manager s) n;
  QC_SnapshotState := fun n s => QuotaManager.SnapshotState (sv_manager s) n;
  QC_RestoreState := fun st s => or_panic s (QuotaService.RestoreState st now s);
  QC_QuotaStatus := fun n s => StatusOf (sv_manager s) n;
|}.

Definition quota_wf (s : QuotaService.Service) : Prop :=
  map_Forall (fun _ c => config_valid c) (userConfigs (sv_manager s)).

(** A snapshot whose configuration survives its option form. *)
Definition quota_restorable (st : RuntimeState) : Prop :=
  exists c, rs_User st = quotaConfigToOption (tqu_Name (rs_User st)) c /\
    config_valid c /\ qc_quotaBytes c < 2 ^ 53 /\ date4 (qc_periodStart c) /\
    (qc_periodStart c = zero_time \/ zero_time + second <= qc_periodStart c).

(** What the views read of a manager. *)
Definition mview (m : QuotaManager) (n : string) : option QuotaConfig * Z * bool :=
  (userConfigs m !! n, us_usage (state_of m n), us_exceeded (state_of m n)).

Lemma quota_view_mview s n :
  quota_view s n = (qc_period <$> (mview (sv_manager s) n).1.1,
    (fun c => mkStatus (mview (sv_manager s) n).1.2 (qc_quotaBytes c) (mview (sv_manager s) n).2) <$> (mview (sv_manager s) n).1.1).
Proof.
  unfold quota_view, mview. cbn. unfold QuotaManager.GetConfig, StatusOf, loadConfig, state_of.
  destruct (userConfigs (sv_manager s) !! n); [|done]. cbn. by destruct (states (sv_manager s) !! n).
Qed.

Lemma quota_view_ext s s' n : mview (sv_manager s') n = mview (sv_manager s) n -> quota_view s' n = quota_view s n.
Proof. intros H. by rewrite !quota_view_mview, H. Qed.

Lemma state_of_put u s m k : state_of (put_state u s m) k = if decide (k = u) then s else state_of m k.
Proof.
  unfold state_of. cbn. destruct (decide (k = u)) as [->|]; [by rewrite lookup_insert_eq|by rewrite lookup_insert_ne].
Qed.

Lemma mview_settle u c st m k : k <> u -> mview (settle u c st m) k = mview m k.
Proof.
  intros Hk. unfold mview, state_of. destruct (settle_fields u c st m) as [-> ->]. by rewrite lookup_insert_ne.
Qed.

(** Reading the current period of a configured user shows nothing. *)
Lemma CurrentPeriodKey_view u m key m' :
  map_Forall (fun _ c => config_valid c) (userConfigs m) -> is_Some (userConfigs m !! u) ->
  CurrentPeriodKey u now m = Ret (key, m') -> userConfigs m' = userConfigs m /\ forall k, mview m' k = mview m k.
Proof.
  intros Hv [c Hc] H. rewrite (CurrentPeriodKey_eq u now m c Hc) in H by (by eapply Hv). injection H as <- <-.
  split; [done|]. intros k. unfold mview. rewrite state_of_put. by destruct (decide (k = u)) as [->|].
Qed.

Lemma LoadUsage_view u b m m' :
  map_Forall (fun _ c => config_valid c) (userConfigs m) -> is_Some (userConfigs m !! u) ->
  LoadUsage u b now m = Ret m' -> userConfigs m' = userConfigs m /\ forall k, k <> u -> mview m' k = mview m k.
Proof.
  intros Hv [c Hc] H. rewrite (LoadUsage_eq u b now m c Hc) in H by (by eapply Hv). injection H as <-.
  split; [apply settle_fields|]. intros k Hk. by apply mview_settle.
Qed.

Lemma loadNewUser_view u s s' :
  quota_wf s -> is_Some (userConfigs (sv_manager s) !! u) -> loadNewUser u now s = Ret s' ->
  userConfigs (sv_manager s') = userConfigs (sv_manager s) /\
  forall k, k <> u -> mview (sv_manager s') k = mview (sv_manager s) k.
Proof.
  intros Hv Hc H. unfold loadNewUser in H. destruct (sv_persister s) as [st|]; [|by injection H as <-].
  destruct (CurrentPeriodKey u now (sv_manager s)) as [[key m]|] eqn:E1; [|done].
  destruct (CurrentPeriodKey_view u _ _ _ Hv Hc E1) as [C1 V1]. cbn in H.
  destruct (p_Load u key st) as [st' [b|e]]; [|injection H as <-; auto].
  destruct (LoadUsage u b now m) as [m2|] eqn:E2; [|done]. injection H as <-.
  destruct (LoadUsage_view u b m m2) as [C2 V2]; [by rewrite C1|by rewrite C1|done|]. cbn. split; [congruence|].
  intros k Hk. by rewrite V2, V1.
Qed.

Lemma ApplyConfig_view c m m' err :
  map_Forall (fun _ c => config_valid c) (userConfigs m) -> QuotaManager.ApplyConfig c now m = Ret (m', err) ->
  match err with
  | Some _ => m' = m
  | None => map_Forall (fun _ c => config_valid c) (userConfigs m') /\ is_Some (userConfigs m' !! tqu_Name c) /\
      forall k, k <> tqu_Name c -> mview m' k = mview m k
  end.
Proof.
  intros Hv H. destruct (decide (tqu_Name c = "")) as [Hn|Hn].
  { unfold QuotaManager.ApplyConfig in H. rewrite decide_True in H by done. by injection H as <- <-. }
  destruct (newQuotaConfig (tqu_QuotaGB c) (tqu_Period c) (tqu_PeriodStart c) (tqu_PeriodDays c) None) as [[q|]|e] eqn:E.
  - rewrite (ApplyConfig_eq c now m q Hn E) in H. injection H as <- <-.
    set (st := keyed q now _). set (u := tqu_Name c) in *.
    destruct (settle_fields u q st (storeConfig u q m)) as [HC _]. rewrite HC. cbn. split_and!.
    + apply map_Forall_insert_2; [by eapply newQuotaConfig_valid|done].
    + rewrite lookup_insert_eq. eauto.
    + intros k Hk. rewrite mview_settle by done. unfold mview. cbn. by rewrite lookup_insert_ne.
  - unfold QuotaManager.ApplyConfig in H. rewrite decide_False, E in H by done. by injection H as <- <-.
  - unfold QuotaManager.ApplyConfig in H. rewrite decide_False, E in H by done. by injection H as <- <-.
Qed.

Lemma RemoveConfig_view u m :
  match QuotaManager.RemoveConfig u m with
  | (m', Some _) => m' = m
  | (m', None) => userConfigs m' = delete u (userConfigs m) /\ states m' = delete u (states m)
  end.
Proof.
  unfold QuotaManager.RemoveConfig. destruct (decide (u = "")); [done|]. cbn.
  destruct (activeConns m !! u) as [l|]; [|done]. destruct (QuotaManager.lists m !! l) as [cl|]; [|done]. cbn. by rewrite markAll_eq.
Qed.

Lemma RestoreState_view n st c m m' :
  rs_User st = quotaConfigToOption n c -> config_valid c -> qc_quotaBytes c < 2 ^ 53 -> date4 (qc_periodStart c) ->
  (qc_periodStart c = zero_time \/ zero_time + second <= qc_periodStart c) ->
  QuotaManager.RestoreState st m = (m', None) ->
  userConfigs m' = <[n := truncated c]> (userConfigs m) /\
  mview m' n = (Some (truncated c), rs_UsageBytes st, rs_Exceeded st) /\ forall k, k <> n -> mview m' k = mview m k.
Proof.
  intros Hu Hv Hb Hd Hz H. unfold QuotaManager.RestoreState in H. rewrite Hu in H.
  pose proof (newQuotaConfig_option n c Hv Hb Hd Hz) as E. cbv zeta in E. rewrite E in H.
  change (tqu_Name (quotaConfigToOption n c)) with n in H.
  assert (userConfigs m' = <[n := truncated c]> (userConfigs m) /\
    states m' = <[n := mkUserState (rs_UsageBytes st) (rs_PendingDelta st) (rs_Exceeded st) (rs_PeriodKey st)]> (states m)) as [HC HS].
  { destruct (rs_activeConns st); injection H as <-; done. }
  unfold mview, state_of. rewrite HC, HS. split_and!; [done|by rewrite !lookup_insert_eq|].
  intros k Hk. by rewrite !lookup_insert_ne.
Qed.

Lemma ClearPendingDelta_view u m : userConfigs (ClearPendingDelta u m) = userConfigs m /\
  forall k, mview (ClearPendingDelta u m) k = mview m k.
Proof.
  unfold ClearPendingDelta. destruct (states m !! u) as [s|] eqn:E; [|done]. split; [done|]. intros k. unfold mview.
  rewrite state_of_put. destruct (decide (k = u)) as [->|]; [|done]. unfold state_of. by rewrite E.
Qed.

Lemma quota_apply_ok c s s' : quota_wf s -> QuotaService.ApplyConfig c now s = Ret (s', None) ->
  quota_wf s' /\ is_Some (userConfigs (sv_manager s') !! tqu_Name c) /\
  forall k, k <> tqu_Name c -> mview (sv_manager s') k = mview (sv_manager s) k.
Proof.
  intros Hv H. unfold QuotaService.ApplyConfig in H.
  destruct (QuotaManager.ApplyConfig c now (sv_manager s)) as [[m err]|] eqn:E; [|done]. cbn in H.
  pose proof (ApplyConfig_view c _ _ _ Hv E) as HA. destruct err as [err|]; [done|]. destruct HA as (HC & HS & HV).
  destruct (negb _).
  - destruct (loadNewUser (tqu_Name c) now (set_manager m s)) as [s2|] eqn:E2; [|done]. injection H as <-.
    destruct (loadNewUser_view _ (set_manager m s) s2 HC HS E2) as [C2 V2]. cbn in C2, V2. unfold quota_wf. rewrite C2.
    split_and!; [done|done|]. intros k Hk. by rewrite V2, HV.
  - by injection H as <-.
Qed.

Lemma quota_apply_err c s s' err : quota_wf s -> QuotaService.ApplyConfig c now s = Ret (s', Some err) ->
  sv_manager s' = sv_manager s.
Proof.
  intros Hv H. unfold QuotaService.ApplyConfig in H.
  destruct (QuotaManager.ApplyConfig c now (sv_manager s)) as [[m e]|] eqn:E; [|done]. cbn in H.
  pose proof (ApplyConfig_view c _ _ _ Hv E) as HA. destruct e as [e|]; [by injection H as <- <-|].
  destruct (negb _); [|done]. by destruct (loadNewUser _ _ _).
Qed.

(** Removal: the record is deleted first; the manager then forgets the user. *)
Lemma quota_remove n s s' err : quota_wf s -> QuotaService.removeConfigLocked n now s = Ret (s', err) ->
  quota_wf s' /\
  match err with
  | Some _ => forall k, mview (sv_manager s') k = mview (sv_manager s) k
  | None => userConfigs (sv_manager s') !! n = None /\ forall k, k <> n -> mview (sv_manager s') k = mview (sv_manager s) k
  end.
Proof.
  intros Hv H.
  assert (forall m st, map_Forall (fun _ c => config_valid c) (userConfigs m) ->
    (forall k, mview m k = mview (sv_manager s) k) ->
    let r := QuotaManager.RemoveConfig n m in
    quota_wf (QuotaService.mkService r.1 st) /\
    match r.2 with
    | Some _ => forall k, mview r.1 k = mview (sv_manager s) k
    | None => userConfigs r.1 !! n = None /\ forall k, k <> n -> mview r.1 k = mview (sv_manager s) k
    end) as HR.
  { intros m st Hm Hs. pose proof (RemoveConfig_view n m) as HV. unfold quota_wf. cbn.
    destruct (QuotaManager.RemoveConfig n m) as [m' [e|]]; cbn; [by subst|]. destruct HV as [HC HS]. rewrite HC.
    split_and!; [by apply map_Forall_delete|by rewrite lookup_delete_eq|].
    intros k Hk. rewrite <-Hs. unfold mview, state_of. by rewrite HC, HS, !lookup_delete_ne. }
  unfold QuotaService.removeConfigLocked in H.
  destruct (sv_persister s) as [st|].
  2:{ pose proof (HR (sv_manager s) (sv_persister s) Hv (fun _ => eq_refl)) as R.
      destruct (QuotaManager.RemoveConfig n (sv_manager s)) as [m e]. by injection H as <- <-. }
  destruct (HasQuota (sv_manager s) n) eqn:HQ.
  2:{ pose proof (HR (sv_manager s) (sv_persister s) Hv (fun _ => eq_refl)) as R.
      destruct (QuotaManager.RemoveConfig n (sv_manager s)) as [m e]. by injection H as <- <-. }
  apply HasQuota_spec in HQ.
  destruct (CurrentPeriodKey n now (sv_manager s)) as [[key m]|] eqn:E; [|done]. cbn in H.
  destruct (CurrentPeriodKey_view n _ _ _ Hv HQ E) as [HC HV].
  destruct (p_Delete n key st) as [st' [e|]].
  - injection H as <- <-. unfold quota_wf. cbn. by rewrite HC.
  - assert (map_Forall (fun _ c => config_valid c) (userConfigs m)) as Hm by by rewrite HC.
    pose proof (HR m (Some st') Hm HV) as R.
    destruct (QuotaManager.RemoveConfig n m) as [m' e]. by injection H as <- <-.
Qed.

(** The manager is restored first; a failing [Save] leaves it so. *)
Lemma quota_restore n c st s s' err :
  rs_User st = quotaConfigToOption n c -> config_valid c -> qc_quotaBytes c < 2 ^ 53 -> date4 (qc_periodStart c) ->
  (qc_periodStart c = zero_time \/ zero_time + second <= qc_periodStart c) ->
  quota_wf s -> QuotaService.RestoreState st now s = Ret (s', err) ->
  quota_wf s' /\ (err = None -> mview (sv_manager s') n = (Some (truncated c), rs_UsageBytes st, rs_Exceeded st)) /\
  forall k, k <> n -> mview (sv_manager s') k = mview (sv_manager s) k.
Proof.
  intros Hu Hv Hb Hd Hz Hwf H. unfold QuotaService.RestoreState in H.
  destruct (QuotaManager.RestoreState st (sv_manager s)) as [m [e|]] eqn:E.
  { injection H as <- <-. split_and!; [|done|].
    all: unfold QuotaManager.RestoreState in E; destruct (newQuotaConfig _ _ _ _ _) as [[q|]|];
      [by destruct (rs_activeConns st)|by injection E as <- _..]. }
  destruct (RestoreState_view n st c _ _ Hu Hv Hb Hd Hz E) as (HC & HN & HO).
  assert (map_Forall (fun _ c => config_valid c) (userConfigs m)) as Hm.
  { rewrite HC. apply map_Forall_insert_2; [by apply truncated_valid|done]. }
  destruct (sv_persister s) as [ps|]; [|by injection H as <- <-].
  rewrite Hu in H. change (tqu_Name (quotaConfigToOption n c)) with n in H.
  assert (forall r, (if decide (rs_PeriodKey st = "") then CurrentPeriodKey n now m else Ret (rs_PeriodKey st, m)) = Ret r ->
    userConfigs r.2 = userConfigs m /\ forall k, mview r.2 k = mview m k) as HP.
  { intros [key m2] E2. destruct (decide (rs_PeriodKey st = "")); [|by injection E2 as <- <-].
    eapply CurrentPeriodKey_view; [done| |exact E2]. rewrite HC, lookup_insert_eq. eauto. }
  destruct (if decide (rs_PeriodKey st = "") then _ else _) as [[key m2]|]; [|done].
  destruct (HP _ eq_refl) as [C2 V2]. cbn in H, C2, V2. destruct (p_Save n key (rs_UsageBytes st) ps) as [ps' [e|]]; injection H as <- <-.
  - cbn. unfold quota_wf. cbn. rewrite C2. split_and!; [done|done|]. intros k Hk. by rewrite V2, HO.
  - cbn. destruct (ClearPendingDelta_view n m2) as [C3 V3]. unfold quota_wf. cbn. rewrite C3, C2.
    split_and!; [done|by rewrite V3, V2|]. intros k Hk. by rewrite V3, V2, HO.
Qed.

(** The option form of a quota below [2 ^ 53] bytes is that of no other. *)
Lemma option_bytes_inj b b0 : 0 < b -> b < 2 ^ 53 ->
  f64_div_2p30 (f64_of_int b0) = f64_div_2p30 (f64_of_int b) -> b = b0.
Proof.
  intros Hb Hlt H. unfold f64_of_int in H. rewrite (f64_round_small b 0) in H by lia. unfold f64_round in H.
  destruct (Z.leb_spec (Z.log2 (Z.abs b0) - 52) 0); cbn in H; [by injection H as <-|]. injection H as _ H. lia.
Qed.

#[export] Instance quota_laws : QuotaControllerLaws QuotaService.Service.
Proof.
  refine {| qc_wf := quota_wf; qc_restorable := quota_restorable |}; cbn.
  - intros c q q' Hw H. destruct (QuotaService.ApplyConfig c now q) as [r|] eqn:E; [|done]. cbn in H. subst r.
    destruct (quota_apply_ok c q q' Hw E) as (Hw' & Hs & Hk). split_and!; [done| |].
    + unfold QuotaManager.GetConfig, loadConfig. destruct Hs as [x ->]. cbn. eauto.
    + intros k Hne. by apply quota_view_ext, Hk.
  - intros c q q' err Hw H. destruct (QuotaService.ApplyConfig c now q) as [r|] eqn:E; cbn in H; [|by injection H as <- _].
    subst r. apply quota_apply_err in E; [|done]. unfold quota_wf. rewrite E. split; [done|].
    intros k. apply quota_view_ext. by rewrite E.
  - intros n q q' Hw H. destruct (QuotaService.removeConfigLocked n now q) as [r|] eqn:E; [|done]. cbn in H. subst r.
    destruct (quota_remove n q q' None Hw E) as (Hw' & Hn & Hk). split; [done|]. intros k. unfold upd.
    destruct (decide (k = n)) as [->|]; [|by apply quota_view_ext, Hk].
    rewrite quota_view_mview. unfold mview. cbn. by rewrite Hn.
  - intros n q q' err Hw H. destruct (QuotaService.removeConfigLocked n now q) as [r|] eqn:E; cbn in H; [|by injection H as <- _].
    subst r. destruct (quota_remove n q q' (Some err) Hw E) as (Hw' & Hk). split; [done|].
    intros k. apply quota_view_ext, Hk.
  - intros n q0 st q q' Hw0 Hs (c & Hu & Hv & Hb & Hd & Hz) Hw H.
    destruct (QuotaService.RestoreState st now q) as [r|] eqn:E; [|done]. cbn in H. subst r.
    unfold QuotaManager.SnapshotState, loadConfig in Hs.
    destruct (userConfigs (sv_manager q0) !! n) as [c0|] eqn:Ec; [|done]. injection Hs as <-. cbn in Hu.
    pose proof (quota_restore n c _ q q' None (Hu : rs_User (mkRuntimeState _ _ _ _ _ _) = _) Hv Hb Hd Hz Hw E)
      as (Hw' & Hn & Hk). specialize (Hn eq_refl). split; [done|]. intros k. unfold upd.
    destruct (decide (k = n)) as [->|]; [|by apply quota_view_ext, Hk].
    rewrite !quota_view_mview, Hn. unfold mview, state_of. rewrite Ec. cbn.
    injection Hu as Hgb Hper _ _. rewrite <-Hper.
    assert (qc_quotaBytes c = qc_quotaBytes c0) as ->; [|done]. apply option_bytes_inj; [by destruct Hv|done|done].
  - intros n q0 st q q' err Hw0 Hs (c & Hu & Hv & Hb & Hd & Hz) Hw H.
    destruct (QuotaService.RestoreState st now q) as [r|] eqn:E; cbn in H; [|by injection H as <- _]. subst r.
    unfold QuotaManager.SnapshotState, loadConfig in Hs.
    destruct (userConfigs (sv_manager q0) !! n) as [c0|] eqn:Ec; [|done]. injection Hs as <-. cbn in Hu.
    pose proof (quota_restore n c _ q q' _ (Hu : rs_User (mkRuntimeState _ _ _ _ _ _) = _) Hv Hb Hd Hz Hw E)
      as (Hw' & _ & Hk). split; [done|]. intros k Hne. by apply quota_view_ext, Hk.
  - intros n q Hw H. unfold QuotaManager.SnapshotState, loadConfig in H. rewrite quota_view_mview. unfold mview. cbn.
    by destruct (userConfigs (sv_manager q) !! n).
Defined.

End Quota.

(** ** The composed program on concrete requests *)

Module AdminDemo.
#[global] Existing Instance text_exceptions.
#[export] Existing Instance ProviderDemo.env.
#[export] Existing Instance SpeedDemo.rate.
#[export] Existing Instance AuthDemo.auth_json.

(** A backend that keeps nothing and cannot delete. *)
#[export] Instance stuck : Persister := {|
  pstore := unit;
  p_Load := fun _ _ st => (st, Ok 0);
  p_LoadMany := fun _ _ st => (st, Ok ∅);
  p_Save := fun _ _ _ st => (st, None);
  p_IncrBy := fun _ _ _ st => (st, None);
  p_Delete := fun _ _ st => (st, Some "connection refused");
  p_Close := fun _ => None;
|}.

Definition t0 : Z := SpeedDemo.t0.
Definition keys (m : LimiterManager) : list string := (map_to_list (lm_limiters m)).*1.

#[export] Instance users : UserProviderI UserProvider.Service := provider_ops (ProviderDemo.outside "A").
#[export] Instance users_laws : UserProviderLaws UserProvider.Service := provider_laws (ProviderDemo.outside "A").
#[export] Instance quotas : QuotaControllerI QuotaService.Service := quota_ops t0.
#[export] Instance quotas_laws : QuotaControllerLaws QuotaService.Service := quota_laws t0.
#[export] Instance speeds : SpeedControllerI LimiterManager := speed_ops SpeedDemo.clock t0 keys.
#[export] Instance speeds_laws : SpeedControllerLaws LimiterManager := speed_laws SpeedDemo.clock t0 keys.

(** Bodies are read by their first words. *)
Definition bob : OptionUser := mkOptionUser "bob" "b" "u9" 0 "".
Definition bobRequest : createUserRequest :=
  mkCreateUserRequest bob (Some (mkTrafficQuotaUser "" "" (F64 1 0) "daily" "" 0))
    (Some (mkSpeedLimiterUser "" "" 0 0 None)) [].

#[export] Instance admin_env : AdminEnv := {|
  DecodeNamed := fun b => Some (b_data b);
  UnmarshalCreate := fun d => if String.eqb d "bob" then Some bobRequest else None;
  UnmarshalUser := fun d => None;
  DecodeUpdate := fun b => None;
  DecodeDelete := fun b => Some (mkDeleteUserRequest (b_data b) "" None);
  DecodePutQuota := fun b => None;
  DecodeSpeedUser := fun b => None;
  DecodeSchedules := fun b => None;
  isContextError := fun _ => false;
|}.

Definition request (path data : string) : Request := mkRequest "POST" path "" (mkReqBody data false).

(** Alice is a user of the file with a quota and a speed. *)
Definition w0 : World UserProvider.Service QuotaService.Service LimiterManager :=
  mkWorld (Some ProviderDemo.s1) (Some (QuotaService.mkService QuotaProps.Demo.m2 (Some tt))) (Some SpeedDemo.m1).

Lemma w0_wf : world_wf w0.
Proof.
  split_and!; cbn.
  - split; [apply ProviderDemo.s1_inv|]. exists ProviderDemo.src1. split; [vm_compute; reflexivity|].
    assert (up_allUsers ProviderDemo.s1 =
      mergeUsers ProviderDemo.src1 (up_deletedUsers ProviderDemo.s1) (map_to_list (up_overlayUsers ProviderDemo.s1))) as ->
      by (vm_compute; reflexivity).
    apply mergeUsers_lists; [apply ProviderDemo.s1_inv|done].
  - unfold quota_wf. cbn [sv_manager].
    assert (userConfigs QuotaProps.Demo.m2 = {["alice" := QuotaProps.Demo.alice_config]}) as -> by (vm_compute; reflexivity).
    apply map_Forall_singleton. split; reflexivity.
  - split.
    + assert (cs_userRawConfig (lm_config SpeedDemo.m1) = {["alice" := mkSpeedLimiterUser "alice" "" 5 0 None]}) as ->
        by (vm_compute; reflexivity).
      apply map_Forall_singleton. reflexivity.
    + assert (cs_userSchedules (lm_config SpeedDemo.m1) = ∅) as -> by (vm_compute; reflexivity). apply map_Forall_empty.
Qed.

Lemma alice_restorable :
  opt_all quota_restorable (ds_quota (snapshotDeleteRuntimeState "alice" w0)).
Proof.
  assert (ds_quota (snapshotDeleteRuntimeState "alice" w0) =
    Some (mkRuntimeState (quotaConfigToOption "alice" QuotaProps.Demo.alice_config) (2 ^ 31) (2 ^ 31) true "2024-01-01" (Some 0%nat)))
    as -> by (vm_compute; reflexivity).
  exists QuotaProps.Demo.alice_config. split; [reflexivity|]. split; [split; reflexivity|]. split; [reflexivity|].
  split; [split; vm_compute; discriminate|]. left. reflexivity.
Qed.
End AdminDemo.

Section AdminWitnesses.
Import AdminDemo.

(** The speed of the request is refused; the quota and the user are taken back,
    but for the quota record the backend cannot delete. *)
Lemma create_user_all_or_nothing_witness :
  exists w' r, CreateUserHandler (request "/user/create" "bob") w0 = (w', r) /\
    resp_Status r = 400 /\ users_of w' "bob" = None /\
    ((r = status 204 /\ created bobRequest w0 w') \/
     (w' = w0 /\ (r = status 400 \/ r = status 503)) \/
     (exists err kept, on_user (UP_CreateUser (cr_User bobRequest)) w0 = (w', Some err) /\
        r = writeUserProviderError (Some err) /\ (kept = true -> users_of w0 "bob" = None) /\
        effect w0 w' (upd_if kept "bob" (Some (optionUserToAdapter (cr_User bobRequest)))) (fun f => f) (fun f => f) (fun f => f)) \/
     rolled_back bobRequest w0 w' r).
Proof.
  destruct (CreateUserHandler (request "/user/create" "bob") w0) as [w' r] eqn:E. exists w', r. split; [reflexivity|].
  split; [|split].
  - change (resp_Status (w', r).2 = 400). rewrite <-E. vm_compute. reflexivity.
  - change (users_of (w', r).1 "bob" = None). rewrite <-E. vm_compute. reflexivity.
  - apply (create_user_all_or_nothing (request "/user/create" "bob") bobRequest w0 w' r w0_wf); [vm_compute; reflexivity|exact E].
Defined.

(** The record of the quota cannot be deleted, so Alice stays, with everything. *)
Lemma delete_user_all_or_nothing_witness :
  exists w' r, DeleteUserHandler (request "/user/delete" "alice") w0 = (w', r) /\ resp_Status r = 500 /\
    isSet (users_of w' "alice") = true /\
    ((users_of w0 "alice" = None /\ w' = w0 /\ r = status 404) \/
     (exists err gone, on_user (UP_DeleteUser "alice") w0 = (w', Some err) /\ r = writeUserProviderError (Some err) /\
        effect w0 w' (upd_if gone "alice" None) (fun f => f) (fun f => f) (fun f => f)) \/
     (r = status 204 /\ effect w0 w' (upd "alice" None) (upd "alice" (None, None)) (upd "alice" None) (upd "alice" None)) \/
     (exists err w2 restoreErr,
        restoreDeleteRuntimeState (snapshotDeleteRuntimeState "alice" w0) w2 = (w', restoreErr) /\
        match restoreErr with
        | None => r = writeRuntimeControlError (Some err) /\ unchanged_world w0 w'
        | Some e => r = writeRuntimeControlError (E_Errors [err; E_Cause e ["restore delete runtime state"]]) /\ only_name "alice" w0 w'
        end)).
Proof.
  destruct (DeleteUserHandler (request "/user/delete" "alice") w0) as [w' r] eqn:E. exists w', r. split; [reflexivity|].
  split; [|split].
  - change (resp_Status (w', r).2 = 500). rewrite <-E. vm_compute. reflexivity.
  - change (isSet (users_of (w', r).1 "alice") = true). rewrite <-E. vm_compute. reflexivity.
  - apply (delete_user_all_or_nothing (request "/user/delete" "alice") (mkDeleteUserRequest "alice" "" None) w0 w' r
             w0_wf alice_restorable); [reflexivity|reflexivity|discriminate|exact E].
Defined.

(** A deletion without credentials, whatever the router makes of it. *)
Lemma unauthenticated_requests_do_nothing_witness :
  (ServeHTTP (fun _ _ _ => MatchRoute 5 "") AuthDemo.a0 t0 "/admin/v1" (request "/admin/v1/user/delete" "alice") w0).1 = w0 /\
  resp_Status (ServeHTTP (fun _ _ _ => MatchRoute 5 "") AuthDemo.a0 t0 "/admin/v1" (request "/admin/v1/user/delete" "alice") w0).2 = 401.
Proof.
  split; [|vm_compute; reflexivity].
  pose proof (unauthenticated_requests_do_nothing (fun _ _ _ => MatchRoute 5 "") AuthDemo.a0 t0 "/admin/v1"
    (request "/admin/v1/user/delete" "alice") w0) as H.
  destruct (ServeHTTP _ _ _ _ _ _) as [w' r].
  apply H. intros subject. vm_compute. discriminate.
Defined.

(** The rollback of a creation removes the quota of the name, also one that was
    there before the request. *)
Lemma create_rollback_drops_existing_quota :
  let quota_service :=
    match QuotaService.ApplyConfig (mkTrafficQuotaUser "bob" "" (F64 5 0) "monthly" "" 0) t0
            (QuotaService.mkService QuotaProps.Demo.m2 None) with
    | Ret (s, _) => s
    | Panic => QuotaService.mkService QuotaProps.Demo.m2 None
    end in
  let w := mkWorld (Some ProviderDemo.s1) (Some quota_service) (Some SpeedDemo.m1) in
  let '(w', r) := CreateUserHandler (request "/user/create" "bob") w in
  resp_Status r = 400 /\ (quota_of w "bob").1 = Some "monthly" /\ quota_of w' "bob" = (None, None).
Proof. vm_compute. split; [reflexivity|]. split; reflexivity. Qed.

End AdminWitnesses.
