(* ===== verification/RuleState.v ===== *)
(** * Match states of route rules

    [src/route/rule/match_state.go]: the four grouped conditions a rule can
    have satisfied are a 4-bit word ([ruleMatchState], a [uint8]), and a set of
    such words is a 16-bit word ([ruleMatchStateSet], a [uint16]).  The
    operations are the source's loops over the sixteen states; the lemmas show
    that on 16-bit words they are the operations of finite sets of states. *)

From S2P Require Import Prelude.
From stdpp Require Import numbers.

Local Open Scope Z_scope.
Local Open Scope list_scope.

(** ** The code *)

Abbreviation ruleMatchState := Z (only parsing).
Abbreviation ruleMatchStateSet := Z (only parsing).

Definition ruleMatchSourceAddress : ruleMatchState := 1.
Definition ruleMatchSourcePort : ruleMatchState := 2.
Definition ruleMatchDestinationAddress : ruleMatchState := 4.
Definition ruleMatchDestinationPort : ruleMatchState := 8.

(** [s & target != 0] *)
Definition has (s target : ruleMatchState) : bool := negb (Z.land s target =? 0).

(** [1 << state] at 16 bits: a shift by 16 or more gives 0. *)
Definition singleRuleMatchState (state : ruleMatchState) : ruleMatchStateSet :=
  wrapu 16 (Z.shiftl 1 state).

Definition emptyRuleMatchState : ruleMatchStateSet := singleRuleMatchState 0.

Definition isEmpty (s : ruleMatchStateSet) : bool := s =? 0.

Definition containsState (s : ruleMatchStateSet) (state : ruleMatchState) : bool :=
  negb (Z.land s (wrapu 16 (Z.shiftl 1 state)) =? 0).

Definition add (s : ruleMatchStateSet) (state : ruleMatchState) : ruleMatchStateSet :=
  Z.lor s (singleRuleMatchState state).

Definition merge (s other : ruleMatchStateSet) : ruleMatchStateSet := Z.lor s other.

(** [for state := 0; state < 16; state++] *)
Definition allStates : list ruleMatchState := seqZ 0 16.

Definition combine (s other : ruleMatchStateSet) : ruleMatchStateSet :=
  if isEmpty s || isEmpty other then 0
  else
    fold_left (fun combined left =>
      if negb (containsState s left) then combined
      else
        fold_left (fun combined right =>
          if negb (containsState other right) then combined
          else add combined (Z.lor left right))
          allStates combined)
      allStates 0.

Definition withBase (s : ruleMatchStateSet) (base : ruleMatchState) : ruleMatchStateSet :=
  if isEmpty s then 0
  else
    fold_left (fun acc state =>
      if negb (containsState s state) then acc else add acc (Z.lor state base))
      allStates 0.

Definition filterStates (s : ruleMatchStateSet) (allowed : ruleMatchState -> bool) : ruleMatchStateSet :=
  fold_left (fun filtered state =>
    if negb (containsState s state) then filtered
    else if allowed state then add filtered state else filtered)
    allStates 0.

(** ** Sets of states *)

(** A 4-bit state and a 16-bit set. *)
Definition state_ok (s : Z) : Prop := 0 <= s < 16.
Definition set_ok (s : Z) : Prop := 0 <= s < 2 ^ 16.

(** The states a set stands for. *)
Definition states (s : ruleMatchStateSet) : gset Z :=
  list_to_set (List.filter (containsState s) allStates).

Lemma elem_of_allStates c : c ∈ allStates <-> state_ok c.
Proof. unfold allStates, state_ok. rewrite elem_of_seqZ. lia. Qed.

Lemma single_testbit n m : state_ok n -> 0 <= m -> Z.testbit (singleRuleMatchState n) m = (m =? n).
Proof.
  unfold singleRuleMatchState, wrapu, state_ok; intros Hn Hm.
  rewrite Z.shiftl_1_l, Z.mod_small by
    (split; [apply Z.pow_nonneg; lia | apply Z.pow_lt_mono_r; lia]).
  rewrite Z.pow2_bits_eqb by lia. apply Z.eqb_sym.
Qed.

Lemma contains_testbit s n : state_ok n -> containsState s n = Z.testbit s n.
Proof.
  intros Hn. unfold containsState. pose proof (single_testbit n) as Hs.
  unfold singleRuleMatchState in Hs.
  destruct (Z.testbit s n) eqn:E.
  - apply negb_true_iff, Z.eqb_neq. intros H0.
    pose proof (f_equal (fun z => Z.testbit z n) H0) as H1. cbv beta in H1.
    rewrite Z.land_spec, E, Hs, Z.eqb_refl, Z.bits_0 in H1; [discriminate|done|unfold state_ok in Hn; lia].
  - apply negb_false_iff, Z.eqb_eq, Z.bits_inj'. intros m Hm.
    rewrite Z.land_spec, Hs, Z.bits_0 by done.
    destruct (Z.eqb_spec m n) as [->|]; [rewrite E; done|apply andb_false_r].
Qed.

Lemma elem_of_states s c : c ∈ states s <-> state_ok c /\ Z.testbit s c = true.
Proof.
  unfold states. rewrite elem_of_list_to_set, <- elem_of_allStates.
  rewrite list_elem_of_In, filter_In, <- list_elem_of_In.
  split; intros [H1 H2]; (split; [done|]).
  - rewrite <- contains_testbit; [done|by apply elem_of_allStates].
  - rewrite contains_testbit; [done|by apply elem_of_allStates].
Qed.

Lemma set_ok_high s m : set_ok s -> 16 <= m -> Z.testbit s m = false.
Proof.
  unfold set_ok; intros Hs Hm. destruct (decide (s = 0)) as [->|]; [apply Z.bits_0|].
  apply Z.bits_above_log2; [lia|].
  apply Z.log2_lt_pow2; [lia|]. eapply Z.lt_le_trans; [apply Hs|]. apply Z.pow_le_mono_r; lia.
Qed.

(** A 16-bit word is determined by the states it contains. *)
Lemma states_inj s t : set_ok s -> set_ok t -> states s = states t -> s = t.
Proof.
  intros Hs Ht E. apply Z.bits_inj'. intros m Hm.
  destruct (decide (m < 16)) as [Hlt|Hge].
  - assert (Hiff : m ∈ states s <-> m ∈ states t) by (rewrite E; done).
    rewrite !elem_of_states in Hiff. unfold state_ok in Hiff.
    destruct (Z.testbit s m), (Z.testbit t m); naive_solver lia.
  - rewrite !set_ok_high by (done || lia). done.
Qed.

Lemma states_empty : states 0 = ∅.
Proof. done. Qed.

Global Opaque states.

Lemma set_ok_0 : set_ok 0.
Proof. unfold set_ok. lia. Qed.

Lemma isEmpty_states s : set_ok s -> isEmpty s = true <-> states s = ∅.
Proof.
  intros Hs. unfold isEmpty. rewrite Z.eqb_eq. split; [intros ->; exact states_empty|].
  intros H. apply states_inj; [exact Hs|exact set_ok_0|]. rewrite H. exact (eq_sym states_empty).
Qed.

Lemma isEmpty_false_iff s : set_ok s -> isEmpty s = false <-> exists c, c ∈ states s.
Proof.
  intros Hs. rewrite <- not_true_iff_false, isEmpty_states by done. split.
  - intros H. by apply set_choose_L.
  - intros [c Hc] E. rewrite E in Hc. set_solver.
Qed.

(** *** The operations on sets *)

Lemma single_ok n : state_ok n -> set_ok (singleRuleMatchState n).
Proof. unfold singleRuleMatchState, wrapu, set_ok. intros _. apply Z.mod_pos_bound. done. Qed.

Lemma states_single n : state_ok n -> states (singleRuleMatchState n) = {[ n ]}.
Proof.
  intros Hn. apply set_eq. intros c. rewrite elem_of_states, elem_of_singleton. split.
  - intros [Hc Hb]. rewrite single_testbit, Z.eqb_eq in Hb; [done..|unfold state_ok in Hc; lia].
  - intros ->. rewrite single_testbit, Z.eqb_refl; [done..|unfold state_ok in Hn; lia].
Qed.

Lemma lor_lt n a b : 0 <= n -> 0 <= a < 2 ^ n -> 0 <= b < 2 ^ n -> 0 <= Z.lor a b < 2 ^ n.
Proof.
  intros Hn [Ha Ha'] [Hb Hb']. assert (0 <= Z.lor a b) by (apply Z.lor_nonneg; done).
  split; [done|]. rewrite Z.bounded_iff_bits_nonneg in Ha', Hb' |- * by done.
  intros k Hk. rewrite Z.lor_spec, Ha', Hb' by done. done.
Qed.

Lemma state_lor a b : state_ok a -> state_ok b -> state_ok (Z.lor a b).
Proof. intros Ha Hb. apply (lor_lt 4); [lia|exact Ha|exact Hb]. Qed.

Lemma merge_ok s t : set_ok s -> set_ok t -> set_ok (merge s t).
Proof. apply (lor_lt 16). lia. Qed.

Lemma states_merge s t : states (merge s t) = states s ∪ states t.
Proof.
  apply set_eq. intros c. rewrite elem_of_union, !elem_of_states. unfold merge.
  rewrite Z.lor_spec, orb_true_iff. tauto.
Qed.

Lemma add_ok s n : set_ok s -> state_ok n -> set_ok (add s n).
Proof. intros Hs Hn. apply merge_ok; [done|by apply single_ok]. Qed.

Lemma states_add s n : state_ok n -> states (add s n) = states s ∪ {[ n ]}.
Proof. intros Hn. unfold add. rewrite <- states_single by done. apply states_merge. Qed.

(** A loop over the states that adds [f state] for every state the guard
    accepts: the shape of all three loops. *)
Definition collect (g : Z -> bool) (f : Z -> Z) (l : list Z) (acc : Z) : Z :=
  fold_left (fun acc c => if g c then add acc (f c) else acc) l acc.

Lemma collect_spec g f l acc : set_ok acc -> (forall c, c ∈ l -> g c = true -> state_ok (f c)) ->
  set_ok (collect g f l acc) /\
  forall d, d ∈ states (collect g f l acc) <->
    d ∈ states acc \/ exists c, c ∈ l /\ g c = true /\ d = f c.
Proof.
  revert acc. unfold collect. induction l as [|c l IH]; intros acc Ha Hf; cbn [fold_left].
  { split; [exact Ha|]. intros d. split; [by left|]. intros [?|(c & Hc & _)]; [done|].
    by apply not_elem_of_nil in Hc. }
  assert (Hl : forall c', c' ∈ l -> g c' = true -> state_ok (f c')) by (intros; apply Hf; [by right|done]).
  assert (Hc : g c = true -> state_ok (f c)) by (intros; apply Hf; [by left|done]).
  destruct (g c) eqn:Hg.
  - destruct (IH (add acc (f c)) (add_ok _ _ Ha (Hc eq_refl)) Hl) as [H1 H2].
    split; [exact H1|]. intros d. rewrite H2, states_add, elem_of_union, elem_of_singleton by auto. split.
    + intros [[?| ->]|(c' & ? & ? & ->)]; [by left|right; exists c|right; exists c'];
        (split; [by constructor|done]).
    + intros [?|(c' & Hin & ? & ->)]; [by left; left|].
      apply elem_of_cons in Hin as [->|Hin]; [by left; right|right; eauto].
  - destruct (IH acc Ha Hl) as [H1 H2]. split; [exact H1|]. intros d. rewrite H2. split.
    + intros [?|(c' & ? & ? & ->)]; [by left|right; exists c']. split; [by constructor|done].
    + intros [?|(c' & Hin & ? & ->)]; [by left|].
      apply elem_of_cons in Hin as [->|Hin]; [congruence|right; eauto].
Qed.

Lemma fold_left_ext {A B} (f g : A -> B -> A) l a :
  (forall a b, f a b = g a b) -> fold_left f l a = fold_left g l a.
Proof. intros H. revert a. induction l; intros; cbn; rewrite ?H; auto. Qed.

Lemma filterStates_spec s p : set_ok (filterStates s p) /\
  forall d, d ∈ states (filterStates s p) <-> d ∈ states s /\ p d = true.
Proof.
  unfold filterStates.
  rewrite (fold_left_ext _ (fun acc c => if containsState s c && p c then add acc ((fun c => c) c) else acc))
    by (intros; destruct (containsState s _), (p _); done).
  destruct (collect_spec (fun c => containsState s c && p c) (fun c => c) allStates 0) as [H1 H2];
    [exact set_ok_0|intros c Hc _; by apply elem_of_allStates|].
  split; [exact H1|]. intros d. unfold collect in H2. rewrite H2, states_empty, elem_of_states. split.
  - intros [H|(c & Hc & Hg & ->)]; [by apply not_elem_of_empty in H|]. apply andb_true_iff in Hg as [Hg Hp].
    apply elem_of_allStates in Hc. rewrite contains_testbit in Hg by done. done.
  - intros [[Hd Hb] Hp]. right. exists d. rewrite contains_testbit, Hb, Hp by done.
    split; [by apply elem_of_allStates|done].
Qed.

Lemma withBase_spec s base : set_ok s -> state_ok base -> set_ok (withBase s base) /\
  forall d, d ∈ states (withBase s base) <-> exists c, c ∈ states s /\ d = Z.lor c base.
Proof.
  intros Hs Hb. unfold withBase. destruct (isEmpty s) eqn:E.
  { apply isEmpty_states in E; [|done]. split; [exact set_ok_0|].
    intros d. rewrite E, states_empty. split; [intros H; by apply not_elem_of_empty in H|].
    intros (c & H & _). by apply not_elem_of_empty in H. }
  rewrite (fold_left_ext _ (fun acc c => if containsState s c then add acc (Z.lor c base) else acc))
    by (intros; destruct (containsState s _); done).
  destruct (collect_spec (containsState s) (fun c => Z.lor c base) allStates 0) as [H1 H2];
    [exact set_ok_0|intros c Hc _; apply state_lor; [by apply elem_of_allStates|done]|].
  split; [exact H1|]. intros d. unfold collect in H2. rewrite H2, states_empty. split.
  - intros [H|(c & Hc & Hg & ->)]; [by apply not_elem_of_empty in H|]. apply elem_of_allStates in Hc.
    exists c. rewrite elem_of_states, <- contains_testbit; done.
  - intros (c & Hc & ->). right. exists c. apply elem_of_states in Hc as [Hc Hb'].
    rewrite contains_testbit, elem_of_allStates; done.
Qed.

(** The outer loop of [combine], one left state at a time. *)
Lemma combine_loop s t l acc : set_ok acc -> (forall c, c ∈ l -> state_ok c) ->
  let r := fold_left (fun combined left =>
      if negb (containsState s left) then combined
      else fold_left (fun combined right =>
          if negb (containsState t right) then combined else add combined (Z.lor left right))
          allStates combined) l acc in
  set_ok r /\ forall d, d ∈ states r <->
    d ∈ states acc \/ exists a b, a ∈ l /\ a ∈ states s /\ b ∈ states t /\ d = Z.lor a b.
Proof.
  revert acc. induction l as [|a l IH]; intros acc Ha Hl; cbn [fold_left].
  { split; [exact Ha|]. intros d. split; [by left|]. intros [?|(c & b & Hc & _)]; [done|].
    by apply not_elem_of_nil in Hc. }
  assert (Hok : state_ok a) by (apply Hl; by left).
  assert (Hstep : set_ok (if negb (containsState s a) then acc else collect (containsState t) (Z.lor a) allStates acc) /\
    forall d, d ∈ states (if negb (containsState s a) then acc else collect (containsState t) (Z.lor a) allStates acc) <->
      d ∈ states acc \/ exists b, a ∈ states s /\ b ∈ states t /\ d = Z.lor a b).
  { rewrite contains_testbit by done. destruct (Z.testbit s a) eqn:E; cbn [negb].
    - destruct (collect_spec (containsState t) (Z.lor a) allStates acc) as [H1 H2];
        [done|intros c Hc _; apply state_lor; [done|by apply elem_of_allStates]|].
      split; [done|]. intros d. rewrite H2. apply or_iff_compat_l. split.
      + intros (b & Hb & Hg & ->). apply elem_of_allStates in Hb. exists b.
        rewrite !elem_of_states, <- (contains_testbit t); done.
      + intros (b & _ & Hb & ->). apply elem_of_states in Hb as [Hb Hb']. exists b.
        rewrite contains_testbit, elem_of_allStates; done.
    - split; [exact Ha|]. intros d. split; [by left|]. intros [?|(b & Hs & _)]; [done|].
      apply elem_of_states in Hs as [_ Hs]. congruence. }
  unfold collect in Hstep.
  rewrite (fold_left_ext (fun combined right => if negb (containsState t right) then combined else add combined (Z.lor a right))
             (fun acc c => if containsState t c then add acc (Z.lor a c) else acc))
    by (intros; destruct (containsState t _); done).
  destruct Hstep as [H1 H2]. destruct (IH _ H1) as [H3 H4]; [intros; apply Hl; by right|].
  split; [exact H3|]. intros d. rewrite H4, H2. split.
  - intros [[?|(b & ? & ? & ->)]|(a' & b & ? & ? & ? & ->)]; [by left|right..].
    + exists a, b. split; [by left|done].
    + exists a', b. split; [by right|done].
  - intros [?|(a' & b & Hin & ? & ? & ->)]; [by left; left|].
    apply elem_of_cons in Hin as [->|Hin]; [left; right|right]; eauto 10.
Qed.

Lemma combine_spec s t : set_ok s -> set_ok t -> set_ok (combine s t) /\
  forall d, d ∈ states (combine s t) <-> exists a b, a ∈ states s /\ b ∈ states t /\ d = Z.lor a b.
Proof.
  intros Hs Ht. unfold combine. destruct (isEmpty s || isEmpty t) eqn:E.
  { split; [exact set_ok_0|]. intros d. rewrite states_empty. split; [intros H; by apply not_elem_of_empty in H|].
    intros (a & b & Ha & Hb & _). exfalso.
    apply orb_true_iff in E as [E|E]; apply isEmpty_states in E; [|done| |done].
    - rewrite E in Ha. by apply not_elem_of_empty in Ha.
    - rewrite E in Hb. by apply not_elem_of_empty in Hb. }
  destruct (combine_loop s t allStates 0) as [H1 H2];
    [exact set_ok_0|intros c; apply elem_of_allStates|].
  split; [exact H1|]. intros d. rewrite H2, states_empty. split.
  - intros [H|(a & b & _ & ? & ? & ->)]; [by apply not_elem_of_empty in H|eauto].
  - intros (a & b & Ha & Hb & ->). right. exists a, b.
    repeat split; [|done..]. apply elem_of_allStates. by apply elem_of_states in Ha as [? _].
Qed.

(** *** Bits of a state *)

Lemma has_bit s n : 0 <= n -> has s (2 ^ n) = Z.testbit s n.
Proof.
  intros Hn. unfold has. destruct (Z.testbit s n) eqn:E.
  - apply negb_true_iff, Z.eqb_neq. intros H0.
    pose proof (f_equal (fun z => Z.testbit z n) H0) as H1. cbv beta in H1.
    rewrite Z.land_spec, E, Z.pow2_bits_true, Z.bits_0 in H1; [discriminate|lia].
  - apply negb_false_iff, Z.eqb_eq, Z.bits_inj'. intros m Hm.
    rewrite Z.land_spec, Z.bits_0, Z.pow2_bits_eqb by lia.
    destruct (Z.eqb_spec n m) as [<-|]; [rewrite E; done|apply andb_false_r].
Qed.

Lemma has_lor s t n : 0 <= n -> has (Z.lor s t) (2 ^ n) = has s (2 ^ n) || has t (2 ^ n).
Proof. intros Hn. rewrite !has_bit by done. apply Z.lor_spec. Qed.

(** On 16-bit words the operations of [ruleMatchStateSet] are the operations
    of sets of 4-bit states: union, pairwise union of bits, union with a base,
    selection, singleton and emptiness, and they stay within 16 bits. *)
Theorem stateset_refines_sets s t base allowed : set_ok s -> set_ok t -> state_ok base ->
  (set_ok (merge s t) /\ states (merge s t) = states s ∪ states t) /\
  (set_ok (combine s t) /\
   forall d, d ∈ states (combine s t) <-> exists a b, a ∈ states s /\ b ∈ states t /\ d = Z.lor a b) /\
  (set_ok (withBase s base) /\
   forall d, d ∈ states (withBase s base) <-> exists a, a ∈ states s /\ d = Z.lor a base) /\
  (set_ok (filterStates s allowed) /\
   forall d, d ∈ states (filterStates s allowed) <-> d ∈ states s /\ allowed d = true) /\
  (set_ok (singleRuleMatchState base) /\ states (singleRuleMatchState base) = {[ base ]}) /\
  (isEmpty s = true <-> states s = ∅).
Proof.
  intros Hs Ht Hb. split; [split; [by apply merge_ok|apply states_merge]|].
  split; [by apply combine_spec|]. split; [by apply withBase_spec|]. split; [apply filterStates_spec|].
  split; [split; [by apply single_ok|by apply states_single]|]. by apply isEmpty_states.
Qed.

(** Two sets of two states each. *)
Lemma stateset_refines_sets_witness :
  combine 0x0006 0x0012 = 0x006A /\ states (merge 0x0006 0x0012) = states 0x0006 ∪ states 0x0012.
Proof.
  split; [vm_compute; reflexivity|].
  refine (proj2 (proj1 (stateset_refines_sets 0x0006 0x0012 1 (fun _ => true) _ _ _)));
    vm_compute; split; congruence.
Defined.
