(* ===== verification/RuleItems.v ===== *)
(** * Conditions of route and DNS rules

    The metadata a rule is matched against ([src/adapter/inbound.go]) and the
    rule items of [src/route/rule/rule_item_*.go]: one constructor per item
    type, one constructor function per [New...Item], and [Match] by cases.

    A Go map from keys to [true] is the set of its keys; the fields an item only
    keeps for its [String] method are left out.  The address sets, domain
    matchers and DNS library of the source's dependencies, and the parsers and
    Unicode tables of the Go standard library, are the operations of [RuleEnv]. *)

From S2P Require Import Prelude GoStrings.

Local Open Scope string_scope.
Local Open Scope list_scope.
Local Open Scope Z_scope.

(** ** Addresses and messages *)

(** [net/netip.Addr]: the zero value, an IPv4 address, an IPv6 address. *)
Inductive Addr :=
| AddrZero
| Addr4 (v : Z)
| Addr6 (v : Z) (zone : string).

#[export] Instance Addr_eq_dec : EqDecision Addr.
Proof. solve_decision. Defined.

Definition addrIsValid (a : Addr) : bool := match a with AddrZero => false | _ => true end.
Definition Is4 (a : Addr) : bool := match a with Addr4 _ => true | _ => false end.
Definition Is6 (a : Addr) : bool := match a with Addr6 _ _ => true | _ => false end.

(** [::ffff:0:0/96], the IPv4-mapped addresses, become IPv4 addresses. *)
Definition Unmap (a : Addr) : Addr :=
  match a with
  | Addr6 v _ => if v / 2 ^ 32 =? 0xFFFF then Addr4 (v mod 2 ^ 32) else a
  | _ => a
  end.

(** [M.Socksaddr] *)
Record Socksaddr := mkSocksaddr { sockAddr : Addr; sockPort : Z; sockFqdn : string }.

Definition noSocksaddr : Socksaddr := mkSocksaddr AddrZero 0 "".

(** [net.IP], a byte slice. *)
Abbreviation IP := (list Z) (only parsing).

(** The records of [github.com/miekg/dns] the source looks into. *)
Inductive SVCBValue :=
| SVCBIPv4Hint (hint : list IP)
| SVCBIPv6Hint (hint : list IP)
| SVCBOther.

(** [dns.RR_Header] *)
Record RR_Header := mkHeader { hdrName : string; hdrRrtype : Z; hdrClass : Z; hdrTtl : Z }.

(** Options of an OPT record: client subnets, with what their answers say of the
    scope, and others. *)
Inductive EDNS0 :=
| EDNS0_SUBNET (family netmask scope : Z) (address : IP)
| EDNS0_Other (text : string).

(** A record of another type has its data as text. *)
Inductive RData :=
| RD_A (ip : IP)
| RD_AAAA (ip : IP)
| RD_HTTPS (text : string) (value : list SVCBValue)
| RD_CNAME (target : string)
| RD_TXT (txt : list string)
| RD_MX (preference : Z) (mx : string)
| RD_SOA (text : string) (minttl : Z)
| RD_OPT (options : list EDNS0)
| RD_Other (text : string).

Record RR := mkRR { rrHeader : RR_Header; rrData : RData }.

Record Question := mkQuestion { Qname : string; Qtype : Z; Qclass : Z }.

(** [dns.Msg], with the flags of the header the source sets. *)
Record Msg := mkMsg {
  msgId : Z;
  msgResponse : bool;
  msgAuthoritative : bool;
  msgRecursionDesired : bool;
  msgRecursionAvailable : bool;
  Rcode : Z;
  msgQuestion : list Question;
  Answer : list RR;
  Ns : list RR;
  Extra : list RR;
}.

Definition RcodeSuccess : Z := 0.
Definition RcodeFormatError : Z := 1.
Definition RcodeRefused : Z := 5.
Definition TypeA : Z := 1.
Definition TypeAAAA : Z := 28.
Definition TypeHTTPS : Z := 65.
Definition ClassINET : Z := 1.

(** [adapter.ConnectionOwner] *)
Record ConnectionOwner := mkConnectionOwner {
  UserId : Z;
  UserName : string;
  ProcessPath : string;
  AndroidPackageNames : list string;
}.

(** [adapter.InboundContext], the fields rules read and write. *)
Record InboundContext := mkInboundContext {
  Inbound : string;
  IPVersion : Z;
  Network : string;
  Source : Socksaddr;
  Destination : Socksaddr;
  User : string;
  Outbound : string;
  Protocol : string;
  Domain : string;
  Client : string;
  DestinationAddresses : list Addr;
  DNSResponse : option Msg;
  DestinationAddressMatchFromResponse : bool;
  ProcessInfo : option ConnectionOwner;
  SourceMACAddress : option string;
  SourceHostname : string;
  QueryType : Z;
  IPCIDRMatchSource : bool;
  IPCIDRAcceptEmpty : bool;
  SourceAddressMatch : bool;
  SourcePortMatch : bool;
  DestinationAddressMatch : bool;
  DestinationPortMatch : bool;
  DidMatch : bool;
  IgnoreDestinationIPCIDRMatch : bool;
}.

Definition set_Destination (v : Socksaddr) (c : InboundContext) : InboundContext :=
  mkInboundContext (c.(Inbound)) (c.(IPVersion)) (c.(Network)) (c.(Source)) v (c.(User))
    (c.(Outbound)) (c.(Protocol)) (c.(Domain)) (c.(Client)) (c.(DestinationAddresses))
    (c.(DNSResponse)) (c.(DestinationAddressMatchFromResponse)) (c.(ProcessInfo))
    (c.(SourceMACAddress)) (c.(SourceHostname)) (c.(QueryType)) (c.(IPCIDRMatchSource))
    (c.(IPCIDRAcceptEmpty)) (c.(SourceAddressMatch)) (c.(SourcePortMatch))
    (c.(DestinationAddressMatch)) (c.(DestinationPortMatch)) (c.(DidMatch))
    (c.(IgnoreDestinationIPCIDRMatch)).
Definition set_Domain (v : string) (c : InboundContext) : InboundContext :=
  mkInboundContext (c.(Inbound)) (c.(IPVersion)) (c.(Network)) (c.(Source)) (c.(Destination))
    (c.(User)) (c.(Outbound)) (c.(Protocol)) v (c.(Client)) (c.(DestinationAddresses))
    (c.(DNSResponse)) (c.(DestinationAddressMatchFromResponse)) (c.(ProcessInfo))
    (c.(SourceMACAddress)) (c.(SourceHostname)) (c.(QueryType)) (c.(IPCIDRMatchSource))
    (c.(IPCIDRAcceptEmpty)) (c.(SourceAddressMatch)) (c.(SourcePortMatch))
    (c.(DestinationAddressMatch)) (c.(DestinationPortMatch)) (c.(DidMatch))
    (c.(IgnoreDestinationIPCIDRMatch)).
Definition set_QueryType (v : Z) (c : InboundContext) : InboundContext :=
  mkInboundContext (c.(Inbound)) (c.(IPVersion)) (c.(Network)) (c.(Source)) (c.(Destination))
    (c.(User)) (c.(Outbound)) (c.(Protocol)) (c.(Domain)) (c.(Client)) (c.(DestinationAddresses))
    (c.(DNSResponse)) (c.(DestinationAddressMatchFromResponse)) (c.(ProcessInfo))
    (c.(SourceMACAddress)) (c.(SourceHostname)) v (c.(IPCIDRMatchSource)) (c.(IPCIDRAcceptEmpty))
    (c.(SourceAddressMatch)) (c.(SourcePortMatch)) (c.(DestinationAddressMatch))
    (c.(DestinationPortMatch)) (c.(DidMatch)) (c.(IgnoreDestinationIPCIDRMatch)).
Definition set_IPVersion (v : Z) (c : InboundContext) : InboundContext :=
  mkInboundContext (c.(Inbound)) v (c.(Network)) (c.(Source)) (c.(Destination)) (c.(User))
    (c.(Outbound)) (c.(Protocol)) (c.(Domain)) (c.(Client)) (c.(DestinationAddresses))
    (c.(DNSResponse)) (c.(DestinationAddressMatchFromResponse)) (c.(ProcessInfo))
    (c.(SourceMACAddress)) (c.(SourceHostname)) (c.(QueryType)) (c.(IPCIDRMatchSource))
    (c.(IPCIDRAcceptEmpty)) (c.(SourceAddressMatch)) (c.(SourcePortMatch))
    (c.(DestinationAddressMatch)) (c.(DestinationPortMatch)) (c.(DidMatch))
    (c.(IgnoreDestinationIPCIDRMatch)).
Definition set_DNSResponse (v : option Msg) (c : InboundContext) : InboundContext :=
  mkInboundContext (c.(Inbound)) (c.(IPVersion)) (c.(Network)) (c.(Source)) (c.(Destination))
    (c.(User)) (c.(Outbound)) (c.(Protocol)) (c.(Domain)) (c.(Client)) (c.(DestinationAddresses)) v
    (c.(DestinationAddressMatchFromResponse)) (c.(ProcessInfo)) (c.(SourceMACAddress))
    (c.(SourceHostname)) (c.(QueryType)) (c.(IPCIDRMatchSource)) (c.(IPCIDRAcceptEmpty))
    (c.(SourceAddressMatch)) (c.(SourcePortMatch)) (c.(DestinationAddressMatch))
    (c.(DestinationPortMatch)) (c.(DidMatch)) (c.(IgnoreDestinationIPCIDRMatch)).
Definition set_FromResponse (v : bool) (c : InboundContext) : InboundContext :=
  mkInboundContext (c.(Inbound)) (c.(IPVersion)) (c.(Network)) (c.(Source)) (c.(Destination))
    (c.(User)) (c.(Outbound)) (c.(Protocol)) (c.(Domain)) (c.(Client)) (c.(DestinationAddresses))
    (c.(DNSResponse)) v (c.(ProcessInfo)) (c.(SourceMACAddress)) (c.(SourceHostname))
    (c.(QueryType)) (c.(IPCIDRMatchSource)) (c.(IPCIDRAcceptEmpty)) (c.(SourceAddressMatch))
    (c.(SourcePortMatch)) (c.(DestinationAddressMatch)) (c.(DestinationPortMatch)) (c.(DidMatch))
    (c.(IgnoreDestinationIPCIDRMatch)).
Definition set_MatchSource (v : bool) (c : InboundContext) : InboundContext :=
  mkInboundContext (c.(Inbound)) (c.(IPVersion)) (c.(Network)) (c.(Source)) (c.(Destination))
    (c.(User)) (c.(Outbound)) (c.(Protocol)) (c.(Domain)) (c.(Client)) (c.(DestinationAddresses))
    (c.(DNSResponse)) (c.(DestinationAddressMatchFromResponse)) (c.(ProcessInfo))
    (c.(SourceMACAddress)) (c.(SourceHostname)) (c.(QueryType)) v (c.(IPCIDRAcceptEmpty))
    (c.(SourceAddressMatch)) (c.(SourcePortMatch)) (c.(DestinationAddressMatch))
    (c.(DestinationPortMatch)) (c.(DidMatch)) (c.(IgnoreDestinationIPCIDRMatch)).
Definition set_AcceptEmpty (v : bool) (c : InboundContext) : InboundContext :=
  mkInboundContext (c.(Inbound)) (c.(IPVersion)) (c.(Network)) (c.(Source)) (c.(Destination))
    (c.(User)) (c.(Outbound)) (c.(Protocol)) (c.(Domain)) (c.(Client)) (c.(DestinationAddresses))
    (c.(DNSResponse)) (c.(DestinationAddressMatchFromResponse)) (c.(ProcessInfo))
    (c.(SourceMACAddress)) (c.(SourceHostname)) (c.(QueryType)) (c.(IPCIDRMatchSource)) v
    (c.(SourceAddressMatch)) (c.(SourcePortMatch)) (c.(DestinationAddressMatch))
    (c.(DestinationPortMatch)) (c.(DidMatch)) (c.(IgnoreDestinationIPCIDRMatch)).
Definition set_DidMatch (v : bool) (c : InboundContext) : InboundContext :=
  mkInboundContext (c.(Inbound)) (c.(IPVersion)) (c.(Network)) (c.(Source)) (c.(Destination))
    (c.(User)) (c.(Outbound)) (c.(Protocol)) (c.(Domain)) (c.(Client)) (c.(DestinationAddresses))
    (c.(DNSResponse)) (c.(DestinationAddressMatchFromResponse)) (c.(ProcessInfo))
    (c.(SourceMACAddress)) (c.(SourceHostname)) (c.(QueryType)) (c.(IPCIDRMatchSource))
    (c.(IPCIDRAcceptEmpty)) (c.(SourceAddressMatch)) (c.(SourcePortMatch))
    (c.(DestinationAddressMatch)) (c.(DestinationPortMatch)) v (c.(IgnoreDestinationIPCIDRMatch)).
Definition set_IgnoreCIDR (v : bool) (c : InboundContext) : InboundContext :=
  mkInboundContext (c.(Inbound)) (c.(IPVersion)) (c.(Network)) (c.(Source)) (c.(Destination))
    (c.(User)) (c.(Outbound)) (c.(Protocol)) (c.(Domain)) (c.(Client)) (c.(DestinationAddresses))
    (c.(DNSResponse)) (c.(DestinationAddressMatchFromResponse)) (c.(ProcessInfo))
    (c.(SourceMACAddress)) (c.(SourceHostname)) (c.(QueryType)) (c.(IPCIDRMatchSource))
    (c.(IPCIDRAcceptEmpty)) (c.(SourceAddressMatch)) (c.(SourcePortMatch))
    (c.(DestinationAddressMatch)) (c.(DestinationPortMatch)) (c.(DidMatch)) v.

Definition ResetRuleMatchCache (c : InboundContext) : InboundContext :=
  mkInboundContext (c.(Inbound)) (c.(IPVersion)) (c.(Network)) (c.(Source)) (c.(Destination))
    (c.(User)) (c.(Outbound)) (c.(Protocol)) (c.(Domain)) (c.(Client)) (c.(DestinationAddresses))
    (c.(DNSResponse)) (c.(DestinationAddressMatchFromResponse)) (c.(ProcessInfo))
    (c.(SourceMACAddress)) (c.(SourceHostname)) (c.(QueryType)) (c.(IPCIDRMatchSource))
    (c.(IPCIDRAcceptEmpty)) false false false false false (c.(IgnoreDestinationIPCIDRMatch)).

Definition ResetRuleCache (c : InboundContext) : InboundContext :=
  ResetRuleMatchCache (set_AcceptEmpty false (set_MatchSource false c)).

(** ** The libraries the items call *)

Class RuleEnv := {
  (** [sing/common/exceptions] *)
  re_exceptions :: Exceptions;
  E_Extend : error -> list string -> error;
  (** [go4.org/netipx] and [net/netip] *)
  IPSet : Type;
  ipset_Contains : IPSet -> Addr -> bool;
  Prefix : Type;
  Overlaps : Prefix -> Prefix -> bool;
  ParsePrefix : string -> result error Prefix;
  ParseAddr : string -> result error Addr;
  BuildIPSet : list (Prefix + Addr) -> result error IPSet;
  (** [sing/common/domain] *)
  Matcher : Type;
  NewMatcher : list string -> list string -> Matcher;
  matcher_Match : Matcher -> string -> bool;
  AdGuardMatcher : Type;
  NewAdGuardMatcher : list string -> AdGuardMatcher;
  adguard_Match : AdGuardMatcher -> string -> bool;
  (** [sing/common/metadata] and [sing/common/network] *)
  socksIsIP : Socksaddr -> bool;
  socksIsIPv4 : Socksaddr -> bool;
  socksIsIPv6 : Socksaddr -> bool;
  AddrFromIP : IP -> Addr;
  IsPublicAddr : Addr -> bool;
  (** [github.com/miekg/dns] *)
  IsDuplicate : RR -> RR -> bool;
  (** [regexp], [net], [strings] *)
  Regexp : Type;
  CompileRegexp : string -> result error Regexp;
  MatchString : Regexp -> string -> bool;
  ParseMAC : string -> option string;
  ToLower : string -> string;
  EqualFold : string -> string -> bool;
  (** [C.IsAndroid], a constant of the build *)
  IsAndroid : bool;
}.

Section Items.
Context `{RE : RuleEnv}.

(** [DNSResponseAddresses] of [src/adapter/inbound.go] *)
Definition valid_addresses (l : list Addr) : list Addr := List.filter addrIsValid l.

Definition svcbAddresses (v : SVCBValue) : list Addr :=
  match v with
  | SVCBIPv4Hint hint => valid_addresses (map (fun ip => Unmap (AddrFromIP ip)) hint)
  | SVCBIPv6Hint hint => valid_addresses (map AddrFromIP hint)
  | SVCBOther => []
  end.

Definition recordAddresses (r : RR) : list Addr :=
  match r.(rrData) with
  | RD_A ip | RD_AAAA ip => valid_addresses [AddrFromIP ip]
  | RD_HTTPS _ value => List.concat (map svcbAddresses value)
  | _ => []
  end.

Definition DNSResponseAddresses (response : option Msg) : list Addr :=
  match response with
  | None => []
  | Some m =>
      if negb (m.(Rcode) =? RcodeSuccess) then []
      else List.concat (map recordAddresses m.(Answer))
  end.

Definition DNSResponseAddressesForMatch (c : InboundContext) : list Addr :=
  DNSResponseAddresses c.(DNSResponse).

(** ** What the items read outside the metadata

    The state of the network manager, the Clash API server and the outbounds
    at the time of the match. *)
Record NetworkInterface := mkNetworkInterface {
  niType : Z;
  niExpensive : bool;
  niConstrained : bool;
  niAddresses : list Prefix;
}.

Record NetView := mkNetView {
  DefaultNetworkInterface : option NetworkInterface;
  WIFIState_SSID : string;
  WIFIState_BSSID : string;
  NetworkInterfaces : list NetworkInterface;
  FinderInterfaces : list (string * list Prefix);
  MonitorDefaultInterface : option (list Prefix);
  ClashMode : string;
  PreferredDomain : string -> string -> bool;
  PreferredAddress : string -> Addr -> bool;
}.

(** ** The items *)
Inductive RuleItem :=
| InboundItem (inboundMap : gset string)
| IPVersionItem (isIPv6 : bool)
| NetworkItem (networkMap : gset string)
| AuthUserItem (userMap : gset string)
| ProtocolItem (protocolMap : gset string)
| ClientItem (clientMap : gset string)
| DomainItem (matcher : Matcher)
| DomainKeywordItem (keywords : list string)
| DomainRegexItem (matchers : list Regexp)
| AdGuardDomainItem (matcher : AdGuardMatcher)
| IPCIDRItem (ipSet : IPSet) (isSource : bool)
| IPIsPrivateItem (isSource : bool)
| IPAcceptAnyItem
| PortItem (portMap : gset Z) (isSource : bool)
| PortRangeItem (isSource : bool) (portRangeList : list (Z * Z))
| QueryTypeItem (typeMap : gset Z)
| ProcessItem (processMap : gset string)
| ProcessPathItem (processMap : gset string)
| ProcessPathRegexItem (matchers : list Regexp)
| PackageNameItem (packageMap : gset string)
| UserItem (userMap : gset string)
| UserIdItem (userIdMap : gset Z)
| OutboundItem (outboundMap : gset string) (matchAny : bool)
| ClashModeItem (clashServer : bool) (mode : string)
| NetworkTypeItem (networkType : list Z)
| NetworkIsExpensiveItem
| NetworkIsConstrainedItem
| WIFISSIDItem (ssidMap : gset string)
| WIFIBSSIDItem (bssidMap : gset string)
| InterfaceAddressItem (interfaceAddresses : gmap string (list Prefix))
| NetworkInterfaceAddressItem (interfaceAddresses : gmap Z (list Prefix))
| DefaultInterfaceAddressItem (interfaceAddresses : list Prefix)
| SourceMACAddressItem (addressMap : gset string)
| SourceHostnameItem (hostnameMap : gset string)
| PreferredByItem (outboundTags outbounds : list string)
| DNSResponseRCodeItem (rcode : Z)
| DNSResponseRecordItem (records : list RR) (selector : Msg -> list RR).

(** *** Constructors *)

Definition NewInboundRule (inbounds : list string) : RuleItem := InboundItem (list_to_set inbounds).
Definition NewIPVersionItem (isIPv6 : bool) : RuleItem := IPVersionItem isIPv6.
Definition NewNetworkItem (networks : list string) : RuleItem := NetworkItem (list_to_set networks).
Definition NewAuthUserItem (users : list string) : RuleItem := AuthUserItem (list_to_set users).
Definition NewProtocolItem (protocols : list string) : RuleItem := ProtocolItem (list_to_set protocols).
Definition NewClientItem (clients : list string) : RuleItem := ClientItem (list_to_set clients).

Definition NewDomainItem (domains domainSuffixes : list string) : result error RuleItem :=
  if List.existsb (String.eqb "") domains then Err (E_New ["domain: empty item is not allowed"])
  else if List.existsb (String.eqb "") domainSuffixes then Err (E_New ["domain_suffix: empty item is not allowed"])
  else Ok (DomainItem (NewMatcher domains domainSuffixes)).

Definition NewRawDomainItem (matcher : Matcher) : RuleItem := DomainItem matcher.
Definition NewDomainKeywordItem (keywords : list string) : RuleItem := DomainKeywordItem keywords.

(** The loop over the expressions, from index [i]: the first one that does not
    compile is the error. *)
Fixpoint compileAll (i : Z) (expressions : list string) : result error (list Regexp) :=
  match expressions with
  | [] => Ok []
  | regex :: rest =>
      match CompileRegexp regex with
      | Err err => Err (E_Cause err ["parse expression "; itoa i])
      | Ok matcher =>
          match compileAll (i + 1) rest with
          | Err e => Err e
          | Ok matchers => Ok (matcher :: matchers)
          end
      end
  end.

Definition NewDomainRegexItem (expressions : list string) : result error RuleItem :=
  match compileAll 0 expressions with Err e => Err e | Ok matchers => Ok (DomainRegexItem matchers) end.

Definition NewProcessPathRegexItem (expressions : list string) : result error RuleItem :=
  match compileAll 0 expressions with Err e => Err e | Ok matchers => Ok (ProcessPathRegexItem matchers) end.

Definition NewAdGuardDomainItem (ruleLines : list string) : RuleItem :=
  AdGuardDomainItem (NewAdGuardMatcher ruleLines).
Definition NewRawAdGuardDomainItem (matcher : AdGuardMatcher) : RuleItem := AdGuardDomainItem matcher.

(** The builder loop of [NewIPCIDRItem]: a prefix, else a single address, else
    the error of the prefix parser. *)
Fixpoint parsePrefixes (i : Z) (prefixStrings : list string) : result error (list (Prefix + Addr)) :=
  match prefixStrings with
  | [] => Ok []
  | s :: rest =>
      let parsed :=
        match ParsePrefix s with
        | Ok p => Ok (inl p)
        | Err err =>
            match ParseAddr s with
            | Ok a => Ok (inr a)
            | Err _ => Err (E_Cause err ["parse ["; itoa i; "]"])
            end
        end in
      match parsed with
      | Err e => Err e
      | Ok x => match parsePrefixes (i + 1) rest with Err e => Err e | Ok l => Ok (x :: l) end
      end
  end.

Definition NewIPCIDRItem (isSource : bool) (prefixStrings : list string) : result error RuleItem :=
  match parsePrefixes 0 prefixStrings with
  | Err e => Err e
  | Ok l => match BuildIPSet l with Err e => Err e | Ok ipSet => Ok (IPCIDRItem ipSet isSource) end
  end.

Definition NewRawIPCIDRItem (isSource : bool) (ipSet : IPSet) : RuleItem := IPCIDRItem ipSet isSource.
Definition NewIPIsPrivateItem (isSource : bool) : RuleItem := IPIsPrivateItem isSource.
Definition NewIPAcceptAnyItem : RuleItem := IPAcceptAnyItem.
Definition NewPortItem (isSource : bool) (ports : list Z) : RuleItem := PortItem (list_to_set ports) isSource.

(** [strconv.ParseUint(s, 10, 16)]: digits only, at most 65535. *)
Definition parseUint16 (s : string) : result error Z :=
  let fail (why : string) := Err (Errorf ("strconv.ParseUint: parsing " +:+ Quote s +:+ ": " +:+ why)) in
  match s with
  | EmptyString => fail "invalid syntax"
  | _ => match digits_val 0 s with
         | Some v => if v <? 2 ^ 16 then Ok v else fail "value out of range"
         | None => fail "invalid syntax"
         end
  end.

Definition ErrBadPortRange : error := E_New ["bad port range"].

(** One element of the range list: [start:end], [:end] or [start:]. *)
Definition parsePortRange (portRange : string) : result error (Z * Z) :=
  match cut ":"%char portRange with
  | None => Err (E_Extend ErrBadPortRange [portRange])
  | Some (low, high) =>
      match (match low with EmptyString => Ok 0 | _ => parseUint16 low end) with
      | Err err => Err (E_Cause err [Error (E_Extend ErrBadPortRange [portRange])])
      | Ok start =>
          match (match high with EmptyString => Ok 0xFFFF | _ => parseUint16 high end) with
          | Err err => Err (E_Cause err [Error (E_Extend ErrBadPortRange [portRange])])
          | Ok end_ => Ok (start, end_)
          end
      end
  end.

Fixpoint parsePortRanges (rangeList : list string) : result error (list (Z * Z)) :=
  match rangeList with
  | [] => Ok []
  | r :: rest =>
      match parsePortRange r with
      | Err e => Err e
      | Ok p => match parsePortRanges rest with Err e => Err e | Ok l => Ok (p :: l) end
      end
  end.

Definition NewPortRangeItem (isSource : bool) (rangeList : list string) : result error RuleItem :=
  match parsePortRanges rangeList with Err e => Err e | Ok l => Ok (PortRangeItem isSource l) end.

Definition NewQueryTypeItem (typeList : list Z) : RuleItem := QueryTypeItem (list_to_set typeList).
Definition NewProcessItem (l : list string) : RuleItem := ProcessItem (list_to_set l).
Definition NewProcessPathItem (l : list string) : RuleItem := ProcessPathItem (list_to_set l).
Definition NewPackageNameItem (l : list string) : RuleItem := PackageNameItem (list_to_set l).
Definition NewUserItem (users : list string) : RuleItem := UserItem (list_to_set users).
Definition NewUserIDItem (userIdList : list Z) : RuleItem := UserIdItem (list_to_set userIdList).

(** ["any"] sets [matchAny] instead of entering the map. *)
Definition NewOutboundRule (outbounds : list string) : RuleItem :=
  OutboundItem (list_to_set (List.filter (fun o => negb (String.eqb o "any")) outbounds))
    (List.existsb (String.eqb "any") outbounds).

Definition NewClashModeItem (mode : string) : RuleItem := ClashModeItem false mode.
Definition NewNetworkTypeItem (networkType : list Z) : RuleItem := NetworkTypeItem networkType.
Definition NewNetworkIsExpensiveItem : RuleItem := NetworkIsExpensiveItem.
Definition NewNetworkIsConstrainedItem : RuleItem := NetworkIsConstrainedItem.
Definition NewWIFISSIDItem (l : list string) : RuleItem := WIFISSIDItem (list_to_set l).
Definition NewWIFIBSSIDItem (l : list string) : RuleItem := WIFIBSSIDItem (list_to_set l).

(** Entries in order, a later one replacing an earlier one of the same key. *)
Definition NewInterfaceAddressItem (entries : list (string * list Prefix)) : RuleItem :=
  InterfaceAddressItem (fold_left (fun m e => <[ e.1 := e.2 ]> m) entries ∅).
Definition NewNetworkInterfaceAddressItem (entries : list (Z * list Prefix)) : RuleItem :=
  NetworkInterfaceAddressItem (fold_left (fun m e => <[ e.1 := e.2 ]> m) entries ∅).
Definition NewDefaultInterfaceAddressItem (l : list Prefix) : RuleItem := DefaultInterfaceAddressItem l.

(** Addresses that parse are stored in canonical form, the others as given. *)
Definition NewSourceMACAddressItem (addressList : list string) : RuleItem :=
  SourceMACAddressItem (list_to_set (map (fun a => default a (ParseMAC a)) addressList)).
Definition NewSourceHostnameItem (l : list string) : RuleItem := SourceHostnameItem (list_to_set l).
Definition NewPreferredByItem (outboundTags : list string) : RuleItem := PreferredByItem outboundTags [].
Definition NewDNSResponseRCodeItem (rcode : Z) : RuleItem := DNSResponseRCodeItem rcode.
Definition NewDNSResponseRecordItem (records : list RR) (selector : Msg -> list RR) : RuleItem :=
  DNSResponseRecordItem records selector.

(** *** Match *)

Abbreviation isIn := (fun x s => bool_decide (x ∈ s)).

(** The domain of the metadata: the sniffed one, else the destination's. *)
Definition domainHost (c : InboundContext) : string :=
  if String.eqb c.(Domain) "" then c.(Destination).(sockFqdn) else c.(Domain).

(** [filepath.Base] on a Unix path. *)
Fixpoint dropSlashes (s : string) : string :=
  match s with
  | String c s' => if Ascii.eqb c "/"%char then dropSlashes s' else s
  | EmptyString => EmptyString
  end.
Fixpoint takeToSlash (s : string) : string :=
  match s with
  | String c s' => if Ascii.eqb c "/"%char then EmptyString else String c (takeToSlash s')
  | EmptyString => EmptyString
  end.
Definition filepathBase (path : string) : string :=
  if String.eqb path "" then "."
  else
    match dropSlashes (str_rev path) with
    | EmptyString => "/"
    | r => str_rev (takeToSlash r)
    end.

Definition matchIPCIDR (ipSet : IPSet) (isSource : bool) (c : InboundContext) : bool :=
  if isSource || c.(IPCIDRMatchSource) then ipset_Contains ipSet c.(Source).(sockAddr)
  else if c.(DestinationAddressMatchFromResponse) then
    match DNSResponseAddressesForMatch c with
    | [] => c.(IPCIDRAcceptEmpty)
    | addresses => List.existsb (ipset_Contains ipSet) addresses
    end
  else if socksIsIP c.(Destination) then ipset_Contains ipSet c.(Destination).(sockAddr)
  else
    match c.(DestinationAddresses) with
    | [] => c.(IPCIDRAcceptEmpty)
    | addresses => List.existsb (ipset_Contains ipSet) addresses
    end.

Definition isPrivate (a : Addr) : bool := negb (IsPublicAddr a).

Definition matchIPIsPrivate (isSource : bool) (c : InboundContext) : bool :=
  if isSource then isPrivate c.(Source).(sockAddr)
  else if c.(DestinationAddressMatchFromResponse) then List.existsb isPrivate (DNSResponseAddressesForMatch c)
  else if addrIsValid c.(Destination).(sockAddr) then isPrivate c.(Destination).(sockAddr)
  else List.existsb isPrivate c.(DestinationAddresses).

Definition matchPreferredBy (outbounds : list string) (n : NetView) (c : InboundContext) : bool :=
  let host := domainHost c in
  (negb (String.eqb host "") && List.existsb (fun o => n.(PreferredDomain) o host) outbounds)
  || (socksIsIP c.(Destination) &&
      List.existsb (fun o => n.(PreferredAddress) o c.(Destination).(sockAddr)) outbounds)
  || List.existsb (fun a => List.existsb (fun o => n.(PreferredAddress) o a) outbounds) c.(DestinationAddresses).

Definition matchInterfaceAddress (entries : gmap string (list Prefix)) (n : NetView) : bool :=
  forallb (fun '(ifName, addresses) =>
    match List.find (fun it => String.eqb it.1 ifName) n.(FinderInterfaces) with
    | None => false
    | Some (name, ifAddresses) =>
        negb (String.eqb name "") &&
        negb (forallb (fun address => forallb (fun it => negb (Overlaps address it)) ifAddresses) addresses)
    end) (map_to_list entries).

Definition matchNetworkInterfaceAddress (entries : gmap Z (list Prefix)) (n : NetView) : bool :=
  forallb (fun '(ifType, addresses) =>
    List.existsb (fun ni =>
      (ni.(niType) =? ifType) &&
      List.existsb (fun it => List.existsb (fun prefix => Overlaps prefix it) addresses) ni.(niAddresses))
      n.(NetworkInterfaces)) (map_to_list entries).

Definition matchDefaultInterfaceAddress (prefixes : list Prefix) (n : NetView) : bool :=
  match n.(MonitorDefaultInterface) with
  | None => false
  | Some addresses => forallb (fun address => negb (forallb (fun it => negb (Overlaps address it)) addresses)) prefixes
  end.

(** The process conditions read [ProcessInfo], which may be absent. *)
Definition withProcess (c : InboundContext) (f : ConnectionOwner -> bool) : bool :=
  match c.(ProcessInfo) with None => false | Some p => f p end.

(** The domain conditions are false without a domain. *)
Definition withDomain (c : InboundContext) (f : string -> bool) : bool :=
  let host := domainHost c in
  if String.eqb host "" then false else f (ToLower host).

Definition matchInbound (m : gset string) (c : InboundContext) : bool := isIn c.(Inbound) m.
Definition matchIPVersion (isIPv6 : bool) (c : InboundContext) : bool :=
  (negb (c.(IPVersion) =? 0) && Bool.eqb (c.(IPVersion) =? 6) isIPv6)
  || (socksIsIP c.(Destination) && Bool.eqb (socksIsIPv6 c.(Destination)) isIPv6).
Definition matchNetwork (m : gset string) (c : InboundContext) : bool := isIn c.(Network) m.
Definition matchAuthUser (m : gset string) (c : InboundContext) : bool := isIn c.(User) m.
Definition matchProtocol (m : gset string) (c : InboundContext) : bool := isIn c.(Protocol) m.
Definition matchClient (m : gset string) (c : InboundContext) : bool := isIn c.(Client) m.
Definition matchDomain (matcher : Matcher) (c : InboundContext) : bool := withDomain c (matcher_Match matcher).
Definition matchDomainKeyword (keywords : list string) (c : InboundContext) : bool :=
  withDomain c (fun host => List.existsb (contains host) keywords).
Definition matchDomainRegex (matchers : list Regexp) (c : InboundContext) : bool :=
  withDomain c (fun host => List.existsb (fun m => MatchString m host) matchers).
Definition matchAdGuardDomain (matcher : AdGuardMatcher) (c : InboundContext) : bool :=
  withDomain c (adguard_Match matcher).
Definition matchIPAcceptAny (c : InboundContext) : bool :=
  if c.(DestinationAddressMatchFromResponse)
  then (0 <? length (DNSResponseAddressesForMatch c))%nat
  else (0 <? length c.(DestinationAddresses))%nat.
Definition matchPort (m : gset Z) (isSource : bool) (c : InboundContext) : bool :=
  isIn (if isSource then c.(Source).(sockPort) else c.(Destination).(sockPort)) m.
Definition matchPortRange (isSource : bool) (ranges : list (Z * Z)) (c : InboundContext) : bool :=
  let port := if isSource then c.(Source).(sockPort) else c.(Destination).(sockPort) in
  List.existsb (fun r => (r.1 <=? port) && (port <=? r.2)) ranges.
Definition matchQueryType (m : gset Z) (c : InboundContext) : bool :=
  if c.(QueryType) =? 0 then false else isIn c.(QueryType) m.
Definition matchProcess (m : gset string) (c : InboundContext) : bool :=
  withProcess c (fun p => negb (String.eqb p.(ProcessPath) "") && isIn (filepathBase p.(ProcessPath)) m).
Definition matchProcessPath (m : gset string) (c : InboundContext) : bool :=
  withProcess c (fun p =>
    (negb (String.eqb p.(ProcessPath) "") && isIn p.(ProcessPath) m)
    || (IsAndroid && List.existsb (fun name => isIn name m) p.(AndroidPackageNames))).
Definition matchProcessPathRegex (matchers : list Regexp) (c : InboundContext) : bool :=
  withProcess c (fun p =>
    negb (String.eqb p.(ProcessPath) "") && List.existsb (fun m => MatchString m p.(ProcessPath)) matchers).
Definition matchPackageName (m : gset string) (c : InboundContext) : bool :=
  withProcess c (fun p => List.existsb (fun name => isIn name m) p.(AndroidPackageNames)).
Definition matchUser (m : gset string) (c : InboundContext) : bool :=
  withProcess c (fun p => negb (String.eqb p.(UserName) "") && isIn p.(UserName) m).
Definition matchUserId (m : gset Z) (c : InboundContext) : bool :=
  withProcess c (fun p => negb (p.(UserId) =? -1) && isIn p.(UserId) m).
Definition matchOutbound (m : gset string) (matchAny : bool) (c : InboundContext) : bool :=
  if matchAny then negb (String.eqb c.(Outbound) "") else isIn c.(Outbound) m.
Definition matchClashMode (clashServer : bool) (mode : string) (n : NetView) : bool :=
  clashServer && EqualFold n.(ClashMode) mode.
Definition matchNetworkType (l : list Z) (n : NetView) : bool :=
  match n.(DefaultNetworkInterface) with None => false | Some ni => List.existsb (Z.eqb ni.(niType)) l end.
Definition matchNetworkIsExpensive (n : NetView) : bool :=
  match n.(DefaultNetworkInterface) with None => false | Some ni => ni.(niExpensive) end.
Definition matchNetworkIsConstrained (n : NetView) : bool :=
  match n.(DefaultNetworkInterface) with None => false | Some ni => ni.(niConstrained) end.
Definition matchWIFISSID (m : gset string) (n : NetView) : bool := isIn n.(WIFIState_SSID) m.
Definition matchWIFIBSSID (m : gset string) (n : NetView) : bool := isIn n.(WIFIState_BSSID) m.
Definition matchSourceMACAddress (m : gset string) (c : InboundContext) : bool :=
  match c.(SourceMACAddress) with None => false | Some a => isIn a m end.
Definition matchSourceHostname (m : gset string) (c : InboundContext) : bool :=
  negb (String.eqb c.(SourceHostname) "") && isIn c.(SourceHostname) m.
Definition matchDNSResponseRCode (rcode : Z) (c : InboundContext) : bool :=
  match c.(DNSResponse) with None => false | Some m => m.(Rcode) =? rcode end.
Definition matchDNSResponseRecord (records : list RR) (selector : Msg -> list RR) (c : InboundContext) : bool :=
  match c.(DNSResponse) with
  | None => false
  | Some m => List.existsb (fun expected => List.existsb (IsDuplicate expected) (selector m)) records
  end.

Definition Match (i : RuleItem) (n : NetView) (c : InboundContext) : bool :=
  match i with
  | InboundItem m => matchInbound m c
  | IPVersionItem isIPv6 => matchIPVersion isIPv6 c
  | NetworkItem m => matchNetwork m c
  | AuthUserItem m => matchAuthUser m c
  | ProtocolItem m => matchProtocol m c
  | ClientItem m => matchClient m c
  | DomainItem matcher => matchDomain matcher c
  | DomainKeywordItem keywords => matchDomainKeyword keywords c
  | DomainRegexItem matchers => matchDomainRegex matchers c
  | AdGuardDomainItem matcher => matchAdGuardDomain matcher c
  | IPCIDRItem ipSet isSource => matchIPCIDR ipSet isSource c
  | IPIsPrivateItem isSource => matchIPIsPrivate isSource c
  | IPAcceptAnyItem => matchIPAcceptAny c
  | PortItem m isSource => matchPort m isSource c
  | PortRangeItem isSource ranges => matchPortRange isSource ranges c
  | QueryTypeItem m => matchQueryType m c
  | ProcessItem m => matchProcess m c
  | ProcessPathItem m => matchProcessPath m c
  | ProcessPathRegexItem matchers => matchProcessPathRegex matchers c
  | PackageNameItem m => matchPackageName m c
  | UserItem m => matchUser m c
  | UserIdItem m => matchUserId m c
  | OutboundItem m matchAny => matchOutbound m matchAny c
  | ClashModeItem clashServer mode => matchClashMode clashServer mode n
  | NetworkTypeItem l => matchNetworkType l n
  | NetworkIsExpensiveItem => matchNetworkIsExpensive n
  | NetworkIsConstrainedItem => matchNetworkIsConstrained n
  | WIFISSIDItem m => matchWIFISSID m n
  | WIFIBSSIDItem m => matchWIFIBSSID m n
  | InterfaceAddressItem m => matchInterfaceAddress m n
  | NetworkInterfaceAddressItem m => matchNetworkInterfaceAddress m n
  | DefaultInterfaceAddressItem l => matchDefaultInterfaceAddress l n
  | SourceMACAddressItem m => matchSourceMACAddress m c
  | SourceHostnameItem m => matchSourceHostname m c
  | PreferredByItem _ outbounds => matchPreferredBy outbounds n c
  | DNSResponseRCodeItem rcode => matchDNSResponseRCode rcode c
  | DNSResponseRecordItem records selector => matchDNSResponseRecord records selector c
  end.

End Items.
