(* ===== verification/RuleMatch.v ===== *)
(** * Evaluation of rules

    [src/route/rule/rule_abstract.go] (default and logical rules),
    [rule_item_rule_set.go] and the matching part of [rule_set_local.go],
    [rule_set_remote.go] and [rule_dns.go].

    The source appends every item to [allItems] and to the list of its group,
    the same pointer in both: here there is one list, whose elements carry their
    group, and the group lists are read off it.  Headless rules (inside
    rule-sets) never hold a rule-set item, so the rule-set item of a default
    rule is a type parameter, empty for headless rules; the recursion through
    rule-sets is therefore structural.

    A rule writes [DidMatch] in the metadata it is given, and gives nested rules
    copies; evaluation returns the metadata it leaves behind. *)

From S2P Require Import Prelude GoStrings RuleState RuleItems.

Local Open Scope string_scope.
Local Open Scope list_scope.
Local Open Scope Z_scope.

Definition LogicalTypeAnd : string := "and".
Definition LogicalTypeOr : string := "or".

(** The list of [abstractDefaultRule] an item is appended to. *)
Inductive ItemGroup :=
| GItems
| GSourceAddress
| GSourcePort
| GDestinationAddress
| GDestinationIPCIDR
| GDestinationPort.

#[export] Instance ItemGroup_eq_dec : EqDecision ItemGroup.
Proof. solve_decision. Defined.

(** A default rule or a logical combination, the leaves and the actions being
    those of route, DNS or headless rules. *)
Inductive RuleTree (D A : Type) :=
| DefaultLeaf (rule : D)
| LogicalNode (mode : string) (invert : bool) (action : A) (rules : list (RuleTree D A)).
Arguments DefaultLeaf {_ _} _.
Arguments LogicalNode {_ _} _ _ _ _.

(** Induction with the hypothesis for every sub-rule. *)
Section TreeInd.
Context {D A : Type} (P : RuleTree D A -> Prop).
Hypothesis HLeaf : forall d, P (DefaultLeaf d).
Hypothesis HNode : forall mode invert action rules, Forall P rules -> P (LogicalNode mode invert action rules).

Fixpoint RuleTree_rect' (t : RuleTree D A) : P t :=
  match t with
  | DefaultLeaf d => HLeaf d
  | LogicalNode mode invert action rules =>
      HNode mode invert action rules
        ((fix go (l : list (RuleTree D A)) : Forall P l :=
            match l with
            | [] => @List.Forall_nil _ P
            | x :: l' => @List.Forall_cons _ P x l' (RuleTree_rect' x) (go l')
            end) rules)
  end.
End TreeInd.

Section Rules.
Context `{RE : RuleEnv}.

Record abstractDefaultRule (RS : Type) := mkDefaultRule {
  taggedItems : list (ItemGroup * RuleItem);
  ruleSetItem : option RS;
  invert : bool;
}.
Arguments mkDefaultRule {_} _ _ _.
Arguments taggedItems {_} _.
Arguments ruleSetItem {_} _.
Arguments invert {_} _.

Definition itemsOf {RS} (g : ItemGroup) (r : abstractDefaultRule RS) : list RuleItem :=
  map snd (List.filter (fun p => bool_decide (p.1 = g)) r.(taggedItems)).

Definition noItems {RS} (r : abstractDefaultRule RS) : bool :=
  match r.(taggedItems), r.(ruleSetItem) with [], None => true | _, _ => false end.

Definition nonempty {T} (l : list T) : bool := match l with [] => false | _ => true end.

Section Default.
Context {RS : Type} (n : NetView).

(** How the rule-set item of the rule is evaluated. *)
Context (evalRuleSet : RS -> InboundContext -> ruleMatchState -> ruleMatchStateSet).

Definition matchAnyItem (items : list RuleItem) (c : InboundContext) : bool :=
  List.existsb (fun it => Match it n c) items.

Definition destinationIPCIDRMatchesSource (r : abstractDefaultRule RS) (c : InboundContext) : bool :=
  negb c.(IgnoreDestinationIPCIDRMatch) && c.(IPCIDRMatchSource) && nonempty (itemsOf GDestinationIPCIDR r).

Definition destinationIPCIDRMatchesDestination (r : abstractDefaultRule RS) (c : InboundContext) : bool :=
  negb c.(IgnoreDestinationIPCIDRMatch) && negb c.(IPCIDRMatchSource) && nonempty (itemsOf GDestinationIPCIDR r).

Definition requiresSourceAddressMatch (r : abstractDefaultRule RS) (c : InboundContext) : bool :=
  nonempty (itemsOf GSourceAddress r) || destinationIPCIDRMatchesSource r c.

Definition requiresDestinationAddressMatch (r : abstractDefaultRule RS) (c : InboundContext) : bool :=
  nonempty (itemsOf GDestinationAddress r) || destinationIPCIDRMatchesDestination r c.

Definition invertedFailure (r : abstractDefaultRule RS) (base : ruleMatchState) : ruleMatchStateSet :=
  if r.(invert) then withBase emptyRuleMatchState base else 0.

(** One grouped condition: [DidMatch] is set, and the bit if an item matches. *)
Definition groupStep (items : list RuleItem) (bit : ruleMatchState) (c : InboundContext) (s : ruleMatchState)
  : InboundContext * ruleMatchState :=
  if nonempty items then
    let c := set_DidMatch true c in
    (c, if matchAnyItem items c then Z.lor s bit else s)
  else (c, s).

(** The [ip_cidr] condition when it counts for [bit]: skipped when the bit is
    already there. *)
Definition cidrStep (applies : bool) (items : list RuleItem) (bit : ruleMatchState)
    (c : InboundContext) (s : ruleMatchState) : InboundContext * ruleMatchState :=
  if applies && negb (has s bit) then
    let c := set_DidMatch true c in
    (c, if matchAnyItem items c then Z.lor s bit else s)
  else if applies then (set_DidMatch true c, s)
  else (c, s).

(** [for _, item := range r.items]: the first item that fails ends the loop. *)
Fixpoint matchAllItems (items : list RuleItem) (c : InboundContext) : InboundContext * bool :=
  match items with
  | [] => (c, true)
  | item :: rest =>
      let c := set_DidMatch true c in
      if Match item n c then matchAllItems rest c else (c, false)
  end.

(** The closure given to [filter]. *)
Definition satisfied (r : abstractDefaultRule RS) (c : InboundContext) (state : ruleMatchState) : bool :=
  if requiresSourceAddressMatch r c && negb (has state ruleMatchSourceAddress) then false
  else if nonempty (itemsOf GSourcePort r) && negb (has state ruleMatchSourcePort) then false
  else if requiresDestinationAddressMatch r c && negb (has state ruleMatchDestinationAddress) then false
  else if nonempty (itemsOf GDestinationPort r) && negb (has state ruleMatchDestinationPort) then false
  else true.

Definition matchStatesWithBase (r : abstractDefaultRule RS) (c : InboundContext) (inheritedBase : ruleMatchState)
  : InboundContext * ruleMatchStateSet :=
  if noItems r then (c, withBase emptyRuleMatchState inheritedBase)
  else
    let evaluationBase := if r.(invert) then 0 else inheritedBase in
    let '(c, s) := groupStep (itemsOf GSourceAddress r) ruleMatchSourceAddress c evaluationBase in
    let '(c, s) := cidrStep (destinationIPCIDRMatchesSource r c) (itemsOf GDestinationIPCIDR r)
                     ruleMatchSourceAddress c s in
    let '(c, s) := groupStep (itemsOf GSourcePort r) ruleMatchSourcePort c s in
    let '(c, s) := groupStep (itemsOf GDestinationAddress r) ruleMatchDestinationAddress c s in
    let '(c, s) := cidrStep (destinationIPCIDRMatchesDestination r c) (itemsOf GDestinationIPCIDR r)
                     ruleMatchDestinationAddress c s in
    let '(c, s) := groupStep (itemsOf GDestinationPort r) ruleMatchDestinationPort c s in
    let '(c, allMatch) := matchAllItems (itemsOf GItems r) c in
    if negb allMatch then (c, invertedFailure r inheritedBase)
    else
      let '(c, stateSet) :=
        match r.(ruleSetItem) with
        | Some item => let c := set_DidMatch true c in (c, evalRuleSet item c s)
        | None => (c, singleRuleMatchState s)
        end in
      let stateSet := filterStates stateSet (satisfied r c) in
      if isEmpty stateSet then (c, invertedFailure r inheritedBase)
      else if r.(invert) then
        if c.(IgnoreDestinationIPCIDRMatch) && (stateSet =? emptyRuleMatchState) && negb c.(DidMatch)
           && nonempty (itemsOf GDestinationIPCIDR r)
        then (c, withBase emptyRuleMatchState inheritedBase)
        else (c, 0)
      else (c, stateSet).

End Default.

(** ** Logical rules *)

Section Logical.
Context {D A : Type} (evalLeaf : D -> InboundContext -> ruleMatchState -> ruleMatchStateSet).

(** The conjunction loop: [None] when a sub-rule has no state. *)
Fixpoint combineAll (results : list ruleMatchStateSet) (stateSet : ruleMatchStateSet) : option ruleMatchStateSet :=
  match results with
  | [] => Some stateSet
  | nested :: rest => if isEmpty nested then None else combineAll rest (combine stateSet nested)
  end.

Definition mergeAll (results : list ruleMatchStateSet) : ruleMatchStateSet := fold_left merge results 0.

(** What both logical evaluators do with the results of the sub-rules. *)
Definition logicalResult (mode : string) (inverted : bool) (base evaluationBase : ruleMatchState)
    (results : list ruleMatchStateSet) : ruleMatchStateSet :=
  let failure := if inverted then withBase emptyRuleMatchState base else 0 in
  if String.eqb mode LogicalTypeAnd then
    match combineAll results (withBase emptyRuleMatchState evaluationBase) with
    | None => failure
    | Some stateSet => if inverted then 0 else stateSet
    end
  else
    let stateSet := mergeAll results in
    if isEmpty stateSet then failure else if inverted then 0 else stateSet.

(** [matchHeadlessRuleStatesWithBase]: sub-rules see a copy of the metadata with
    the rule cache reset, and the base unless the rule inverts. *)
Fixpoint treeStates (t : RuleTree D A) (c : InboundContext) (base : ruleMatchState) : ruleMatchStateSet :=
  match t with
  | DefaultLeaf d => evalLeaf d c base
  | LogicalNode mode inverted _ rules =>
      let evaluationBase := if inverted then 0 else base in
      logicalResult mode inverted base evaluationBase
        (map (fun rule => treeStates rule (ResetRuleCache c) evaluationBase) rules)
  end.

End Logical.

(** ** Headless rules and rule-sets *)

Abbreviation DefaultHeadlessRule := (abstractDefaultRule Empty_set) (only parsing).
Abbreviation HeadlessRule := (RuleTree (abstractDefaultRule Empty_set) unit) (only parsing).

(** [adapter.RuleSetMetadata] *)
Record RuleSetMetadata := mkRuleSetMetadata {
  ContainsProcessRule : bool;
  ContainsWIFIRule : bool;
  ContainsIPCIDRRule : bool;
  ContainsDNSQueryTypeRule : bool;
}.

(** The part of [LocalRuleSet] and [RemoteRuleSet] that rules see; [refs] is an
    [int32]. *)
Record RuleSet := mkRuleSet {
  rules : list HeadlessRule;
  metadata : RuleSetMetadata;
  refs : Z;
}.

(** The router's rule-sets; a tag is bound once, so it names the object. *)
Abbreviation RuleSets := (gmap string RuleSet) (only parsing).

Record RuleSetItem := mkRuleSetItem {
  tagList : list string;
  setList : list string;
  ipCidrMatchSource : bool;
  ipCidrAcceptEmpty : bool;
}.

Definition NewRuleSetItem (tags : list string) (matchSource acceptEmpty : bool) : RuleSetItem :=
  mkRuleSetItem tags [] matchSource acceptEmpty.

Section Eval.
Context (n : NetView) (sets : RuleSets).

Definition noRuleSet (e : Empty_set) (c : InboundContext) (base : ruleMatchState) : ruleMatchStateSet :=
  match e with end.

Definition headlessStates (t : HeadlessRule) (c : InboundContext) (base : ruleMatchState) : ruleMatchStateSet :=
  treeStates (fun r c base => (matchStatesWithBase n noRuleSet r c base).2) t c base.

(** [matchStatesWithBase] of [LocalRuleSet] and [RemoteRuleSet]. *)
Definition ruleSetStates (s : RuleSet) (c : InboundContext) (base : ruleMatchState) : ruleMatchStateSet :=
  mergeAll (map (fun rule => headlessStates rule (ResetRuleMatchCache c) base) s.(rules)).

(** [matchStatesWithBase] of [RuleSetItem]. *)
Definition ruleSetItemStates (item : RuleSetItem) (c : InboundContext) (base : ruleMatchState) : ruleMatchStateSet :=
  mergeAll (map (fun tag =>
    match sets !! tag with
    | Some s => ruleSetStates s (set_AcceptEmpty item.(ipCidrAcceptEmpty)
                  (set_MatchSource item.(ipCidrMatchSource) (ResetRuleMatchCache c))) base
    | None => 0
    end) item.(setList)).

Definition ContainsDestinationIPCIDRRule (item : RuleSetItem) : bool :=
  if item.(ipCidrMatchSource) then false
  else List.existsb (fun tag => match sets !! tag with
                                | Some s => s.(metadata).(ContainsIPCIDRRule)
                                | None => false
                                end) item.(setList).

(** ** Route rules *)

Definition defaultStates (r : abstractDefaultRule RuleSetItem) (c : InboundContext) (base : ruleMatchState)
  : InboundContext * ruleMatchStateSet :=
  matchStatesWithBase n ruleSetItemStates r c base.

Definition routeStates {A} (t : RuleTree (abstractDefaultRule RuleSetItem) A) (c : InboundContext)
    (base : ruleMatchState) : ruleMatchStateSet :=
  treeStates (fun r c base => (defaultStates r c base).2) t c base.

(** [Match] of a route rule, with the metadata it leaves. *)
Definition ruleMatch {A} (t : RuleTree (abstractDefaultRule RuleSetItem) A) (c : InboundContext)
  : InboundContext * bool :=
  (match t with DefaultLeaf r => (defaultStates r c 0).1 | LogicalNode _ _ _ _ => c end,
   negb (isEmpty (routeStates t c 0))).

(** ** DNS rules *)

Record DefaultDNSRule (A : Type) := mkDefaultDNSRule {
  dnsRule : abstractDefaultRule RuleSetItem;
  matchResponse : bool;
  dnsAction : A;
}.
Arguments mkDefaultDNSRule {_} _ _ _.
Arguments dnsRule {_} _.
Arguments matchResponse {_} _.
Arguments dnsAction {_} _.

Abbreviation DNSRule A := (RuleTree (DefaultDNSRule A) A).

(** [matchStates] of the embedded abstract rules. *)
Definition dnsStates {A} (t : DNSRule A) (c : InboundContext) (base : ruleMatchState) : ruleMatchStateSet :=
  treeStates (fun d c base => (defaultStates d.(dnsRule) c base).2) t c base.

Definition WithAddressLimit_default {A} (d : DefaultDNSRule A) : bool :=
  if nonempty (itemsOf GDestinationIPCIDR d.(dnsRule)) then true
  else match d.(dnsRule).(ruleSetItem) with
       | Some item => ContainsDestinationIPCIDRRule item
       | None => false
       end.

Fixpoint WithAddressLimit {A} (t : DNSRule A) : bool :=
  match t with
  | DefaultLeaf d => WithAddressLimit_default d
  | LogicalNode _ _ _ rules => List.existsb WithAddressLimit rules
  end.

(** [matchStatesForMatch]: rules with [match_response] look at the response. *)
Definition matchStatesForMatch_default {A} (d : DefaultDNSRule A) (c : InboundContext) : ruleMatchStateSet :=
  if d.(matchResponse) then
    match c.(DNSResponse) with
    | None => invertedFailure d.(dnsRule) 0
    | Some _ => (defaultStates d.(dnsRule) (set_FromResponse true c) 0).2
    end
  else (defaultStates d.(dnsRule) c 0).2.

Fixpoint matchStatesForMatch {A} (t : DNSRule A) (c : InboundContext) : ruleMatchStateSet :=
  match t with
  | DefaultLeaf d => matchStatesForMatch_default d c
  | LogicalNode mode inverted _ rules =>
      logicalResult mode inverted 0 0 (map (fun rule => matchStatesForMatch rule (ResetRuleCache c)) rules)
  end.

(** What [matchStatesForMatch] leaves in the metadata. *)
Definition dnsMatch {A} (t : DNSRule A) (c : InboundContext) : InboundContext * bool :=
  (match t with
   | DefaultLeaf d => if d.(matchResponse) then c else (defaultStates d.(dnsRule) c 0).1
   | LogicalNode _ _ _ _ => c
   end, negb (isEmpty (matchStatesForMatch t c))).

(** The [IgnoreDestinationIPCIDRMatch] flag is up during the match only. *)
Definition LegacyPreMatch {A} (t : DNSRule A) (c : InboundContext) : InboundContext * bool :=
  let ignoring := set_IgnoreCIDR true c in
  match t with
  | DefaultLeaf d =>
      if d.(matchResponse) then (c, false)
      else
        let '(c', stateSet) := defaultStates d.(dnsRule) ignoring 0 in
        (set_IgnoreCIDR false c', negb (isEmpty stateSet))
  | LogicalNode _ _ _ _ => (set_IgnoreCIDR false ignoring, negb (isEmpty (dnsStates t ignoring 0)))
  end.

Definition MatchAddressLimit {A} (t : DNSRule A) (c : InboundContext) (response : option Msg) : bool :=
  negb (isEmpty (dnsStates t (set_FromResponse true (set_DNSResponse response c)) 0)).

End Eval.

(** ** References to rule-sets *)

(** [int32] addition wraps. *)
Definition wrap32 (z : Z) : Z := (z + 2 ^ 31) mod 2 ^ 32 - 2 ^ 31.

Definition updRefs (sets : RuleSets) (tag : string) (d : Z) : RuleSets :=
  alter (fun s => mkRuleSet s.(rules) s.(metadata) (wrap32 (s.(refs) + d))) tag sets.

Definition IncRef (sets : RuleSets) (tag : string) : RuleSets := updRefs sets tag 1.

(** A negative count panics. *)
Definition DecRef (sets : RuleSets) (tag : string) : outcome RuleSets :=
  match sets !! tag with
  | Some s => if wrap32 (s.(refs) + -1) <? 0 then Panic else Ret (updRefs sets tag (-1))
  | None => Ret sets
  end.

(** A rule-set nobody refers to drops its rules. *)
Definition Cleanup (sets : RuleSets) (tag : string) : RuleSets :=
  alter (fun s => if s.(refs) =? 0 then mkRuleSet [] s.(metadata) s.(refs) else s) tag sets.

Definition RuleSetItem_Close (item : RuleSetItem) (sets : RuleSets) : outcome (RuleSetItem * RuleSets) :=
  match foldM DecRef item.(setList) sets with
  | Panic => Panic
  | Ret sets' => Ret (mkRuleSetItem item.(tagList) [] item.(ipCidrMatchSource) item.(ipCidrAcceptEmpty), sets')
  end.

(** The loop of [Start] over the remaining tags; a missing tag closes the item. *)
Fixpoint startTags (tags : list string) (item : RuleSetItem) (sets : RuleSets)
  : outcome (RuleSetItem * RuleSets * option error) :=
  match tags with
  | [] => Ret (item, sets, None)
  | tag :: rest =>
      match sets !! tag with
      | None =>
          match RuleSetItem_Close item sets with
          | Panic => Panic
          | Ret (item', sets') => Ret (item', sets', Some (E_New ["rule-set not found: "; tag]))
          end
      | Some _ =>
          startTags rest
            (mkRuleSetItem item.(tagList) (item.(setList) ++ [tag]) item.(ipCidrMatchSource) item.(ipCidrAcceptEmpty))
            (IncRef sets tag)
      end
  end.

Definition RuleSetItem_Start (item : RuleSetItem) (sets : RuleSets)
  : outcome (RuleSetItem * RuleSets * option error) :=
  match RuleSetItem_Close item sets with
  | Panic => Panic
  | Ret (item', sets') => startTags item'.(tagList) item' sets'
  end.

End Rules.

Arguments mkDefaultRule {_ _} _ _ _.
Arguments taggedItems {_ _} _.
Arguments ruleSetItem {_ _} _.
Arguments invert {_ _} _.
Arguments mkDefaultDNSRule {_ _} _ _ _.
Arguments dnsRule {_ _} _.
Arguments matchResponse {_ _} _.
Arguments dnsAction {_ _} _.
Abbreviation DNSRule A := (RuleTree (DefaultDNSRule A) A).
Abbreviation DefaultHeadlessRule := (abstractDefaultRule Empty_set) (only parsing).
Abbreviation HeadlessRule := (RuleTree (abstractDefaultRule Empty_set) unit) (only parsing).
Abbreviation RuleSets := (gmap string RuleSet) (only parsing).
