(* ===== verification/RuleProps.v ===== *)
(** * What the evaluation of rules means

    The equation that sums up the evaluation of a default rule, the meaning of
    default and logical rules as boolean formulas, the merging of rule-set
    branches into the outer rule, and the inheritance of the base state. *)

From S2P Require Import Prelude GoStrings RuleState RuleItems RuleMatch.

Local Open Scope string_scope.
Local Open Scope list_scope.
Local Open Scope Z_scope.

Section Props.
Context `{RE : RuleEnv} (n : NetView).

(** ** Bookkeeping of [DidMatch] *)

Definition didMatch (b : bool) (c : InboundContext) : InboundContext :=
  if b then set_DidMatch true c else c.

Lemma Match_DidMatch it b c : Match it n (set_DidMatch b c) = Match it n c.
Proof. by destruct it. Qed.

Lemma Match_didMatch it b c : Match it n (didMatch b c) = Match it n c.
Proof. destruct b; [apply Match_DidMatch|done]. Qed.

Lemma matchAny_didMatch items b c : matchAnyItem n items (didMatch b c) = matchAnyItem n items c.
Proof.
  unfold matchAnyItem. induction items as [|it l IH]; cbn [List.existsb]; [done|].
  by rewrite Match_didMatch, IH.
Qed.

Lemma didMatch_or a b c : didMatch b (didMatch a c) = didMatch (a || b) c.
Proof. by destruct a, b, c. Qed.

(** ** The bits of the four groups *)

Definition bitIf (b : bool) (bit : Z) : Z := if b then bit else 0.

Lemma has_absorb s k : 0 <= k -> has s (2 ^ k) = true -> Z.lor s (2 ^ k) = s.
Proof.
  intros Hk H. rewrite has_bit in H by done. apply Z.bits_inj'. intros m Hm.
  rewrite Z.lor_spec, Z.pow2_bits_eqb by done.
  destruct (Z.eqb_spec k m) as [<-|]; [rewrite H; done|apply orb_false_r].
Qed.

Lemma groupStep_spec items bit c s :
  groupStep n items bit c s =
    (didMatch (nonempty items) c, Z.lor s (bitIf (matchAnyItem n items c) bit)).
Proof.
  unfold groupStep, bitIf. destruct items as [|i l].
  { cbn. by rewrite Z.lor_0_r. }
  cbn [nonempty didMatch]. change (set_DidMatch true c) with (didMatch true c).
  rewrite matchAny_didMatch. destruct (matchAnyItem n (i :: l) c); by rewrite ?Z.lor_0_r.
Qed.

Lemma cidrStep_spec applies items k c s : 0 <= k ->
  cidrStep n applies items (2 ^ k) c s =
    (didMatch applies c, Z.lor s (bitIf (applies && matchAnyItem n items c) (2 ^ k))).
Proof.
  intros Hk. unfold cidrStep, bitIf. destruct applies; cbn [andb didMatch].
  2:{ by rewrite Z.lor_0_r. }
  change (set_DidMatch true c) with (didMatch true c). rewrite matchAny_didMatch.
  destruct (has s (2 ^ k)) eqn:E; cbn [negb].
  - destruct (matchAnyItem n items c); [by rewrite has_absorb|by rewrite Z.lor_0_r].
  - destruct (matchAnyItem n items c); by rewrite ?Z.lor_0_r.
Qed.

Lemma matchAllItems_spec items c : exists b,
  matchAllItems n items c = (didMatch b c, forallb (fun it => Match it n c) items) /\
  (forallb (fun it => Match it n c) items = true -> b = nonempty items).
Proof.
  revert c. induction items as [|it l IH]; intros c; cbn [matchAllItems forallb].
  { by exists false. }
  change (set_DidMatch true c) with (didMatch true c). rewrite Match_didMatch.
  destruct (Match it n c); cbn [andb]; [|by exists true].
  destruct (IH (didMatch true c)) as (b & -> & _). exists true. rewrite didMatch_or. cbn [orb].
  split; [|done]. f_equal.
Qed.

Lemma has_lor_sa s t : has (Z.lor s t) ruleMatchSourceAddress = has s ruleMatchSourceAddress || has t ruleMatchSourceAddress.
Proof. by apply (has_lor s t 0). Qed.
Lemma has_lor_sp s t : has (Z.lor s t) ruleMatchSourcePort = has s ruleMatchSourcePort || has t ruleMatchSourcePort.
Proof. by apply (has_lor s t 1). Qed.
Lemma has_lor_da s t : has (Z.lor s t) ruleMatchDestinationAddress = has s ruleMatchDestinationAddress || has t ruleMatchDestinationAddress.
Proof. by apply (has_lor s t 2). Qed.
Lemma has_lor_dp s t : has (Z.lor s t) ruleMatchDestinationPort = has s ruleMatchDestinationPort || has t ruleMatchDestinationPort.
Proof. by apply (has_lor s t 3). Qed.

Section Default.
Context {RS : Type} (evalRuleSet : RS -> InboundContext -> Z -> Z).
Implicit Type r : abstractDefaultRule RS.

Definition anyOf (g : ItemGroup) r (c : InboundContext) : bool := matchAnyItem n (itemsOf g r) c.

Definition sourceAddressMatch r c : bool :=
  anyOf GSourceAddress r c || (destinationIPCIDRMatchesSource r c && anyOf GDestinationIPCIDR r c).
Definition destinationAddressMatch r c : bool :=
  anyOf GDestinationAddress r c || (destinationIPCIDRMatchesDestination r c && anyOf GDestinationIPCIDR r c).

(** The state the rule's own conditions reach. *)
Definition ownState r c : Z :=
  Z.lor (Z.lor (Z.lor (bitIf (sourceAddressMatch r c) ruleMatchSourceAddress)
                      (bitIf (anyOf GSourcePort r c) ruleMatchSourcePort))
               (bitIf (destinationAddressMatch r c) ruleMatchDestinationAddress))
        (bitIf (anyOf GDestinationPort r c) ruleMatchDestinationPort).

(** Whether some condition is evaluated at all. *)
Definition evaluated r c : bool :=
  nonempty (itemsOf GSourceAddress r) || destinationIPCIDRMatchesSource r c ||
  nonempty (itemsOf GSourcePort r) || nonempty (itemsOf GDestinationAddress r) ||
  destinationIPCIDRMatchesDestination r c || nonempty (itemsOf GDestinationPort r) ||
  nonempty (itemsOf GItems r) || bool_decide (is_Some r.(ruleSetItem)).

(** An inverted rule all of whose conditions are deferred to the response. *)
Definition deferred r c : bool :=
  c.(IgnoreDestinationIPCIDRMatch) && negb (c.(DidMatch) || evaluated r c) && nonempty (itemsOf GDestinationIPCIDR r).

(** The states of the conditions before inversion. *)
Definition found r c (s : Z) : Z :=
  if forallb (fun it => Match it n c) (itemsOf GItems r) then
    filterStates (match r.(ruleSetItem) with
                  | Some item => evalRuleSet item (set_DidMatch true c) s
                  | None => singleRuleMatchState s
                  end) (satisfied r c)
  else 0.

Lemma bitIf_or a b bit : Z.lor (bitIf a bit) (bitIf b bit) = bitIf (a || b) bit.
Proof. destruct a, b; cbn [bitIf orb]; by rewrite ?Z.lor_0_r, ?Z.lor_0_l, ?Z.lor_diag. Qed.

Lemma andb_shuffle a b c d : a && b && c && d = a && c && d && b.
Proof. by destruct a, b, c, d. Qed.

Lemma satisfied_didMatch r b c s : satisfied r (didMatch b c) s = satisfied r c s.
Proof. by destruct b. Qed.

Lemma filterStates_ext s p q : (forall c, p c = q c) -> filterStates s p = filterStates s q.
Proof. intros H. unfold filterStates. apply fold_left_ext. intros. by rewrite H. Qed.

(** The states a default rule returns, as one equation. *)
Lemma matchStates_eq r c base : noItems r = false ->
  (matchStatesWithBase n evalRuleSet r c base).2 =
    let f := found r c (Z.lor (if r.(invert) then 0 else base) (ownState r c)) in
    if isEmpty f then invertedFailure r base
    else if r.(invert) then
      if deferred r c && (f =? emptyRuleMatchState) then withBase emptyRuleMatchState base else 0
    else f.
Proof.
  intros Hn. unfold matchStatesWithBase. rewrite Hn. cbv zeta.
  set (eb := if r.(invert) then 0 else base).
  rewrite groupStep_spec. cbv beta iota.
  change ruleMatchSourceAddress with (2 ^ 0). rewrite cidrStep_spec by lia. cbv beta iota.
  rewrite groupStep_spec. cbv beta iota. rewrite groupStep_spec. cbv beta iota.
  change ruleMatchDestinationAddress with (2 ^ 2). rewrite cidrStep_spec by lia. cbv beta iota.
  rewrite groupStep_spec. cbv beta iota.
  rewrite !didMatch_or, !matchAny_didMatch.
  assert (Hsrc : forall b, destinationIPCIDRMatchesSource r (didMatch b c) = destinationIPCIDRMatchesSource r c)
    by (intros []; done).
  assert (Hdst : forall b, destinationIPCIDRMatchesDestination r (didMatch b c) = destinationIPCIDRMatchesDestination r c)
    by (intros []; done).
  rewrite !Hsrc, !Hdst.
  match goal with |- context [matchAllItems n _ (didMatch ?b c)] => set (b0 := b) end.
  match goal with |- context [evalRuleSet _ _ ?s] => set (s0 := s) end.
  assert (Hs : s0 = Z.lor eb (ownState r c)).
  { unfold s0, ownState, sourceAddressMatch, destinationAddressMatch, anyOf.
    change ruleMatchSourceAddress with (2 ^ 0). change ruleMatchDestinationAddress with (2 ^ 2).
    rewrite <- !bitIf_or, <- !Z.lor_assoc. done. }
  destruct (matchAllItems_spec (itemsOf GItems r) (didMatch b0 c)) as (b1 & -> & Hb1).
  cbv beta iota. rewrite didMatch_or.
  assert (Hall : forallb (fun it => Match it n (didMatch b0 c)) (itemsOf GItems r) =
                 forallb (fun it => Match it n c) (itemsOf GItems r)).
  { clear. induction (itemsOf GItems r) as [|i l IH]; cbn; [done|]. by rewrite Match_didMatch, IH. }
  rewrite Hall in Hb1 |- *. unfold found. rewrite <- Hs.
  destruct (forallb (fun it => Match it n c) (itemsOf GItems r)); cbn [negb].
  2:{ done. }
  specialize (Hb1 eq_refl). subst b1.
  assert (Hdef : forall b, b = evaluated r c ->
    (didMatch b c).(IgnoreDestinationIPCIDRMatch) && negb (didMatch b c).(DidMatch) && nonempty (itemsOf GDestinationIPCIDR r)
    = deferred r c).
  { intros b ->. unfold deferred. destruct (evaluated r c); cbn [didMatch]; [|by rewrite orb_false_r].
    cbn. rewrite orb_true_r. done. }
  destruct (ruleSetItem r) as [item|] eqn:Hrs; cbv beta iota.
  - replace (set_DidMatch true (didMatch (b0 || nonempty (itemsOf GItems r)) c)) with (didMatch true c)
      by (destruct (b0 || nonempty (itemsOf GItems r)), c; done).
    assert (Hev : true = evaluated r c)
      by (unfold evaluated; rewrite Hrs; rewrite (bool_decide_eq_true_2 (is_Some (Some item))) by (by eexists);
          by rewrite orb_true_r).
    rewrite <- (Hdef true Hev).
    rewrite (filterStates_ext _ (satisfied r (didMatch true c)) (satisfied r c)) by (intros; apply satisfied_didMatch).
    change (set_DidMatch true c) with (didMatch true c).
    destruct (isEmpty _); [done|]. destruct (r.(invert)); [|done].
    rewrite andb_shuffle. by case_goal.
  - assert (Hev : b0 || nonempty (itemsOf GItems r) = evaluated r c).
    { unfold evaluated, b0. rewrite Hrs. rewrite (bool_decide_eq_false_2 (is_Some None)) by (by intros [? ?]).
      by rewrite orb_false_r, !orb_assoc. }
    rewrite <- (Hdef _ Hev).
    rewrite (filterStates_ext _ (satisfied r (didMatch _ c)) (satisfied r c)) by (intros; apply satisfied_didMatch).
    destruct (isEmpty _); [done|]. destruct (r.(invert)); [|done].
    rewrite andb_shuffle. by case_goal.
Qed.


(** ** The formula of a default rule *)

Definition groupHolds (present matched : bool) : bool := negb present || matched.

(** Every grouped condition that is present holds for some item of the group,
    and every other condition holds; [s] is what is already known to match. *)
Definition groupsHold r c (s : Z) : bool :=
  groupHolds (requiresSourceAddressMatch r c) (has s ruleMatchSourceAddress || sourceAddressMatch r c) &&
  groupHolds (nonempty (itemsOf GSourcePort r)) (has s ruleMatchSourcePort || anyOf GSourcePort r c) &&
  groupHolds (requiresDestinationAddressMatch r c) (has s ruleMatchDestinationAddress || destinationAddressMatch r c) &&
  groupHolds (nonempty (itemsOf GDestinationPort r)) (has s ruleMatchDestinationPort || anyOf GDestinationPort r c).

Definition itemsHold r c : bool := forallb (fun it => Match it n c) (itemsOf GItems r).

Definition formula r c : bool := itemsHold r c && groupsHold r c 0.

Lemma own_has r c :
  has (ownState r c) ruleMatchSourceAddress = sourceAddressMatch r c /\
  has (ownState r c) ruleMatchSourcePort = anyOf GSourcePort r c /\
  has (ownState r c) ruleMatchDestinationAddress = destinationAddressMatch r c /\
  has (ownState r c) ruleMatchDestinationPort = anyOf GDestinationPort r c.
Proof.
  unfold ownState. destruct (sourceAddressMatch r c), (anyOf GSourcePort r c),
    (destinationAddressMatch r c), (anyOf GDestinationPort r c); done.
Qed.

Lemma own_ok r c : state_ok (ownState r c).
Proof.
  unfold ownState, state_ok. destruct (sourceAddressMatch r c), (anyOf GSourcePort r c),
    (destinationAddressMatch r c), (anyOf GDestinationPort r c); vm_compute; split; congruence.
Qed.

Lemma satisfied_own r c s : satisfied r c (Z.lor s (ownState r c)) = groupsHold r c s.
Proof.
  destruct (own_has r c) as (H1 & H2 & H3 & H4). unfold satisfied, groupsHold, groupHolds.
  rewrite has_lor_sa, has_lor_sp, has_lor_da, has_lor_dp.
  rewrite H1, H2, H3, H4.
  destruct (has s ruleMatchSourceAddress || _), (has s ruleMatchSourcePort || _),
    (has s ruleMatchDestinationAddress || _), (has s ruleMatchDestinationPort || _),
    (requiresSourceAddressMatch r c), (nonempty (itemsOf GSourcePort r)),
    (requiresDestinationAddressMatch r c), (nonempty (itemsOf GDestinationPort r)); done.
Qed.

(** A state that has more bits satisfies whatever a smaller one does. *)
Lemma satisfied_mono r c s t : satisfied r c s = true -> satisfied r c (Z.lor s t) = true.
Proof.
  unfold satisfied. rewrite has_lor_sa, has_lor_sp, has_lor_da, has_lor_dp.
  destruct (requiresSourceAddressMatch r c), (nonempty (itemsOf GSourcePort r)),
    (requiresDestinationAddressMatch r c), (nonempty (itemsOf GDestinationPort r)),
    (has s ruleMatchSourceAddress), (has s ruleMatchSourcePort), (has s ruleMatchDestinationAddress),
    (has s ruleMatchDestinationPort); cbn; done.
Qed.

Lemma withBase_empty base : state_ok base -> withBase emptyRuleMatchState base = singleRuleMatchState base.
Proof.
  intros Hb. assert (H0 : state_ok 0) by (unfold state_ok; lia).
  destruct (withBase_spec emptyRuleMatchState base) as [H1 H2]; [by apply single_ok|done|].
  apply states_inj; [done|by apply single_ok|]. apply set_eq. intros d.
  rewrite H2, states_single, elem_of_singleton by done. unfold emptyRuleMatchState.
  rewrite states_single by done. split.
  - intros (c & Hc & ->). apply elem_of_singleton in Hc as ->. by rewrite Z.lor_0_l.
  - intros ->. exists 0. rewrite elem_of_singleton, Z.lor_0_l. done.
Qed.

Lemma isEmpty_single s : state_ok s -> isEmpty (singleRuleMatchState s) = false.
Proof.
  intros Hs. apply isEmpty_false_iff; [by apply single_ok|]. exists s. rewrite states_single by done. set_solver.
Qed.

Lemma found_none r c s : r.(ruleSetItem) = None -> state_ok s ->
  isEmpty (found r c (Z.lor s (ownState r c))) = negb (itemsHold r c && groupsHold r c s).
Proof.
  intros Hr Hs. unfold found, itemsHold. rewrite Hr.
  destruct (forallb _ _); cbn [andb negb]; [|done].
  pose proof (state_lor _ _ Hs (own_ok r c)) as Hok.
  destruct (filterStates_spec (singleRuleMatchState (Z.lor s (ownState r c))) (satisfied r c)) as [H1 H2].
  rewrite <- satisfied_own. destruct (satisfied r c _) eqn:E; cbn [negb].
  - apply isEmpty_false_iff; [done|]. exists (Z.lor s (ownState r c)).
    rewrite H2, states_single by done. split; [set_solver|done].
  - apply isEmpty_states; [done|]. apply set_eq. intros d. rewrite H2, states_single by done.
    split; [|set_solver]. intros [Hd Hp]. apply elem_of_singleton in Hd as ->. congruence.
Qed.

Lemma invertedFailure_empty r base : state_ok base -> isEmpty (invertedFailure r base) = negb r.(invert).
Proof.
  intros Hb. unfold invertedFailure. destruct r.(invert); [|done].
  rewrite withBase_empty by done. by apply isEmpty_single.
Qed.

End Default.
End Props.
