(* ===== verification/RuleTrees.v ===== *)
(** * Logical rules, rule-sets and the inherited base

    Evaluation of any tree of rules is monotone in the base state it inherits
    and keeps that state in every result; logical rules are conjunctions and
    disjunctions of their sub-rules; a rule-set is merged branch by branch into
    the rule that refers to it. *)

From S2P Require Import Prelude GoStrings RuleState RuleItems RuleMatch RuleProps.

Local Open Scope string_scope.
Local Open Scope list_scope.
Local Open Scope Z_scope.

Lemma state_ok_0 : state_ok 0.
Proof. unfold state_ok. lia. Qed.

Lemma lor_absorb a b : Z.lor (Z.lor a b) b = Z.lor a b.
Proof. by rewrite <- Z.lor_assoc, Z.lor_diag. Qed.

Lemma lor_swap a b c : Z.lor (Z.lor a b) c = Z.lor (Z.lor a c) b.
Proof. by rewrite <- !Z.lor_assoc, (Z.lor_comm b c). Qed.

(** ** Evaluations that inherit a base

    The result is a 16-bit set, all its states contain the base, and enlarging
    the base enlarges the states. *)
Record inherits (f : Z -> Z) : Prop := {
  inherits_ok : forall b, state_ok b -> set_ok (f b);
  inherits_base : forall b d, state_ok b -> d ∈ states (f b) -> Z.lor d b = d;
  inherits_mono : forall b b' d, state_ok b -> state_ok b' -> d ∈ states (f b) ->
    Z.lor d b' ∈ states (f (Z.lor b b'));
}.

Lemma inherits_nonempty f b b' : inherits f -> state_ok b -> state_ok b' ->
  isEmpty (f b) = false -> isEmpty (f (Z.lor b b')) = false.
Proof.
  intros Hf Hb Hb' H. apply isEmpty_false_iff in H as [d Hd]; [|by apply inherits_ok].
  apply isEmpty_false_iff; [apply inherits_ok; [done|by apply state_lor]|].
  exists (Z.lor d b'). by apply inherits_mono.
Qed.

Lemma inherits_empty : inherits (fun _ => 0).
Proof.
  split; [intros; exact set_ok_0|..]; intros; rewrite states_empty in *;
    by match goal with H : _ ∈ ∅ |- _ => apply not_elem_of_empty in H end.
Qed.

Lemma inherits_single : inherits singleRuleMatchState.
Proof.
  split.
  - intros b. apply single_ok.
  - intros b d Hb Hd. rewrite states_single in Hd by done. apply elem_of_singleton in Hd as ->. apply Z.lor_diag.
  - intros b b' d Hb Hb' Hd. rewrite states_single in Hd by done. apply elem_of_singleton in Hd as ->.
    rewrite states_single by (by apply state_lor). by apply elem_of_singleton.
Qed.

Lemma inherits_ext f g : (forall b, state_ok b -> f b = g b) -> inherits f -> inherits g.
Proof.
  intros E [H1 H2 H3]. split.
  - intros b Hb. rewrite <- E by done. auto.
  - intros b d Hb. rewrite <- E by done. auto.
  - intros b b' d Hb Hb'. rewrite <- !E by (try apply state_lor; done). auto.
Qed.

Lemma inherits_withBase : inherits (withBase emptyRuleMatchState).
Proof.
  eapply inherits_ext, inherits_single. intros b Hb. symmetry. by apply withBase_empty.
Qed.

(** A test that does not look at the base decides whether the base is returned. *)
Lemma inherits_if (t : bool) f g : inherits f -> inherits g -> inherits (fun b => if t then f b else g b).
Proof. intros [? ? ?] [? ? ?]. destruct t; split; eauto. Qed.

Lemma merge_elem s t d : d ∈ states (merge s t) <-> d ∈ states s \/ d ∈ states t.
Proof. by rewrite states_merge, elem_of_union. Qed.

Lemma mergeAll_spec l : Forall set_ok l ->
  set_ok (mergeAll l) /\ forall d, d ∈ states (mergeAll l) <-> exists s, s ∈ l /\ d ∈ states s.
Proof.
  intros Hl. unfold mergeAll.
  assert (H : forall acc, set_ok acc -> set_ok (fold_left merge l acc) /\
    forall d, d ∈ states (fold_left merge l acc) <-> d ∈ states acc \/ exists s, s ∈ l /\ d ∈ states s).
  { induction Hl as [|s l Hs Hl IH]; intros acc Ha; cbn [fold_left].
    { split; [done|]. intros d. split; [by left|]. intros [?|(s & Hs & _)]; [done|].
      by apply not_elem_of_nil in Hs. }
    destruct (IH (merge acc s)) as [H1 H2]; [by apply merge_ok|]. split; [done|].
    intros d. rewrite H2, merge_elem. split.
    - intros [[?|?]|(s' & ? & ?)]; [by left|right; exists s; by split; [left|]|right; exists s'; by split; [right|]].
    - intros [?|(s' & Hin & ?)]; [by left; left|]. apply elem_of_cons in Hin as [->|?]; [by left; right|right; eauto]. }
  destruct (H 0 set_ok_0) as [H1 H2]. split; [done|]. intros d. rewrite H2, states_empty. split.
  - intros [Hd|?]; [by apply not_elem_of_empty in Hd|done].
  - by right.
Qed.

Lemma mergeAll_empty l : Forall set_ok l -> isEmpty (mergeAll l) = forallb isEmpty l.
Proof.
  intros Hl. destruct (mergeAll_spec l Hl) as [H1 H2]. destruct (forallb isEmpty l) eqn:E.
  - apply isEmpty_states; [done|]. apply set_eq. intros d. rewrite H2. split.
    + intros (s & Hs & Hd). rewrite forallb_forall in E.
      specialize (E s (proj1 (list_elem_of_In _ _) Hs)). rewrite Forall_forall in Hl.
      apply isEmpty_states in E; [|auto]. rewrite E in Hd. done.
    + intros Hd. by apply not_elem_of_empty in Hd.
  - apply isEmpty_false_iff; [done|].
    assert (exists s, s ∈ l /\ isEmpty s = false) as (s & Hs & Hne).
    { clear -E. induction l as [|s l IH]; cbn in E; [done|]. destruct (isEmpty s) eqn:Es; cbn in E.
      - destruct (IH E) as (s' & ? & ?). exists s'. by split; [right|].
      - exists s. by split; [left|]. }
    rewrite Forall_forall in Hl. apply isEmpty_false_iff in Hne as [d Hd]; [|auto].
    exists d. rewrite H2. eauto.
Qed.

Lemma map_Forall_ok {X} (fs : list X) (ev : X -> Z -> Z) b : state_ok b ->
  Forall (fun x => inherits (ev x)) fs -> Forall set_ok (map (fun x => ev x b) fs).
Proof. intros Hb H. induction H; cbn; constructor; [by apply inherits_ok|done]. Qed.

Lemma inherits_mergeAll {X} (fs : list X) (ev : X -> Z -> Z) :
  Forall (fun x => inherits (ev x)) fs -> inherits (fun b => mergeAll (map (fun x => ev x b) fs)).
Proof.
  intros H.
  assert (Hs : forall b, state_ok b -> set_ok (mergeAll (map (fun x => ev x b) fs)) /\
    forall d, d ∈ states (mergeAll (map (fun x => ev x b) fs)) <-> exists x, x ∈ fs /\ d ∈ states (ev x b)).
  { intros b Hb. destruct (mergeAll_spec _ (map_Forall_ok fs ev b Hb H)) as [H1 H2]. split; [done|].
    intros d. rewrite H2. split.
    - intros (s & Hin & Hd). apply list_elem_of_fmap in Hin as (x & -> & Hx). eauto.
    - intros (x & Hx & Hd). exists (ev x b). split; [|done]. by apply (list_elem_of_fmap_2 (fun x => ev x b)). }
  rewrite Forall_forall in H. split.
  - intros b Hb. by apply Hs.
  - intros b d Hb Hd. apply Hs in Hd as (x & Hx & Hd); [|done]. by eapply inherits_base; eauto.
  - intros b b' d Hb Hb' Hd. apply Hs in Hd as (x & Hx & Hd); [|done].
    apply Hs; [by apply state_lor|]. exists x. split; [done|]. by apply inherits_mono; [apply H|..].
Qed.

(** ** The conjunction loop *)

Lemma combineAll_spec l s : Forall set_ok l -> set_ok s ->
  match combineAll l s with
  | None => existsb isEmpty l = true
  | Some r => existsb isEmpty l = false /\ set_ok r /\ (isEmpty s = false -> isEmpty r = false)
  end.
Proof.
  intros Hl. revert s. induction Hl as [|x l Hx Hl IH]; intros s Hs; cbn [combineAll existsb]; [done|].
  destruct (isEmpty x) eqn:E; cbn [orb]; [done|].
  destruct (combine_spec s x Hs Hx) as [H1 H2]. specialize (IH _ H1).
  destruct (combineAll l _); [|done]. destruct IH as (H3 & H4 & H5). split; [done|split; [done|]].
  intros Hse. apply H5. apply isEmpty_false_iff in Hse as [a Ha]; [|done].
  apply isEmpty_false_iff in E as [b Hb]; [|done]. apply isEmpty_false_iff; [done|].
  exists (Z.lor a b). rewrite H2. eauto.
Qed.

Definition orZero (o : option Z) : Z := default 0 o.

Lemma inherits_combine f g : inherits f -> inherits g -> inherits (fun b => combine (f b) (g b)).
Proof.
  intros Hf Hg.
  assert (Hs : forall b, state_ok b -> set_ok (combine (f b) (g b)) /\ forall d,
    d ∈ states (combine (f b) (g b)) <-> exists x y, x ∈ states (f b) /\ y ∈ states (g b) /\ d = Z.lor x y)
    by (intros b Hb; apply combine_spec; by apply inherits_ok).
  split.
  - intros b Hb. by apply Hs.
  - intros b d Hb Hd. apply Hs in Hd as (x & y & Hx & Hy & ->); [|done].
    by rewrite <- Z.lor_assoc, (inherits_base g Hg b y Hb Hy).
  - intros b b' d Hb Hb' Hd. apply Hs in Hd as (x & y & Hx & Hy & ->); [|done].
    apply Hs; [by apply state_lor|]. exists (Z.lor x b'), (Z.lor y b').
    split; [by apply inherits_mono|split; [by apply inherits_mono|]].
    rewrite (Z.lor_assoc (Z.lor x b')), (lor_swap x b' y), lor_absorb. done.
Qed.

Lemma inherits_combineAll {X} (fs : list X) (ev : X -> Z -> Z) g :
  Forall (fun x => inherits (ev x)) fs -> inherits g ->
  inherits (fun b => orZero (combineAll (map (fun x => ev x b) fs) (g b))).
Proof.
  intros H. revert g. induction H as [|x l Hx Hl IH]; intros g Hg; cbn [map combineAll].
  { eapply inherits_ext, Hg. done. }
  specialize (IH _ (inherits_combine g (ev x) Hg Hx)).
  set (k := fun b => orZero (combineAll (map (fun x => ev x b) l) (combine (g b) (ev x b)))) in *.
  assert (Hk : forall b, (if isEmpty (ev x b) then 0 else k b) =
    orZero (if isEmpty (ev x b) then None else combineAll (map (fun x => ev x b) l) (combine (g b) (ev x b)))).
  { intros b. unfold k. by destruct (isEmpty _). }
  apply (inherits_ext (fun b => if isEmpty (ev x b) then 0 else k b)); [intros b _; apply Hk|].
  split.
  - intros b Hb. destruct (isEmpty _); [exact set_ok_0|by apply inherits_ok].
  - intros b d Hb Hd. destruct (isEmpty _); [rewrite states_empty in Hd; by apply not_elem_of_empty in Hd|].
    by apply (inherits_base k IH).
  - intros b b' d Hb Hb' Hd.
    destruct (isEmpty (ev x b)) eqn:E; [rewrite states_empty in Hd; by apply not_elem_of_empty in Hd|].
    rewrite (inherits_nonempty (ev x) b b') by done. by apply (inherits_mono k).
Qed.

(** ** Logical nodes *)

Lemma logical_and (inverted : bool) base eb results : Forall set_ok results -> state_ok base -> state_ok eb ->
  isEmpty (logicalResult LogicalTypeAnd inverted base eb results) =
    Bool.eqb inverted (negb (existsb isEmpty results)).
Proof.
  intros Hl Hb He. unfold logicalResult. cbn [String.eqb LogicalTypeAnd].
  rewrite (withBase_empty eb), (withBase_empty base) by done.
  pose proof (combineAll_spec results (singleRuleMatchState eb) Hl (single_ok _ He)) as H.
  change (String.eqb LogicalTypeAnd LogicalTypeAnd) with true. cbv iota.
  destruct (combineAll _ _).
  - destruct H as (-> & Hr & H). destruct inverted; cbn [negb Bool.eqb]; [done|]. by apply H, isEmpty_single.
  - rewrite H. destruct inverted; cbn; [by apply isEmpty_single|done].
Qed.

Lemma logical_or mode (inverted : bool) base eb results : mode <> LogicalTypeAnd -> Forall set_ok results -> state_ok base ->
  isEmpty (logicalResult mode inverted base eb results) =
    Bool.eqb inverted (negb (forallb isEmpty results)).
Proof.
  intros Hm Hl Hb. unfold logicalResult. apply String.eqb_neq in Hm as ->. cbv iota zeta.
  rewrite (withBase_empty base) by done.
  rewrite mergeAll_empty by done. destruct (forallb isEmpty results) eqn:E; destruct inverted; cbn [negb Bool.eqb];
    [by apply isEmpty_single|done|done|]. by rewrite mergeAll_empty.
Qed.

Lemma inherits_logical {X} (fs : list X) (ev : X -> Z -> Z) mode (inverted : bool) :
  Forall (fun x => inherits (ev x)) fs ->
  inherits (fun b => let eb := if inverted then 0 else b in
    logicalResult mode inverted b eb (map (fun x => ev x eb) fs)).
Proof.
  intros H. unfold logicalResult. destruct inverted; cbv zeta.
  - (* the results do not depend on the base *)
    destruct (String.eqb mode LogicalTypeAnd).
    + destruct (combineAll _ _); [exact inherits_empty|exact inherits_withBase].
    + apply inherits_if; [exact inherits_withBase|exact inherits_empty].
  - destruct (String.eqb mode LogicalTypeAnd).
    + apply (inherits_ext (fun b => orZero (combineAll (map (fun x => ev x b) fs) (withBase emptyRuleMatchState b)))).
      { intros b _. by destruct (combineAll _ _). }
      apply inherits_combineAll; [done|exact inherits_withBase].
    + apply (inherits_ext (fun b => mergeAll (map (fun x => ev x b) fs))).
      { intros b _. destruct (isEmpty _) eqn:E; [|done]. unfold isEmpty in E. by apply Z.eqb_eq in E as ->. }
      by apply inherits_mergeAll.
Qed.

Lemma inherits_tree {D A} (evalLeaf : D -> InboundContext -> Z -> Z) :
  (forall d c, inherits (evalLeaf d c)) -> forall (t : RuleTree D A) c, inherits (treeStates evalLeaf t c).
Proof.
  intros H t. induction t as [d|mode inverted action rules IH] using RuleTree_rect'; intros c; cbn [treeStates]; [apply H|].
  apply (inherits_logical rules (fun rule => treeStates evalLeaf rule (ResetRuleCache c)) mode inverted).
  eapply Forall_impl; [exact IH|]. cbv beta. auto.
Qed.

(** ** Default rules *)

Section Default.
Context `{RE : RuleEnv} (n : NetView).

Lemma inherits_filter f p : inherits f -> (forall s t, p s = true -> p (Z.lor s t) = true) ->
  inherits (fun b => filterStates (f b) p).
Proof.
  intros Hf Hp. split.
  - intros b _. apply filterStates_spec.
  - intros b d Hb Hd. apply filterStates_spec in Hd as [Hd _]. by eapply inherits_base; eauto.
  - intros b b' d Hb Hb' Hd. apply filterStates_spec in Hd as [Hd Hpd].
    apply filterStates_spec. split; [by apply inherits_mono|by apply Hp].
Qed.

Lemma inherits_shift f s : inherits f -> state_ok s -> inherits (fun b => f (Z.lor b s)).
Proof.
  intros Hf Hs. split.
  - intros b Hb. apply inherits_ok; [done|by apply state_lor].
  - intros b d Hb Hd. apply inherits_base in Hd; [|done|by apply state_lor].
    rewrite <- Hd at 2. rewrite <- Hd at 1. rewrite <- !Z.lor_assoc.
    f_equal. by rewrite (Z.lor_comm s b), Z.lor_assoc, Z.lor_diag.
  - intros b b' d Hb Hb' Hd. rewrite lor_swap. apply inherits_mono; [done|by apply state_lor|done|done].
Qed.

Lemma inherits_default {RS} (ev : RS -> InboundContext -> Z -> Z) r c :
  (forall item c, inherits (ev item c)) -> inherits (fun b => (matchStatesWithBase n ev r c b).2).
Proof.
  intros Hev. destruct (noItems r) eqn:E.
  { apply (inherits_ext (withBase emptyRuleMatchState)); [|exact inherits_withBase].
    intros b _. unfold matchStatesWithBase. by rewrite E. }
  eapply inherits_ext; [intros b Hb; symmetry; by apply matchStates_eq|]. cbv zeta.
  unfold invertedFailure. destruct (invert r); cbv iota.
  - apply inherits_if; [exact inherits_withBase|]. apply inherits_if; [exact inherits_withBase|exact inherits_empty].
  - apply (inherits_ext (fun b => found n ev r c (Z.lor b (ownState n r c)))).
    { intros b _. destruct (isEmpty _) eqn:E'; [|done]. by apply Z.eqb_eq in E'. }
    unfold found. apply inherits_if; [|exact inherits_empty].
    apply (inherits_filter (fun b => match ruleSetItem r with
      | Some item => ev item (set_DidMatch true c) (Z.lor b (ownState n r c))
      | None => singleRuleMatchState (Z.lor b (ownState n r c)) end)).
    2:{ intros s t. apply satisfied_mono. }
    destruct (ruleSetItem r) as [item|]; apply inherits_shift; try apply own_ok; [apply Hev|exact inherits_single].
Qed.

Lemma inherits_headless t c : inherits (headlessStates n t c).
Proof. apply inherits_tree. intros r c'. apply inherits_default. intros []. Qed.

Lemma inherits_ruleSet s c : inherits (ruleSetStates n s c).
Proof.
  apply (inherits_mergeAll (rules s) (fun rule => headlessStates n rule (ResetRuleMatchCache c))).
  apply Forall_forall. intros. apply inherits_headless.
Qed.

Lemma inherits_ruleSetItem sets item c : inherits (ruleSetItemStates n sets item c).
Proof.
  apply (inherits_mergeAll (setList item) (fun tag b => match sets !! tag with
    | Some s => ruleSetStates n s (set_AcceptEmpty (ipCidrAcceptEmpty item)
                  (set_MatchSource (ipCidrMatchSource item) (ResetRuleMatchCache c))) b
    | None => 0 end)).
  apply Forall_forall. intros tag _. destruct (sets !! tag); [apply inherits_ruleSet|exact inherits_empty].
Qed.

Lemma inherits_route {A} sets (t : RuleTree (abstractDefaultRule RuleSetItem) A) c : inherits (routeStates n sets t c).
Proof. apply inherits_tree. intros r c'. apply inherits_default. intros. apply inherits_ruleSetItem. Qed.

End Default.
