(* ===== verification/RuleMerge.v ===== *)
(** * Rule-set branches merge into the outer rule

    The documentation of the rules says that each branch of an included
    rule-set is merged into the outer rule, different branches keeping OR
    semantics.  Here a branch is merged literally, by appending its items to
    those of the outer rule, and the states the code threads through the
    rule-set are shown to decide exactly the formula of the merged rule. *)

From S2P Require Import Prelude GoStrings RuleState RuleItems RuleMatch RuleProps RuleTrees.

Local Open Scope string_scope.
Local Open Scope list_scope.
Local Open Scope Z_scope.

Section Merge.
Context `{RE : RuleEnv} (n : NetView).

(** ** Items of appended rules *)

Lemma existsb_app_eq {T} (f : T -> bool) l1 l2 : existsb f (l1 ++ l2) = existsb f l1 || existsb f l2.
Proof. apply List.existsb_app. Qed.

Lemma nonempty_app {T} (l1 l2 : list T) : nonempty (l1 ++ l2) = nonempty l1 || nonempty l2.
Proof. by destruct l1. Qed.

(** The rule with the items of both, and no rule-set left. *)
Definition mergeBranch {RS} (r : abstractDefaultRule RS) (h : abstractDefaultRule Empty_set)
  : abstractDefaultRule Empty_set :=
  mkDefaultRule (r.(taggedItems) ++ h.(taggedItems)) None false.

Lemma itemsOf_merge {RS} g (r : abstractDefaultRule RS) h :
  itemsOf g (mergeBranch r h) = itemsOf g r ++ itemsOf g h.
Proof. unfold itemsOf. cbn. by rewrite List.filter_app, map_app. Qed.

Section Two.
Context {RS : Type} (r : abstractDefaultRule RS) (h : abstractDefaultRule Empty_set) (c : InboundContext).

Lemma anyOf_merge g : anyOf n g (mergeBranch r h) c = anyOf n g r c || anyOf n g h c.
Proof. unfold anyOf, matchAnyItem. by rewrite itemsOf_merge, existsb_app_eq. Qed.

Lemma cidrSource_merge : destinationIPCIDRMatchesSource (mergeBranch r h) c =
  destinationIPCIDRMatchesSource r c || destinationIPCIDRMatchesSource h c.
Proof.
  unfold destinationIPCIDRMatchesSource. rewrite itemsOf_merge, nonempty_app. apply andb_orb_distrib_r.
Qed.

Lemma cidrDestination_merge : destinationIPCIDRMatchesDestination (mergeBranch r h) c =
  destinationIPCIDRMatchesDestination r c || destinationIPCIDRMatchesDestination h c.
Proof.
  unfold destinationIPCIDRMatchesDestination. rewrite itemsOf_merge, nonempty_app. apply andb_orb_distrib_r.
Qed.

Lemma matchAny_empty items : nonempty items = false -> matchAnyItem n items c = false.
Proof. by destruct items. Qed.

(** An [ip_cidr] condition that does not apply has no items to match with. *)
Lemma cidr_dead {RS'} (x : abstractDefaultRule RS') (b : bool) :
  b && nonempty (itemsOf GDestinationIPCIDR x) && anyOf n GDestinationIPCIDR x c = b && anyOf n GDestinationIPCIDR x c.
Proof.
  destruct b; [|done]. cbn [andb]. destruct (nonempty _) eqn:E; [done|]. symmetry. by apply matchAny_empty.
Qed.

Lemma sourceAddress_merge : sourceAddressMatch n (mergeBranch r h) c =
  sourceAddressMatch n r c || sourceAddressMatch n h c.
Proof.
  unfold sourceAddressMatch, destinationIPCIDRMatchesSource. rewrite !cidr_dead, !anyOf_merge.
  destruct (negb _ && _), (anyOf n GSourceAddress r c), (anyOf n GSourceAddress h c),
    (anyOf n GDestinationIPCIDR r c), (anyOf n GDestinationIPCIDR h c); done.
Qed.

Lemma destinationAddress_merge : destinationAddressMatch n (mergeBranch r h) c =
  destinationAddressMatch n r c || destinationAddressMatch n h c.
Proof.
  unfold destinationAddressMatch, destinationIPCIDRMatchesDestination. rewrite !cidr_dead, !anyOf_merge.
  destruct (negb _ && _), (anyOf n GDestinationAddress r c), (anyOf n GDestinationAddress h c),
    (anyOf n GDestinationIPCIDR r c), (anyOf n GDestinationIPCIDR h c); done.
Qed.

Lemma own_merge : ownState n (mergeBranch r h) c = Z.lor (ownState n r c) (ownState n h c).
Proof.
  unfold ownState. rewrite sourceAddress_merge, destinationAddress_merge, !anyOf_merge.
  destruct (sourceAddressMatch n r c), (sourceAddressMatch n h c), (destinationAddressMatch n r c),
    (destinationAddressMatch n h c), (anyOf n GSourcePort r c), (anyOf n GSourcePort h c),
    (anyOf n GDestinationPort r c), (anyOf n GDestinationPort h c); vm_compute; done.
Qed.

Lemma satisfied_merge s : satisfied (mergeBranch r h) c s = satisfied r c s && satisfied h c s.
Proof.
  unfold satisfied, requiresSourceAddressMatch, requiresDestinationAddressMatch.
  rewrite cidrSource_merge, cidrDestination_merge, !itemsOf_merge, !nonempty_app.
  destruct (has s ruleMatchSourceAddress), (has s ruleMatchSourcePort), (has s ruleMatchDestinationAddress),
    (has s ruleMatchDestinationPort); cbn [negb]; rewrite ?andb_false_r, ?andb_true_r;
  repeat match goal with |- context [nonempty ?l] => destruct (nonempty l) end;
  destruct (destinationIPCIDRMatchesSource r c), (destinationIPCIDRMatchesSource h c),
    (destinationIPCIDRMatchesDestination r c), (destinationIPCIDRMatchesDestination h c); done.
Qed.

Lemma itemsHold_merge : itemsHold n (mergeBranch r h) c = itemsHold n r c && itemsHold n h c.
Proof. unfold itemsHold. by rewrite itemsOf_merge, forallb_app. Qed.

(** The formula of the merged rule, in terms of its two parts. *)
Lemma formula_merge : formula n (mergeBranch r h) c =
  (itemsHold n r c && satisfied r c (Z.lor (ownState n r c) (ownState n h c))) &&
  (itemsHold n h c && satisfied h c (Z.lor (ownState n r c) (ownState n h c))).
Proof.
  unfold formula. rewrite <- satisfied_own, Z.lor_0_l, own_merge, satisfied_merge, itemsHold_merge.
  destruct (itemsHold n r c), (itemsHold n h c); cbn [andb]; rewrite ?andb_false_r; done.
Qed.

End Two.

(** ** Branches seen from the outer rule *)

(** With [rule_set_ip_cidr_match_source] the [ip_cidr] items of a branch are
    source conditions. *)
Definition itemAsSource (p : ItemGroup * RuleItem) : ItemGroup * RuleItem :=
  match p.2 with
  | IPCIDRItem ipSet false => (GSourceAddress, IPCIDRItem ipSet true)
  | _ => p
  end.

Definition asSource (h : abstractDefaultRule Empty_set) : abstractDefaultRule Empty_set :=
  mkDefaultRule (map itemAsSource h.(taggedItems)) None h.(invert).

Definition branchOf (item : RuleSetItem) (h : abstractDefaultRule Empty_set) : abstractDefaultRule Empty_set :=
  if item.(ipCidrMatchSource) then asSource h else h.

(** In a headless rule the destination [ip_cidr] group holds exactly the
    non-source [IPCIDRItem]s. *)
Definition cidrGrouped (p : ItemGroup * RuleItem) : bool :=
  match p.2 with
  | IPCIDRItem _ false => bool_decide (p.1 = GDestinationIPCIDR)
  | _ => negb (bool_decide (p.1 = GDestinationIPCIDR))
  end.

(** A branch the theorem covers: a default rule that does not invert. *)
Definition plainBranch (t : RuleTree (abstractDefaultRule Empty_set) unit) : Prop :=
  exists h, t = DefaultLeaf h /\ h.(invert) = false /\ forallb cidrGrouped h.(taggedItems) = true.

(** The metadata of a rule at the start of its evaluation. *)
Definition freshMetadata (c : InboundContext) : Prop :=
  c.(IPCIDRMatchSource) = false /\ c.(IPCIDRAcceptEmpty) = false /\ c.(IgnoreDestinationIPCIDRMatch) = false.

(** The copy a branch is evaluated with. *)
Definition branchMetadata (item : RuleSetItem) (c : InboundContext) : InboundContext :=
  ResetRuleMatchCache (set_AcceptEmpty item.(ipCidrAcceptEmpty)
    (set_MatchSource item.(ipCidrMatchSource) (ResetRuleMatchCache (set_DidMatch true c)))).

Lemma Match_branch item c g it : freshMetadata c -> item.(ipCidrAcceptEmpty) = false ->
  cidrGrouped (g, it) = true ->
  Match it n (branchMetadata item c) =
    Match (if item.(ipCidrMatchSource) then (itemAsSource (g, it)).2 else it) n c.
Proof.
  intros (Hs & He & _) Ha Hg. unfold branchMetadata. rewrite Ha.
  destruct (ipCidrMatchSource item); destruct it; try done.
  - destruct isSource; cbn; done.
  - cbn. unfold matchIPCIDR. cbn. rewrite Hs, He. done.
Qed.

Lemma anyOf_groups (g : ItemGroup) {RS} (h : abstractDefaultRule RS) c :
  anyOf n g h c = existsb (fun p => bool_decide (p.1 = g) && Match p.2 n c) h.(taggedItems).
Proof.
  unfold anyOf, matchAnyItem, itemsOf. induction (taggedItems h) as [|p l IH]; cbn; [done|].
  destruct (bool_decide (p.1 = g)); cbn; by rewrite IH.
Qed.

Lemma nonempty_groups (g : ItemGroup) {RS} (h : abstractDefaultRule RS) :
  nonempty (itemsOf g h) = existsb (fun p => bool_decide (p.1 = g)) h.(taggedItems).
Proof.
  unfold itemsOf. induction (taggedItems h) as [|p l IH]; cbn; [done|].
  destruct (bool_decide (p.1 = g)); cbn; [done|by rewrite IH].
Qed.

Lemma itemsHold_groups {RS} (h : abstractDefaultRule RS) c :
  itemsHold n h c = forallb (fun p => negb (bool_decide (p.1 = GItems)) || Match p.2 n c) h.(taggedItems).
Proof.
  unfold itemsHold, itemsOf. induction (taggedItems h) as [|p l IH]; cbn; [done|].
  destruct (bool_decide (p.1 = GItems)); cbn; by rewrite IH.
Qed.

(** What the branch decides with its copy of the metadata is what the rule with
    its items decides with the outer metadata. *)
Record branch_agrees (item : RuleSetItem) (h : abstractDefaultRule Empty_set) (c : InboundContext) : Prop := {
  agrees_items : itemsHold n h (branchMetadata item c) = itemsHold n (branchOf item h) c;
  agrees_own : ownState n h (branchMetadata item c) = ownState n (branchOf item h) c;
  agrees_satisfied s : satisfied h (branchMetadata item c) s = satisfied (branchOf item h) c s;
}.

Lemma existsb_or {T} (f g k : T -> bool) l : (forall x, List.In x l -> f x = g x || k x) ->
  existsb f l = existsb g l || existsb k l.
Proof.
  induction l as [|x l IH]; intros H; cbn; [done|]. rewrite H, IH by (by left) || (intros; apply H; by right).
  destruct (g x), (k x), (existsb g l), (existsb k l); done.
Qed.

Lemma existsb_eq {T} (f g : T -> bool) l : (forall x, List.In x l -> f x = g x) -> existsb f l = existsb g l.
Proof. induction l as [|x l IH]; intros H; cbn; [done|]. rewrite H, IH; auto with datatypes. Qed.

Lemma existsb_none {T} (f : T -> bool) l : (forall x, List.In x l -> f x = false) -> existsb f l = false.
Proof. induction l as [|x l IH]; intros H; cbn; [done|]. rewrite H, IH; auto with datatypes. Qed.

Lemma existsb_map' {T U} (f : U -> bool) (g : T -> U) l : existsb f (map g l) = existsb (fun x => f (g x)) l.
Proof. induction l as [|x l IH]; cbn; [done|by rewrite IH]. Qed.

Lemma forallb_eq {T} (f g : T -> bool) l : (forall x, List.In x l -> f x = g x) -> forallb f l = forallb g l.
Proof. induction l as [|x l IH]; intros H; cbn; [done|]. rewrite H, IH; auto with datatypes. Qed.

Lemma forallb_map' {T U} (f : U -> bool) (g : T -> U) l : forallb f (map g l) = forallb (fun x => f (g x)) l.
Proof. induction l as [|x l IH]; cbn; [done|by rewrite IH]. Qed.


Lemma asSource_group p : cidrGrouped p = true ->
  (itemAsSource p).1 = if bool_decide (p.1 = GDestinationIPCIDR) then GSourceAddress else p.1.
Proof.
  destruct p as [g it]. unfold cidrGrouped, itemAsSource. cbn.
  destruct it; cbn; try (intros H; zbool; by rewrite H).
  destruct isSource; cbn; intros H; zbool; by rewrite H.
Qed.

Section Agree.
Context (item : RuleSetItem) (h : abstractDefaultRule Empty_set) (c : InboundContext).
Hypothesis Hc : freshMetadata c.
Hypothesis Ha : item.(ipCidrAcceptEmpty) = false.
Hypothesis Hg : forallb cidrGrouped h.(taggedItems) = true.

Local Abbreviation c' := (branchMetadata item c).

Lemma grouped_in p : List.In p h.(taggedItems) -> cidrGrouped p = true.
Proof. intros Hp. rewrite forallb_forall in Hg. auto. Qed.

Lemma anyOf_same g : item.(ipCidrMatchSource) = false -> anyOf n g h c' = anyOf n g h c.
Proof.
  intros Hm. rewrite !anyOf_groups. apply existsb_eq. intros [g' it] Hp. cbn.
  rewrite (Match_branch item c g' it Hc Ha) by (by apply grouped_in). by rewrite Hm.
Qed.

Lemma anyOf_other g : item.(ipCidrMatchSource) = true -> g <> GSourceAddress -> g <> GDestinationIPCIDR ->
  anyOf n g h c' = anyOf n g (asSource h) c.
Proof.
  intros Hm H1 H2. rewrite !anyOf_groups. cbn [taggedItems asSource]. rewrite existsb_map'.
  apply existsb_eq. intros [g' it] Hp. pose proof (grouped_in _ Hp) as Hgr.
  rewrite (asSource_group _ Hgr). cbn [fst snd].
  rewrite (Match_branch item c g' it Hc Ha Hgr), Hm.
  case_bool_decide; case_bool_decide; repeat case_bool_decide; simplify_eq; done.
Qed.

Lemma anyOf_source : item.(ipCidrMatchSource) = true ->
  anyOf n GSourceAddress (asSource h) c = anyOf n GSourceAddress h c' || anyOf n GDestinationIPCIDR h c'.
Proof.
  intros Hm. rewrite !anyOf_groups. cbn [taggedItems asSource]. rewrite existsb_map'.
  apply existsb_or. intros [g' it] Hp. pose proof (grouped_in _ Hp) as Hgr.
  rewrite (asSource_group _ Hgr). cbn [fst snd].
  rewrite (Match_branch item c g' it Hc Ha Hgr), Hm.
  destruct (Match _ n c); repeat case_bool_decide; simplify_eq; done.
Qed.

Lemma nonempty_other g : g <> GSourceAddress -> g <> GDestinationIPCIDR ->
  nonempty (itemsOf g (asSource h)) = nonempty (itemsOf g h).
Proof.
  intros H1 H2. rewrite !nonempty_groups. cbn [taggedItems asSource]. rewrite existsb_map'.
  apply existsb_eq. intros p Hp. rewrite (asSource_group _ (grouped_in _ Hp)).
  repeat case_bool_decide; simplify_eq; done.
Qed.

Lemma nonempty_source : nonempty (itemsOf GSourceAddress (asSource h)) =
  nonempty (itemsOf GSourceAddress h) || nonempty (itemsOf GDestinationIPCIDR h).
Proof.
  rewrite !nonempty_groups. cbn [taggedItems asSource]. rewrite existsb_map'.
  apply existsb_or. intros p Hp. rewrite (asSource_group _ (grouped_in _ Hp)).
  repeat case_bool_decide; simplify_eq; done.
Qed.

Lemma nonempty_cidr : nonempty (itemsOf GDestinationIPCIDR (asSource h)) = false.
Proof.
  rewrite !nonempty_groups. cbn [taggedItems asSource]. rewrite existsb_map'.
  apply existsb_none. intros p Hp. rewrite (asSource_group _ (grouped_in _ Hp)).
  repeat case_bool_decide; simplify_eq; done.
Qed.

Lemma itemsHold_branch : itemsHold n h c' = itemsHold n (branchOf item h) c.
Proof.
  unfold branchOf. destruct (ipCidrMatchSource item) eqn:Hm; rewrite !itemsHold_groups.
  - cbn [taggedItems asSource]. rewrite forallb_map'. apply forallb_eq. intros [g' it] Hp.
    pose proof (grouped_in _ Hp) as Hgr. rewrite (asSource_group _ Hgr). cbn [fst snd].
    rewrite (Match_branch item c g' it Hc Ha Hgr), Hm.
    repeat case_bool_decide; simplify_eq; done.
  - apply forallb_eq. intros [g' it] Hp.
    cbn [fst snd]. rewrite (Match_branch item c g' it Hc Ha) by (by apply grouped_in). by rewrite Hm.
Qed.

Lemma branch_agrees_intro : branch_agrees item h c.
Proof.
  destruct Hc as (Hs & He & Hi).
  split; [exact itemsHold_branch|..]; unfold branchOf; destruct (ipCidrMatchSource item) eqn:Hm.
  - unfold ownState, sourceAddressMatch, destinationAddressMatch, destinationIPCIDRMatchesSource,
      destinationIPCIDRMatchesDestination.
    rewrite !cidr_dead, anyOf_source by done.
    rewrite <- (anyOf_other GSourcePort), <- (anyOf_other GDestinationAddress),
      <- (anyOf_other GDestinationPort) by done.
    cbn [branchMetadata IgnoreDestinationIPCIDRMatch IPCIDRMatchSource
      ResetRuleMatchCache set_AcceptEmpty set_MatchSource set_DidMatch].
    rewrite Hs, Hi, Hm. cbn [negb andb]. rewrite !orb_false_r.
    replace (anyOf n GDestinationIPCIDR (asSource h) c) with false
      by (symmetry; apply matchAny_empty, nonempty_cidr).
    by rewrite ?andb_false_r, ?orb_false_r.
  - unfold ownState, sourceAddressMatch, destinationAddressMatch, destinationIPCIDRMatchesSource,
      destinationIPCIDRMatchesDestination.
    rewrite !anyOf_same by done. cbn [branchMetadata IgnoreDestinationIPCIDRMatch IPCIDRMatchSource
      ResetRuleMatchCache set_AcceptEmpty set_MatchSource set_DidMatch]. by rewrite Hs, Hm.
  - intros s. unfold satisfied, requiresSourceAddressMatch, requiresDestinationAddressMatch,
      destinationIPCIDRMatchesSource, destinationIPCIDRMatchesDestination.
    rewrite nonempty_source, nonempty_cidr, (nonempty_other GSourcePort), (nonempty_other GDestinationAddress),
      (nonempty_other GDestinationPort) by done.
    cbn [branchMetadata IgnoreDestinationIPCIDRMatch IPCIDRMatchSource
      ResetRuleMatchCache set_AcceptEmpty set_MatchSource set_DidMatch].
    rewrite Hs, Hi, Hm. cbn [negb andb]. by rewrite !orb_false_r.
  - intros s. unfold satisfied, requiresSourceAddressMatch, requiresDestinationAddressMatch,
      destinationIPCIDRMatchesSource, destinationIPCIDRMatchesDestination.
    cbn [branchMetadata IgnoreDestinationIPCIDRMatch IPCIDRMatchSource
      ResetRuleMatchCache set_AcceptEmpty set_MatchSource set_DidMatch]. by rewrite Hs, Hm.
Qed.

End Agree.

(** ** The states of one branch *)

Lemma noItems_facts {RS} (h : abstractDefaultRule RS) c : noItems h = true ->
  ownState n h c = 0 /\ itemsHold n h c = true /\ forall s, satisfied h c s = true.
Proof.
  destruct h as [[|] [|] inv]; try done. intros _.
  unfold ownState, sourceAddressMatch, destinationAddressMatch, satisfied, requiresSourceAddressMatch,
    requiresDestinationAddressMatch, destinationIPCIDRMatchesSource, destinationIPCIDRMatchesDestination.
  cbn. rewrite !andb_false_r. done.
Qed.

Lemma leaf_states (h : abstractDefaultRule Empty_set) c base d : h.(invert) = false -> state_ok base ->
  d ∈ states (matchStatesWithBase n noRuleSet h c base).2 <->
    itemsHold n h c && satisfied h c d = true /\ d = Z.lor base (ownState n h c).
Proof.
  intros Hi Hb. destruct (noItems h) eqn:E.
  - unfold matchStatesWithBase. rewrite E. cbn [snd]. rewrite withBase_empty, states_single, elem_of_singleton by done.
    destruct (noItems_facts h c E) as (-> & -> & Hs). rewrite Hs, Z.lor_0_r. split; [by intros ->|by intros [_ ->]].
  - rewrite matchStates_eq by done. cbv zeta. unfold invertedFailure. rewrite Hi.
    pose proof (state_lor _ _ Hb (own_ok n h c)) as Hok.
    assert (Hf : d ∈ states (found n noRuleSet h c (Z.lor base (ownState n h c))) <->
      itemsHold n h c && satisfied h c d = true /\ d = Z.lor base (ownState n h c)).
    { unfold found, itemsHold. destruct (ruleSetItem h) as [[]|] eqn:Hr.
      destruct (forallb _ _); cbn [andb].
      - rewrite (proj2 (filterStates_spec _ _) d), states_single, elem_of_singleton by done. tauto.
      - rewrite states_empty. split; [intros Hd; by apply not_elem_of_empty in Hd|naive_solver]. }
    rewrite <- Hf. destruct (isEmpty _) eqn:E'; [|done]. apply Z.eqb_eq in E' as ->. done.
Qed.

(** The branches of the rule-sets an item refers to. *)
Definition branches (sets : gmap string RuleSet) (item : RuleSetItem) : list (abstractDefaultRule Empty_set) :=
  List.concat (map (fun tag =>
    match sets !! tag with
    | Some s => List.concat (map (fun t => match t with DefaultLeaf h => [h] | _ => [] end) s.(rules))
    | None => []
    end) item.(setList)).

Definition plainSets (sets : gmap string RuleSet) (item : RuleSetItem) : Prop :=
  forall tag s, tag ∈ item.(setList) -> sets !! tag = Some s -> Forall plainBranch s.(rules).

Lemma in_branches sets item h : plainSets sets item -> List.In h (branches sets item) <->
  exists tag s, tag ∈ item.(setList) /\ sets !! tag = Some s /\ DefaultLeaf h ∈ s.(rules).
Proof.
  intros Hp. unfold branches. rewrite in_concat. split.
  - intros (l & Hl & Hh). apply in_map_iff in Hl as (tag & <- & Htag). apply list_elem_of_In in Htag.
    destruct (sets !! tag) as [s|] eqn:E; [|done]. apply in_concat in Hh as (l & Hl & Hh).
    apply in_map_iff in Hl as (t & <- & Ht). apply list_elem_of_In in Ht.
    destruct t as [h'|]; [|done]. destruct Hh as [->|[]]. eauto.
  - intros (tag & s & Htag & Hs & Hh). eexists. split.
    + apply in_map_iff. exists tag. split; [reflexivity|by apply list_elem_of_In].
    + rewrite Hs. apply in_concat. exists [h]. split; [|by left].
      apply in_map_iff. exists (DefaultLeaf h). split; [done|by apply list_elem_of_In].
Qed.

Lemma item_states sets item c base d : plainSets sets item -> state_ok base ->
  d ∈ states (ruleSetItemStates n sets item (set_DidMatch true c) base) <->
  exists h, List.In h (branches sets item) /\
    d ∈ states (matchStatesWithBase n noRuleSet h (branchMetadata item c) base).2.
Proof.
  intros Hp Hb. unfold ruleSetItemStates.
  assert (Hok : Forall set_ok (map (fun tag =>
    match sets !! tag with
    | Some s => ruleSetStates n s (set_AcceptEmpty (ipCidrAcceptEmpty item)
        (set_MatchSource (ipCidrMatchSource item) (ResetRuleMatchCache (set_DidMatch true c)))) base
    | None => 0 end) (setList item))).
  { apply Forall_forall. intros x Hx. apply list_elem_of_fmap in Hx as (tag & -> & _).
    destruct (sets !! tag); [apply inherits_ruleSet; done|exact set_ok_0]. }
  rewrite (proj2 (mergeAll_spec _ Hok) d). setoid_rewrite in_branches; [|done]. split.
  - intros (x & Hx & Hd). apply list_elem_of_fmap in Hx as (tag & -> & Htag).
    destruct (sets !! tag) as [s|] eqn:E; [|rewrite states_empty in Hd; by apply not_elem_of_empty in Hd].
    unfold ruleSetStates in Hd. apply mergeAll_spec in Hd as (y & Hy & Hd).
    + apply list_elem_of_fmap in Hy as (t & -> & Ht).
      pose proof (Hp tag s Htag E) as Hpl. rewrite Forall_forall in Hpl.
      destruct (Hpl t Ht) as (h & -> & _ & _). exists h. split; [eauto|]. exact Hd.
    + apply Forall_forall. intros y Hy. apply list_elem_of_fmap in Hy as (t & -> & _). by apply inherits_headless.
  - intros (h & (tag & s & Htag & Hs & Hh) & Hd). eexists. split.
    + apply list_elem_of_fmap. exists tag. split; [reflexivity|done].
    + rewrite Hs. unfold ruleSetStates. apply mergeAll_spec.
      { apply Forall_forall. intros y Hy. apply list_elem_of_fmap in Hy as (t & -> & _). by apply inherits_headless. }
      eexists. split; [apply list_elem_of_fmap; exists (DefaultLeaf h); split; [reflexivity|done]|exact Hd].
Qed.

(** The rule with a rule-set has a state exactly when some merged branch holds. *)
Lemma found_branches sets r item c : r.(ruleSetItem) = Some item -> plainSets sets item -> freshMetadata c ->
  item.(ipCidrAcceptEmpty) = false ->
  isEmpty (found n (ruleSetItemStates n sets) r c (ownState n r c)) =
    negb (existsb (fun h => formula n (mergeBranch r (branchOf item h)) c) (branches sets item)).
Proof.
  intros Hr Hp Hc Ha. pose proof (own_ok n r c) as Hok.
  assert (Hpl : forall h, List.In h (branches sets item) -> h.(invert) = false /\ branch_agrees item h c).
  { intros h Hh. apply in_branches in Hh as (tag & s & Htag & Hs & Hh); [|done].
    pose proof (Hp tag s Htag Hs) as Hf. rewrite Forall_forall in Hf.
    destruct (Hf _ Hh) as (h' & [= <-] & Hi & Hg). split; [done|by apply branch_agrees_intro]. }
  unfold found. rewrite Hr. fold (itemsHold n r c).
  assert (Hset : set_ok (filterStates (ruleSetItemStates n sets item (set_DidMatch true c) (ownState n r c))
    (satisfied r c))) by apply filterStates_spec.
  destruct (existsb _ _) eqn:E; cbn [negb].
  - apply existsb_exists in E as (h & Hh & Hf). rewrite formula_merge in Hf.
    apply andb_true_iff in Hf as [H1 H2]. apply andb_true_iff in H1 as [H1 H3]. rewrite H1.
    apply isEmpty_false_iff; [done|]. exists (Z.lor (ownState n r c) (ownState n (branchOf item h) c)).
    apply filterStates_spec. split; [|done]. apply item_states; [done..|]. exists h. split; [done|].
    destruct (Hpl h Hh) as [Hi [A1 A2 A3]].
    rewrite leaf_states by done. rewrite A1, A2, A3. done.
  - destruct (itemsHold n r c) eqn:Hr'; [|done].
    apply isEmpty_states; [done|]. apply set_eq. intros d. split; [|intros Hd; by apply not_elem_of_empty in Hd].
    intros Hd. apply filterStates_spec in Hd as [Hd Hs]. apply item_states in Hd as (h & Hh & Hd); [|done..].
    destruct (Hpl h Hh) as [Hi [A1 A2 A3]]. rewrite leaf_states, A1, A2, A3 in Hd by done.
    destruct Hd as [Hd ->]. exfalso.
    assert (Hf : formula n (mergeBranch r (branchOf item h)) c = true) by (rewrite formula_merge, Hr', Hs; done).
    assert (Ht : existsb (fun h => formula n (mergeBranch r (branchOf item h)) c) (branches sets item) = true)
      by (apply existsb_exists; eauto).
    congruence.
Qed.

End Merge.
