(* ===== verification/RuleBuild.v ===== *)
(** * Building rules from options

    [src/route/rule/rule_headless.go] ([NewHeadlessRule] and the constructors it
    calls), the metadata of rule-sets ([src/route/rule/rule_set.go]) and the
    reload of a local rule-set ([src/route/rule/rule_set_local.go]), with the
    option types of [src/option/rule_set.go].

    A constructor in the source is a sequence of blocks, each of which appends
    one item to its group and to [allItems] or returns an error: here it is the
    list of these blocks, run until the first error. *)

From S2P Require Import Prelude GoStrings RuleState RuleItems RuleMatch.

Local Open Scope string_scope.
Local Open Scope list_scope.
Local Open Scope Z_scope.

Definition isSome {T} (o : option T) : bool := match o with Some _ => true | None => false end.

Definition RuleTypeDefault : string := "default".
Definition RuleTypeLogical : string := "logical".

(** Options of a rule: its type, the options of a default rule, and those of a
    logical rule (mode, sub-rules, inversion, action). *)
Inductive OptionTree (D A : Type) :=
| OptionRule (type : string) (defaultOptions : D) (mode : string) (rules : list (OptionTree D A))
    (inverted : bool) (action : A).
Arguments OptionRule {_ _} _ _ _ _ _ _.

Definition optType {D A} (t : OptionTree D A) : string := let '(OptionRule ty _ _ _ _ _) := t in ty.

Section OptionInd.
Context {D A : Type} (P : OptionTree D A -> Prop).
Hypothesis H : forall ty d mode rules inverted action, Forall P rules -> P (OptionRule ty d mode rules inverted action).

Fixpoint OptionTree_rect' (t : OptionTree D A) : P t :=
  match t with
  | OptionRule ty d mode rules inverted action =>
      H ty d mode rules inverted action
        ((fix go (l : list (OptionTree D A)) : Forall P l :=
            match l with
            | [] => @List.Forall_nil _ P
            | x :: l' => @List.Forall_cons _ P x l' (OptionTree_rect' x) (go l')
            end) rules)
  end.
End OptionInd.

Section Build.
Context `{RE : RuleEnv}.

(** ** Blocks *)

Abbreviation block := (list (result error (ItemGroup * RuleItem))) (only parsing).

(** [if cond { item := New...; append }] *)
Definition cond (b : bool) (g : ItemGroup) (item : RuleItem) : block := if b then [Ok (g, item)] else [].

(** [if cond { item, err := New...; if err != nil { return } ; append }] *)
Definition condErr (b : bool) (g : ItemGroup) (item : result error RuleItem) (wrap : error -> error) : block :=
  if b then [match item with Ok it => Ok (g, it) | Err e => Err (wrap e) end] else [].

(** [if cond { return nil, err }] *)
Definition reject (b : bool) (e : error) : block := if b then [Err e] else [].

Fixpoint runBlocks (l : block) : result error (list (ItemGroup * RuleItem)) :=
  match l with
  | [] => Ok []
  | Err e :: _ => Err e
  | Ok p :: rest => match runBlocks rest with Err e => Err e | Ok ps => Ok (p :: ps) end
  end.

(** ** Headless rules *)

(** [option.DefaultHeadlessRule] *)
Record HeadlessOptions := mkHeadlessOptions {
  ho_QueryType : list Z;
  ho_Network : list string;
  ho_Domain : list string;
  ho_DomainSuffix : list string;
  ho_DomainKeyword : list string;
  ho_DomainRegex : list string;
  ho_SourceIPCIDR : list string;
  ho_IPCIDR : list string;
  ho_SourcePort : list Z;
  ho_SourcePortRange : list string;
  ho_Port : list Z;
  ho_PortRange : list string;
  ho_ProcessName : list string;
  ho_ProcessPath : list string;
  ho_ProcessPathRegex : list string;
  ho_PackageName : list string;
  ho_NetworkType : list Z;
  ho_NetworkIsExpensive : bool;
  ho_NetworkIsConstrained : bool;
  ho_WIFISSID : list string;
  ho_WIFIBSSID : list string;
  ho_NetworkInterfaceAddress : option (list (Z * list Prefix));
  ho_DefaultInterfaceAddress : list Prefix;
  ho_Invert : bool;
  ho_DomainMatcher : option Matcher;
  ho_SourceIPSet : option IPSet;
  ho_IPSet : option IPSet;
  ho_AdGuardDomain : list string;
  ho_AdGuardDomainMatcher : option AdGuardMatcher;
}.

Definition noHeadlessOptions : HeadlessOptions :=
  mkHeadlessOptions [] [] [] [] [] [] [] [] [] [] [] [] [] [] [] [] [] false false [] [] None [] false None None None [] None.

(** [reflect.DeepEqual] with the zero value but for [Invert]; absent and empty
    lists are not told apart. *)
Definition HeadlessOptions_IsValid (o : HeadlessOptions) : bool :=
  nonempty o.(ho_QueryType) || nonempty o.(ho_Network) || nonempty o.(ho_Domain) ||
  nonempty o.(ho_DomainSuffix) || nonempty o.(ho_DomainKeyword) || nonempty o.(ho_DomainRegex) ||
  nonempty o.(ho_SourceIPCIDR) || nonempty o.(ho_IPCIDR) || nonempty o.(ho_SourcePort) ||
  nonempty o.(ho_SourcePortRange) || nonempty o.(ho_Port) || nonempty o.(ho_PortRange) ||
  nonempty o.(ho_ProcessName) || nonempty o.(ho_ProcessPath) || nonempty o.(ho_ProcessPathRegex) ||
  nonempty o.(ho_PackageName) || nonempty o.(ho_NetworkType) || o.(ho_NetworkIsExpensive) ||
  o.(ho_NetworkIsConstrained) || nonempty o.(ho_WIFISSID) || nonempty o.(ho_WIFIBSSID) ||
  isSome o.(ho_NetworkInterfaceAddress) || nonempty o.(ho_DefaultInterfaceAddress) ||
  isSome o.(ho_DomainMatcher) || isSome o.(ho_SourceIPSet) || isSome o.(ho_IPSet) ||
  nonempty o.(ho_AdGuardDomain) || isSome o.(ho_AdGuardDomainMatcher).

Abbreviation HeadlessRuleOptions := (OptionTree HeadlessOptions unit) (only parsing).

(** [haveNetworkManager] is [networkManager != nil]. *)
Definition headlessBlocks (haveNetworkManager : bool) (o : HeadlessOptions) : block :=
  cond (nonempty o.(ho_QueryType)) GItems (NewQueryTypeItem o.(ho_QueryType)) ++
  cond (nonempty o.(ho_Network)) GItems (NewNetworkItem o.(ho_Network)) ++
  (if nonempty o.(ho_Domain) || nonempty o.(ho_DomainSuffix) then
     condErr true GDestinationAddress (NewDomainItem o.(ho_Domain) o.(ho_DomainSuffix)) id
   else match o.(ho_DomainMatcher) with
        | Some m => cond true GDestinationAddress (NewRawDomainItem m)
        | None => []
        end) ++
  cond (nonempty o.(ho_DomainKeyword)) GDestinationAddress (NewDomainKeywordItem o.(ho_DomainKeyword)) ++
  condErr (nonempty o.(ho_DomainRegex)) GDestinationAddress (NewDomainRegexItem o.(ho_DomainRegex))
    (fun e => E_Cause e ["domain_regex"]) ++
  (if nonempty o.(ho_SourceIPCIDR) then
     condErr true GSourceAddress (NewIPCIDRItem true o.(ho_SourceIPCIDR)) (fun e => E_Cause e ["source_ip_cidr"])
   else match o.(ho_SourceIPSet) with
        | Some s => cond true GSourceAddress (NewRawIPCIDRItem true s)
        | None => []
        end) ++
  (if nonempty o.(ho_IPCIDR) then
     condErr true GDestinationIPCIDR (NewIPCIDRItem false o.(ho_IPCIDR)) (fun e => E_Cause e ["ipcidr"])
   else match o.(ho_IPSet) with
        | Some s => cond true GDestinationIPCIDR (NewRawIPCIDRItem false s)
        | None => []
        end) ++
  cond (nonempty o.(ho_SourcePort)) GSourcePort (NewPortItem true o.(ho_SourcePort)) ++
  condErr (nonempty o.(ho_SourcePortRange)) GSourcePort (NewPortRangeItem true o.(ho_SourcePortRange))
    (fun e => E_Cause e ["source_port_range"]) ++
  cond (nonempty o.(ho_Port)) GDestinationPort (NewPortItem false o.(ho_Port)) ++
  condErr (nonempty o.(ho_PortRange)) GDestinationPort (NewPortRangeItem false o.(ho_PortRange))
    (fun e => E_Cause e ["port_range"]) ++
  cond (nonempty o.(ho_ProcessName)) GItems (NewProcessItem o.(ho_ProcessName)) ++
  cond (nonempty o.(ho_ProcessPath)) GItems (NewProcessPathItem o.(ho_ProcessPath)) ++
  condErr (nonempty o.(ho_ProcessPathRegex)) GItems (NewProcessPathRegexItem o.(ho_ProcessPathRegex))
    (fun e => E_Cause e ["process_path_regex"]) ++
  cond (nonempty o.(ho_PackageName)) GItems (NewPackageNameItem o.(ho_PackageName)) ++
  (if haveNetworkManager then
     cond (nonempty o.(ho_NetworkType)) GItems (NewNetworkTypeItem o.(ho_NetworkType)) ++
     cond o.(ho_NetworkIsExpensive) GItems NewNetworkIsExpensiveItem ++
     cond o.(ho_NetworkIsConstrained) GItems NewNetworkIsConstrainedItem ++
     cond (nonempty o.(ho_WIFISSID)) GItems (NewWIFISSIDItem o.(ho_WIFISSID)) ++
     cond (nonempty o.(ho_WIFIBSSID)) GItems (NewWIFIBSSIDItem o.(ho_WIFIBSSID)) ++
     (match o.(ho_NetworkInterfaceAddress) with
      | Some entries => cond (nonempty entries) GItems (NewNetworkInterfaceAddressItem entries)
      | None => []
      end) ++
     cond (nonempty o.(ho_DefaultInterfaceAddress)) GItems (NewDefaultInterfaceAddressItem o.(ho_DefaultInterfaceAddress))
   else []) ++
  (if nonempty o.(ho_AdGuardDomain) then
     cond true GDestinationAddress (NewAdGuardDomainItem o.(ho_AdGuardDomain))
   else match o.(ho_AdGuardDomainMatcher) with
        | Some m => cond true GDestinationAddress (NewRawAdGuardDomainItem m)
        | None => []
        end).

Definition NewDefaultHeadlessRule (haveNetworkManager : bool) (o : HeadlessOptions)
  : result error (abstractDefaultRule Empty_set) :=
  match runBlocks (headlessBlocks haveNetworkManager o) with
  | Err e => Err e
  | Ok items => Ok (mkDefaultRule items None o.(ho_Invert))
  end.

(** [common.All] with a predicate that may panic. *)
Fixpoint allM {T} (f : T -> outcome bool) (l : list T) : outcome bool :=
  match l with
  | [] => Ret true
  | x :: l' => match f x with Ret true => allM f l' | r => r end
  end.

(** [HeadlessRule.IsValid]: an unknown type panics. *)
Fixpoint HeadlessRule_IsValid (t : HeadlessRuleOptions) : outcome bool :=
  match t with
  | OptionRule ty d _ rules _ _ =>
      if String.eqb ty RuleTypeDefault || String.eqb ty "" then Ret (HeadlessOptions_IsValid d)
      else if String.eqb ty RuleTypeLogical then
        if nonempty rules then allM HeadlessRule_IsValid rules else Ret false
      else Panic
  end.

(** The loop over the sub-rules, from index [i]. *)
Section SubRules.
Context {T U : Type} (f : T -> outcome (result error U)) (wrap : Z -> error -> error).
Fixpoint buildAll (i : Z) (l : list T) : outcome (result error (list U)) :=
  match l with
  | [] => Ret (Ok [])
  | x :: l' =>
      match f x with
      | Panic => Panic
      | Ret (Err e) => Ret (Err (wrap i e))
      | Ret (Ok u) =>
          match buildAll (i + 1) l' with
          | Ret (Ok us) => Ret (Ok (u :: us))
          | r => r
          end
      end
  end.
End SubRules.

Definition subRuleError (i : Z) (e : error) : error := E_Cause e ["sub rule["; itoa i; "]"].

Fixpoint NewHeadlessRule (haveNetworkManager : bool) (t : HeadlessRuleOptions)
  : outcome (result error (RuleTree (abstractDefaultRule Empty_set) unit)) :=
  match t with
  | OptionRule ty d mode rules inverted _ =>
      if String.eqb ty "" || String.eqb ty RuleTypeDefault then
        if negb (HeadlessOptions_IsValid d) then Ret (Err (E_New ["missing conditions"]))
        else match NewDefaultHeadlessRule haveNetworkManager d with
             | Err e => Ret (Err e)
             | Ok r => Ret (Ok (DefaultLeaf r))
             end
      else if String.eqb ty RuleTypeLogical then
        match (if nonempty rules then allM HeadlessRule_IsValid rules else Ret false) with
        | Panic => Panic
        | Ret false => Ret (Err (E_New ["missing conditions"]))
        | Ret true =>
            if String.eqb mode LogicalTypeAnd || String.eqb mode LogicalTypeOr then
              match buildAll (NewHeadlessRule haveNetworkManager) subRuleError 0 rules with
              | Panic => Panic
              | Ret (Err e) => Ret (Err e)
              | Ret (Ok us) => Ret (Ok (LogicalNode mode inverted tt us))
              end
            else Ret (Err (E_New ["unknown logical mode: "; mode]))
        end
      else Ret (Err (E_New ["unknown rule type: "; ty]))
  end.

(** ** Metadata of rule-sets *)

(** Only the types ["default"] and ["logical"] count here. *)
Fixpoint hasInRule (cond : HeadlessOptions -> bool) (t : HeadlessRuleOptions) : bool :=
  match t with
  | OptionRule ty d _ rules _ _ =>
      if String.eqb ty RuleTypeDefault then cond d
      else if String.eqb ty RuleTypeLogical then List.existsb (hasInRule cond) rules
      else false
  end.

Definition HasHeadlessRule (rules : list HeadlessRuleOptions) (cond : HeadlessOptions -> bool) : bool :=
  List.existsb (hasInRule cond) rules.

Definition isProcessHeadlessRule (o : HeadlessOptions) : bool :=
  nonempty o.(ho_ProcessName) || nonempty o.(ho_ProcessPath) || nonempty o.(ho_ProcessPathRegex) ||
  nonempty o.(ho_PackageName).
Definition isWIFIHeadlessRule (o : HeadlessOptions) : bool := nonempty o.(ho_WIFISSID) || nonempty o.(ho_WIFIBSSID).
Definition isIPCIDRHeadlessRule (o : HeadlessOptions) : bool := nonempty o.(ho_IPCIDR) || isSome o.(ho_IPSet).
Definition isDNSQueryTypeHeadlessRule (o : HeadlessOptions) : bool := nonempty o.(ho_QueryType).

Definition buildRuleSetMetadata (headlessRules : list HeadlessRuleOptions) : RuleSetMetadata :=
  mkRuleSetMetadata (HasHeadlessRule headlessRules isProcessHeadlessRule)
    (HasHeadlessRule headlessRules isWIFIHeadlessRule)
    (HasHeadlessRule headlessRules isIPCIDRHeadlessRule)
    (HasHeadlessRule headlessRules isDNSQueryTypeHeadlessRule).

(** ** Reloading a rule-set

    [validate] is the registered [DNSRuleSetUpdateValidator], if any.  The rules
    and the metadata are replaced together, or not at all. *)
Definition reloadRules (haveNetworkManager : bool)
    (validate : option (string -> RuleSetMetadata -> option error))
    (tag : string) (headlessRules : list HeadlessRuleOptions) (s : RuleSet)
  : outcome (RuleSet * option error) :=
  match buildAll (NewHeadlessRule haveNetworkManager)
          (fun i e => E_Cause e ["parse rule_set.rules.["; itoa i; "]"]) 0 headlessRules with
  | Panic => Panic
  | Ret (Err e) => Ret (s, Some e)
  | Ret (Ok rules) =>
      let metadata := buildRuleSetMetadata headlessRules in
      match (match validate with None => None | Some v => v tag metadata end) with
      | Some e => Ret (s, Some e)
      | None => Ret (mkRuleSet rules metadata s.(refs), None)
      end
  end.

(** [extractIPSetFromRule] *)
Definition cidrSet (it : RuleItem) : list IPSet :=
  match it with IPCIDRItem ipSet _ => [ipSet] | _ => [] end.

Fixpoint extractIPSetFromRule (t : RuleTree (abstractDefaultRule Empty_set) unit) : list IPSet :=
  match t with
  | DefaultLeaf r => List.concat (map cidrSet (itemsOf GDestinationIPCIDR r))
  | LogicalNode _ _ _ rules => List.concat (map extractIPSetFromRule rules)
  end.

Definition ExtractIPSet (s : RuleSet) : list IPSet := List.concat (map extractIPSetFromRule s.(rules)).

(** ** What the constructors guarantee *)

(** The type is one the decoder of rules produces. *)
Fixpoint decodedRule (t : HeadlessRuleOptions) : bool :=
  match t with
  | OptionRule ty _ _ rules _ _ =>
      (String.eqb ty RuleTypeDefault || String.eqb ty RuleTypeLogical) && forallb decodedRule rules
  end.

(** No destination [ip_cidr] condition anywhere in the tree. *)
Fixpoint noCIDR (t : RuleTree (abstractDefaultRule Empty_set) unit) : bool :=
  match t with
  | DefaultLeaf r => negb (nonempty (itemsOf GDestinationIPCIDR r))
  | LogicalNode _ _ _ rules => forallb noCIDR rules
  end.

(** The metadata of a rule-set does not hide [ip_cidr] conditions. *)
Definition metadataSound (s : RuleSet) : Prop :=
  s.(metadata).(ContainsIPCIDRRule) = false -> forallb noCIDR s.(rules) = true.

End Build.

Arguments noHeadlessOptions {_}.
