(* ===== verification/RuleBuildProps.v ===== *)
(** * Built rules are well grouped and rule-set metadata is sound

    Every item a constructor appends lands in its group, so that the
    destination [ip_cidr] group holds exactly the address sets; a rule-set whose
    metadata denies [ip_cidr] conditions has none; a failed reload changes
    nothing. *)

From S2P Require Import Prelude GoStrings RuleState RuleItems RuleMatch RuleProps RuleTrees RuleMerge RuleBuild.

Local Open Scope string_scope.
Local Open Scope list_scope.
Local Open Scope Z_scope.

Section Build.
Context `{RE : RuleEnv}.

(** ** Properties of blocks *)

Definition block_all (P : ItemGroup * RuleItem -> Prop) (l : list (result error (ItemGroup * RuleItem))) : Prop :=
  Forall (fun r => match r with Ok p => P p | Err _ => True end) l.

Lemma block_cond P b g it : (b = true -> P (g, it)) -> block_all P (cond b g it).
Proof. intros H. destruct b; repeat constructor. auto. Qed.

Lemma block_condErr P b g res wrap : (forall it, b = true -> res = Ok it -> P (g, it)) -> block_all P (condErr b g res wrap).
Proof. intros H. destruct b; repeat constructor. destruct res; auto. Qed.

Lemma block_app P l1 l2 : block_all P l1 -> block_all P l2 -> block_all P (l1 ++ l2).
Proof. apply Forall_app_2. Qed.

Lemma block_nil P : block_all P [].
Proof. constructor. Qed.

Lemma block_if P (b : bool) l1 l2 : (b = true -> block_all P l1) -> (b = false -> block_all P l2) ->
  block_all P (if b then l1 else l2).
Proof. destruct b; auto. Qed.

Lemma runBlocks_all P l items : runBlocks l = Ok items -> block_all P l -> Forall P items.
Proof.
  intros H Hl. revert items H. induction Hl as [|[p|e] l Hp Hl IH]; intros items H; cbn in H.
  - injection H as <-. constructor.
  - destruct (runBlocks l) as [ps|] eqn:E; [|done]. injection H as <-. constructor; auto.
  - done.
Qed.

(** ** Which constructor makes which item *)

Lemma NewIPCIDRItem_shape isSource l it : NewIPCIDRItem isSource l = Ok it -> exists s, it = IPCIDRItem s isSource.
Proof. unfold NewIPCIDRItem. repeat (case_goal; try done). intros [= <-]. eauto. Qed.

Lemma NewDomainItem_shape l l' it : NewDomainItem l l' = Ok it -> exists m, it = DomainItem m.
Proof. unfold NewDomainItem. repeat (case_goal; try done). intros [= <-]. eauto. Qed.

Lemma NewDomainRegexItem_shape l it : NewDomainRegexItem l = Ok it -> exists m, it = DomainRegexItem m.
Proof. unfold NewDomainRegexItem. case_goal; [|done]. intros [= <-]. eauto. Qed.

Lemma NewProcessPathRegexItem_shape l it : NewProcessPathRegexItem l = Ok it -> exists m, it = ProcessPathRegexItem m.
Proof. unfold NewProcessPathRegexItem. case_goal; [|done]. intros [= <-]. eauto. Qed.

Lemma NewPortRangeItem_shape b l it : NewPortRangeItem b l = Ok it -> exists m, it = PortRangeItem b m.
Proof. unfold NewPortRangeItem. case_goal; [|done]. intros [= <-]. eauto. Qed.

End Build.

(** Walk through the blocks of a constructor; what is left is the fact about
    one item. *)
Ltac blocks :=
  repeat first
    [ apply block_app
    | apply block_nil
    | apply block_cond; intros ?
    | apply block_condErr; intros ? ? ?
    | apply block_if; intros ?
    | match goal with |- block_all _ (match ?o with _ => _ end) => destruct o eqn:? end ].

(** Replace the result of a constructor by the item it makes. *)
Ltac shape_item :=
  match goal with
  | H : ?e = Ok ?it |- _ =>
      first [ destruct (NewIPCIDRItem_shape _ _ _ H) as [? ->]
            | destruct (NewDomainItem_shape _ _ _ H) as [? ->]
            | destruct (NewDomainRegexItem_shape _ _ H) as [? ->]
            | destruct (NewProcessPathRegexItem_shape _ _ H) as [? ->]
            | destruct (NewPortRangeItem_shape _ _ _ H) as [? ->] ]
  end.

Section Sound.
Context `{RE : RuleEnv}.

Lemma headless_grouped nm o : block_all (fun p => cidrGrouped p = true) (headlessBlocks nm o).
Proof. unfold headlessBlocks. blocks; try shape_item; reflexivity. Qed.

Lemma headless_noCIDR nm o : isIPCIDRHeadlessRule o = false ->
  block_all (fun p => p.1 <> GDestinationIPCIDR) (headlessBlocks nm o).
Proof.
  intros H. unfold isIPCIDRHeadlessRule in H. apply orb_false_iff in H as [H1 H2].
  unfold headlessBlocks. rewrite H1. destruct (ho_IPSet o); [done|]. blocks; done.
Qed.

Lemma itemsOf_none {RS} g (r : abstractDefaultRule RS) :
  Forall (fun p => p.1 <> g) r.(taggedItems) -> itemsOf g r = [].
Proof.
  unfold itemsOf. induction 1 as [|p l Hp Hl IH]; cbn; [done|].
  rewrite (bool_decide_eq_false_2 _ Hp). exact IH.
Qed.

Lemma NewDefaultHeadlessRule_spec nm o r : NewDefaultHeadlessRule nm o = Ok r ->
  forallb cidrGrouped r.(taggedItems) = true /\ r.(invert) = o.(ho_Invert) /\
  (isIPCIDRHeadlessRule o = false -> itemsOf GDestinationIPCIDR r = []).
Proof.
  unfold NewDefaultHeadlessRule. destruct (runBlocks _) as [items|] eqn:E; [|done]. intros [= <-].
  cbn [taggedItems invert]. split; [|split; [done|]].
  - apply forallb_forall. intros p Hp. apply list_elem_of_In in Hp.
    pose proof (runBlocks_all _ _ _ E (headless_grouped nm o)) as H. rewrite Forall_forall in H. auto.
  - intros Ho. apply itemsOf_none. cbn [taggedItems]. eapply runBlocks_all, headless_noCIDR; eauto.
Qed.

Lemma buildAll_Forall2 {T U} (f : T -> outcome (result error U)) wrap i l us :
  buildAll f wrap i l = Ret (Ok us) -> Forall2 (fun x u => f x = Ret (Ok u)) l us.
Proof.
  revert i us. induction l as [|x l IH]; intros i us H; cbn in H.
  - injection H as <-. constructor.
  - destruct (f x) as [[u|e]|] eqn:Ef; try done.
    destruct (buildAll f wrap (i + 1) l) as [[us'|]|] eqn:Eb; try done. injection H as <-.
    constructor; eauto.
Qed.

(** A tree built from options that the metadata says hold no [ip_cidr]. *)
Lemma NewHeadlessRule_noCIDR nm t u : decodedRule t = true -> hasInRule isIPCIDRHeadlessRule t = false ->
  NewHeadlessRule nm t = Ret (Ok u) -> noCIDR u = true.
Proof.
  revert u. induction t as [ty d mode rules inverted action IH] using OptionTree_rect'.
  intros u Hd Hh Hb. cbn [decodedRule hasInRule NewHeadlessRule] in *.
  apply andb_true_iff in Hd as [Hty Hd]. destruct (String.eqb ty RuleTypeDefault) eqn:E1.
  - rewrite orb_true_r in Hb. destruct (negb _); [done|].
    destruct (NewDefaultHeadlessRule nm d) as [r|] eqn:En; [|done]. injection Hb as <-. cbn.
    destruct (NewDefaultHeadlessRule_spec nm d r En) as (_ & _ & H). by rewrite H.
  - cbn in Hty. rewrite Hty in Hb, Hh. apply String.eqb_eq in Hty as ->. cbn in Hb.
    destruct (if nonempty rules then _ else _) as [[|]|]; try done.
    destruct (_ || _); [|done]. destruct (buildAll _ _ _ _) as [[us|]|] eqn:Eb; try done. injection Hb as <-.
    apply buildAll_Forall2 in Eb. cbn. clear -IH Hd Hh Eb.
    induction Eb as [|x y l us Hxy Eb IHl]; [done|]. cbn in Hd, Hh |- *. inversion_clear IH as [|? ? Hx Hl].
    apply andb_true_iff in Hd as [Hd1 Hd2]. apply orb_false_iff in Hh as [Hh1 Hh2].
    rewrite (Hx y Hd1 Hh1 Hxy). auto.
Qed.

(** The rules a reload installs, and its metadata, or no change at all. *)
Lemma reloadRules_cases nm validate tag l s s' e : reloadRules nm validate tag l s = Ret (s', e) ->
  match e with
  | Some _ => s' = s
  | None => s'.(metadata) = buildRuleSetMetadata l /\ s'.(refs) = s.(refs) /\
            Forall2 (fun x u => NewHeadlessRule nm x = Ret (Ok u)) l s'.(rules) /\
            match validate with Some v => v tag (buildRuleSetMetadata l) = None | None => True end
  end.
Proof.
  unfold reloadRules. destruct (buildAll _ _ _ _) as [[us|]|] eqn:Eb; [|by intros [= <- <-]|done].
  apply buildAll_Forall2 in Eb. cbv zeta. destruct validate as [v|].
  - destruct (v tag _) eqn:Ev; [by intros [= <- <-]|]. intros [= <- <-]. cbn. auto.
  - intros [= <- <-]. cbn. auto.
Qed.

Lemma reloadRules_sound nm validate tag l s s' : forallb decodedRule l = true ->
  reloadRules nm validate tag l s = Ret (s', None) -> metadataSound s'.
Proof.
  intros Hd H. apply reloadRules_cases in H as (Hm & _ & Hr & _). unfold metadataSound. rewrite Hm. cbn.
  unfold HasHeadlessRule. clear Hm. induction Hr as [|x y l us Hxy Hr IH]; intros Hh; [done|].
  cbn in *. apply andb_true_iff in Hd as [Hd1 Hd2]. apply orb_false_iff in Hh as [Hh1 Hh2].
  rewrite (NewHeadlessRule_noCIDR nm x y Hd1 Hh1 Hxy). auto.
Qed.

End Sound.

(** ** Matching of DNS rules

    In legacy mode a DNS rule is first matched without a response, with the
    destination address conditions ignored ([LegacyPreMatch]), and checked
    against the response afterwards only if it says it limits addresses
    ([WithAddressLimit], [MatchAddressLimit]).  For a rule without address
    limit the first match has to be exact; what it ignores and what
    [WithAddressLimit] reports are compared here. *)

Section DNS.
Context `{RE : RuleEnv} (n : NetView).

(** ** Rules the flag does not touch *)

Lemma Match_ignore it b c : Match it n (set_IgnoreCIDR b c) = Match it n c.
Proof. by destruct it. Qed.

Lemma anyOf_ignore {RS} g (r : abstractDefaultRule RS) b c : anyOf n g r (set_IgnoreCIDR b c) = anyOf n g r c.
Proof.
  unfold anyOf, matchAnyItem. induction (itemsOf g r) as [|it l IH]; cbn [List.existsb]; [done|].
  by rewrite Match_ignore, IH.
Qed.

Lemma itemsHold_ignore {RS} (r : abstractDefaultRule RS) b c : itemsHold n r (set_IgnoreCIDR b c) = itemsHold n r c.
Proof.
  unfold itemsHold. induction (itemsOf GItems r) as [|it l IH]; cbn [forallb]; [done|].
  by rewrite Match_ignore, IH.
Qed.

Section NoCIDR.
Context {RS : Type} (r : abstractDefaultRule RS).
Hypothesis Hr : nonempty (itemsOf GDestinationIPCIDR r) = false.

Lemma noCIDR_source c : destinationIPCIDRMatchesSource r c = false.
Proof. unfold destinationIPCIDRMatchesSource. rewrite Hr. apply andb_false_r. Qed.

Lemma noCIDR_destination c : destinationIPCIDRMatchesDestination r c = false.
Proof. unfold destinationIPCIDRMatchesDestination. rewrite Hr. apply andb_false_r. Qed.

Lemma noCIDR_own b c : ownState n r (set_IgnoreCIDR b c) = ownState n r c.
Proof.
  unfold ownState, sourceAddressMatch, destinationAddressMatch.
  rewrite !noCIDR_source, !noCIDR_destination, !anyOf_ignore. done.
Qed.

Lemma noCIDR_satisfied b c s : satisfied r (set_IgnoreCIDR b c) s = satisfied r c s.
Proof.
  unfold satisfied, requiresSourceAddressMatch, requiresDestinationAddressMatch.
  by rewrite !noCIDR_source, !noCIDR_destination.
Qed.

(** Without [ip_cidr] conditions a default rule evaluates the same with the flag. *)
Lemma noCIDR_states (ev : RS -> InboundContext -> Z -> Z) b c base :
  (forall item c s, r.(ruleSetItem) = Some item -> ev item (set_IgnoreCIDR b c) s = ev item c s) ->
  (matchStatesWithBase n ev r (set_IgnoreCIDR b c) base).2 = (matchStatesWithBase n ev r c base).2.
Proof.
  intros Hev. destruct (noItems r) eqn:E.
  { unfold matchStatesWithBase. by rewrite E. }
  rewrite !matchStates_eq by done. cbv zeta. rewrite noCIDR_own. unfold deferred. rewrite Hr, !andb_false_r.
  assert (Hf : forall s, found n ev r (set_IgnoreCIDR b c) s = found n ev r c s).
  { intros s. unfold found. fold (itemsHold n r (set_IgnoreCIDR b c)) (itemsHold n r c).
    rewrite itemsHold_ignore. destruct (itemsHold n r c); [|done].
    rewrite (filterStates_ext _ (satisfied r (set_IgnoreCIDR b c)) (satisfied r c))
      by (intros; apply noCIDR_satisfied).
    destruct (ruleSetItem r) as [item|] eqn:Hi; [|done].
    by rewrite <- (Hev item (set_DidMatch true c)). }
  by rewrite Hf.
Qed.
End NoCIDR.

Lemma headless_ignore t : noCIDR t = true -> forall b c s,
  headlessStates n t (set_IgnoreCIDR b c) s = headlessStates n t c s.
Proof.
  unfold headlessStates. induction t as [r|mode inverted action rules IH] using RuleTree_rect'; intros Ht b c s.
  - cbn in *. apply noCIDR_states; [by apply negb_true_iff|]. intros [].
  - cbn [treeStates]. f_equal. apply map_ext_in. intros x Hx. cbn in Ht. rewrite forallb_forall in Ht.
    rewrite Forall_forall in IH. exact (IH x (proj2 (list_elem_of_In _ _) Hx) (Ht x Hx) b (ResetRuleCache c) _).
Qed.

(** Every rule-set has sound metadata. *)
Definition setsSound (sets : gmap string RuleSet) : Prop := map_Forall (fun _ s => metadataSound s) sets.

Lemma ruleSetItem_ignore sets item b c s : setsSound sets ->
  item.(ipCidrMatchSource) = false -> ContainsDestinationIPCIDRRule sets item = false ->
  ruleSetItemStates n sets item (set_IgnoreCIDR b c) s = ruleSetItemStates n sets item c s.
Proof.
  intros Hs Hm Hc. unfold ruleSetItemStates. f_equal. apply map_ext_in. intros tag Htag.
  destruct (sets !! tag) as [x|] eqn:E; [|done]. unfold ruleSetStates. f_equal. apply map_ext_in.
  intros t Ht. unfold ContainsDestinationIPCIDRRule in Hc. rewrite Hm in Hc.
  assert (Hx : x.(metadata).(ContainsIPCIDRRule) = false).
  { destruct (ContainsIPCIDRRule (metadata x)) eqn:Ec; [|done]. exfalso.
    assert (existsb (fun tag => match sets !! tag with
      | Some s => s.(metadata).(ContainsIPCIDRRule) | None => false end) item.(setList) = true) as Ht'
      by (apply existsb_exists; exists tag; rewrite E; done).
    congruence. }
  pose proof (Hs tag x E Hx) as Hno. rewrite forallb_forall in Hno.
  exact (headless_ignore t (Hno t Ht) b (ResetRuleMatchCache (set_AcceptEmpty (ipCidrAcceptEmpty item)
    (set_MatchSource (ipCidrMatchSource item) (ResetRuleMatchCache c)))) s).
Qed.

(** ** Legacy mode *)

(** No rule of the tree uses [match_response]. *)
Fixpoint noResponse {A} (t : DNSRule A) : bool :=
  match t with
  | DefaultLeaf d => negb d.(matchResponse)
  | LogicalNode _ _ _ rules => forallb noResponse rules
  end.

(** No rule of the tree matches the [ip_cidr] of rule-sets with the source. *)
Fixpoint noMatchSource {A} (t : DNSRule A) : bool :=
  match t with
  | DefaultLeaf d =>
      match d.(dnsRule).(ruleSetItem) with Some item => negb item.(ipCidrMatchSource) | None => true end
  | LogicalNode _ _ _ rules => forallb noMatchSource rules
  end.

Lemma dnsStates_ignore {A} sets (t : DNSRule A) : setsSound sets -> noMatchSource t = true ->
  WithAddressLimit sets t = false -> forall b c s,
  dnsStates n sets t (set_IgnoreCIDR b c) s = dnsStates n sets t c s.
Proof.
  intros Hs. unfold dnsStates. induction t as [d|mode inverted action rules IH] using RuleTree_rect'; intros Hm Hl b c s.
  - cbn in *. unfold WithAddressLimit_default in Hl.
    destruct (nonempty (itemsOf GDestinationIPCIDR (dnsRule d))) eqn:E; [done|].
    unfold defaultStates. apply noCIDR_states; [done|]. intros item c' s' Hi. rewrite Hi in Hm, Hl.
    apply ruleSetItem_ignore; [done|by apply negb_true_iff|done].
  - cbn [treeStates]. f_equal. apply map_ext_in. intros x Hx. cbn in Hm, Hl. rewrite forallb_forall in Hm.
    rewrite Forall_forall in IH.
    assert (Hlx : WithAddressLimit sets x = false).
    { destruct (WithAddressLimit sets x) eqn:E; [|done]. exfalso.
      assert (existsb (WithAddressLimit sets) rules = true) by (apply existsb_exists; eauto). congruence. }
    exact (IH x (proj2 (list_elem_of_In _ _) Hx) (Hm x Hx) Hlx b (ResetRuleCache c) _).
Qed.

(** The two evaluators of a tree agree when no response is involved. *)
Lemma dnsStates_forMatch {A} sets (t : DNSRule A) : noResponse t = true -> forall c,
  dnsStates n sets t c 0 = matchStatesForMatch n sets t c.
Proof.
  unfold dnsStates. induction t as [d|mode inverted action rules IH] using RuleTree_rect'; intros Hr c.
  - cbn in *. unfold matchStatesForMatch_default. by apply negb_true_iff in Hr as ->.
  - cbn [treeStates matchStatesForMatch].
    replace (if inverted then 0 else 0) with 0 by (by destruct inverted). f_equal.
    apply map_ext_in. intros x Hx. cbn in Hr. rewrite forallb_forall in Hr. rewrite Forall_forall in IH.
    apply IH; [by apply list_elem_of_In|auto].
Qed.

Lemma prematch_states {A} sets (t : DNSRule A) c : noResponse t = true ->
  (LegacyPreMatch n sets t c).2 = negb (isEmpty (dnsStates n sets t (set_IgnoreCIDR true c) 0)).
Proof.
  destruct t as [d|]; cbn [LegacyPreMatch snd]; [|done]. cbn [noResponse]. intros H.
  apply negb_true_iff in H as ->. unfold dnsStates. cbn [treeStates].
  by destruct (defaultStates _ _ _ _ _).
Qed.

End DNS.
