(* ===== verification/RuleTheorems.v ===== *)
(** * Theorems on route and DNS rules

    The main statements about the evaluation of rules, each with a concrete
    instance evaluated on the rules of [RuleDemo]. *)

From S2P Require Import Prelude GoStrings RuleState RuleItems RuleMatch RuleProps RuleTrees RuleMerge RuleBuild RuleBuildProps.

Local Open Scope string_scope.
Local Open Scope list_scope.
Local Open Scope Z_scope.

(** ** A concrete environment

    IPv4 address sets are lists of ranges, a domain matcher compares with the
    listed domains, and no regular expression matches. *)
Module RuleDemo.

Definition inRange (a : Addr) (r : Z * Z) : bool :=
  match a with Addr4 v => (r.1 <=? v) && (v <=? r.2) | _ => false end.

#[export] Instance demoEnv : RuleEnv := {|
  re_exceptions := text_exceptions;
  E_Extend := fun e args => Errorf (Error e +:+ ": " +:+ str_concat args);
  IPSet := list (Z * Z);
  ipset_Contains := fun s a => existsb (inRange a) s;
  Prefix := Z * Z;
  Overlaps := fun p q => (p.1 <=? q.2) && (q.1 <=? p.2);
  ParsePrefix := fun s => Err (Errorf s);
  ParseAddr := fun s => match atoi s with Some v => Ok (Addr4 v) | None => Err (Errorf s) end;
  BuildIPSet := fun l => Ok (omap (fun x => match x with inl p => Some p | inr (Addr4 v) => Some (v, v) | _ => None end) l);
  Matcher := list string;
  NewMatcher := fun domains _ => domains;
  matcher_Match := fun m s => existsb (String.eqb s) m;
  AdGuardMatcher := list string;
  NewAdGuardMatcher := fun l => l;
  adguard_Match := fun m s => existsb (String.eqb s) m;
  socksIsIP := fun s => addrIsValid s.(sockAddr);
  socksIsIPv4 := fun s => Is4 s.(sockAddr);
  socksIsIPv6 := fun s => Is6 s.(sockAddr);
  AddrFromIP := fun ip => match ip with [a; b; c; d] => Addr4 (((a * 256 + b) * 256 + c) * 256 + d) | _ => AddrZero end;
  IsPublicAddr := fun a => negb (inRange a (0x0A000000, 0x0AFFFFFF));
  IsDuplicate := fun a b => false;
  Regexp := unit;
  CompileRegexp := fun _ => Ok tt;
  MatchString := fun _ _ => false;
  ParseMAC := fun _ => None;
  ToLower := fun s => s;
  EqualFold := String.eqb;
  IsAndroid := false;
|}.

Definition net : NetView := mkNetView None "" "" [] [] None "" (fun _ _ => false) (fun _ _ => false).

(** A TCP connection of [alice] from 10.0.0.1 to [example.com:443]. *)
Definition conn : InboundContext :=
  mkInboundContext "in" 0 "tcp" (mkSocksaddr (Addr4 0x0A000001) 4000 "") (mkSocksaddr AddrZero 443 "example.com")
    "alice" "" "" "" "" [] None false None None "" 0 false false false false false false false false.

Definition leaf (items : list (ItemGroup * RuleItem)) (inverted : bool) : abstractDefaultRule Empty_set :=
  mkDefaultRule items None inverted.

(** [domain: example.com], [port: 443] *)
Definition webRule {RS} (rs : option RS) (inverted : bool) : abstractDefaultRule RS :=
  mkDefaultRule [(GItems, NewNetworkItem ["tcp"]); (GDestinationAddress, DomainItem (RE := demoEnv) ["example.com"]);
                 (GDestinationPort, NewPortItem false [80; 443])] rs inverted.

(** A rule-set with a branch on the source address and one on the user's port. *)
Definition officeBranch : abstractDefaultRule Empty_set :=
  leaf [(GDestinationIPCIDR, IPCIDRItem (RE := demoEnv) [(0x0A000000, 0x0A0000FF)] false)] false.
Definition portBranch : abstractDefaultRule Empty_set := leaf [(GSourcePort, NewPortItem true [53])] false.

Definition officeSet : RuleSet :=
  mkRuleSet [DefaultLeaf portBranch; DefaultLeaf officeBranch] (mkRuleSetMetadata false false true false) 0.

Definition demoSets : gmap string RuleSet := {[ "office" := officeSet ]}.

Definition officeItem (matchSource : bool) : RuleSetItem := mkRuleSetItem ["office"] ["office"] matchSource false.

End RuleDemo.

Section Theorems.
Context `{RE : RuleEnv} (n : NetView).

(** ** Default rules *)

(** C2: a default rule without rule-set matches exactly when its formula holds,
    or fails if it inverts: every other condition holds, and each group that has
    conditions (source address, source port, destination address with the
    [ip_cidr] items, destination port) has one that holds.  A rule without any
    condition matches everything, inverted or not. *)
Theorem default_rule_meaning {RS} (ev : RS -> InboundContext -> Z -> Z) (r : abstractDefaultRule RS) c :
  r.(ruleSetItem) = None -> c.(IgnoreDestinationIPCIDRMatch) = false ->
  negb (isEmpty (matchStatesWithBase n ev r c 0).2) = noItems r || xorb r.(invert) (formula n r c).
Proof.
  intros Hr Hi. pose proof state_ok_0 as H0. destruct (noItems r) eqn:E.
  { unfold matchStatesWithBase. rewrite E. cbn [snd orb]. rewrite withBase_empty by done. by rewrite isEmpty_single. }
  cbn [orb]. rewrite matchStates_eq by done. cbv zeta.
  replace (if r.(invert) then 0 else 0) with 0 by (by destruct r.(invert)).
  rewrite found_none by done. unfold deferred. rewrite Hi. cbn [andb]. fold (formula n r c).
  destruct (formula n r c) eqn:Ef; cbn [negb].
  - destruct (invert r); [done|]. cbn [xorb]. rewrite found_none by done. unfold formula in Ef. by rewrite Ef.
  - rewrite invertedFailure_empty by done. by destruct (invert r).
Qed.

(** ** Logical rules *)

(** C7: a logical rule of any depth is the conjunction (mode [and]) or the
    disjunction (any other mode) of its sub-rules, each matched on its own copy
    of the metadata with the rule cache reset, and negated if it inverts. *)
Theorem logical_rule_meaning {A} sets mode inverted (action : A) subRules c :
  (ruleMatch n sets (LogicalNode mode inverted action subRules) c).2 =
    xorb inverted
      (if String.eqb mode LogicalTypeAnd
       then forallb (fun t => (ruleMatch n sets t (ResetRuleCache c)).2) subRules
       else existsb (fun t => (ruleMatch n sets t (ResetRuleCache c)).2) subRules).
Proof.
  pose proof state_ok_0 as H0. unfold ruleMatch, routeStates. cbn [treeStates snd].
  replace (if inverted then 0 else 0) with 0 by (by destruct inverted).
  set (ev := fun t => treeStates (fun r c base => (defaultStates n sets r c base).2) t (ResetRuleCache c) 0).
  assert (Hok : Forall set_ok (map ev subRules)).
  { apply Forall_forall. intros x Hx. apply list_elem_of_fmap in Hx as (t & -> & _). by apply (inherits_route n sets t). }
  change (forallb _ subRules) with (forallb (fun t => negb (isEmpty (ev t))) subRules).
  change (existsb _ subRules) with (existsb (fun t => negb (isEmpty (ev t))) subRules).
  fold ev. destruct (String.eqb mode LogicalTypeAnd) eqn:E.
  - apply String.eqb_eq in E as ->. rewrite logical_and by done.
    replace (forallb (fun t => negb (isEmpty (ev t))) subRules) with (negb (existsb isEmpty (map ev subRules))).
    + by destruct inverted, (existsb _ _).
    + clear. induction subRules as [|t l IH]; cbn; [done|]. rewrite <- IH. by destruct (isEmpty _).
  - apply String.eqb_neq in E. rewrite logical_or by done.
    replace (existsb (fun t => negb (isEmpty (ev t))) subRules) with (negb (forallb isEmpty (map ev subRules))).
    + by destruct inverted, (forallb _ _).
    + clear. induction subRules as [|t l IH]; cbn; [done|]. rewrite <- IH. by destruct (isEmpty _).
Qed.

(** ** The inherited base *)

(** Whatever the tree of rules, every state it returns contains the base it
    inherited, and a larger base only adds bits: a state returned for [b] is
    returned, with the bits of [b'] added, for [b | b'].  The result is a set of
    4-bit states. *)
Theorem base_inherited {A} sets (t : RuleTree (abstractDefaultRule RuleSetItem) A) c b b' d :
  state_ok b -> state_ok b' -> d ∈ states (routeStates n sets t c b) ->
  state_ok d /\ Z.lor d b = d /\ Z.lor d b' ∈ states (routeStates n sets t c (Z.lor b b')).
Proof.
  intros Hb Hb' Hd. pose proof (inherits_route n sets t c) as H.
  split; [exact (proj1 (proj1 (elem_of_states _ _) Hd))|]. split; [by eapply inherits_base; eauto|by apply inherits_mono].
Qed.

(** ** Rule-sets *)

(** C4: a rule with a rule-set item, which may be inverted, whose rule-sets consist of
    plain headless rules (not logical, not inverted, with their address conditions
    grouped as the builder groups them) and do not accept empty answers
    ([rule_set_ip_cidr_accept_empty]), evaluated with metadata that carry no flags of
    an enclosing rule-set: it matches exactly when, for some branch of the rule-sets,
    the rule obtained by appending the branch's items to its own holds (as source
    conditions if [rule_set_ip_cidr_match_source] is set); when the rule is inverted,
    exactly when there is no such branch.  Branches are merged one by one, with OR
    semantics, and conditions of different branches never mix. *)
Theorem ruleset_branches_merge {A} sets r item c :
  r.(ruleSetItem) = Some item -> plainSets sets item -> freshMetadata c -> item.(ipCidrAcceptEmpty) = false ->
  (ruleMatch n sets (DefaultLeaf (A := A) r) c).2 =
    xorb r.(invert) (existsb (fun h => formula n (mergeBranch r (branchOf item h)) c) (branches sets item)).
Proof.
  intros Hr Hp Hc Ha. pose proof state_ok_0 as H0. unfold ruleMatch, routeStates. cbn [treeStates snd].
  assert (Hn : noItems r = false) by (unfold noItems; rewrite Hr; by destruct (taggedItems r)).
  unfold defaultStates. rewrite matchStates_eq by done. cbv zeta.
  replace (if r.(invert) then 0 else 0) with 0 by (by destruct r.(invert)). rewrite Z.lor_0_l.
  destruct Hc as (Hs & He & Hi). unfold deferred. rewrite Hi. cbn [andb].
  rewrite (found_branches n sets r item c) by (done || by split).
  destruct (existsb _ _) eqn:E; cbn [negb].
  - destruct (invert r); [done|]. rewrite (found_branches n sets r item c) by (done || by split). by rewrite E.
  - rewrite invertedFailure_empty by done. by destruct (invert r).
Qed.

(** ** DNS rules in legacy mode *)

(** For a DNS rule that reports no address limit, uses no response and does
    not match rule-set addresses with the source, matching before the lookup is
    the same as matching: nothing was deferred, so no later check is needed. *)
Theorem prematch_exact {A} sets (t : DNSRule A) c :
  setsSound sets -> WithAddressLimit sets t = false -> noResponse t = true -> noMatchSource t = true ->
  (LegacyPreMatch n sets t c).2 = (dnsMatch n sets t c).2.
Proof.
  intros Hs Hl Hr Hm. rewrite prematch_states by done. unfold dnsMatch. cbn [snd].
  rewrite <- dnsStates_forMatch, dnsStates_ignore by done. done.
Qed.

End Theorems.

(** The evaluation of a branch whose only condition is an address set, when
    the set is matched with the source. *)
Lemma source_branch `{RE : RuleEnv} n ipSet c : c.(IPCIDRMatchSource) = true ->
  (matchStatesWithBase n noRuleSet (mkDefaultRule [(GDestinationIPCIDR, IPCIDRItem ipSet false)] None false) c 0).2 =
    if c.(IgnoreDestinationIPCIDRMatch) then 1
    else if ipset_Contains ipSet c.(Source).(sockAddr) then 2 else 0.
Proof.
  intros Hm. set (h := mkDefaultRule _ _ _). rewrite matchStates_eq by done. cbv zeta. cbn [invert h].
  assert (Hany : matchAnyItem n [IPCIDRItem ipSet false] c = ipset_Contains ipSet c.(Source).(sockAddr)).
  { cbn. unfold matchIPCIDR. rewrite Hm. apply orb_false_r. }
  assert (Hown : ownState n h c = bitIf (negb c.(IgnoreDestinationIPCIDRMatch) && ipset_Contains ipSet c.(Source).(sockAddr)) 1).
  { unfold ownState, sourceAddressMatch, destinationAddressMatch, anyOf, destinationIPCIDRMatchesSource,
      destinationIPCIDRMatchesDestination.
    change (itemsOf GDestinationIPCIDR h) with [IPCIDRItem ipSet false]. rewrite Hany, Hm.
    change (itemsOf GSourceAddress h) with (@nil RuleItem). change (itemsOf GSourcePort h) with (@nil RuleItem).
    change (itemsOf GDestinationAddress h) with (@nil RuleItem). change (itemsOf GDestinationPort h) with (@nil RuleItem).
    by destruct (IgnoreDestinationIPCIDRMatch c), (ipset_Contains _ _). }
  assert (Hsat : forall s, satisfied h c s = c.(IgnoreDestinationIPCIDRMatch) || has s ruleMatchSourceAddress).
  { intros s. unfold satisfied, requiresSourceAddressMatch, requiresDestinationAddressMatch,
      destinationIPCIDRMatchesSource, destinationIPCIDRMatchesDestination. rewrite Hm.
    destruct (IgnoreDestinationIPCIDRMatch c), (has s ruleMatchSourceAddress); done. }
  unfold found, invertedFailure. cbn [itemsOf taggedItems map List.filter h forallb ruleSetItem invert].
  rewrite Hown, Z.lor_0_l. fold h. rewrite (filterStates_ext _ _ _ Hsat).
  destruct (IgnoreDestinationIPCIDRMatch c), (ipset_Contains _ _); reflexivity.
Qed.

(** A rule with nothing but a rule-set item passes the item's states on. *)
Lemma ruleset_only `{RE : RuleEnv} n sets item c :
  (defaultStates n sets (mkDefaultRule [] (Some item) false) c 0).2 =
    filterStates (ruleSetItemStates n sets item (set_DidMatch true c) 0) (fun _ => true).
Proof.
  unfold defaultStates. rewrite matchStates_eq by done. cbv zeta. cbn [invert].
  set (r := mkDefaultRule [] (Some item) false).
  assert (Hown : ownState n r c = 0).
  { unfold ownState, sourceAddressMatch, destinationAddressMatch, anyOf, destinationIPCIDRMatchesSource,
      destinationIPCIDRMatchesDestination. cbn. by rewrite !andb_false_r. }
  assert (Hsat : forall s, satisfied r c s = true).
  { intros s. unfold satisfied, requiresSourceAddressMatch, requiresDestinationAddressMatch,
      destinationIPCIDRMatchesSource, destinationIPCIDRMatchesDestination. cbn. by rewrite !andb_false_r. }
  unfold found, invertedFailure. cbn [itemsOf taggedItems map List.filter r forallb ruleSetItem invert].
  fold r. rewrite Hown, (filterStates_ext _ _ _ Hsat).
  change (Z.lor 0 0) with 0. destruct (isEmpty _) eqn:E; [|done]. by apply Z.eqb_eq in E.
Qed.

(** With [rule_set_ip_cidr_match_source] the condition on the source is
    dropped: a DNS rule whose only condition is a rule-set of addresses to be
    matched with the source reports no address limit, and passes the match
    before the lookup from every source, although it matches only the sources
    in the set. *)
Theorem prematch_ignores_source_sets `{RE : RuleEnv} {A} n sets tag ipSet md k (action : A) c :
  sets !! tag = Some (mkRuleSet [DefaultLeaf (mkDefaultRule [(GDestinationIPCIDR, IPCIDRItem ipSet false)] None false)] md k) ->
  let rule := DefaultLeaf (mkDefaultDNSRule (mkDefaultRule [] (Some (mkRuleSetItem [tag] [tag] true false)) false) false action) in
  WithAddressLimit sets rule = false /\
  (LegacyPreMatch n sets rule c).2 = true /\
  (c.(IgnoreDestinationIPCIDRMatch) = false ->
   (dnsMatch n sets rule c).2 = ipset_Contains ipSet c.(Source).(sockAddr)).
Proof.
  intros Hset rule. split; [reflexivity|].
  assert (Hst : forall c, ruleSetItemStates n sets (mkRuleSetItem [tag] [tag] true false) (set_DidMatch true c) 0 =
    if c.(IgnoreDestinationIPCIDRMatch) then 1
    else if ipset_Contains ipSet c.(Source).(sockAddr) then 2 else 0).
  { intros c'. unfold ruleSetItemStates. cbn [setList map mergeAll fold_left]. rewrite Hset.
    unfold ruleSetStates, headlessStates. cbn [rules map mergeAll fold_left treeStates].
    rewrite source_branch by done.
    change (merge 0 (merge 0 (if c'.(IgnoreDestinationIPCIDRMatch) then 1
      else if ipset_Contains ipSet c'.(Source).(sockAddr) then 2 else 0)) =
      if c'.(IgnoreDestinationIPCIDRMatch) then 1 else if ipset_Contains ipSet c'.(Source).(sockAddr) then 2 else 0).
    repeat case_goal; done. }
  split.
  - rewrite prematch_states by done. unfold dnsStates, rule. cbn [treeStates dnsRule]. by rewrite ruleset_only, Hst.
  - intros Hi. unfold dnsMatch, rule. cbn [snd matchStatesForMatch]. unfold matchStatesForMatch_default.
    cbn [matchResponse dnsRule]. rewrite ruleset_only, Hst, Hi. by destruct (ipset_Contains ipSet _).
Qed.

(** A reload of a rule-set replaces its rules and its metadata together and
    keeps the references, or changes nothing and reports the error; in both
    cases metadata that denies [ip_cidr] conditions is true of the rules. *)
Theorem reload_keeps_metadata_sound `{RE : RuleEnv} nm validate tag l s s' e :
  forallb decodedRule l = true -> metadataSound s -> reloadRules nm validate tag l s = Ret (s', e) ->
  metadataSound s' /\ s'.(refs) = s.(refs) /\
  match e with
  | Some _ => s' = s
  | None => s'.(metadata) = buildRuleSetMetadata l /\ length s'.(rules) = length l /\
            match validate with Some v => v tag s'.(metadata) = None | None => True end
  end.
Proof.
  intros Hd Hs H. pose proof (reloadRules_cases _ _ _ _ _ _ _ H) as Hc. destruct e as [e|].
  - by subst.
  - destruct Hc as (H1 & H2 & H3 & H4). split; [by eapply reloadRules_sound|]. split; [done|].
    rewrite H1. split; [done|]. split; [|done]. symmetry. by eapply Forall2_length.
Qed.

(** ** Instances *)

Import RuleDemo.

(** The web rule matches the connection, and its inversion does not. *)
Lemma default_rule_meaning_witness :
  negb (isEmpty (matchStatesWithBase net noRuleSet (webRule None false) conn 0).2) = true /\
  negb (isEmpty (matchStatesWithBase net noRuleSet (webRule None true) conn 0).2) = false.
Proof.
  split; rewrite default_rule_meaning by reflexivity; vm_compute; reflexivity.
Defined.

(** Inside a logical rule, with the source address already known to match. *)
Lemma base_inherited_witness :
  Z.lor 12 1 ∈ states (routeStates net demoSets (LogicalNode LogicalTypeAnd false tt [DefaultLeaf (webRule None false)]) conn (Z.lor 0 1)).
Proof.
  apply (base_inherited net demoSets (LogicalNode LogicalTypeAnd false tt [DefaultLeaf (webRule None false)]) conn 0 1 12).
  - split; [apply Z.le_refl|reflexivity].
  - split; [discriminate|reflexivity].
  - apply elem_of_states. split; [split; [discriminate|reflexivity]|vm_compute; reflexivity].
Defined.

(** The connection comes from the office network: with the source option the
    branch on addresses holds, without it no branch does. *)
Lemma ruleset_branches_merge_witness :
  (ruleMatch net demoSets (DefaultLeaf (A := unit) (webRule (Some (officeItem true)) false)) conn).2 = true /\
  (ruleMatch net demoSets (DefaultLeaf (A := unit) (mkDefaultRule [] (Some (officeItem false)) false)) conn).2 = false.
Proof.
  assert (Hp : forall m, plainSets demoSets (officeItem m)).
  { intros m tag s Ht Hs. cbn in Ht. apply list_elem_of_singleton in Ht as ->.
    injection Hs as <-. repeat constructor; eexists; repeat split. }
  split.
  - rewrite (ruleset_branches_merge net demoSets (webRule (Some (officeItem true)) false) (officeItem true) conn
      eq_refl (Hp true) (conj eq_refl (conj eq_refl eq_refl)) eq_refl). vm_compute. reflexivity.
  - rewrite (ruleset_branches_merge net demoSets (mkDefaultRule [] (Some (officeItem false)) false) (officeItem false) conn
      eq_refl (Hp false) (conj eq_refl (conj eq_refl eq_refl)) eq_refl). vm_compute. reflexivity.
Defined.

(** The web rule as a DNS rule. *)
Definition webDNS : DNSRule unit := DefaultLeaf (mkDefaultDNSRule (webRule None false) false tt).

Lemma prematch_exact_witness : (LegacyPreMatch net demoSets webDNS conn).2 = (dnsMatch net demoSets webDNS conn).2 /\
  (dnsMatch net demoSets webDNS conn).2 = true.
Proof.
  split; [|vm_compute; reflexivity].
  refine (prematch_exact net demoSets webDNS conn _ eq_refl eq_refl eq_refl).
  intros tag s E. unfold demoSets in E. apply lookup_singleton_Some in E as [<- <-]. intros H. discriminate H.
Defined.

(** A client outside the set passes the match before the lookup. *)
Lemma prematch_ignores_source_sets_witness :
  let sets := {[ "far" := mkRuleSet [DefaultLeaf (mkDefaultRule [(GDestinationIPCIDR,
    IPCIDRItem (RE := demoEnv) [(0x01000000, 0x01FFFFFF)] false)] None false)] (mkRuleSetMetadata false false true false) 1 ]} in
  let rule := DefaultLeaf (mkDefaultDNSRule (mkDefaultRule [] (Some (mkRuleSetItem ["far"] ["far"] true false)) false) false tt) in
  WithAddressLimit sets rule = false /\ (LegacyPreMatch net sets rule conn).2 = true /\
  (dnsMatch net sets rule conn).2 = false.
Proof.
  intros sets rule.
  destruct (prematch_ignores_source_sets net sets "far" [(0x01000000, 0x01FFFFFF)] (mkRuleSetMetadata false false true false)
    1 tt conn eq_refl) as (H1 & H2 & H3).
  split; [exact H1|]. split; [exact H2|]. exact (H3 eq_refl).
Defined.

(** Reloading a rule-set with one domain rule. *)
Definition domainOptions : HeadlessOptions :=
  mkHeadlessOptions [] [] ["example.com"] [] [] [] [] [] [] [] [] [] [] [] [] [] [] false false [] [] None [] false None None None [] None.

Definition domainOption : OptionTree HeadlessOptions unit := OptionRule RuleTypeDefault domainOptions "" [] false tt.

Lemma reload_keeps_metadata_sound_witness :
  exists s', reloadRules true None "office" [domainOption] officeSet = Ret (s', None) /\ metadataSound s' /\
    s'.(metadata).(ContainsIPCIDRRule) = false.
Proof.
  assert (E2 : match reloadRules true None "office" [domainOption] officeSet with Ret (_, None) => true | _ => false end = true)
    by (vm_compute; reflexivity).
  destruct (reloadRules true None "office" [domainOption] officeSet) as [[s' [e|]]|] eqn:E;
    [discriminate E2| |discriminate E2].
  exists s'. split; [reflexivity|].
  destruct (reload_keeps_metadata_sound true None "office" [domainOption] officeSet s' None eq_refl) as (H1 & _ & H2 & _).
  - intros H. discriminate H.
  - exact E.
  - split; [exact H1|]. rewrite H2. reflexivity.
Defined.

(** ** Reference counts of rule-sets

    [RuleSetItem.Start] and [Close] of [src/route/rule/rule_item_rule_set.go]:
    an item holds one reference per tag while it is started, a start that fails
    gives back what it took, and closing never drives a count below zero. *)

Section Refs.
Context `{RE : RuleEnv}.

(** How often a tag occurs. *)
Definition occ (tag : string) (l : list string) : Z := Z.of_nat (count_occ string_dec l tag).

Definition shift (k : Z) (s : RuleSet) : RuleSet := mkRuleSet s.(rules) s.(metadata) (s.(refs) + k).

(** The store [sets] is [sets0] with [f tag] more references to each tag. *)
Definition shifted (f : string -> Z) (sets0 sets : gmap string RuleSet) : Prop :=
  forall tag, sets !! tag = shift (f tag) <$> sets0 !! tag.

(** Counts are not negative, and [room] more references fit in an [int32]. *)
Definition refsOk (room : Z) (sets0 : gmap string RuleSet) : Prop :=
  forall tag s, sets0 !! tag = Some s -> 0 <= s.(refs) /\ s.(refs) + room < 2 ^ 31.

Lemma wrap32_id z : 0 <= z < 2 ^ 31 -> wrap32 z = z.
Proof. intros H. unfold wrap32. rewrite Z.mod_small; lia. Qed.

Lemma occ_cons tag t l : occ tag (t :: l) = (if decide (t = tag) then 1 else 0) + occ tag l.
Proof.
  unfold occ. cbn. destruct (string_dec t tag), (decide (t = tag)); try done; lia.
Qed.

Lemma occ_app tag l1 l2 : occ tag (l1 ++ l2) = occ tag l1 + occ tag l2.
Proof. unfold occ. rewrite count_occ_app. lia. Qed.

Lemma occ_bounds tag l : 0 <= occ tag l <= Z.of_nat (length l).
Proof.
  unfold occ. split; [lia|]. induction l as [|t l IH]; cbn; [lia|]. destruct (string_dec t tag); lia.
Qed.

Lemma shift_0 s : shift 0 s = s.
Proof. destruct s. unfold shift. cbn. by rewrite Z.add_0_r. Qed.

Lemma shifted_0 sets0 sets : (forall f, (forall tag, f tag = 0) -> shifted f sets0 sets -> sets = sets0).
Proof.
  intros f Hf H. apply map_eq. intros tag. rewrite H, Hf. destruct (sets0 !! tag); cbn; [|done]. by rewrite shift_0.
Qed.

(** One step of either loop, under bounds. *)
Lemma upd_shifted f sets0 sets tag d : shifted f sets0 sets ->
  (forall s, sets0 !! tag = Some s -> 0 <= s.(refs) + f tag + d < 2 ^ 31) ->
  shifted (fun t => f t + (if decide (tag = t) then d else 0)) sets0 (updRefs sets tag d).
Proof.
  intros H Hb t. unfold updRefs. destruct (decide (tag = t)) as [<-|Hne].
  - rewrite lookup_alter_eq, H. destruct (sets0 !! tag) as [s|] eqn:E; cbn; [|done]. f_equal.
    unfold shift. cbn. rewrite wrap32_id by auto. f_equal. lia.
  - rewrite lookup_alter_ne by done. rewrite H. f_equal. by rewrite Z.add_0_r.
Qed.

Lemma shifted_ext f g sets0 sets : (forall t, f t = g t) -> shifted f sets0 sets -> shifted g sets0 sets.
Proof. intros E H t. by rewrite <- E. Qed.

(** Releasing the references of a list of tags. *)
Lemma release_all sets0 l : refsOk (Z.of_nat (length l)) sets0 -> forall sets,
  shifted (fun t => occ t l) sets0 sets -> foldM DecRef l sets = Ret sets0.
Proof.
  induction l as [|tag l IH]; intros Hok sets Hs.
  - cbn [foldM]. f_equal. by eapply shifted_0, Hs.
  - cbn [foldM]. unfold DecRef at 1. rewrite Hs.
    assert (Hok' : refsOk (Z.of_nat (length l)) sets0).
    { intros t s E. destruct (Hok t s E). cbn in *. lia. }
    pose proof (occ_bounds tag l) as Hb.
    destruct (sets0 !! tag) as [s|] eqn:E; cbn [fmap option_fmap option_map].
    + destruct (Hok tag s E) as [H1 H2]. cbn [length] in H2. rewrite occ_cons, decide_True by done. cbn [refs shift].
      rewrite wrap32_id by lia.
      destruct (Z.ltb_spec (refs s + (1 + occ tag l) + -1) 0); [lia|].
      apply IH; [done|]. eapply shifted_ext; [|eapply upd_shifted; [exact Hs|]].
      * intros t. cbv beta. rewrite occ_cons. destruct (decide (tag = t)); lia.
      * intros s' E'. simplify_eq. rewrite occ_cons, decide_True by done. lia.
    + apply IH; [done|]. intros t. rewrite Hs, occ_cons.
      destruct (decide (tag = t)) as [<-|]; [by rewrite E|done].
Qed.

Definition emptied (item : RuleSetItem) : RuleSetItem :=
  mkRuleSetItem item.(tagList) [] item.(ipCidrMatchSource) item.(ipCidrAcceptEmpty).

(** Closing an item that holds the references of its list gives them back. *)
Lemma close_spec item sets0 sets : refsOk (Z.of_nat (length item.(setList))) sets0 ->
  shifted (fun t => occ t item.(setList)) sets0 sets ->
  RuleSetItem_Close item sets = Ret (emptied item, sets0).
Proof. intros Hok Hs. unfold RuleSetItem_Close. by rewrite (release_all sets0 (setList item) Hok). Qed.

(** The loop of [Start], with the references of the tags done so far held. *)
Lemma startTags_spec tags : forall item sets0 sets,
  refsOk (Z.of_nat (length item.(setList) + length tags)) sets0 ->
  shifted (fun t => occ t item.(setList)) sets0 sets ->
  match startTags tags item sets with
  | Ret (item', sets', None) =>
      item' = mkRuleSetItem item.(tagList) (item.(setList) ++ tags) item.(ipCidrMatchSource) item.(ipCidrAcceptEmpty) /\
      shifted (fun t => occ t (item.(setList) ++ tags)) sets0 sets'
  | Ret (item', sets', Some _) =>
      item' = emptied item /\ sets' = sets0 /\ exists tag, tag ∈ tags /\ sets0 !! tag = None
  | Panic => False
  end.
Proof.
  induction tags as [|tag tags IH]; intros item sets0 sets Hok Hs; cbn [startTags].
  { rewrite app_nil_r. destruct item. done. }
  pose proof (Hs tag) as Htag. destruct (sets !! tag) as [s'|] eqn:E.
  - destruct (sets0 !! tag) as [s|] eqn:E0; [|done].
    set (item1 := mkRuleSetItem _ _ _ _).
    assert (H1 : shifted (fun t => occ t (setList item1)) sets0 (IncRef sets tag)).
    { eapply shifted_ext; [|apply (upd_shifted _ sets0 sets tag 1 Hs)].
      - intros t. cbv beta. cbn [setList item1]. rewrite occ_app, occ_cons. unfold occ at 3. cbn.
        destruct (decide (tag = t)); lia.
      - intros s1 E1. destruct (Hok tag s1 E1) as [Hr1 Hr2]. pose proof (occ_bounds tag (setList item)).
        rewrite Nat2Z.inj_add in Hr2. cbn [length] in Hr2. lia. }
    assert (H2 : refsOk (Z.of_nat (length (setList item1) + length tags)) sets0).
    { intros t x Ex. destruct (Hok t x Ex). cbn [setList item1 length] in *. rewrite length_app. cbn [length]. lia. }
    specialize (IH item1 sets0 (IncRef sets tag) H2 H1).
    destruct (startTags tags item1 _) as [[[item' sets'] [e|]]|]; [..|done].
    + destruct IH as (-> & -> & t & Ht & Ht0). split; [done|]. split; [done|]. exists t. by split; [right|].
    + destruct IH as [-> IH]. cbn [setList tagList ipCidrMatchSource ipCidrAcceptEmpty item1] in *.
      rewrite <- app_assoc in IH |- *. done.
  - destruct (sets0 !! tag) as [s|] eqn:E0; [done|].
    rewrite (close_spec item sets0 sets); [|intros t x Ex; destruct (Hok t x Ex); lia|done].
    split; [done|]. split; [done|]. exists tag. by split; [left|].
Qed.

(** Starting a rule-set item that holds nothing either takes one reference
    per tag, all of which closing gives back exactly, or fails because a tag is
    missing and leaves every count as it was; neither panics. *)
Theorem ruleset_references_balanced item sets :
  item.(setList) = [] -> refsOk (Z.of_nat (length item.(tagList))) sets ->
  match RuleSetItem_Start item sets with
  | Ret (started, sets', None) =>
      started.(setList) = item.(tagList) /\
      (forall tag s, sets !! tag = Some s -> refs <$> sets' !! tag = Some (s.(refs) + occ tag item.(tagList))) /\
      RuleSetItem_Close started sets' = Ret (item, sets)
  | Ret (failed, sets', Some _) =>
      failed = item /\ sets' = sets /\ exists tag, tag ∈ item.(tagList) /\ sets !! tag = None
  | Panic => False
  end.
Proof.
  intros Hi Hok. unfold RuleSetItem_Start.
  assert (H0 : shifted (fun t => occ t []) sets sets).
  { intros t. change (occ t []) with 0. destruct (sets !! t); cbn; [|done]. by rewrite shift_0. }
  assert (He : emptied item = item) by (destruct item; cbn in Hi; by subst).
  rewrite (close_spec item sets sets); [|rewrite Hi; intros t s E; destruct (Hok t s E); cbn; lia|by rewrite Hi].
  rewrite He.
  pose proof (startTags_spec item.(tagList) item sets sets) as H. rewrite Hi in H. specialize (H Hok H0).
  destruct (startTags _ _ _) as [[[item' sets'] [e|]]|]; [..|done].
  - destruct H as (-> & -> & Ht). by rewrite He.
  - destruct H as [-> H]. cbn [app setList] in *. split; [done|]. split.
    + intros tag s E. rewrite H, E. done.
    + set (started := mkRuleSetItem _ _ _ _). replace item with (emptied started) by exact He.
      by apply close_spec.
Qed.

End Refs.

Import RuleDemo.

(** An item that names the same tag twice. *)
Definition twice : RuleSetItem := mkRuleSetItem ["office"; "office"] [] false false.

Lemma ruleset_references_balanced_witness :
  match RuleSetItem_Start twice demoSets with
  | Ret (started, sets', None) => refs <$> sets' !! "office" = Some 2 /\ RuleSetItem_Close started sets' = Ret (twice, demoSets)
  | _ => False
  end.
Proof.
  assert (Hok : refsOk (Z.of_nat (length twice.(tagList))) demoSets).
  { intros tag s E. unfold demoSets in E. apply lookup_singleton_Some in E as [<- <-]. cbn. lia. }
  pose proof (ruleset_references_balanced twice demoSets eq_refl Hok) as H.
  assert (E : match RuleSetItem_Start twice demoSets with Ret (_, _, None) => true | _ => false end = true)
    by (vm_compute; reflexivity).
  revert H E. generalize (RuleSetItem_Start twice demoSets). intros o H E.
  destruct o as [[[started sets'] [e|]]|]; [discriminate E| |exact H].
  destruct H as (_ & H & Hc). split; [|exact Hc]. exact (H "office" officeSet eq_refl).
Defined.
