(* ===== verification/DNSRules.v ===== *)
(** * DNS rules from options

    [src/route/rule/rule_dns.go] (the constructors), the DNS actions of
    [rule_action.go], the ban on nested actions of [rule_nested_action.go], the
    option types of [src/option/rule_dns.go] and [rule_action.go], and the part
    of [src/dns/router.go] that decides between legacy and response-based mode
    and validates the rules for it. *)

From S2P Require Import Prelude GoStrings RuleState RuleItems RuleMatch RuleBuild.

Local Open Scope string_scope.
Local Open Scope list_scope.
Local Open Scope Z_scope.

(** [C.DomainStrategy] *)
Definition DomainStrategyAsIS : Z := 0.
Definition DomainStrategyPreferIPv4 : Z := 1.
Definition DomainStrategyPreferIPv6 : Z := 2.
Definition DomainStrategyIPv4Only : Z := 3.
Definition DomainStrategyIPv6Only : Z := 4.

Definition RuleActionTypeRoute : string := "route".
Definition RuleActionTypeRouteOptions : string := "route-options".
Definition RuleActionTypeEvaluate : string := "evaluate".
Definition RuleActionTypeRespond : string := "respond".
Definition RuleActionTypeReject : string := "reject".
Definition RuleActionTypePredefined : string := "predefined".
Definition RuleActionRejectMethodDefault : string := "default".
Definition RuleActionRejectMethodDrop : string := "drop".
Definition RuleActionRejectMethodReply : string := "reply".

(** [deprecated.Note] of [src/experimental/deprecated/constants.go] *)
Record Note := mkNote { Description : string; DeprecatedVersion : string; ScheduledVersion : string; MigrationLink : string }.

Definition MessageWithLink (n : Note) : string :=
  n.(Description) +:+ " is deprecated in sing-box " +:+ n.(DeprecatedVersion) +:+
  " and will be removed in sing-box " +:+ n.(ScheduledVersion) +:+
  (if String.eqb n.(MigrationLink) "" then "." else ", checkout documentation for migration: " +:+ n.(MigrationLink)).

Definition migrateAddressFilter : string :=
  "https://sing-box.sagernet.org/migration/#migrate-address-filter-fields-to-response-matching".

Definition OptionIPAcceptAny : Note :=
  mkNote "Legacy `ip_accept_any` DNS rule item" "1.14.0" "1.16.0" migrateAddressFilter.
Definition OptionRuleSetIPCIDRAcceptEmpty : Note :=
  mkNote "Legacy `rule_set_ip_cidr_accept_empty` DNS rule item" "1.14.0" "1.16.0" migrateAddressFilter.
Definition OptionLegacyDNSAddressFilter : Note :=
  mkNote "Legacy Address Filter Fields in DNS rules" "1.14.0" "1.16.0" migrateAddressFilter.
Definition OptionLegacyDNSRuleStrategy : Note :=
  mkNote "Legacy `strategy` DNS rule action option" "1.14.0" "1.16.0"
    "https://sing-box.sagernet.org/migration/#migrate-dns-rule-action-strategy-to-rule-items".

Section DNSBuild.
Context `{RE : RuleEnv}.

(** ** Actions *)

(** [RuleActionDNSRouteOptions]; a client subnet that is not valid is absent. *)
Record DNSRouteOptions := mkDNSRouteOptions {
  roStrategy : Z;
  roDisableCache : bool;
  roRewriteTTL : option Z;
  roClientSubnet : option Prefix;
}.

Definition noRouteOptions : DNSRouteOptions := mkDNSRouteOptions 0 false None None.

Inductive DNSAction :=
| NoDNSAction
| RuleActionDNSRoute (server : string) (options : DNSRouteOptions)
| RuleActionEvaluate (server : string) (options : DNSRouteOptions)
| RuleActionRespond
| RuleActionDNSRouteOptions (options : DNSRouteOptions)
| RuleActionReject (method : string) (noDrop : bool)
| RuleActionPredefined (rcode : Z) (answer ns extra : list RR).

(** [option.DNSRuleAction] *)
Record DNSActionOptions := mkDNSActionOptions {
  aoAction : string;
  aoServer : string;
  aoRoute : DNSRouteOptions;
  aoRouteOptions : DNSRouteOptions;
  aoRejectMethod : string;
  aoRejectNoDrop : bool;
  aoRcode : option Z;
  aoAnswer : list RR;
  aoNs : list RR;
  aoExtra : list RR;
}.

Definition noAction : DNSActionOptions := mkDNSActionOptions "" "" noRouteOptions noRouteOptions "" false None [] [] [].

Definition routeOptionsSet (o : DNSRouteOptions) : bool :=
  negb (o.(roStrategy) =? 0) || o.(roDisableCache) || isSome o.(roRewriteTTL) || isSome o.(roClientSubnet).

(** [!reflect.DeepEqual(action, option.DNSRuleAction{})] *)
Definition hasAction (a : DNSActionOptions) : bool :=
  negb (String.eqb a.(aoAction) "") || negb (String.eqb a.(aoServer) "") || routeOptionsSet a.(aoRoute) ||
  routeOptionsSet a.(aoRouteOptions) || negb (String.eqb a.(aoRejectMethod) "") || a.(aoRejectNoDrop) ||
  isSome a.(aoRcode) || nonempty a.(aoAnswer) || nonempty a.(aoNs) || nonempty a.(aoExtra).

(** An unknown action panics. *)
Definition NewDNSRuleAction (a : DNSActionOptions) : outcome DNSAction :=
  if String.eqb a.(aoAction) "" then Ret NoDNSAction
  else if String.eqb a.(aoAction) RuleActionTypeRoute then Ret (RuleActionDNSRoute a.(aoServer) a.(aoRoute))
  else if String.eqb a.(aoAction) RuleActionTypeEvaluate then Ret (RuleActionEvaluate a.(aoServer) a.(aoRoute))
  else if String.eqb a.(aoAction) RuleActionTypeRespond then Ret RuleActionRespond
  else if String.eqb a.(aoAction) RuleActionTypeRouteOptions then Ret (RuleActionDNSRouteOptions a.(aoRouteOptions))
  else if String.eqb a.(aoAction) RuleActionTypeReject then Ret (RuleActionReject a.(aoRejectMethod) a.(aoRejectNoDrop))
  else if String.eqb a.(aoAction) RuleActionTypePredefined then
    Ret (RuleActionPredefined (default RcodeSuccess a.(aoRcode)) a.(aoAnswer) a.(aoNs) a.(aoExtra))
  else Panic.

Definition validateDNSRuleAction (a : DNSActionOptions) : option error :=
  if String.eqb a.(aoAction) RuleActionTypeReject && String.eqb a.(aoRejectMethod) RuleActionRejectMethodReply
  then Some (E_New ["reject method `reply` is not supported for DNS rules"])
  else None.

(** ** Options *)

(** [option.DefaultDNSRule] *)
Record DNSOptions := mkDNSOptions {
  do_Inbound : list string;
  do_IPVersion : Z;
  do_QueryType : list Z;
  do_Network : list string;
  do_AuthUser : list string;
  do_Protocol : list string;
  do_Domain : list string;
  do_DomainSuffix : list string;
  do_DomainKeyword : list string;
  do_DomainRegex : list string;
  do_SourceIPCIDR : list string;
  do_SourceIPIsPrivate : bool;
  do_SourcePort : list Z;
  do_SourcePortRange : list string;
  do_Port : list Z;
  do_PortRange : list string;
  do_ProcessName : list string;
  do_ProcessPath : list string;
  do_ProcessPathRegex : list string;
  do_PackageName : list string;
  do_User : list string;
  do_UserID : list Z;
  do_Outbound : list string;
  do_ClashMode : string;
  do_NetworkType : list Z;
  do_NetworkIsExpensive : bool;
  do_NetworkIsConstrained : bool;
  do_WIFISSID : list string;
  do_WIFIBSSID : list string;
  do_InterfaceAddress : option (list (string * list Prefix));
  do_NetworkInterfaceAddress : option (list (Z * list Prefix));
  do_DefaultInterfaceAddress : list Prefix;
  do_SourceMACAddress : list string;
  do_SourceHostname : list string;
  do_RuleSet : list string;
  do_RuleSetIPCIDRMatchSource : bool;
  do_MatchResponse : bool;
  do_IPCIDR : list string;
  do_IPIsPrivate : bool;
  do_ResponseRcode : option Z;
  do_ResponseAnswer : list RR;
  do_ResponseNs : list RR;
  do_ResponseExtra : list RR;
  do_Invert : bool;
  do_Geosite : list string;
  do_SourceGeoIP : list string;
  do_GeoIP : list string;
  do_IPAcceptAny : bool;
  do_RuleSetIPCIDRAcceptEmpty : bool;
  do_Deprecated_RulesetIPCIDRMatchSource : bool;
  do_Action : DNSActionOptions;
}.

Definition noDNSOptions : DNSOptions :=
  mkDNSOptions [] 0 [] [] [] [] [] [] [] [] [] false [] [] [] [] [] [] [] [] [] [] [] "" [] false
    false [] [] None None [] [] [] [] false false [] false None [] [] [] false [] [] [] false false
    false noAction.

(** [DefaultDNSRule.IsValid], with absent and empty lists identified. *)
Definition DNSOptions_IsValid (o : DNSOptions) : bool :=
  nonempty o.(do_Inbound) || negb (o.(do_IPVersion) =? 0) || nonempty o.(do_QueryType) ||
  nonempty o.(do_Network) || nonempty o.(do_AuthUser) || nonempty o.(do_Protocol) ||
  nonempty o.(do_Domain) || nonempty o.(do_DomainSuffix) || nonempty o.(do_DomainKeyword) ||
  nonempty o.(do_DomainRegex) || nonempty o.(do_SourceIPCIDR) || o.(do_SourceIPIsPrivate) ||
  nonempty o.(do_SourcePort) || nonempty o.(do_SourcePortRange) || nonempty o.(do_Port) ||
  nonempty o.(do_PortRange) || nonempty o.(do_ProcessName) || nonempty o.(do_ProcessPath) ||
  nonempty o.(do_ProcessPathRegex) || nonempty o.(do_PackageName) || nonempty o.(do_User) ||
  nonempty o.(do_UserID) || nonempty o.(do_Outbound) || negb (String.eqb o.(do_ClashMode) "") ||
  nonempty o.(do_NetworkType) || o.(do_NetworkIsExpensive) || o.(do_NetworkIsConstrained) ||
  nonempty o.(do_WIFISSID) || nonempty o.(do_WIFIBSSID) || isSome o.(do_InterfaceAddress) ||
  isSome o.(do_NetworkInterfaceAddress) || nonempty o.(do_DefaultInterfaceAddress) ||
  nonempty o.(do_SourceMACAddress) || nonempty o.(do_SourceHostname) || nonempty o.(do_RuleSet) ||
  o.(do_RuleSetIPCIDRMatchSource) || o.(do_MatchResponse) || nonempty o.(do_IPCIDR) || o.(do_IPIsPrivate) ||
  isSome o.(do_ResponseRcode) || nonempty o.(do_ResponseAnswer) || nonempty o.(do_ResponseNs) ||
  nonempty o.(do_ResponseExtra) || nonempty o.(do_Geosite) || nonempty o.(do_SourceGeoIP) ||
  nonempty o.(do_GeoIP) || o.(do_IPAcceptAny) || o.(do_RuleSetIPCIDRAcceptEmpty) ||
  o.(do_Deprecated_RulesetIPCIDRMatchSource) || hasAction o.(do_Action).

Abbreviation DNSRuleOptions := (OptionTree DNSOptions DNSActionOptions) (only parsing).

(** ** Constructors *)

(** The conditions on the query, the addresses, the response and the ports. *)
Definition dnsQueryBlocks (legacyDNSMode : bool) (o : DNSOptions) : list (result error (ItemGroup * RuleItem)) :=
  cond (nonempty o.(do_Inbound)) GItems (NewInboundRule o.(do_Inbound)) ++
  (if 0 <? o.(do_IPVersion) then
     if (o.(do_IPVersion) =? 4) || (o.(do_IPVersion) =? 6)
     then cond true GItems (NewIPVersionItem (o.(do_IPVersion) =? 6))
     else reject true (E_New ["invalid ip version: "; itoa o.(do_IPVersion)])
   else []) ++
  cond (nonempty o.(do_QueryType)) GItems (NewQueryTypeItem o.(do_QueryType)) ++
  cond (nonempty o.(do_Network)) GItems (NewNetworkItem o.(do_Network)) ++
  cond (nonempty o.(do_AuthUser)) GItems (NewAuthUserItem o.(do_AuthUser)) ++
  cond (nonempty o.(do_Protocol)) GItems (NewProtocolItem o.(do_Protocol)) ++
  condErr (nonempty o.(do_Domain) || nonempty o.(do_DomainSuffix)) GDestinationAddress
    (NewDomainItem o.(do_Domain) o.(do_DomainSuffix)) id ++
  cond (nonempty o.(do_DomainKeyword)) GDestinationAddress (NewDomainKeywordItem o.(do_DomainKeyword)) ++
  condErr (nonempty o.(do_DomainRegex)) GDestinationAddress (NewDomainRegexItem o.(do_DomainRegex))
    (fun e => E_Cause e ["domain_regex"]) ++
  reject (nonempty o.(do_Geosite)) (E_New ["geosite database is deprecated in sing-box 1.8.0 and removed in sing-box 1.12.0"]) ++
  reject (nonempty o.(do_SourceGeoIP)) (E_New ["geoip database is deprecated in sing-box 1.8.0 and removed in sing-box 1.12.0"]) ++
  reject (nonempty o.(do_GeoIP)) (E_New ["geoip database is deprecated in sing-box 1.8.0 and removed in sing-box 1.12.0"]) ++
  condErr (nonempty o.(do_SourceIPCIDR)) GSourceAddress (NewIPCIDRItem true o.(do_SourceIPCIDR))
    (fun e => E_Cause e ["source_ip_cidr"]) ++
  condErr (nonempty o.(do_IPCIDR)) GDestinationIPCIDR (NewIPCIDRItem false o.(do_IPCIDR))
    (fun e => E_Cause e ["ip_cidr"]) ++
  cond o.(do_SourceIPIsPrivate) GSourceAddress (NewIPIsPrivateItem true) ++
  cond o.(do_IPIsPrivate) GDestinationIPCIDR (NewIPIsPrivateItem false) ++
  (if o.(do_IPAcceptAny) then
     if legacyDNSMode then cond true GDestinationIPCIDR NewIPAcceptAnyItem
     else reject true (E_New [MessageWithLink OptionIPAcceptAny])
   else []) ++
  (match o.(do_ResponseRcode) with Some rcode => cond true GItems (NewDNSResponseRCodeItem rcode) | None => [] end) ++
  cond (nonempty o.(do_ResponseAnswer)) GItems (NewDNSResponseRecordItem o.(do_ResponseAnswer) Answer) ++
  cond (nonempty o.(do_ResponseNs)) GItems (NewDNSResponseRecordItem o.(do_ResponseNs) Ns) ++
  cond (nonempty o.(do_ResponseExtra)) GItems (NewDNSResponseRecordItem o.(do_ResponseExtra) Extra) ++
  cond (nonempty o.(do_SourcePort)) GSourcePort (NewPortItem true o.(do_SourcePort)) ++
  condErr (nonempty o.(do_SourcePortRange)) GSourcePort (NewPortRangeItem true o.(do_SourcePortRange))
    (fun e => E_Cause e ["source_port_range"]) ++
  cond (nonempty o.(do_Port)) GDestinationPort (NewPortItem false o.(do_Port)) ++
  condErr (nonempty o.(do_PortRange)) GDestinationPort (NewPortRangeItem false o.(do_PortRange))
    (fun e => E_Cause e ["port_range"]).

(** The conditions on the process, the network and the neighbour, and the checks
    on rule-set options. *)
Definition dnsContextBlocks (legacyDNSMode : bool) (o : DNSOptions) : list (result error (ItemGroup * RuleItem)) :=
  cond (nonempty o.(do_ProcessName)) GItems (NewProcessItem o.(do_ProcessName)) ++
  cond (nonempty o.(do_ProcessPath)) GItems (NewProcessPathItem o.(do_ProcessPath)) ++
  condErr (nonempty o.(do_ProcessPathRegex)) GItems (NewProcessPathRegexItem o.(do_ProcessPathRegex))
    (fun e => E_Cause e ["process_path_regex"]) ++
  cond (nonempty o.(do_PackageName)) GItems (NewPackageNameItem o.(do_PackageName)) ++
  cond (nonempty o.(do_User)) GItems (NewUserItem o.(do_User)) ++
  cond (nonempty o.(do_UserID)) GItems (NewUserIDItem o.(do_UserID)) ++
  cond (nonempty o.(do_Outbound)) GItems (NewOutboundRule o.(do_Outbound)) ++
  cond (negb (String.eqb o.(do_ClashMode) "")) GItems (NewClashModeItem o.(do_ClashMode)) ++
  cond (nonempty o.(do_NetworkType)) GItems (NewNetworkTypeItem o.(do_NetworkType)) ++
  cond o.(do_NetworkIsExpensive) GItems (NewNetworkIsExpensiveItem) ++
  cond o.(do_NetworkIsConstrained) GItems (NewNetworkIsConstrainedItem) ++
  cond (nonempty o.(do_WIFISSID)) GItems (NewWIFISSIDItem o.(do_WIFISSID)) ++
  cond (nonempty o.(do_WIFIBSSID)) GItems (NewWIFIBSSIDItem o.(do_WIFIBSSID)) ++
  (match o.(do_InterfaceAddress) with
   | Some entries => cond (nonempty entries) GItems (NewInterfaceAddressItem entries)
   | None => []
   end) ++
  (match o.(do_NetworkInterfaceAddress) with
   | Some entries => cond (nonempty entries) GItems (NewNetworkInterfaceAddressItem entries)
   | None => []
   end) ++
  cond (nonempty o.(do_DefaultInterfaceAddress)) GItems (NewDefaultInterfaceAddressItem o.(do_DefaultInterfaceAddress)) ++
  cond (nonempty o.(do_SourceMACAddress)) GItems (NewSourceMACAddressItem o.(do_SourceMACAddress)) ++
  cond (nonempty o.(do_SourceHostname)) GItems (NewSourceHostnameItem o.(do_SourceHostname)) ++
  reject (o.(do_RuleSetIPCIDRAcceptEmpty) && negb legacyDNSMode) (E_New [MessageWithLink OptionRuleSetIPCIDRAcceptEmpty]) ++
  reject (nonempty o.(do_RuleSet) && o.(do_Deprecated_RulesetIPCIDRMatchSource))
    (E_New ["rule_set_ipcidr_match_source is deprecated in sing-box 1.10.0 and removed in sing-box 1.11.0"]).

Definition dnsBlocks (legacyDNSMode : bool) (o : DNSOptions) : list (result error (ItemGroup * RuleItem)) :=
  dnsQueryBlocks legacyDNSMode o ++ dnsContextBlocks legacyDNSMode o.

Definition NewDefaultDNSRule (legacyDNSMode : bool) (o : DNSOptions) : outcome (result error (DefaultDNSRule DNSAction)) :=
  match NewDNSRuleAction o.(do_Action) with
  | Panic => Panic
  | Ret action =>
      match runBlocks (dnsBlocks legacyDNSMode o) with
      | Err e => Ret (Err e)
      | Ok items =>
          let rs := if nonempty o.(do_RuleSet)
                    then Some (NewRuleSetItem o.(do_RuleSet) o.(do_RuleSetIPCIDRMatchSource) o.(do_RuleSetIPCIDRAcceptEmpty))
                    else None in
          Ret (Ok (mkDefaultDNSRule (mkDefaultRule items rs o.(do_Invert)) o.(do_MatchResponse) action))
      end
  end.

(** [DNSRule.IsValid]: types other than ["default"] and ["logical"] panic. *)
Fixpoint DNSRule_IsValid (t : DNSRuleOptions) : outcome bool :=
  match t with
  | OptionRule ty d _ rules _ _ =>
      if String.eqb ty RuleTypeDefault then Ret (DNSOptions_IsValid d)
      else if String.eqb ty RuleTypeLogical then
        if nonempty rules then allM DNSRule_IsValid rules else Ret false
      else Panic
  end.

Definition isDefaultType (ty : string) : bool := String.eqb ty "" || String.eqb ty RuleTypeDefault.

Definition dnsRuleHasConfiguredAction (t : DNSRuleOptions) : bool :=
  let '(OptionRule ty d _ _ _ action) := t in
  if isDefaultType ty then hasAction d.(do_Action)
  else if String.eqb ty RuleTypeLogical then hasAction action
  else false.

Definition DNSRuleActionNestedUnsupportedMessage : string := "DNS rule action is not supported in nested rules".

(** The loop over sub-rules: the first error, with its index. *)
Section FirstError.
Context {T : Type} (f : T -> option error) (wrap : Z -> error -> error).
Fixpoint firstError (i : Z) (l : list T) : option error :=
  match l with
  | [] => None
  | x :: l' => match f x with Some e => Some (wrap i e) | None => firstError (i + 1) l' end
  end.
End FirstError.

Fixpoint validateNoNestedDNSRuleActions (t : DNSRuleOptions) (nested : bool) : option error :=
  match t with
  | OptionRule ty _ _ rules _ _ =>
      if nested && dnsRuleHasConfiguredAction t then Some (E_New [DNSRuleActionNestedUnsupportedMessage])
      else if negb (String.eqb ty RuleTypeLogical) then None
      else firstError (fun r => validateNoNestedDNSRuleActions r true) subRuleError 0 rules
  end.

Definition needsServer (a : DNSActionOptions) : bool :=
  String.eqb a.(aoAction) "" || String.eqb a.(aoAction) RuleActionTypeRoute || String.eqb a.(aoAction) RuleActionTypeEvaluate.

(** The checks on the action that both branches of [NewDNSRule] make. *)
Definition checkDNSAction (checkServer : bool) (a : DNSActionOptions) : option error :=
  if negb checkServer && String.eqb a.(aoAction) RuleActionTypeEvaluate
  then Some (E_New [a.(aoAction); " is only allowed on top-level DNS rules"])
  else match validateDNSRuleAction a with
       | Some e => Some e
       | None => if needsServer a && String.eqb a.(aoServer) "" && checkServer
                 then Some (E_New ["missing server field"]) else None
       end.

Fixpoint NewDNSRule (t : DNSRuleOptions) (checkServer legacyDNSMode : bool)
  : outcome (result error (DNSRule DNSAction)) :=
  match t with
  | OptionRule ty d mode rules inverted action =>
      if isDefaultType ty then
        if negb (DNSOptions_IsValid d) then Ret (Err (E_New ["missing conditions"]))
        else match checkDNSAction checkServer d.(do_Action) with
             | Some e => Ret (Err e)
             | None => match NewDefaultDNSRule legacyDNSMode d with
                       | Panic => Panic
                       | Ret (Err e) => Ret (Err e)
                       | Ret (Ok r) => Ret (Ok (DefaultLeaf r))
                       end
             end
      else if String.eqb ty RuleTypeLogical then
        match (if nonempty rules then allM DNSRule_IsValid rules else Ret false) with
        | Panic => Panic
        | Ret false => Ret (Err (E_New ["missing conditions"]))
        | Ret true =>
            match checkDNSAction checkServer action with
            | Some e => Ret (Err e)
            | None =>
                (* NewLogicalDNSRule *)
                match NewDNSRuleAction action with
                | Panic => Panic
                | Ret act =>
                    if String.eqb mode LogicalTypeAnd || String.eqb mode LogicalTypeOr then
                      match buildAll (fun sub =>
                              match validateNoNestedDNSRuleActions sub true with
                              | Some e => Ret (Err e)
                              | None => NewDNSRule sub false legacyDNSMode
                              end) subRuleError 0 rules with
                      | Panic => Panic
                      | Ret (Err e) => Ret (Err e)
                      | Ret (Ok us) => Ret (Ok (LogicalNode mode inverted act us))
                      end
                    else Ret (Err (E_New ["unknown logical mode: "; mode]))
                end
            end
        end
      else Ret (Err (E_New ["unknown rule type: "; ty]))
  end.

(** ** Legacy mode or not *)

Record dnsRuleModeFlags := mkModeFlags { disabled : bool; needed : bool; neededFromStrategy : bool }.

Definition noFlags : dnsRuleModeFlags := mkModeFlags false false false.

Definition mergeFlags (f other : dnsRuleModeFlags) : dnsRuleModeFlags :=
  mkModeFlags (f.(disabled) || other.(disabled)) (f.(needed) || other.(needed))
    (f.(neededFromStrategy) || other.(neededFromStrategy)).

Definition defaultRuleNeedsLegacyDNSModeFromAddressFilter (o : DNSOptions) : bool :=
  if o.(do_IPAcceptAny) || o.(do_RuleSetIPCIDRAcceptEmpty) then true
  else negb o.(do_MatchResponse) && (nonempty o.(do_IPCIDR) || o.(do_IPIsPrivate)).

Definition hasResponseMatchFields (o : DNSOptions) : bool :=
  isSome o.(do_ResponseRcode) || nonempty o.(do_ResponseAnswer) || nonempty o.(do_ResponseNs) ||
  nonempty o.(do_ResponseExtra).

Definition defaultRuleDisablesLegacyDNSMode (o : DNSOptions) : bool :=
  o.(do_MatchResponse) || hasResponseMatchFields o ||
  String.eqb o.(do_Action).(aoAction) RuleActionTypeEvaluate ||
  String.eqb o.(do_Action).(aoAction) RuleActionTypeRespond ||
  (0 <? o.(do_IPVersion)) || nonempty o.(do_QueryType).

Definition dnsRuleActionHasStrategy (a : DNSActionOptions) : bool :=
  if needsServer a then negb (a.(aoRoute).(roStrategy) =? DomainStrategyAsIS)
  else if String.eqb a.(aoAction) RuleActionTypeRouteOptions
       then negb (a.(aoRouteOptions).(roStrategy) =? DomainStrategyAsIS)
  else false.

Definition dnsRuleActionType (t : DNSRuleOptions) : string :=
  let '(OptionRule ty d _ _ _ action) := t in
  let name (a : DNSActionOptions) := if String.eqb a.(aoAction) "" then RuleActionTypeRoute else a.(aoAction) in
  if isDefaultType ty then name d.(do_Action)
  else if String.eqb ty RuleTypeLogical then name action
  else "".

Definition dnsRuleActionServer (t : DNSRuleOptions) : string :=
  let '(OptionRule ty d _ _ _ action) := t in
  if isDefaultType ty then d.(do_Action).(aoServer)
  else if String.eqb ty RuleTypeLogical then action.(aoServer)
  else "".

(** [router]: [None] when the service is not registered, else its rule-sets. *)
Definition lookupDNSRuleSetMetadata (router : gmap string RuleSet) (tag : string)
    (overrides : gmap string RuleSetMetadata) : result error RuleSetMetadata :=
  match overrides !! tag with
  | Some m => Ok m
  | None =>
      match router !! tag with
      | Some s => Ok s.(metadata)
      | None => Err (E_New ["rule-set not found: "; tag])
      end
  end.

Fixpoint flagsOfSets (matchSource : bool) (router : gmap string RuleSet) (overrides : gmap string RuleSetMetadata)
    (tags : list string) (f : dnsRuleModeFlags) : result error dnsRuleModeFlags :=
  match tags with
  | [] => Ok f
  | tag :: rest =>
      match lookupDNSRuleSetMetadata router tag overrides with
      | Err e => Err e
      | Ok m =>
          flagsOfSets matchSource router overrides rest
            (mkModeFlags (f.(disabled) || m.(ContainsDNSQueryTypeRule))
               (if negb matchSource && m.(ContainsIPCIDRRule) then true else f.(needed))
               f.(neededFromStrategy))
      end
  end.

Definition dnsRuleModeRequirementsInDefaultRule (router : option (gmap string RuleSet)) (o : DNSOptions)
    (overrides : gmap string RuleSetMetadata) : result error dnsRuleModeFlags :=
  let strategy := dnsRuleActionHasStrategy o.(do_Action) in
  let f := mkModeFlags (defaultRuleDisablesLegacyDNSMode o)
             (defaultRuleNeedsLegacyDNSModeFromAddressFilter o || strategy) strategy in
  if negb (nonempty o.(do_RuleSet)) then Ok f
  else match router with
       | None => Err (E_New ["router service not found"])
       | Some router => flagsOfSets o.(do_RuleSetIPCIDRMatchSource) router overrides o.(do_RuleSet) f
       end.

(** The loops that merge the flags of rules, from index [i]. *)
Section MergeFlags.
Context {T : Type} (f : T -> result error dnsRuleModeFlags) (wrap : Z -> error -> error).
Fixpoint mergeRuleFlags (i : Z) (l : list T) (flags : dnsRuleModeFlags) : result error dnsRuleModeFlags :=
  match l with
  | [] => Ok flags
  | x :: l' =>
      match f x with
      | Err e => Err (wrap i e)
      | Ok g => mergeRuleFlags (i + 1) l' (mergeFlags flags g)
      end
  end.
End MergeFlags.

Fixpoint dnsRuleModeRequirementsInRule (router : option (gmap string RuleSet))
    (overrides : gmap string RuleSetMetadata) (t : DNSRuleOptions) : result error dnsRuleModeFlags :=
  match t with
  | OptionRule ty d _ rules _ action =>
      if isDefaultType ty then dnsRuleModeRequirementsInDefaultRule router d overrides
      else if String.eqb ty RuleTypeLogical then
        let strategy := dnsRuleActionHasStrategy action in
        let actionType := dnsRuleActionType t in
        mergeRuleFlags (dnsRuleModeRequirementsInRule router overrides) subRuleError 0 rules
          (mkModeFlags (String.eqb actionType RuleActionTypeEvaluate || String.eqb actionType RuleActionTypeRespond)
             strategy strategy)
      else Ok noFlags
  end.

Definition dnsRuleModeRequirements (router : option (gmap string RuleSet)) (rules : list DNSRuleOptions)
    (overrides : gmap string RuleSetMetadata) : result error dnsRuleModeFlags :=
  mergeRuleFlags (dnsRuleModeRequirementsInRule router overrides)
    (fun i e => E_Cause e ["dns rule["; itoa i; "]"]) 0 rules noFlags.

Definition resolveLegacyDNSMode (router : option (gmap string RuleSet)) (rules : list DNSRuleOptions)
    (overrides : gmap string RuleSetMetadata) : result error (bool * dnsRuleModeFlags) :=
  match dnsRuleModeRequirements router rules overrides with
  | Err e => Err e
  | Ok flags =>
      if flags.(disabled) && flags.(neededFromStrategy) then Err (E_New [MessageWithLink OptionLegacyDNSRuleStrategy])
      else if flags.(disabled) then Ok (false, flags)
      else Ok (flags.(needed), flags)
  end.

(** ** Validation without legacy mode *)

Definition validateLegacyDNSModeDisabledDefaultRule (o : DNSOptions) : result error bool :=
  if (hasResponseMatchFields o || nonempty o.(do_IPCIDR) || o.(do_IPIsPrivate)) && negb o.(do_MatchResponse) then
    Err (E_New ["Response Match Fields (ip_cidr, ip_is_private, response_rcode, response_answer, response_ns, response_extra) require match_response to be enabled"])
  else if o.(do_IPAcceptAny) then Err (E_New [MessageWithLink OptionIPAcceptAny])
  else if o.(do_RuleSetIPCIDRAcceptEmpty) then Err (E_New [MessageWithLink OptionRuleSetIPCIDRAcceptEmpty])
  else Ok (o.(do_MatchResponse) || String.eqb o.(do_Action).(aoAction) RuleActionTypeRespond).

Section AnyRequires.
Context {T : Type} (f : T -> result error bool) (wrap : Z -> error -> error).
Fixpoint anyRequires (i : Z) (l : list T) (acc : bool) : result error bool :=
  match l with
  | [] => Ok acc
  | x :: l' => match f x with Err e => Err (wrap i e) | Ok b => anyRequires (i + 1) l' (acc || b) end
  end.
End AnyRequires.

Fixpoint validateLegacyDNSModeDisabledRuleTree (t : DNSRuleOptions) : result error bool :=
  match t with
  | OptionRule ty d _ rules _ action =>
      if isDefaultType ty then validateLegacyDNSModeDisabledDefaultRule d
      else if String.eqb ty RuleTypeLogical then
        anyRequires validateLegacyDNSModeDisabledRuleTree subRuleError 0 rules
          (String.eqb (dnsRuleActionType t) RuleActionTypeRespond)
      else Ok false
  end.

Fixpoint validateDisabledFrom (i : Z) (seenEvaluate : bool) (rules : list DNSRuleOptions) : option error :=
  match rules with
  | [] => None
  | rule :: rest =>
      match validateLegacyDNSModeDisabledRuleTree rule with
      | Err e => Some (E_Cause e ["validate dns rule["; itoa i; "]"])
      | Ok requiresPriorEvaluate =>
          if requiresPriorEvaluate && negb seenEvaluate then
            Some (E_New ["dns rule["; itoa i; "]: response-based matching requires a preceding evaluate action"])
          else validateDisabledFrom (i + 1)
                 (if String.eqb (dnsRuleActionType rule) RuleActionTypeEvaluate then true else seenEvaluate) rest
      end
  end.

Definition validateLegacyDNSModeDisabledRules (rules : list DNSRuleOptions) : option error :=
  validateDisabledFrom 0 false rules.

(** [transports]: the type of each registered transport. *)
Definition DNSTypeFakeIP : string := "fakeip".

Fixpoint validateEvaluateFrom (i : Z) (transports : gmap string string) (rules : list DNSRuleOptions) : option error :=
  match rules with
  | [] => None
  | rule :: rest =>
      let server := dnsRuleActionServer rule in
      if String.eqb (dnsRuleActionType rule) RuleActionTypeEvaluate && negb (String.eqb server "")
         && bool_decide (transports !! server = Some DNSTypeFakeIP)
      then Some (E_New ["dns rule["; itoa i; "]: evaluate action cannot use fakeip server: "; server])
      else validateEvaluateFrom (i + 1) transports rest
  end.

Definition validateEvaluateFakeIPRules (rules : list DNSRuleOptions) (transports : option (gmap string string)) : option error :=
  match transports with None => None | Some ts => validateEvaluateFrom 0 ts rules end.

End DNSBuild.

Arguments noAction {_}.
Arguments noDNSOptions {_}.
