(* ===== verification/DNSRouter.v ===== *)
(** * The DNS router

    [src/dns/router.go]: building, starting and closing the rules, matching in
    legacy mode ([matchDNS] and the retry loop of [Exchange]) and the evaluation
    of rules with responses ([exchangeWithRules]).

    The DNS client is an interface of the source ([adapter.DNSClient]) with a
    state of its own; transports are known by tag and type.  Logging is left
    out.  The message header keeps the identifier, the response bit and the
    response code. *)

From S2P Require Import Prelude GoStrings RuleState RuleItems RuleMatch RuleBuild DNSRules.

Local Open Scope string_scope.
Local Open Scope list_scope.
Local Open Scope Z_scope.

(** [adapter.DNSTransport], by what the router reads of it. *)
Record DNSTransport := mkDNSTransport { transportTag : string; transportType : string }.

Section Options.
Context `{RE : RuleEnv}.

(** [adapter.DNSQueryOptions] *)
Record DNSQueryOptions := mkDNSQueryOptions {
  qoTransport : option DNSTransport;
  qoStrategy : Z;
  qoLookupStrategy : Z;
  qoDisableCache : bool;
  qoRewriteTTL : option Z;
  qoClientSubnet : option Prefix;
}.

Definition set_Strategy (v : Z) (o : DNSQueryOptions) : DNSQueryOptions :=
  mkDNSQueryOptions o.(qoTransport) v o.(qoLookupStrategy) o.(qoDisableCache) o.(qoRewriteTTL) o.(qoClientSubnet).
Definition set_DisableCache (v : bool) (o : DNSQueryOptions) : DNSQueryOptions :=
  mkDNSQueryOptions o.(qoTransport) o.(qoStrategy) o.(qoLookupStrategy) v o.(qoRewriteTTL) o.(qoClientSubnet).
Definition set_RewriteTTL (v : option Z) (o : DNSQueryOptions) : DNSQueryOptions :=
  mkDNSQueryOptions o.(qoTransport) o.(qoStrategy) o.(qoLookupStrategy) o.(qoDisableCache) v o.(qoClientSubnet).
Definition set_ClientSubnet (v : option Prefix) (o : DNSQueryOptions) : DNSQueryOptions :=
  mkDNSQueryOptions o.(qoTransport) o.(qoStrategy) o.(qoLookupStrategy) o.(qoDisableCache) o.(qoRewriteTTL) v.

(** [applyDNSRouteOptions]: the strategy is left alone. *)
Definition applyDNSRouteOptions (o : DNSQueryOptions) (r : DNSRouteOptions) : DNSQueryOptions :=
  let o := if r.(roDisableCache) then set_DisableCache true o else o in
  let o := if isSome r.(roRewriteTTL) then set_RewriteTTL r.(roRewriteTTL) o else o in
  if isSome r.(roClientSubnet) then set_ClientSubnet r.(roClientSubnet) o else o.

(** What [matchDNS] does with the options of a matched action. *)
Definition applyLegacyOptions (o : DNSQueryOptions) (r : DNSRouteOptions) (isFakeIP : bool) : DNSQueryOptions :=
  let o := if negb (r.(roStrategy) =? DomainStrategyAsIS) then set_Strategy r.(roStrategy) o else o in
  let o := if isFakeIP || r.(roDisableCache) then set_DisableCache true o else o in
  let o := if isSome r.(roRewriteTTL) then set_RewriteTTL r.(roRewriteTTL) o else o in
  if isSome r.(roClientSubnet) then set_ClientSubnet r.(roClientSubnet) o else o.

Definition orDefaultStrategy (defaultDomainStrategy : Z) (o : DNSQueryOptions) : DNSQueryOptions :=
  if o.(qoStrategy) =? DomainStrategyAsIS then set_Strategy defaultDomainStrategy o else o.

(** [resolveLookupStrategy], [filterAddressesByQueryType], [sortAddresses] *)
Definition resolveLookupStrategy (defaultDomainStrategy : Z) (o : DNSQueryOptions) : Z :=
  if negb (o.(qoLookupStrategy) =? DomainStrategyAsIS) then o.(qoLookupStrategy)
  else if negb (o.(qoStrategy) =? DomainStrategyAsIS) then o.(qoStrategy)
  else defaultDomainStrategy.

Definition filterAddressesByQueryType (addresses : list Addr) (qType : Z) : list Addr :=
  if qType =? TypeA then List.filter Is4 addresses
  else if qType =? TypeAAAA then List.filter Is6 addresses
  else addresses.

Definition sortAddresses (response4 response6 : list Addr) (strategy : Z) : list Addr :=
  if strategy =? DomainStrategyPreferIPv6 then response6 ++ response4 else response4 ++ response6.

End Options.

(** ** The client, and what the router uses of the DNS library *)

Class DNSEnv `{RE : RuleEnv} := {
  ClientState : Type;
  (** [Exchange] with the response checker, if any. *)
  client_Exchange : ClientState -> DNSTransport -> Msg -> DNSQueryOptions -> option (option Msg -> bool) ->
    ClientState * result error Msg;
  (** [errors.Is(err, ErrResponseRejectedCached) || errors.Is(err, ErrResponseRejected)] *)
  isResponseRejected : error -> bool;
  ErrDrop : error;
  IsFqdn : string -> bool;
}.

Section Router.
Context `{DE : DNSEnv}.

Definition FqdnToDomain (fqdn : string) : string :=
  if IsFqdn fqdn then String.substring 0 (String.length fqdn - 1) fqdn else fqdn.

Definition ruleAction (t : DNSRule DNSAction) : DNSAction :=
  match t with DefaultLeaf d => d.(dnsAction) | LogicalNode _ _ a _ => a end.

(** [adapter.DNSTransportManager] *)
Record TransportManager := mkTransportManager {
  tmTransports : gmap string DNSTransport;
  tmDefault : DNSTransport;
}.

Definition isFakeIP (t : DNSTransport) : bool := String.eqb t.(transportType) DNSTypeFakeIP.

(** The environment of one query: the network, the rule-sets, the transports,
    the default strategy. *)
Record QueryEnv := mkQueryEnv {
  qNet : NetView;
  qSets : gmap string RuleSet;
  qTransports : TransportManager;
  qDefaultStrategy : Z;
}.

(** ** Responses made by the router *)

Definition refusedResponse (message : Msg) : Msg :=
  mkMsg message.(msgId) true false false false RcodeRefused (take 1 message.(msgQuestion)) [] [] [].

Definition formatErrorResponse (message : Msg) : Msg :=
  mkMsg message.(msgId) true false false false RcodeFormatError message.(msgQuestion) [] [] [].

Definition headerName (r : RR) : string := r.(rrHeader).(hdrName).

Definition withName (name : string) (r : RR) : RR :=
  let h := r.(rrHeader) in mkRR (mkHeader name h.(hdrRrtype) h.(hdrClass) h.(hdrTtl)) r.(rrData).

Definition hasSuffix (s suffix : string) : bool :=
  (String.length suffix <=? String.length s)%nat &&
  String.eqb (String.substring (String.length s - String.length suffix) (String.length suffix) s) suffix.

(** A wildcard record takes the name of the question it covers. *)
Definition rewriteRecord (question : Question) (r : RR) : RR :=
  match headerName r with
  | String "*" rest => if hasSuffix question.(Qname) rest then withName question.(Qname) r else r
  | _ => r
  end.

(** [request.Question[0]] panics without a question. *)
Definition predefinedResponse (rcode : Z) (answer ns extra : list RR) (request : Msg) : outcome Msg :=
  match request.(msgQuestion) with
  | [] => Panic
  | question :: _ =>
      Ret (mkMsg request.(msgId) true true true true rcode request.(msgQuestion) (map (rewriteRecord question) answer)
             (map (rewriteRecord question) ns) (map (rewriteRecord question) extra))
  end.

Definition isAddressQuery (message : Msg) : bool :=
  List.existsb (fun q => (q.(Qtype) =? TypeA) || (q.(Qtype) =? TypeAAAA) || (q.(Qtype) =? TypeHTTPS)) message.(msgQuestion).

(** ** Matching in legacy mode *)

(** The loop of [matchDNS] over the rules from index [i]; the metadata and the
    options are updated in place. *)
Fixpoint matchDNSFrom (env : QueryEnv) (allowFakeIP isAddressQuery : bool) (i : Z) (rules : list (DNSRule DNSAction))
    (c : InboundContext) (options : DNSQueryOptions)
  : option DNSTransport * option (DNSRule DNSAction) * Z * InboundContext * DNSQueryOptions :=
  match rules with
  | [] => (Some env.(qTransports).(tmDefault), None, -1, c, options)
  | currentRule :: rest =>
      if WithAddressLimit env.(qSets) currentRule && negb isAddressQuery
      then matchDNSFrom env allowFakeIP isAddressQuery (i + 1) rest c options
      else
        let c := set_FromResponse false (ResetRuleCache c) in
        let '(c, matched) := LegacyPreMatch env.(qNet) env.(qSets) currentRule c in
        if matched then
          match ruleAction currentRule with
          | RuleActionDNSRoute server ro =>
              match env.(qTransports).(tmTransports) !! server with
              | None => matchDNSFrom env allowFakeIP isAddressQuery (i + 1) rest c options
              | Some transport =>
                  if isFakeIP transport && negb allowFakeIP
                  then matchDNSFrom env allowFakeIP isAddressQuery (i + 1) rest c options
                  else (Some transport, Some currentRule, i, c, applyLegacyOptions options ro (isFakeIP transport))
              end
          | RuleActionDNSRouteOptions ro =>
              matchDNSFrom env allowFakeIP isAddressQuery (i + 1) rest c (applyLegacyOptions options ro false)
          | RuleActionReject _ _ | RuleActionPredefined _ _ _ _ => (None, Some currentRule, i, c, options)
          | _ => matchDNSFrom env allowFakeIP isAddressQuery (i + 1) rest c options
          end
        else matchDNSFrom env allowFakeIP isAddressQuery (i + 1) rest c options
  end.

Definition matchDNS (env : QueryEnv) (rules : list (DNSRule DNSAction)) (allowFakeIP : bool) (ruleIndex : Z)
    (isAddressQuery : bool) (c : InboundContext) (options : DNSQueryOptions) :=
  let start := if negb (ruleIndex =? -1) then ruleIndex + 1 else 0 in
  matchDNSFrom env allowFakeIP isAddressQuery start (drop (Z.to_nat start) rules) c options.

(** [addressLimitResponseCheck] *)
Definition addressLimitResponseCheck (env : QueryEnv) (rule : option (DNSRule DNSAction)) (c : InboundContext)
  : option (option Msg -> bool) :=
  match rule with
  | None => None
  | Some rule =>
      if negb (WithAddressLimit env.(qSets) rule) then None
      else Some (fun response => MatchAddressLimit env.(qNet) env.(qSets) rule c response)
  end.

(** The answer of a query, with the transport that gave it. *)
Inductive Reply :=
| ReplyMsg (response : Msg) (transport : option DNSTransport)
| ReplyErr (e : error)
| ReplyDirect (response : Msg)
| ReplyDrop.

(** One round of the loop: [inl] is a final reply, [inr] the state to go on with. *)
Definition legacyRound (env : QueryEnv) (rules : list (DNSRule DNSAction)) (message : Msg) (options : DNSQueryOptions)
    (ruleIndex : Z) (c : InboundContext) (s : ClientState)
  : outcome (ClientState * (Reply + (Z * InboundContext))) :=
  let '(transport, rule, ruleIndex, c, dnsOptions) := matchDNS env rules true ruleIndex (isAddressQuery message) c options in
  let exchange :=
    let check := addressLimitResponseCheck env rule c in
    let dnsOptions := orDefaultStrategy env.(qDefaultStrategy) dnsOptions in
    match transport with
    | None => Panic
    | Some transport =>
        let '(s, r) := client_Exchange s transport message dnsOptions check in
        match r with
        | Ok response => Ret (s, inl (ReplyMsg response (Some transport)))
        | Err e =>
            if isSome check && isResponseRejected e then Ret (s, inr (ruleIndex, c))
            else Ret (s, inl (ReplyErr e))
        end
    end in
  match rule with
  | None => exchange
  | Some r =>
      match ruleAction r with
      | RuleActionReject method _ =>
          if String.eqb method RuleActionRejectMethodDefault then Ret (s, inl (ReplyDirect (refusedResponse message)))
          else if String.eqb method RuleActionRejectMethodDrop then Ret (s, inl ReplyDrop)
          else exchange
      | RuleActionPredefined rcode answer ns extra =>
          match predefinedResponse rcode answer ns extra message with
          | Panic => Panic
          | Ret response => Ret (s, inl (ReplyMsg response transport))
          end
      | _ => exchange
      end
  end.

(** The loop of [Exchange] in legacy mode: [None] when the fuel runs out. *)
Fixpoint legacyLoop (fuel : nat) (env : QueryEnv) (rules : list (DNSRule DNSAction)) (message : Msg)
    (options : DNSQueryOptions) (ruleIndex : Z) (c : InboundContext) (s : ClientState)
  : option (outcome (ClientState * Reply)) :=
  match fuel with
  | O => None
  | S fuel =>
      match legacyRound env rules message options ruleIndex c s with
      | Panic => Some Panic
      | Ret (s, inl reply) => Some (Ret (s, reply))
      | Ret (s, inr (ruleIndex, c)) => legacyLoop fuel env rules message options ruleIndex c s
      end
  end.

(** ** Rules with responses *)

Inductive dnsRouteStatus := dnsRouteStatusMissing | dnsRouteStatusSkipped | dnsRouteStatusResolved.

Definition resolveDNSRoute (env : QueryEnv) (server : string) (ro : DNSRouteOptions) (allowFakeIP : bool)
    (options : DNSQueryOptions) : option DNSTransport * dnsRouteStatus * DNSQueryOptions :=
  match env.(qTransports).(tmTransports) !! server with
  | None => (None, dnsRouteStatusMissing, options)
  | Some transport =>
      if isFakeIP transport && negb allowFakeIP then (Some transport, dnsRouteStatusSkipped, options)
      else
        let options := applyDNSRouteOptions options ro in
        (Some transport, dnsRouteStatusResolved, if isFakeIP transport then set_DisableCache true options else options)
  end.

Definition dnsRespondMissingResponseMessage : string :=
  "respond action requires an evaluated response from a preceding evaluate action".

(** [exchangeWithRulesResult]; a rejecting action is named by the index of its
    rule, since the action counts its rejections. *)
Inductive RulesReply :=
| RulesMsg (response : Msg) (transport : option DNSTransport)
| RulesErr (e : error)
| RulesReject (index : Z) (method : string) (noDrop : bool) (response : option Msg).

Definition ofClient (transport : DNSTransport) (p : ClientState * result error Msg) : ClientState * RulesReply :=
  (p.1, match p.2 with Ok m => RulesMsg m (Some transport) | Err e => RulesErr e end).

Fixpoint exchangeWithRules (env : QueryEnv) (allowFakeIP : bool) (message : Msg) (i : Z)
    (rules : list (DNSRule DNSAction)) (c : InboundContext) (effectiveOptions : DNSQueryOptions) (evaluated : option (Msg * DNSTransport)) (s : ClientState)
  : outcome (ClientState * RulesReply) :=
  match rules with
  | [] =>
      let transport := env.(qTransports).(tmDefault) in
      Ret (ofClient transport (client_Exchange s transport message
             (orDefaultStrategy env.(qDefaultStrategy) effectiveOptions) None))
  | currentRule :: rest =>
      let c := set_FromResponse false (set_DNSResponse (fst <$> evaluated) (ResetRuleCache c)) in
      let '(c, matched) := dnsMatch env.(qNet) env.(qSets) currentRule c in
      if negb matched then exchangeWithRules env allowFakeIP message (i + 1) rest c effectiveOptions evaluated s
      else
        match ruleAction currentRule with
        | RuleActionDNSRouteOptions ro =>
            exchangeWithRules env allowFakeIP message (i + 1) rest c (applyDNSRouteOptions effectiveOptions ro) evaluated s
        | RuleActionEvaluate server ro =>
            match env.(qTransports).(tmTransports) !! server with
            | None => exchangeWithRules env allowFakeIP message (i + 1) rest c effectiveOptions None s
            | Some transport =>
                let queryOptions := applyDNSRouteOptions effectiveOptions ro in
                let '(s, r) := client_Exchange s transport message
                                 (orDefaultStrategy env.(qDefaultStrategy) queryOptions) None in
                match r with
                | Err _ => exchangeWithRules env allowFakeIP message (i + 1) rest c effectiveOptions None s
                | Ok response =>
                    exchangeWithRules env allowFakeIP message (i + 1) rest c effectiveOptions (Some (response, transport)) s
                end
            end
        | RuleActionRespond =>
            match evaluated with
            | None => Ret (s, RulesErr (E_New [dnsRespondMissingResponseMessage]))
            | Some (response, transport) => Ret (s, RulesMsg response (Some transport))
            end
        | RuleActionDNSRoute server ro =>
            let '(transport, status, queryOptions) := resolveDNSRoute env server ro allowFakeIP effectiveOptions in
            match status, transport with
            | dnsRouteStatusResolved, Some transport =>
                Ret (ofClient transport (client_Exchange s transport message
                       (orDefaultStrategy env.(qDefaultStrategy) queryOptions) None))
            | _, _ => exchangeWithRules env allowFakeIP message (i + 1) rest c effectiveOptions evaluated s
            end
        | RuleActionReject method noDrop =>
            if String.eqb method RuleActionRejectMethodDefault
            then Ret (s, RulesReject i method noDrop (Some (refusedResponse message)))
            else if String.eqb method RuleActionRejectMethodDrop then Ret (s, RulesReject i method noDrop None)
            else exchangeWithRules env allowFakeIP message (i + 1) rest c effectiveOptions evaluated s
        | RuleActionPredefined rcode answer ns extra =>
            match predefinedResponse rcode answer ns extra message with
            | Panic => Panic
            | Ret response => Ret (s, RulesMsg response None)
            end
        | NoDNSAction => exchangeWithRules env allowFakeIP message (i + 1) rest c effectiveOptions evaluated s
        end
  end.

(** ** The router *)

Record Router := mkRouter {
  rawRules : list (OptionTree DNSOptions DNSActionOptions);
  rtRules : list (DNSRule DNSAction);
  rtDefaultStrategy : Z;
  rtReverseMapping : bool;
  rtLegacyDNSMode : bool;
  rtStarted : bool;
  rtClosing : bool;
}.

(** The metadata a query starts with. *)
Definition queryMetadata (c : InboundContext) (question : Question) : InboundContext :=
  let c := set_FromResponse false (set_DNSResponse None (set_QueryType question.(Qtype) (set_Destination noSocksaddr c))) in
  let c := if question.(Qtype) =? TypeA then set_IPVersion 4 c
           else if question.(Qtype) =? TypeAAAA then set_IPVersion 6 c else c in
  set_Domain (FqdnToDomain question.(Qname)) c.

(** The entries a response adds to the reverse mapping: address, domain, lifetime
    in seconds. *)
Definition reverseEntries (r : Router) (transport : option DNSTransport) (response : Msg) : list (Addr * string * Z) :=
  if r.(rtReverseMapping) && negb (match transport with Some t => isFakeIP t | None => false end) then
    omap (fun record => match record.(rrData) with
                        | RD_A ip | RD_AAAA ip => Some (AddrFromIP ip, FqdnToDomain (headerName record), record.(rrHeader).(hdrTtl))
                        | _ => None
                        end) response.(Answer)
  else [].

(** Queries use the default strategy of the router. *)
Definition routerEnv (r : Router) (env : QueryEnv) : QueryEnv :=
  mkQueryEnv env.(qNet) env.(qSets) env.(qTransports) r.(rtDefaultStrategy).

Definition Exchange (r : Router) (env : QueryEnv) (fuel : nat) (message : Msg) (options : DNSQueryOptions)
    (c : InboundContext) (s : ClientState)
  : option (outcome (ClientState * result error Msg * list (Addr * string * Z))) :=
  let env := routerEnv r env in
  match message.(msgQuestion) with
  | [question] =>
      if r.(rtClosing) then Some (Ret (s, Err (E_New ["dns router closed"]), []))
      else
        let c := queryMetadata c question in
        let done (s : ClientState) (reply : Reply) :=
          match reply with
          | ReplyMsg response transport => (s, Ok response, reverseEntries r transport response)
          | ReplyErr e => (s, Err e, [])
          | ReplyDirect response => (s, Ok response, [])
          | ReplyDrop => (s, Err ErrDrop, [])
          end in
        match options.(qoTransport) with
        | Some transport =>
            let '(s, res) := client_Exchange s transport message (orDefaultStrategy r.(rtDefaultStrategy) options) None in
            Some (Ret (done s (match res with Ok m => ReplyMsg m (Some transport) | Err e => ReplyErr e end)))
        | None =>
            if negb r.(rtLegacyDNSMode) then
              Some (match exchangeWithRules env true message 0 r.(rtRules) c options None s with
                    | Panic => Panic
                    | Ret (s, RulesMsg response transport) => Ret (done s (ReplyMsg response transport))
                    | Ret (s, RulesErr e) => Ret (done s (ReplyErr e))
                    | Ret (s, RulesReject _ _ _ (Some response)) => Ret (done s (ReplyMsg response None))
                    | Ret (s, RulesReject _ _ _ None) => Ret (done s (ReplyErr ErrDrop))
                    end)
            else
              match legacyLoop fuel env r.(rtRules) message options (-1) c s with
              | None => None
              | Some Panic => Some Panic
              | Some (Ret (s, reply)) => Some (Ret (done s reply))
              end
        end
  | _ => Some (Ret (s, Ok (formatErrorResponse message), []))
  end.

(** ** Building, starting, closing *)

(** [Start] of one rule: items first (the Clash server becomes known), the
    rule-set item last; sub-rules in order. *)
Definition itemStart (clashServer : bool) (p : ItemGroup * RuleItem) : ItemGroup * RuleItem :=
  match p.2 with ClashModeItem _ mode => (p.1, ClashModeItem clashServer mode) | _ => p end.

Definition startDefault (clashServer : bool) (d : DefaultDNSRule DNSAction) (sets : gmap string RuleSet)
  : outcome (DefaultDNSRule DNSAction * gmap string RuleSet * option error) :=
  let r := d.(dnsRule) in
  let items := map (itemStart clashServer) r.(taggedItems) in
  let with_ rs := mkDefaultDNSRule (mkDefaultRule items rs r.(invert)) d.(matchResponse) d.(dnsAction) in
  match r.(ruleSetItem) with
  | None => Ret (with_ None, sets, None)
  | Some item =>
      match RuleSetItem_Start item sets with
      | Panic => Panic
      | Ret (item', sets', e) => Ret (with_ (Some item'), sets', e)
      end
  end.

Definition closeDefault (d : DefaultDNSRule DNSAction) (sets : gmap string RuleSet)
  : outcome (DefaultDNSRule DNSAction * gmap string RuleSet) :=
  let r := d.(dnsRule) in
  match r.(ruleSetItem) with
  | None => Ret (d, sets)
  | Some item =>
      match RuleSetItem_Close item sets with
      | Panic => Panic
      | Ret (item', sets') =>
          Ret (mkDefaultDNSRule (mkDefaultRule r.(taggedItems) (Some item') r.(invert)) d.(matchResponse) d.(dnsAction), sets')
      end
  end.

(** A list of rules, each started in turn until the first error. *)
Section StartAll.
Context {T St : Type} (f : T -> St -> outcome (T * St * option error)).
Fixpoint startAll (l : list T) (s : St) : outcome (list T * St * option (nat * error)) :=
  match l with
  | [] => Ret ([], s, None)
  | x :: l' =>
      match f x s with
      | Panic => Panic
      | Ret (x', s', Some e) => Ret (x' :: l', s', Some (O, e))
      | Ret (x', s', None) =>
          match startAll l' s' with
          | Panic => Panic
          | Ret (l'', s'', e) => Ret (x' :: l'', s'', match e with Some (i, e) => Some (S i, e) | None => None end)
          end
      end
  end.
End StartAll.

Section CloseAll.
Context {T St : Type} (f : T -> St -> outcome (T * St)).
Fixpoint closeAll (l : list T) (s : St) : outcome (list T * St) :=
  match l with
  | [] => Ret ([], s)
  | x :: l' =>
      match f x s with
      | Panic => Panic
      | Ret (x', s') => match closeAll l' s' with Panic => Panic | Ret (l'', s'') => Ret (x' :: l'', s'') end
      end
  end.
End CloseAll.

Fixpoint rule_Start (clashServer : bool) (t : DNSRule DNSAction) (sets : gmap string RuleSet)
  : outcome (DNSRule DNSAction * gmap string RuleSet * option error) :=
  match t with
  | DefaultLeaf d =>
      match startDefault clashServer d sets with
      | Panic => Panic
      | Ret (d', sets', e) => Ret (DefaultLeaf d', sets', e)
      end
  | LogicalNode mode inverted action rules =>
      match startAll (rule_Start clashServer) rules sets with
      | Panic => Panic
      | Ret (rules', sets', e) => Ret (LogicalNode mode inverted action rules', sets', snd <$> e)
      end
  end.

Fixpoint rule_Close (t : DNSRule DNSAction) (sets : gmap string RuleSet) : outcome (DNSRule DNSAction * gmap string RuleSet) :=
  match t with
  | DefaultLeaf d => match closeDefault d sets with Panic => Panic | Ret (d', sets') => Ret (DefaultLeaf d', sets') end
  | LogicalNode mode inverted action rules =>
      match closeAll rule_Close rules sets with
      | Panic => Panic
      | Ret (rules', sets') => Ret (LogicalNode mode inverted action rules', sets')
      end
  end.

Definition closeRules (rules : list (DNSRule DNSAction)) (sets : gmap string RuleSet) : outcome (gmap string RuleSet) :=
  match closeAll rule_Close rules sets with Panic => Panic | Ret (_, sets') => Ret sets' end.

Definition transportTypes (tm : TransportManager) : gmap string string := transportType <$> tm.(tmTransports).

(** [buildRules]: the rules, the mode and its flags; [router] as in
    [resolveLegacyDNSMode]. *)
Definition buildRules (clashServer startRules : bool) (tm : option TransportManager) (haveRouter : bool)
    (raw : list (OptionTree DNSOptions DNSActionOptions)) (sets : gmap string RuleSet)
  : outcome (gmap string RuleSet * result error (list (DNSRule DNSAction) * bool * dnsRuleModeFlags)) :=
  match firstError (fun r => validateNoNestedDNSRuleActions r false) (fun i e => E_Cause e ["parse dns rule["; itoa i; "]"]) 0 raw with
  | Some e => Ret (sets, Err e)
  | None =>
      match resolveLegacyDNSMode (if haveRouter then Some sets else None) raw ∅ with
      | Err e => Ret (sets, Err e)
      | Ok (legacy, flags) =>
          match (if negb legacy then validateLegacyDNSModeDisabledRules raw else None) with
          | Some e => Ret (sets, Err e)
          | None =>
              match validateEvaluateFakeIPRules raw (transportTypes <$> tm) with
              | Some e => Ret (sets, Err e)
              | None =>
                  match buildAll (fun o => NewDNSRule o true legacy) (fun i e => E_Cause e ["parse dns rule["; itoa i; "]"]) 0 raw with
                  | Panic => Panic
                  | Ret (Err e) => Ret (sets, Err e)
                  | Ret (Ok rules) =>
                      if negb startRules then Ret (sets, Ok (rules, legacy, flags))
                      else
                        match startAll (rule_Start clashServer) rules sets with
                        | Panic => Panic
                        | Ret (rules', sets', None) => Ret (sets', Ok (rules', legacy, flags))
                        | Ret (rules', sets', Some (i, e)) =>
                            match closeRules rules' sets' with
                            | Panic => Panic
                            | Ret sets'' => Ret (sets'', Err (E_Cause e ["initialize DNS rule["; itoa (Z.of_nat i); "]"]))
                            end
                        end
                  end
              end
          end
      end
  end.

(** [Initialize]: the rules are built once for their errors, and closed. *)
Definition Initialize (clashServer : bool) (tm : option TransportManager) (haveRouter : bool)
    (raw : list (OptionTree DNSOptions DNSActionOptions)) (r : Router) (sets : gmap string RuleSet)
  : outcome (Router * gmap string RuleSet * option error) :=
  let r := mkRouter raw r.(rtRules) r.(rtDefaultStrategy) r.(rtReverseMapping) r.(rtLegacyDNSMode) r.(rtStarted) r.(rtClosing) in
  match buildRules clashServer false tm haveRouter raw sets with
  | Panic => Panic
  | Ret (sets', Err e) => Ret (r, sets', Some e)
  | Ret (sets', Ok (rules, _, _)) =>
      match closeRules rules sets' with Panic => Panic | Ret sets'' => Ret (r, sets'', None) end
  end.

(** [Start] at the start stage. *)
Definition Router_Start (clashServer : bool) (tm : option TransportManager) (haveRouter : bool) (r : Router)
    (sets : gmap string RuleSet) : outcome (Router * gmap string RuleSet * option error) :=
  match buildRules clashServer true tm haveRouter r.(rawRules) sets with
  | Panic => Panic
  | Ret (sets', Err e) => Ret (r, sets', Some e)
  | Ret (sets', Ok (rules, legacy, _)) =>
      if r.(rtClosing) then
        match closeRules rules sets' with Panic => Panic | Ret sets'' => Ret (r, sets'', None) end
      else Ret (mkRouter r.(rawRules) rules r.(rtDefaultStrategy) r.(rtReverseMapping) legacy true false, sets', None)
  end.

Definition Router_Close (r : Router) (sets : gmap string RuleSet) : outcome (Router * gmap string RuleSet) :=
  if r.(rtClosing) then Ret (r, sets)
  else
    match closeRules r.(rtRules) sets with
    | Panic => Panic
    | Ret sets' =>
        Ret (mkRouter r.(rawRules) [] r.(rtDefaultStrategy) r.(rtReverseMapping) r.(rtLegacyDNSMode) r.(rtStarted) true, sets')
    end.

(** [ValidateRuleSetMetadataUpdate] *)
Definition ValidateRuleSetMetadataUpdate (r : Router) (router : option (gmap string RuleSet)) (tag : string)
    (metadata : RuleSetMetadata) : option error :=
  if negb (nonempty r.(rawRules)) then None
  else
    match router with
    | None => Some (E_New ["router service not found"])
    | Some _ =>
        if r.(rtClosing) then None
        else
          match resolveLegacyDNSMode router r.(rawRules) {[ tag := metadata ]} with
          | Err e => Some e
          | Ok (candidate, flags) =>
              if negb r.(rtStarted) then
                if negb candidate then validateLegacyDNSModeDisabledRules r.(rawRules) else None
              else if r.(rtLegacyDNSMode) then
                if negb candidate && flags.(disabled) then
                  match validateLegacyDNSModeDisabledRules r.(rawRules) with
                  | Some e => Some e
                  | None => Some (E_New [MessageWithLink OptionLegacyDNSAddressFilter])
                  end
                else None
              else if candidate then Some (E_New [MessageWithLink OptionLegacyDNSAddressFilter])
              else None
          end
    end.

End Router.
