(* ===== verification/DNSLookup.v ===== *)
(** * Lookups of the DNS router

    [Lookup], [lookupWithRules] and [lookupWithRulesType] of [src/dns/router.go],
    and [Error] of the reject action ([src/route/rule/rule_action.go]), which
    counts the rejections of the last thirty seconds and drops floods.

    The two queries of a lookup for both families run concurrently in the
    source; here one follows the other, in the order an argument gives.  The
    counters belong to the actions, which are named by the index of their
    top-level rule. *)

From S2P Require Import Prelude GoStrings GoTime RuleState RuleItems RuleMatch RuleBuild DNSRules DNSRouter.

Local Open Scope string_scope.
Local Open Scope list_scope.
Local Open Scope Z_scope.

(** The rest of [adapter.DNSClient], the error values a lookup returns, and the
    error of [task.Group.Run] from those of its two tasks. *)
Class LookupEnv `{DE : DNSEnv} := {
  client_Lookup : ClientState -> DNSTransport -> string -> DNSQueryOptions -> option (option Msg -> bool) ->
    ClientState * (list Addr * option error);
  RejectedError : option error -> error;
  RcodeError : Z -> error;
  ErrReset : error;
  groupError : option error -> option error -> option error;
  Fqdn : string -> string;
}.

Section Lookup.
Context `{LE : LookupEnv}.

(** ** The reject action *)

Definition floodWindow : Z := 30 * second.

(** [RuleActionReject.Error]: [now] is the clock, [dropCounter] the times of the
    rejections that may still count. *)
Definition reject_Error (method : string) (noDrop : bool) (now : Z) (dropCounter : list Z)
  : outcome (list Z * option error) :=
  if String.eqb method RuleActionRejectMethodDefault then
    if noDrop then Ret (dropCounter, Some (RejectedError (Some ErrReset)))
    else
      let dropCounter := List.filter (fun t => Sub now t <=? floodWindow) dropCounter ++ [now] in
      if (50 <? length dropCounter)%nat then Ret (dropCounter, Some (RejectedError (Some ErrDrop)))
      else Ret (dropCounter, Some (RejectedError (Some ErrReset)))
  else if String.eqb method RuleActionRejectMethodDrop then Ret (dropCounter, Some (RejectedError (Some ErrDrop)))
  else if String.eqb method RuleActionRejectMethodReply then Ret (dropCounter, None)
  else Panic.

(** The client and the counters of the rejecting rules. *)
Record LookupState := mkLookupState { lsClient : ClientState; lsDrops : gmap Z (list Z) }.

Definition rejectRule (i : Z) (method : string) (noDrop : bool) (now : Z) (drops : gmap Z (list Z))
  : outcome (gmap Z (list Z) * option error) :=
  match reject_Error method noDrop now (default [] (drops !! i)) with
  | Panic => Panic
  | Ret (counter, e) => Ret (<[ i := counter ]> drops, e)
  end.

(** ** Lookups through rules with responses *)

(** [withLookupQueryMetadata] *)
Definition lookupMetadata (c : InboundContext) (qType : Z) : InboundContext :=
  let c := set_IPVersion 0 (set_QueryType qType c) in
  if qType =? TypeA then set_IPVersion 4 c else if qType =? TypeAAAA then set_IPVersion 6 c else c.

Definition lookupWithRulesType (env : QueryEnv) (rules : list (DNSRule DNSAction)) (now : Z) (domain : string)
    (qType : Z) (options : DNSQueryOptions) (c : InboundContext) (s : LookupState)
  : outcome (LookupState * (list Addr * option error)) :=
  let request := mkMsg 0 false false true false 0 [mkQuestion (Fqdn domain) qType ClassINET] [] [] [] in
  match exchangeWithRules env false request 0 rules (lookupMetadata c qType) options None s.(lsClient) with
  | Panic => Panic
  | Ret (client, RulesReject i method noDrop _) =>
      match rejectRule i method noDrop now s.(lsDrops) with
      | Panic => Panic
      | Ret (drops, e) => Ret (mkLookupState client drops, ([], e))
      end
  | Ret (client, RulesErr e) => Ret (mkLookupState client s.(lsDrops), ([], Some e))
  | Ret (client, RulesMsg response _) =>
      Ret (mkLookupState client s.(lsDrops),
           if negb (response.(Rcode) =? RcodeSuccess) then ([], Some (RcodeError response.(Rcode)))
           else (filterAddressesByQueryType (DNSResponseAddresses (Some response)) qType, None))
  end.

(** [sixFirst]: the query for IPv6 addresses runs before the other one; [now4]
    and [now6] are their clocks. *)
Definition lookupWithRules (env : QueryEnv) (rules : list (DNSRule DNSAction)) (sixFirst : bool) (now4 now6 : Z)
    (domain : string) (options : DNSQueryOptions) (c : InboundContext) (s : LookupState)
  : outcome (LookupState * (list Addr * option error)) :=
  let strategy := resolveLookupStrategy env.(qDefaultStrategy) options in
  let lookupOptions := if negb (strategy =? DomainStrategyAsIS) then set_Strategy strategy options else options in
  let exchange4 s := lookupWithRulesType env rules now4 domain TypeA lookupOptions c s in
  let exchange6 s := lookupWithRulesType env rules now6 domain TypeAAAA lookupOptions c s in
  if strategy =? DomainStrategyIPv4Only then exchange4 s
  else if strategy =? DomainStrategyIPv6Only then exchange6 s
  else
    match (if sixFirst then exchange6 s else exchange4 s) with
    | Panic => Panic
    | Ret (s, first) =>
        match (if sixFirst then exchange4 s else exchange6 s) with
        | Panic => Panic
        | Ret (s, second) =>
            let '(response4, e4) := if sixFirst then second else first in
            let '(response6, e6) := if sixFirst then first else second in
            Ret (s, if nonempty response4 || nonempty response6
                    then (sortAddresses response4 response6 strategy, None)
                    else ([], groupError e4 e6))
        end
    end.

(** ** Lookups in legacy mode *)

(** The addresses of a predefined answer: only A and AAAA records, not filtered. *)
Definition predefinedAddresses (answer : list RR) : list Addr :=
  omap (fun record => match record.(rrData) with
                      | RD_A ip | RD_AAAA ip => Some (AddrFromIP ip)
                      | _ => None
                      end) answer.

(** One round: a rejection ends the lookup at once ([inl (inl ..)]); other
    results go through [printResult] ([inl (inr ..)]); [inr] goes on. *)
Definition legacyLookupRound (env : QueryEnv) (rules : list (DNSRule DNSAction)) (now : Z) (domain : string)
    (options : DNSQueryOptions) (ruleIndex : Z) (c : InboundContext) (s : LookupState)
  : outcome (LookupState * ((error + (list Addr * option error)) + (Z * InboundContext))) :=
  let '(transport, rule, ruleIndex, c, dnsOptions) := matchDNS env rules false ruleIndex true c options in
  let lookup :=
    let check := addressLimitResponseCheck env rule c in
    let dnsOptions := orDefaultStrategy env.(qDefaultStrategy) dnsOptions in
    match transport with
    | None => Panic
    | Some transport =>
        let '(client, (addresses, e)) := client_Lookup s.(lsClient) transport domain dnsOptions check in
        let s := mkLookupState client s.(lsDrops) in
        if negb (isSome check) || negb (isSome e) then Ret (s, inl (inr (addresses, e)))
        else Ret (s, inr (ruleIndex, c))
    end in
  match rule with
  | None => lookup
  | Some r =>
      match ruleAction r with
      | RuleActionReject method noDrop =>
          match rejectRule ruleIndex method noDrop now s.(lsDrops) with
          | Panic => Panic
          | Ret (drops, e) => Ret (mkLookupState s.(lsClient) drops, inl (inl (RejectedError e)))
          end
      | RuleActionPredefined rcode answer _ _ =>
          Ret (s, inl (inr (if negb (rcode =? RcodeSuccess) then ([], Some (RcodeError rcode))
                            else (predefinedAddresses answer, None))))
      | _ => lookup
      end
  end.

(** [None] when the fuel runs out; the clock of a round is that of its number. *)
Fixpoint legacyLookupLoop (fuel : nat) (env : QueryEnv) (rules : list (DNSRule DNSAction)) (clock : nat -> Z)
    (domain : string) (options : DNSQueryOptions) (ruleIndex : Z) (c : InboundContext) (s : LookupState)
  : option (outcome (LookupState * (error + (list Addr * option error)))) :=
  match fuel with
  | O => None
  | S fuel =>
      match legacyLookupRound env rules (clock fuel) domain options ruleIndex c s with
      | Panic => Some Panic
      | Ret (s, inl result) => Some (Ret (s, result))
      | Ret (s, inr (ruleIndex, c)) => legacyLookupLoop fuel env rules clock domain options ruleIndex c s
      end
  end.

(** ** [Lookup] *)

(** [printResult]: an empty result without error is an error, and errors name the
    domain. *)
Definition printResult (domain : string) (result : list Addr * option error) : list Addr * option error :=
  let '(addresses, e) := result in
  let e := if negb (isSome e) && negb (nonempty addresses) then Some (E_New ["empty result"]) else e in
  (addresses, (fun e => E_Cause e ["lookup "; domain]) <$> e).

(** The metadata a lookup starts with. *)
Definition domainMetadata (c : InboundContext) (domain : string) : InboundContext :=
  set_FromResponse false (set_DNSResponse None (set_Domain (FqdnToDomain domain) (set_Destination noSocksaddr c))).

Definition Lookup (r : Router) (env : QueryEnv) (fuel : nat) (clock : nat -> Z) (sixFirst : bool) (domain : string)
    (options : DNSQueryOptions) (c : InboundContext) (s : LookupState)
  : option (outcome (LookupState * (list Addr * option error))) :=
  let env := routerEnv r env in
  if r.(rtClosing) then Some (Ret (s, ([], Some (E_New ["dns router closed"]))))
  else
    let c := domainMetadata c domain in
    match options.(qoTransport) with
    | Some transport =>
        let '(client, result) := client_Lookup s.(lsClient) transport domain
                                   (orDefaultStrategy r.(rtDefaultStrategy) options) None in
        Some (Ret (mkLookupState client s.(lsDrops), printResult domain result))
    | None =>
        if negb r.(rtLegacyDNSMode) then
          Some (match lookupWithRules env r.(rtRules) sixFirst (clock O) (clock 1%nat) domain options c s with
                | Panic => Panic
                | Ret (s, result) => Ret (s, printResult domain result)
                end)
        else
          match legacyLookupLoop fuel env r.(rtRules) clock domain options (-1) c s with
          | None => None
          | Some Panic => Some Panic
          | Some (Ret (s, inl e)) => Some (Ret (s, ([], Some e)))
          | Some (Ret (s, inr result)) => Some (Ret (s, printResult domain result))
          end
    end.

End Lookup.
