(* ===== verification/DNSRouterProps.v ===== *)
(** * Theorems on the DNS router

    The retry loop of legacy mode ends, the choice between legacy and
    response-based mode is consistent with the rules and stays so when rule-sets
    are reloaded, and starting and closing the router balances the references
    to rule-sets. *)

From S2P Require Import Prelude GoStrings RuleState RuleItems RuleMatch RuleBuild RuleBuildProps RuleTheorems DNSRules DNSRouter.

Local Open Scope string_scope.
Local Open Scope list_scope.
Local Open Scope Z_scope.

(** ** The legacy loop *)

Section Legacy.
Context `{DE : DNSEnv}.

(** The rule [matchDNSFrom] selects is at the index it returns. *)
Lemma matchDNSFrom_index env allowFakeIP aq rules : forall i c options t rule j c' o',
  matchDNSFrom env allowFakeIP aq i rules c options = (t, rule, j, c', o') ->
  match rule with
  | None => j = -1 /\ t = Some env.(qTransports).(tmDefault)
  | Some r => i <= j < i + Z.of_nat (length rules) /\ rules !! Z.to_nat (j - i) = Some r /\
      (t = None -> exists m d, ruleAction r = RuleActionReject m d \/ exists rc a n e, ruleAction r = RuleActionPredefined rc a n e)
  end.
Proof.
  induction rules as [|r0 rules IH]; intros i c options t rule j c' o' H; cbn [matchDNSFrom] in H.
  { by simplify_eq. }
  assert (Hrec : forall c options, matchDNSFrom env allowFakeIP aq (i + 1) rules c options = (t, rule, j, c', o') ->
    match rule with
    | None => j = -1 /\ t = Some env.(qTransports).(tmDefault)
    | Some r => i <= j < i + Z.of_nat (length (r0 :: rules)) /\ (r0 :: rules) !! Z.to_nat (j - i) = Some r /\
      (t = None -> exists m d, ruleAction r = RuleActionReject m d \/ exists rc a n e, ruleAction r = RuleActionPredefined rc a n e)
    end).
  { intros c1 o1 H1. apply IH in H1. destruct rule as [r|]; [|done]. destruct H1 as (H1 & H2 & H3).
    cbn [length]. split; [lia|]. split; [|done].
    replace (Z.to_nat (j - i)) with (S (Z.to_nat (j - (i + 1)))) by lia. exact H2. }
  assert (Hhere : forall t1 c1 o1, (t1, Some r0, i, c1, o1) = (t, rule, j, c', o') ->
    (t1 = None -> exists m d, ruleAction r0 = RuleActionReject m d \/ exists rc a n e, ruleAction r0 = RuleActionPredefined rc a n e) ->
    match rule with
    | None => j = -1 /\ t = Some env.(qTransports).(tmDefault)
    | Some r => i <= j < i + Z.of_nat (length (r0 :: rules)) /\ (r0 :: rules) !! Z.to_nat (j - i) = Some r /\
      (t = None -> exists m d, ruleAction r = RuleActionReject m d \/ exists rc a n e, ruleAction r = RuleActionPredefined rc a n e)
    end).
  { intros t1 c1 o1 E Ht. simplify_eq. cbn [length]. rewrite Z.sub_diag. split; [lia|]. done. }
  destruct (_ && _); [by eapply Hrec|].
  destruct (LegacyPreMatch _ _ _ _) as [c1 [|]]; [|by eapply Hrec].
  destruct (ruleAction r0) eqn:Ea; try (by eapply Hrec).
  - destruct (_ !! server); [|by eapply Hrec]. destruct (_ && _); [by eapply Hrec|]. by eapply Hhere.
  - eapply Hhere; [exact H|]. intros _. eauto.
  - eapply Hhere; [exact H|]. intros _. exists "", false. right. eauto 10.
Qed.

(** The rule [matchDNS] selects lies behind the one it continues from. *)
Lemma matchDNS_forward env rules allowFakeIP aq i c options t r j c' o' : -1 <= i ->
  matchDNS env rules allowFakeIP i aq c options = (t, Some r, j, c', o') -> i < j < Z.of_nat (length rules).
Proof.
  intros Hi H. unfold matchDNS in H. set (start := if negb (i =? -1) then i + 1 else 0) in *.
  assert (Hs : i < start /\ 0 <= start) by (unfold start; destruct (Z.eqb_spec i (-1)); cbn; lia).
  apply matchDNSFrom_index in H as (H & _). rewrite length_drop in H. lia.
Qed.

(** A round that goes on moves strictly forward in the list of rules. *)
Lemma legacyRound_progress env rules message options i c s s' i' c' :
  -1 <= i -> legacyRound env rules message options i c s = Ret (s', inr (i', c')) ->
  i < i' < Z.of_nat (length rules).
Proof.
  intros Hi H. unfold legacyRound in H.
  destruct (matchDNS _ _ _ _ _ _ _) as [[[[t rule] j] c1] o1] eqn:E.
  assert (Hx : forall x, match t with
      | None => Panic
      | Some transport =>
          let '(s, r) := client_Exchange s transport message (orDefaultStrategy env.(qDefaultStrategy) o1)
                           (addressLimitResponseCheck env rule c1) in
          match r with
          | Ok response => Ret (s, inl (ReplyMsg response (Some transport)))
          | Err e => if isSome (addressLimitResponseCheck env rule c1) && isResponseRejected e then Ret (s, inr (j, c1))
                     else Ret (s, inl (ReplyErr e))
          end
      end = Ret (s', inr x) -> x = (j, c1) /\ rule <> None).
  { intros x Hx. destruct t; [|done]. destruct (client_Exchange _ _ _ _ _) as [s1 [m|e]]; [done|].
    destruct (isSome _ && _) eqn:Ec; [|done]. simplify_eq. split; [done|]. intros ->. done. }
  assert (Hj : (j, c1) = (i', c') -> rule <> None -> i < i' < Z.of_nat (length rules)).
  { intros Hp Hr. simplify_eq. destruct rule as [r|]; [|done]. by eapply matchDNS_forward. }
  destruct rule as [r|].
  - destruct (ruleAction r); try (destruct (Hx _ H) as [Hp Hr]; by apply Hj).
    + repeat case_hyp H. destruct (Hx _ H) as [Hp Hr]. by apply Hj.
    + repeat case_hyp H.
  - destruct (Hx _ H) as [Hp Hr]. by apply Hj.
Qed.

Lemma legacyLoop_ends env rules message options : forall fuel i c s, -1 <= i ->
  Z.of_nat (length rules) - i <= Z.of_nat fuel -> (0 < fuel)%nat ->
  is_Some (legacyLoop fuel env rules message options i c s).
Proof.
  induction fuel as [|fuel IH]; intros i c s Hi Hf Hp; [lia|]. cbn [legacyLoop].
  destruct (legacyRound _ _ _ _ _ _ _) as [[s' [reply|[i' c']]]|] eqn:E; [by eexists..| |by eexists].
  apply legacyRound_progress in E; [|done]. apply IH; lia.
Qed.

(** A query always ends: in legacy mode every round after a rejected
    response continues behind the rule that was tried, so one more round than
    there are rules is enough; the other modes do not loop. *)
Theorem exchange_ends r env fuel message options c s : (length r.(rtRules) < fuel)%nat ->
  is_Some (Exchange r env fuel message options c s).
Proof.
  intros Hf. unfold Exchange. destruct (msgQuestion message) as [|q [|q' l]]; [by eexists| |by eexists].
  destruct (rtClosing r); [by eexists|]. destruct (qoTransport options).
  { destruct (client_Exchange _ _ _ _ _). by eexists. }
  destruct (negb _); [by eexists|].
  destruct (legacyLoop_ends (routerEnv r env) (rtRules r) message options fuel (-1) (queryMetadata c q) s) as [o Ho]; [lia..|].
  rewrite Ho. destruct o as [[s' reply]|]; by eexists.
Qed.

End Legacy.

(** ** Legacy mode or not *)

Section Mode.
Context `{RE : RuleEnv}.

(** Some rule of the tree sets a strategy in its action. *)
Fixpoint treeHasStrategy (t : OptionTree DNSOptions DNSActionOptions) : bool :=
  match t with
  | OptionRule ty d _ rules _ action =>
      if isDefaultType ty then dnsRuleActionHasStrategy d.(do_Action)
      else if String.eqb ty RuleTypeLogical then dnsRuleActionHasStrategy action || existsb treeHasStrategy rules
      else false
  end.

(** The flags record every strategy, and a strategy needs legacy mode. *)
Definition flagsCover (strategy : bool) (f : dnsRuleModeFlags) : Prop :=
  (strategy = true -> f.(neededFromStrategy) = true) /\ (f.(neededFromStrategy) = true -> f.(needed) = true).

Lemma mergeRuleFlags_cover {T} (f : T -> result error dnsRuleModeFlags) (has : T -> bool) wrap l :
  Forall (fun x => forall g, f x = Ok g -> flagsCover (has x) g) l -> forall i acc res b,
  flagsCover b acc -> mergeRuleFlags f wrap i l acc = Ok res -> flagsCover (b || existsb has l) res.
Proof.
  induction 1 as [|x l Hx Hl IH]; intros i acc res b Hacc H; cbn in H.
  - simplify_eq. by rewrite orb_false_r.
  - destruct (f x) as [g|] eqn:E; [|done]. cbn [existsb]. rewrite orb_assoc. eapply IH; [|exact H].
    destruct (Hx g eq_refl) as [H1 H2], Hacc as [H3 H4]. split; cbn.
    + rewrite !orb_true_iff. tauto.
    + rewrite !orb_true_iff. tauto.
Qed.

Lemma flagsOfSets_cover matchSource router overrides tags : forall f res b, flagsCover b f ->
  flagsOfSets matchSource router overrides tags f = Ok res -> flagsCover b res.
Proof.
  induction tags as [|tag tags IH]; intros f res b Hf H; cbn in H; [by simplify_eq|].
  destruct (lookupDNSRuleSetMetadata _ _ _) as [m|]; [|done]. eapply IH, H. destruct Hf as [H1 H2].
  split; cbn; [done|]. intros. destruct (_ && _); [done|auto].
Qed.

Lemma requirements_cover router overrides t : forall g,
  dnsRuleModeRequirementsInRule router overrides t = Ok g -> flagsCover (treeHasStrategy t) g.
Proof.
  induction t as [ty d mode rules inverted action IH] using OptionTree_rect'. intros g H. cbn in H |- *.
  destruct (isDefaultType ty).
  - unfold dnsRuleModeRequirementsInDefaultRule in H.
    assert (Hb : flagsCover (dnsRuleActionHasStrategy (do_Action d))
      (mkModeFlags (defaultRuleDisablesLegacyDNSMode d)
         (defaultRuleNeedsLegacyDNSModeFromAddressFilter d || dnsRuleActionHasStrategy (do_Action d))
         (dnsRuleActionHasStrategy (do_Action d)))).
    { split; cbn; [done|]. intros ->. apply orb_true_r. }
    destruct (negb _); [by simplify_eq|]. destruct router; [|done]. by eapply flagsOfSets_cover.
  - destruct (String.eqb ty RuleTypeLogical); [|simplify_eq; split; cbn; done].
    eapply mergeRuleFlags_cover; [exact IH| |exact H]. split; cbn; done.
Qed.

Lemma all_requirements_cover router overrides rules g :
  dnsRuleModeRequirements router rules overrides = Ok g -> flagsCover (existsb treeHasStrategy rules) g.
Proof.
  intros H. unfold dnsRuleModeRequirements in H.
  eapply (mergeRuleFlags_cover _ treeHasStrategy) with (b := false) in H; [exact H| |by split].
  apply Forall_forall. intros t _ g'. apply requirements_cover.
Qed.

(** When the rules are accepted without legacy mode, no action of any rule,
    nested ones included, sets a strategy: leaving the strategy alone when the
    options of an action are applied to a query loses nothing. *)
Theorem no_strategy_without_legacy_mode router rules overrides flags :
  resolveLegacyDNSMode router rules overrides = Ok (false, flags) -> existsb treeHasStrategy rules = false.
Proof.
  unfold resolveLegacyDNSMode. destruct (dnsRuleModeRequirements _ _ _) as [g|] eqn:E; [|done].
  destruct (all_requirements_cover _ _ _ _ E) as [H1 H2]. intros H.
  destruct (existsb treeHasStrategy rules); [|done]. specialize (H1 eq_refl). specialize (H2 H1).
  rewrite H1, andb_true_r in H. destruct (disabled g); [done|]. congruence.
Qed.

(** ** Rules on responses *)

(** The tree looks at a response or answers with one. *)
Fixpoint usesResponse (t : OptionTree DNSOptions DNSActionOptions) : bool :=
  match t with
  | OptionRule ty d _ rules _ action =>
      if isDefaultType ty then
        d.(do_MatchResponse) || hasResponseMatchFields d || nonempty d.(do_IPCIDR) || d.(do_IPIsPrivate) ||
        String.eqb d.(do_Action).(aoAction) RuleActionTypeRespond
      else if String.eqb ty RuleTypeLogical then
        String.eqb (dnsRuleActionType t) RuleActionTypeRespond || existsb usesResponse rules
      else false
  end.

Lemma anyRequires_spec {T} (f : T -> result error bool) wrap (u : T -> bool) l :
  Forall (fun x => forall b, f x = Ok b -> u x = true -> b = true) l -> forall i acc res,
  anyRequires f wrap i l acc = Ok res -> acc || existsb u l = true -> res = true.
Proof.
  induction 1 as [|x l Hx Hl IH]; intros i acc res H Hu; cbn in H, Hu.
  - simplify_eq. by rewrite orb_false_r in Hu.
  - destruct (f x) as [b|] eqn:E; [|done]. eapply IH; [exact H|].
    specialize (Hx b eq_refl). destruct acc, (u x); cbn in *; [done|done|by rewrite Hx|]. rewrite Hu. apply orb_true_r.
Qed.

Lemma ruleTree_requires t : forall b, validateLegacyDNSModeDisabledRuleTree t = Ok b -> usesResponse t = true -> b = true.
Proof.
  induction t as [ty d mode rules inverted action IH] using OptionTree_rect'. intros b H Hu. cbn in H, Hu.
  destruct (isDefaultType ty).
  - unfold validateLegacyDNSModeDisabledDefaultRule in H.
    destruct (_ && negb (do_MatchResponse d)) eqn:E; [done|]. destruct (do_IPAcceptAny d); [done|].
    destruct (do_RuleSetIPCIDRAcceptEmpty d); [done|]. simplify_eq.
    destruct (do_MatchResponse d); [done|]. cbn in *. rewrite andb_true_r in E.
    apply orb_false_iff in E as [E E3]. apply orb_false_iff in E as [E1 E2]. rewrite E1, E2, E3 in Hu. exact Hu.
  - destruct (String.eqb ty RuleTypeLogical); [|done]. by eapply anyRequires_spec.
Qed.

Lemma validateDisabled_spec rules : forall i seen, validateDisabledFrom i seen rules = None ->
  forall k t, rules !! k = Some t -> usesResponse t = true ->
  seen = true \/ exists j u, (j < k)%nat /\ rules !! j = Some u /\ dnsRuleActionType u = RuleActionTypeEvaluate.
Proof.
  induction rules as [|r rules IH]; intros i seen H k t Hk Hu; [done|]. cbn in H.
  destruct (validateLegacyDNSModeDisabledRuleTree r) as [b|] eqn:E; [|done].
  destruct (b && negb seen) eqn:Eb; [done|]. destruct k as [|k].
  - injection Hk as ->. left. rewrite (ruleTree_requires t b E Hu) in Eb. by destruct seen.
  - destruct (IH _ _ H k t Hk Hu) as [Hs|(j & u & Hj & Hju & Hact)].
    + destruct (String.eqb_spec (dnsRuleActionType r) RuleActionTypeEvaluate); [|by left].
      right. exists O, r. split; [lia|done].
    + right. exists (S j), u. split; [lia|done].
Qed.

(** Without legacy mode, a rule that matches responses, limits addresses or
    answers with a response is accepted only behind a rule that evaluates one. *)
Theorem response_rules_follow_evaluate rules : validateLegacyDNSModeDisabledRules rules = None ->
  forall k t, rules !! k = Some t -> usesResponse t = true ->
  exists j u, (j < k)%nat /\ rules !! j = Some u /\ dnsRuleActionType u = RuleActionTypeEvaluate.
Proof.
  intros H k t Hk Hu. by destruct (validateDisabled_spec rules 0 false H k t Hk Hu) as [?|?].
Qed.

(** ** Reloads under a running router *)

(** Replacing the metadata of one rule-set is what an override stands for. *)
Lemma lookupMetadata_update sets tag s m t : sets !! tag = Some s ->
  lookupDNSRuleSetMetadata (<[ tag := mkRuleSet s.(rules) m s.(refs) ]> sets) t ∅ =
  lookupDNSRuleSetMetadata sets t {[ tag := m ]}.
Proof.
  intros Hs. unfold lookupDNSRuleSetMetadata. rewrite lookup_empty. destruct (decide (t = tag)) as [->|Hne].
  - by rewrite lookup_insert_eq, lookup_singleton_eq.
  - by rewrite lookup_insert_ne, lookup_singleton_ne by congruence.
Qed.

Lemma flagsOfSets_ext matchSource r1 r2 o1 o2 tags : (forall t, lookupDNSRuleSetMetadata r1 t o1 = lookupDNSRuleSetMetadata r2 t o2) ->
  forall f, flagsOfSets matchSource r1 o1 tags f = flagsOfSets matchSource r2 o2 tags f.
Proof. intros H. induction tags as [|t tags IH]; intros f; cbn; [done|]. rewrite H. by case_goal. Qed.

Lemma mergeRuleFlags_ext {T} (f g : T -> result error dnsRuleModeFlags) wrap l :
  Forall (fun x => f x = g x) l -> forall i acc, mergeRuleFlags f wrap i l acc = mergeRuleFlags g wrap i l acc.
Proof. induction 1 as [|x l Hx Hl IH]; intros i acc; cbn; [done|]. rewrite Hx. by destruct (g x). Qed.

Lemma requirements_ext r1 r2 o1 o2 t : (forall t, lookupDNSRuleSetMetadata r1 t o1 = lookupDNSRuleSetMetadata r2 t o2) ->
  dnsRuleModeRequirementsInRule (Some r1) o1 t = dnsRuleModeRequirementsInRule (Some r2) o2 t.
Proof.
  intros H. induction t as [ty d mode rules inverted action IH] using OptionTree_rect'. cbn.
  destruct (isDefaultType ty).
  - unfold dnsRuleModeRequirementsInDefaultRule. destruct (negb _); [done|]. by apply flagsOfSets_ext.
  - destruct (String.eqb ty RuleTypeLogical); [|done]. by apply mergeRuleFlags_ext.
Qed.

Lemma resolve_ext r1 r2 o1 o2 rules : (forall t, lookupDNSRuleSetMetadata r1 t o1 = lookupDNSRuleSetMetadata r2 t o2) ->
  resolveLegacyDNSMode (Some r1) rules o1 = resolveLegacyDNSMode (Some r2) rules o2.
Proof.
  intros H. unfold resolveLegacyDNSMode, dnsRuleModeRequirements.
  rewrite (mergeRuleFlags_ext (dnsRuleModeRequirementsInRule (Some r1) o1) (dnsRuleModeRequirementsInRule (Some r2) o2));
    [done|]. apply Forall_forall. intros t _. by apply requirements_ext.
Qed.

(** The router runs without legacy mode and the rule-sets agree. *)
Definition runsWithoutLegacy (r : Router) (sets : gmap string RuleSet) : Prop :=
  r.(rtStarted) = true /\ r.(rtClosing) = false /\ r.(rtLegacyDNSMode) = false /\ r.(rawRules) <> [] /\
  exists flags, resolveLegacyDNSMode (Some sets) r.(rawRules) ∅ = Ok (false, flags).

(** C29: while the router runs without legacy mode, a reload of a rule-set that
    its validator accepts leaves the rules resolvable without legacy mode, with
    the new rule-set in place; a rejected reload changes nothing. *)
Theorem reload_keeps_response_mode r sets nm tag s l s' e :
  runsWithoutLegacy r sets -> sets !! tag = Some s ->
  reloadRules nm (Some (ValidateRuleSetMetadataUpdate r (Some sets))) tag l s = Ret (s', e) ->
  runsWithoutLegacy r (<[ tag := s' ]> sets).
Proof.
  intros (H1 & H2 & H3 & H4 & flags & H5) Hs Hr. pose proof (reloadRules_cases _ _ _ _ _ _ _ Hr) as Hc.
  split; [done|]. split; [done|]. split; [done|]. split; [done|]. destruct e as [e|].
  - subst s'. rewrite insert_id by done. eauto.
  - destruct Hc as (Hm & Hrefs & _ & Hv). unfold ValidateRuleSetMetadataUpdate in Hv.
    destruct (rawRules r) as [|r0 raw] eqn:Eraw; [done|]. cbn [nonempty negb] in Hv. rewrite H1, H2, H3 in Hv. cbn [negb] in Hv.
    destruct (resolveLegacyDNSMode (Some sets) (r0 :: raw) {[tag := buildRuleSetMetadata l]}) as [[[|] g]|] eqn:E; [done| |done].
    exists g. rewrite <- E. apply resolve_ext. intros t.
    rewrite <- (lookupMetadata_update sets tag s) by done. unfold lookupDNSRuleSetMetadata. rewrite lookup_empty.
    destruct (decide (t = tag)) as [->|Hne]; [rewrite !lookup_insert_eq|by rewrite !lookup_insert_ne by congruence].
    cbn. by rewrite Hm.
Qed.

End Mode.
