(* ===== verification/DNSRouterRefs.v ===== *)
(** * References of the DNS router to rule-sets

    Starting the router takes one reference per rule-set tag of its rules; a
    start that fails, and closing, give all of them back. *)

From S2P Require Import Prelude GoStrings RuleState RuleItems RuleMatch RuleBuild RuleBuildProps RuleTheorems DNSRules DNSRouter.

Local Open Scope string_scope.
Local Open Scope list_scope.
Local Open Scope Z_scope.

Section Refs.
Context `{DE : DNSEnv}.

(** The tags a tree refers to, and those it holds references of. *)
Definition itemTags (d : DefaultDNSRule DNSAction) : list string :=
  match d.(dnsRule).(ruleSetItem) with Some item => item.(tagList) | None => [] end.
Definition itemHeld (d : DefaultDNSRule DNSAction) : list string :=
  match d.(dnsRule).(ruleSetItem) with Some item => item.(setList) | None => [] end.

Fixpoint treeTags (t : DNSRule DNSAction) : list string :=
  match t with DefaultLeaf d => itemTags d | LogicalNode _ _ _ rules => List.concat (map treeTags rules) end.
Fixpoint treeHeld (t : DNSRule DNSAction) : list string :=
  match t with DefaultLeaf d => itemHeld d | LogicalNode _ _ _ rules => List.concat (map treeHeld rules) end.

Definition listTags (l : list (DNSRule DNSAction)) : list string := List.concat (map treeTags l).
Definition listHeld (l : list (DNSRule DNSAction)) : list string := List.concat (map treeHeld l).

(** ** Stores that differ by references *)

Lemma shifted_trans f g s0 s1 s2 : shifted f s0 s1 -> shifted g s1 s2 -> shifted (fun t => f t + g t) s0 s2.
Proof.
  intros H1 H2 t. rewrite H2, H1. destruct (s0 !! t) as [s|]; cbn; [|done]. unfold shift. cbn. do 2 f_equal. lia.
Qed.

Lemma shifted_refl s0 : shifted (fun t => occ t []) s0 s0.
Proof. intros t. change (occ t []) with 0. destruct (s0 !! t); cbn; [|done]. by rewrite shift_0. Qed.

Lemma shifted_occ_app l1 l2 s0 s1 s2 :
  shifted (fun t => occ t l1) s0 s1 -> shifted (fun t => occ t l2) s1 s2 -> shifted (fun t => occ t (l1 ++ l2)) s0 s2.
Proof.
  intros H1 H2. eapply shifted_ext; [|exact (shifted_trans _ _ _ _ _ H1 H2)]. intros t. cbv beta. by rewrite occ_app.
Qed.

Lemma refsOk_weaken a b s0 : b <= a -> refsOk a s0 -> refsOk b s0.
Proof. intros Hle H t s E. destruct (H t s E). lia. Qed.

(** Room that is left after some references are taken. *)
Lemma refsOk_shifted k m l s0 s1 : shifted (fun t => occ t l) s0 s1 -> Z.of_nat (length l) <= k -> refsOk (k + m) s0 -> refsOk m s1.
Proof.
  intros Hs Hl H t s E. rewrite Hs in E. destruct (s0 !! t) as [x|] eqn:Ex; [|done]. injection E as <-.
  destruct (H t x Ex). pose proof (occ_bounds t l). cbn. lia.
Qed.

(** ** Closing *)

Definition emptiedDefault (d : DefaultDNSRule DNSAction) : DefaultDNSRule DNSAction :=
  mkDefaultDNSRule (mkDefaultRule d.(dnsRule).(taggedItems) (emptied <$> d.(dnsRule).(ruleSetItem)) d.(dnsRule).(invert))
    d.(matchResponse) d.(dnsAction).

Lemma closeAll_foldM {T} (f : T -> gmap string RuleSet -> outcome (T * gmap string RuleSet)) (held : T -> list string) l :
  Forall (fun x => forall s, (f x s) ≫= (fun p => Ret p.2) = foldM DecRef (held x) s) l -> forall s,
  closeAll f l s ≫= (fun p => Ret p.2) = foldM DecRef (List.concat (map held l)) s.
Proof.
  induction 1 as [|x l Hx Hl IH]; intros s; [done|]. cbn [closeAll map List.concat]. rewrite foldM_app, <- Hx.
  destruct (f x s) as [[x' s']|]; cbn; [|done]. rewrite <- IH. by destruct (closeAll f l s') as [[? ?]|].
Qed.

Lemma rule_Close_foldM t : forall s, rule_Close t s ≫= (fun p => Ret p.2) = foldM DecRef (treeHeld t) s.
Proof.
  induction t as [d|mode inverted action rules IH] using RuleTree_rect'; intros s.
  - cbn [rule_Close treeHeld]. unfold closeDefault, itemHeld. destruct (ruleSetItem (dnsRule d)) as [item|]; [|done].
    unfold RuleSetItem_Close. by destruct (foldM DecRef (setList item) s).
  - cbn [rule_Close treeHeld]. rewrite <- (closeAll_foldM rule_Close treeHeld rules IH).
    by destruct (closeAll rule_Close rules s) as [[? ?]|].
Qed.

Lemma closeRules_foldM l s : closeRules l s = foldM DecRef (listHeld l) s.
Proof.
  unfold closeRules, listHeld. rewrite <- (closeAll_foldM rule_Close treeHeld l).
  - by destruct (closeAll rule_Close l s) as [[? ?]|].
  - apply Forall_forall. intros t _ s'. apply rule_Close_foldM.
Qed.

Lemma closeRules_release l s0 s : refsOk (Z.of_nat (length (listHeld l))) s0 ->
  shifted (fun t => occ t (listHeld l)) s0 s -> closeRules l s = Ret s0.
Proof. intros Hok Hs. rewrite closeRules_foldM. by apply release_all. Qed.

(** ** Starting *)

(** Starting an item that holds nothing returns, and the store is the old one
    with the references held now, which are among the tags. *)
Lemma RuleSetItem_Start_held item s : item.(setList) = [] -> refsOk (Z.of_nat (length item.(tagList))) s ->
  match RuleSetItem_Start item s with
  | Panic => False
  | Ret (item', s', _) => shifted (fun t => occ t item'.(setList)) s s' /\ (length item'.(setList) <= length item.(tagList))%nat
  end.
Proof.
  intros Hi Hok. unfold RuleSetItem_Start.
  assert (He : emptied item = item) by (destruct item; cbn in Hi; by subst).
  rewrite (close_spec item s s); [|rewrite Hi; eapply refsOk_weaken, Hok; cbn; lia|rewrite Hi; apply shifted_refl].
  rewrite He. pose proof (startTags_spec item.(tagList) item s s) as H. rewrite Hi in H.
  specialize (H Hok (shifted_refl s)). destruct (startTags _ _ _) as [[[item' s'] [e|]]|]; [..|done].
  - destruct H as (-> & -> & _). rewrite He, Hi. split; [apply shifted_refl|cbn; lia].
  - destruct H as [-> H]. cbn [setList]. split; [exact H|cbn; lia].
Qed.

Lemma rule_Start_ok clash t : forall s, treeHeld t = [] -> refsOk (Z.of_nat (length (treeTags t))) s ->
  match rule_Start clash t s with
  | Panic => False
  | Ret (t', s', _) => shifted (fun x => occ x (treeHeld t')) s s' /\ (length (treeHeld t') <= length (treeTags t))%nat
  end.
Proof.
  induction t as [d|mode inverted action rules IH] using RuleTree_rect'; intros s Hh Hok.
  - cbn [rule_Start treeHeld treeTags] in *. unfold startDefault, itemHeld, itemTags in *.
    destruct (ruleSetItem (dnsRule d)) as [item|].
    + pose proof (RuleSetItem_Start_held item s Hh Hok) as H.
      destruct (RuleSetItem_Start item s) as [[[item' s'] e]|]; [exact H|done].
    + cbn. split; [apply shifted_refl|lia].
  - cbn [rule_Start treeHeld treeTags] in *.
    enough (Hl : forall s, List.concat (map treeHeld rules) = [] -> refsOk (Z.of_nat (length (listTags rules))) s ->
      match startAll (rule_Start clash) rules s with
      | Panic => False
      | Ret (l', s', _) => shifted (fun x => occ x (listHeld l')) s s' /\ (length (listHeld l') <= length (listTags rules))%nat
      end).
    { specialize (Hl s Hh Hok). by destruct (startAll _ _ _) as [[[l' s'] e]|]. }
    clear s Hh Hok. induction IH as [|x l Hx Hl IHl]; intros s Hh Hok; cbn [startAll].
    { split; [apply shifted_refl|done]. }
    cbn [map List.concat] in Hh. apply app_eq_nil in Hh as [Hh1 Hh2].
    unfold listTags in Hok |- *. cbn [map List.concat] in Hok |- *. rewrite length_app in Hok |- *.
    rewrite Nat2Z.inj_add in Hok.
    specialize (Hx s Hh1). destruct (rule_Start clash x s) as [[[x' s'] e]|].
    2:{ apply Hx. eapply refsOk_weaken, Hok. lia. }
    destruct Hx as [H1 H2]; [eapply refsOk_weaken, Hok; lia|]. destruct e as [e|].
    + unfold listHeld. cbn [map List.concat]. rewrite Hh2, app_nil_r. split; [done|lia].
    + specialize (IHl s' Hh2). destruct (startAll (rule_Start clash) l s') as [[[l' s''] e]|].
      * destruct IHl as [H3 H4]; [eapply refsOk_shifted; [exact H1| |exact Hok]; lia|].
        unfold listHeld. cbn [map List.concat]. rewrite length_app. split; [by eapply shifted_occ_app|].
        unfold listHeld, listTags in H4. lia.
      * apply IHl. eapply refsOk_shifted; [exact H1| |exact Hok]. lia.
Qed.

Lemma startAll_ok clash l s : listHeld l = [] -> refsOk (Z.of_nat (length (listTags l))) s ->
  match startAll (rule_Start clash) l s with
  | Panic => False
  | Ret (l', s', _) => shifted (fun x => occ x (listHeld l')) s s' /\ (length (listHeld l') <= length (listTags l))%nat
  end.
Proof.
  intros Hh Hok. pose proof (rule_Start_ok clash (LogicalNode "" false NoDNSAction l) s Hh Hok) as H.
  cbn [rule_Start] in H. by destruct (startAll _ _ _) as [[[l' s'] e]|].
Qed.

(** ** Rules as they are built *)

(** The tags of the options, as often as they occur. *)
Fixpoint optionTags (t : OptionTree DNSOptions DNSActionOptions) : list string :=
  match t with
  | OptionRule ty d _ rules _ _ =>
      if isDefaultType ty then d.(do_RuleSet) else List.concat (map optionTags rules)
  end.

Lemma NewDNSRule_tags legacy t : forall check u, NewDNSRule t check legacy = Ret (Ok u) ->
  treeHeld u = [] /\ treeTags u = optionTags t.
Proof.
  induction t as [ty d mode rules inverted action IH] using OptionTree_rect'. intros check u H.
  cbn [NewDNSRule optionTags] in *. destruct (isDefaultType ty).
  - destruct (negb _); [done|]. destruct (checkDNSAction _ _); [done|].
    destruct (NewDefaultDNSRule legacy d) as [[x|]|] eqn:En; [|done|done]. injection H as <-.
    unfold NewDefaultDNSRule in En. destruct (NewDNSRuleAction _); [|done].
    destruct (runBlocks _); [|done]. injection En as <-.
    cbn [treeHeld treeTags]. unfold itemHeld, itemTags. cbn [dnsRule ruleSetItem].
    destruct (do_RuleSet d); done.
  - destruct (String.eqb ty RuleTypeLogical); [|done].
    destruct (if nonempty rules then _ else _) as [[|]|]; try done.
    destruct (checkDNSAction check action); [done|]. destruct (NewDNSRuleAction action); [|done].
    destruct (_ || _); [|done]. destruct (buildAll _ _ _ _) as [[us|]|] eqn:Eb; try done. injection H as <-.
    apply buildAll_Forall2 in Eb. cbn [treeHeld treeTags]. clear -IH Eb.
    induction Eb as [|x y l us Hxy Eb IHl]; [done|]. inversion_clear IH as [|? ? Hx Hl].
    destruct (validateNoNestedDNSRuleActions x true); [done|]. destruct (Hx false y Hxy) as [H1 H2].
    destruct (IHl Hl) as [H3 H4]. cbn [map List.concat]. by rewrite H1, H2, H3, H4.
Qed.

Lemma built_tags legacy wrap raw us : buildAll (fun o => NewDNSRule o true legacy) wrap 0 raw = Ret (Ok us) ->
  listHeld us = [] /\ listTags us = List.concat (map optionTags raw).
Proof.
  intros H. apply buildAll_Forall2 in H. unfold listHeld, listTags.
  induction H as [|x y l us Hxy H [IH1 IH2]]; [done|]. destruct (NewDNSRule_tags _ _ _ _ Hxy) as [H1 H2].
  cbn [map List.concat]. by rewrite H1, H2, IH1, IH2.
Qed.

(** Options as the decoder produces them: the type is known, and so is the name
    of the action. *)
Definition knownAction (a : DNSActionOptions) : bool :=
  List.existsb (String.eqb a.(aoAction)) ["" ; RuleActionTypeRoute; RuleActionTypeEvaluate; RuleActionTypeRespond;
    RuleActionTypeRouteOptions; RuleActionTypeReject; RuleActionTypePredefined].

Fixpoint decodedDNSRule (t : OptionTree DNSOptions DNSActionOptions) : bool :=
  match t with
  | OptionRule ty d _ rules _ action =>
      (String.eqb ty RuleTypeDefault || String.eqb ty RuleTypeLogical) && knownAction d.(do_Action) &&
      knownAction action && forallb decodedDNSRule rules
  end.

Lemma NewDNSRuleAction_known a : knownAction a = true -> NewDNSRuleAction a <> Panic.
Proof.
  unfold knownAction, NewDNSRuleAction. cbn [List.existsb]. intros H.
  repeat case_goal; done.
Qed.

Lemma allM_no_panic {T} (f : T -> outcome bool) l : Forall (fun x => f x <> Panic) l -> allM f l <> Panic.
Proof. induction 1 as [|x l Hx Hl IH]; cbn; [done|]. by destruct (f x) as [[|]|]. Qed.

Lemma buildAll_no_panic {T U} (f : T -> outcome (result error U)) wrap l :
  Forall (fun x => f x <> Panic) l -> forall i, buildAll f wrap i l <> Panic.
Proof.
  induction 1 as [|x l Hx Hl IH]; intros i; cbn; [done|]. destruct (f x) as [[u|e]|]; [|done|done].
  specialize (IH (i + 1)). by destruct (buildAll f wrap (i + 1) l) as [[us|e]|].
Qed.

Lemma DNSRule_IsValid_decoded t : decodedDNSRule t = true -> DNSRule_IsValid t <> Panic.
Proof.
  induction t as [ty d mode rules inverted action IH] using OptionTree_rect'. cbn. intros H. zbool.
  destruct (String.eqb ty RuleTypeDefault); [done|]. destruct (String.eqb ty RuleTypeLogical); [|done].
  destruct (nonempty rules); [|done]. apply allM_no_panic. rewrite Forall_forall in IH |- *.
  intros x Hx. apply IH; [done|]. by eapply forallb_forall, list_elem_of_In.
Qed.

Lemma NewDNSRule_decoded legacy t : decodedDNSRule t = true -> forall check, NewDNSRule t check legacy <> Panic.
Proof.
  induction t as [ty d mode rules inverted action IH] using OptionTree_rect'. intros H check.
  cbn [decodedDNSRule NewDNSRule] in *. zbool. destruct (isDefaultType ty).
  - destruct (negb _); [done|]. destruct (checkDNSAction _ _); [done|]. unfold NewDefaultDNSRule.
    pose proof (NewDNSRuleAction_known (do_Action d)). destruct (NewDNSRuleAction _); [|naive_solver].
    by destruct (runBlocks _).
  - destruct (String.eqb ty RuleTypeLogical); [|done].
    assert (Hv : (if nonempty rules then allM DNSRule_IsValid rules else Ret false) <> Panic).
    { destruct (nonempty rules); [|done]. apply allM_no_panic, Forall_forall. intros x Hx.
      apply DNSRule_IsValid_decoded. by eapply forallb_forall, list_elem_of_In. }
    destruct (if nonempty rules then _ else _) as [[|]|]; [|done|done]. destruct (checkDNSAction _ _); [done|].
    pose proof (NewDNSRuleAction_known action). destruct (NewDNSRuleAction action); [|naive_solver].
    destruct (String.eqb mode LogicalTypeAnd || _); [|done].
    match goal with |- context [buildAll ?f ?w 0 rules] =>
      assert (Hb : buildAll f w 0 rules <> Panic); [|destruct (buildAll f w 0 rules) as [[us|e]|]; congruence] end.
    { apply buildAll_no_panic. rewrite Forall_forall in IH |- *. intros x Hx.
      destruct (validateNoNestedDNSRuleActions x true); [done|]. apply IH; [done|].
      by eapply forallb_forall, list_elem_of_In. }
Qed.

Definition rawTags (r : Router) : list string := List.concat (map optionTags r.(rawRules)).

(** What [buildRules] does to the store, if it starts the rules. *)
Lemma buildRules_refs clash tm hr raw sets : forallb decodedDNSRule raw = true ->
  refsOk (Z.of_nat (length (List.concat (map optionTags raw)))) sets ->
  match buildRules clash true tm hr raw sets with
  | Panic => False
  | Ret (sets', Err _) => sets' = sets
  | Ret (sets', Ok (rules, _, _)) => shifted (fun x => occ x (listHeld rules)) sets sets' /\
      (length (listHeld rules) <= length (List.concat (map optionTags raw)))%nat
  end.
Proof.
  intros Hd Hok. unfold buildRules. destruct (firstError _ _ _ _); [done|].
  destruct (resolveLegacyDNSMode _ _ _) as [[legacy flags]|]; [|done].
  destruct (if negb legacy then _ else _); [done|]. destruct (validateEvaluateFakeIPRules _ _); [done|].
  destruct (buildAll _ _ _ _) as [[us|]|] eqn:Eb; [|done|].
  2:{ eapply (buildAll_no_panic (fun o => NewDNSRule o true legacy)); [|exact Eb]. apply Forall_forall. intros x Hx.
      apply NewDNSRule_decoded. by eapply forallb_forall, list_elem_of_In. }
  apply built_tags in Eb as [H1 H2].
  cbn [negb]. rewrite <- H2 in Hok. pose proof (startAll_ok clash us sets H1 Hok) as H.
  destruct (startAll _ _ _) as [[[us' sets'] [[i e]|]]|]; [..|done].
  - destruct H as [Hs Hl]. rewrite (closeRules_release us' sets sets'); [done| |done].
    eapply refsOk_weaken, Hok. lia.
  - rewrite <- H2. exact H.
Qed.

(** C28: a start of the DNS router that fails leaves the reference counts of the
    rule-sets as they were, also when it fails in the middle of starting its
    rules; after a start that succeeds, closing the router restores them
    exactly, and closing it again does nothing. *)
Theorem router_references_balanced clash tm hr r sets :
  r.(rtClosing) = false -> forallb decodedDNSRule r.(rawRules) = true ->
  refsOk (Z.of_nat (length (rawTags r))) sets ->
  match Router_Start clash tm hr r sets with
  | Panic => False
  | Ret (r', sets', Some _) => r' = r /\ sets' = sets
  | Ret (r', sets', None) =>
      exists closed, Router_Close r' sets' = Ret (closed, sets) /\ Router_Close closed sets = Ret (closed, sets)
  end.
Proof.
  intros Hc Hd Hok. unfold Router_Start. pose proof (buildRules_refs clash tm hr (rawRules r) sets Hd Hok) as H.
  destruct (buildRules _ _ _ _ _ _) as [[sets' [[[rules legacy] flags]|e]]|]; [|by split|done].
  rewrite Hc. destruct H as [H1 H2]. unfold Router_Close. cbn [rtClosing rtRules].
  rewrite (closeRules_release rules sets sets'); [|eapply refsOk_weaken, Hok; unfold rawTags; lia|done].
  eexists. split; [reflexivity|done].
Qed.

End Refs.
