(* ===== verification/DNSLookupTheorems.v ===== *)
(** * Theorems on queries and lookups

    One invariant is threaded through all the ways the router uses its client: a
    property of the client that queries to admissible servers keep is kept by
    every query and lookup, which end without a panic.  With all servers
    admissible this is totality of the router, with all but the fakeip ones it
    says that lookups never ask a fakeip server. *)

From stdpp Require Import sorting.
From S2P Require Import Prelude GoStrings GoTime RuleState RuleItems RuleMatch RuleBuild RuleBuildProps RuleTheorems DNSRules DNSRouter DNSLookup DNSRouterProps DNSRouterRefs.

Local Open Scope string_scope.
Local Open Scope list_scope.
Local Open Scope Z_scope.

(** The computation returns, and its result satisfies [Q]. *)
Definition runs {A} (Q : A -> Prop) (o : outcome A) : Prop := match o with Panic => False | Ret a => Q a end.

Lemma runs_weaken {A} (Q Q' : A -> Prop) o : (forall a, Q a -> Q' a) -> runs Q o -> runs Q' o.
Proof. destruct o; cbn; auto. Qed.

(** The methods of the reject action that DNS rules may have. *)
Definition dnsRejectMethod (m : string) : Prop := m = RuleActionRejectMethodDefault \/ m = RuleActionRejectMethodDrop.

Section Invariant.
Context `{LE : LookupEnv}.
Context (P : ClientState -> Prop) (ok : DNSTransport -> Prop).
Context (Hexchange : forall s t m o check, ok t -> P s -> P (client_Exchange s t m o check).1).
Context (Hlookup : forall s t d o check, ok t -> P s -> P (client_Lookup s t d o check).1).

(** A rule whose action asks admissible servers only. *)
Definition admissible (env : QueryEnv) (allowFakeIP : bool) (r : DNSRule DNSAction) : Prop :=
  match ruleAction r with
  | RuleActionReject m _ => dnsRejectMethod m
  | RuleActionEvaluate server _ => forall t, env.(qTransports).(tmTransports) !! server = Some t -> ok t
  | RuleActionDNSRoute server _ =>
      forall t, env.(qTransports).(tmTransports) !! server = Some t -> isFakeIP t && negb allowFakeIP = false -> ok t
  | _ => True
  end.

Context (env : QueryEnv) (Hdefault : ok env.(qTransports).(tmDefault)).

Definition replyFine (p : ClientState * RulesReply) : Prop :=
  P p.1 /\ match p.2 with RulesReject _ m _ _ => dnsRejectMethod m | _ => True end.

Lemma ofClient_fine s t m o check : ok t -> P s -> replyFine (ofClient t (client_Exchange s t m o check)).
Proof.
  intros Ht HP. pose proof (Hexchange s t m o check Ht HP) as H. unfold replyFine, ofClient. cbn.
  split; [done|]. by destruct (client_Exchange _ _ _ _ _).2.
Qed.

Lemma exchangeWithRules_runs allowFakeIP message : message.(msgQuestion) <> [] ->
  forall rules i c options evaluated s, Forall (admissible env allowFakeIP) rules -> P s ->
  runs replyFine (exchangeWithRules env allowFakeIP message i rules c options evaluated s).
Proof.
  intros Hq. induction rules as [|r rules IH]; intros i c options evaluated s Hr HP; cbn [exchangeWithRules].
  { by apply ofClient_fine. }
  inversion_clear Hr as [|? ? Hr1 Hr2]. unfold admissible in Hr1.
  destruct (dnsMatch _ _ _ _) as [c' [|]]; cbn [negb]; [|by apply IH].
  destruct (ruleAction r) as [|server ro|server ro| |ro|m d|rc an ns ex].
  - by apply IH.
  - unfold resolveDNSRoute. destruct (_ !! server) as [t|] eqn:Et; [|by apply IH].
    destruct (isFakeIP t && negb allowFakeIP) eqn:Ef; [by apply IH|].
    apply ofClient_fine; [by apply Hr1|done].
  - destruct (_ !! server) as [t|] eqn:Et; [|by apply IH].
    match goal with |- context [client_Exchange s t ?m ?o ?ck] =>
      pose proof (Hexchange s t m o ck (Hr1 t eq_refl) HP) as H; destruct (client_Exchange s t m o ck) as [s' [resp|e]] end;
      by apply IH.
  - destruct evaluated as [[resp t]|]; by split.
  - by apply IH.
  - destruct (String.eqb_spec m RuleActionRejectMethodDefault); [by split|].
    destruct (String.eqb_spec m RuleActionRejectMethodDrop); [by split|]. by apply IH.
  - unfold predefinedResponse. destruct (msgQuestion message); [done|]. by split.
Qed.

(** ** Legacy mode *)

(** What matching selects: an admissible rule, and an admissible server unless the
    rule answers by itself. *)
Definition selectionFine (allowFakeIP : bool) (t : option DNSTransport) (rule : option (DNSRule DNSAction)) : Prop :=
  (forall r, rule = Some r -> admissible env allowFakeIP r) /\
  match t with
  | Some t => ok t
  | None => exists r, rule = Some r /\
      match ruleAction r with RuleActionReject _ _ | RuleActionPredefined _ _ _ _ => True | _ => False end
  end.

Lemma matchDNSFrom_admissible allowFakeIP aq rules : Forall (admissible env allowFakeIP) rules ->
  forall k c options t rule j c' o', matchDNSFrom env allowFakeIP aq k rules c options = (t, rule, j, c', o') ->
  selectionFine allowFakeIP t rule.
Proof.
  induction 1 as [|r rules Hr1 Hr2 IH]; intros k c options t rule j c' o' H; cbn [matchDNSFrom] in H.
  { simplify_eq. by split. }
  destruct (_ && _); [by eapply IH|]. destruct (LegacyPreMatch _ _ _ _) as [c1 [|]]; [|by eapply IH].
  pose proof Hr1 as Hadm. unfold admissible in Hr1.
  destruct (ruleAction r) eqn:Ea; try (by eapply IH).
  - destruct (_ !! server) as [t'|] eqn:Et; [|by eapply IH].
    destruct (isFakeIP t' && negb allowFakeIP) eqn:Ef; [by eapply IH|]. simplify_eq.
    split; [by intros ? [= <-]|by apply Hr1].
  - simplify_eq. split; [by intros ? [= <-]|]. exists r. by rewrite Ea.
  - simplify_eq. split; [by intros ? [= <-]|]. exists r. by rewrite Ea.
Qed.

Lemma matchDNS_admissible rules allowFakeIP i aq c options t rule j c' o' :
  Forall (admissible env allowFakeIP) rules ->
  matchDNS env rules allowFakeIP i aq c options = (t, rule, j, c', o') -> selectionFine allowFakeIP t rule.
Proof. intros Hr. by apply matchDNSFrom_admissible, Forall_drop. Qed.

Lemma legacyRound_runs rules message options i c s : message.(msgQuestion) <> [] ->
  Forall (admissible env true) rules -> P s ->
  runs (fun p => P p.1) (legacyRound env rules message options i c s).
Proof.
  intros Hq Hr HP. unfold legacyRound.
  destruct (matchDNS _ _ _ _ _ _ _) as [[[[t rule] j] c'] o'] eqn:E.
  apply matchDNS_admissible in E as [H1 H2]; [|done].
  assert (Hx : forall t', ok t' -> runs (fun p => P p.1)
    (let '(s, r) := client_Exchange s t' message (orDefaultStrategy env.(qDefaultStrategy) o')
                      (addressLimitResponseCheck env rule c') in
     match r with
     | Ok response => Ret (s, @inl Reply (Z * InboundContext) (ReplyMsg response (Some t')))
     | Err e => if isSome (addressLimitResponseCheck env rule c') && isResponseRejected e then Ret (s, inr (j, c'))
                else Ret (s, inl (ReplyErr e))
     end)).
  { intros t' Ht'. match goal with |- context [client_Exchange s t' ?m ?o ?ck] =>
      pose proof (Hexchange s t' m o ck Ht' HP) as H; destruct (client_Exchange s t' m o ck) as [s' [resp|e]] end; [done|].
    by destruct (_ && _). }
  destruct rule as [r|].
  2:{ destruct t as [t|]; [by apply Hx|]. by destruct H2 as (? & ? & _). }
  specialize (H1 r eq_refl). unfold admissible in H1.
  destruct t as [t|].
  - specialize (Hx t H2). destruct (ruleAction r) as [| | | | |m d|]; try exact Hx.
    + destruct (String.eqb_spec m RuleActionRejectMethodDefault); [done|].
      destruct (String.eqb_spec m RuleActionRejectMethodDrop); [done|]. by destruct H1.
    + unfold predefinedResponse. by destruct (msgQuestion message).
  - destruct H2 as (r' & [= <-] & H2). destruct (ruleAction r) as [| | | | |m d|]; try done.
    + destruct (String.eqb_spec m RuleActionRejectMethodDefault); [done|].
      destruct (String.eqb_spec m RuleActionRejectMethodDrop); [done|]. by destruct H1.
    + unfold predefinedResponse. by destruct (msgQuestion message).
Qed.

Lemma legacyLoop_runs rules message options : message.(msgQuestion) <> [] -> Forall (admissible env true) rules ->
  forall fuel i c s, P s ->
  match legacyLoop fuel env rules message options i c s with None => True | Some o => runs (fun p => P p.1) o end.
Proof.
  intros Hq Hr. induction fuel as [|fuel IH]; intros i c s HP; cbn [legacyLoop]; [done|].
  pose proof (legacyRound_runs rules message options i c s Hq Hr HP) as H.
  destruct (legacyRound _ _ _ _ _ _ _) as [[s' [reply|[i' c']]]|]; [done| |done]. by apply IH.
Qed.

(** ** Lookups *)

Lemma rejectRule_runs i m d now drops : dnsRejectMethod m -> runs (fun _ => True) (rejectRule i m d now drops).
Proof.
  intros [-> | ->]; unfold rejectRule, reject_Error; [rewrite String.eqb_refl|by cbn].
  destruct d; [done|]. by destruct (_ <? _)%nat.
Qed.

Lemma lookupWithRulesType_runs rules now domain qType options c s :
  Forall (admissible env false) rules -> P s.(lsClient) ->
  runs (fun p => P p.1.(lsClient)) (lookupWithRulesType env rules now domain qType options c s).
Proof.
  intros Hr HP. unfold lookupWithRulesType.
  set (m := mkMsg 0 false false true false 0 _ [] [] []).
  pose proof (exchangeWithRules_runs false m ltac:(done) rules 0 (lookupMetadata c qType) options None (lsClient s) Hr HP) as H.
  destruct (exchangeWithRules _ _ _ _ _ _ _ _ _) as [[client [resp t|e|i me d resp]]|]; [..|done]; destruct H as [H1 H2].
  - done.
  - done.
  - pose proof (rejectRule_runs i me d now (lsDrops s) H2) as H3. by destruct (rejectRule _ _ _ _ _) as [[drops e]|].
Qed.

Lemma lookupWithRules_runs rules sixFirst now4 now6 domain options c s :
  Forall (admissible env false) rules -> P s.(lsClient) ->
  runs (fun p => P p.1.(lsClient)) (lookupWithRules env rules sixFirst now4 now6 domain options c s).
Proof.
  intros Hr HP. unfold lookupWithRules.
  destruct (_ =? DomainStrategyIPv4Only); [by apply lookupWithRulesType_runs|].
  destruct (_ =? DomainStrategyIPv6Only); [by apply lookupWithRulesType_runs|].
  assert (Hs : forall now qType o s, P (lsClient s) ->
    runs (fun p => P p.1.(lsClient)) (lookupWithRulesType env rules now domain qType o c s))
    by (intros; by apply lookupWithRulesType_runs).
  destruct sixFirst.
  - match goal with |- context [lookupWithRulesType env rules now6 domain TypeAAAA ?o c s] =>
      pose proof (Hs now6 TypeAAAA o s HP) as H; destruct (lookupWithRulesType env rules now6 domain TypeAAAA o c s) as [[s1 r6]|];
      [|done]; pose proof (Hs now4 TypeA o s1 H) as H'; destruct (lookupWithRulesType env rules now4 domain TypeA o c s1) as [[s2 r4]|];
      [|done] end. by destruct r4, r6.
  - match goal with |- context [lookupWithRulesType env rules now4 domain TypeA ?o c s] =>
      pose proof (Hs now4 TypeA o s HP) as H; destruct (lookupWithRulesType env rules now4 domain TypeA o c s) as [[s1 r4]|];
      [|done]; pose proof (Hs now6 TypeAAAA o s1 H) as H'; destruct (lookupWithRulesType env rules now6 domain TypeAAAA o c s1) as [[s2 r6]|];
      [|done] end. by destruct r4, r6.
Qed.

Lemma legacyLookupRound_runs rules now domain options i c s : Forall (admissible env false) rules -> P s.(lsClient) ->
  runs (fun p => P p.1.(lsClient)) (legacyLookupRound env rules now domain options i c s).
Proof.
  intros Hr HP. unfold legacyLookupRound.
  destruct (matchDNS _ _ _ _ _ _ _) as [[[[t rule] j] c'] o'] eqn:E.
  apply matchDNS_admissible in E as [H1 H2]; [|done].
  assert (Hx : forall t', ok t' -> runs (fun p => P p.1.(lsClient))
    (let '(client, (addresses, e)) := client_Lookup s.(lsClient) t' domain (orDefaultStrategy env.(qDefaultStrategy) o')
                                        (addressLimitResponseCheck env rule c') in
     let s := mkLookupState client s.(lsDrops) in
     if negb (isSome (addressLimitResponseCheck env rule c')) || negb (isSome e)
     then Ret (s, @inl (error + (list Addr * option error)) (Z * InboundContext) (inr (addresses, e)))
     else Ret (s, inr (j, c')))).
  { intros t' Ht'. match goal with |- context [client_Lookup ?s0 t' ?m ?o ?ck] =>
      pose proof (Hlookup s0 t' m o ck Ht' HP) as H; destruct (client_Lookup s0 t' m o ck) as [s' [addrs e]] end.
    by destruct (_ || _). }
  destruct rule as [r|].
  2:{ destruct t as [t|]; [by apply Hx|]. by destruct H2 as (? & ? & _). }
  specialize (H1 r eq_refl). unfold admissible in H1.
  destruct (ruleAction r) as [| | | | |m d|] eqn:Ea;
    try (destruct t as [t|]; [by apply Hx|]; destruct H2 as (r' & [= <-] & H2); by rewrite Ea in H2).
  - pose proof (rejectRule_runs j m d now (lsDrops s) H1) as H3. by destruct (rejectRule _ _ _ _ _) as [[drops e]|].
  - done.
Qed.

Lemma legacyLookupLoop_runs rules clock domain options : Forall (admissible env false) rules ->
  forall fuel i c s, P s.(lsClient) ->
  match legacyLookupLoop fuel env rules clock domain options i c s with
  | None => True | Some o => runs (fun p => P p.1.(lsClient)) o end.
Proof.
  intros Hr. induction fuel as [|fuel IH]; intros i c s HP; cbn [legacyLookupLoop]; [done|].
  pose proof (legacyLookupRound_runs rules (clock fuel) domain options i c s Hr HP) as H.
  destruct (legacyLookupRound _ _ _ _ _ _ _ _) as [[s' [result|[i' c']]]|]; [done| |done]. by apply IH.
Qed.

End Invariant.

(** ** What a started DNS router guarantees

    The rules a successful start leaves behind are admissible, so the invariant
    of [DNSLookupProps] applies to them: queries and lookups end without a
    panic, and lookups never ask a fakeip server.  The answers of lookups, and
    the flood counter of the reject action. *)

(** ** The rules of a started router *)

Section Started.
Context `{LE : LookupEnv}.

(** The action of the options of a top-level rule. *)
Definition topAction (t : OptionTree DNSOptions DNSActionOptions) : DNSActionOptions :=
  let '(OptionRule ty d _ _ _ action) := t in if isDefaultType ty then d.(do_Action) else action.

(** The decoder only lets known reject methods through. *)
Definition decodedReject (t : OptionTree DNSOptions DNSActionOptions) : bool :=
  let a := topAction t in
  negb (String.eqb a.(aoAction) RuleActionTypeReject) ||
  List.existsb (String.eqb a.(aoRejectMethod))
    [RuleActionRejectMethodDefault; RuleActionRejectMethodDrop; RuleActionRejectMethodReply].

Definition builtFrom (t : OptionTree DNSOptions DNSActionOptions) (u : DNSRule DNSAction) : Prop :=
  NewDNSRuleAction (topAction t) = Ret (ruleAction u) /\ checkDNSAction true (topAction t) = None /\
  ((topAction t).(aoAction) <> "" -> dnsRuleActionType t = (topAction t).(aoAction)) /\
  dnsRuleActionServer t = (topAction t).(aoServer).

Lemma NewDNSRule_action legacy t u : NewDNSRule t true legacy = Ret (Ok u) -> builtFrom t u.
Proof.
  destruct t as [ty d mode rules inverted action]. unfold builtFrom, topAction, dnsRuleActionType, dnsRuleActionServer.
  cbn [NewDNSRule]. intros H. destruct (isDefaultType ty).
  - destruct (negb _); [done|]. destruct (checkDNSAction _ _) eqn:Ec; [done|].
    destruct (NewDefaultDNSRule legacy d) as [[x|]|] eqn:En; [|done|done]. injection H as <-.
    unfold NewDefaultDNSRule in En. destruct (NewDNSRuleAction _) as [act|]; [|done].
    destruct (runBlocks _); [|done]. injection En as <-.
    split; [done|]. split; [done|]. split; [|done]. intros Hn. by destruct (String.eqb_spec (aoAction (do_Action d)) "").
  - destruct (String.eqb ty RuleTypeLogical); [|done].
    destruct (if nonempty rules then _ else _) as [[|]|]; try done.
    destruct (checkDNSAction true action) eqn:Ec; [done|]. destruct (NewDNSRuleAction action) as [act|]; [|done].
    destruct (_ || _); [|done]. destruct (buildAll _ _ _ _) as [[us|]|]; try done. injection H as <-.
    split; [done|]. split; [done|]. split; [|done]. intros Hn. by destruct (String.eqb_spec (aoAction action) "").
Qed.

Lemma rule_Start_action clash t sets t' sets' e : rule_Start clash t sets = Ret (t', sets', e) -> ruleAction t' = ruleAction t.
Proof.
  destruct t as [d|mode inverted action rules]; cbn [rule_Start]; intros H.
  - unfold startDefault in H. destruct (ruleSetItem (dnsRule d)); [|by simplify_eq].
    destruct (RuleSetItem_Start _ _) as [[[item sets1] e1]|]; [|done]. by simplify_eq.
  - destruct (startAll _ _ _) as [[[l s] e1]|]; [|done]. by simplify_eq.
Qed.

Lemma startAll_builtFrom clash raw us : Forall2 builtFrom raw us -> forall s us' s' e,
  startAll (rule_Start clash) us s = Ret (us', s', e) -> Forall2 builtFrom raw us'.
Proof.
  induction 1 as [|t u raw us Htu Hl IH]; intros s us' s' e H; cbn [startAll] in H; [by simplify_eq; constructor|].
  destruct (rule_Start clash u s) as [[[u' s1] [e1|]]|] eqn:E; [| |done].
  - simplify_eq. apply rule_Start_action in E. constructor; [|done]. unfold builtFrom in *. by rewrite E.
  - destruct (startAll _ us s1) as [[[us1 s2] e2]|] eqn:E2; [|done]. simplify_eq. apply rule_Start_action in E.
    constructor; [unfold builtFrom in *; by rewrite E|by eapply IH].
Qed.

Lemma Router_Start_rules clash tm hr r sets r' sets' : r.(rtClosing) = false ->
  Router_Start clash tm hr r sets = Ret (r', sets', None) ->
  Forall2 builtFrom r.(rawRules) r'.(rtRules) /\ r'.(rtClosing) = false /\
  validateEvaluateFakeIPRules r.(rawRules) (transportTypes <$> tm) = None.
Proof.
  unfold Router_Start, buildRules. intros -> H. destruct (firstError _ _ _ _); [done|].
  destruct (resolveLegacyDNSMode _ _ _) as [[legacy flags]|]; [|done].
  destruct (if negb legacy then _ else _); [done|]. destruct (validateEvaluateFakeIPRules _ _) eqn:Ev; [done|].
  destruct (buildAll _ _ _ _) as [[us|]|] eqn:Eb; [|done|done]. apply buildAll_Forall2 in Eb. cbn [negb] in H.
  destruct (startAll _ _ _) as [[[us' sets1] [[i e]|]]|] eqn:Es; [|simplify_eq|done].
  { by destruct (closeRules _ _). }
  cbn [rtRules rtClosing]. split; [|done]. eapply startAll_builtFrom; [|exact Es].
  eapply Forall2_impl; [exact Eb|]. intros t u. apply NewDNSRule_action.
Qed.

(** Which action the options were for. *)
Lemma builtFrom_reject t u m d : builtFrom t u -> ruleAction u = RuleActionReject m d -> decodedReject t = true -> dnsRejectMethod m.
Proof.
  intros (H1 & H2 & _) Ha Hd. rewrite Ha in H1. unfold NewDNSRuleAction in H1.
  repeat case_hyp H1. injection H1 as <- <-. unfold decodedReject in Hd. cbn zeta in Hd.
  unfold checkDNSAction, validateDNSRuleAction in H2. cbn [negb andb] in H2.
  destruct (String.eqb (aoAction (topAction t)) RuleActionTypeReject); [|done]. cbn [negb orb List.existsb andb] in Hd, H2.
  destruct (String.eqb_spec (aoRejectMethod (topAction t)) RuleActionRejectMethodReply); [done|].
  rewrite !orb_false_r in Hd. apply orb_true_iff in Hd as [Hd|Hd]; apply String.eqb_eq in Hd; [by left|by right].
Qed.

Lemma builtFrom_evaluate t u server ro : builtFrom t u -> ruleAction u = RuleActionEvaluate server ro ->
  dnsRuleActionType t = RuleActionTypeEvaluate /\ dnsRuleActionServer t = server /\ server <> "".
Proof.
  intros (H1 & H2 & H3 & H4) Ha. rewrite Ha in H1. unfold NewDNSRuleAction in H1. repeat case_hyp H1.
  injection H1 as <- <-. match goal with H : String.eqb _ RuleActionTypeEvaluate = true |- _ => apply String.eqb_eq in H as He end.
  split; [rewrite H3; [done|by rewrite He]|]. split; [done|]. intros Hs.
  unfold checkDNSAction, needsServer in H2. rewrite He, Hs in H2. cbn [negb andb] in H2.
  destruct (validateDNSRuleAction _); done.
Qed.

Lemma validateEvaluateFrom_spec ts raw : forall i, validateEvaluateFrom i ts raw = None ->
  Forall (fun t => dnsRuleActionType t = RuleActionTypeEvaluate -> dnsRuleActionServer t <> "" ->
                   ts !! dnsRuleActionServer t <> Some DNSTypeFakeIP) raw.
Proof.
  induction raw as [|t raw IH]; intros i H; cbn [validateEvaluateFrom] in H; [constructor|].
  destruct (_ && _) eqn:E; [done|]. constructor; [|by eapply IH]. intros Ha Hs Hf. rewrite Ha in E.
  rewrite String.eqb_refl in E. apply String.eqb_neq in Hs. rewrite Hs in E. cbn in E. by rewrite bool_decide_true in E.
Qed.

Lemma started_admissible_all raw us env allow : Forall2 builtFrom raw us -> forallb decodedReject raw = true ->
  Forall (admissible (fun _ => True) env allow) us.
Proof.
  induction 1 as [|t u raw us Htu Hl IH]; intros H; [constructor|]. cbn [forallb] in H. zbool.
  constructor; [|by apply IH]. unfold admissible. destruct (ruleAction u) eqn:E; try done.
  by eapply builtFrom_reject.
Qed.

Definition notFakeIP (t : DNSTransport) : Prop := isFakeIP t = false.

Lemma started_admissible_fakeip raw us env : Forall2 builtFrom raw us -> forallb decodedReject raw = true ->
  validateEvaluateFakeIPRules raw (Some (transportTypes env.(qTransports))) = None ->
  Forall (admissible notFakeIP env false) us.
Proof.
  cbn [validateEvaluateFakeIPRules]. intros H Hd Hv. apply validateEvaluateFrom_spec in Hv.
  induction H as [|t u raw us Htu Hl IH]; [constructor|]. cbn [forallb] in Hd. zbool.
  inversion_clear Hv as [|? ? Hv1 Hv2]. constructor; [|by apply IH].
  unfold admissible. destruct (ruleAction u) as [|server ro|server ro| |ro|m d|rc an ns ex] eqn:E; try done.
  - intros t' Et Hf. unfold notFakeIP. by destruct (isFakeIP t').
  - intros t' Et. unfold notFakeIP, isFakeIP. apply String.eqb_neq. intros Ef.
    destruct (builtFrom_evaluate t u server ro Htu E) as (H1 & H2 & H3). rewrite H2 in Hv1. apply (Hv1 H1 H3).
    unfold transportTypes. rewrite lookup_fmap, Et. cbn. by rewrite Ef.
  - by eapply builtFrom_reject.
Qed.

(** ** Queries and lookups end *)

Lemma legacyLookupRound_progress env rules now domain options i c s s' i' c' : -1 <= i ->
  legacyLookupRound env rules now domain options i c s = Ret (s', inr (i', c')) -> i < i' < Z.of_nat (length rules).
Proof.
  intros Hi H. unfold legacyLookupRound in H.
  destruct (matchDNS _ _ _ _ _ _ _) as [[[[t rule] j] c1] o1] eqn:E.
  destruct rule as [r|].
  - apply matchDNS_forward in E; [|done].
    destruct (ruleAction r); try (destruct t; [|done]; destruct (client_Lookup _ _ _ _ _) as [cl [a e]];
      destruct (_ || _); [done|]; simplify_eq; done).
    + by destruct (rejectRule _ _ _ _ _) as [[? ?]|].
    + done.
  - destruct t; [|done]. destruct (client_Lookup _ _ _ _ _) as [cl [a e]]. by cbn in H.
Qed.

Lemma legacyLookupLoop_ends env rules clock domain options : forall fuel i c s, -1 <= i ->
  Z.of_nat (length rules) - i <= Z.of_nat fuel -> (0 < fuel)%nat ->
  is_Some (legacyLookupLoop fuel env rules clock domain options i c s).
Proof.
  induction fuel as [|fuel IH]; intros i c s Hi Hf Hp; [lia|]. cbn [legacyLookupLoop].
  destruct (legacyLookupRound _ _ _ _ _ _ _ _) as [[s' [reply|[i' c']]]|] eqn:E; [by eexists..| |by eexists].
  apply legacyLookupRound_progress in E; [|done]. apply IH; lia.
Qed.

(** C11: a DNS router that has started answers: with one more round than it has
    rules, every query and every lookup returns, with a response or an error,
    and never panics, whatever the client answers. *)
Theorem started_router_answers clash tm hr r sets r' sets' : r.(rtClosing) = false ->
  forallb decodedReject r.(rawRules) = true -> Router_Start clash tm hr r sets = Ret (r', sets', None) ->
  forall env fuel options c, (length r'.(rtRules) < fuel)%nat ->
  (forall message s, exists result, Exchange r' env fuel message options c s = Some (Ret result)) /\
  (forall clock sixFirst domain s, exists result, Lookup r' env fuel clock sixFirst domain options c s = Some (Ret result)).
Proof.
  intros Hc Hd Hs env fuel options c Hf. destruct (Router_Start_rules _ _ _ _ _ _ _ Hc Hs) as (Hb & Hc' & _).
  pose proof (fun allow => started_admissible_all _ _ (routerEnv r' env) allow Hb Hd) as Ha. split.
  - intros message s. unfold Exchange. destruct (msgQuestion message) as [|q [|q' l]] eqn:Eq; [by eexists| |by eexists].
    rewrite Hc'. destruct (qoTransport options). { destruct (client_Exchange _ _ _ _ _). by eexists. }
    assert (Hne : msgQuestion message <> []) by by rewrite Eq.
    destruct (negb _).
    + pose proof (exchangeWithRules_runs (fun _ => True) (fun _ => True) ltac:(done) (routerEnv r' env) I true message Hne
        (rtRules r') 0 (queryMetadata c q) options None s (Ha true) I) as H.
      destruct (exchangeWithRules _ _ _ _ _ _ _ _ _) as [[s' [m t|e|i me d [m|]]]|]; [by eexists..|done].
    + destruct (legacyLoop_ends (routerEnv r' env) (rtRules r') message options fuel (-1) (queryMetadata c q) s) as [o Ho]; [lia..|].
      pose proof (legacyLoop_runs (fun _ => True) (fun _ => True) ltac:(done) (routerEnv r' env) I (rtRules r') message options
        Hne (Ha true) fuel (-1) (queryMetadata c q) s I) as H.
      rewrite Ho in *. destruct o as [[s' reply]|]; [by eexists|done].
  - intros clock sixFirst domain s. unfold Lookup. rewrite Hc'. destruct (qoTransport options).
    { destruct (client_Lookup _ _ _ _ _). by eexists. }
    destruct (negb _).
    + pose proof (lookupWithRules_runs (fun _ => True) (fun _ => True) ltac:(done) (routerEnv r' env) I (rtRules r') sixFirst
        (clock 0%nat) (clock 1%nat) domain options (domainMetadata c domain) s (Ha false) I) as H.
      destruct (lookupWithRules _ _ _ _ _ _ _ _ _) as [[s' res]|]; [by eexists|done].
    + destruct (legacyLookupLoop_ends (routerEnv r' env) (rtRules r') clock domain options fuel (-1)
        (domainMetadata c domain) s) as [o Ho]; [lia..|].
      pose proof (legacyLookupLoop_runs (fun _ => True) (fun _ => True) ltac:(done) (routerEnv r' env) I (rtRules r') clock
        domain options (Ha false) fuel (-1) (domainMetadata c domain) s I) as H.
      rewrite Ho in *. destruct o as [[s' [e|res]]|]; [by eexists|by eexists|done].
Qed.

(** Lookups, whose addresses are dialled, never ask a fakeip server: whatever
    property of the client queries to other servers keep is kept by a lookup of a
    started router, provided the default server is not a fakeip one, which the
    transport manager ensures. *)
Theorem lookup_avoids_fakeip clash hr r sets r' sets' env (P : ClientState -> Prop) : r.(rtClosing) = false ->
  forallb decodedReject r.(rawRules) = true ->
  Router_Start clash (Some env.(qTransports)) hr r sets = Ret (r', sets', None) ->
  isFakeIP env.(qTransports).(tmDefault) = false ->
  (forall s t m o check, isFakeIP t = false -> P s -> P (client_Exchange s t m o check).1) ->
  (forall s t d o check, isFakeIP t = false -> P s -> P (client_Lookup s t d o check).1) ->
  forall fuel clock sixFirst domain options c s s' result, options.(qoTransport) = None ->
  Lookup r' env fuel clock sixFirst domain options c s = Some (Ret (s', result)) ->
  P s.(lsClient) -> P s'.(lsClient).
Proof.
  intros Hc Hd Hs Hdef He Hl fuel clock sixFirst domain options c s s' result Ho H HP.
  destruct (Router_Start_rules _ _ _ _ _ _ _ Hc Hs) as (Hb & Hc' & Hv).
  pose proof (started_admissible_fakeip _ _ (routerEnv r' env) Hb Hd Hv) as Ha.
  unfold Lookup in H. rewrite Hc', Ho in H. destruct (negb _).
  - pose proof (lookupWithRules_runs P notFakeIP He (routerEnv r' env) Hdef (rtRules r') sixFirst
      (clock 0%nat) (clock 1%nat) domain options (domainMetadata c domain) s Ha HP) as H1.
    destruct (lookupWithRules _ _ _ _ _ _ _ _ _) as [[s1 res]|]; [|done]. by simplify_eq.
  - pose proof (legacyLookupLoop_runs P notFakeIP Hl (routerEnv r' env) Hdef (rtRules r') clock
      domain options Ha fuel (-1) (domainMetadata c domain) s HP) as H1.
    destruct (legacyLookupLoop _ _ _ _ _ _ _ _ _) as [[[s1 [e|res]]|]|]; [..|done|done]; by simplify_eq.
Qed.

(** ** What a lookup returns *)

Lemma filterAddresses_family l q :
  (q = TypeA -> Forall (fun a => Is4 a = true) (filterAddressesByQueryType l q)) /\
  (q = TypeAAAA -> Forall (fun a => Is6 a = true) (filterAddressesByQueryType l q)).
Proof.
  split; intros ->; unfold filterAddressesByQueryType; cbn; apply Forall_forall; intros a Ha;
    apply list_elem_of_In, filter_In in Ha; tauto.
Qed.

Lemma lookupWithRulesType_family env rules now domain q options c s s' l e :
  lookupWithRulesType env rules now domain q options c s = Ret (s', (l, e)) ->
  (q = TypeA -> Forall (fun a => Is4 a = true) l) /\ (q = TypeAAAA -> Forall (fun a => Is6 a = true) l).
Proof.
  unfold lookupWithRulesType. destruct (exchangeWithRules _ _ _ _ _ _ _ _ _) as [[cl [resp t|e1|i m d resp]]|]; [..|done].
  - destruct (negb _); intros [= <- <- <-]; [by split; constructor|]. apply filterAddresses_family.
  - intros [= <- <- <-]. by split; constructor.
  - destruct (rejectRule _ _ _ _ _) as [[drops e1]|]; [|done]. intros [= <- <- <-]. by split; constructor.
Qed.

(** The families of the addresses in the order a strategy asks for. *)
Definition familyOrder (strategy : Z) (l : list Addr) : Prop :=
  exists l4 l6, Forall (fun a => Is4 a = true) l4 /\ Forall (fun a => Is6 a = true) l6 /\
    (strategy = DomainStrategyIPv4Only -> l6 = []) /\ (strategy = DomainStrategyIPv6Only -> l4 = []) /\
    l = (if strategy =? DomainStrategyPreferIPv6 then l6 ++ l4 else l4 ++ l6).

Lemma lookupWithRules_order env rules sixFirst now4 now6 domain options c s s' l e :
  lookupWithRules env rules sixFirst now4 now6 domain options c s = Ret (s', (l, e)) ->
  familyOrder (resolveLookupStrategy env.(qDefaultStrategy) options) l.
Proof.
  unfold lookupWithRules. set (st := resolveLookupStrategy _ _). intros H.
  destruct (Z.eqb_spec st DomainStrategyIPv4Only) as [E4|N4].
  { apply lookupWithRulesType_family in H as [H _]. exists l, []. rewrite E4. cbn. rewrite app_nil_r.
    split_and!; [by apply H|done..]. }
  destruct (Z.eqb_spec st DomainStrategyIPv6Only) as [E6|N6].
  { apply lookupWithRulesType_family in H as [_ H]. exists [], l. rewrite E6. cbn.
    split_and!; [done|by apply H|done..]. }
  assert (Hboth : forall l4 l6 e4 e6, Forall (fun a => Is4 a = true) l4 -> Forall (fun a => Is6 a = true) l6 ->
    (if nonempty l4 || nonempty l6 then (sortAddresses l4 l6 st, None) else ([], groupError e4 e6)) = (l, e) ->
    familyOrder st l).
  { intros l4 l6 e4 e6 H4 H6 Hl. destruct (_ || _) eqn:En; simplify_eq.
    - exists l4, l6. unfold sortAddresses. by destruct (st =? DomainStrategyPreferIPv6).
    - exists [], []. destruct (st =? DomainStrategyPreferIPv6); by split_and!. }
  destruct sixFirst.
  - destruct (lookupWithRulesType _ _ now6 _ _ _ _ _) as [[s1 [l6 e6]]|] eqn:F6; [|done].
    destruct (lookupWithRulesType _ _ now4 _ _ _ _ _) as [[s2 [l4 e4]]|] eqn:F4; [|done].
    apply lookupWithRulesType_family in F6 as [_ F6]. apply lookupWithRulesType_family in F4 as [F4 _].
    injection H as -> H. by eapply Hboth; [apply F4|apply F6|].
  - destruct (lookupWithRulesType _ _ now4 _ _ _ _ _) as [[s1 [l4 e4]]|] eqn:F4; [|done].
    destruct (lookupWithRulesType _ _ now6 _ _ _ _ _) as [[s2 [l6 e6]]|] eqn:F6; [|done].
    apply lookupWithRulesType_family in F6 as [_ F6]. apply lookupWithRulesType_family in F4 as [F4 _].
    injection H as -> H. by eapply Hboth; [apply F4|apply F6|].
Qed.

(** A lookup without error has at least one address.  Through rules with
    responses the addresses are those of the families the strategy allows, IPv6
    first when it prefers IPv6 and IPv4 first otherwise, whatever the servers put
    in their answers. *)
Theorem lookup_result r env fuel clock sixFirst domain options c s s' l e :
  Lookup r env fuel clock sixFirst domain options c s = Some (Ret (s', (l, e))) ->
  (e = None -> l <> []) /\
  (r.(rtClosing) = false -> options.(qoTransport) = None -> r.(rtLegacyDNSMode) = false ->
   familyOrder (resolveLookupStrategy r.(rtDefaultStrategy) options) l).
Proof.
  unfold Lookup. destruct (rtClosing r); [by intros [= <- <- <-]|].
  assert (Hp : forall res, printResult domain res = (l, e) -> (e = None -> l <> []) /\ res.1 = l).
  { intros [l0 e0] H. unfold printResult in H. destruct e0; cbn in H; simplify_eq; [done|].
    by destruct l; simplify_eq. }
  destruct (qoTransport options).
  { destruct (client_Lookup _ _ _ _ _) as [cl res]. intros H. injection H as _ H. by apply Hp in H as [H _]. }
  destruct (rtLegacyDNSMode r); cbn [negb].
  - destruct (legacyLookupLoop _ _ _ _ _ _ _ _ _) as [[[s1 [e1|res]]|]|]; [..|done|done].
    + by intros [= <- <- <-].
    + intros H. injection H as _ H. by apply Hp in H as [H _].
  - destruct (lookupWithRules _ _ _ _ _ _ _ _ _) as [[s1 res]|] eqn:E; [|done]. intros H. injection H as _ H.
    apply Hp in H as [H1 H2]. split; [done|]. intros _ _ _. destruct res as [l1 e1]. cbn in H2. subst l1.
    by eapply lookupWithRules_order in E.
Qed.

(** ** The flood counter *)

(** The counter after rejections at the given times, oldest first. *)
Definition rejectHistory (times : list Z) : list Z :=
  fold_left (fun counter now =>
    match reject_Error RuleActionRejectMethodDefault false now counter with Ret (counter, _) => counter | Panic => counter end)
    times [].

Definition recent (now : Z) (times : list Z) : list Z := List.filter (fun t => now - t <=? floodWindow) times.

Lemma Sub_window now t : (Sub now t <=? floodWindow) = (now - t <=? floodWindow).
Proof.
  unfold Sub, floodWindow, second, min_int64, max_int64. apply eq_true_iff_eq.
  rewrite !Z.leb_le. lia.
Qed.

Lemma reject_Error_flood now counter : exists e,
  reject_Error RuleActionRejectMethodDefault false now counter = Ret (recent now counter ++ [now], Some (RejectedError (Some e))) /\
  e = if (50 <=? length (recent now counter))%nat then ErrDrop else ErrReset.
Proof.
  unfold reject_Error. rewrite String.eqb_refl.
  replace (List.filter (fun t => Sub now t <=? floodWindow) counter) with (recent now counter)
    by (apply List.filter_ext; intros t; by rewrite Sub_window).
  rewrite length_app. cbn [length].
  destruct (Nat.ltb_spec 50 (length (recent now counter) + 1)), (Nat.leb_spec 50 (length (recent now counter)));
    [eauto|lia|lia|eauto].
Qed.

Lemma recent_recent now t l : t <= now -> recent now (recent t l) = recent now l.
Proof.
  intros Ht. unfold recent. induction l as [|x l IH]; [done|]. cbn [List.filter].
  destruct (Z.leb_spec (t - x) floodWindow); cbn [List.filter]; [by rewrite IH|].
  destruct (Z.leb_spec (now - x) floodWindow); [lia|done].
Qed.

Lemma rejectHistory_recent times : forall now, StronglySorted Z.le (times ++ [now]) ->
  recent now (rejectHistory times) = recent now times.
Proof.
  induction times as [|t times IH] using rev_ind; intros now H; [done|].
  unfold rejectHistory. rewrite fold_left_app. cbn [fold_left]. fold (rejectHistory times).
  destruct (reject_Error_flood t (rejectHistory times)) as (e & -> & _).
  assert (Ht : t <= now) by (eapply StronglySorted_app_1_elem_of; [exact H|set_solver..]).
  apply StronglySorted_app_1_l in H. unfold recent at 1 3. rewrite !List.filter_app. f_equal.
  fold (recent now (recent t (rejectHistory times))). rewrite (IH t H). by apply recent_recent.
Qed.

(** Rejecting with the default method resets connections until fifty
    rejections fall into the last thirty seconds, and drops from then on: the
    counter the action keeps decides exactly by its history. *)
Theorem reject_flood_exact times now : StronglySorted Z.le (times ++ [now]) ->
  exists counter,
    reject_Error RuleActionRejectMethodDefault false now (rejectHistory times) =
      Ret (counter, Some (RejectedError (Some (if (50 <=? length (recent now times))%nat then ErrDrop else ErrReset)))) /\
    (length counter <= S (length times))%nat.
Proof.
  intros H. destruct (reject_Error_flood now (rejectHistory times)) as (e & -> & He).
  rewrite rejectHistory_recent in He |- * by done. subst e. eexists. split; [done|].
  rewrite length_app. cbn. unfold recent. pose proof (List.filter_length_le (fun t => now - t <=? floodWindow) times). lia.
Qed.

End Started.
