(* ===== verification/DNSDemo.v ===== *)
(** * A concrete DNS router

    A client that answers every query with the address of its transport, rules in
    legacy mode, rules with responses and rules with a fakeip server, evaluated;
    and the instances of the theorems on the router. *)

From S2P Require Import Prelude GoStrings GoTime RuleState RuleItems RuleMatch RuleBuild RuleTheorems DNSRules DNSRouter DNSLookup DNSRouterProps DNSRouterRefs DNSLookupTheorems.

Local Open Scope string_scope.
Local Open Scope list_scope.
Local Open Scope Z_scope.

Module DNSDemo.
Import RuleDemo.

(** The transport [near] answers 10.0.0.9, every other one 1.1.1.1; a response
    the checker refuses is an error.  The state of the client is the list of the
    types of the transports it has asked. *)
Definition answerOf (t : DNSTransport) (m : Msg) : Msg :=
  let ip := if String.eqb t.(transportTag) "near" then [10; 0; 0; 9] else [1; 1; 1; 1] in
  mkMsg m.(msgId) true false true true RcodeSuccess m.(msgQuestion) [mkRR (mkHeader "www.example.com." TypeA ClassINET 60) (RD_A ip)] [] [].

#[export] Instance demoDNS : DNSEnv (RE := demoEnv) := {|
  ClientState := list string;
  client_Exchange := fun s t m o check =>
    let response := answerOf t m in
    (s ++ [t.(transportType)], match check with
          | Some f => if f (Some response) then Ok response else Err (Errorf "response rejected")
          | None => Ok response
          end);
  isResponseRejected := fun e => String.eqb e "response rejected";
  ErrDrop := Errorf "drop";
  IsFqdn := fun s => String.eqb (String.substring (String.length s - 1) 1 s) ".";
|}.

#[export] Instance demoLookup : LookupEnv (DE := demoDNS) := {|
  client_Lookup := fun s t d o check =>
    let response := answerOf t (mkMsg 0 false false true false 0 [mkQuestion d TypeA ClassINET] [] [] []) in
    (s ++ [t.(transportType)],
     match check with
     | Some f => if f (Some response) then (DNSResponseAddresses (Some response), None) else ([], Some (Errorf "response rejected"))
     | None => (DNSResponseAddresses (Some response), None)
     end);
  RejectedError := fun _ => Errorf "rejected";
  RcodeError := fun _ => Errorf "rcode";
  ErrReset := Errorf "reset";
  groupError := fun e4 e6 => match e4 with Some e => Some e | None => e6 end;
  Fqdn := fun d => d +:+ ".";
|}.

Definition route (server : string) : DNSActionOptions :=
  mkDNSActionOptions "route" server noRouteOptions noRouteOptions "" false None [] [] [].

(** [{domain: www.example.com, ip_cidr/ip_is_private..., server}] *)
Definition domainRule (private : bool) (server : string) : OptionTree DNSOptions DNSActionOptions :=
  OptionRule RuleTypeDefault
    (mkDNSOptions [] 0 [] [] [] [] [] [] [] [] [] false [] [] [] [] [] [] [] [] [] [] [] "" [] false false [] [] None None
       [] [] [] [] false false [] private None [] [] [] false [] [] [] false false false (route server)) "" [] false noAction.

(** A rule on the rule-set [office], inverted. *)
Definition setRule : OptionTree DNSOptions DNSActionOptions :=
  OptionRule RuleTypeDefault
    (mkDNSOptions [] 0 [] ["udp"] [] [] [] [] [] [] [] false [] [] [] [] [] [] [] [] [] [] [] "" [] false false [] [] None None
       [] [] [] ["office"] true false [] false None [] [] [] true [] [] [] false false false (route "far")) "" [] false noAction.

Definition tcpRule (action : DNSActionOptions) : OptionTree DNSOptions DNSActionOptions :=
  OptionRule RuleTypeDefault
    (mkDNSOptions [] 0 [] ["tcp"] [] [] [] [] [] [] [] false [] [] [] [] [] [] [] [] [] [] [] "" [] false false [] [] None None
       [] [] [] [] false false [] false None [] [] [] false [] [] [] false false false action) "" [] false noAction.

Definition evaluateRule : OptionTree DNSOptions DNSActionOptions :=
  tcpRule (mkDNSActionOptions "evaluate" "far" noRouteOptions noRouteOptions "" false None [] [] []).

Definition respondRule : OptionTree DNSOptions DNSActionOptions :=
  OptionRule RuleTypeDefault
    (mkDNSOptions [] 0 [] [] [] [] [] [] [] [] [] false [] [] [] [] [] [] [] [] [] [] [] "" [] false false [] [] None None
       [] [] [] [] false true [] true None [] [] [] true [] [] [] false false false
       (mkDNSActionOptions "respond" "" noRouteOptions noRouteOptions "" false None [] [] [])) "" [] false noAction.

Definition transports : TransportManager :=
  mkTransportManager {[ "near" := mkDNSTransport "near" "udp"; "far" := mkDNSTransport "far" "udp"; "fake" := mkDNSTransport "fake" "fakeip" ]}
    (mkDNSTransport "default" "udp").

Definition query : Msg := mkMsg 7 false false true false 0 [mkQuestion "www.example.com." TypeA ClassINET] [] [] [].

Definition queryEnv (sets : gmap string RuleSet) : QueryEnv := mkQueryEnv net sets transports DomainStrategyPreferIPv4.

Definition noOptions : DNSQueryOptions := mkDNSQueryOptions None 0 0 false None None.

Definition routerOf (raw : list (OptionTree DNSOptions DNSActionOptions)) : Router :=
  mkRouter raw [] DomainStrategyPreferIPv4 true false false false.

Definition started (raw : list (OptionTree DNSOptions DNSActionOptions)) : Router * gmap string RuleSet :=
  match Router_Start false (Some transports) true (routerOf raw) demoSets with
  | Ret (r, sets, _) => (r, sets)
  | Panic => (routerOf raw, demoSets)
  end.

(** The first two rules want a private address: [far]'s answer is rejected,
    [near]'s is taken in the second round. *)
Definition legacyRaw : list (OptionTree DNSOptions DNSActionOptions) := [domainRule true "far"; domainRule true "near"].

Example legacy_run : rtLegacyDNSMode (started legacyRaw).1 = true /\
  Exchange (started legacyRaw).1 (queryEnv (started legacyRaw).2) 3 query noOptions conn [] =
    Some (Ret (["udp"; "udp"], Ok (answerOf (mkDNSTransport "near" "udp") query), [(Addr4 0x0A000009, "www.example.com", 60)])).
Proof. vm_compute. done. Qed.

(** Evaluate with [far], respond with its answer unless it is private. *)
Definition responseRaw : list (OptionTree DNSOptions DNSActionOptions) := [evaluateRule; respondRule; setRule].

Example response_run : rtLegacyDNSMode (started responseRaw).1 = false /\
  refs <$> (started responseRaw).2 !! "office" = Some 1 /\
  Exchange (started responseRaw).1 (queryEnv (started responseRaw).2) 4 query noOptions conn [] =
    Some (Ret (["udp"], Ok (answerOf (mkDNSTransport "far" "udp") query), [(Addr4 0x01010101, "www.example.com", 60)])).
Proof. vm_compute. done. Qed.

(** A query may be answered by the fakeip server, a lookup goes on to the next
    rule: evaluate with [far], and respond. *)
Definition fakeRaw : list (OptionTree DNSOptions DNSActionOptions) := [tcpRule (route "fake"); evaluateRule; respondRule].

Definition fresh : LookupState := mkLookupState [] ∅.

Definition look (raw : list (OptionTree DNSOptions DNSActionOptions)) :=
  Lookup (started raw).1 (queryEnv (started raw).2) 10 (fun _ => 0) true "www.example.com" noOptions conn fresh.

Example fakeip_run :
  match Exchange (started fakeRaw).1 (queryEnv (started fakeRaw).2) 10 query noOptions conn [] with
  | Some (Ret (asked, _, _)) => asked = ["fakeip"] | _ => False end /\
  match look fakeRaw with
  | Some (Ret (s, result)) => s.(lsClient) = ["udp"; "udp"] /\ result = ([Addr4 0x01010101], None) | _ => False end.
Proof. vm_compute. done. Qed.

(** In legacy mode the answer of [far] is refused, as for the query. *)
Example legacy_lookup_run :
  match look legacyRaw with
  | Some (Ret (s, result)) => s.(lsClient) = ["udp"; "udp"] /\ result = ([Addr4 0x0A000009], None) | _ => False end.
Proof. vm_compute. done. Qed.

(** The fifty-first rejection within thirty seconds is a drop. *)
Example flood_run :
  reject_Error RuleActionRejectMethodDefault false 20 (rejectHistory (replicate 50 10)) =
    Ret (replicate 50 10 ++ [20], Some (RejectedError (Some ErrDrop))).
Proof. vm_compute. done. Qed.

End DNSDemo.

Import RuleDemo DNSDemo.

(** ** Instances of the theorems *)

Lemma exchange_ends_witness :
  is_Some (Exchange (started legacyRaw).1 (queryEnv (started legacyRaw).2) 3 query noOptions conn []).
Proof.
  refine (exchange_ends (started legacyRaw).1 (queryEnv (started legacyRaw).2) 3 query noOptions conn [] _).
  vm_compute. repeat constructor.
Defined.

Lemma no_strategy_without_legacy_mode_witness : existsb treeHasStrategy responseRaw = false.
Proof.
  apply (no_strategy_without_legacy_mode (Some demoSets) responseRaw ∅ (mkModeFlags true false false)).
  vm_compute. reflexivity.
Defined.

Lemma response_rules_follow_evaluate_witness :
  exists j u, (j < 1)%nat /\ responseRaw !! j = Some u /\ dnsRuleActionType u = RuleActionTypeEvaluate.
Proof.
  refine (response_rules_follow_evaluate responseRaw _ 1%nat respondRule _ _);
    [vm_compute; reflexivity|reflexivity|vm_compute; reflexivity].
Defined.

(** Reloading the rule-set [office] of the running router with a domain rule. *)
Lemma reload_keeps_response_mode_witness : exists s',
  runsWithoutLegacy (started responseRaw).1 (<[ "office" := s' ]> (started responseRaw).2) /\
  s'.(metadata).(ContainsIPCIDRRule) = false.
Proof.
  assert (E : match (started responseRaw).2 !! "office" with
    | Some s => match reloadRules true (Some (ValidateRuleSetMetadataUpdate (started responseRaw).1 (Some (started responseRaw).2)))
                  "office" [domainOption] s with
                | Ret (s', None) => negb s'.(metadata).(ContainsIPCIDRRule) | _ => false end
    | None => false end = true) by (vm_compute; reflexivity).
  destruct ((started responseRaw).2 !! "office") as [s|] eqn:E1; [|discriminate E].
  destruct (reloadRules true (Some (ValidateRuleSetMetadataUpdate (started responseRaw).1 (Some (started responseRaw).2)))
    "office" [domainOption] s) as [[s' [e|]]|] eqn:E2; [discriminate E| |discriminate E].
  exists s'. split; [|apply negb_true_iff; exact E].
  refine (reload_keeps_response_mode (started responseRaw).1 (started responseRaw).2 true "office" s
    [domainOption] s' None _ E1 E2).
  split; [vm_compute; reflexivity|]. split; [vm_compute; reflexivity|]. split; [vm_compute; reflexivity|].
  split; [intros H; discriminate H|]. exists (mkModeFlags true false false). vm_compute. reflexivity.
Defined.

Lemma router_references_balanced_witness :
  exists closed, Router_Close (started responseRaw).1 (started responseRaw).2 = Ret (closed, demoSets).
Proof.
  assert (Hok : refsOk (Z.of_nat (length (rawTags (routerOf responseRaw)))) demoSets).
  { intros tag s E. unfold demoSets in E. apply lookup_singleton_Some in E as [<- <-]. cbn. lia. }
  pose proof (router_references_balanced false (Some transports) true (routerOf responseRaw) demoSets eq_refl eq_refl Hok) as H.
  assert (E : match Router_Start false (Some transports) true (routerOf responseRaw) demoSets with
              | Ret (_, _, None) => true | _ => false end = true) by (vm_compute; reflexivity).
  unfold started. revert H E. generalize (Router_Start false (Some transports) true (routerOf responseRaw) demoSets).
  intros [[[r' sets'] [e|]]|] H E; [discriminate E| |destruct H].
  destruct H as (closed & H & _). exists closed. exact H.
Defined.

(** A start of the demonstration router, with room for its rules in the fuel. *)
Lemma started_router_answers_witness : exists result, look fakeRaw = Some (Ret result).
Proof.
  assert (E : match Router_Start false (Some transports) true (routerOf fakeRaw) demoSets with
              | Ret (r', _, None) => (length (rtRules r') <? 10)%nat | _ => false end = true) by (vm_compute; reflexivity).
  unfold look, started. destruct (Router_Start false (Some transports) true (routerOf fakeRaw) demoSets)
    as [[[r' sets'] [e|]]|] eqn:Es; [discriminate E| |discriminate E].
  apply Nat.ltb_lt in E.
  refine (proj2 (started_router_answers false (Some transports) true (routerOf fakeRaw) demoSets r' sets' eq_refl _ Es
    (queryEnv sets') 10%nat noOptions conn E) (fun _ => 0) true "www.example.com" fresh).
  vm_compute. reflexivity.
Defined.

Lemma lookup_avoids_fakeip_witness :
  match look fakeRaw with Some (Ret (s, _)) => Forall (fun ty => ty <> DNSTypeFakeIP) s.(lsClient) | _ => False end.
Proof.
  assert (E : match Router_Start false (Some transports) true (routerOf fakeRaw) demoSets with
              | Ret (_, _, None) => true | _ => false end = true) by (vm_compute; reflexivity).
  assert (E' : match look fakeRaw with Some (Ret _) => true | _ => false end = true) by (vm_compute; reflexivity).
  unfold look, started in *. destruct (Router_Start false (Some transports) true (routerOf fakeRaw) demoSets)
    as [[[r' sets'] [e|]]|] eqn:Es; [discriminate E| |discriminate E]. cbn [fst snd] in *.
  destruct (Lookup r' (queryEnv sets') 10 (fun _ => 0) true "www.example.com" noOptions conn fresh)
    as [[[s' result]|]|] eqn:El; [|discriminate E'|discriminate E'].
  refine (lookup_avoids_fakeip false true (routerOf fakeRaw) demoSets r' sets' (queryEnv sets')
    (Forall (fun ty => ty <> DNSTypeFakeIP)) eq_refl _ Es eq_refl _ _ 10%nat (fun _ => 0) true "www.example.com" noOptions conn
    fresh s' result eq_refl El _); [vm_compute; reflexivity| | |constructor].
  - intros s t m o check Ht Hs. apply Forall_app. split; [exact Hs|]. constructor; [|constructor].
    apply String.eqb_neq. exact Ht.
  - intros s t d o check Ht Hs. apply Forall_app. split; [exact Hs|]. constructor; [|constructor].
    apply String.eqb_neq. exact Ht.
Defined.

Lemma lookup_result_witness : [Addr4 0x01010101] <> [] /\ familyOrder DomainStrategyPreferIPv4 [Addr4 0x01010101].
Proof.
  assert (E : match look fakeRaw with
              | Some (Ret (_, (l, e))) => bool_decide (l = [Addr4 0x01010101]) && negb (isSome e) | _ => false end = true)
    by (vm_compute; reflexivity).
  destruct (look fakeRaw) as [[[s' [l [e|]]]|]|] eqn:El; try discriminate E.
  { rewrite andb_false_r in E. discriminate E. }
  rewrite andb_true_r in E. apply bool_decide_eq_true in E. subst l.
  destruct (lookup_result _ _ _ _ _ _ _ _ _ _ _ _ El) as [H1 H2]. split; [apply H1; reflexivity|].
  refine (H2 _ eq_refl _); vm_compute; reflexivity.
Defined.

Lemma reject_flood_exact_witness : exists counter,
  reject_Error RuleActionRejectMethodDefault false (32 * second) (rejectHistory [0; second; 5 * second]) =
    Ret (counter, Some (RejectedError (Some ErrReset))) /\ (length counter <= 4)%nat.
Proof.
  refine (reject_flood_exact [0; second; 5 * second] (32 * second) _).
  repeat constructor; vm_compute; intros H; discriminate H.
Defined.
