(* ===== verification/GoBinary.v ===== *)
(** * Reading and writing bytes

    What the file formats use of [io], [bufio] and [encoding/binary]: a reader is a
    function on the bytes that are left.  A read answers the value and the rest, or
    an error; making a slice longer than an allocation may be panics.

    [reads f w a] says that [f] reads the bytes [w] as [a], whatever follows; the
    formats' round trips are derivations of this relation. *)

From S2P Require Import Prelude GoStrings GoCrypto.

Local Open Scope string_scope.
Local Open Scope list_scope.
Local Open Scope Z_scope.

(** The largest allocation of the Go run time on 64-bit platforms. *)
Definition maxAlloc : Z := 2 ^ 48.

Section Reader.
Context {EX : Exceptions}.

Definition ioEOF : error := Errorf "EOF".
Definition ioErrUnexpectedEOF : error := Errorf "unexpected EOF".
Definition errOverflow : error := Errorf "binary: varint overflows a 64-bit integer".

Definition Rd (A : Type) : Type := list Z -> outcome (result error (A * list Z)).

Definition rdRet {A} (a : A) : Rd A := fun l => Ret (Ok (a, l)).
Definition rdErr {A} (e : error) : Rd A := fun _ => Ret (Err e).
Definition rdPanic {A} : Rd A := fun _ => Panic.
Definition rdBind {A B} (m : Rd A) (f : A -> Rd B) : Rd B := fun l =>
  match m l with
  | Panic => Panic
  | Ret (Err e) => Ret (Err e)
  | Ret (Ok (a, l)) => f a l
  end.

(** [ReadByte] *)
Definition ReadByte : Rd Z := fun l => match l with [] => Ret (Err ioEOF) | b :: l => Ret (Ok (b, l)) end.

(** [io.ReadFull] into a buffer of [n] bytes. *)
Definition ReadFull (n : nat) : Rd (list Z) := fun l =>
  if (n <=? length l)%nat then Ret (Ok (take n l, drop n l))
  else match l with [] => Ret (Err ioEOF) | _ => Ret (Err ioErrUnexpectedEOF) end.

(** [make([]T, n)] for elements of [size] bytes. *)
Definition makeSlice (size n : Z) : Rd () := fun l => if maxAlloc <? size * n then Panic else Ret (Ok (tt, l)).

(** The number of bytes, the most significant first. *)
Fixpoint be_value (acc : Z) (l : list Z) : Z :=
  match l with [] => acc | b :: l => be_value (acc * 256 + b) l end.

(** [binary.Read] in big-endian order of an unsigned integer of [n] bytes. *)
Definition ReadUint (n : nat) : Rd Z := rdBind (ReadFull n) (fun b => rdRet (be_value 0 b)).

(** Of an [int64]. *)
Definition ReadInt64 : Rd Z := rdBind (ReadUint 8) (fun z => rdRet (wrap64 z)).

(** Of a [bool]: any byte but zero is true. *)
Definition ReadBool : Rd bool := rdBind (ReadUint 1) (fun z => rdRet (negb (z =? 0))).

(** [binary.ReadUvarint]; [i] is the index of the next byte, [n] rounds are left. *)
Fixpoint readUvarintFrom (n : nat) (i : Z) (x : Z) : Rd Z := fun l =>
  match n with
  | O => Ret (Err errOverflow)
  | S n =>
      match l with
      | [] => Ret (Err (if 0 <? i then ioErrUnexpectedEOF else ioEOF))
      | b :: l =>
          if b <? 0x80 then
            if (i =? 9) && (1 <? b) then Ret (Err errOverflow)
            else Ret (Ok (Z.lor x (wrapu 64 (Z.shiftl b (7 * i))), l))
          else readUvarintFrom n (i + 1) (Z.lor x (wrapu 64 (Z.shiftl (Z.land b 0x7f) (7 * i)))) l
      end
  end.

Definition ReadUvarint : Rd Z := readUvarintFrom 10 0 0.

(** A loop that reads [n] elements. *)
Fixpoint readMany {A} (n : nat) (f : Rd A) : Rd (list A) :=
  match n with
  | O => rdRet []
  | S n => rdBind f (fun a => rdBind (readMany n f) (fun l => rdRet (a :: l)))
  end.

(** A length and that many bytes. *)
Definition readBytes : Rd (list Z) :=
  rdBind ReadUvarint (fun n => rdBind (makeSlice 1 n) (fun _ => ReadFull (Z.to_nat n))).

(** ** Reading what was written *)

Definition reads {A} (f : Rd A) (w : list Z) (a : A) : Prop := forall rest, f (w ++ rest) = Ret (Ok (a, rest)).

Lemma reads_ret {A} (a : A) : reads (rdRet a) [] a.
Proof. by intros rest. Qed.

Lemma reads_bind {A B} (m : Rd A) (f : A -> Rd B) w1 w2 a b :
  reads m w1 a -> reads (f a) w2 b -> reads (rdBind m f) (w1 ++ w2) b.
Proof. intros H1 H2 rest. unfold rdBind. by rewrite <-app_assoc, H1, H2. Qed.

(** The last step of a sequence, which reads nothing more. *)
Lemma reads_map {A B} (m : Rd A) (f : A -> B) w a : reads m w a -> reads (rdBind m (fun a => rdRet (f a))) w (f a).
Proof. intros H rest. unfold rdBind. by rewrite H. Qed.

Lemma reads_map_eq {A B} (m : Rd A) (f : A -> B) w a b : f a = b -> reads m w a -> reads (rdBind m (fun a => rdRet (f a))) w b.
Proof. intros <-. apply reads_map. Qed.

Lemma reads_skip {A B} (m : Rd A) (f : A -> Rd B) w a b : reads m [] a -> reads (f a) w b -> reads (rdBind m f) w b.
Proof. intros H1 H2. by apply (reads_bind m f [] w a b). Qed.

Lemma reads_ReadByte b : reads ReadByte [b] b.
Proof. by intros rest. Qed.

Lemma reads_ReadFull l : reads (ReadFull (length l)) l l.
Proof.
  intros rest. unfold ReadFull. rewrite (proj2 (Nat.leb_le _ _)) by (rewrite length_app; lia).
  by rewrite take_app_length, drop_app_length.
Qed.

Lemma reads_makeSlice size n : size * n <= maxAlloc -> reads (makeSlice size n) [] tt.
Proof. intros H rest. unfold makeSlice. by rewrite (proj2 (Z.ltb_ge _ _)). Qed.

Lemma be_value_acc l acc : be_value acc l = acc * 256 ^ Z.of_nat (length l) + be_value 0 l.
Proof.
  revert acc. induction l as [|b l IH]; intros acc; cbn [be_value length]; [lia|].
  rewrite IH, (IH (0 * 256 + b)). rewrite Nat2Z.inj_succ, Z.pow_succ_r by lia. ring.
Qed.

Lemma be_value_app l1 l2 acc : be_value acc (l1 ++ l2) = be_value (be_value acc l1) l2.
Proof. revert acc. induction l1 as [|b l1 IH]; intros acc; cbn; [done|apply IH]. Qed.

Lemma be_value_be_bytes n z : 0 <= z < 256 ^ Z.of_nat n -> be_value 0 (be_bytes n z) = z.
Proof.
  revert z. induction n as [|n IH]; intros z Hz; cbn [be_bytes].
  - cbn in *. lia.
  - rewrite be_value_app, IH; cbn [be_value].
    + pose proof (Z.div_mod z 256). lia.
    + rewrite Nat2Z.inj_succ, Z.pow_succ_r in Hz by lia.
      split; [apply Z.div_pos; lia|apply Z.div_lt_upper_bound; lia].
Qed.

Lemma be_bytes_range n z : byte_list (be_bytes n z).
Proof.
  revert z. induction n as [|n IH]; intros z; cbn [be_bytes]; [constructor|].
  apply Forall_app. split; [apply IH|]. constructor; [|constructor]. by apply Z.mod_pos_bound.
Qed.

Lemma reads_ReadUint n z : 0 <= z < 256 ^ Z.of_nat n -> reads (ReadUint n) (be_bytes n z) z.
Proof.
  intros Hz. pose proof (be_value_be_bytes n z Hz) as E. rewrite <-E at 2. apply reads_map with (f := be_value 0).
  rewrite <-(be_bytes_length n z) at 1. apply reads_ReadFull.
Qed.

Lemma reads_uint8 b : 0 <= b < 256 -> reads (ReadUint 1) [b] b.
Proof. intros Hb. pose proof (reads_ReadUint 1 b Hb) as H. cbn in H. by rewrite Z.mod_small in H. Qed.

Lemma wrap64_mod z : int64_range z -> wrap64 (z mod 2 ^ 64) = z.
Proof.
  unfold int64_range, min_int64, max_int64, wrap64. intros H. rewrite Zplus_mod_idemp_l, Z.mod_small; lia.
Qed.

Lemma reads_ReadInt64 z : int64_range z -> reads ReadInt64 (be_bytes 8 (z mod 2 ^ 64)) z.
Proof.
  intros Hz. rewrite <-(wrap64_mod z Hz) at 2. apply reads_map with (f := wrap64), reads_ReadUint.
  exact (Z.mod_pos_bound z (2 ^ 64) eq_refl).
Qed.

Lemma reads_ReadBool b : reads ReadBool [if (b : bool) then 1 else 0] b.
Proof. by intros rest; destruct b. Qed.

Lemma reads_readMany {A} (f : Rd A) (w : A -> list Z) l :
  Forall (fun a => reads f (w a) a) l -> reads (readMany (length l) f) (List.concat (map w l)) l.
Proof.
  induction 1 as [|a l Ha _ IH]; cbn [readMany length map List.concat]; [apply reads_ret|].
  eapply reads_bind; [exact Ha|]. apply reads_map with (f := cons a), IH.
Qed.

(** Two continuations that agree on what is read. *)
Lemma rdBind_ext {A B} (m : Rd A) (f g : A -> Rd B) l :
  (forall a l', m l = Ret (Ok (a, l')) -> f a l' = g a l') -> rdBind m f l = rdBind m g l.
Proof. intros H. unfold rdBind. destruct (m l) as [[[a l']|]|] eqn:E; [|done|done]. by apply H. Qed.

(** ** Reading takes bytes away *)

Definition shrinks {A} (f : Rd A) : Prop := forall l a l', f l = Ret (Ok (a, l')) -> (length l' <= length l)%nat.

Lemma shrinks_ret {A} (a : A) : shrinks (rdRet a).
Proof. intros l x l' [= _ <-]. lia. Qed.

Lemma shrinks_err {A} e : shrinks (A := A) (rdErr e).
Proof. by intros l x l'. Qed.

Lemma shrinks_bind {A B} (m : Rd A) (f : A -> Rd B) : shrinks m -> (forall a, shrinks (f a)) -> shrinks (rdBind m f).
Proof.
  intros Hm Hf l b l' E. unfold rdBind in E. destruct (m l) as [[[a l1]|]|] eqn:E1; [|done|done].
  apply Hm in E1. apply Hf in E. lia.
Qed.

Lemma shrinks_ReadByte : shrinks ReadByte.
Proof. intros [|b l] x l' E; [done|]. injection E as _ <-. cbn. lia. Qed.

Lemma shrinks_ReadFull n : shrinks (ReadFull n).
Proof.
  intros l x l' E. unfold ReadFull in E. destruct (n <=? length l)%nat; [|by destruct l]. injection E as _ <-. rewrite length_drop. lia.
Qed.

Lemma shrinks_ReadUint n : shrinks (ReadUint n).
Proof. apply shrinks_bind; [apply shrinks_ReadFull|intros; apply shrinks_ret]. Qed.

Lemma shrinks_makeSlice size n : shrinks (makeSlice size n).
Proof. intros l x l' E. unfold makeSlice in E. destruct (_ <? _); [done|]. injection E as _ <-. lia. Qed.

Lemma shrinks_ReadUvarint : shrinks ReadUvarint.
Proof.
  assert (H : forall n i x, shrinks (readUvarintFrom n i x)); [|apply H].
  intros n. induction n as [|n IH]; intros i x l z l' E; cbn in E; [done|].
  destruct l as [|b l]; [done|]. destruct (b <? 128).
  - destruct (_ && _); [done|]. injection E as _ <-. cbn. lia.
  - apply IH in E. cbn. lia.
Qed.

Lemma shrinks_readMany {A} n (f : Rd A) : shrinks f -> shrinks (readMany n f).
Proof.
  intros Hf. induction n as [|n IH]; cbn [readMany]; [apply shrinks_ret|].
  apply shrinks_bind; [done|]. intros a. apply shrinks_bind; [done|]. intros l. apply shrinks_ret.
Qed.

Lemma shrinks_readBytes : shrinks readBytes.
Proof.
  apply shrinks_bind; [apply shrinks_ReadUvarint|]. intros n. apply shrinks_bind; [apply shrinks_makeSlice|]. intros _. apply shrinks_ReadFull.
Qed.

(** Reading a byte first takes one away for certain. *)
Lemma ReadUint_less n l z l' : ReadUint (S n) l = Ret (Ok (z, l')) -> (length l' < length l)%nat.
Proof.
  unfold ReadUint, rdBind, ReadFull. destruct (Nat.leb_spec (S n) (length l)) as [H|H]; [|by destruct l].
  intros [= _ <-]. rewrite length_drop. lia.
Qed.

End Reader.

#[export] Hint Resolve @shrinks_ret @shrinks_err @shrinks_bind @shrinks_ReadByte @shrinks_ReadFull @shrinks_ReadUint
  @shrinks_makeSlice @shrinks_ReadUvarint @shrinks_readMany @shrinks_readBytes : sb.

(** ** Writing

    [varbin.WriteUvarint] of [sing] is not part of the repository: what the formats
    rely on is that [encoding/binary] reads back what it writes. *)
Class Varbin := { WriteUvarint : Z -> list Z }.

Definition uint64_range (z : Z) : Prop := 0 <= z < 2 ^ 64.

Class VarbinLaws `(VB : Varbin) := {
  WriteUvarint_bytes z : uint64_range z -> byte_list (WriteUvarint z);
  ReadUvarint_WriteUvarint (EX : Exceptions) z : uint64_range z -> reads ReadUvarint (WriteUvarint z) z;
}.

Section Writers.
Context {EX : Exceptions} {VB : Varbin} {VL : VarbinLaws VB}.

(** A length and that many bytes. *)
Definition writeBytes (b : list Z) : list Z := WriteUvarint (Z.of_nat (length b)) ++ b.

Lemma reads_readBytes b : Z.of_nat (length b) <= maxAlloc -> reads readBytes (writeBytes b) b.
Proof.
  intros Hb. unfold readBytes, writeBytes. eapply reads_bind.
  - apply ReadUvarint_WriteUvarint. unfold uint64_range, maxAlloc in *. lia.
  - eapply reads_skip; [apply reads_makeSlice; lia|]. rewrite Nat2Z.id. apply reads_ReadFull.
Qed.

End Writers.

(** ** [binary.PutUvarint], an instance *)

Fixpoint putUvarint (n : nat) (z : Z) : list Z :=
  match n with
  | O => []
  | S n => if z <? 0x80 then [z] else Z.lor (z mod 128) 0x80 :: putUvarint n (z / 128)
  end.

#[export] Instance put_uvarint : Varbin := {| WriteUvarint := putUvarint 10 |}.

Lemma seven_bits_join z : Z.lor (z mod 128) (Z.shiftl (z / 128) 7) = z.
Proof.
  change 128 with (2 ^ 7). rewrite <-Z.land_ones, <-Z.shiftr_div_pow2 by lia. apply Z.bits_inj'. intros j Hj.
  rewrite Z.lor_spec, Z.land_spec, Z.testbit_ones_nonneg, Z.shiftl_spec by lia.
  destruct (Z.ltb_spec j 7).
  - rewrite (Z.testbit_neg_r _ (j - 7)) by lia. by rewrite andb_true_r, orb_false_r.
  - rewrite Z.shiftr_spec by lia. replace (j - 7 + 7) with j by lia. by rewrite andb_false_r.
Qed.

Lemma continuation_byte z : 0 <= z -> 128 <= Z.lor (z mod 128) 0x80 < 256 /\ Z.land (Z.lor (z mod 128) 0x80) 0x7f = z mod 128.
Proof.
  intros Hz. pose proof (Z.mod_pos_bound z 128) as Hm.
  assert (forall m, 0 <= m < 128 -> (128 <=? Z.lor m 0x80) && (Z.lor m 0x80 <? 256) && (Z.land (Z.lor m 0x80) 0x7f =? m) = true) as H.
  { intros m Hr. assert (forallb (fun m => (128 <=? Z.lor m 0x80) && (Z.lor m 0x80 <? 256) && (Z.land (Z.lor m 0x80) 0x7f =? m)) (seqZ 0 128) = true)
      as Ha by (vm_compute; done).
    rewrite forallb_forall in Ha. apply Ha. apply list_elem_of_In, elem_of_seqZ. lia. }
  assert (H' := H (z mod 128) ltac:(lia)). zbool. lia.
Qed.

Lemma shiftl_small z k : 0 <= k <= 64 -> 0 <= z < 2 ^ (64 - k) -> wrapu 64 (Z.shiftl z k) = Z.shiftl z k.
Proof.
  intros Hk Hz. unfold wrapu. apply Z.mod_small. rewrite Z.shiftl_mul_pow2 by lia.
  replace (2 ^ 64) with (2 ^ (64 - k) * 2 ^ k) by (rewrite <-Z.pow_add_r by lia; f_equal; lia).
  assert (0 < 2 ^ k) by (apply Z.pow_pos_nonneg; lia). nia.
Qed.

Lemma readUvarintFrom_put (EX : Exceptions) n i x z rest : Z.of_nat n = 10 - i -> 0 <= i <= 9 ->
  0 <= z < 2 ^ (64 - 7 * i) ->
  readUvarintFrom n i x (putUvarint n z ++ rest) = Ret (Ok (Z.lor x (Z.shiftl z (7 * i)), rest)).
Proof.
  revert i x z. induction n as [|n IH]; intros i x z Hn Hi Hz; [lia|]. cbn [putUvarint readUvarintFrom].
  destruct (Z.ltb_spec z 0x80) as [Hs|Hs]; cbn [app].
  - rewrite (proj2 (Z.ltb_lt z 0x80)) by done. rewrite shiftl_small by lia.
    destruct (Z.eqb_spec i 9) as [->|]; [|done]. rewrite (proj2 (Z.ltb_ge 1 z)) by (cbn in Hz; lia). done.
  - destruct (continuation_byte z) as [Hc ->]; [lia|]. rewrite (proj2 (Z.ltb_ge _ 0x80)) by lia.
    assert (Hi8 : i <= 8).
    { destruct (Z.eq_dec i 9) as [->|]; [|lia]. cbn in Hz. lia. }
    assert (Hp : 2 ^ (64 - 7 * i) = 2 ^ (64 - 7 * (i + 1)) * 128).
    { change 128 with (2 ^ 7). rewrite <-Z.pow_add_r by lia. f_equal. lia. }
    rewrite IH by first [lia|split; [apply Z.div_pos; lia|apply Z.div_lt_upper_bound; lia]].
    do 3 f_equal. pose proof (Z.mod_pos_bound z 128).
    assert (128 <= 2 ^ (64 - 7 * i)) by lia.
    rewrite shiftl_small by lia. rewrite <-(Z.lor_assoc x). f_equal.
    replace (7 * (i + 1)) with (7 + 7 * i) by lia. rewrite <-Z.shiftl_shiftl, <-Z.shiftl_lor by lia.
    by rewrite seven_bits_join.
Qed.

Lemma putUvarint_bytes n z : 0 <= z -> byte_list (putUvarint n z).
Proof.
  revert z. induction n as [|n IH]; intros z Hz; cbn [putUvarint]; [constructor|].
  destruct (Z.ltb_spec z 0x80); repeat constructor; try lia.
  - pose proof (continuation_byte z Hz). lia.
  - pose proof (continuation_byte z Hz). lia.
  - apply IH. by apply Z.div_pos.
Qed.

#[export] Instance put_uvarint_laws : VarbinLaws put_uvarint.
Proof.
  split.
  - intros z [Hz _]. by apply putUvarint_bytes.
  - intros EX z Hz rest. unfold ReadUvarint. cbn [WriteUvarint put_uvarint]. rewrite readUvarintFrom_put by (try lia; exact Hz).
    by rewrite Z.lor_0_l, Z.shiftl_0_r.
Qed.

(** ** Slices *)

Definition len {A} (b : list A) : Z := Z.of_nat (length b).

Definition byteAt (i : Z) (b : list Z) : outcome Z :=
  if (0 <=? i) && (i <? len b) then match b !! Z.to_nat i with Some x => Ret x | None => Panic end else Panic.

(** [b[i:j]] and [b[i:]]; the capacity is the length. *)
Definition slice (i j : Z) (b : list Z) : outcome (list Z) :=
  if (0 <=? i) && (i <=? j) && (j <=? len b) then Ret (take (Z.to_nat (j - i)) (drop (Z.to_nat i) b)) else Panic.
Definition sliceFrom (i : Z) (b : list Z) : outcome (list Z) := slice i (len b) b.

(** [uint16(b[i])<<8 | uint16(b[i+1])] *)
Definition uint16At (i : Z) (b : list Z) : outcome Z :=
  hi ← byteAt i b; lo ← byteAt (i + 1) b; Ret (Z.lor (wrapu 16 (Z.shiftl hi 8)) lo).

Lemma len_nonneg {A} (b : list A) : 0 <= len b.
Proof. unfold len. lia. Qed.

Lemma byteAt_ret i b : byte_list b -> 0 <= i < len b -> exists x, byteAt i b = Ret x /\ 0 <= x < 256.
Proof.
  intros Hb Hi. unfold byteAt. replace ((0 <=? i) && (i <? len b)) with true by lia.
  destruct (lookup_lt_is_Some_2 b (Z.to_nat i)) as [x Hx]; [unfold len in Hi; lia|]. rewrite Hx.
  exists x. split; [done|]. exact (Forall_lookup_1 _ _ _ _ Hb Hx).
Qed.

Lemma slice_ret i j b : 0 <= i <= j -> j <= len b -> slice i j b = Ret (take (Z.to_nat (j - i)) (drop (Z.to_nat i) b)).
Proof. intros ??. unfold slice. by replace ((0 <=? i) && (i <=? j) && (j <=? len b)) with true by lia. Qed.

Lemma sliceFrom_ret i b : 0 <= i <= len b -> sliceFrom i b = Ret (drop (Z.to_nat i) b).
Proof. intros ?. unfold sliceFrom. rewrite slice_ret by lia. f_equal. apply take_ge. rewrite length_drop. unfold len in *. lia. Qed.

Lemma len_drop {A} i (b : list A) : 0 <= i <= len b -> len (drop (Z.to_nat i) b) = len b - i.
Proof. unfold len. rewrite length_drop. lia. Qed.

Lemma uint16_join hi lo : 0 <= hi < 256 -> 0 <= lo < 256 -> Z.lor (wrapu 16 (Z.shiftl hi 8)) lo = 256 * hi + lo.
Proof.
  intros ??. unfold wrapu. rewrite Z.shiftl_mul_pow2 by lia. rewrite Z.mod_small by lia.
  rewrite <- Z.shiftl_mul_pow2 by lia.
  assert (Z.land (Z.shiftl hi 8) lo = 0) as Hd; [|rewrite <- Z.lxor_lor, <- Z.add_nocarry_lxor, Z.shiftl_mul_pow2 by (done || lia); lia].
  apply Z.bits_inj'. intros k Hk. rewrite Z.land_spec, Z.bits_0. destruct (Z.ltb_spec k 8).
  - by rewrite Z.shiftl_spec_low by lia.
  - rewrite (Z.bits_above_log2 lo k), andb_false_r; [done|lia|]. destruct (decide (lo = 0)) as [->|]; [cbn; lia|].
    apply Z.log2_lt_pow2; [lia|]. assert (2 ^ 8 <= 2 ^ k) by (apply Z.pow_le_mono_r; lia). lia.
Qed.

Lemma uint16At_ret i b : byte_list b -> 0 <= i -> i + 1 < len b -> exists x, uint16At i b = Ret x /\ 0 <= x < 2 ^ 16.
Proof.
  intros Hb ??. unfold uint16At. destruct (byteAt_ret i b Hb) as (hi & -> & ?); [lia|].
  destruct (byteAt_ret (i + 1) b Hb) as (lo & -> & ?); [lia|]. eexists. split; [done|]. rewrite uint16_join by done. lia.
Qed.

Lemma take_drop_take {A} (l : list A) n a m : (a + n <= m)%nat -> take n (drop a (take m l)) = take n (drop a l).
Proof. intros ?. by rewrite !take_drop_commute, take_take, Nat.min_l by lia. Qed.

Lemma byte_list_drop i b : byte_list b -> byte_list (drop i b).
Proof. apply Forall_drop. Qed.

Lemma byte_list_take i b : byte_list b -> byte_list (take i b).
Proof. apply Forall_take. Qed.

Lemma be_bytes_2 z : 0 <= z < 2 ^ 16 -> be_bytes 2 z = [z / 256; z mod 256].
Proof. intros ?. cbn. rewrite Z.mod_small; [done|]. split; [apply Z.div_pos; lia|apply Z.div_lt_upper_bound; lia]. Qed.

Lemma byteAt_app i p l : 0 <= i < len p -> byteAt i (p ++ l) = byteAt i p.
Proof.
  intros Hi. unfold byteAt, len in *. rewrite length_app, lookup_app_l by lia. by rewrite !(proj2 (Z.ltb_lt i _)) by lia.
Qed.

Lemma uint16At_app i p l : 0 <= i -> i + 1 < len p -> uint16At i (p ++ l) = uint16At i p.
Proof. intros ??. unfold uint16At. by rewrite !byteAt_app by lia. Qed.

Lemma sliceFrom_app i p l : 0 <= i <= len p -> sliceFrom i (p ++ l) = Ret (drop (Z.to_nat i) p ++ l).
Proof.
  intros ?. unfold len in *. rewrite sliceFrom_ret by (unfold len; rewrite length_app; lia). by rewrite drop_app_le by lia.
Qed.

Lemma len_app {A} (a b : list A) : len (a ++ b) = len a + len b.
Proof. unfold len. rewrite length_app. lia. Qed.

Lemma len_pos {A} (a : list A) : a <> [] -> 0 < len a.
Proof. destruct a; [done|]. unfold len. cbn. lia. Qed.

(** What a byte is, and an integer of two bytes in front. *)
Lemma byteAt_lookup i b : 0 <= i < len b -> exists x, byteAt i b = Ret x /\ b !! Z.to_nat i = Some x.
Proof.
  intros Hi. unfold byteAt. rewrite (proj2 (Z.leb_le 0 i)), (proj2 (Z.ltb_lt i (len b))) by lia. cbn [andb].
  destruct (lookup_lt_is_Some_2 b (Z.to_nat i)) as [x ->]; [unfold len in Hi; lia|]. by exists x.
Qed.

Lemma uint16At_total i b : 0 <= i -> i + 2 <= len b -> exists v, uint16At i b = Ret v.
Proof.
  intros H1 H2. unfold uint16At. destruct (byteAt_lookup i b) as (x & -> & _); [lia|]. cbn.
  destruct (byteAt_lookup (i + 1) b) as (y & -> & _); [lia|]. by eexists.
Qed.

Lemma uint16At_bytes z l : 0 <= z < 2 ^ 16 -> uint16At 0 (be_bytes 2 z ++ l) = Ret z.
Proof.
  intros Hz. rewrite be_bytes_2 by done. pose proof (Z.mod_pos_bound z 256).
  assert (0 <= z / 256 < 256) by (split; [apply Z.div_pos; lia|apply Z.div_lt_upper_bound; lia]).
  rewrite uint16At_app by (unfold len; cbn; lia). transitivity (Ret (Z.lor (wrapu 16 (Z.shiftl (z / 256) 8)) (z mod 256))); [reflexivity|].
  rewrite uint16_join by lia. f_equal. rewrite <-Z.div_mod; lia.
Qed.

(** A position in what follows. *)
Lemma byteAt_shift i p l : len p <= i -> byteAt i (p ++ l) = byteAt (i - len p) l.
Proof.
  intros Hi. unfold byteAt. rewrite len_app. pose proof (len_nonneg p).
  replace ((0 <=? i) && (i <? len p + len l)) with ((0 <=? i - len p) && (i - len p <? len l)) by (apply eq_true_iff_eq; rewrite !andb_true_iff, !Z.leb_le, !Z.ltb_lt; lia).
  unfold len in *. rewrite lookup_app_r by lia. by replace (Z.to_nat (i - Z.of_nat (length p))) with (Z.to_nat i - length p)%nat by lia.
Qed.

Lemma uint16At_shift i p l : len p <= i -> uint16At i (p ++ l) = uint16At (i - len p) l.
Proof. intros ?. unfold uint16At. rewrite !byteAt_shift by lia. by replace (i + 1 - len p) with (i - len p + 1) by lia. Qed.
