(* ===== verification/GoAES.v ===== *)
(** * AES and GCM

    What the QUIC sniffer uses of [crypto/aes] and [crypto/cipher]: the block cipher for
    keys of 16 bytes, and opening a message of Galois/counter mode with a nonce of 12
    bytes.  Executable, and checked against published vectors. *)

From S2P Require Import Prelude GoCrypto GoBinary.

Local Open Scope list_scope.
Local Open Scope Z_scope.

(** ** The block cipher *)

Definition sbox : list Z :=
  [
    99; 124; 119; 123; 242; 107; 111; 197; 48; 1; 103; 43; 254; 215; 171; 118;
    202; 130; 201; 125; 250; 89; 71; 240; 173; 212; 162; 175; 156; 164; 114; 192;
    183; 253; 147; 38; 54; 63; 247; 204; 52; 165; 229; 241; 113; 216; 49; 21;
    4; 199; 35; 195; 24; 150; 5; 154; 7; 18; 128; 226; 235; 39; 178; 117;
    9; 131; 44; 26; 27; 110; 90; 160; 82; 59; 214; 179; 41; 227; 47; 132;
    83; 209; 0; 237; 32; 252; 177; 91; 106; 203; 190; 57; 74; 76; 88; 207;
    208; 239; 170; 251; 67; 77; 51; 133; 69; 249; 2; 127; 80; 60; 159; 168;
    81; 163; 64; 143; 146; 157; 56; 245; 188; 182; 218; 33; 16; 255; 243; 210;
    205; 12; 19; 236; 95; 151; 68; 23; 196; 167; 126; 61; 100; 93; 25; 115;
    96; 129; 79; 220; 34; 42; 144; 136; 70; 238; 184; 20; 222; 94; 11; 219;
    224; 50; 58; 10; 73; 6; 36; 92; 194; 211; 172; 98; 145; 149; 228; 121;
    231; 200; 55; 109; 141; 213; 78; 169; 108; 86; 244; 234; 101; 122; 174; 8;
    186; 120; 37; 46; 28; 166; 180; 198; 232; 221; 116; 31; 75; 189; 139; 138;
    112; 62; 181; 102; 72; 3; 246; 14; 97; 53; 87; 185; 134; 193; 29; 158;
    225; 248; 152; 17; 105; 217; 142; 148; 155; 30; 135; 233; 206; 85; 40; 223;
    140; 161; 137; 13; 191; 230; 66; 104; 65; 153; 45; 15; 176; 84; 187; 22].

Definition subByte (b : Z) : Z := nth (Z.to_nat b) sbox 0.

Definition xorBytes (a b : list Z) : list Z := zip_with Z.lxor a b.

(** Multiplication by 2 in the field of bytes. *)
Definition xtime (b : Z) : Z := let d := Z.land (Z.shiftl b 1) 0xff in if b <? 0x80 then d else Z.lxor d 0x1b.

Fixpoint chunks (n : nat) (size : nat) (l : list Z) : list (list Z) :=
  match n with O => [] | S n => take size l :: chunks n size (drop size l) end.

(** The next round key. *)
Definition nextKey (rcon : Z) (k : list Z) : list Z :=
  match chunks 4 4 k with
  | [w0; w1; w2; [a; b; c; d] as w3] =>
      let v0 := xorBytes w0 [Z.lxor (subByte b) rcon; subByte c; subByte d; subByte a] in
      let v1 := xorBytes w1 v0 in
      let v2 := xorBytes w2 v1 in
      v0 ++ v1 ++ v2 ++ xorBytes w3 v2
  | _ => k
  end.

Fixpoint roundKeys (rcons : list Z) (k : list Z) : list (list Z) :=
  match rcons with [] => [] | rcon :: rcons => let k := nextKey rcon k in k :: roundKeys rcons k end.

(** The bytes of a block are the columns of a square. *)
Definition shiftRows (s : list Z) : list Z :=
  map (fun i => nth i s 0) [0; 5; 10; 15; 4; 9; 14; 3; 8; 13; 2; 7; 12; 1; 6; 11]%nat.

Definition mixColumn (c : list Z) : list Z :=
  match c with
  | [a; b; c; d] =>
      let mix x y z w := Z.lxor (Z.lxor (xtime x) (Z.lxor (xtime y) y)) (Z.lxor z w) in
      [mix a b c d; mix b c d a; mix c d a b; mix d a b c]
  | _ => c
  end.

Definition mixColumns (s : list Z) : list Z := concat (map mixColumn (chunks 4 4 s)).

Fixpoint cipherRounds (keys : list (list Z)) (s : list Z) : list Z :=
  match keys with
  | [] => s
  | [k] => xorBytes (shiftRows (map subByte s)) k
  | k :: keys => cipherRounds keys (xorBytes (mixColumns (shiftRows (map subByte s))) k)
  end.

Definition aesEncrypt (key block : list Z) : list Z :=
  cipherRounds (roundKeys [1; 2; 4; 8; 16; 32; 64; 128; 27; 54] key) (xorBytes block key).

(** ** Galois/counter mode *)

(** The product in the field of [2 ^ 128] elements; the first bit of a block is that of
    degree 0. *)
Fixpoint gcmMulLoop (bits : nat) (x v z : Z) : Z :=
  match bits with
  | O => z
  | S bits =>
      gcmMulLoop bits x (if Z.odd v then Z.lxor (Z.shiftr v 1) (Z.shiftl 0xe1 120) else Z.shiftr v 1)
        (if Z.testbit x (Z.of_nat bits) then Z.lxor z v else z)
  end.
Definition gcmMul (x y : Z) : Z := gcmMulLoop 128 x y 0.

Definition blocksOf (l : list Z) : list (list Z) := chunks ((length l + 15) / 16) 16 l.

(** A block, filled up with zeros, as an integer. *)
Definition blockZ (b : list Z) : Z := be_value 0 (b ++ replicate (16 - length b) 0).

Definition ghash (h : Z) (aad ciphertext : list Z) : Z :=
  let lengths := Z.of_nat (length aad) * 8 * 2 ^ 64 + Z.of_nat (length ciphertext) * 8 in
  foldl (fun y b => gcmMul (Z.lxor y b) h) 0 (map blockZ (blocksOf aad) ++ map blockZ (blocksOf ciphertext) ++ [lengths]).

Fixpoint gcmCounter (key nonce : list Z) (i : Z) (blocks : list (list Z)) : list Z :=
  match blocks with
  | [] => []
  | b :: blocks => xorBytes b (aesEncrypt key (nonce ++ be_bytes 4 (wrapu 32 i))) ++ gcmCounter key nonce (i + 1) blocks
  end.

Definition gcmTag (key nonce aad ciphertext : list Z) : list Z :=
  xorBytes (be_bytes 16 (ghash (be_value 0 (aesEncrypt key (replicate 16 0))) aad ciphertext)) (aesEncrypt key (nonce ++ be_bytes 4 1)).

Definition gcmSeal (key nonce plaintext aad : list Z) : list Z :=
  let c := gcmCounter key nonce 2 (blocksOf plaintext) in c ++ gcmTag key nonce aad c.

Section Open.
Context {EX : Exceptions}.

Definition errOpen : error := Errorf "cipher: message authentication failed".

Definition gcmOpen (key nonce ciphertext aad : list Z) : result error (list Z) :=
  let n := length ciphertext in
  if (n <? 16)%nat then Err errOpen
  else
    let c := take (n - 16) ciphertext in
    if bool_decide (drop (n - 16) ciphertext = gcmTag key nonce aad c) then Ok (gcmCounter key nonce 2 (blocksOf c))
    else Err errOpen.
End Open.

(** FIPS 197, appendix C.1; test case 4 of the specification of GCM. *)
Example aes_fips197 :
  aesEncrypt (be_bytes 16 0x000102030405060708090a0b0c0d0e0f) (be_bytes 16 0x00112233445566778899aabbccddeeff) =
  be_bytes 16 0x69c4e0d86a7b0430d8cdb78070b4c55a.
Proof. vm_compute. reflexivity. Qed.

Example gcm_test_case_4 :
  gcmTag (be_bytes 16 0xfeffe9928665731c6d6a8f9467308308) (be_bytes 12 0xcafebabefacedbaddecaf888)
    (be_bytes 20 0xfeedfacedeadbeeffeedfacedeadbeefabaddad2)
    (be_bytes 60 0x42831ec2217774244b7221b784d0d49ce3aa212f2c02a4e035c17e2329aca12e21d514b25466931c7d8f6a5aac84aa051ba30b396a0aac973d58e091) =
  be_bytes 16 0x5bc94fbc3221a5db94fae95ae7121a47.
Proof. vm_compute. reflexivity. Qed.
