(* ===== verification/StartOrder.v ===== *)
(** * Starting in the order of dependencies

    [startOutbounds] of [src/adapter/outbound/manager.go] and [startTransports] of
    [src/dns/transport_manager.go]: rounds over a list of objects, each started once
    everything it depends on has been, and the diagnosis when a round starts
    nothing.

    Objects are compared by identity, so a node carries one.  What starting an
    object answers is an argument; the objects started are returned in order. *)

From S2P Require Import Prelude GoStrings RuleMatch RuleBuild.

Local Open Scope string_scope.
Local Open Scope list_scope.
Local Open Scope Z_scope.

(** An outbound, endpoint or DNS transport, by what the managers read of it. *)
Record Node := mkNode {
  nodeId : Z;
  nodeType : string;
  nodeTag : string;
  nodeDependencies : list string;
}.

#[export] Instance Node_eq_dec : EqDecision Node.
Proof. solve_decision. Defined.

Section Start.
Context {EX : Exceptions}.
(** Starting an object; how errors name it; the two messages of the diagnosis. *)
Context (start : Node -> option error) (name : Node -> list string).
Context (circular : list string -> string -> error) (missing : string -> Node -> error).

Definition isStarted (started : gset string) (tag : string) : bool := bool_decide (tag ∈ started).
Definition ready (started : gset string) (n : Node) : bool := forallb (isStarted started) n.(nodeDependencies).

(** One round over the objects: the started tags, the objects in the order they
    were started, [canContinue]. *)
Fixpoint startPass (l : list Node) (started : gset string) (order : list Node) (canContinue : bool)
  : gset string * list Node * bool * option error :=
  match l with
  | [] => (started, order, canContinue, None)
  | n :: rest =>
      if isStarted started n.(nodeTag) then startPass rest started order canContinue
      else if negb (ready started n) then startPass rest started order canContinue
      else
        let started := {[ n.(nodeTag) ]} ∪ started in
        match start n with
        | Some e => (started, order ++ [n], true, Some (E_Cause e (name n)))
        | None => startPass rest started (order ++ [n]) true
        end
  end.

(** [lintOutbound], [lintTransport]: follows the first dependency that has not
    started; [common.Find] gives the empty string when there is none. *)
Fixpoint lint (fuel : nat) (byTag : gmap string Node) (started : gset string) (tree : list string) (current : Node)
  : option error :=
  match fuel with
  | O => None
  | S fuel =>
      let problem := default "" (List.find (fun d => negb (isStarted started d)) current.(nodeDependencies)) in
      if bool_decide (problem ∈ tree) then Some (circular tree problem)
      else match byTag !! problem with
           | None => Some (missing problem current)
           | Some node => lint fuel byTag started (tree ++ [problem]) node
           end
  end.

(** The loop over rounds; [None] when the fuel runs out.  Without an object that
    has not started the diagnosis dereferences nil. *)
Fixpoint startLoop (fuel : nat) (byTag : gmap string Node) (nodes : list Node) (started : gset string) (order : list Node)
  : option (outcome (list Node * option error)) :=
  match fuel with
  | O => None
  | S fuel =>
      match startPass nodes started order false with
      | (_, order, _, Some e) => Some (Ret (order, Some e))
      | (started, order, canContinue, None) =>
          if bool_decide (size started = length nodes) then Some (Ret (order, None))
          else if canContinue then startLoop fuel byTag nodes started order
          else match List.find (fun n => negb (isStarted started n.(nodeTag))) nodes with
               | None => Some Panic
               | Some current =>
                   match lint (S (S (size byTag))) byTag started [current.(nodeTag)] current with
                   | None => None
                   | Some e => Some (Ret (order, Some e))
                   end
               end
      end
  end.

Definition startAllNodes (byTag : gmap string Node) (nodes : list Node) : option (outcome (list Node * option error)) :=
  startLoop (S (length nodes)) byTag nodes ∅ [].

(** ** One round *)

(** Everything an object depends on comes before it. *)
Definition ordered (order : list Node) : Prop :=
  forall i n, order !! i = Some n -> forall d, d ∈ n.(nodeDependencies) -> d ∈ map nodeTag (take i order).

(** What holds between rounds: the started tags are those of the started
    objects, which come from the list, once each and in order. *)
Record roundOk (nodes : list Node) (started : gset string) (order : list Node) : Prop := {
  ro_started : started = list_to_set (map nodeTag order);
  ro_from : order ⊆ nodes;
  ro_once : NoDup (map nodeTag order);
  ro_ordered : ordered order;
}.

Lemma ready_spec started n : ready started n = true <-> forall d, d ∈ n.(nodeDependencies) -> d ∈ started.
Proof.
  unfold ready, isStarted. rewrite forallb_forall. setoid_rewrite <- list_elem_of_In.
  split; intros H d Hd; specialize (H d Hd); by apply bool_decide_eq_true in H || apply bool_decide_eq_true.
Qed.

Lemma roundOk_add nodes started order n : roundOk nodes started order -> n ∈ nodes ->
  isStarted started n.(nodeTag) = false -> ready started n = true ->
  roundOk nodes ({[ n.(nodeTag) ]} ∪ started) (order ++ [n]).
Proof.
  intros [Hs Hf Ho Hd] Hn Hi Hr. apply bool_decide_eq_false in Hi. rewrite ready_spec in Hr. split.
  - rewrite map_app, list_to_set_app_L, Hs. cbn. set_solver.
  - intros x. rewrite elem_of_app, list_elem_of_singleton. intros [?| ->]; [by apply Hf|done].
  - rewrite map_app. apply NoDup_app. split; [done|]. split; [|cbn; apply NoDup_singleton].
    intros t Ht Ht'. cbn in Ht'. apply list_elem_of_singleton in Ht' as ->. apply Hi. rewrite Hs. by apply elem_of_list_to_set.
  - intros i m Hm d Hdm. apply lookup_app_Some in Hm as [Hm|[Hl Hm]].
    + rewrite take_app_le by (apply lookup_lt_Some in Hm; lia). by eapply Hd.
    + apply list_lookup_singleton_Some in Hm as [Hi' <-].
      rewrite take_app_ge by lia. replace (i - length order)%nat with 0%nat by lia. rewrite take_0, app_nil_r.
      specialize (Hr d Hdm). rewrite Hs in Hr. by apply elem_of_list_to_set in Hr.
Qed.

Lemma startPass_ok nodes l started order can : l ⊆ nodes -> roundOk nodes started order ->
  roundOk nodes (startPass l started order can).1.1.1 (startPass l started order can).1.1.2.
Proof.
  revert started order can. induction l as [|n l IH]; intros started order can Hl Hr; [done|]. cbn.
  assert (Hl' : l ⊆ nodes) by set_solver. assert (Hn : n ∈ nodes) by set_solver.
  destruct (isStarted started (nodeTag n)) eqn:Ei; [by apply IH|].
  destruct (ready started n) eqn:Er; cbn [negb]; [|by apply IH].
  pose proof (roundOk_add _ _ _ _ Hr Hn Ei Er). destruct (start n); [done|by apply IH].
Qed.

(** A round only adds, and has started something when it says so. *)
Lemma startPass_adds l started order can :
  started ⊆ (startPass l started order can).1.1.1 /\
  ((startPass l started order can).1.2 = true -> can = true \/ exists t, t ∈ (startPass l started order can).1.1.1 /\ t ∉ started).
Proof.
  revert started order can. induction l as [|n l IH]; intros started order can; cbn; [auto|].
  destruct (isStarted started (nodeTag n)) eqn:Ei; [apply IH|]. destruct (ready started n); cbn [negb]; [|apply IH].
  apply bool_decide_eq_false in Ei.
  assert (H : forall s', {[ nodeTag n ]} ∪ started ⊆ s' -> started ⊆ s' /\ exists t, t ∈ s' /\ t ∉ started).
  { intros s' H. split; [set_solver|]. exists (nodeTag n). set_solver. }
  destruct (start n); cbn [fst snd].
  - destruct (H ({[ nodeTag n ]} ∪ started)) as [H1 H2]; [done|]. auto.
  - destruct (IH ({[ nodeTag n ]} ∪ started) (order ++ [n]) true) as [H1 _]. destruct (H _ H1). auto.
Qed.

(** A round that starts nothing leaves only objects that wait for something. *)
Lemma startPass_idle l started order :
  (startPass l started order false).1.2 = false ->
  startPass l started order false = (started, order, false, None) /\
  forall n, n ∈ l -> isStarted started n.(nodeTag) = true \/ ready started n = false.
Proof.
  assert (Hkeep : forall l started order, (startPass l started order true).1.2 = true).
  { clear. induction l as [|n l IH]; intros; [done|]. cbn. repeat case_match; done || apply IH. }
  induction l as [|n l IH]; cbn; [intros _; split; [done|]; intros n Hn; by apply not_elem_of_nil in Hn|].
  destruct (isStarted started (nodeTag n)) eqn:Ei; [|destruct (ready started n) eqn:Er; cbn [negb]].
  - intros H. destruct (IH H) as [-> Hw]. split; [done|]. intros m [->|Hm]%elem_of_cons; auto.
  - destruct (start n); cbn; [done|]. by rewrite Hkeep.
  - intros H. destruct (IH H) as [-> Hw]. split; [done|]. intros m [->|Hm]%elem_of_cons; auto.
Qed.

(** ** The diagnosis ends *)

Lemma lint_returns fuel byTag started first rest current :
  NoDup rest -> (forall t, t ∈ rest -> t ∈ dom byTag) -> (size byTag < fuel + length rest)%nat ->
  is_Some (lint fuel byTag started (first :: rest) current).
Proof.
  revert rest current. induction fuel as [|fuel IH]; intros rest current Hn Hd Hf.
  - exfalso. assert (H : (length rest <= size byTag)%nat); [|lia].
    rewrite <- size_dom, <- (size_list_to_set (C := gset string)) by done.
    apply subseteq_size. intros t Ht. apply Hd. by apply elem_of_list_to_set in Ht.
  - cbn [lint]. set (problem := default "" _). case_bool_decide as Hp; [by eexists|].
    destruct (byTag !! problem) as [node|] eqn:Eb; [|by eexists].
    apply (IH (rest ++ [problem])).
    + apply NoDup_app. split; [done|]. split; [|apply NoDup_singleton]. intros t Ht Ht'.
      apply list_elem_of_singleton in Ht' as ->. apply Hp. by right.
    + intros t [Ht|Ht]%elem_of_app; [by apply Hd|]. apply list_elem_of_singleton in Ht as ->. by apply elem_of_dom.
    + rewrite length_app. cbn. lia.
Qed.

(** ** The loop *)

Lemma roundOk_size nodes started order : NoDup (map nodeTag nodes) -> roundOk nodes started order ->
  (size started <= length nodes)%nat.
Proof.
  intros Hn [Hs Hf _ _]. rewrite <- (length_map nodeTag), <- (size_list_to_set (C := gset string)) by done.
  apply subseteq_size. rewrite Hs. intros t Ht. apply elem_of_list_to_set in Ht. apply elem_of_list_to_set.
  apply list_elem_of_fmap in Ht as (n & -> & Hn'). apply list_elem_of_fmap. eauto.
Qed.

Lemma all_started nodes started order : NoDup (map nodeTag nodes) -> roundOk nodes started order ->
  (forall n, n ∈ nodes -> isStarted started n.(nodeTag) = true) -> size started = length nodes.
Proof.
  intros Hn Hr Ha. pose proof (roundOk_size _ _ _ Hn Hr) as Hle.
  assert ((length nodes <= size started)%nat); [|lia].
  rewrite <- (length_map nodeTag), <- (size_list_to_set (C := gset string)) by done. apply subseteq_size.
  intros t Ht. apply elem_of_list_to_set, list_elem_of_fmap in Ht as (n & -> & Hn'). by apply (bool_decide_eq_true _), Ha.
Qed.

(** What the loop returns from a state between rounds. *)
Definition loopResult (nodes : list Node) (r : list Node * option error) : Prop :=
  let '(order, e) := r in
  (exists started, roundOk nodes started order /\ (e = None -> size started = length nodes)).

Lemma startLoop_spec fuel byTag nodes started order :
  NoDup (map nodeTag nodes) -> roundOk nodes started order -> (length nodes < fuel + size started)%nat ->
  exists r, startLoop fuel byTag nodes started order = Some (Ret r) /\ loopResult nodes r.
Proof.
  intros Hn. revert started order. induction fuel as [|fuel IH]; intros started order Hr Hf.
  { pose proof (roundOk_size _ _ _ Hn Hr). lia. }
  cbn [startLoop]. pose proof (startPass_ok nodes nodes started order false (reflexivity _) Hr) as Hr'.
  pose proof (startPass_adds nodes started order false) as [Hsub Hmore].
  pose proof (startPass_idle nodes started order) as Hidle.
  destruct (startPass nodes started order false) as [[[started' order'] can] [e|]]; cbn in Hr', Hsub, Hmore, Hidle.
  { eexists. split; [done|]. exists started'. done. }
  case_bool_decide as Hs; [eexists; split; [done|]; by exists started'|].
  destruct can.
  - apply IH; [done|]. destruct (Hmore eq_refl) as [?|(t & Ht & Ht')]; [done|].
    assert (size started < size started')%nat; [|lia]. apply subset_size. set_solver.
  - destruct (List.find _ nodes) as [current|] eqn:Ef.
    + destruct (lint_returns (S (S (size byTag))) byTag started' (nodeTag current) [] current) as [e ->];
        [constructor|intros t Ht; by apply not_elem_of_nil in Ht|cbn; lia|].
      eexists. split; [done|]. exists started'. done.
    + exfalso. apply Hs, (all_started _ _ _ Hn Hr'). intros n Hin. apply list_elem_of_In in Hin.
      pose proof (find_none _ _ Ef n Hin) as H. by apply negb_false_iff in H.
Qed.

Lemma roundOk_nil nodes : roundOk nodes ∅ [].
Proof. split; [done|set_solver|constructor|]. intros i n H. by rewrite lookup_nil in H. Qed.

Lemma order_complete nodes started order : NoDup (map nodeTag nodes) -> roundOk nodes started order ->
  size started = length nodes -> Permutation order nodes.
Proof.
  intros Hn [Hs Hf Ho _] Hl. apply NoDup_fmap_1 in Ho as Ho'. apply NoDup_fmap_1 in Hn as Hn'.
  apply submseteq_length_Permutation; [by apply NoDup_submseteq|].
  rewrite Hs, size_list_to_set, length_map in Hl by done. lia.
Qed.

(** ** Dependencies that can be ordered *)

(** Every dependency is the tag of an object, and objects have ranks above those
    of their dependencies. *)
Definition orderable (nodes : list Node) : Prop :=
  exists rank : string -> nat, forall n, n ∈ nodes -> forall d, d ∈ n.(nodeDependencies) ->
    d ∈ map nodeTag nodes /\ (rank d < rank n.(nodeTag))%nat.

Lemma orderable_idle nodes started : orderable nodes ->
  (forall n, n ∈ nodes -> isStarted started n.(nodeTag) = true \/ ready started n = false) ->
  forall n, n ∈ nodes -> isStarted started n.(nodeTag) = true.
Proof.
  intros [rank Hr] Hw n. remember (rank n.(nodeTag)) as k eqn:Ek. revert n Ek.
  induction k as [k IH] using lt_wf_ind. intros n -> Hn. destruct (Hw n Hn) as [?|Hnot]; [done|].
  exfalso. apply not_true_iff_false in Hnot. apply Hnot, ready_spec. intros d Hd.
  destruct (Hr n Hn d Hd) as [Hin Hlt]. apply list_elem_of_fmap in Hin as (m & -> & Hm).
  apply (bool_decide_eq_true _). exact (IH _ Hlt m eq_refl Hm).
Qed.

Lemma startPass_noerr l started order can : (forall n, n ∈ l -> start n = None) ->
  (startPass l started order can).2 = None.
Proof.
  revert started order can. induction l as [|n l IH]; intros started order can H; [done|]. cbn.
  assert (Hl : forall m, m ∈ l -> start m = None) by (intros; apply H; by right).
  rewrite (H n) by by left. repeat case_match; by apply IH.
Qed.

Lemma startLoop_succeeds fuel byTag nodes started order r : (forall n, n ∈ nodes -> start n = None) ->
  NoDup (map nodeTag nodes) -> orderable nodes -> roundOk nodes started order ->
  startLoop fuel byTag nodes started order = Some (Ret r) -> r.2 = None.
Proof.
  intros Hst Hn Ho. revert started order. induction fuel as [|fuel IH]; intros started order Hr; [done|]. cbn [startLoop].
  pose proof (startPass_ok nodes nodes started order false (reflexivity _) Hr) as Hr'.
  pose proof (startPass_noerr nodes started order false Hst) as He.
  pose proof (startPass_idle nodes started order) as Hidle.
  destruct (startPass nodes started order false) as [[[started' order'] can] e]; cbn in Hr', Hidle, He. subst e.
  case_bool_decide as Hs; [by intros [= <-]|]. destruct can; [by apply IH|].
  exfalso. destruct (Hidle eq_refl) as [[= -> ->] Hw]. apply Hs, (all_started _ _ _ Hn Hr'). by apply orderable_idle.
Qed.

(** The position of a tag in the order of starting. *)
Fixpoint position (t : string) (l : list string) : nat :=
  match l with [] => O | x :: l' => if String.eqb t x then O else S (position t l') end.

Lemma position_lookup l i t : NoDup l -> l !! i = Some t -> position t l = i.
Proof.
  revert i. induction l as [|x l IH]; intros i Hn Hi; [by rewrite lookup_nil in Hi|].
  apply NoDup_cons in Hn as [Hx Hn]. cbn. destruct i as [|i]; cbn in Hi.
  - injection Hi as ->. by rewrite String.eqb_refl.
  - destruct (String.eqb_spec t x) as [->|]; [|by rewrite (IH i)]. by apply list_elem_of_lookup_2 in Hi.
Qed.

Lemma ordered_orderable nodes order : NoDup (map nodeTag order) -> ordered order -> Permutation order nodes -> orderable nodes.
Proof.
  intros Hn Ho Hp. exists (fun t => position t (map nodeTag order)). intros n Hin d Hd.
  rewrite <- Hp in Hin. apply list_elem_of_lookup_1 in Hin as [i Hi]. specialize (Ho i n Hi d Hd).
  split.
  - rewrite <- Hp, <- (take_drop i order), map_app. apply elem_of_app. by left.
  - apply list_elem_of_lookup_1 in Ho as [j Hj].
    assert (Hj' : map nodeTag order !! j = Some d /\ (j < i)%nat).
    { rewrite <- (take_drop i order), map_app. apply lookup_lt_Some in Hj as Hl. rewrite length_map, length_take in Hl.
      split; [|lia]. rewrite lookup_app_l; [done|]. rewrite length_map, length_take. lia. }
    assert (Hi' : map nodeTag order !! i = Some (nodeTag n)) by (by rewrite list_lookup_fmap, Hi).
    rewrite (position_lookup _ j d Hn (proj1 Hj')), (position_lookup _ i (nodeTag n) Hn Hi'). apply Hj'.
Qed.

Lemma startAllNodes_ok byTag nodes : NoDup (map nodeTag nodes) ->
  exists order e started, startAllNodes byTag nodes = Some (Ret (order, e)) /\ roundOk nodes started order /\
    (e = None -> Permutation order nodes).
Proof.
  intros Hn. unfold startAllNodes.
  destruct (startLoop_spec (S (length nodes)) byTag nodes ∅ [] Hn (roundOk_nil nodes)) as ([order e] & E & started & Hr & Hl).
  { rewrite size_empty. lia. }
  exists order, e, started. repeat split; try done; try apply Hr.
  intros He. by eapply order_complete; [|exact Hr|apply Hl].
Qed.

(** Starting always ends, without a panic when tags are distinct.  Nothing is
    started twice or before something it depends on, and when there is no error
    every object has been started. *)
Theorem start_order byTag nodes : NoDup (map nodeTag nodes) ->
  exists order e, startAllNodes byTag nodes = Some (Ret (order, e)) /\
    ordered order /\ NoDup order /\ order ⊆ nodes /\ (e = None -> Permutation order nodes).
Proof.
  intros Hn. destruct (startAllNodes_ok byTag nodes Hn) as (order & e & started & E & Hr & Hp).
  exists order, e. repeat split; [done|apply Hr| |apply Hr|done]. eapply NoDup_fmap_1, Hr.
Qed.

(** C27: when starting each object succeeds, starting them all succeeds exactly
    when their dependencies exist and are not circular. *)
Theorem start_iff_orderable byTag nodes : NoDup (map nodeTag nodes) -> (forall n, n ∈ nodes -> start n = None) ->
  (exists order, startAllNodes byTag nodes = Some (Ret (order, None))) <-> orderable nodes.
Proof.
  intros Hn Hst. destruct (startAllNodes_ok byTag nodes Hn) as (order & e & started & E & Hr & Hp). rewrite E. split.
  - intros [order' [= <- ->]]. eapply ordered_orderable; [apply Hr..|by apply Hp].
  - intros Ho. apply startLoop_succeeds in E; [|done|done|done|apply roundOk_nil]. cbn in E. subst e. eauto.
Qed.

End Start.

(** ** Three objects in the wrong order *)

Module StartDemo.
#[local] Existing Instance text_exceptions.

Definition a : Node := mkNode 1 "selector" "a" ["b"; "c"].
Definition b : Node := mkNode 2 "direct" "b" [].
Definition c : Node := mkNode 3 "socks" "c" ["b"].

Definition circular (tree : list string) (problem : string) : error := E_New ["circular "; problem].
Definition missing (problem : string) (n : Node) : error := E_New ["missing "; problem].

Definition byTag : gmap string Node := {[ "a" := a; "b" := b; "c" := c ]}.

Example start_run :
  startAllNodes (fun _ => None) (fun n => [nodeTag n]) circular missing byTag [a; c; b] = Some (Ret ([b; c; a], None)).
Proof. vm_compute. reflexivity. Qed.

Definition loop : Node := mkNode 4 "socks" "b" ["a"].

Example circular_run :
  startAllNodes (fun _ => None) (fun n => [nodeTag n]) circular missing (<[ "b" := loop ]> byTag) [a; loop]
    = Some (Ret ([], Some (circular ["a"; "b"] "a"))).
Proof. vm_compute. reflexivity. Qed.

End StartDemo.

Import StartDemo.

Lemma start_order_witness : exists order e,
  startAllNodes (EX := text_exceptions) (fun _ => None) (fun n => [nodeTag n]) circular missing byTag [a; c; b]
    = Some (Ret (order, e)) /\ ordered order.
Proof.
  destruct (start_order (EX := text_exceptions) (fun _ => None) (fun n => [nodeTag n]) circular missing byTag [a; c; b])
    as (order & e & E & Ho & _).
  - apply (bool_decide_eq_true _). vm_compute. reflexivity.
  - exists order, e. split; [exact E|exact Ho].
Defined.

Lemma start_iff_orderable_witness : orderable [a; c; b].
Proof.
  refine (proj1 (start_iff_orderable (EX := text_exceptions) (fun _ => None) (fun n => [nodeTag n]) circular missing byTag
    [a; c; b] _ _) _).
  - apply (bool_decide_eq_true _). vm_compute. reflexivity.
  - intros n _. reflexivity.
  - exists [b; c; a]. vm_compute. reflexivity.
Defined.
