(* ===== verification/Managers.v ===== *)
(** * The managers of outbounds and DNS transports

    [src/adapter/outbound/manager.go] and [src/dns/transport_manager.go]: creating,
    removing, starting and closing outbounds and DNS transports, and the default
    ones the routers use.

    What the registry creates, what starting and closing an object answers and the
    endpoints are arguments; the objects an operation has started or closed are
    returned in order.  The locks make each operation one transition. *)

From S2P Require Import Prelude GoStrings RuleMatch RuleBuild DNSRules StartOrder.

Local Open Scope string_scope.
Local Open Scope list_scope.
Local Open Scope Z_scope.

(** [adapter.StartStage] *)
Definition StartStateInitialize : Z := 0.
Definition StartStateStart : Z := 1.
Definition StartStatePostStart : Z := 2.
Definition StartStateStarted : Z := 3.

Definition ListStartStages : list Z := [StartStateInitialize; StartStateStart; StartStatePostStart; StartStateStarted].

Definition stageString (stage : Z) : string :=
  if stage =? StartStateInitialize then "initialize"
  else if stage =? StartStateStart then "start"
  else if stage =? StartStatePostStart then "post-start"
  else "finish-start".

(** What a manager keeps; for transports also the fakeip one. *)
Record Manager := mkManager {
  m_defaultTag : string;
  m_started : bool;
  m_stage : Z;
  m_nodes : list Node;
  m_byTag : gmap string Node;
  m_dependByTag : gmap string (list string);
  m_default : option Node;
  m_fakeIP : option Node;
}.

Definition NewManager (defaultTag : string) : Manager := mkManager defaultTag false 0 [] ∅ ∅ None None.

Definition with_nodes (nodes : list Node) (byTag : gmap string Node) (m : Manager) : Manager :=
  mkManager m.(m_defaultTag) m.(m_started) m.(m_stage) nodes byTag m.(m_dependByTag) m.(m_default) m.(m_fakeIP).
Definition with_depend (d : gmap string (list string)) (m : Manager) : Manager :=
  mkManager m.(m_defaultTag) m.(m_started) m.(m_stage) m.(m_nodes) m.(m_byTag) d m.(m_default) m.(m_fakeIP).
Definition with_default (d : option Node) (m : Manager) : Manager :=
  mkManager m.(m_defaultTag) m.(m_started) m.(m_stage) m.(m_nodes) m.(m_byTag) m.(m_dependByTag) d m.(m_fakeIP).
Definition with_stage (started : bool) (stage : Z) (m : Manager) : Manager :=
  mkManager m.(m_defaultTag) started stage m.(m_nodes) m.(m_byTag) m.(m_dependByTag) m.(m_default) m.(m_fakeIP).
Definition with_fakeIP (d : option Node) (m : Manager) : Manager :=
  mkManager m.(m_defaultTag) m.(m_started) m.(m_stage) m.(m_nodes) m.(m_byTag) m.(m_dependByTag) m.(m_default) d.

(** [append(l[:index], l[index+1:]...)] for the index of an object; [None] when it
    is not there. *)
Fixpoint removeNode (n : Node) (l : list Node) : option (list Node) :=
  match l with
  | [] => None
  | x :: l' => if bool_decide (x = n) then Some l' else cons x <$> removeNode n l'
  end.

(** [dependByTag] when an object goes, and when one comes. *)
Definition dropDependency (tag : string) (depend : gmap string (list string)) (dependency : string)
  : gmap string (list string) :=
  let l := default [] (depend !! dependency) in
  if (length l =? 1)%nat then delete dependency depend
  else <[ dependency := List.filter (fun it => negb (String.eqb it tag)) l ]> depend.

Definition addDependency (tag : string) (depend : gmap string (list string)) (dependency : string)
  : gmap string (list string) :=
  <[ dependency := default [] (depend !! dependency) ++ [tag] ]> depend.

Section Managers.
Context {EX : Exceptions}.
Context (start : Z -> Node -> option error) (close : Node -> option error) (ErrInvalid : error).

(** The loops over objects and over stages: what was started, and the first
    error. *)
Fixpoint startEach (stage : Z) (name : Node -> list string) (l : list Node) : list Node * option error :=
  match l with
  | [] => ([], None)
  | n :: rest =>
      match start stage n with
      | Some e => ([n], Some (E_Cause e (name n)))
      | None => let '(order, e) := startEach stage name rest in (n :: order, e)
      end
  end.

Fixpoint startStages (name : Z -> list string) (n : Node) (stages : list Z) : option error :=
  match stages with
  | [] => None
  | stage :: rest =>
      match start stage n with
      | Some e => Some (E_Cause e (name stage))
      | None => startStages name n rest
      end
  end.

(** ** Outbounds *)

Definition outboundName (n : Node) : string := "outbound/" +:+ n.(nodeType) +:+ "[" +:+ n.(nodeTag) +:+ "]".

Definition circularOutbound (tree : list string) (problem : string) : error :=
  E_New ["circular outbound dependency: "; String.concat " -> " tree; " -> "; problem].
Definition missingOutbound (problem : string) (n : Node) : error :=
  E_New ["dependency["; problem; "] not found for outbound["; n.(nodeTag); "]"].

(** The default outbound [Start] settles on: the configured one among the
    endpoints, or the fallback. *)
Definition resolveDefault (endpointByTag : gmap string Node) (fallback : result error Node) (m : Manager)
  : result error Manager :=
  let found :=
    if negb (String.eqb m.(m_defaultTag) "") && negb (isSome m.(m_default)) then
      match endpointByTag !! m.(m_defaultTag) with
      | None => Err (E_New ["default outbound not found: "; m.(m_defaultTag)])
      | Some endpoint => Ok (with_default (Some endpoint) m)
      end
    else Ok m in
  match found with
  | Err e => Err e
  | Ok m =>
      if isSome m.(m_default) then Ok m
      else match fallback with
           | Err e => Err (E_Cause e ["create direct outbound for fallback"])
           | Ok o => Ok (with_default (Some o) (with_nodes (m.(m_nodes) ++ [o]) (<[ o.(nodeTag) := o ]> m.(m_byTag)) m))
           end
  end.

(** [None] when the fuel of [startAllNodes] runs out, which [start_order] excludes. *)
Definition Outbound_Start (endpoints : list Node) (endpointByTag : gmap string Node) (fallback : result error Node)
    (stage : Z) (m : Manager) : option (outcome (Manager * list Node * option error)) :=
  if m.(m_started) && (stage <=? m.(m_stage)) then Some Panic
  else
    let m := with_stage true stage m in
    if stage =? StartStateStart then
      match resolveDefault endpointByTag fallback m with
      | Err e => Some (Ret (m, [], Some e))
      | Ok m =>
          match startAllNodes (start StartStateStart) (fun n => ["start "; outboundName n]) circularOutbound missingOutbound
                  m.(m_byTag) (m.(m_nodes) ++ endpoints) with
          | None => None
          | Some Panic => Some Panic
          | Some (Ret (order, e)) => Some (Ret (m, order, e))
          end
      end
    else
      let '(order, e) := startEach stage (fun n => [stageString stage; " "; outboundName n]) m.(m_nodes) in
      Some (Ret (m, order, e)).

(** Errors of closing are collected and dropped. *)
Definition Outbound_Close (m : Manager) : Manager * list Node :=
  if negb m.(m_started) then (m, []) else (with_nodes [] m.(m_byTag) (with_stage false m.(m_stage) m), m.(m_nodes)).

Definition Outbound_Remove (tag : string) (m : Manager) : outcome (Manager * list Node * option error) :=
  match m.(m_byTag) !! tag with
  | None => Ret (m, [], Some ErrInvalid)
  | Some outbound =>
      match removeNode outbound m.(m_nodes) with
      | None => Panic
      | Some nodes =>
          let m := with_nodes nodes (delete tag m.(m_byTag)) m in
          let m := if bool_decide (m.(m_default) = Some outbound) then with_default (List.hd_error m.(m_nodes)) m else m in
          let dependBy := default [] (m.(m_dependByTag) !! tag) in
          if nonempty dependBy then
            Ret (m, [], Some (E_New ["outbound["; tag; "] is depended by "; String.concat ", " dependBy]))
          else
            let m := with_depend (fold_left (dropDependency tag) outbound.(nodeDependencies) m.(m_dependByTag)) m in
            if m.(m_started) then Ret (m, [outbound], close outbound) else Ret (m, [], None)
      end
  end.

(** [created] is the answer of the registry. *)
Definition Outbound_Create (tag : string) (created : result error Node) (m : Manager)
  : outcome (Manager * list Node * option error) :=
  if String.eqb tag "" then Ret (m, [], Some ErrInvalid)
  else
    match created with
    | Err e => Ret (m, [], Some e)
    | Ok outbound =>
        match (if m.(m_started)
               then startStages (fun stage => [stageString stage; " "; outboundName outbound]) outbound ListStartStages
               else None) with
        | Some e => Ret (m, [], Some e)
        | None =>
            let insert nodes closed :=
              let depend := fold_left (addDependency tag) outbound.(nodeDependencies) m.(m_dependByTag) in
              let m := with_depend depend (with_nodes (nodes ++ [outbound]) (<[ tag := outbound ]> m.(m_byTag)) m) in
              let m := if String.eqb tag m.(m_defaultTag) || (String.eqb m.(m_defaultTag) "" && negb (isSome m.(m_default)))
                       then with_default (Some outbound) m else m in
              Ret (m, closed, None) in
            match m.(m_byTag) !! tag with
            | None => insert m.(m_nodes) []
            | Some exists_ =>
                match (if m.(m_started) then close exists_ else None) with
                | Some e => Ret (m, [exists_], Some (E_Cause e ["close "; outboundName exists_]))
                | None =>
                    match removeNode exists_ m.(m_nodes) with
                    | None => Panic
                    | Some nodes => insert nodes (if m.(m_started) then [exists_] else [])
                    end
                end
            end
        end
    end.

(** [Outbound] and [Default] *)
Definition Outbound_Get (endpointByTag : gmap string Node) (tag : string) (m : Manager) : option Node :=
  match m.(m_byTag) !! tag with Some o => Some o | None => endpointByTag !! tag end.

(** ** DNS transports *)

Definition transportName (n : Node) : list string := ["dns/"; n.(nodeType); "["; n.(nodeTag); "]"].

Definition circularTransport (tree : list string) (problem : string) : error :=
  E_New ["circular server dependency: "; String.concat " -> " tree; " -> "; problem].
Definition missingTransport (problem : string) (n : Node) : error :=
  E_New ["dependency["; problem; "] not found for server["; n.(nodeTag); "]"].

Definition resolveDefaultTransport (fallback : result error Node) (m : Manager) : result error Manager :=
  if negb (String.eqb m.(m_defaultTag) "") && negb (isSome m.(m_default)) then
    Err (E_New ["default DNS server not found: "; m.(m_defaultTag)])
  else if isSome m.(m_default) then Ok m
  else match fallback with
       | Err e => Err (E_Cause e ["default DNS server fallback"])
       | Ok t => Ok (with_default (Some t) (with_nodes (m.(m_nodes) ++ [t]) (<[ t.(nodeTag) := t ]> m.(m_byTag)) m))
       end.

Definition Transport_Start (fallback : result error Node) (stage : Z) (m : Manager)
  : option (outcome (Manager * list Node * option error)) :=
  if m.(m_started) && (stage <=? m.(m_stage)) then Some Panic
  else
    let m := with_stage true stage m in
    if stage =? StartStateStart then
      match resolveDefaultTransport fallback m with
      | Err e => Some (Ret (m, [], Some e))
      | Ok m =>
          match startAllNodes (start StartStateStart) (fun n => "start " :: transportName n) circularTransport missingTransport
                  m.(m_byTag) m.(m_nodes) with
          | None => None
          | Some Panic => Some Panic
          | Some (Ret (order, e)) => Some (Ret (m, order, e))
          end
      end
    else
      let '(order, e) := startEach stage (fun n => [stageString stage; " "] ++ transportName n) m.(m_nodes) in
      Some (Ret (m, order, e)).

Definition Transport_Close (m : Manager) : Manager * list Node :=
  if negb m.(m_started) then (m, []) else (with_nodes [] m.(m_byTag) (with_stage false m.(m_stage) m), m.(m_nodes)).

Definition cannotBeFakeIP : error := E_New ["default server cannot be fakeip"].

(** The check on the next default is the negation of what its message says. *)
Definition Transport_Remove (tag : string) (m : Manager) : outcome (Manager * list Node * option error) :=
  match m.(m_byTag) !! tag with
  | None => Ret (m, [], Some ErrInvalid)
  | Some transport =>
      match removeNode transport m.(m_nodes) with
      | None => Panic
      | Some nodes =>
          let m := with_nodes nodes (delete tag m.(m_byTag)) m in
          let next :=
            if bool_decide (m.(m_default) = Some transport) then
              match m.(m_nodes) with
              | [] => Ok (with_default None m)
              | nextTransport :: _ =>
                  if negb (String.eqb nextTransport.(nodeType) DNSTypeFakeIP) then Err cannotBeFakeIP
                  else Ok (with_default (Some nextTransport) m)
              end
            else Ok m in
          match next with
          | Err e => Ret (m, [], Some e)
          | Ok m =>
              let dependBy := default [] (m.(m_dependByTag) !! tag) in
              if nonempty dependBy then
                Ret (m, [], Some (E_New ["server["; tag; "] is depended by "; String.concat ", " dependBy]))
              else
                let m := with_depend (fold_left (dropDependency tag) transport.(nodeDependencies) m.(m_dependByTag)) m in
                Ret (m, if m.(m_started) then [transport] else [], None)
          end
      end
  end.

(** The last part of [Create]: the default and the fakeip transport. *)
Definition settleTransport (tag : string) (transport : Node) (m : Manager) : Manager * option error :=
  let fakeip := String.eqb transport.(nodeType) DNSTypeFakeIP in
  let asDefault := String.eqb tag m.(m_defaultTag) || (String.eqb m.(m_defaultTag) "" && negb (isSome m.(m_default))) in
  if asDefault && fakeip then (m, Some cannotBeFakeIP)
  else
    let m := if asDefault then with_default (Some transport) m else m in
    if fakeip then
      if isSome m.(m_fakeIP) then (m, Some (E_New ["multiple fakeip server are not supported"]))
      else (with_fakeIP (Some transport) m, None)
    else (m, None).

Definition Transport_Create (tag : string) (created : result error Node) (m : Manager)
  : outcome (Manager * list Node * option error) :=
  if String.eqb tag "" then Ret (m, [], Some ErrInvalid)
  else
    match created with
    | Err e => Ret (m, [], Some e)
    | Ok transport =>
        match (if m.(m_started)
               then startStages (fun stage => [stageString stage; " "] ++ transportName transport) transport ListStartStages
               else None) with
        | Some e => Ret (m, [], Some e)
        | None =>
            let insert nodes closed :=
              let depend := fold_left (addDependency tag) transport.(nodeDependencies) m.(m_dependByTag) in
              let m := with_depend depend (with_nodes (nodes ++ [transport]) (<[ tag := transport ]> m.(m_byTag)) m) in
              let '(m, e) := settleTransport tag transport m in
              Ret (m, closed, e) in
            match m.(m_byTag) !! tag with
            | None => insert m.(m_nodes) []
            | Some exists_ =>
                match (if m.(m_started) then close exists_ else None) with
                | Some e => Ret (m, [exists_], Some (E_Cause e ("close " :: transportName exists_)))
                | None =>
                    match removeNode exists_ m.(m_nodes) with
                    | None => Panic
                    | Some nodes => insert nodes (if m.(m_started) then [exists_] else [])
                    end
                end
            end
        end
    end.

End Managers.
