(* ===== verification/ManagersProps.v ===== *)
(** * The managers stay consistent

    Until a running manager is closed, its list and its map name the same objects, so
    no operation panics; closing empties the list and not the map, and what is left in
    the map can neither be removed nor replaced; starting settles a default; and what
    removing and replacing do to the default and to objects others depend on. *)

From S2P Require Import Prelude GoStrings RuleMatch RuleBuild DNSRules StartOrder Managers.

Local Open Scope string_scope.
Local Open Scope list_scope.
Local Open Scope Z_scope.

(** ** Lists and maps *)

(** The objects of the list have tags of their own and the map binds each of them under
    its tag. *)
Definition listed (nodes : list Node) (byTag : gmap string Node) : Prop :=
  NoDup (map nodeTag nodes) /\ (forall n, n ∈ nodes -> byTag !! n.(nodeTag) = Some n) /\
  forall tag n, byTag !! tag = Some n -> n.(nodeTag) = tag.

(** The map binds nothing else. *)
Definition complete (nodes : list Node) (byTag : gmap string Node) : Prop := forall tag n, byTag !! tag = Some n -> n ∈ nodes.

Lemma removeNode_split n l : n ∈ l -> exists a b, l = a ++ n :: b /\ removeNode n l = Some (a ++ b).
Proof.
  induction l as [|x l IH]; [by intros ?%not_elem_of_nil|]. cbn. case_bool_decide as E; [subst x; by exists [], l|].
  intros [->|H]%elem_of_cons; [done|]. destruct (IH H) as (a & b & -> & ->). by exists (x :: a), b.
Qed.

Lemma listed_remove nodes byTag tag n : listed nodes byTag -> byTag !! tag = Some n -> n ∈ nodes ->
  exists nodes', removeNode n nodes = Some nodes' /\ listed nodes' (delete tag byTag) /\ n ∉ nodes' /\
    (complete nodes byTag -> complete nodes' (delete tag byTag)).
Proof.
  intros (Hn & Hb & Hm) E Hin. pose proof (Hm _ _ E) as Ht.
  destruct (removeNode_split n nodes Hin) as (a & b & -> & Hr). exists (a ++ b).
  rewrite map_app in Hn. cbn in Hn. apply NoDup_app in Hn as (Ha & Hab & Hnb). apply NoDup_cons in Hnb as [Hnb Hn].
  assert (Hnot : forall x, x ∈ a ++ b -> x.(nodeTag) <> tag).
  { intros x Hx Htx. apply elem_of_app in Hx as [Hx|Hx].
    - apply (Hab tag); [apply list_elem_of_fmap; eauto|]. rewrite Ht. by left.
    - apply Hnb. rewrite Ht. apply list_elem_of_fmap. eauto. }
  assert (Hsub : forall x, x ∈ a ++ b -> x ∈ a ++ n :: b) by (intros x; rewrite !elem_of_app, elem_of_cons; tauto).
  split; [done|]. split; [split; [|split]|split].
  - rewrite map_app. apply NoDup_app. split; [done|]. split; [|done]. intros t H1 H2. apply (Hab t H1). by right.
  - intros x Hx. rewrite lookup_delete_ne by (intros Hx'; by apply (Hnot x)). by apply Hb, Hsub.
  - intros tag' x [_ H]%lookup_delete_Some. by apply Hm.
  - intros Hx. by apply Hnot in Hx.
  - intros Hc tag' x [Hne H]%lookup_delete_Some. apply Hc in H as Hx. revert Hx. rewrite !elem_of_app, elem_of_cons.
    intros [?|[->|?]]; [tauto| |tauto]. apply Hm in H. congruence.
Qed.

Lemma listed_add nodes byTag tag n : listed nodes byTag -> (forall x, x ∈ nodes -> x.(nodeTag) <> tag) -> n.(nodeTag) = tag ->
  listed (nodes ++ [n]) (<[ tag := n ]> byTag) /\ (complete nodes byTag -> complete (nodes ++ [n]) (<[ tag := n ]> byTag)).
Proof.
  intros (Hn & Hb & Hm) Hnot Ht. split; [split; [|split]|].
  - rewrite map_app. apply NoDup_app. split; [done|]. split; [|cbn; apply NoDup_singleton].
    intros t Hin [->|[]%not_elem_of_nil]%elem_of_cons. apply list_elem_of_fmap in Hin as (x & Hx & Hin).
    apply (Hnot x Hin). congruence.
  - intros x. rewrite elem_of_app, list_elem_of_singleton. intros [Hx| ->]; [|rewrite Ht; apply lookup_insert_eq].
    rewrite lookup_insert_ne by (intros Hx'; by apply (Hnot x)). by apply Hb.
  - intros tag' x [[<- <-]|[_ H]]%lookup_insert_Some; [done|by apply Hm].
  - intros Hc tag' x. rewrite elem_of_app, list_elem_of_singleton. intros [[_ <-]|[_ H]]%lookup_insert_Some; [by right|left; by eapply Hc].
Qed.

Lemma listed_fresh nodes byTag tag : listed nodes byTag -> byTag !! tag = None -> forall x, x ∈ nodes -> x.(nodeTag) <> tag.
Proof. intros (_ & Hb & _) E x Hx <-. apply Hb in Hx. congruence. Qed.

Section Managers.
Context {EX : Exceptions}.
Context (start : Z -> Node -> option error) (close : Node -> option error) (ErrInvalid : error).

(** ** Reachable states *)

(** Without a configured default, a manager that has objects has a default. *)
Definition managerOk (m : Manager) : Prop :=
  listed m.(m_nodes) m.(m_byTag) /\ (m.(m_defaultTag) = "" -> m.(m_default) = None -> m.(m_nodes) = []).

(** A tag whose outbound is in the map and no longer in the list. *)
Definition orphan (tag : string) (m : Manager) : Prop := exists n, m.(m_byTag) !! tag = Some n /\ n ∉ m.(m_nodes).

Definition noOrphans (m : Manager) : Prop := complete m.(m_nodes) m.(m_byTag).

(** [closed]: the manager was closed while it was running.  The registry creates
    objects with the tag it is given. *)
Inductive reachable : bool -> Manager -> Prop :=
| reachable_new tag : reachable false (NewManager tag)
| reachable_create closed m tag created m' gone e : reachable closed m ->
    (forall o, created = Ok o -> o.(nodeTag) = tag) ->
    Outbound_Create start close ErrInvalid tag created m = Ret (m', gone, e) -> reachable closed m'
| reachable_remove closed m tag m' gone e : reachable closed m ->
    Outbound_Remove close ErrInvalid tag m = Ret (m', gone, e) -> reachable closed m'
| reachable_start closed m endpoints endpointByTag fallback stage m' order e : reachable closed m ->
    Outbound_Start start endpoints endpointByTag fallback stage m = Some (Ret (m', order, e)) -> reachable closed m'
| reachable_close closed m : reachable closed m -> reachable (closed || m.(m_started)) (Outbound_Close m).1.

Lemma not_orphan tag m n : ~ orphan tag m -> m.(m_byTag) !! tag = Some n -> n ∈ m.(m_nodes).
Proof. intros Ho E. destruct (decide (n ∈ m_nodes m)) as [?|Hn]; [done|]. destruct Ho. by exists n. Qed.

(** What an orphan does to removing and to creating. *)
Lemma orphan_panics tag m : orphan tag m ->
  Outbound_Remove close ErrInvalid tag m = Panic /\
  (forall created m' gone e, Outbound_Create start close ErrInvalid tag created m = Ret (m', gone, e) -> is_Some e /\ m' = m) /\
  (m.(m_started) = false -> tag <> "" -> forall o, Outbound_Create start close ErrInvalid tag (Ok o) m = Panic).
Proof.
  intros (n & E & Hn). assert (removeNode n (m_nodes m) = None) as Hr.
  { revert Hn. clear. induction (m_nodes m) as [|x l IH]; [done|]. cbn. intros [Hne Hn]%not_elem_of_cons.
    rewrite bool_decide_false by congruence. by rewrite (IH Hn). }
  unfold Outbound_Remove, Outbound_Create. rewrite E, Hr. split; [done|]. split.
  - intros created m' gone e. case_match; [by intros [= <- <- <-]|]. destruct created as [o|]; [|by intros [= <- <- <-]].
    case_match; [by intros [= <- <- <-]|]. by destruct (if m_started m then close n else None); [intros [= <- <- <-]|].
  - intros Hs Ht o. by rewrite (proj2 (String.eqb_neq _ _) Ht), Hs.
Qed.

Lemma remove_ok tag m : managerOk m -> ~ orphan tag m ->
  exists m' gone e, Outbound_Remove close ErrInvalid tag m = Ret (m', gone, e) /\ managerOk m' /\ (noOrphans m -> noOrphans m') /\
    m'.(m_byTag) !! tag = None.
Proof.
  intros [Hl Hd] Ho. unfold Outbound_Remove. destruct (m_byTag m !! tag) as [n|] eqn:E; [|by eexists _, _, _].
  pose proof (not_orphan _ _ _ Ho E) as Hin.
  destruct (listed_remove _ _ _ _ Hl E Hin) as (nodes & -> & Hl' & _ & Hc). cbn [m_nodes m_byTag m_default with_nodes].
  set (m1 := if bool_decide _ then _ else _).
  assert (H1 : managerOk m1 /\ m1.(m_byTag) = delete tag m.(m_byTag) /\ m1.(m_nodes) = nodes).
  { unfold m1. case_bool_decide as Ed; (split; [split; [done|]|done]); cbn; intros Ht Hn.
    - by destruct nodes.
    - apply Hd in Hn; [|done]. rewrite Hn in Hin. by apply not_elem_of_nil in Hin. }
  destruct H1 as (H1 & Hb & Hno). clearbody m1. unfold noOrphans.
  destruct (nonempty _); [|destruct (m_started _)]; eexists _, _, _; (split; [reflexivity|]);
    (split; [exact H1|split; cbn; rewrite Hb; [by rewrite Hno|apply lookup_delete_eq]]).
Qed.

Lemma insert_ok tag o depend nodes byTag (m : Manager) : managerOk m -> o.(nodeTag) = tag ->
  listed nodes byTag -> (forall x, x ∈ nodes -> x.(nodeTag) <> tag) ->
  let m1 := with_depend depend (with_nodes (nodes ++ [o]) (<[ tag := o ]> byTag) m) in
  let m2 := if String.eqb tag m1.(m_defaultTag) || (String.eqb m1.(m_defaultTag) "" && negb (isSome m1.(m_default)))
            then with_default (Some o) m1 else m1 in
  managerOk m2 /\ (complete nodes byTag -> noOrphans m2) /\ m2.(m_byTag) !! tag = Some o.
Proof.
  intros [_ Hd] Ht Hl Hf m1 m2. destruct (listed_add nodes byTag tag o Hl Hf Ht) as [Hl' Hc].
  assert (Hb : m2.(m_byTag) = <[ tag := o ]> byTag /\ m2.(m_nodes) = nodes ++ [o] /\ m2.(m_defaultTag) = m.(m_defaultTag)).
  { unfold m2. by destruct (String.eqb tag (m_defaultTag m1) || _). }
  destruct Hb as (Hb & Hno & Hdt). unfold managerOk, noOrphans. rewrite Hb, Hno, Hdt.
  split; [split; [done|]|split; [done|apply lookup_insert_eq]].
  intros Hdt' Hdef. exfalso. unfold m2, m1 in Hdef. cbn [m_defaultTag m_default with_depend with_nodes] in Hdef.
  rewrite Hdt' in Hdef. destruct (m_default m) eqn:Ed, (String.eqb tag ""); cbn in Hdef; congruence.
Qed.

Lemma create_ok tag created m : managerOk m -> ~ orphan tag m -> (forall o, created = Ok o -> o.(nodeTag) = tag) ->
  exists m' gone e, Outbound_Create start close ErrInvalid tag created m = Ret (m', gone, e) /\ managerOk m' /\ (noOrphans m -> noOrphans m') /\
    (e = None -> exists o, created = Ok o /\ m'.(m_byTag) !! tag = Some o).
Proof.
  intros Hm Ho Ht. pose proof Hm as [Hl _]. unfold Outbound_Create. case_match; [by eexists _, _, _|].
  destruct created as [o|e]; [|by eexists _, _, _]. specialize (Ht o eq_refl).
  case_match; [by eexists _, _, _|].
  destruct (m_byTag m !! tag) as [old|] eqn:E.
  - destruct (if m_started m then close old else None); [by eexists _, _, _|].
    destruct (listed_remove _ _ _ _ Hl E (not_orphan _ _ _ Ho E)) as (nodes & -> & Hl' & _ & Hc).
    rewrite <- (insert_delete_eq (m_byTag m)). eexists _, _, _. split; [reflexivity|].
    destruct (insert_ok tag o (fold_left (addDependency tag) (nodeDependencies o) (m_dependByTag m)) nodes (delete tag (m_byTag m)) m Hm Ht Hl')
      as (H1 & H2 & H3); [eapply listed_fresh; [done|apply lookup_delete_eq]|]. split; [exact H1|]. split; [by intros ?%Hc%H2|eauto].
  - eexists _, _, _. split; [reflexivity|].
    destruct (insert_ok tag o (fold_left (addDependency tag) (nodeDependencies o) (m_dependByTag m)) (m_nodes m) (m_byTag m) m Hm Ht Hl)
      as (H1 & H2 & H3); [by eapply listed_fresh|]. split; [exact H1|]. split; [exact H2|eauto].
Qed.

(** The default [Start] settles on. *)
Lemma resolveDefault_ok endpointByTag fallback m m' : managerOk m -> resolveDefault endpointByTag fallback m = Ok m' ->
  isSome m'.(m_default) = true /\ listed m'.(m_nodes) m'.(m_byTag) /\ (noOrphans m -> noOrphans m') /\
  (m'.(m_nodes) = m.(m_nodes) \/ exists o, fallback = Ok o /\ m'.(m_nodes) = [o]).
Proof.
  intros [Hl Hd]. unfold resolveDefault. cbv zeta.
  destruct (String.eqb_spec (m_defaultTag m) "") as [Ht|Ht]; cbn [negb andb].
  - destruct (m_default m) as [d|] eqn:Ed; cbn [isSome].
    + intros [= <-]. rewrite Ed. auto.
    + destruct fallback as [o|]; [|done]. intros [= <-]. unfold noOrphans. cbn. pose proof (Hd Ht eq_refl) as Hn. rewrite Hn in *.
      destruct (listed_add [] (m_byTag m) (nodeTag o) o Hl) as [H1 H2]; [by intros x ?%not_elem_of_nil|done|].
      split; [done|]. split; [exact H1|]. split; [exact H2|]. right. by exists o.
  - destruct (m_default m) as [d|] eqn:Ed; cbn [isSome negb].
    + rewrite Ed. cbn [isSome]. intros [= <-]. rewrite Ed. auto.
    + destruct (endpointByTag !! m_defaultTag m); [|done]. cbn. intros [= <-]. cbn. auto.
Qed.

Lemma start_keeps endpoints endpointByTag fallback stage m m' order e : managerOk m ->
  Outbound_Start start endpoints endpointByTag fallback stage m = Some (Ret (m', order, e)) -> managerOk m' /\ (noOrphans m -> noOrphans m').
Proof.
  intros Hm. unfold Outbound_Start. case_match; [done|]. case_match.
  - destruct (resolveDefault _ _ _) as [m1|e1] eqn:Er; [|by intros [= <- <- <-]].
    destruct (startAllNodes _ _ _ _ _ _) as [[[order1 e1]|]|]; try done. intros [= <- <- <-].
    apply resolveDefault_ok in Er as (H1 & H2 & H3 & _); [|exact Hm]. split; [|exact H3]. split; [done|]. intros _ H4. by rewrite H4 in H1.
  - destruct (startEach _ _ _ _) as [order1 e1]. by intros [= <- <- <-].
Qed.

Lemma start_ends endpoints endpointByTag fallback m : managerOk m ->
  m.(m_started) = false \/ m.(m_stage) < StartStateStart ->
  NoDup (map nodeTag (m.(m_nodes) ++ endpoints)) ->
  (forall o, fallback = Ok o -> o.(nodeTag) ∉ map nodeTag endpoints) ->
  exists m' order e, Outbound_Start start endpoints endpointByTag fallback StartStateStart m = Some (Ret (m', order, e)) /\
    ordered order /\ (e = None -> isSome m'.(m_default) = true /\ Permutation order (m'.(m_nodes) ++ endpoints)).
Proof.
  intros H Hs Hn Hf. unfold Outbound_Start.
  assert (Hb : m.(m_started) && (StartStateStart <=? m.(m_stage)) = false).
  { apply andb_false_iff. destruct Hs as [Hs|Hs]; [by left|right; by apply Z.leb_gt]. }
  rewrite Hb. change (StartStateStart =? StartStateStart) with true. cbv iota.
  destruct (resolveDefault _ _ _) as [m1|e1] eqn:Er.
  2:{ eexists _, _, _. split; [done|]. split; [|done]. intros i n Hi. by rewrite lookup_nil in Hi. }
  apply resolveDefault_ok in Er as (H1 & _ & _ & H3); [|exact H]. cbn in H3.
  assert (Hn1 : NoDup (map nodeTag (m_nodes m1 ++ endpoints))).
  { destruct H3 as [->|(o & Ho & ->)]; [done|]. rewrite map_app in Hn |- *. apply NoDup_app in Hn as (_ & _ & Hn). cbn.
    apply NoDup_cons. split; [by apply Hf|done]. }
  destruct (startAllNodes_ok (start StartStateStart) (fun n => ["start "; outboundName n]) circularOutbound missingOutbound
    (m_byTag m1) (m_nodes m1 ++ endpoints) Hn1) as (order & e & started & -> & Ho & Hp).
  eexists _, _, _. split; [done|]. split; [apply Ho|]. auto.
Qed.

Lemma close_keeps m : managerOk m -> managerOk (Outbound_Close m).1.
Proof.
  intros H. pose proof H as [(_ & _ & Hm) _]. unfold Outbound_Close. destruct (m_started m) eqn:Es; cbn [negb fst]; [|done].
  split; [|done]. cbn. split; [constructor|]. split; [by intros n ?%not_elem_of_nil|done].
Qed.

Lemma create_orphan tag created m m' gone e : managerOk m -> (forall o, created = Ok o -> o.(nodeTag) = tag) ->
  Outbound_Create start close ErrInvalid tag created m = Ret (m', gone, e) -> managerOk m' /\ (noOrphans m -> noOrphans m').
Proof.
  intros Hm Ht E. destruct (m_byTag m !! tag) as [n|] eqn:Eb; [destruct (decide (n ∈ m_nodes m)) as [Hin|Hn]|].
  2:{ destruct (orphan_panics tag m) as (_ & H & _); [by exists n|]. by destruct (H _ _ _ _ E) as [_ ->]. }
  all: destruct (create_ok tag created m Hm) as (m1 & gone1 & e1 & E1 & H1 & H2 & _);
    [intros (x & Hx & Hx'); congruence|done|rewrite E in E1; injection E1 as -> -> ->; done].
Qed.

Lemma reachable_ok closed m : reachable closed m -> managerOk m /\ (closed = false -> noOrphans m).
Proof.
  induction 1 as [tag|closed m tag created m' gone e _ [IH Hc] Ht E|closed m tag m' gone e _ [IH Hc] E
    |closed m eps byTag fb stage m' order e _ [IH Hc] E|closed m _ [IH Hc]].
  - split; [split; [|done]|intros _ tag' n; cbn; by rewrite lookup_empty].
    split; [constructor|]. split; [by intros n ?%not_elem_of_nil|]. intros tag' n. cbn. by rewrite lookup_empty.
  - destruct (create_orphan _ _ _ _ _ _ IH Ht E) as [H1 H2]. auto.
  - assert (~ orphan tag m) as Ho by (intros [H _]%orphan_panics; congruence).
    destruct (remove_ok tag m IH Ho) as (m1 & gone1 & e1 & E1 & H1 & H2 & _). rewrite E in E1. injection E1 as -> -> ->. auto.
  - destruct (start_keeps _ _ _ _ _ _ _ _ IH E) as [H1 H2]. auto.
  - split; [by apply close_keeps|]. intros [Hf Hs]%orb_false_iff. unfold Outbound_Close. rewrite Hs. auto.
Qed.

(** C26: the manager of outbounds in every state it can reach by creating, removing,
    starting and closing.  Creating and removing under a tag do not panic unless the tag
    is an orphan, one whose outbound is in the map and not in the list: a created
    outbound is found under its tag, a removed one is gone.  There are no orphans until
    the manager is closed while it is running; closing it makes every tag of its map one,
    and from then on removing that tag, or creating an outbound under it, panics.
    Starting a manager that is not past that stage, when the tags of its outbounds, of
    the endpoints and of the fallback differ, ends, in the order of dependencies, and when
    it succeeds there is a default outbound and all outbounds and endpoints were
    started. *)
Theorem outbound_manager_sound closed m : reachable closed m ->
  (closed = false -> forall tag, ~ orphan tag m) /\
  (forall tag created, ~ orphan tag m -> (forall o, created = Ok o -> o.(nodeTag) = tag) ->
     exists m' gone e, Outbound_Create start close ErrInvalid tag created m = Ret (m', gone, e) /\
       (e = None -> exists o, created = Ok o /\ m'.(m_byTag) !! tag = Some o)) /\
  (forall tag, ~ orphan tag m ->
     exists m' gone e, Outbound_Remove close ErrInvalid tag m = Ret (m', gone, e) /\ m'.(m_byTag) !! tag = None) /\
  (forall endpoints endpointByTag fallback,
     m.(m_started) = false \/ m.(m_stage) < StartStateStart ->
     NoDup (map nodeTag (m.(m_nodes) ++ endpoints)) ->
     (forall o, fallback = Ok o -> o.(nodeTag) ∉ map nodeTag endpoints) ->
     exists m' order e, Outbound_Start start endpoints endpointByTag fallback StartStateStart m = Some (Ret (m', order, e)) /\
       ordered order /\
       (e = None -> isSome m'.(m_default) = true /\ Permutation order (m'.(m_nodes) ++ endpoints))) /\
  (m.(m_started) = true -> let '(m', gone) := Outbound_Close m in
     gone = m.(m_nodes) /\ reachable true m' /\
     forall tag, is_Some (m.(m_byTag) !! tag) ->
       orphan tag m' /\ Outbound_Remove close ErrInvalid tag m' = Panic /\
       (tag <> "" -> forall o, Outbound_Create start close ErrInvalid tag (Ok o) m' = Panic)).
Proof.
  intros Hr. destruct (reachable_ok _ _ Hr) as [H Hc]. split; [|split; [|split; [|split]]].
  - intros Hf tag (n & E & Hn). by apply Hn, (Hc Hf tag).
  - intros tag created Ho Ht. destruct (create_ok tag created m H Ho Ht) as (m' & gone & e & E & _ & _ & ?). eauto.
  - intros tag Ho. destruct (remove_ok tag m H Ho) as (m' & gone & e & E & _ & _ & ?). eauto.
  - intros endpoints endpointByTag fallback Hs Hn Hf. by apply start_ends.
  - intros Hs. pose proof (reachable_close _ _ Hr) as Hr'. rewrite Hs, orb_true_r in Hr'. unfold Outbound_Close in *. rewrite Hs in *.
    split; [done|]. split; [exact Hr'|]. intros tag [n E].
    match goal with |- orphan _ ?m' /\ _ => assert (orphan tag m') as Ho by (exists n; split; [exact E|apply not_elem_of_nil]) end.
    destruct (orphan_panics _ _ Ho) as (H1 & _ & H3). split; [done|]. split; [exact H1|]. by apply H3.
Qed.

(** ** What removing and replacing leave behind *)

(** Removing an outbound that others depend on is refused with an error, but only
    after it has been taken out of the manager, and it is not closed. *)
Lemma remove_depended_outbound m tag n : managerOk m -> ~ orphan tag m -> m.(m_byTag) !! tag = Some n ->
  default [] (m.(m_dependByTag) !! tag) <> [] ->
  exists m' e, Outbound_Remove close ErrInvalid tag m = Ret (m', [], Some e) /\
    m'.(m_byTag) !! tag = None /\ n ∉ m'.(m_nodes).
Proof.
  intros [Hl _] Ho E Hd. unfold Outbound_Remove. rewrite E.
  destruct (listed_remove _ _ _ _ Hl E (not_orphan _ _ _ Ho E)) as (nodes & -> & _ & Hnot & _). cbn [m_nodes m_byTag m_default with_nodes].
  set (m1 := if bool_decide _ then _ else _).
  assert (Hm : m1.(m_dependByTag) = m.(m_dependByTag) /\ m1.(m_byTag) = delete tag m.(m_byTag) /\ m1.(m_nodes) = nodes).
  { unfold m1. by case_bool_decide. }
  destruct Hm as (H1 & H2 & H3). rewrite H1. destruct (default [] (m_dependByTag m !! tag)) as [|t l]; [done|].
  cbn [nonempty]. eexists _, _. split; [done|]. rewrite H2, H3. split; [apply lookup_delete_eq|done].
Qed.

(** Replacing the default outbound of a running manager without a configured
    default closes it and keeps it as the default. *)
Lemma replaced_default_closed m tag old new : managerOk m -> ~ orphan tag m -> m.(m_started) = true -> m.(m_defaultTag) = "" ->
  m.(m_default) = Some old -> m.(m_byTag) !! tag = Some old -> tag <> "" -> new <> old ->
  (forall stage, start stage new = None) -> close old = None ->
  exists m', Outbound_Create start close ErrInvalid tag (Ok new) m = Ret (m', [old], None) /\
    m'.(m_default) = Some old /\ old ∉ m'.(m_nodes).
Proof.
  intros [Hl _] Ho Hs Ht Hd E Htag Hne Hst Hc. unfold Outbound_Create.
  rewrite (proj2 (String.eqb_neq _ _) Htag), Hs. cbn [startStages ListStartStages]. rewrite !Hst, E, Hc.
  destruct (listed_remove _ _ _ _ Hl E (not_orphan _ _ _ Ho E)) as (nodes & -> & _ & Hnot & _). cbn. rewrite Ht, Hd, (proj2 (String.eqb_neq _ _) Htag).
  cbn. eexists. split; [done|]. cbn. split; [done|].
  intros [H|H%list_elem_of_singleton]%elem_of_app; [done|by apply Hne].
Qed.

(** Removing the default DNS transport makes the next one the default exactly
    when that one is a fakeip transport; any other is refused with the message
    that it cannot be a fakeip transport, and the removed transport stays the
    default. *)
Theorem removed_default_transport m tag old next rest :
  m.(m_byTag) !! tag = Some old -> m.(m_default) = Some old -> m.(m_nodes) = old :: next :: rest ->
  exists m' closed e, Transport_Remove ErrInvalid tag m = Ret (m', closed, e) /\
    m'.(m_default) = Some (if String.eqb next.(nodeType) DNSTypeFakeIP then next else old) /\
    (String.eqb next.(nodeType) DNSTypeFakeIP = false -> e = Some cannotBeFakeIP /\ m'.(m_byTag) !! tag = None).
Proof.
  intros E Ed En. unfold Transport_Remove. rewrite E, En. cbn [removeNode]. rewrite bool_decide_true by done.
  cbn [m_default m_nodes with_nodes]. rewrite bool_decide_true by done.
  destruct (String.eqb (nodeType next) DNSTypeFakeIP) eqn:Ef; cbn [negb].
  - destruct (nonempty _); eexists _, _, _; (split; [reflexivity|]); done.
  - eexists _, _, _. split; [reflexivity|]. split; [done|]. intros _. split; [done|]. cbn. apply lookup_delete_eq.
Qed.

End Managers.

(** ** A running manager *)

Import StartDemo.

Module ManagerDemo.
#[local] Existing Instance text_exceptions.

Definition start (stage : Z) (n : Node) : option error := None.
Definition close (n : Node) : option error := None.
Definition invalid : error := Errorf "invalid argument".

Definition create (n : Node) (m : Manager) : Manager :=
  match Outbound_Create start close invalid n.(nodeTag) (Ok n) m with Ret (m', _, _) => m' | Panic => m end.

Definition created : Manager := create b (create a (NewManager "")).

Example create_run : m_default created = Some a /\ m_nodes created = [a; b] /\
  m_dependByTag created !! "b" = Some ["a"] /\
  match Outbound_Remove close invalid "b" created with
  | Ret (m', closed, Some e) => e = "outbound[b] is depended by a" /\ m_nodes m' = [a] /\ closed = []
  | _ => False
  end.
Proof. vm_compute. done. Qed.

Definition fake : Node := mkNode 7 DNSTypeFakeIP "fake" [].
Definition udp : Node := mkNode 8 "udp" "udp" [].
Definition tls : Node := mkNode 9 "tls" "tls" [].

Definition transports (nodes : list Node) (default : Node) : Manager :=
  mkManager "" true 3 nodes {[ "udp" := udp; "tls" := tls; "fake" := fake ]} ∅ (Some default) (Some fake).

End ManagerDemo.

Import ManagerDemo.

Lemma outbound_manager_sound_witness : exists m' order e,
  Outbound_Start (EX := text_exceptions) start [c] {[ "c" := c ]} (Ok b) StartStateStart created = Some (Ret (m', order, e)) /\
  ordered order /\ (e = None -> isSome m'.(m_default) = true /\ Permutation order (m'.(m_nodes) ++ [c])).
Proof.
  assert (H : reachable (EX := text_exceptions) start close invalid false created).
  { refine (reachable_create _ _ _ false (create a (NewManager "")) "b" (Ok b) created [] None
      (reachable_create _ _ _ false (NewManager "") "a" (Ok a) _ [] None (reachable_new _ _ _ "") _ _) _ _).
    - intros o Ho. injection Ho as <-. reflexivity.
    - vm_compute. reflexivity.
    - intros o Ho. injection Ho as <-. reflexivity.
    - vm_compute. reflexivity. }
  refine (proj1 (proj2 (proj2 (proj2 (outbound_manager_sound (EX := text_exceptions) start close invalid false created H)))) [c] {[ "c" := c ]} (Ok b) _ _ _).
  - left. reflexivity.
  - apply (bool_decide_eq_true _). vm_compute. reflexivity.
  - intros o Ho. injection Ho as <-. apply (bool_decide_eq_true _). vm_compute. reflexivity.
Defined.

Lemma removed_default_transport_witness : exists m' closed e,
  Transport_Remove (EX := text_exceptions) invalid "udp" (transports [udp; tls; fake] udp) = Ret (m', closed, e) /\
  m'.(m_default) = Some udp.
Proof.
  destruct (removed_default_transport (EX := text_exceptions) invalid (transports [udp; tls; fake] udp) "udp" udp tls [fake])
    as (m' & closed & e & E & Hd & _).
  - vm_compute. reflexivity.
  - reflexivity.
  - reflexivity.
  - exists m', closed, e. split; [exact E|exact Hd].
Defined.
