(* ===== verification/FakeIP.v ===== *)
(** * The fakeip store

    [src/dns/transport/fakeip/store.go] and [memory.go]: addresses handed out for
    domains, in a circle through a range, and the storage that remembers them.

    The storage is an interface of the source ([adapter.FakeIPStorage]); the one in
    memory is here, the one of the cache file in [CacheFile].  The
    parts of [net/netip] the store calls are written out. *)

From S2P Require Import Prelude GoStrings RuleItems RuleMatch RuleBuild.

Local Open Scope string_scope.
Local Open Scope list_scope.
Local Open Scope Z_scope.

#[export] Instance Addr_countable : Countable Addr.
Proof.
  refine (inj_countable' (fun a => match a with AddrZero => inl () | Addr4 v => inr (inl v) | Addr6 v z => inr (inr (v, z)) end)
    (fun x => match x with inl _ => AddrZero | inr (inl v) => Addr4 v | inr (inr (v, z)) => Addr6 v z end) _).
  by intros [].
Defined.

(** ** [net/netip] *)

(** A valid prefix; the zero value is [None] of an option. *)
Record IPPrefix := mkIPPrefix { prefixAddr : Addr; prefixBits : Z }.

#[export] Instance IPPrefix_eq_dec : EqDecision IPPrefix.
Proof. solve_decision. Defined.

(** The address after this one; the last one of a family has none. *)
Definition Next (a : Addr) : Addr :=
  match a with
  | AddrZero => AddrZero
  | Addr4 v => if v + 1 =? 2 ^ 32 then AddrZero else Addr4 (v + 1)
  | Addr6 v zone => if v + 1 =? 2 ^ 128 then AddrZero else Addr6 (v + 1) zone
  end.

(** [Prefix.Contains]: same family, no zone, same first bits. *)
Definition prefixContains (p : option IPPrefix) (a : Addr) : bool :=
  match p with
  | None => false
  | Some p =>
      match p.(prefixAddr), a with
      | Addr4 v, Addr4 x => Z.shiftr (Z.lxor v x) (32 - p.(prefixBits)) =? 0
      | Addr6 v _, Addr6 x "" => Z.shiftr (Z.lxor v x) (128 - p.(prefixBits)) =? 0
      | _, _ => false
      end
  end.

(** [As16], read as a number of 128 bits. *)
Definition As16 (a : Addr) : Z :=
  match a with AddrZero => 0 | Addr4 v => Z.lor (Z.shiftl 0xFFFF 32) v | Addr6 v _ => v end.

(** ** The last address of a range *)

(** [for i := bits; i < 128; i++ { raw[i/8] |= 1 << (7 - i%8) }]: bit [i] from the
    left is bit [127 - i] of the number; [n] rounds are left. *)
Fixpoint setBits (n : nat) (i : Z) (raw : Z) : Z :=
  match n with
  | O => raw
  | S n => setBits n (i + 1) (Z.lor raw (Z.shiftl 1 (127 - i)))
  end.

Definition broadcastAddress (p : IPPrefix) : Addr :=
  let addr := p.(prefixAddr) in
  let bits := if Is4 addr then p.(prefixBits) + 96 else p.(prefixBits) in
  let raw := setBits (Z.to_nat (128 - bits)) bits (As16 addr) in
  if Is4 addr then Addr4 (raw mod 2 ^ 32) else Addr6 raw "".

(** ** Storage *)

(** [adapter.FakeIPMetadata] *)
Record FakeIPMetadata := mkFakeIPMetadata {
  md_Inet4Range : option IPPrefix;
  md_Inet6Range : option IPPrefix;
  md_Inet4Current : Addr;
  md_Inet6Current : Addr;
}.

(** [adapter.FakeIPStorage].  Reading may change a storage too: the one of the cache
    file starts over when its database is damaged. *)
Class FakeIPStorage {EX : Exceptions} (St : Type) := {
  FakeIPMetadata_ : St -> St * option FakeIPMetadata;
  FakeIPSaveMetadata : FakeIPMetadata -> St -> St * option error;
  FakeIPSaveMetadataAsync : FakeIPMetadata -> St -> St;
  FakeIPStore_ : Addr -> string -> St -> St * option error;
  FakeIPLoad : Addr -> St -> St * option string;
  FakeIPLoadDomain : string -> bool -> St -> St * option Addr;
  FakeIPReset : St -> St * option error;
}.

(** [MemoryStorage] *)
Record MemoryStorage := mkMemoryStorage {
  addressCache : gmap Addr string;
  domainCache4 : gmap string Addr;
  domainCache6 : gmap string Addr;
}.

Definition NewMemoryStorage : MemoryStorage := mkMemoryStorage ∅ ∅ ∅.

Definition memoryStore (address : Addr) (domain : string) (s : MemoryStorage) : MemoryStorage :=
  let '(d4, d6) :=
    match s.(addressCache) !! address with
    | Some oldDomain => if Is4 address then (delete oldDomain s.(domainCache4), s.(domainCache6))
                        else (s.(domainCache4), delete oldDomain s.(domainCache6))
    | None => (s.(domainCache4), s.(domainCache6))
    end in
  if Is4 address then mkMemoryStorage (<[ address := domain ]> s.(addressCache)) (<[ domain := address ]> d4) d6
  else mkMemoryStorage (<[ address := domain ]> s.(addressCache)) d4 (<[ domain := address ]> d6).

#[export] Instance memory_storage {EX : Exceptions} : FakeIPStorage MemoryStorage := {|
  FakeIPMetadata_ := fun s => (s, None);
  FakeIPSaveMetadata := fun _ s => (s, None);
  FakeIPSaveMetadataAsync := fun _ s => s;
  FakeIPStore_ := fun address domain s => (memoryStore address domain s, None);
  FakeIPLoad := fun a s => (s, s.(addressCache) !! a);
  FakeIPLoadDomain := fun domain isIPv6 s =>
    (s, if negb isIPv6 then s.(domainCache4) !! domain else s.(domainCache6) !! domain);
  FakeIPReset := fun _ => (NewMemoryStorage, None);
|}.

(** ** The store *)

Section Store.
Context {EX : Exceptions} {St : Type} {FS : FakeIPStorage St}.

Record Store := mkStore {
  inet4Range : option IPPrefix;
  inet6Range : option IPPrefix;
  inet4Last : Addr;
  inet6Last : Addr;
  storage : option St;
  inet4Current : Addr;
  inet6Current : Addr;
}.

Definition NewStore (range4 range6 : option IPPrefix) : Store :=
  mkStore range4 range6
    (match range4 with Some p => broadcastAddress p | None => AddrZero end)
    (match range6 with Some p => broadcastAddress p | None => AddrZero end) None AddrZero AddrZero.

Definition firstCurrent (range : option IPPrefix) (current : Addr) : Addr :=
  match range with Some p => Next p.(prefixAddr) | None => current end.

(** The state with another storage. *)
Definition setStorage (st : St) (s : Store) : Store :=
  mkStore s.(inet4Range) s.(inet6Range) s.(inet4Last) s.(inet6Last) (Some st) s.(inet4Current) s.(inet6Current).

(** The state with other positions. *)
Definition setCurrent (current4 current6 : Addr) (s : Store) : Store :=
  mkStore s.(inet4Range) s.(inet6Range) s.(inet4Last) s.(inet6Last) s.(storage) current4 current6.

Definition sameRanges (md : FakeIPMetadata) (s : Store) : bool :=
  bool_decide (md.(md_Inet4Range) = s.(inet4Range)) && bool_decide (md.(md_Inet6Range) = s.(inet6Range)).

(** [Start] from the beginning of the ranges; the error of the reset is dropped. *)
Definition startAfresh (st : St) (s : Store) : Store :=
  setStorage (FakeIPReset st).1
    (setCurrent (firstCurrent s.(inet4Range) s.(inet4Current)) (firstCurrent s.(inet6Range) s.(inet6Current)) s).

(** [Start] with the storage it has chosen: goes on where the saved metadata says,
    or starts afresh. *)
Definition Store_Start (st : St) (s : Store) : Store :=
  let '(st, metadata) := FakeIPMetadata_ st in
  match metadata with
  | Some md =>
      if sameRanges md s then setStorage st (setCurrent md.(md_Inet4Current) md.(md_Inet6Current) s)
      else startAfresh st s
  | None => startAfresh st s
  end.

Definition Contains (s : Store) (a : Addr) : bool := prefixContains s.(inet4Range) a || prefixContains s.(inet6Range) a.

Definition metadataOf (s : Store) : FakeIPMetadata :=
  mkFakeIPMetadata s.(inet4Range) s.(inet6Range) s.(inet4Current) s.(inet6Current).

(** [Close] saves the position. *)
Definition Store_Close (s : Store) : Store * option error :=
  match s.(storage) with
  | None => (s, None)
  | Some st => let '(st, e) := FakeIPSaveMetadata (metadataOf s) st in (setStorage st s, e)
  end.

(** The address after [current] in the circle of a range. *)
Definition nextAddress (range : option IPPrefix) (last current : Addr) : Addr :=
  let next := Next current in
  if bool_decide (next = last) || negb (prefixContains range next) then
    match range with Some p => Next (Next p.(prefixAddr)) | None => AddrZero end
  else next.

(** A new address is handed out and the position saved later; an error of the
    storage is only logged. *)
Definition handOut (domain : string) (isIPv6 : bool) (s : Store) (st : St) : Store * Addr :=
  let address := if negb isIPv6 then nextAddress s.(inet4Range) s.(inet4Last) s.(inet4Current)
                 else nextAddress s.(inet6Range) s.(inet6Last) s.(inet6Current) in
  let s := if negb isIPv6 then setCurrent address s.(inet6Current) s else setCurrent s.(inet4Current) address s in
  let st := (FakeIPStore_ address domain st).1 in
  (setStorage (FakeIPSaveMetadataAsync (metadataOf s) st) s, address).

(** Without a storage [Create] dereferences nil. *)
Definition Create (domain : string) (isIPv6 : bool) (s : Store) : outcome (Store * result error Addr) :=
  match s.(storage) with
  | None => Panic
  | Some st =>
      let '(st, loaded) := FakeIPLoadDomain domain isIPv6 st in
      match loaded with
      | Some address => Ret (setStorage st s, Ok address)
      | None =>
          let '(st, loaded) := FakeIPLoadDomain domain isIPv6 st in
          match loaded with
          | Some address => Ret (setStorage st s, Ok address)
          | None =>
              let current := if negb isIPv6 then s.(inet4Current) else s.(inet6Current) in
              if negb (addrIsValid current) then
                Ret (setStorage st s, Err (E_New [if negb isIPv6 then "missing IPv4 fakeip address range"
                                                  else "missing IPv6 fakeip address range"]))
              else let '(s, address) := handOut domain isIPv6 s st in Ret (s, Ok address)
          end
      end
  end.

(** [Reset] empties the storage and keeps the position. *)
Definition Store_Reset (s : Store) : outcome (Store * option error) :=
  match s.(storage) with
  | None => Panic
  | Some st => let '(st, e) := FakeIPReset st in Ret (setStorage st s, e)
  end.

Definition Store_Lookup (a : Addr) (s : Store) : outcome (Store * option string) :=
  match s.(storage) with
  | None => Panic
  | Some st => let '(st, domain) := FakeIPLoad a st in Ret (setStorage st s, domain)
  end.

End Store.

Arguments Store St : clear implicits.
