(* ===== verification/FakeIPProps.v ===== *)
(** * Arithmetic of fakeip ranges

    The addresses of a prefix as an interval of integers: the last address, the
    test of membership and the step of the circle of [Create]. *)

From S2P Require Import Prelude GoStrings RuleItems RuleMatch RuleBuild FakeIP.

Local Open Scope string_scope.
Local Open Scope list_scope.
Local Open Scope Z_scope.

(** ** Bits *)

Lemma lor_shiftl_1_testbit raw k i : 0 <= k -> 0 <= i ->
  Z.testbit (Z.lor raw (Z.shiftl 1 k)) i = Z.testbit raw i || (i =? k).
Proof.
  intros Hk Hi. rewrite Z.lor_spec, Z.shiftl_1_l. f_equal.
  destruct (Z.eqb_spec i k) as [->|Hne]; [by apply Z.pow2_bits_true|by apply Z.pow2_bits_false].
Qed.

(** The loop of [broadcastAddress] sets the bits below [128 - i]. *)
Lemma setBits_testbit n i raw j : 0 <= j -> i + Z.of_nat n = 128 -> 
  Z.testbit (setBits n i raw) j = Z.testbit raw j || (j <? Z.of_nat n).
Proof.
  revert i raw. induction n as [|n IH]; intros i raw Hj Hi; cbn [setBits].
  - by rewrite (proj2 (Z.ltb_ge j (Z.of_nat 0))), orb_false_r by lia.
  - rewrite IH by lia. rewrite lor_shiftl_1_testbit by lia.
    replace (127 - i) with (Z.of_nat n) by lia. rewrite <-orb_assoc. f_equal.
    destruct (Z.eqb_spec j (Z.of_nat n)), (Z.ltb_spec j (Z.of_nat n)), (Z.ltb_spec j (Z.of_nat (S n))); (done || lia).
Qed.

Lemma setBits_ones n i raw : i + Z.of_nat n = 128 -> setBits n i raw = Z.lor raw (Z.ones (Z.of_nat n)).
Proof.
  intros Hi. apply Z.bits_inj'. intros j Hj. rewrite setBits_testbit, Z.lor_spec by done.
  f_equal. by rewrite Z.testbit_ones_nonneg by lia.
Qed.

(** Setting the low [k] bits goes to the end of the block of [2 ^ k]. *)
Lemma lor_ones_block v k : 0 <= k -> Z.lor v (Z.ones k) = v / 2 ^ k * 2 ^ k + (2 ^ k - 1).
Proof.
  intros Hk. rewrite Z.sub_1_r, <-Z.ones_equiv.
  rewrite <-Z.shiftl_mul_pow2, <-Z.shiftr_div_pow2 by done.
  rewrite Z.add_nocarry_lxor.
  - apply Z.bits_inj'. intros j Hj.
    rewrite Z.lor_spec, Z.lxor_spec, Z.testbit_ones_nonneg by lia.
    destruct (Z.ltb_spec j k).
    + by rewrite Z.shiftl_spec_low, orb_true_r by lia.
    + rewrite Z.shiftl_spec_high, Z.shiftr_spec by lia. replace (j - k + k) with j by lia.
      by rewrite orb_false_r, xorb_false_r.
  - apply Z.bits_inj'. intros j Hj. rewrite Z.land_spec, Z.testbit_ones_nonneg, Z.bits_0 by lia.
    destruct (Z.ltb_spec j k); [by rewrite Z.shiftl_spec_low by lia|by rewrite andb_false_r].
Qed.

(** Two numbers agree above bit [k] when they are in the same block. *)
Lemma same_block v x k : 0 <= k ->
  Z.shiftr (Z.lxor v x) k = 0 <-> v / 2 ^ k * 2 ^ k <= x <= Z.lor v (Z.ones k).
Proof.
  intros Hk. rewrite lor_ones_block, Z.shiftr_lxor, Z.lxor_eq_0_iff, !Z.shiftr_div_pow2 by done.
  assert (0 < 2 ^ k) by (apply Z.pow_pos_nonneg; lia).
  pose proof (Z.div_mod x (2 ^ k)). pose proof (Z.mod_pos_bound x (2 ^ k)).
  split; [intros ->; nia|]. intros Hb.
  apply Z.div_unique with (x - v / 2 ^ k * 2 ^ k); lia.
Qed.

(** ** Ranges of both families *)

Definition width (v6 : bool) : Z := if v6 then 128 else 32.
Definition addrAt (v6 : bool) (x : Z) : Addr := if v6 then Addr6 x "" else Addr4 x.
Definition rangeOf (v6 : bool) (base bits : Z) : IPPrefix := mkIPPrefix (addrAt v6 base) bits.
Definition lastOf (v6 : bool) (base bits : Z) : Z := Z.lor base (Z.ones (width v6 - bits)).

(** A prefix of the family with room for two reserved addresses, one address to
    hand out and the last one. *)
Definition goodRange (v6 : bool) (base bits : Z) : Prop :=
  0 <= base < 2 ^ width v6 /\ 0 <= bits <= width v6 /\ base + 3 <= lastOf v6 base bits.

(** How many addresses there are to hand out. *)
Definition poolSize (v6 : bool) (base bits : Z) : Z := lastOf v6 base bits - base - 2.

Lemma addrAt_inj v6 x y : addrAt v6 x = addrAt v6 y -> x = y.
Proof. by destruct v6; intros [=]. Qed.

Lemma addrAt_Is4 v6 x : Is4 (addrAt v6 x) = negb v6.
Proof. by destruct v6. Qed.

Lemma addrAt_valid v6 x : addrIsValid (addrAt v6 x) = true.
Proof. by destruct v6. Qed.

Lemma lastOf_bound v6 base bits : 0 <= base < 2 ^ width v6 -> 0 <= bits <= width v6 ->
  0 <= lastOf v6 base bits < 2 ^ width v6.
Proof.
  intros Hb Hn. unfold lastOf.
  assert (Z.ones (width v6 - bits) < 2 ^ width v6 /\ 0 <= Z.ones (width v6 - bits)) as [Ho1 Ho0].
  { rewrite Z.ones_equiv.
    assert (0 < 2 ^ (width v6 - bits) <= 2 ^ width v6); [|lia].
    split; [apply Z.pow_pos_nonneg; lia|apply Z.pow_le_mono_r; lia]. }
  split; [by apply Z.lor_nonneg; lia|].
  assert (0 < width v6) by (by destruct v6).
  destruct (Z.eq_dec (Z.lor base (Z.ones (width v6 - bits))) 0) as [->|Hne]; [lia|].
  apply Z.log2_lt_pow2; [assert (0 <= Z.lor base (Z.ones (width v6 - bits))) by (apply Z.lor_nonneg; lia); lia|].
  rewrite Z.log2_lor by lia.
  assert (Hl : forall x, 0 <= x < 2 ^ width v6 -> Z.log2 x < width v6).
  { intros x Hx. destruct (Z.eq_dec x 0) as [->|]; [done|apply Z.log2_lt_pow2; lia]. }
  apply Z.max_lub_lt; apply Hl; lia.
Qed.

(** [broadcastAddress] is the last address of the prefix. *)
Lemma broadcastAddress_last v6 base bits : 0 <= base < 2 ^ width v6 -> 0 <= bits <= width v6 ->
  broadcastAddress (rangeOf v6 base bits) = addrAt v6 (lastOf v6 base bits).
Proof.
  intros Hb Hn. pose proof (lastOf_bound v6 base bits Hb Hn) as Hl.
  unfold broadcastAddress, rangeOf. cbn [prefixAddr prefixBits]. rewrite addrAt_Is4.
  destruct v6; cbn [negb addrAt width As16] in *.
  - f_equal. rewrite setBits_ones by lia. unfold lastOf, width. do 2 f_equal. lia.
  - f_equal. rewrite setBits_ones by lia. replace (Z.of_nat (Z.to_nat (128 - (bits + 96)))) with (32 - bits) by lia.
    rewrite <-Z.lor_assoc. rewrite <-Z.land_ones by lia. rewrite Z.land_lor_distr_l.
    change (Z.land (Z.shiftl 65535 32) (Z.ones 32)) with 0. rewrite Z.lor_0_l, Z.land_ones by lia.
    apply Z.mod_small. exact Hl.
Qed.

Lemma prefixContains_block v6 base bits x : 0 <= bits <= width v6 ->
  prefixContains (Some (rangeOf v6 base bits)) (addrAt v6 x) = true <->
  base / 2 ^ (width v6 - bits) * 2 ^ (width v6 - bits) <= x <= lastOf v6 base bits.
Proof.
  intros Hn. unfold lastOf. rewrite <-same_block by lia.
  destruct v6; cbn [prefixContains rangeOf addrAt prefixAddr prefixBits width]; apply Z.eqb_eq.
Qed.

(** From the address of a prefix to its last one every address is inside. *)
Lemma prefixContains_upto v6 base bits x : 0 <= bits <= width v6 ->
  base <= x <= lastOf v6 base bits -> prefixContains (Some (rangeOf v6 base bits)) (addrAt v6 x) = true.
Proof.
  intros Hn Hx. apply prefixContains_block; [done|]. split; [|lia].
  assert (0 < 2 ^ (width v6 - bits)) by (apply Z.pow_pos_nonneg; lia).
  pose proof (Z.mul_div_le base (2 ^ (width v6 - bits))). lia.
Qed.

Lemma Next_at v6 x : 0 <= x -> x + 1 < 2 ^ width v6 -> Next (addrAt v6 x) = addrAt v6 (x + 1).
Proof. intros H0 H1. destruct v6; cbn [addrAt Next width] in *; by rewrite (proj2 (Z.eqb_neq _ _)) by lia. Qed.

Definition nextNum (base last x : Z) : Z := if x + 1 =? last then base + 2 else x + 1.

(** The step of the circle, on numbers. *)
Lemma nextAddress_num v6 base bits x : goodRange v6 base bits ->
  base + 1 <= x < lastOf v6 base bits ->
  nextAddress (Some (rangeOf v6 base bits)) (broadcastAddress (rangeOf v6 base bits)) (addrAt v6 x) =
  addrAt v6 (nextNum base (lastOf v6 base bits) x).
Proof.
  intros (Hb & Hn & Hr) Hx. pose proof (lastOf_bound v6 base bits Hb Hn) as Hl.
  unfold nextAddress, nextNum. rewrite broadcastAddress_last, Next_at by lia.
  rewrite prefixContains_upto by lia. cbn [negb]. rewrite orb_false_r.
  rewrite (bool_decide_ext _ (x + 1 = lastOf v6 base bits)) by (split; [apply addrAt_inj|by intros ->]).
  destruct (Z.eqb_spec (x + 1) (lastOf v6 base bits)) as [He|He].
  - rewrite bool_decide_true by done. unfold rangeOf. cbn [prefixAddr].
    rewrite !Next_at by lia. f_equal. lia.
  - by rewrite bool_decide_false.
Qed.

(** ** Positions in the circle *)

Definition posOf (base x : Z) : Z := x - (base + 2).

Lemma nextNum_pos base last x : base + 3 <= last -> base + 1 <= x < last ->
  posOf base (nextNum base last x) = (posOf base x + 1) mod (last - base - 2).
Proof.
  intros Hr Hx. unfold nextNum, posOf. destruct (Z.eqb_spec (x + 1) last) as [<-|Hne].
  - replace (x - (base + 2) + 1) with (x + 1 - base - 2) by lia. rewrite Z.mod_same; lia.
  - rewrite Z.mod_small; lia.
Qed.

Lemma nextNum_bound base last x : base + 3 <= last -> base + 1 <= x < last ->
  base + 2 <= nextNum base last x < last.
Proof. intros Hr Hx. unfold nextNum. destruct (Z.eqb_spec (x + 1) last); lia. Qed.

(** ** Theorems on the fakeip store

    The store is used through the storage interface: [FakeIPStorageLaws] is what a
    storage promises (an address and its domain are found from each other),
    [FakeIPResetLaws] that a reset forgets everything, [FakeIPKeepLaws] that the saved
    position is found again.  The storage in memory satisfies the first two; the
    cache file satisfies the first and the third ([CacheFileProps]). *)

(** ** What a storage promises *)

Section Views.
Context {EX : Exceptions} {St : Type} {FS : FakeIPStorage St}.
Definition loadOf (st : St) (a : Addr) : option string := (FakeIPLoad a st).2.
Definition domainOf (st : St) (domain : string) (v6 : bool) : option Addr := (FakeIPLoadDomain domain v6 st).2.
End Views.

(** Addresses as they come from a range: valid and without a zone. *)
Definition plain (a : Addr) : Prop :=
  match a with
  | AddrZero => False
  | Addr4 v => 0 <= v < 2 ^ 32
  | Addr6 v zone => 0 <= v < 2 ^ 128 /\ zone = ""
  end.

Class FakeIPStorageLaws {EX : Exceptions} {St : Type} (FS : FakeIPStorage St) := {
  sok : St -> Prop;
  storable : string -> Prop;
  load_pure st a : sok st -> (FakeIPLoad a st).1 = st;
  loadDomain_pure st d v6 : sok st -> (FakeIPLoadDomain d v6 st).1 = st;
  load_of_domain st d v6 a : sok st -> domainOf st d v6 = Some a -> plain a /\ loadOf st a = Some d /\ Is4 a = negb v6;
  domain_of_load st d a : sok st -> plain a -> loadOf st a = Some d -> domainOf st d (negb (Is4 a)) = Some a;
  sok_store st a d : sok st -> plain a -> storable d -> domainOf st d (negb (Is4 a)) = None -> sok (FakeIPStore_ a d st).1;
  load_store st a d b : sok st -> plain a -> plain b -> storable d -> domainOf st d (negb (Is4 a)) = None ->
    loadOf (FakeIPStore_ a d st).1 b = if decide (b = a) then Some d else loadOf st b;
  sok_async st md : sok st -> sok (FakeIPSaveMetadataAsync md st);
  load_async st md a : sok st -> loadOf (FakeIPSaveMetadataAsync md st) a = loadOf st a;
}.

Class FakeIPResetLaws {EX : Exceptions} {St : Type} {FS : FakeIPStorage St} (FL : FakeIPStorageLaws FS) := {
  sok_reset st : sok st -> sok (FakeIPReset st).1;
  load_reset st a : sok st -> loadOf (FakeIPReset st).1 a = None;
  sok_metadata st : sok st -> sok (FakeIPMetadata_ st).1;
}.

(** A storage that survives a restart: the position saved at the end is found by
    the next start, with all addresses. *)
Class FakeIPKeepLaws {EX : Exceptions} {St : Type} {FS : FakeIPStorage St} (FL : FakeIPStorageLaws FS) := {
  positionOk : FakeIPMetadata -> Prop;
  sok_kept st md : sok st -> positionOk md -> sok (FakeIPMetadata_ (FakeIPSaveMetadata md st).1).1;
  save_kept st md : sok st -> positionOk md -> (FakeIPSaveMetadata md st).2 = None /\
    (FakeIPMetadata_ (FakeIPSaveMetadata md st).1).2 = Some md;
  load_kept st md a : sok st -> positionOk md -> plain a ->
    loadOf (FakeIPMetadata_ (FakeIPSaveMetadata md st).1).1 a = loadOf st a;
}.

(** ** The storage in memory *)

Definition familyOk (s : MemoryStorage) (cache : gmap string Addr) (v4 : bool) : Prop :=
  forall d a, cache !! d = Some a <-> s.(addressCache) !! a = Some d /\ Is4 a = v4 /\ plain a.

Definition memoryOk (s : MemoryStorage) : Prop :=
  familyOk s s.(domainCache4) true /\ familyOk s s.(domainCache6) false /\
  forall a d, s.(addressCache) !! a = Some d -> plain a.

(** What storing does to the cache of the address's family and to the other one. *)
Lemma memory_same_family s a d cache v4 : familyOk s cache v4 -> plain a -> Is4 a = v4 -> cache !! d = None ->
  forall d' b, <[d := a]> (match s.(addressCache) !! a with Some old => delete old cache | None => cache end) !! d' = Some b <->
    <[a := d]> s.(addressCache) !! b = Some d' /\ Is4 b = v4 /\ plain b.
Proof.
  intros Hf Hp H4 Hd d' b.
  assert (Hrest : match s.(addressCache) !! a with Some old => delete old cache | None => cache end !! d' = Some b <->
                  cache !! d' = Some b /\ b <> a).
  { destruct (s.(addressCache) !! a) as [old|] eqn:E.
    - assert (Ho : cache !! old = Some a) by (apply Hf; done). rewrite lookup_delete_Some. split.
      + intros [Hne Hc]. split; [done|]. intros ->. apply Hf in Hc as [Hc _]. congruence.
      + intros [Hc Hne]. split; [|done]. intros ->. congruence.
    - split; [|by intros []]. intros Hc. split; [done|]. intros ->. apply Hf in Hc as [Hc _]. congruence. }
  rewrite lookup_insert_Some, Hrest. rewrite lookup_insert_Some. split.
  - intros [[-> ->]|[Hne [Hc Hb]]]; [by auto|]. apply Hf in Hc as (Hc & ? & ?). auto.
  - intros [[[-> ->]|[Hne Hc]] [Hb Hpb]]; [by left|]. right.
    assert (cache !! d' = Some b) by (by apply Hf). split; [congruence|auto].
Qed.

Lemma memory_other_family s a d cache v4 : familyOk s cache v4 -> Is4 a = negb v4 ->
  forall d' b, cache !! d' = Some b <-> <[a := d]> s.(addressCache) !! b = Some d' /\ Is4 b = v4 /\ plain b.
Proof.
  intros Hf H4 d' b. rewrite (Hf d' b), lookup_insert_Some. split.
  - intros (Hb & Hv & Hp). split; [right; split; [|done]|done]. intros ->. by destruct v4; rewrite Hv in H4.
  - intros [[[-> ->]|[Hne Hb]] [Hv Hp]]; [by destruct v4; rewrite Hv in H4|done].
Qed.

Lemma memory_store_ok s a d : memoryOk s -> plain a ->
  (if Is4 a then s.(domainCache4) else s.(domainCache6)) !! d = None -> memoryOk (memoryStore a d s).
Proof.
  intros (H4 & H6 & Hp) Ha Hd.
  assert (Hdom : forall b e, <[a := d]> s.(addressCache) !! b = Some e -> plain b).
  { intros b e [[-> ->]|[_ Hb]]%lookup_insert_Some; [done|by eapply Hp]. }
  unfold memoryStore. destruct (Is4 a) eqn:E.
  - pose proof (memory_same_family s a d _ true H4 Ha E Hd) as HA.
    pose proof (memory_other_family s a d _ false H6 E) as HB.
    by destruct (s.(addressCache) !! a); split_and!; cbn.
  - pose proof (memory_same_family s a d _ false H6 Ha E Hd) as HA.
    pose proof (memory_other_family s a d _ true H4 E) as HB.
    by destruct (s.(addressCache) !! a); split_and!; cbn.
Qed.

Lemma memory_store_load s a d b :
  (memoryStore a d s).(addressCache) !! b = if decide (b = a) then Some d else s.(addressCache) !! b.
Proof.
  unfold memoryStore. destruct (s.(addressCache) !! a), (Is4 a); cbn;
    (destruct (decide (b = a)) as [->|]; [by rewrite lookup_insert_eq|by rewrite lookup_insert_ne]).
Qed.

#[export, program] Instance memory_storage_laws {EX : Exceptions} : FakeIPStorageLaws (memory_storage (EX := EX)) := {|
  sok := memoryOk;
  storable := fun _ => True;
|}.
Next Obligation. done. Qed.
Next Obligation. done. Qed.
Next Obligation.
  intros EX st d v6 a (H4 & H6 & _). unfold domainOf, loadOf. cbn.
  destruct v6; cbn; intros H; [apply H6 in H as (?&?&?)|apply H4 in H as (?&?&?)]; auto.
Qed.
Next Obligation.
  intros EX st d a (H4 & H6 & _) Hp H. unfold domainOf, loadOf in *. cbn in *. rewrite negb_involutive.
  destruct (Is4 a) eqn:E; [by apply H4|by apply H6].
Qed.
Next Obligation.
  intros EX st a d Hs Hp _ H. cbn. apply memory_store_ok; [done..|].
  unfold domainOf in H. cbn in H. rewrite negb_involutive in H. by destruct (Is4 a).
Qed.
Next Obligation. intros EX st a d b _ _ _ _ _. apply memory_store_load. Qed.
Next Obligation. done. Qed.
Next Obligation. done. Qed.

#[export] Instance memory_reset_laws {EX : Exceptions} : FakeIPResetLaws (memory_storage_laws (EX := EX)).
Proof.
  split; [|done|done]. intros st _.
  split_and!; intros x y; cbn; rewrite ?lookup_empty; try done; split; intros H; try done; by destruct H.
Qed.

(** ** The store over a lawful storage *)

Section StoreProps.
Context {EX : Exceptions} {St : Type} {FS : FakeIPStorage St} {FL : FakeIPStorageLaws FS}.
Implicit Types (s : Store St) (st : St).

Definition rangeF (v6 : bool) s : option IPPrefix := if v6 then s.(inet6Range) else s.(inet4Range).
Definition lastF (v6 : bool) s : Addr := if v6 then s.(inet6Last) else s.(inet4Last).
Definition currentF (v6 : bool) s : Addr := if v6 then s.(inet6Current) else s.(inet4Current).

(** The position of a family is inside its range, the first address being the one
    before the first to be handed out. *)
Definition positioned v6 s (base bits c : Z) : Prop :=
  rangeF v6 s = Some (rangeOf v6 base bits) /\ goodRange v6 base bits /\
  lastF v6 s = broadcastAddress (rangeOf v6 base bits) /\ currentF v6 s = addrAt v6 c /\
  base + 1 <= c < lastOf v6 base bits.

Definition famOk v6 s : Prop :=
  (rangeF v6 s = None /\ currentF v6 s = AddrZero) \/ exists base bits c, positioned v6 s base bits c.

Definition storeOk s : Prop := famOk false s /\ famOk true s /\ exists st, s.(storage) = Some st /\ sok st.

Lemma addrAt_plain v6 x : 0 <= x < 2 ^ width v6 -> plain (addrAt v6 x).
Proof. by destruct v6. Qed.

Lemma positioned_unique v6 s b1 n1 c1 b2 n2 c2 :
  positioned v6 s b1 n1 c1 -> positioned v6 s b2 n2 c2 -> b1 = b2 /\ n1 = n2 /\ c1 = c2.
Proof.
  intros (E1 & _ & _ & C1 & _) (E2 & _ & _ & C2 & _). rewrite E1 in E2. rewrite C1 in C2.
  unfold rangeOf in E2. injection E2 as E2 ->. by apply addrAt_inj in E2 as ->, C2 as ->.
Qed.

(** The store after an address of family [v6] has been handed out for [domain]. *)
Definition handed domain v6 s (a : Addr) s' : Prop :=
  (forall w, rangeF w s' = rangeF w s /\ lastF w s' = lastF w s) /\
  currentF v6 s' = a /\ currentF (negb v6) s' = currentF (negb v6) s /\
  forall st, s.(storage) = Some st -> exists st', s'.(storage) = Some st' /\ sok st' /\
    forall b, plain b -> loadOf st' b = if decide (b = a) then Some domain else loadOf st b.

Lemma setStorage_same s st : s.(storage) = Some st -> setStorage st s = s.
Proof. destruct s; cbn. by intros ->. Qed.

Lemma goodRange_addr v6 base bits c : goodRange v6 base bits -> base + 1 <= c < lastOf v6 base bits -> 0 <= c < 2 ^ width v6.
Proof. intros (Hb & Hn & Hr) Hc. pose proof (lastOf_bound v6 base bits Hb Hn). lia. Qed.

(** A known domain gets its address, an unknown one the next of the circle; a
    family without a range answers an error. *)
Lemma Create_cases domain v6 s st : storeOk s -> storable domain -> s.(storage) = Some st ->
  match domainOf st domain v6 with
  | Some a => Create domain v6 s = Ret (s, Ok a)
  | None =>
      (rangeF v6 s = None /\ exists e, Create domain v6 s = Ret (s, Err e)) \/
      exists base bits c s', positioned v6 s base bits c /\
        let a := addrAt v6 (nextNum base (lastOf v6 base bits) c) in
        Create domain v6 s = Ret (s', Ok a) /\ handed domain v6 s a s'
  end.
Proof.
  intros (H4 & H6 & st' & E & Hs) Hd Est. assert (st' = st) as -> by congruence.
  assert (Hf : famOk v6 s) by (by destruct v6).
  unfold Create. rewrite Est. unfold domainOf. pose proof (loadDomain_pure st domain v6 Hs) as Hp.
  destruct (FakeIPLoadDomain domain v6 st) as [st1 o] eqn:El. cbn in Hp. subst st1. cbn [snd].
  destruct o as [a|]; [by rewrite setStorage_same|]. rewrite El.
  assert (Hdom : domainOf st domain v6 = None) by (unfold domainOf; by rewrite El).
  assert (Hc : (if negb v6 then inet4Current s else inet6Current s) = currentF v6 s) by (by destruct v6).
  rewrite Hc. destruct Hf as [[Hr Hz]|(base & bits & c & Hpos)].
  { left. rewrite Hz. cbn. split; [done|]. rewrite setStorage_same by done. by eexists. }
  right. pose proof Hpos as (Hr & Hg & Hl & Hcur & Hb). exists base, bits, c. rewrite Hcur, addrAt_valid. cbn [negb].
  assert (Ha : (if negb v6 then nextAddress s.(inet4Range) s.(inet4Last) s.(inet4Current)
                else nextAddress s.(inet6Range) s.(inet6Last) s.(inet6Current)) =
               addrAt v6 (nextNum base (lastOf v6 base bits) c)).
  { rewrite <-nextAddress_num by done. rewrite <-Hl, <-Hr, <-Hcur. by destruct v6. }
  unfold handOut. rewrite Ha. set (a := addrAt v6 _).
  assert (Hap : plain a).
  { apply addrAt_plain. destruct Hg as (?&?&?). apply (goodRange_addr v6 base bits); [done|].
    pose proof (nextNum_bound base (lastOf v6 base bits) c). lia. }
  assert (Hd0 : domainOf st domain (negb (Is4 a)) = None) by (unfold a; by rewrite addrAt_Is4, negb_involutive).
  eexists. split; [done|]. split; [done|]. split_and!.
  - intros w. by destruct w, v6.
  - by destruct v6.
  - by destruct v6.
  - intros st0 Hst0. assert (st0 = st) as -> by congruence. eexists. split; [done|].
    split; [by apply sok_async, sok_store|]. intros b Hb'. rewrite load_async by (by apply sok_store). by apply load_store.
Qed.

Lemma handed_storeOk domain v6 s base bits c s' :
  storeOk s -> positioned v6 s base bits c ->
  handed domain v6 s (addrAt v6 (nextNum base (lastOf v6 base bits) c)) s' ->
  storeOk s' /\ positioned v6 s' base bits (nextNum base (lastOf v6 base bits) c).
Proof.
  intros (H4 & H6 & st & Est & _) (Hr & Hg & Hl & Hc & Hb) (Hsame & Hcur & Hother & Hst).
  destruct (Hst st Est) as (st' & Est' & Hs' & _).
  assert (Hpos : positioned v6 s' base bits (nextNum base (lastOf v6 base bits) c)).
  { destruct (Hsame v6) as [E1 E2]. unfold positioned. rewrite E1, E2, Hcur. split_and!; try done;
    destruct Hg as (?&?&?); pose proof (nextNum_bound base (lastOf v6 base bits) c); lia. }
  assert (Hkeep : famOk (negb v6) s -> famOk (negb v6) s').
  { unfold famOk, positioned. destruct (Hsame (negb v6)) as [-> ->]. by rewrite Hother. }
  split; [|done]. unfold storeOk.
  assert (famOk v6 s') by (right; eauto). destruct v6; cbn in *; eauto 10.
Qed.

Lemma Create_storeOk domain v6 s : storeOk s -> storable domain ->
  exists s' r, Create domain v6 s = Ret (s', r) /\ storeOk s' /\ forall w, rangeF w s' = rangeF w s.
Proof.
  intros Hs Hd. pose proof Hs as (_ & _ & st & Est & _). pose proof (Create_cases domain v6 s st Hs Hd Est) as H.
  destruct (domainOf st domain v6) as [a|]; [by eauto|].
  destruct H as [(_ & e & E)|(base & bits & c & s' & Hpos & E & Hh)]; [by eauto|].
  exists s', (Ok (addrAt v6 (nextNum base (lastOf v6 base bits) c))). split; [done|]. split; [by eapply handed_storeOk|].
  intros w. by destruct Hh as [Hh _], (Hh w).
Qed.

(** Looking up and asking again for a live pair. *)
Lemma known_pair domain v6 s st a : storeOk s -> storable domain -> s.(storage) = Some st -> domainOf st domain v6 = Some a ->
  Create domain v6 s = Ret (s, Ok a) /\ Store_Lookup a s = Ret (s, Some domain).
Proof.
  intros Hs Hd Est Ha. pose proof (Create_cases domain v6 s st Hs Hd Est) as H. rewrite Ha in H. split; [done|].
  destruct Hs as (_ & _ & st' & Est' & Hsok). assert (st' = st) as -> by congruence.
  destruct (load_of_domain st domain v6 a Hsok Ha) as (_ & Hld & _).
  unfold Store_Lookup. rewrite Est. unfold loadOf in Hld. pose proof (load_pure st a Hsok) as Hp.
  destruct (FakeIPLoad a st) as [st3 o]. cbn in *. subst. by rewrite setStorage_same.
Qed.

(** After an answer the pair is live; an error means that the family has no range. *)
Lemma Create_result domain v6 s s' r st : storeOk s -> storable domain -> Create domain v6 s = Ret (s', r) -> s'.(storage) = Some st ->
  (rangeF v6 s = None /\ exists e, r = Err e /\ s' = s) \/ exists a, r = Ok a /\ domainOf st domain v6 = Some a.
Proof.
  intros Hs Hd Ec Est'. pose proof Hs as (_ & _ & st1 & Est1 & _). pose proof (Create_cases domain v6 s st1 Hs Hd Est1) as H.
  destruct (domainOf st1 domain v6) as [a|] eqn:Ed.
  - right. rewrite H in Ec. injection Ec as <- <-. exists a. split; [done|]. congruence.
  - destruct H as [(Hn & e & H)|(base & bits & c & s1 & Hpos & H & Hh)]; rewrite H in Ec; injection Ec as <- <-; [by left; eauto|right].
    eexists. split; [done|]. destruct (handed_storeOk _ _ _ _ _ _ _ Hs Hpos Hh) as [_ (_ & Hg & _ & _ & Hx)].
    destruct Hh as (_ & _ & _ & Hh). destruct (Hh st1 Est1) as (st' & E2 & Hsok & Hload). assert (st' = st) as -> by congruence.
    set (a := addrAt v6 _) in *. assert (Hp : plain a) by (apply addrAt_plain, (goodRange_addr v6 base bits); done).
    replace v6 with (negb (Is4 a)) by (unfold a; by rewrite addrAt_Is4, negb_involutive). apply domain_of_load; [done..|].
    rewrite Hload by done. by rewrite decide_True.
Qed.

(** ** Sequences of requests *)

Definition requestOk (r : string * bool) : Prop := storable r.1.

Fixpoint createAll (l : list (string * bool)) (s : Store St) : outcome (Store St) :=
  match l with
  | [] => Ret s
  | (domain, v6) :: l => match Create domain v6 s with Panic => Panic | Ret (s, _) => createAll l s end
  end.

Lemma createAll_storeOk l s : storeOk s -> Forall requestOk l ->
  exists s', createAll l s = Ret s' /\ storeOk s' /\ forall w, rangeF w s' = rangeF w s.
Proof.
  intros Hs Hl. revert s Hs. induction Hl as [|[d v6] l Hd _ IH]; intros s Hs; cbn [createAll]; [by eauto|].
  destruct (Create_storeOk d v6 s Hs Hd) as (s1 & r & -> & Hs1 & Hr1). destruct (IH s1 Hs1) as (s2 & E & Hs2 & Hr2).
  exists s2. split; [done|]. split; [done|]. intros w. by rewrite Hr2, Hr1.
Qed.

(** Address [a] belongs to [domain] and the circle has gone [k] steps past it. *)
Definition keeps domain v6 base bits (a k : Z) s : Prop :=
  storeOk s /\ (exists c, positioned v6 s base bits c /\ base + 2 <= c /\ posOf base c = (posOf base a + k) mod poolSize v6 base bits) /\
  exists st, s.(storage) = Some st /\ loadOf st (addrAt v6 a) = Some domain.

Lemma poolSize_pos v6 base bits : goodRange v6 base bits -> 0 < poolSize v6 base bits.
Proof. intros (_ & _ & H). unfold poolSize. lia. Qed.

(** Fewer steps than the circle is long do not lead back. *)
Lemma circle_not_back p k n : 0 <= p < n -> 0 <= k -> k + 1 < n -> (p + (k + 1)) mod n <> p.
Proof.
  intros Hp Hk Hn H. rewrite Z.mod_eq in H by lia.
  assert (Hq : n * ((p + (k + 1)) / n) = k + 1) by lia. assert (0 < (p + (k + 1)) / n) by nia. nia.
Qed.

Lemma keeps_step domain v6 base bits a k s d w :
  keeps domain v6 base bits a k s -> base + 2 <= a < lastOf v6 base bits -> 0 <= k -> k + 1 < poolSize v6 base bits ->
  storable d ->
  exists s' r k', Create d w s = Ret (s', r) /\ k <= k' <= k + 1 /\ keeps domain v6 base bits a k' s'.
Proof.
  intros (Hs & (c & Hpos & Hc2 & Hpk) & st & Est & Hld) Ha Hk0 Hk Hd.
  pose proof (Create_cases d w s st Hs Hd Est) as H.
  destruct (domainOf st d w) as [x|].
  { exists s, (Ok x), k. split; [done|]. split; [lia|]. split; [done|]. split; [by eauto|by eauto]. }
  destruct H as [(_ & e & E)|(base' & bits' & c' & s' & Hpos' & E & Hh)].
  { exists s, (Err e), k. split; [done|]. split; [lia|]. split; [done|]. split; [by eauto|by eauto]. }
  destruct (handed_storeOk _ _ _ _ _ _ _ Hs Hpos' Hh) as [Hs' Hp'].
  pose proof Hh as (Hsame & Hcur & Hother & Hst). destruct (Hst st Est) as (st' & Est' & Hsok' & Hload).
  assert (Hap : plain (addrAt v6 a)).
  { apply addrAt_plain. destruct Hpos as (_ & Hg & _). destruct Hg as (Hb & Hn & Hr). pose proof (lastOf_bound v6 base bits Hb Hn). lia. }
  destruct (bool_decide_reflect (w = v6)) as [->|Hne].
  - destruct (positioned_unique _ _ _ _ _ _ _ _ Hpos' Hpos) as (-> & -> & ->).
    pose proof Hpos as (_ & Hg & _ & _ & Hcb). pose proof Hg as (_ & _ & Hr).
    pose proof (nextNum_bound base (lastOf v6 base bits) c Hr Hcb) as Hnb.
    pose proof (nextNum_pos base (lastOf v6 base bits) c Hr Hcb) as Hnp.
    assert (Hnk : posOf base (nextNum base (lastOf v6 base bits) c) = (posOf base a + (k + 1)) mod poolSize v6 base bits).
    { rewrite Hnp, Hpk. fold (poolSize v6 base bits). rewrite Zplus_mod_idemp_l. f_equal. lia. }
    exists s', (Ok (addrAt v6 (nextNum base (lastOf v6 base bits) c))), (k + 1).
    split; [done|]. split; [lia|]. split; [done|]. split; [eexists; split; [exact Hp'|]; split; [lia|done]|].
    exists st'. split; [done|]. rewrite Hload by done. rewrite decide_False; [done|].
    intros Heq. apply addrAt_inj in Heq. rewrite <-Heq in Hnk. symmetry in Hnk. revert Hnk.
    apply circle_not_back; unfold posOf, poolSize in *; lia.
  - exists s', (Ok (addrAt w (nextNum base' (lastOf w base' bits') c'))), k.
    assert (w = negb v6) as -> by (by destruct w, v6).
    split; [done|]. split; [lia|]. split; [done|]. split.
    + exists c. split; [|done]. destruct Hpos as (E1 & E2 & E3 & E4 & E5). unfold positioned.
      destruct (Hsame v6) as [-> ->]. rewrite negb_involutive in Hother. by rewrite Hother.
    + exists st'. split; [done|]. rewrite Hload by done. rewrite decide_False; [done|]. by destruct v6.
Qed.

Lemma keeps_all domain v6 base bits a k s l :
  keeps domain v6 base bits a k s -> base + 2 <= a < lastOf v6 base bits -> 0 <= k ->
  k + Z.of_nat (length l) < poolSize v6 base bits -> Forall requestOk l ->
  exists s' k', createAll l s = Ret s' /\ keeps domain v6 base bits a k' s'.
Proof.
  intros Hk Ha H0 Hn Hl. revert k s Hk H0 Hn. induction Hl as [|[d w] l Hd _ IH]; intros k s Hk H0 Hn; cbn [createAll].
  { by eauto. }
  cbn [length] in Hn. destruct (keeps_step domain v6 base bits a k s d w Hk Ha H0) as (s1 & r & k1 & -> & Hk1 & Hkeep); [lia|done|].
  apply (IH k1 s1 Hkeep); lia.
Qed.

(** C22: a fakeip address is not given to another domain before every address of the
    range has been handed out: after an unknown domain got an address, up to one
    less than the size of the pool further requests, of either family, leave the
    address looked up as that domain, and the domain gets the same address again. *)
Theorem fakeip_not_recycled domain v6 s st base bits c l :
  storeOk s -> s.(storage) = Some st -> domainOf st domain v6 = None -> storable domain ->
  positioned v6 s base bits c -> Forall requestOk l -> Z.of_nat (length l) < poolSize v6 base bits ->
  exists a s1 s2, Create domain v6 s = Ret (s1, Ok a) /\ createAll l s1 = Ret s2 /\
    Store_Lookup a s2 = Ret (s2, Some domain) /\ Create domain v6 s2 = Ret (s2, Ok a).
Proof.
  intros Hs Est Hnew Hd Hpos Hl Hn. pose proof (Create_cases domain v6 s st Hs Hd Est) as H. rewrite Hnew in H.
  destruct H as [(Hr & _)|(base' & bits' & c0 & s1 & Hpos' & E & Hh)]; [destruct Hpos as (E & _); congruence|].
  destruct (positioned_unique _ _ _ _ _ _ _ _ Hpos' Hpos) as (-> & -> & ->). cbv zeta in E, Hh.
  destruct (handed_storeOk _ _ _ _ _ _ _ Hs Hpos' Hh) as [Hs1 Hp1].
  destruct Hpos' as (_ & Hg & _ & _ & Hcb). pose proof Hg as (_ & _ & Hr).
  pose proof (nextNum_bound base (lastOf v6 base bits) c Hr Hcb) as Hnb.
  set (x := nextNum base (lastOf v6 base bits) c) in *. pose proof (poolSize_pos v6 base bits Hg) as Hps.
  assert (Hxp : plain (addrAt v6 x)) by (apply addrAt_plain, (goodRange_addr v6 base bits); [done|lia]).
  assert (Hkeep : keeps domain v6 base bits x 0 s1).
  { split; [done|]. split.
    - exists x. split; [done|]. split; [lia|]. rewrite Z.add_0_r, Z.mod_small; [done|]. unfold posOf, poolSize. lia.
    - destruct Hh as (_ & _ & _ & Hst). destruct (Hst st Est) as (st1 & Est1 & _ & Hload). exists st1. split; [done|].
      rewrite Hload by done. by rewrite decide_True. }
  destruct (keeps_all domain v6 base bits x 0 s1 l Hkeep) as (s2 & k & E2 & Hs2 & _ & st2 & Est2 & Hld); [lia..|done|].
  pose proof Hs2 as (_ & _ & st2' & Est2' & Hsok). assert (st2' = st2) as -> by congruence.
  pose proof (domain_of_load st2 domain (addrAt v6 x) Hsok Hxp Hld) as Hdo. rewrite addrAt_Is4, negb_involutive in Hdo.
  destruct (known_pair domain v6 s2 st2 _ Hs2 Hd Est2 Hdo). by exists (addrAt v6 x), s1, s2.
Qed.

(** ** From the start *)

(** Every address the storage knows was handed out from a range of the store. *)
Definition fromRange v6 s (a : Addr) : Prop :=
  exists base bits x, rangeF v6 s = Some (rangeOf v6 base bits) /\ goodRange v6 base bits /\
    a = addrAt v6 x /\ base + 2 <= x < lastOf v6 base bits.

Definition allFromRanges s : Prop :=
  forall st a d, s.(storage) = Some st -> plain a -> loadOf st a = Some d -> exists v6, fromRange v6 s a.

Lemma fromRange_ranges v6 s s' a : (forall w, rangeF w s' = rangeF w s) -> fromRange v6 s a -> fromRange v6 s' a.
Proof. unfold fromRange. intros H. by rewrite H. Qed.

Lemma Create_fromRanges domain v6 s s' r : storeOk s -> storable domain -> allFromRanges s ->
  Create domain v6 s = Ret (s', r) -> allFromRanges s'.
Proof.
  intros Hs Hd Hall E. pose proof Hs as (_ & _ & st & Est & _). pose proof (Create_cases domain v6 s st Hs Hd Est) as H.
  destruct (domainOf st domain v6) as [a|]; [by rewrite H in E; injection E as <- _|].
  destruct H as [(_ & e & H)|(base & bits & c & s1 & Hpos & H & Hh)]; [by rewrite H in E; injection E as <- _|].
  cbv zeta in H, Hh. rewrite H in E. injection E as -> <-.
  destruct (handed_storeOk _ _ _ _ _ _ _ Hs Hpos Hh) as [_ Hp']. destruct Hh as (Hsame & _ & _ & Hst).
  destruct (Hst st Est) as (st' & Est' & _ & Hload). intros st0 b d' E0 Hb Hld. assert (st0 = st') as -> by congruence.
  rewrite Hload in Hld by done. destruct (decide (b = _)) as [->|Hne].
  - exists v6. destruct Hp' as (Hr & Hg & _ & _ & Hx). destruct Hpos as (_ & Hg' & _ & _ & Hc).
    eexists _, _, _. split; [done|]. split; [done|]. split; [done|].
    destruct Hg as (_ & _ & Hgr). pose proof (nextNum_bound base (lastOf v6 base bits) c Hgr Hc). lia.
  - destruct (Hall st b d' Est Hb Hld) as [w Hw]. exists w. eapply fromRange_ranges, Hw. intros w'. by destruct (Hsame w').
Qed.

Lemma createAll_fromRanges l s s' : storeOk s -> Forall requestOk l -> allFromRanges s ->
  createAll l s = Ret s' -> allFromRanges s'.
Proof.
  intros Hs Hl. revert s Hs. induction Hl as [|[d v6] l Hd _ IH]; intros s Hs Hall E; cbn [createAll] in E.
  { by injection E as <-. }
  destruct (Create_storeOk d v6 s Hs Hd) as (s1 & r & E1 & Hs1 & _). rewrite E1 in E.
  apply (IH s1 Hs1); [|done]. exact (Create_fromRanges d v6 s s1 r Hs Hd Hall E1).
Qed.

(** A range of a family, absent or with addresses to hand out. *)
Definition optRange (v6 : bool) (r : option IPPrefix) : Prop :=
  match r with None => True | Some p => exists base bits, p = rangeOf v6 base bits /\ goodRange v6 base bits end.

Lemma first_positioned v6 base bits s : rangeF v6 s = Some (rangeOf v6 base bits) -> goodRange v6 base bits ->
  lastF v6 s = broadcastAddress (rangeOf v6 base bits) -> currentF v6 s = Next (addrAt v6 base) ->
  positioned v6 s base bits (base + 1).
Proof.
  intros Hr Hg Hl Hc. pose proof Hg as (Hb & Hn & Hgr). pose proof (lastOf_bound v6 base bits Hb Hn).
  split_and!; try done; [|lia]. rewrite Hc. apply Next_at; lia.
Qed.

Lemma start_ok {RL : FakeIPResetLaws FL} st r4 r6 : sok st -> (FakeIPMetadata_ st).2 = None ->
  optRange false r4 -> optRange true r6 ->
  let s := Store_Start st (NewStore r4 r6) in
  storeOk s /\ allFromRanges s /\ rangeF false s = r4 /\ rangeF true s = r6.
Proof.
  intros Hs Hmd H4 H6. unfold Store_Start. pose proof (sok_metadata st Hs) as Hs1.
  destruct (FakeIPMetadata_ st) as [st1 md]. cbn in Hmd, Hs1. subst md. cbv zeta. split; [|split; [|done]].
  - split; [|split].
    + destruct r4 as [p|]; [right|by left]. destruct H4 as (base & bits & -> & Hg).
      exists base, bits, (base + 1). by apply first_positioned.
    + destruct r6 as [p|]; [right|by left]. destruct H6 as (base & bits & -> & Hg).
      exists base, bits, (base + 1). by apply first_positioned.
    + eexists. split; [done|]. by apply sok_reset.
  - intros st2 a d E _ Hld. cbn in E. injection E as <-. by rewrite load_reset in Hld.
Qed.

Lemma fromRange_contains v6 s a : fromRange v6 s a -> Is4 a = negb v6 /\ Contains s a = true /\
  exists p, rangeF v6 s = Some p /\ a <> p.(prefixAddr) /\ a <> Next p.(prefixAddr) /\ a <> broadcastAddress p.
Proof.
  intros (base & bits & x & Hr & Hg & -> & Hx). pose proof Hg as (Hb & Hn & Hgr). pose proof (lastOf_bound v6 base bits Hb Hn).
  split; [apply addrAt_Is4|]. split.
  - unfold Contains. assert (Hc : prefixContains (rangeF v6 s) (addrAt v6 x) = true) by (rewrite Hr; apply prefixContains_upto; lia).
    destruct v6; cbn [rangeF] in Hc; rewrite Hc; [apply orb_true_r|done].
  - exists (rangeOf v6 base bits). split; [done|]. rewrite broadcastAddress_last by done. unfold rangeOf. cbn [prefixAddr].
    rewrite Next_at by lia. split_and!; intros E%addrAt_inj; lia.
Qed.

(** What fakeip hands out can be looked up again: in a store that starts from
    empty storage, after any requests, a domain gets an address of the range of the
    family asked for, never the first two or the last one of the range, the address
    is looked up as the domain, and asking again gives the same address and changes
    nothing.  Without a range of the family the request is refused and nothing
    changes. *)
Theorem fakeip_roundtrip {RL : FakeIPResetLaws FL} st r4 r6 l domain (v6 : bool) :
  sok st -> (FakeIPMetadata_ st).2 = None -> optRange false r4 -> optRange true r6 ->
  Forall requestOk l -> storable domain ->
  exists s, createAll l (Store_Start st (NewStore r4 r6)) = Ret s /\
    match (if v6 then r6 else r4 : option IPPrefix) with
    | None => exists e, Create domain v6 s = Ret (s, Err e)
    | Some p => exists a s', Create domain v6 s = Ret (s', Ok a) /\
        Create domain v6 s' = Ret (s', Ok a) /\ Store_Lookup a s' = Ret (s', Some domain) /\
        Contains s' a = true /\ Is4 a = negb v6 /\
        a <> p.(prefixAddr) /\ a <> Next p.(prefixAddr) /\ a <> broadcastAddress p
    end.
Proof.
  intros Hst Hmd H4 H6 Hl Hd. destruct (start_ok st r4 r6 Hst Hmd H4 H6) as (Hs0 & Hall0 & Hr4 & Hr6).
  destruct (createAll_storeOk l _ Hs0 Hl) as (s & E & Hs & Hr). exists s. split; [done|].
  pose proof (createAll_fromRanges _ _ _ Hs0 Hl Hall0 E) as Hall.
  assert (Hrv : rangeF v6 s = if v6 then r6 else r4) by (rewrite Hr; by destruct v6). rewrite <-Hrv.
  destruct (Create_storeOk domain v6 s Hs Hd) as (s' & r & Ec & Hs' & Hr').
  pose proof (Create_fromRanges _ _ _ _ _ Hs Hd Hall Ec) as Hall'.
  pose proof Hs' as (_ & _ & st2 & Est2 & Hsok2).
  destruct (Create_result _ _ _ _ _ _ Hs Hd Ec Est2) as [(Hn & e & -> & ->)|(a & -> & Ha)]; [rewrite Hn; by eauto|].
  destruct (load_of_domain st2 domain v6 a Hsok2 Ha) as (Hp & Hld & H4a).
  destruct (Hall' st2 a domain Est2 Hp Hld) as [w Hw].
  destruct (fromRange_contains w s' a Hw) as (H4w & Hcon & p & Hpr & Hne).
  assert (w = v6) as -> by (destruct w, v6; cbn in *; congruence). rewrite Hr' in Hpr. rewrite Hpr.
  destruct (known_pair domain v6 s' st2 a Hs' Hd Est2 Ha). exists a, s'. split_and!; try done; apply Hne.
Qed.

(** ** Restart *)

Lemma domainOf_ext st st' d v6 : sok st -> sok st' -> (forall a, plain a -> loadOf st' a = loadOf st a) ->
  domainOf st' d v6 = domainOf st d v6.
Proof.
  intros Hs Hs' Hl.
  assert (Hone : forall x y, sok x -> sok y -> (forall a, plain a -> loadOf y a = loadOf x a) ->
    forall a, domainOf x d v6 = Some a -> domainOf y d v6 = Some a).
  { intros x y Hx Hy Hxy a E. destruct (load_of_domain x d v6 a Hx E) as (Hp & Hld & H4).
    replace v6 with (negb (Is4 a)) by (rewrite H4; apply negb_involutive). apply domain_of_load; [done..|]. by rewrite Hxy. }
  destruct (domainOf st d v6) as [a|] eqn:E; [by apply (Hone st st')|].
  destruct (domainOf st' d v6) as [a|] eqn:E'; [|done]. rewrite <-E. symmetry.
  apply (Hone st' st); [done..|intros b Hb; by rewrite Hl|done].
Qed.

(** A new store with the ranges and the positions of [s]. *)
Definition resumed s st : Store St := setStorage st (setCurrent s.(inet4Current) s.(inet6Current) (NewStore s.(inet4Range) s.(inet6Range))).

Lemma resumed_positioned v6 s st base bits c : positioned v6 s base bits c -> positioned v6 (resumed s st) base bits c.
Proof.
  intros (Hr & Hg & Hl & Hc & Hb).
  assert (Hr' : rangeF v6 (resumed s st) = rangeF v6 s) by (by destruct v6).
  assert (Hl' : lastF v6 (resumed s st) = match rangeF v6 s with Some p => broadcastAddress p | None => AddrZero end) by (by destruct v6).
  assert (Hc' : currentF v6 (resumed s st) = currentF v6 s) by (by destruct v6).
  unfold positioned. by rewrite Hr', Hl', Hc', Hr.
Qed.

Lemma resumed_ok s st : storeOk s -> sok st -> storeOk (resumed s st).
Proof.
  intros (H4 & H6 & _) Hs.
  assert (Hf : forall v6, famOk v6 s -> famOk v6 (resumed s st)).
  { intros v6 [[Hr Hc]|(base & bits & c & Hp)]; [left; by destruct v6|right; exists base, bits, c; by apply resumed_positioned]. }
  split_and!; [by apply Hf..|]. by exists st.
Qed.

(** A store that is closed and started again with the same ranges goes on where
    it was: the saved position is found, every address still belongs to its domain,
    and each domain gets the address it would have got without the restart. *)
Theorem fakeip_restart {KL : FakeIPKeepLaws FL} s : storeOk s -> positionOk (metadataOf s) ->
  exists s1 st1, Store_Close s = (s1, None) /\ s1.(storage) = Some st1 /\
    let s2 := Store_Start st1 (NewStore s.(inet4Range) s.(inet6Range)) in
    storeOk s2 /\ metadataOf s2 = metadataOf s /\
    (forall st a, s.(storage) = Some st -> plain a -> exists st2, s2.(storage) = Some st2 /\ loadOf st2 a = loadOf st a) /\
    forall domain v6 s3 a, storable domain -> Create domain v6 s = Ret (s3, Ok a) ->
      exists s4, Create domain v6 s2 = Ret (s4, Ok a).
Proof.
  intros Hs Hmd. pose proof Hs as (_ & _ & st & Est & Hst). unfold Store_Close. rewrite Est.
  pose proof (save_kept st _ Hst Hmd) as [Hsave Hmeta]. pose proof (sok_kept st _ Hst Hmd) as Hs2.
  pose proof (fun a => load_kept st _ a Hst Hmd) as Hload.
  destruct (FakeIPSaveMetadata (metadataOf s) st) as [st1 e] eqn:E1. cbn [fst snd] in *. subst e.
  exists (setStorage st1 s), st1. split; [done|]. split; [done|]. cbv zeta.
  assert (E2 : Store_Start st1 (NewStore s.(inet4Range) s.(inet6Range)) = resumed s (FakeIPMetadata_ st1).1).
  { unfold Store_Start. destruct (FakeIPMetadata_ st1) as [st2 md]. cbn in Hmeta. subst md. unfold sameRanges. cbn.
    by rewrite !bool_decide_true. }
  rewrite E2. set (st2 := (FakeIPMetadata_ st1).1) in *. pose proof (resumed_ok s st2 Hs Hs2) as Hok.
  split; [done|]. split; [done|]. split.
  - intros st0 a E0 Ha. exists st2. split; [done|]. rewrite Hload by done. congruence.
  - intros domain v6 s3 a Hd Ec. pose proof (Create_cases domain v6 s st Hs Hd Est) as H.
    pose proof (Create_cases domain v6 (resumed s st2) st2 Hok Hd eq_refl) as H2.
    rewrite (domainOf_ext st st2 domain v6 Hst Hs2) in H2 by (intros; by apply Hload).
    destruct (domainOf st domain v6) as [b|]; [rewrite H in Ec; injection Ec as _ <-; by eauto|].
    destruct H as [(_ & e & H)|(base & bits & c & s' & Hp & H & _)]; rewrite H in Ec; [discriminate Ec|injection Ec as _ <-].
    pose proof (resumed_positioned v6 s st2 base bits c Hp) as Hp'.
    destruct H2 as [(Hr & _)|(b2 & n2 & c2 & s4 & Hp2 & H2 & _)]; [destruct Hp' as [Hp' _]; congruence|].
    destruct (positioned_unique _ _ _ _ _ _ _ _ Hp2 Hp') as (-> & -> & ->). by eauto.
Qed.

End StoreProps.

(** ** A running store *)

Module FakeIPDemo.
#[local] Existing Instance text_exceptions.

Definition range4 : IPPrefix := mkIPPrefix (Addr4 0xC6120000) 29.

Definition demo : Store MemoryStorage := Store_Start NewMemoryStorage (NewStore (Some range4) None).

Lemma range4_good : goodRange false 0xC6120000 29.
Proof. split_and!; vm_compute; congruence. Qed.

Lemma demo_ok : storeOk demo.
Proof.
  refine (proj1 (start_ok (RL := memory_reset_laws) NewMemoryStorage (Some range4) None _ eq_refl _ I)).
  - split_and!; intros x y; cbn; rewrite ?lookup_empty; try done; split; intros H; try done; by destruct H.
  - exists 0xC6120000, 29. split; [done|apply range4_good].
Qed.

(** The circle: five addresses, then the first one again. *)
Lemma demo_circle :
  match createAll [("a", false); ("b", false); ("c", false); ("d", false); ("e", false); ("f", false)] demo with
  | Ret s => bool_decide (map (fun d => domainOf (default NewMemoryStorage s.(storage)) d false) ["a"; "b"; "e"; "f"] =
                          [None; Some (Addr4 0xC6120003); Some (Addr4 0xC6120006); Some (Addr4 0xC6120002)])
  | Panic => false
  end = true.
Proof. vm_compute. reflexivity. Qed.

(** A range of two addresses hands out addresses that are not in it. *)
Lemma tiny_range_leaves :
  match Create "a" false (Store_Start NewMemoryStorage (NewStore (Some (mkIPPrefix (Addr4 0xC6120000) 31)) None)) with
  | Ret (s, Ok a) => bool_decide (a = Addr4 0xC6120002) && negb (Contains s a)
  | _ => false
  end = true.
Proof. vm_compute. reflexivity. Qed.

Lemma fakeip_not_recycled_witness :
  exists a s1 s2, Create "a.example" false demo = Ret (s1, Ok a) /\
    createAll [("b.example", false); ("c.example", true); ("d.example", false); ("e.example", false)] s1 = Ret s2 /\
    Store_Lookup a s2 = Ret (s2, Some "a.example") /\ Create "a.example" false s2 = Ret (s2, Ok a).
Proof.
  apply (fakeip_not_recycled (FL := memory_storage_laws) "a.example" false demo NewMemoryStorage 0xC6120000 29 0xC6120001).
  - apply demo_ok.
  - reflexivity.
  - vm_compute. reflexivity.
  - exact I.
  - split_and!; try (vm_compute; congruence). apply range4_good.
  - repeat constructor.
  - vm_compute. reflexivity.
Defined.

Lemma fakeip_roundtrip_witness :
  exists s, createAll [("b.example", false)] demo = Ret s /\
    exists a s', Create "a.example" false s = Ret (s', Ok a) /\
      Create "a.example" false s' = Ret (s', Ok a) /\ Store_Lookup a s' = Ret (s', Some "a.example") /\
      Contains s' a = true /\ Is4 a = true /\
      a <> Addr4 0xC6120000 /\ a <> Next (Addr4 0xC6120000) /\ a <> broadcastAddress range4.
Proof.
  apply (fakeip_roundtrip (RL := memory_reset_laws) NewMemoryStorage (Some range4) None [("b.example", false)] "a.example" false).
  - split_and!; intros x y; cbn; rewrite ?lookup_empty; try done; split; intros H; try done; by destruct H.
  - reflexivity.
  - exists 0xC6120000, 29. split; [done|apply range4_good].
  - exact I.
  - repeat constructor.
  - exact I.
Defined.

End FakeIPDemo.
