(* ===== verification/CacheFile.v ===== *)
(** * The cache file

    [src/experimental/cachefile]: what survives a restart, in buckets of a bbolt
    database.  Fakeip addresses are in buckets of their own at the top; the selected
    outbounds, expanded groups, rule-sets and rejected DNS answers are in buckets
    below the cache id, when there is one.

    The database is not part of the repository: [Bolt] has the operations of its
    transactions, a bucket being named by the path of bucket names that leads to it.
    A transaction that answers an error is rolled back; one that panics (a damaged
    file, or contents that cannot be decoded) makes the cache file start over with
    an empty database.

    Start (opening the file and removing unknown buckets) is not modelled: the state
    is that of an open cache file. *)

From S2P Require Import Prelude GoStrings GoCrypto GoBinary RuleItems RuleMatch RuleBuild FakeIP.

Local Open Scope string_scope.
Local Open Scope list_scope.
Local Open Scope Z_scope.

(** ** Addresses and prefixes as bytes ([net/netip]) *)

Definition AsSlice (a : Addr) : list Z :=
  match a with AddrZero => [] | Addr4 v => be_bytes 4 v | Addr6 v _ => be_bytes 16 v end.

(** [Addr.MarshalBinary] and [UnmarshalBinary] *)
Definition addrMarshal (a : Addr) : list Z :=
  match a with AddrZero => [] | Addr4 v => be_bytes 4 v | Addr6 v zone => be_bytes 16 v ++ to_bytes zone end.

Section Unmarshal.
Context {EX : Exceptions}.

Definition addrUnmarshal (b : list Z) : result error Addr :=
  let n := length b in
  if (n =? 0)%nat then Ok AddrZero
  else if (n =? 4)%nat then Ok (Addr4 (be_value 0 b))
  else if (16 <=? n)%nat then Ok (Addr6 (be_value 0 (take 16 b)) (bytes (drop 16 b)))
  else Err (Errorf "unexpected slice size").

Definition withoutZone (a : Addr) : Addr := match a with Addr6 v _ => Addr6 v "" | _ => a end.

Definition BitLen (a : Addr) : Z := match a with AddrZero => 0 | Addr4 _ => 32 | Addr6 _ _ => 128 end.

(** [PrefixFrom]: no address gives the zero prefix; a number of bits that does not
    fit gives a prefix that is not valid, with [Bits] minus one. *)
Definition PrefixFrom (a : Addr) (bits : Z) : option IPPrefix :=
  match a with
  | AddrZero => None
  | _ => Some (mkIPPrefix (withoutZone a) (if (0 <=? bits) && (bits <=? BitLen a) then bits else -1))
  end.

(** [Prefix.MarshalBinary] and [UnmarshalBinary]; the zero prefix has [Bits] minus one. *)
Definition prefixMarshal (p : option IPPrefix) : list Z :=
  match p with
  | None => [255]
  | Some p => addrMarshal (withoutZone p.(prefixAddr)) ++ [p.(prefixBits) mod 256]
  end.

Definition prefixUnmarshal (b : list Z) : result error (option IPPrefix) :=
  match List.rev b with
  | [] => Err (Errorf "unexpected slice size")
  | bits :: front =>
      match addrUnmarshal (List.rev front) with
      | Err e => Err e
      | Ok a => Ok (PrefixFrom a bits)
      end
  end.

(** ** [FakeIPMetadata.MarshalBinary] ([src/adapter/fakeip_metadata.go]) *)

Definition element (data : list Z) : list Z := be_bytes 2 (Z.of_nat (length data) mod 2 ^ 16) ++ data.

Definition metadataMarshal (m : FakeIPMetadata) : list Z :=
  element (prefixMarshal m.(md_Inet4Range)) ++ element (prefixMarshal m.(md_Inet6Range)) ++
  element (addrMarshal m.(md_Inet4Current)) ++ element (addrMarshal m.(md_Inet6Current)).

(** [common.Must] panics when the length cannot be read. *)
Definition readElement {A} (unmarshal : list Z -> result error A) : Rd A := fun l =>
  match ReadUint 2 l with
  | Ret (Ok (n, l)) =>
      match ReadFull (Z.to_nat n) l with
      | Ret (Ok (b, l)) => match unmarshal b with Ok a => Ret (Ok (a, l)) | Err e => Ret (Err e) end
      | Ret (Err e) => Ret (Err e)
      | Panic => Panic
      end
  | _ => Panic
  end.

Definition metadataUnmarshal : Rd FakeIPMetadata :=
  rdBind (readElement prefixUnmarshal) (fun range4 =>
  rdBind (readElement prefixUnmarshal) (fun range6 =>
  rdBind (readElement addrUnmarshal) (fun current4 =>
  rdBind (readElement addrUnmarshal) (fun current6 =>
  rdRet (mkFakeIPMetadata range4 range6 current4 current6))))).

End Unmarshal.

(** ** [SavedBinary] ([src/adapter/experimental.go]) *)

(** [LastUpdated] is in seconds, which is what is written of it. *)
Record SavedBinary := mkSavedBinary { Content : list Z; LastUpdated : Z; LastEtag : string }.

Section Saved.
Context {EX : Exceptions} {VB : Varbin}.

Definition savedMarshal (s : SavedBinary) : list Z :=
  [1] ++ writeBytes s.(Content) ++ be_bytes 8 (s.(LastUpdated) mod 2 ^ 64) ++ writeBytes (to_bytes s.(LastEtag)).

(** The version is read and not looked at. *)
Definition savedUnmarshal : Rd SavedBinary :=
  rdBind (ReadUint 1) (fun _ =>
  rdBind readBytes (fun content =>
  rdBind ReadInt64 (fun lastUpdated =>
  rdBind readBytes (fun etag =>
  rdRet (mkSavedBinary content lastUpdated (bytes etag)))))).

End Saved.

(** ** The database *)

Class Bolt {EX : Exceptions} := {
  Tree : Type;
  boltBucket : list string -> Tree -> bool;
  boltGet : list string -> string -> Tree -> option string;
  boltPut : list string -> string -> string -> Tree -> result error Tree;
  boltDelete : list string -> string -> Tree -> result error Tree;
  boltCreateBucket : list string -> string -> Tree -> result error Tree;
  boltDeleteBucket : list string -> string -> Tree -> result error Tree;
  (** whether a transaction on the file panics, and whether writing it fails *)
  boltDamaged : Tree -> bool;
  boltCommit : Tree -> option error;
  (** opening the file after it was removed *)
  boltReopen : option Tree;
  (** [M.AddrFromIP] of [sing] *)
  addrFromIP : list Z -> Addr;
}.

Definition bucketSelected : string := "selected".
Definition bucketExpand : string := "group_expand".
Definition bucketMode : string := "clash_mode".
Definition bucketRuleSet : string := "rule_set".
Definition bucketRDRC : string := "rdrc2".
Definition cacheIDDefault : string := "default".
Definition bucketFakeIP : string := "fakeip_address".
Definition bucketFakeIPDomain4 : string := "fakeip_domain4".
Definition bucketFakeIPDomain6 : string := "fakeip_domain6".
Definition keyMetadata : string := "fakeip_metadata".

Record saveRDRCCacheKey := mkRDRCKey { TransportName : string; QuestionName : string; QType : Z }.

#[export] Instance saveRDRCCacheKey_eq_dec : EqDecision saveRDRCCacheKey.
Proof. solve_decision. Defined.

#[export] Instance saveRDRCCacheKey_countable : Countable saveRDRCCacheKey.
Proof.
  refine (inj_countable' (fun k => (k.(TransportName), k.(QuestionName), k.(QType)))
    (fun x => mkRDRCKey x.1.1 x.1.2 x.2) _).
  by intros [].
Defined.

Section CacheFile.
Context {EX : Exceptions} {VB : Varbin} {BO : Bolt}.

(** [DB] is [None] when reopening failed and the old one is closed; the timer holds
    the metadata its function saves. *)
Record CacheFile := mkCacheFile {
  cacheID : option string;
  storeFakeIP : bool;
  storeRDRC : bool;
  rdrcTimeout : Z;
  DB : option Tree;
  saveMetadataTimer : option FakeIPMetadata;
  saveDomain : gmap Addr string;
  saveAddress4 : gmap string Addr;
  saveAddress6 : gmap string Addr;
  saveRDRC : gmap saveRDRCCacheKey bool;
}.

Definition set_DB (db : option Tree) (c : CacheFile) : CacheFile :=
  mkCacheFile c.(cacheID) c.(storeFakeIP) c.(storeRDRC) c.(rdrcTimeout) db c.(saveMetadataTimer)
    c.(saveDomain) c.(saveAddress4) c.(saveAddress6) c.(saveRDRC).
Definition set_timer (timer : option FakeIPMetadata) (c : CacheFile) : CacheFile :=
  mkCacheFile c.(cacheID) c.(storeFakeIP) c.(storeRDRC) c.(rdrcTimeout) c.(DB) timer
    c.(saveDomain) c.(saveAddress4) c.(saveAddress6) c.(saveRDRC).
Definition set_save (domains : gmap Addr string) (address4 address6 : gmap string Addr) (c : CacheFile) : CacheFile :=
  mkCacheFile c.(cacheID) c.(storeFakeIP) c.(storeRDRC) c.(rdrcTimeout) c.(DB) c.(saveMetadataTimer)
    domains address4 address6 c.(saveRDRC).
Definition set_saveRDRC (m : gmap saveRDRCCacheKey bool) (c : CacheFile) : CacheFile :=
  mkCacheFile c.(cacheID) c.(storeFakeIP) c.(storeRDRC) c.(rdrcTimeout) c.(DB) c.(saveMetadataTimer)
    c.(saveDomain) c.(saveAddress4) c.(saveAddress6) m.

(** [option.CacheFileOptions], without the path. *)
Record CacheFileOptions := mkCacheFileOptions {
  co_CacheID : string;
  co_StoreFakeIP : bool;
  co_StoreRDRC : bool;
  co_RDRCTimeout : Z;
}.

(** [New], with the database [Start] opens. *)
Definition New (options : CacheFileOptions) (db : Tree) : CacheFile :=
  let cacheIDBytes := if negb (String.eqb options.(co_CacheID) "") then Some (bytes [0] +:+ options.(co_CacheID)) else None in
  let timeout :=
    if options.(co_StoreRDRC) then
      if 0 <? options.(co_RDRCTimeout) then options.(co_RDRCTimeout) else 7 * 24 * 3600 * 1000000000
    else 0 in
  mkCacheFile cacheIDBytes options.(co_StoreFakeIP) options.(co_StoreRDRC) timeout (Some db) None ∅ ∅ ∅ ∅.

(** ** Transactions *)

Definition TxM (A : Type) : Type := Tree -> outcome (result error (A * Tree)).

Definition txRet {A} (a : A) : TxM A := fun t => Ret (Ok (a, t)).
Definition txErr {A} (e : error) : TxM A := fun _ => Ret (Err e).
Definition txBind {A B} (m : TxM A) (f : A -> TxM B) : TxM B := fun t =>
  match m t with
  | Panic => Panic
  | Ret (Err e) => Ret (Err e)
  | Ret (Ok (a, t)) => f a t
  end.
(** An operation that changes the database. *)
Definition txDo (f : Tree -> result error Tree) : TxM () := fun t =>
  match f t with Err e => Ret (Err e) | Ok t => Ret (Ok (tt, t)) end.
(** One that reads it. *)
Definition txGet {A} (f : Tree -> A) : TxM A := fun t => Ret (Ok (f t, t)).

Definition osErrNotExist : error := Errorf "file does not exist".
Definition osErrInvalid : error := Errorf "invalid argument".

(** [resetDB]: the file is removed and opened again. *)
Definition resetDB (c : CacheFile) : CacheFile := set_DB boltReopen c.

(** Running a transaction; the text of a panic is left out of the error. *)
Definition transact {A} (fn : TxM A) (commit : CacheFile -> A -> Tree -> CacheFile * result error A) (c : CacheFile) : CacheFile * result error A :=
  match c.(DB) with
  | None => (c, Err (Errorf "database not open"))
  | Some t =>
      match (if boltDamaged t then Panic else fn t) with
      | Panic => (resetDB c, Err (E_New ["database corrupted: "]))
      | Ret (Err e) => (c, Err e)
      | Ret (Ok (a, t)) => commit c a t
      end
  end.

Definition view {A} (fn : TxM A) : CacheFile -> CacheFile * result error A := transact fn (fun c a _ => (c, Ok a)).

(** [batch] and [update] *)
Definition batch {A} (fn : TxM A) : CacheFile -> CacheFile * result error A :=
  transact fn (fun c a t => match boltCommit t with Some e => (c, Err e) | None => (set_DB (Some t) c, Ok a) end).

Definition errOf {A} (r : CacheFile * result error A) : CacheFile * option error :=
  (r.1, match r.2 with Ok _ => None | Err e => Some e end).

(** The value a [view] has left in a variable; the error is dropped. *)
Definition valueOr {A} (zero : A) (r : CacheFile * result error A) : CacheFile * A :=
  (r.1, match r.2 with Ok a => a | Err _ => zero end).

(** [bucket]: the path of a bucket, and whether it is there. *)
Definition bucketPath (c : CacheFile) (key : string) : list string :=
  match c.(cacheID) with None => [key] | Some id => [id; key] end.

Definition createBucket (c : CacheFile) (key : string) : TxM () :=
  match c.(cacheID) with
  | None => txDo (boltCreateBucket [] key)
  | Some id => txBind (txDo (boltCreateBucket [] id)) (fun _ => txDo (boltCreateBucket [id] key))
  end.

(** The value of a key, nothing when the bucket is missing. *)
Definition getIn (path : list string) (key : string) : TxM (option string) :=
  txGet (fun t => if boltBucket path t then boltGet path key t else None).

(** ** Modes, selections, groups, rule-sets *)

Definition modeKey (c : CacheFile) : string :=
  match c.(cacheID) with Some id => if String.eqb id "" then cacheIDDefault else id | None => cacheIDDefault end.

Definition LoadMode (c : CacheFile) : CacheFile * string :=
  valueOr "" (view (txBind (getIn [bucketMode] (modeKey c)) (fun v => txRet (default "" v))) c).

Definition StoreMode (mode : string) (c : CacheFile) : CacheFile * option error :=
  errOf (batch (txBind (txDo (boltCreateBucket [] bucketMode)) (fun _ => txDo (boltPut [bucketMode] (modeKey c) mode))) c).

Definition LoadSelected (group : string) (c : CacheFile) : CacheFile * string :=
  valueOr "" (view (txBind (getIn (bucketPath c bucketSelected) group) (fun v => txRet (default "" v))) c).

Definition StoreSelected (group selected : string) (c : CacheFile) : CacheFile * option error :=
  errOf (batch (txBind (createBucket c bucketSelected)
    (fun _ => txDo (boltPut (bucketPath c bucketSelected) group selected))) c).

(** The pair is [(isExpand, loaded)]. *)
Definition LoadGroupExpand (group : string) (c : CacheFile) : CacheFile * (bool * bool) :=
  valueOr (false, false) (view (txBind (getIn (bucketPath c bucketExpand) group) (fun v =>
    txRet (match v with
           | Some (String b EmptyString) => (ascii_Z b =? 1, true)
           | _ => (false, false)
           end))) c).

Definition StoreGroupExpand (group : string) (isExpand : bool) (c : CacheFile) : CacheFile * option error :=
  errOf (batch (txBind (createBucket c bucketExpand)
    (fun _ => txDo (boltPut (bucketPath c bucketExpand) group (bytes [if isExpand then 1 else 0])))) c).

Definition decodeWith {A} (f : Rd A) (b : string) : TxM A := fun t =>
  match f (to_bytes b) with
  | Panic => Panic
  | Ret (Err e) => Ret (Err e)
  | Ret (Ok (a, _)) => Ret (Ok (a, t))
  end.

Definition LoadRuleSet (tag : string) (c : CacheFile) : CacheFile * option SavedBinary :=
  valueOr None (view (txBind (txGet (boltBucket (bucketPath c bucketRuleSet))) (fun there =>
    if negb there then txErr osErrNotExist
    else txBind (txGet (boltGet (bucketPath c bucketRuleSet) tag)) (fun v =>
      if String.eqb (default "" v) "" then txErr osErrInvalid
      else txBind (decodeWith savedUnmarshal (default "" v)) (fun s => txRet (Some s))))) c).

Definition SaveRuleSet (tag : string) (set : SavedBinary) (c : CacheFile) : CacheFile * option error :=
  errOf (batch (txBind (createBucket c bucketRuleSet)
    (fun _ => txDo (boltPut (bucketPath c bucketRuleSet) tag (bytes (savedMarshal set))))) c).

(** ** Rejected DNS answers *)

Definition rdrcKey (qName : string) (qType : Z) : string := bytes (be_bytes 2 (qType mod 2 ^ 16)) +:+ qName.

Definition rdrcPath (c : CacheFile) (transportName : string) : list string := bucketPath c bucketRDRC ++ [transportName].

(** Whether the entry is live, and whether it is over; fewer than eight bytes panic. *)
Definition readRDRC (c : CacheFile) (transportName key : string) (now : Z) : TxM (bool * bool) :=
  txBind (getIn (rdrcPath c transportName) key) (fun v =>
    match v with
    | None => txRet (false, false)
    | Some content =>
        let b := to_bytes content in
        if (length b <? 8)%nat then fun _ => Panic
        else
          let expiresAt := wrap64 (be_value 0 (take 8 b)) * 1000000000 in
          if expiresAt <? now then txRet (false, true) else txRet (true, false)
    end).

Definition deleteIn (path : list string) (key : string) : TxM () :=
  txBind (txGet (boltBucket path)) (fun there => if there then txDo (boltDelete path key) else txRet tt).

Definition LoadRDRC (transportName qName : string) (qType : Z) (now : Z) (c : CacheFile) : CacheFile * bool :=
  match c.(saveRDRC) !! mkRDRCKey transportName qName qType with
  | Some rejected => (c, rejected)
  | None =>
      let key := rdrcKey qName qType in
      let '(c, r) := view (readRDRC c transportName key now) c in
      match r with
      | Err _ => (c, false)
      | Ok (rejected, deleteCache) =>
          if deleteCache then ((batch (deleteIn (rdrcPath c transportName) key) c).1, rejected) else (c, rejected)
      end
  end.

(** Times are in nanoseconds; the expiry is written in seconds.  The value is taken as
    it is when [Put] is called: the source gives its buffer back to the pool when the
    function of the transaction returns, before the commit, and bbolt keeps no copy of
    it, so what another user of the pool writes into the buffer in between, which is
    not modelled, would be stored instead. *)
Definition SaveRDRC (transportName qName : string) (qType : Z) (now : Z) (c : CacheFile) : CacheFile * option error :=
  errOf (batch (txBind (createBucket c bucketRDRC) (fun _ =>
    txBind (txDo (boltCreateBucket (bucketPath c bucketRDRC) transportName)) (fun _ =>
    txDo (boltPut (rdrcPath c transportName) (rdrcKey qName qType)
            (bytes (be_bytes 8 ((now + c.(rdrcTimeout)) / 1000000000 mod 2 ^ 64))))))) c).

(** [SaveRDRCAsync]: at once, and when its goroutine runs. *)
Definition SaveRDRCAsync (transportName qName : string) (qType : Z) (c : CacheFile) : CacheFile :=
  set_saveRDRC (<[ mkRDRCKey transportName qName qType := true ]> c.(saveRDRC)) c.

Definition SaveRDRCAsync_run (transportName qName : string) (qType : Z) (now : Z) (c : CacheFile) : CacheFile :=
  let c := (SaveRDRC transportName qName qType now c).1 in
  set_saveRDRC (delete (mkRDRCKey transportName qName qType) c.(saveRDRC)) c.

(** ** Fakeip *)

Definition cache_FakeIPMetadata (c : CacheFile) : CacheFile * option FakeIPMetadata :=
  valueOr None (batch (txBind (txGet (boltBucket [bucketFakeIP])) (fun there =>
    if negb there then txErr osErrNotExist
    else txBind (txGet (boltGet [bucketFakeIP] keyMetadata)) (fun v =>
      if String.eqb (default "" v) "" then txErr osErrInvalid
      else txBind (txDo (boltDelete [bucketFakeIP] keyMetadata)) (fun _ =>
           txBind (decodeWith metadataUnmarshal (default "" v)) (fun md => txRet (Some md)))))) c).

Definition cache_FakeIPSaveMetadata (md : FakeIPMetadata) (c : CacheFile) : CacheFile * option error :=
  errOf (batch (txBind (txDo (boltCreateBucket [] bucketFakeIP))
    (fun _ => txDo (boltPut [bucketFakeIP] keyMetadata (bytes (metadataMarshal md))))) c).

(** The function of the timer is made once; a later call only sets the timer again. *)
Definition cache_FakeIPSaveMetadataAsync (md : FakeIPMetadata) (c : CacheFile) : CacheFile :=
  match c.(saveMetadataTimer) with
  | None => set_timer (Some md) c
  | Some _ => c
  end.

(** The timer goes off. *)
Definition saveMetadataTimer_fires (c : CacheFile) : CacheFile :=
  match c.(saveMetadataTimer) with
  | None => c
  | Some md => (cache_FakeIPSaveMetadata md c).1
  end.

Definition domainBucket (v4 : bool) : string := if v4 then bucketFakeIPDomain4 else bucketFakeIPDomain6.

Definition storeAddress (address : Addr) (domain : string) : TxM () :=
  let key := bytes (AsSlice address) in
  txBind (txDo (boltCreateBucket [] bucketFakeIP)) (fun _ =>
  txBind (txGet (boltGet [bucketFakeIP] key)) (fun oldDomain =>
  txBind (txDo (boltPut [bucketFakeIP] key domain)) (fun _ =>
  txBind (txDo (boltCreateBucket [] (domainBucket (Is4 address)))) (fun _ =>
  txBind (match oldDomain with
          | Some old => txDo (boltDelete [domainBucket (Is4 address)] old)
          | None => txRet tt
          end) (fun _ =>
  txDo (boltPut [domainBucket (Is4 address)] domain key)))))).

Definition cache_FakeIPStore (address : Addr) (domain : string) (c : CacheFile) : CacheFile * option error :=
  errOf (batch (storeAddress address domain) c).

(** [FakeIPStoreAsync]: at once, and when its goroutine runs. *)
Definition cache_FakeIPStoreAsync (address : Addr) (domain : string) (c : CacheFile) : CacheFile :=
  let '(a4, a6) :=
    match c.(saveDomain) !! address with
    | Some oldDomain => if Is4 address then (delete oldDomain c.(saveAddress4), c.(saveAddress6))
                        else (c.(saveAddress4), delete oldDomain c.(saveAddress6))
    | None => (c.(saveAddress4), c.(saveAddress6))
    end in
  if Is4 address then set_save (<[ address := domain ]> c.(saveDomain)) (<[ domain := address ]> a4) a6 c
  else set_save (<[ address := domain ]> c.(saveDomain)) a4 (<[ domain := address ]> a6) c.

Definition cache_FakeIPStoreAsync_run (address : Addr) (domain : string) (c : CacheFile) : CacheFile :=
  let c := (cache_FakeIPStore address domain c).1 in
  if Is4 address then set_save (delete address c.(saveDomain)) (delete domain c.(saveAddress4)) c.(saveAddress6) c
  else set_save (delete address c.(saveDomain)) c.(saveAddress4) (delete domain c.(saveAddress6)) c.

Definition cache_FakeIPLoad (address : Addr) (c : CacheFile) : CacheFile * option string :=
  match c.(saveDomain) !! address with
  | Some domain => (c, Some domain)
  | None =>
      let '(c, domain) := valueOr "" (view (txBind (getIn [bucketFakeIP] (bytes (AsSlice address))) (fun v => txRet (default "" v))) c) in
      (c, if negb (String.eqb domain "") then Some domain else None)
  end.

Definition cache_FakeIPLoadDomain (domain : string) (isIPv6 : bool) (c : CacheFile) : CacheFile * option Addr :=
  match (if negb isIPv6 then c.(saveAddress4) else c.(saveAddress6)) !! domain with
  | Some address => (c, Some address)
  | None =>
      let '(c, address) :=
        valueOr AddrZero (view (txBind (txGet (boltBucket [domainBucket (negb isIPv6)])) (fun there =>
          if there then txBind (txGet (boltGet [domainBucket (negb isIPv6)] domain))
                          (fun v => txRet (addrFromIP (to_bytes (default "" v))))
          else txRet AddrZero)) c) in
      (c, if addrIsValid address then Some address else None)
  end.

Definition cache_FakeIPReset (c : CacheFile) : CacheFile * option error :=
  errOf (batch (txBind (txDo (boltDeleteBucket [] bucketFakeIP)) (fun _ =>
    txBind (txDo (boltDeleteBucket [] bucketFakeIPDomain4)) (fun _ =>
    txDo (boltDeleteBucket [] bucketFakeIPDomain6)))) c).

#[export] Instance cache_storage : FakeIPStorage CacheFile := {|
  FakeIPMetadata_ := cache_FakeIPMetadata;
  FakeIPSaveMetadata := cache_FakeIPSaveMetadata;
  FakeIPSaveMetadataAsync := cache_FakeIPSaveMetadataAsync;
  FakeIPStore_ := cache_FakeIPStore;
  FakeIPLoad := cache_FakeIPLoad;
  FakeIPLoadDomain := cache_FakeIPLoadDomain;
  FakeIPReset := cache_FakeIPReset;
|}.

End CacheFile.
