(* ===== verification/BoltLaws.v ===== *)
(** * What the cache file relies on of its database

    The documented behaviour of bbolt's buckets as a class of laws, and a database
    of nested buckets as a finite map that satisfies them. *)

From S2P Require Import Prelude GoStrings GoCrypto GoBinary RuleItems RuleMatch RuleBuild FakeIP FakeIPProps CacheFile.

Local Open Scope string_scope.
Local Open Scope list_scope.
Local Open Scope Z_scope.

Definition MaxKeySize : Z := 32768.
Definition MaxValueSize : Z := 2 ^ 31 - 2.

Definition keyOk (k : string) : Prop := k <> "" /\ Z.of_nat (String.length k) <= MaxKeySize.
Definition valueOk (v : string) : Prop := Z.of_nat (String.length v) <= MaxValueSize.

(** Path [q] is bucket [p] or inside it. *)
Definition under (p q : list string) : bool := bool_decide (p `prefix_of` q).

Class BoltLaws {EX : Exceptions} (BO : Bolt) := {
  (** a database on a disk that does not fail *)
  healthy : Tree -> Prop;
  healthy_damaged t : healthy t -> boltDamaged t = false;
  healthy_commit t : healthy t -> boltCommit t = None;
  root_bucket t : boltBucket [] t = true;
  root_keys k t : boltGet [] k t = None;
  get_bucket p k t : boltBucket (p ++ [k]) t = true -> boltGet p k t = None;
  get_missing p k t : boltBucket p t = false -> boltGet p k t = None;
  put_ok p k v t : p <> [] -> boltBucket p t = true -> boltBucket (p ++ [k]) t = false -> keyOk k -> valueOk v -> healthy t ->
    exists t', boltPut p k v t = Ok t' /\ healthy t' /\
      (forall q j, boltGet q j t' = if decide (q = p /\ j = k) then Some v else boltGet q j t) /\
      forall q, boltBucket q t' = boltBucket q t;
  delete_ok p k t : p <> [] -> boltBucket p t = true -> boltBucket (p ++ [k]) t = false -> healthy t ->
    exists t', boltDelete p k t = Ok t' /\ healthy t' /\
      (forall q j, boltGet q j t' = if decide (q = p /\ j = k) then None else boltGet q j t) /\
      forall q, boltBucket q t' = boltBucket q t;
  createBucket_ok p k t : boltBucket p t = true -> boltGet p k t = None -> keyOk k -> healthy t ->
    exists t', boltCreateBucket p k t = Ok t' /\ healthy t' /\
      (forall q j, boltGet q j t' = boltGet q j t) /\
      forall q, boltBucket q t' = bool_decide (q = p ++ [k]) || boltBucket q t;
  deleteBucket_ok p k t : boltBucket (p ++ [k]) t = true -> healthy t ->
    exists t', boltDeleteBucket p k t = Ok t' /\ healthy t' /\
      (forall q j, boltGet q j t' = if under (p ++ [k]) q then None else boltGet q j t) /\
      forall q, boltBucket q t' = negb (under (p ++ [k]) q) && boltBucket q t;
  deleteBucket_missing p k t : boltBucket (p ++ [k]) t = false -> exists e, boltDeleteBucket p k t = Err e;
  addrFromIP_nil : addrFromIP [] = AddrZero;
  addrFromIP_slice a : plain a -> addrFromIP (AsSlice a) = a;
}.

(** ** Nested buckets as a map from paths *)

Abbreviation MTree := (gmap (list string) (gmap string string)) (only parsing).

Section Model.
Context {EX : Exceptions}.

Definition mBucket (p : list string) (t : MTree) : bool := bool_decide (p = []) || bool_decide (is_Some (t !! p)).

Definition mGet (p : list string) (k : string) (t : MTree) : option string :=
  if bool_decide (p = []) || mBucket (p ++ [k]) t then None else t !! p ≫= lookup k.

Definition keyError (k : string) : option error :=
  if String.eqb k "" then Some (Errorf "key required")
  else if MaxKeySize <? Z.of_nat (String.length k) then Some (Errorf "key too large") else None.

Definition mUpdate (p : list string) (k : string) (f : gmap string string -> gmap string string) (t : MTree) : result error MTree :=
  if bool_decide (p = []) || mBucket (p ++ [k]) t then Err (Errorf "incompatible value")
  else match t !! p with None => Err (Errorf "bucket not found") | Some b => Ok (<[ p := f b ]> t) end.

Definition mPut (p : list string) (k v : string) (t : MTree) : result error MTree :=
  match keyError k with
  | Some e => Err e
  | None => if MaxValueSize <? Z.of_nat (String.length v) then Err (Errorf "value too large") else mUpdate p k <[ k := v ]> t
  end.

Definition mDelete (p : list string) (k : string) (t : MTree) : result error MTree := mUpdate p k (delete k) t.

Definition mCreateBucket (p : list string) (k : string) (t : MTree) : result error MTree :=
  match keyError k with
  | Some e => Err e
  | None =>
      if mBucket (p ++ [k]) t then Ok t
      else match mGet p k t with
           | Some _ => Err (Errorf "incompatible value")
           | None => if mBucket p t then Ok (<[ p ++ [k] := ∅ ]> t) else Err (Errorf "bucket not found")
           end
  end.

Definition mDeleteBucket (p : list string) (k : string) (t : MTree) : result error MTree :=
  if mBucket (p ++ [k]) t then Ok (alter (delete k) p (filter (fun x => under (p ++ [k]) x.1 = false) t)) else Err (Errorf "bucket not found").

Definition mAddrFromIP (b : list Z) : Addr :=
  if (length b =? 4)%nat then Addr4 (be_value 0 b)
  else if (length b =? 16)%nat then Addr6 (be_value 0 b) "" else AddrZero.

#[export] Instance map_bolt : Bolt := {|
  Tree := MTree;
  boltBucket := mBucket;
  boltGet := mGet;
  boltPut := mPut;
  boltDelete := mDelete;
  boltCreateBucket := mCreateBucket;
  boltDeleteBucket := mDeleteBucket;
  boltDamaged := fun _ => false;
  boltCommit := fun _ => None;
  boltReopen := Some ∅;
  addrFromIP := mAddrFromIP;
|}.

Lemma mBucket_insert (p q : list string) (b : gmap string string) (t : MTree) : mBucket q (<[ p := b ]> t) = bool_decide (q = p) || mBucket q t.
Proof.
  unfold mBucket. destruct (decide (q = p)) as [->|Hne].
  - rewrite lookup_insert_eq, (bool_decide_true (p = p)), (bool_decide_true (is_Some _)) by (done || by eexists). by rewrite orb_true_r.
  - by rewrite lookup_insert_ne, (bool_decide_false (q = p)) by done.
Qed.

Lemma keyError_ok k : keyOk k -> keyError k = None.
Proof.
  intros [Hne Hl]. unfold keyError. destruct (String.eqb_spec k ""); [done|]. by rewrite (proj2 (Z.ltb_ge _ _)).
Qed.

(** Changing one key of a bucket that is there. *)
Lemma mUpdate_ok (p : list string) (k : string) (f : gmap string string -> gmap string string) (v : option string) (t : MTree) : p <> [] -> mBucket p t = true -> mBucket (p ++ [k]) t = false ->
  (forall b, f b !! k = v) -> (forall b j, j <> k -> f b !! j = b !! j) ->
  exists t', mUpdate p k f t = Ok t' /\
    (forall q j, mGet q j t' = if decide (q = p /\ j = k) then v else mGet q j t) /\
    forall q, mBucket q t' = mBucket q t.
Proof.
  intros Hp Hb Hk Hf1 Hf2. unfold mUpdate. rewrite Hk, bool_decide_false by done. cbn [orb].
  unfold mBucket in Hb. rewrite bool_decide_false in Hb by done. apply bool_decide_eq_true in Hb as [b Hb]. rewrite Hb.
  eexists. split; [done|].
  assert (HB : forall q, mBucket q (<[ p := f b ]> t) = mBucket q t).
  { intros q. rewrite mBucket_insert. destruct (decide (q = p)) as [->|]; [|by rewrite bool_decide_false].
    rewrite bool_decide_true by done. unfold mBucket. rewrite Hb, (bool_decide_true (is_Some _)) by (by eexists). by rewrite orb_true_r. }
  split; [|done]. intros q j. unfold mGet. rewrite HB.
  destruct (decide (q = p)) as [->|Hne].
  - rewrite lookup_insert_eq, Hb. cbn. destruct (decide (j = k)) as [->|Hj].
    + rewrite decide_True by done. by rewrite bool_decide_false, Hk, Hf1 by done.
    + rewrite decide_False by (by intros []). by rewrite Hf2.
  - rewrite decide_False by (by intros []). by rewrite lookup_insert_ne by done.
Qed.

Lemma mCreateBucket_ok (p : list string) (k : string) (t : MTree) : mBucket p t = true -> mGet p k t = None -> keyOk k ->
  exists t', mCreateBucket p k t = Ok t' /\ (forall q j, mGet q j t' = mGet q j t) /\
    forall q, mBucket q t' = bool_decide (q = p ++ [k]) || mBucket q t.
Proof.
  intros Hp Hg Hk. unfold mCreateBucket. rewrite keyError_ok by done.
  destruct (mBucket (p ++ [k]) t) eqn:E.
  - eexists. split; [done|]. split; [done|]. intros q. destruct (decide (q = p ++ [k])) as [->|]; [|by rewrite bool_decide_false].
    by rewrite E, orb_true_r.
  - rewrite Hg, Hp. eexists. split; [done|]. split; [|intros q; apply mBucket_insert]. intros q j. unfold mGet.
    rewrite mBucket_insert. unfold mBucket in E. apply orb_false_iff in E as [_ E]. apply bool_decide_eq_false in E.
    assert (En : t !! (p ++ [k]) = None) by (by apply eq_None_not_Some).
    destruct (decide (q = p ++ [k])) as [->|Hne].
    + rewrite lookup_insert_eq, En. cbn. rewrite lookup_empty. by repeat case_match.
    + rewrite lookup_insert_ne by done. destruct (decide (q ++ [j] = p ++ [k])) as [Heq|]; [|by rewrite (bool_decide_false (q ++ [j] = _))].
      apply app_inj_tail in Heq as [-> ->]. rewrite (bool_decide_true (p ++ [k] = p ++ [k])) by done. cbn [orb].
      unfold mGet in Hg. rewrite orb_true_r. symmetry. exact Hg.
Qed.

Lemma under_child (p : list string) (k : string) (q : list string) (j : string) : under (p ++ [k]) q = false -> under (p ++ [k]) (q ++ [j]) = true -> q = p /\ j = k.
Proof.
  unfold under. intros Eu%bool_decide_eq_false [x Hx]%bool_decide_eq_true.
  destruct x as [|y x _] using rev_ind; [rewrite app_nil_r in Hx; by apply app_inj_tail in Hx as [-> ->]|].
  rewrite app_assoc in Hx. apply app_inj_tail in Hx as [-> _]. exfalso. apply Eu. by apply prefix_app_r.
Qed.

Lemma under_root (p : list string) (k : string) : under (p ++ [k]) [] = false.
Proof. unfold under. apply bool_decide_false. intros [x Hx]. by destruct p. Qed.

Lemma under_self (p : list string) (k : string) : under (p ++ [k]) p = false.
Proof.
  unfold under. apply bool_decide_false. intros Hx%prefix_length. rewrite length_app in Hx. cbn in Hx. lia.
Qed.

Lemma mBucket_deleted (p : list string) (k : string) (q : list string) (t : MTree) :
  mBucket q (alter (delete k) p (filter (fun x => under (p ++ [k]) x.1 = false) t)) = negb (under (p ++ [k]) q) && mBucket q t.
Proof.
  unfold mBucket. destruct (decide (q = [])) as [->|Hq].
  { by rewrite (bool_decide_true ([] = [])), under_root. }
  rewrite (bool_decide_false (q = [])) by done. cbn [orb].
  rewrite (bool_decide_ext _ (is_Some (filter (fun x => under (p ++ [k]) x.1 = false) t !! q))) by apply lookup_alter_is_Some.
  rewrite map_lookup_filter. destruct (under (p ++ [k]) q) eqn:Eu; cbn.
  - apply bool_decide_false. destruct (t !! q); cbn; [|by intros []]. rewrite option_guard_False by congruence. by intros [].
  - apply bool_decide_ext. destruct (t !! q); cbn; [|done]. by rewrite option_guard_True.
Qed.

Lemma mDeleteBucket_ok (p : list string) (k : string) (t : MTree) : mBucket (p ++ [k]) t = true ->
  exists t', mDeleteBucket p k t = Ok t' /\ (forall q j, mGet q j t' = if under (p ++ [k]) q then None else mGet q j t) /\
    forall q, mBucket q t' = negb (under (p ++ [k]) q) && mBucket q t.
Proof.
  intros Hb. unfold mDeleteBucket. rewrite Hb. eexists. split; [done|]. split; [|intros q; apply mBucket_deleted].
  intros q j. unfold mGet. rewrite mBucket_deleted.
  destruct (under (p ++ [k]) q) eqn:Eu.
  - case_match; [done|]. rewrite lookup_alter_ne by (intros ->; by rewrite under_self in Eu).
    rewrite map_lookup_filter. destruct (t !! q); cbn; [|done]. by rewrite option_guard_False by congruence.
  - destruct (under (p ++ [k]) (q ++ [j])) eqn:Ej; cbn [negb andb].
    + destruct (under_child p k q j Eu Ej) as [-> ->]. rewrite Hb, orb_false_r, orb_true_r. case_match; [done|].
      rewrite lookup_alter_eq. destruct (filter _ t !! p); cbn; [by rewrite lookup_delete_eq|done].
    + case_match; [done|]. destruct (decide (q = p)) as [->|Hne].
      * rewrite lookup_alter_eq, map_lookup_filter. destruct (t !! p); cbn; [|done]. rewrite option_guard_True by done. cbn.
        destruct (decide (j = k)) as [->|]; [|by rewrite lookup_delete_ne].
        exfalso. apply bool_decide_eq_false in Ej. by apply Ej.
      * rewrite lookup_alter_ne by done. rewrite map_lookup_filter. destruct (t !! q); cbn; [|done]. by rewrite option_guard_True.
Qed.

Lemma AsSlice_bytes a : plain a -> byte_list (AsSlice a).
Proof. destruct a; [done|intros _; apply be_bytes_range..]. Qed.

Lemma be_bytes_16 v : 0 <= v < 2 ^ 128 -> be_value 0 (be_bytes 16 v) = v.
Proof. intros H. by apply be_value_be_bytes. Qed.

Lemma be_bytes_4 v : 0 <= v < 2 ^ 32 -> be_value 0 (be_bytes 4 v) = v.
Proof. intros H. by apply be_value_be_bytes. Qed.

Lemma mAddrFromIP_slice a : plain a -> mAddrFromIP (AsSlice a) = a.
Proof.
  intros Ha. unfold mAddrFromIP. destruct a as [|v|v zone]; [done|..]; cbn [AsSlice]; rewrite be_bytes_length; cbn [Nat.eqb].
  - by rewrite be_bytes_4.
  - destruct Ha as [Ha ->]. by rewrite be_bytes_16.
Qed.

#[export] Instance map_bolt_laws : BoltLaws map_bolt.
Proof.
  refine {| healthy := fun _ => True |}; cbn [boltDamaged boltCommit boltBucket boltGet boltPut boltDelete boltCreateBucket boltDeleteBucket addrFromIP map_bolt Tree].
  - done.
  - done.
  - done.
  - done.
  - intros p k t H. unfold mGet. by rewrite H, orb_true_r.
  - intros p k t H. unfold mGet, mBucket in *. apply orb_false_iff in H as [_ H]. apply bool_decide_eq_false in H.
    apply eq_None_not_Some in H. rewrite H. by case_match.
  - intros p k v t Hp Hb Hk Hko Hvo _. destruct (mUpdate_ok p k <[ k := v ]> (Some v) t Hp Hb Hk) as (t' & E & Hg & HB).
    + intros b. apply lookup_insert_eq.
    + intros b j Hj. by apply lookup_insert_ne.
    + exists t'. unfold mPut. rewrite keyError_ok by done. by rewrite (proj2 (Z.ltb_ge _ _)).
  - intros p k t Hp Hb Hk _. destruct (mUpdate_ok p k (delete k) None t Hp Hb Hk) as (t' & E & Hg & HB).
    + intros b. apply lookup_delete_eq.
    + intros b j Hj. by apply lookup_delete_ne.
    + by exists t'.
  - intros p k t Hp Hg Hk _. destruct (mCreateBucket_ok p k t Hp Hg Hk) as (t' & E & H1 & H2). by exists t'.
  - intros p k t Hb _. destruct (mDeleteBucket_ok p k t Hb) as (t' & E & H1 & H2). by exists t'.
  - intros p k t Hb. unfold mDeleteBucket. rewrite Hb. by eexists.
  - done.
  - apply mAddrFromIP_slice.
Defined.

End Model.
