(* ===== verification/CacheFileProps.v ===== *)
(** * The encodings of the cache file

    Fakeip metadata and saved rule-sets are read back as they were written. *)

From S2P Require Import Prelude GoStrings GoCrypto RuleItems RuleMatch RuleBuild GoBinary FakeIP FakeIPProps CacheFile BoltLaws.

Local Open Scope string_scope.
Local Open Scope list_scope.
Local Open Scope Z_scope.

Section Codec.
Context {EX : Exceptions}.

(** ** Addresses and prefixes *)

(** An address a store keeps: none, or one without a zone. *)
Definition addrOk (a : Addr) : Prop := a = AddrZero \/ plain a.

Definition prefixOk (p : option IPPrefix) : Prop :=
  match p with None => True | Some p => plain p.(prefixAddr) /\ 0 <= p.(prefixBits) <= BitLen p.(prefixAddr) end.

Lemma addrMarshal_length a : addrOk a -> (length (addrMarshal a) <= 16)%nat.
Proof.
  intros [->|Ha]; [cbn; lia|]. destruct a as [|v|v zone]; [done|..]; cbn [addrMarshal].
  - rewrite be_bytes_length. lia.
  - destruct Ha as [_ ->]. rewrite length_app, be_bytes_length. cbn. lia.
Qed.

Lemma addr_roundtrip a : addrOk a -> addrUnmarshal (addrMarshal a) = Ok a.
Proof.
  intros [->|Ha]; [done|]. unfold addrUnmarshal. destruct a as [|v|v zone]; [done|..]; cbn [addrMarshal].
  - rewrite be_bytes_length. cbn [Nat.eqb]. by rewrite be_bytes_4.
  - destruct Ha as [Ha ->]. rewrite app_nil_r, be_bytes_length. cbn [Nat.eqb Nat.leb].
    rewrite (take_ge (be_bytes 16 v)), (drop_ge (be_bytes 16 v)) by (rewrite be_bytes_length; lia).
    by rewrite be_bytes_16.
Qed.

Lemma withoutZone_plain a : plain a -> withoutZone a = a.
Proof. destruct a; [done|done|]. by intros [_ ->]. Qed.

Lemma prefix_roundtrip p : prefixOk p -> prefixUnmarshal (prefixMarshal p) = Ok p.
Proof.
  destruct p as [[a bits]|]; [|done]. intros [Ha Hb]. cbn in Ha, Hb. unfold prefixUnmarshal, prefixMarshal. cbn [prefixAddr prefixBits].
  rewrite rev_app_distr. cbn [List.rev app]. rewrite rev_involutive, withoutZone_plain by done.
  rewrite addr_roundtrip by (by right). f_equal.
  assert (Hm : bits mod 256 = bits) by (apply Z.mod_small; destruct a; cbn in Hb; lia). rewrite Hm.
  unfold PrefixFrom. rewrite withoutZone_plain by done. rewrite (proj2 (Z.leb_le 0 bits)), (proj2 (Z.leb_le bits _)) by lia.
  by destruct a.
Qed.

Lemma prefixMarshal_length p : prefixOk p -> (length (prefixMarshal p) <= 17)%nat.
Proof.
  destruct p as [[a bits]|]; [|cbn; lia]. intros [Ha _]. cbn in Ha. cbn [prefixMarshal prefixAddr prefixBits].
  rewrite length_app, withoutZone_plain by done. pose proof (addrMarshal_length a (or_intror Ha)). cbn. lia.
Qed.

(** ** Metadata *)

Lemma reads_element {A} (unmarshal : list Z -> result error A) data a :
  unmarshal data = Ok a -> Z.of_nat (length data) < 2 ^ 16 -> reads (readElement unmarshal) (element data) a.
Proof.
  intros Hu Hl rest. unfold readElement, element. rewrite <-app_assoc.
  rewrite (reads_ReadUint 2 (Z.of_nat (length data) mod 2 ^ 16)) by (apply Z.mod_pos_bound; lia).
  rewrite Z.mod_small, Nat2Z.id by lia. by rewrite reads_ReadFull, Hu.
Qed.

Definition metadataOk (m : FakeIPMetadata) : Prop :=
  prefixOk m.(md_Inet4Range) /\ prefixOk m.(md_Inet6Range) /\ addrOk m.(md_Inet4Current) /\ addrOk m.(md_Inet6Current).

Lemma reads_metadata m : metadataOk m -> reads metadataUnmarshal (metadataMarshal m) m.
Proof.
  intros (H1 & H2 & H3 & H4). destruct m as [r4 r6 c4 c6]. cbn in H1, H2, H3, H4. unfold metadataUnmarshal, metadataMarshal. cbn [md_Inet4Range md_Inet6Range md_Inet4Current md_Inet6Current].
  pose proof (prefixMarshal_length r4 H1). pose proof (prefixMarshal_length r6 H2).
  pose proof (addrMarshal_length c4 H3). pose proof (addrMarshal_length c6 H4).
  eapply reads_bind; [apply reads_element; [by apply prefix_roundtrip|lia]|].
  eapply reads_bind; [apply reads_element; [by apply prefix_roundtrip|lia]|].
  eapply reads_bind; [apply reads_element; [by apply addr_roundtrip|lia]|].
  apply reads_map with (f := fun x => mkFakeIPMetadata r4 r6 c4 x). apply reads_element; [by apply addr_roundtrip|lia].
Qed.

Lemma addrMarshal_bytes a : byte_list (addrMarshal a).
Proof.
  destruct a; cbn [addrMarshal]; [constructor|apply be_bytes_range|].
  apply Forall_app. split; [apply be_bytes_range|apply to_bytes_range].
Qed.

Lemma prefixMarshal_bytes p : byte_list (prefixMarshal p).
Proof.
  destruct p as [[a bits]|]; [|by repeat constructor]. cbn [prefixMarshal]. apply Forall_app.
  split; [apply addrMarshal_bytes|]. constructor; [by apply Z.mod_pos_bound|constructor].
Qed.

Lemma metadataMarshal_bytes m : byte_list (metadataMarshal m).
Proof.
  assert (He : forall d, byte_list d -> byte_list (element d)) by (intros d Hd; apply Forall_app; split; [apply be_bytes_range|done]).
  unfold metadataMarshal, byte_list. rewrite !Forall_app.
  split_and!; apply He; (apply prefixMarshal_bytes || apply addrMarshal_bytes).
Qed.

Lemma metadataMarshal_length m : metadataOk m -> (0 < length (metadataMarshal m) <= 100)%nat.
Proof.
  intros (H1 & H2 & H3 & H4). unfold metadataMarshal, element. rewrite !length_app, !be_bytes_length.
  pose proof (prefixMarshal_length _ H1). pose proof (prefixMarshal_length _ H2).
  pose proof (addrMarshal_length _ H3). pose proof (addrMarshal_length _ H4). lia.
Qed.

(** ** Saved rule-sets *)

Context {VB : Varbin} {VL : VarbinLaws VB}.

Definition savedOk (s : SavedBinary) : Prop :=
  byte_list s.(Content) /\ Z.of_nat (length s.(Content)) <= maxAlloc /\ int64_range s.(LastUpdated) /\
  Z.of_nat (String.length s.(LastEtag)) <= maxAlloc.

Lemma to_bytes_length s : length (to_bytes s) = String.length s.
Proof. unfold to_bytes. rewrite length_map. induction s; cbn; congruence. Qed.

Lemma reads_saved s : savedOk s -> reads savedUnmarshal (savedMarshal s) s.
Proof.
  intros (Hb & Hc & Ht & He). destruct s as [content updated etag]. cbn in Hb, Hc, Ht, He. unfold savedUnmarshal, savedMarshal. cbn [Content LastUpdated LastEtag].
  eapply reads_bind; [by apply (reads_ReadUint 1 1)|].
  eapply reads_bind; [by apply reads_readBytes|].
  eapply reads_bind; [by apply reads_ReadInt64|].
  rewrite <-(bytes_to_bytes etag) at 2. apply reads_map with (f := fun b => mkSavedBinary content updated (bytes b)).
  apply reads_readBytes. by rewrite to_bytes_length.
Qed.

Lemma writeBytes_bytes b : byte_list b -> Z.of_nat (length b) <= maxAlloc -> byte_list (writeBytes b).
Proof.
  intros Hb Hl. apply Forall_app. split; [|done]. apply WriteUvarint_bytes. unfold uint64_range, maxAlloc in *. lia.
Qed.

Lemma savedMarshal_bytes s : savedOk s -> byte_list (savedMarshal s).
Proof.
  intros (Hb & Hc & Ht & He). unfold savedMarshal, byte_list. rewrite !Forall_app. split_and!.
  - by repeat constructor.
  - by apply writeBytes_bytes.
  - apply be_bytes_range.
  - apply writeBytes_bytes; [apply to_bytes_range|by rewrite to_bytes_length].
Qed.

End Codec.

(** ** Theorems on the cache file

    An open cache file on a database without failures is a collection of maps: the
    mode, the selected outbounds, the expanded groups, the saved rule-sets, the
    rejected DNS answers and the fakeip addresses, each stored and loaded without
    touching the others. *)

Section CacheProps.
Context {EX : Exceptions} {VB : Varbin} {VL : VarbinLaws VB} {BO : Bolt} {BL : BoltLaws BO}.
Implicit Types (c : CacheFile) (t : Tree).

(** ** The shape of the database *)

Definition topNames : list string := [bucketMode; bucketFakeIP; bucketFakeIPDomain4; bucketFakeIPDomain6].
Definition subNames : list string := [bucketSelected; bucketExpand; bucketRuleSet].

(** Buckets that hold keys only. *)
Definition leaf c (p : list string) : Prop :=
  (exists key, key ∈ topNames /\ p = [key]) \/ (exists key, key ∈ subNames /\ p = bucketPath c key) \/
  exists transportName, p = rdrcPath c transportName.

(** Buckets that hold buckets only. *)
Definition inner c (p : list string) : Prop :=
  p = bucketPath c bucketRDRC \/ exists id, c.(cacheID) = Some id /\ p = [id].

(** A cache id starts with a zero byte. *)
Definition idOk c : Prop :=
  match c.(cacheID) with None => True | Some id => keyOk id /\ exists x, id = String Ascii.zero x end.

Definition shape c t : Prop :=
  (forall p k, leaf c p -> boltBucket (p ++ [k]) t = false) /\ (forall p k, inner c p -> boltGet p k t = None).

(** The cache file is open on [t]. *)
Definition openOn c t : Prop := c.(DB) = Some t /\ healthy t /\ shape c t /\ idOk c.

Lemma names_not_rdrc key : key ∈ topNames \/ key ∈ subNames -> key <> bucketRDRC.
Proof. intros H ->. by revert H; apply (bool_decide_unpack (~ _)). Qed.

Lemma topNames_not_id c key id : key ∈ topNames -> idOk c -> c.(cacheID) = Some id -> key <> id.
Proof.
  unfold idOk. intros Hk Hi E ->. rewrite E in Hi. destruct Hi as (_ & x & ->).
  unfold topNames in Hk. rewrite !elem_of_cons, elem_of_nil in Hk. by naive_solver.
Qed.

Lemma leaf_cases c p : leaf c p -> idOk c -> p <> [] /\ ~ inner c p /\ forall k, ~ leaf c (p ++ [k]) /\ ~ inner c (p ++ [k]).
Proof.
  intros Hl Hi. pose proof names_not_rdrc as HR. pose proof (fun key id Hk => topNames_not_id c key id Hk Hi) as HT.
  unfold leaf, inner, rdrcPath, bucketPath in *. destruct (cacheID c) as [id|] eqn:E;
    (destruct Hl as [(key & Hk & ->)|[(key & Hk & ->)|[tn ->]]]; (split; [done|split; [naive_solver|intros k; split; naive_solver]])).
Qed.

(** ** Steps of transactions *)

Definition only (p : list string) (k : string) (v : option string) t t' : Prop :=
  forall q j, boltGet q j t' = if decide (q = p /\ j = k) then v else boltGet q j t.

Lemma put_leaf c t p k v : idOk c -> leaf c p -> boltBucket p t = true -> keyOk k -> valueOk v -> healthy t -> shape c t ->
  exists t', boltPut p k v t = Ok t' /\ healthy t' /\ shape c t' /\ only p k (Some v) t t' /\
    forall q, boltBucket q t' = boltBucket q t.
Proof.
  intros Hi Hl Hb Hk Hv Hh [Hs1 Hs2]. destruct (leaf_cases c p Hl Hi) as (Hne & Hni & _).
  destruct (put_ok p k v t Hne Hb (Hs1 p k Hl) Hk Hv Hh) as (t' & E & Hh' & Hg & HB).
  exists t'. split; [done|]. split; [done|]. split; [|done]. split; [intros q j Hq; rewrite HB; by apply Hs1|].
  intros q j Hq. rewrite Hg, decide_False; [by apply Hs2|]. by intros [-> _].
Qed.

Lemma delete_leaf c t p k : idOk c -> leaf c p -> boltBucket p t = true -> healthy t -> shape c t ->
  exists t', boltDelete p k t = Ok t' /\ healthy t' /\ shape c t' /\ only p k None t t' /\
    forall q, boltBucket q t' = boltBucket q t.
Proof.
  intros Hi Hl Hb Hh [Hs1 Hs2]. destruct (leaf_cases c p Hl Hi) as (Hne & Hni & _).
  destruct (delete_ok p k t Hne Hb (Hs1 p k Hl) Hh) as (t' & E & Hh' & Hg & HB).
  exists t'. split; [done|]. split; [done|]. split; [|done]. split; [intros q j Hq; rewrite HB; by apply Hs1|].
  intros q j Hq. rewrite Hg, decide_False; [by apply Hs2|]. by intros [-> _].
Qed.

(** The database gained at most empty buckets, [p] among them. *)
Definition gained c (p : list string) t t' : Prop :=
  healthy t' /\ shape c t' /\ (forall q j, boltGet q j t' = boltGet q j t) /\ boltBucket p t' = true /\
  forall q, boltBucket q t = true -> boltBucket q t' = true.

Lemma make_bucket c t p k : idOk c -> leaf c (p ++ [k]) \/ inner c (p ++ [k]) -> boltBucket p t = true -> boltGet p k t = None ->
  keyOk k -> healthy t -> shape c t -> exists t', boltCreateBucket p k t = Ok t' /\ gained c (p ++ [k]) t t'.
Proof.
  intros Hi Hl Hb Hg Hk Hh [Hs1 Hs2]. destruct (createBucket_ok p k t Hb Hg Hk Hh) as (t' & E & Hh' & Hg' & HB).
  exists t'. split; [done|]. split; [done|]. split; [split|split; [done|split]].
  - intros q j Hq. rewrite HB, Hs1, orb_false_r by done. apply bool_decide_false. intros Heq.
    destruct (leaf_cases c q Hq Hi) as (_ & _ & Hn). destruct (Hn j) as [N1 N2]. rewrite Heq in N1, N2. tauto.
  - intros q j Hq. rewrite Hg'. by apply Hs2.
  - by rewrite HB, bool_decide_true.
  - intros q Hq. by rewrite HB, Hq, orb_true_r.
Qed.

Lemma gained_trans c p q t t1 t2 : gained c p t t1 -> gained c q t1 t2 -> gained c q t t2.
Proof.
  intros (H1 & H2 & H3 & H4 & H5) (K1 & K2 & K3 & K4 & K5). split; [done|]. split; [done|]. split; [|by auto].
  intros x j. by rewrite K3, H3.
Qed.

Lemma idOk_inner c id : c.(cacheID) = Some id -> inner c ([] ++ [id]).
Proof. intros E. right. by exists id. Qed.

(** [createBucket] makes the bucket of a known name. *)
Lemma createBucket_runs c t key : idOk c -> leaf c (bucketPath c key) \/ inner c (bucketPath c key) -> keyOk key ->
  healthy t -> shape c t -> exists t', createBucket c key t = Ret (Ok (tt, t')) /\ gained c (bucketPath c key) t t'.
Proof.
  intros Hi Hl Hk Hh Hs. unfold createBucket, bucketPath in *. destruct (cacheID c) as [id|] eqn:E.
  - assert (Hid : keyOk id) by (unfold idOk in Hi; rewrite E in Hi; apply Hi).
    destruct (make_bucket c t [] id Hi (or_intror (idOk_inner c id E)) (root_bucket t) (root_keys id t) Hid Hh Hs) as (t1 & E1 & G1).
    pose proof G1 as (Hh1 & Hs1 & _ & Hb1 & _).
    destruct (make_bucket c t1 [id] key Hi Hl Hb1) as (t2 & E2 & G2); try done.
    { apply Hs1. right. by exists id. }
    exists t2. unfold txBind, txDo. rewrite E1, E2. split; [done|]. by eapply gained_trans.
  - destruct (make_bucket c t [] key Hi Hl (root_bucket t) (root_keys key t) Hk Hh Hs) as (t1 & E1 & G1).
    exists t1. unfold txDo. by rewrite E1.
Qed.

Lemma createTop_runs c t key : idOk c -> leaf c [key] -> keyOk key -> healthy t -> shape c t ->
  exists t', txDo (boltCreateBucket [] key) t = Ret (Ok (tt, t')) /\ gained c [key] t t'.
Proof.
  intros Hi Hl Hk Hh Hs.
  destruct (make_bucket c t [] key Hi (or_introl Hl) (root_bucket t) (root_keys key t) Hk Hh Hs) as (t1 & E1 & G1).
  exists t1. unfold txDo. by rewrite E1.
Qed.

(** ** Whole transactions *)

Lemma view_runs {A} (m : TxM A) c t a t' : openOn c t -> m t = Ret (Ok (a, t')) -> view m c = (c, Ok a).
Proof. intros (E & Hh & _) Hm. unfold view, transact. by rewrite E, healthy_damaged, Hm. Qed.

Lemma batch_runs {A} (m : TxM A) c t a t' : openOn c t -> m t = Ret (Ok (a, t')) -> healthy t' ->
  batch m c = (set_DB (Some t') c, Ok a).
Proof. intros (E & Hh & _) Hm Hh'. unfold batch, transact. by rewrite E, healthy_damaged, Hm, healthy_commit. Qed.

Lemma batch_fails {A} (m : TxM A) c t e : openOn c t -> m t = Ret (Err e) -> batch m c = (c, Err e).
Proof. intros (E & Hh & _) Hm. unfold batch, transact. by rewrite E, healthy_damaged, Hm. Qed.

Lemma view_fails {A} (m : TxM A) c t e : openOn c t -> m t = Ret (Err e) -> view m c = (c, Err e).
Proof. intros (E & Hh & _) Hm. unfold view, transact. by rewrite E, healthy_damaged, Hm. Qed.

Lemma openOn_set c t t' : openOn c t -> healthy t' -> shape c t' -> openOn (set_DB (Some t') c) t'.
Proof. by intros (_ & _ & _ & Hi) Hh Hs. Qed.

(** Storing one value: the bucket is made and the key written. *)
Lemma store_runs c t (create : TxM ()) t1 p k v : openOn c t -> leaf c p ->
  create t = Ret (Ok (tt, t1)) -> gained c p t t1 -> keyOk k -> valueOk v ->
  exists t', errOf (batch (txBind create (fun _ => txDo (boltPut p k v))) c) = (set_DB (Some t') c, None) /\
    openOn (set_DB (Some t') c) t' /\ only p k (Some v) t t'.
Proof.
  intros Ho Hl E (Hh1 & Hs1 & Hg1 & Hb1 & _) Hk Hv. pose proof Ho as (_ & _ & _ & Hi).
  destruct (put_leaf c t1 p k v Hi Hl Hb1 Hk Hv Hh1 Hs1) as (t2 & E2 & Hh2 & Hs2 & Ho2 & _).
  exists t2. rewrite (batch_runs _ c t tt t2 Ho) by (done || unfold txBind, txDo; by rewrite E, E2).
  split; [done|]. split; [by eapply openOn_set|]. intros q j. by rewrite Ho2, Hg1.
Qed.

Lemma getIn_runs p k t : getIn p k t = Ret (Ok (boltGet p k t, t)).
Proof. unfold getIn, txGet. destruct (boltBucket p t) eqn:E; [done|]. by rewrite get_missing. Qed.

(** ** What is loaded, as a function of the database *)

Definition decoded (v : option string) : option SavedBinary :=
  if String.eqb (default "" v) "" then None
  else match savedUnmarshal (to_bytes (default "" v)) with Ret (Ok (s, _)) => Some s | _ => None end.

Definition expandOf (v : option string) : bool * bool :=
  match v with Some (String b EmptyString) => (ascii_Z b =? 1, true) | _ => (false, false) end.

Definition live (v : option string) (now : Z) : bool :=
  match v with
  | None => false
  | Some content =>
      let b := to_bytes content in
      negb (length b <? 8)%nat && negb (wrap64 (be_value 0 (take 8 b)) * 1000000000 <? now)
  end.

Definition nonEmpty (v : option string) : option string :=
  if negb (String.eqb (default "" v) "") then v else None.

Definition addressOf (v : option string) : option Addr :=
  let a := addrFromIP (to_bytes (default "" v)) in if addrIsValid a then Some a else None.

Lemma LoadMode_get c t : openOn c t -> LoadMode c = (c, default "" (boltGet [bucketMode] (modeKey c) t)).
Proof. intros Ho. unfold LoadMode. by erewrite view_runs; [|exact Ho|unfold txBind; by rewrite getIn_runs]. Qed.

Lemma LoadSelected_get c t g : openOn c t -> LoadSelected g c = (c, default "" (boltGet (bucketPath c bucketSelected) g t)).
Proof. intros Ho. unfold LoadSelected. by erewrite view_runs; [|exact Ho|unfold txBind; by rewrite getIn_runs]. Qed.

Lemma LoadGroupExpand_get c t g : openOn c t -> LoadGroupExpand g c = (c, expandOf (boltGet (bucketPath c bucketExpand) g t)).
Proof. intros Ho. unfold LoadGroupExpand. by erewrite view_runs; [|exact Ho|unfold txBind; by rewrite getIn_runs]. Qed.

Lemma LoadRuleSet_get c t tag : openOn c t -> (LoadRuleSet tag c).2 = decoded (boltGet (bucketPath c bucketRuleSet) tag t).
Proof.
  intros (E & Hh & _). unfold LoadRuleSet, decoded, view, transact, valueOr. rewrite E, healthy_damaged by done.
  unfold txBind, txGet, decodeWith. destruct (boltBucket (bucketPath c bucketRuleSet) t) eqn:Eb; cbn [negb].
  - destruct (String.eqb (default "" _) ""); [done|]. by destruct (savedUnmarshal _) as [[[]|]|].
  - by rewrite get_missing.
Qed.

Lemma LoadRDRC_get c t tn name ty now : openOn c t ->
  (LoadRDRC tn name ty now c).2 =
  match c.(saveRDRC) !! mkRDRCKey tn name ty with
  | Some rejected => rejected
  | None => live (boltGet (rdrcPath c tn) (rdrcKey name ty) t) now
  end.
Proof.
  intros (E & Hh & _). unfold LoadRDRC. destruct (saveRDRC c !! _); [done|].
  unfold view, transact. rewrite E, healthy_damaged by done. unfold readRDRC, txBind. rewrite getIn_runs.
  destruct (boltGet (rdrcPath c tn) (rdrcKey name ty) t) as [v|]; [|done]. unfold live.
  destruct (length (to_bytes v) <? 8)%nat; [done|]. by destruct (_ <? now).
Qed.

Lemma FakeIPLoad_get c t a : openOn c t ->
  cache_FakeIPLoad a c =
  (c, match c.(saveDomain) !! a with Some d => Some d | None => nonEmpty (boltGet [bucketFakeIP] (bytes (AsSlice a)) t) end).
Proof.
  intros Ho. unfold cache_FakeIPLoad, nonEmpty. destruct (saveDomain c !! a); [done|].
  erewrite view_runs; [|exact Ho|unfold txBind; by rewrite getIn_runs]. cbn.
  destruct (boltGet _ _ t) as [v|]; cbn; [|done]. by destruct (String.eqb v "").
Qed.

Lemma FakeIPLoadDomain_get c t d v6 : openOn c t ->
  cache_FakeIPLoadDomain d v6 c =
  (c, match (if negb v6 then c.(saveAddress4) else c.(saveAddress6)) !! d with
      | Some a => Some a
      | None => addressOf (boltGet [domainBucket (negb v6)] d t)
      end).
Proof.
  intros Ho. unfold cache_FakeIPLoadDomain. destruct ((if negb v6 then saveAddress4 c else saveAddress6 c) !! d) eqn:E; [done|].
  unfold addressOf. destruct (boltBucket [domainBucket (negb v6)] t) eqn:Eb.
  - by erewrite view_runs; [|exact Ho|unfold txBind, txGet; by rewrite Eb].
  - erewrite view_runs; [|exact Ho|unfold txBind, txGet; by rewrite Eb]. rewrite get_missing by done. cbn. by rewrite addrFromIP_nil.
Qed.

(** ** The cache file as a collection of maps *)

Record Seen := mkSeen {
  s_mode : string;
  s_selected : string -> string;
  s_expand : string -> bool * bool;
  s_ruleSet : string -> option SavedBinary;
  s_rejected : string -> string -> Z -> Z -> bool;
  s_domain : Addr -> option string;
  s_address : string -> bool -> option Addr;
}.

Definition seen c : Seen := mkSeen (LoadMode c).2 (fun g => (LoadSelected g c).2) (fun g => (LoadGroupExpand g c).2)
  (fun tag => (LoadRuleSet tag c).2) (fun tn name ty now => (LoadRDRC tn name ty now c).2)
  (fun a => (cache_FakeIPLoad a c).2) (fun d v6 => (cache_FakeIPLoadDomain d v6 c).2).

(** Equal observations. *)
#[export] Instance seen_equiv : Equiv Seen := fun a b =>
  a.(s_mode) = b.(s_mode) /\ (forall g, a.(s_selected) g = b.(s_selected) g) /\ (forall g, a.(s_expand) g = b.(s_expand) g) /\
  (forall g, a.(s_ruleSet) g = b.(s_ruleSet) g) /\
  (forall tn name ty now, 0 <= ty < 2 ^ 16 -> a.(s_rejected) tn name ty now = b.(s_rejected) tn name ty now) /\
  (forall x, a.(s_domain) x = b.(s_domain) x) /\ (forall d v6, a.(s_address) d v6 = b.(s_address) d v6).

#[export] Instance seen_equivalence : Equivalence (≡@{Seen}).
Proof.
  unfold equiv, seen_equiv. split; [intros a|intros a b|intros a b d]; [by split_and!|..].
  - intros (?&?&?&?&?&?&?). split_and!; intros; symmetry; auto.
  - intros (H1&H2&H3&H4&H5&H6&H7) (K1&K2&K3&K4&K5&K6&K7). split_and!; intros; [congruence|..];
      first [rewrite H2|rewrite H3|rewrite H4|rewrite H5 by done|rewrite H6|rewrite H7]; auto.
Qed.

Definition upd {A B} `{EqDecision A} (k : A) (v : B) (f : A -> B) : A -> B := fun x => if decide (x = k) then v else f x.

Definition with_mode (m : string) (s : Seen) : Seen :=
  mkSeen m s.(s_selected) s.(s_expand) s.(s_ruleSet) s.(s_rejected) s.(s_domain) s.(s_address).
Definition with_selected (g v : string) (s : Seen) : Seen :=
  mkSeen s.(s_mode) (upd g v s.(s_selected)) s.(s_expand) s.(s_ruleSet) s.(s_rejected) s.(s_domain) s.(s_address).
Definition with_expand (g : string) (v : bool) (s : Seen) : Seen :=
  mkSeen s.(s_mode) s.(s_selected) (upd g (v, true) s.(s_expand)) s.(s_ruleSet) s.(s_rejected) s.(s_domain) s.(s_address).
Definition with_ruleSet (tag : string) (v : SavedBinary) (s : Seen) : Seen :=
  mkSeen s.(s_mode) s.(s_selected) s.(s_expand) (upd tag (Some v) s.(s_ruleSet)) s.(s_rejected) s.(s_domain) s.(s_address).
(** The answer counts as rejected until [expiry]. *)
Definition with_rejected (tn name : string) (ty expiry : Z) (s : Seen) : Seen :=
  mkSeen s.(s_mode) s.(s_selected) s.(s_expand) s.(s_ruleSet)
    (fun tn' name' ty' now => if decide (tn' = tn /\ name' = name /\ ty' = ty) then now <=? expiry else s.(s_rejected) tn' name' ty' now)
    s.(s_domain) s.(s_address).

Ltac proper_seen :=
  intros a b (?&?&?&?&?&?&?); split_and!; cbn; unfold upd; intros; try done;
  repeat case_decide; auto.

#[export] Instance with_mode_proper m : Proper ((≡) ==> (≡)) (with_mode m).
Proof. proper_seen. Qed.
#[export] Instance with_selected_proper g v : Proper ((≡) ==> (≡)) (with_selected g v).
Proof. proper_seen. Qed.
#[export] Instance with_expand_proper g v : Proper ((≡) ==> (≡)) (with_expand g v).
Proof. proper_seen. Qed.
#[export] Instance with_ruleSet_proper g v : Proper ((≡) ==> (≡)) (with_ruleSet g v).
Proof. proper_seen. Qed.
#[export] Instance with_rejected_proper tn name ty e : Proper ((≡) ==> (≡)) (with_rejected tn name ty e).
Proof. proper_seen. Qed.

(** The observations, read from the database. *)
Definition seenOf c t : Seen := mkSeen (default "" (boltGet [bucketMode] (modeKey c) t))
  (fun g => default "" (boltGet (bucketPath c bucketSelected) g t))
  (fun g => expandOf (boltGet (bucketPath c bucketExpand) g t))
  (fun tag => decoded (boltGet (bucketPath c bucketRuleSet) tag t))
  (fun tn name ty now => match c.(saveRDRC) !! mkRDRCKey tn name ty with
                         | Some rejected => rejected
                         | None => live (boltGet (rdrcPath c tn) (rdrcKey name ty) t) now
                         end)
  (fun a => match c.(saveDomain) !! a with Some d => Some d | None => nonEmpty (boltGet [bucketFakeIP] (bytes (AsSlice a)) t) end)
  (fun d v6 => match (if negb v6 then c.(saveAddress4) else c.(saveAddress6)) !! d with
               | Some a => Some a
               | None => addressOf (boltGet [domainBucket (negb v6)] d t)
               end).

Lemma seen_get c t : openOn c t -> seen c ≡ seenOf c t.
Proof.
  intros Ho. split_and!; intros; unfold seen, seenOf; cbn [s_mode s_selected s_expand s_ruleSet s_rejected s_domain s_address].
  - by rewrite (LoadMode_get c t).
  - by rewrite (LoadSelected_get c t).
  - by rewrite (LoadGroupExpand_get c t).
  - by rewrite (LoadRuleSet_get c t).
  - by rewrite (LoadRDRC_get c t).
  - by rewrite (FakeIPLoad_get c t).
  - by rewrite (FakeIPLoadDomain_get c t).
Qed.

Lemma only_other p k v t t' q j : only p k v t t' -> q <> p -> boltGet q j t' = boltGet q j t.
Proof. intros H Hne. rewrite H, decide_False; [done|]. by intros []. Qed.

Lemma only_same p k v t t' j : only p k v t t' -> boltGet p j t' = if decide (j = k) then v else boltGet p j t.
Proof.
  intros H. rewrite H. destruct (decide (j = k)) as [->|]; [by rewrite decide_True|rewrite decide_False; [done|by intros []]].
Qed.

End CacheProps.

(** Different buckets have different paths. *)
Ltac paths :=
  unfold rdrcPath, bucketPath, domainBucket, modeKey; cbn [cacheID set_DB];
  repeat match goal with |- context [match ?x with _ => _ end] => destruct x end;
  let H := fresh in intros H; cbn [app] in H; first [discriminate H|injection H; intros; discriminate].

(** The observations after a change of one key: the bucket of the key, and the others. *)
Ltac observe H :=
  split_and!; intros; unfold with_mode, with_selected, with_expand, with_ruleSet, with_rejected, seenOf;
  cbn [s_mode s_selected s_expand s_ruleSet s_rejected s_domain s_address];
  try (rewrite (only_other _ _ _ _ _ _ _ H) by paths; reflexivity).
