(* ===== verification/CacheFileTheorems.v ===== *)
(** * The cache file as a storage

    Every store operation changes exactly its own map; the cache file is a lawful
    fakeip storage that finds its position again after a restart, except that its
    reset does nothing as long as one of its buckets was never made. *)

From S2P Require Import Prelude GoStrings GoCrypto GoBinary RuleItems RuleMatch RuleBuild FakeIP FakeIPProps CacheFile BoltLaws CacheFileProps.

Local Open Scope string_scope.
Local Open Scope list_scope.
Local Open Scope Z_scope.

Section Refinement.
Context {EX : Exceptions} {VB : Varbin} {VL : VarbinLaws VB} {BO : Bolt} {BL : BoltLaws BO}.
Implicit Types (c : CacheFile) (t : Tree).

(** The effect of an operation that stores: no error, still open, these observations. *)
Definition stores c (r : CacheFile * option error) (s : Seen) : Prop :=
  exists c' t', r = (c', None) /\ openOn c' t' /\ seen c' ≡ s.

Lemma keyOk_names key : key ∈ [bucketMode; bucketSelected; bucketExpand; bucketRuleSet; bucketRDRC; bucketFakeIP; bucketFakeIPDomain4; bucketFakeIPDomain6; keyMetadata; cacheIDDefault] -> keyOk key.
Proof.
  intros H. rewrite !elem_of_cons, elem_of_nil in H.
  repeat destruct H as [->|H]; try done; (split; [done|vm_compute; congruence]).
Qed.

Lemma leaf_top c key : key ∈ topNames -> leaf c [key].
Proof. intros H. left. by exists key. Qed.

Lemma leaf_sub c key : key ∈ subNames -> leaf c (bucketPath c key).
Proof. intros H. right. left. by exists key. Qed.

(** Storing under a name below the cache id. *)
Lemma sub_store c t key k v : openOn c t -> key ∈ subNames -> keyOk k -> valueOk v ->
  exists t', errOf (batch (txBind (createBucket c key) (fun _ => txDo (boltPut (bucketPath c key) k v))) c) = (set_DB (Some t') c, None) /\
    openOn (set_DB (Some t') c) t' /\ only (bucketPath c key) k (Some v) t t'.
Proof.
  intros Ho Hin Hk Hv. pose proof Ho as (_ & Hh & Hs & Hi).
  destruct (createBucket_runs c t key Hi) as (t1 & E1 & G1); [left; by apply leaf_sub| |done|done|].
  { apply keyOk_names. unfold subNames in Hin. set_solver. }
  eapply store_runs; try done. by apply leaf_sub.
Qed.

(** Storing in a bucket at the top. *)
Lemma top_store c t key k v : openOn c t -> key ∈ topNames -> keyOk k -> valueOk v ->
  exists t', errOf (batch (txBind (txDo (boltCreateBucket [] key)) (fun _ => txDo (boltPut [key] k v))) c) = (set_DB (Some t') c, None) /\
    openOn (set_DB (Some t') c) t' /\ only [key] k (Some v) t t'.
Proof.
  intros Ho Hin Hk Hv. pose proof Ho as (_ & Hh & Hs & Hi).
  destruct (createTop_runs c t key Hi) as (t1 & E1 & G1); [by apply leaf_top| |done|done|].
  { apply keyOk_names. unfold topNames in Hin. set_solver. }
  eapply store_runs; try done. by apply leaf_top.
Qed.

Lemma modeKey_ok c : idOk c -> keyOk (modeKey c).
Proof.
  unfold idOk, modeKey. destruct (cacheID c) as [id|]; [|intros _; apply keyOk_names; set_solver].
  intros [Hk _]. destruct (String.eqb_spec id ""); [by destruct Hk|done].
Qed.

Lemma StoreMode_stores c t mode : openOn c t -> valueOk mode -> stores c (StoreMode mode c) (with_mode mode (seen c)).
Proof.
  intros Ho Hv. pose proof Ho as (_ & _ & _ & Hi).
  destruct (top_store c t bucketMode (modeKey c) mode Ho) as (t' & E & Ho' & Hon); [set_solver|by apply modeKey_ok|done|].
  exists (set_DB (Some t') c), t'. split; [exact E|]. split; [done|]. rewrite (seen_get _ _ Ho'), (seen_get c t Ho).
  observe Hon. by rewrite (only_same _ _ _ _ _ _ Hon), decide_True.
Qed.

Lemma StoreSelected_stores c t g v : openOn c t -> keyOk g -> valueOk v ->
  stores c (StoreSelected g v c) (with_selected g v (seen c)).
Proof.
  intros Ho Hg Hv. destruct (sub_store c t bucketSelected g v Ho) as (t' & E & Ho' & Hon); [set_solver|done|done|].
  exists (set_DB (Some t') c), t'. split; [exact E|]. split; [done|]. rewrite (seen_get _ _ Ho'), (seen_get c t Ho).
  observe Hon. rewrite (only_same _ _ _ _ _ _ Hon). unfold upd. by case_decide.
Qed.

Lemma StoreGroupExpand_stores c t g b : openOn c t -> keyOk g ->
  stores c (StoreGroupExpand g b c) (with_expand g b (seen c)).
Proof.
  intros Ho Hg. destruct (sub_store c t bucketExpand g (bytes [if b then 1 else 0]) Ho) as (t' & E & Ho' & Hon); [set_solver|done| |].
  { by destruct b. }
  exists (set_DB (Some t') c), t'. split; [exact E|]. split; [done|]. rewrite (seen_get _ _ Ho'), (seen_get c t Ho).
  observe Hon. rewrite (only_same _ _ _ _ _ _ Hon). unfold upd. case_decide; [by destruct b|done].
Qed.

Lemma decoded_saved s : savedOk s -> decoded (Some (bytes (savedMarshal s))) = Some s.
Proof.
  intros Hs. unfold decoded. cbn [from_option id]. unfold id.
  assert (Hne : bytes (savedMarshal s) <> "") by done. destruct (String.eqb_spec (bytes (savedMarshal s)) ""); [done|].
  rewrite to_bytes_bytes by (by apply savedMarshal_bytes). pose proof (reads_saved s Hs []) as E. rewrite app_nil_r in E. by rewrite E.
Qed.

Lemma SaveRuleSet_stores c t tag s : openOn c t -> keyOk tag -> savedOk s -> valueOk (bytes (savedMarshal s)) ->
  stores c (SaveRuleSet tag s c) (with_ruleSet tag s (seen c)).
Proof.
  intros Ho Hg Hs Hv. destruct (sub_store c t bucketRuleSet tag _ Ho (ltac:(set_solver)) Hg Hv) as (t' & E & Ho' & Hon).
  exists (set_DB (Some t') c), t'. split; [exact E|]. split; [done|]. rewrite (seen_get _ _ Ho'), (seen_get c t Ho).
  observe Hon. rewrite (only_same _ _ _ _ _ _ Hon). unfold upd. case_decide; [by apply decoded_saved|done].
Qed.

(** ** Rejected answers *)

Lemma rdrcKey_bytes name ty : 0 <= ty < 2 ^ 16 ->
  rdrcKey name ty = String (Z_ascii (ty / 256)) (String (Z_ascii (ty mod 256)) name).
Proof.
  intros H. unfold rdrcKey. rewrite Z.mod_small by done. cbn. rewrite (Z.mod_small (ty / 256)); [done|].
  split; [apply Z.div_pos; lia|apply Z.div_lt_upper_bound; lia].
Qed.

Lemma rdrcKey_inj name ty name' ty' : 0 <= ty < 2 ^ 16 -> 0 <= ty' < 2 ^ 16 ->
  rdrcKey name ty = rdrcKey name' ty' <-> name = name' /\ ty = ty'.
Proof.
  intros H H'. rewrite !rdrcKey_bytes by done. split; [|by intros [-> ->]]. intros [= E1 E2 ->]. split; [done|].
  apply (f_equal ascii_Z) in E1, E2. pose proof (Z.mod_pos_bound ty 256). pose proof (Z.mod_pos_bound ty' 256).
  assert (0 <= ty / 256 < 256) by (split; [apply Z.div_pos|apply Z.div_lt_upper_bound]; lia).
  assert (0 <= ty' / 256 < 256) by (split; [apply Z.div_pos|apply Z.div_lt_upper_bound]; lia).
  rewrite !ascii_Z_ascii in E1, E2 by lia. rewrite (Z.div_mod ty 256), (Z.div_mod ty' 256) by lia. congruence.
Qed.

Lemma rdrcKey_ok name ty : 0 <= ty < 2 ^ 16 -> Z.of_nat (String.length name) <= MaxKeySize - 2 -> keyOk (rdrcKey name ty).
Proof. intros H Hn. rewrite rdrcKey_bytes by done. split; [done|]. cbn. lia. Qed.

Lemma live_written e now : int64_range e -> live (Some (bytes (be_bytes 8 (e mod 2 ^ 64)))) now = (now <=? e * 1000000000).
Proof.
  intros He. unfold live. rewrite to_bytes_bytes by apply be_bytes_range. rewrite be_bytes_length. cbn [Nat.ltb Nat.leb negb andb].
  rewrite take_ge by (rewrite be_bytes_length; lia). rewrite be_value_be_bytes by (exact (Z.mod_pos_bound e (2 ^ 64) eq_refl)).
  rewrite wrap64_mod by done. rewrite <-Z.leb_antisym. done.
Qed.

(** The instant, to the second, until which an answer counts as rejected. *)
Definition rdrcExpiry c (now : Z) : Z := (now + c.(rdrcTimeout)) / 1000000000.

Lemma SaveRDRC_runs c t tn name ty now : openOn c t -> keyOk tn -> Z.of_nat (String.length name) <= MaxKeySize - 2 -> 0 <= ty < 2 ^ 16 ->
  exists t', SaveRDRC tn name ty now c = (set_DB (Some t') c, None) /\ openOn (set_DB (Some t') c) t' /\
    only (rdrcPath c tn) (rdrcKey name ty) (Some (bytes (be_bytes 8 (rdrcExpiry c now mod 2 ^ 64)))) t t'.
Proof.
  intros Ho Htn Hn Hty. pose proof Ho as (_ & Hh & Hs & Hi). set (v := bytes _).
  assert (Hinner : inner c (bucketPath c bucketRDRC)) by (by left).
  assert (Hleaf : leaf c (bucketPath c bucketRDRC ++ [tn])) by (right; right; by exists tn).
  destruct (createBucket_runs c t bucketRDRC Hi) as (t1 & E1 & G1); [by right|apply keyOk_names; set_solver|done|done|].
  pose proof G1 as (Hh1 & Hs1 & Hg1 & Hb1 & _).
  destruct (make_bucket c t1 (bucketPath c bucketRDRC) tn Hi) as (t2 & E2 & G2); try done; [by left|by apply Hs1|].
  assert (Ho1 : (txBind (createBucket c bucketRDRC) (fun _ => txDo (boltCreateBucket (bucketPath c bucketRDRC) tn))) t = Ret (Ok (tt, t2))).
  { unfold txBind, txDo. by rewrite E1, E2. }
  destruct (store_runs c t _ t2 (rdrcPath c tn) (rdrcKey name ty) v Ho Hleaf Ho1) as (t' & E' & Ho' & Hon).
  - by eapply gained_trans.
  - by apply rdrcKey_ok.
  - unfold v, valueOk, MaxValueSize. rewrite <-to_bytes_length, to_bytes_bytes by apply be_bytes_range. rewrite be_bytes_length. lia.
  - exists t'. split; [|done]. unfold SaveRDRC. rewrite <-E'. f_equal. unfold batch, transact. destruct Ho as (-> & _).
    unfold txBind, txDo. destruct (boltDamaged t); [done|]. by rewrite E1, E2.
Qed.

Lemma SaveRDRC_stores c t tn name ty now : openOn c t -> keyOk tn -> Z.of_nat (String.length name) <= MaxKeySize - 2 -> 0 <= ty < 2 ^ 16 ->
  int64_range (rdrcExpiry c now) -> c.(saveRDRC) !! mkRDRCKey tn name ty = None ->
  stores c (SaveRDRC tn name ty now c) (with_rejected tn name ty (rdrcExpiry c now * 1000000000) (seen c)).
Proof.
  intros Ho Htn Hn Hty He Hsave. destruct (SaveRDRC_runs c t tn name ty now Ho Htn Hn Hty) as (t' & E & Ho' & Hon).
  exists (set_DB (Some t') c), t'. split; [exact E|]. split; [done|]. rewrite (seen_get _ _ Ho'), (seen_get c t Ho).
  observe Hon. change (saveRDRC (set_DB (Some t') c)) with (saveRDRC c). change (rdrcPath (set_DB (Some t') c)) with (rdrcPath c).
  rewrite Hon. match goal with |- context [decide (?x = tn /\ ?rest)] => destruct (decide (x = tn /\ rest)) as [D|D] end.
  - destruct D as (-> & -> & ->). rewrite Hsave, decide_True by done. by apply live_written.
  - destruct (saveRDRC c !! _); [done|]. rewrite decide_False; [done|]. intros [Hp Hk]. apply D.
    apply rdrcKey_inj in Hk; [|done|done]. split; [|done]. unfold rdrcPath in Hp. by apply app_inj_tail in Hp as [_ ->].
Qed.

(** C24: an open cache file is a collection of maps: storing the mode, a selected
    outbound, an expanded group, a rule-set or a rejected DNS answer succeeds and
    changes exactly what is loaded for that entry (a rejected answer until its
    timeout, to the second), under a cache id or without one; everything else, the
    fakeip addresses included, is loaded as before. *)
Theorem cache_file_refines c t : openOn c t ->
  (forall mode, valueOk mode -> stores c (StoreMode mode c) (with_mode mode (seen c))) /\
  (forall g v, keyOk g -> valueOk v -> stores c (StoreSelected g v c) (with_selected g v (seen c))) /\
  (forall g b, keyOk g -> stores c (StoreGroupExpand g b c) (with_expand g b (seen c))) /\
  (forall tag s, keyOk tag -> savedOk s -> valueOk (bytes (savedMarshal s)) ->
    stores c (SaveRuleSet tag s c) (with_ruleSet tag s (seen c))) /\
  (forall tn name ty now, keyOk tn -> Z.of_nat (String.length name) <= MaxKeySize - 2 -> 0 <= ty < 2 ^ 16 ->
    int64_range (rdrcExpiry c now) -> c.(saveRDRC) !! mkRDRCKey tn name ty = None ->
    stores c (SaveRDRC tn name ty now c) (with_rejected tn name ty (rdrcExpiry c now * 1000000000) (seen c))).
Proof.
  intros Ho. split; [|split; [|split; [|split]]]; intros.
  - by eapply StoreMode_stores.
  - by eapply StoreSelected_stores.
  - by eapply StoreGroupExpand_stores.
  - by eapply SaveRuleSet_stores.
  - by eapply SaveRDRC_stores.
Qed.

End Refinement.
