(* ===== verification/CacheFileFake.v ===== *)
(** * Fakeip in the cache file

    The cache file satisfies the laws of a fakeip storage, and its position is found
    again after a restart; its reset and its delayed save do not do what the store
    expects of them. *)

From S2P Require Import Prelude GoStrings GoCrypto GoBinary RuleItems RuleMatch RuleBuild FakeIP FakeIPProps CacheFile BoltLaws CacheFileProps CacheFileTheorems.

Local Open Scope string_scope.
Local Open Scope list_scope.
Local Open Scope Z_scope.

(** ** Keys of addresses *)

Definition addrKey (a : Addr) : string := bytes (AsSlice a).

Lemma addrKey_bytes a : plain a -> to_bytes (addrKey a) = AsSlice a.
Proof. intros Ha. apply to_bytes_bytes. by apply AsSlice_bytes. Qed.

Lemma AsSlice_length a : plain a -> length (AsSlice a) = if Is4 a then 4%nat else 16%nat.
Proof. destruct a; [done|intros _; apply be_bytes_length..]. Qed.

Lemma AsSlice_inj a b : plain a -> plain b -> AsSlice a = AsSlice b -> a = b.
Proof.
  intros Ha Hb E. pose proof (AsSlice_length a Ha) as La. pose proof (AsSlice_length b Hb) as Lb. rewrite E in La.
  destruct a as [|x|x z], b as [|y|y w]; try done; cbn [Is4] in *; try (rewrite La in Lb; done); cbn [AsSlice] in E.
  - apply (f_equal (be_value 0)) in E. rewrite !be_bytes_4 in E by done. congruence.
  - destruct Ha as [Hx ->], Hb as [Hy ->]. apply (f_equal (be_value 0)) in E. rewrite !be_bytes_16 in E by done. congruence.
Qed.

Lemma addrKey_inj a b : plain a -> plain b -> addrKey a = addrKey b -> a = b.
Proof. intros Ha Hb E. apply AsSlice_inj; [done..|]. rewrite <-(addrKey_bytes a), <-(addrKey_bytes b) by done. by rewrite E. Qed.

Lemma addrKey_length a : plain a -> String.length (addrKey a) = if Is4 a then 4%nat else 16%nat.
Proof. intros Ha. rewrite <-to_bytes_length, addrKey_bytes by done. by apply AsSlice_length. Qed.

Lemma addrKey_ok a : plain a -> keyOk (addrKey a) /\ valueOk (addrKey a) /\ addrKey a <> keyMetadata.
Proof.
  intros Ha. pose proof (addrKey_length a Ha) as L. split; [split|split].
  - intros E. rewrite E in L. by destruct (Is4 a).
  - rewrite L. unfold MaxKeySize. destruct (Is4 a); lia.
  - unfold valueOk. rewrite L. unfold MaxValueSize. destruct (Is4 a); lia.
  - intros E. rewrite E in L. by destruct (Is4 a).
Qed.

Section Fake.
Context {EX : Exceptions} {VB : Varbin} {VL : VarbinLaws VB} {BO : Bolt} {BL : BoltLaws BO}.
Implicit Types (c : CacheFile) (t : Tree).

(** The buckets of addresses and of domains are inverse to each other. *)
Definition inverse t : Prop :=
  (forall d v4 k, boltGet [domainBucket v4] d t = Some k ->
     d <> "" /\ exists a, plain a /\ Is4 a = v4 /\ k = addrKey a /\ boltGet [bucketFakeIP] k t = Some d) /\
  (forall a d, plain a -> boltGet [bucketFakeIP] (addrKey a) t = Some d ->
     d <> "" /\ boltGet [domainBucket (Is4 a)] d t = Some (addrKey a)).

(** Nothing waits to be written. *)
Definition settled c : Prop := c.(saveDomain) = ∅ /\ c.(saveAddress4) = ∅ /\ c.(saveAddress6) = ∅.

Definition fakeOk c : Prop := exists t, openOn c t /\ settled c /\ inverse t.

Lemma addressOf_key a : plain a -> addressOf (Some (addrKey a)) = Some a.
Proof.
  intros Ha. unfold addressOf. cbn [from_option id]. unfold id. rewrite addrKey_bytes, addrFromIP_slice by done.
  by destruct a.
Qed.

Lemma fake_load c t a : openOn c t -> settled c -> inverse t -> plain a -> loadOf c a = boltGet [bucketFakeIP] (addrKey a) t.
Proof.
  intros Ho (E1 & E2 & E3) (_ & Hi) Ha. unfold loadOf. cbn [FakeIPLoad cache_storage]. rewrite (FakeIPLoad_get c t) by done.
  rewrite E1, lookup_empty. cbn [snd]. fold (addrKey a). unfold nonEmpty. destruct (boltGet _ _ t) as [d|] eqn:E; [|done].
  destruct (Hi a d Ha E) as [Hd _]. cbn. by destruct (String.eqb_spec d "").
Qed.

Lemma fake_domain c t d v6 : openOn c t -> settled c -> domainOf c d v6 = addressOf (boltGet [domainBucket (negb v6)] d t).
Proof.
  intros Ho (E1 & E2 & E3). unfold domainOf. cbn [FakeIPLoadDomain cache_storage]. rewrite (FakeIPLoadDomain_get c t) by done.
  rewrite E2, E3. by destruct v6; cbn [negb]; rewrite lookup_empty.
Qed.

Lemma domainBucket_top v4 : domainBucket v4 ∈ topNames.
Proof. destruct v4; unfold topNames, domainBucket; set_solver. Qed.

Lemma domainBucket_inj v4 w4 : domainBucket v4 = domainBucket w4 -> v4 = w4.
Proof. by destruct v4, w4. Qed.

Lemma domainBucket_ne v4 : domainBucket v4 <> bucketFakeIP.
Proof. by destruct v4. Qed.

(** ** Storing an address *)

(** The database after [domain] got address [a], which belonged to [old]. *)
Definition afterStore (a : Addr) (domain : string) (old : option string) t t' : Prop :=
  forall q j, boltGet q j t' =
    if decide (q = [domainBucket (Is4 a)] /\ j = domain) then Some (addrKey a)
    else if decide (q = [domainBucket (Is4 a)] /\ old = Some j) then None
    else if decide (q = [bucketFakeIP] /\ j = addrKey a) then Some domain
    else boltGet q j t.

Lemma storeAddress_runs c t a domain : openOn c t -> plain a -> keyOk domain ->
  exists t', storeAddress a domain t = Ret (Ok (tt, t')) /\ healthy t' /\ shape c t' /\
    afterStore a domain (boltGet [bucketFakeIP] (addrKey a) t) t t'.
Proof.
  intros (_ & Hh & Hs & Hi) Ha Hd. destruct (addrKey_ok a Ha) as (Hk & Hv & _).
  assert (Hdv : valueOk domain) by (destruct Hd as [_ Hd]; unfold valueOk, MaxKeySize, MaxValueSize in *; lia).
  assert (L1 : leaf c [bucketFakeIP]) by (apply leaf_top; set_solver).
  assert (L2 : leaf c [domainBucket (Is4 a)]) by (apply leaf_top, domainBucket_top).
  destruct (createTop_runs c t bucketFakeIP Hi L1) as (t1 & E1 & (Hh1 & Hs1 & Hg1 & Hb1 & _)); [apply keyOk_names; set_solver|done|done|].
  destruct (put_leaf c t1 [bucketFakeIP] (addrKey a) domain Hi L1 Hb1 Hk Hdv Hh1 Hs1) as (t2 & E2 & Hh2 & Hs2 & Ho2 & _).
  destruct (createTop_runs c t2 (domainBucket (Is4 a)) Hi L2) as (t3 & E3 & (Hh3 & Hs3 & Hg3 & Hb3 & _)); [|done|done|].
  { apply keyOk_names. pose proof (domainBucket_top (Is4 a)). unfold topNames in *. set_solver. }
  unfold storeAddress. fold (addrKey a). unfold txBind. rewrite E1. unfold txGet. rewrite Hg1.
  unfold txDo at 1. rewrite E2, E3.
  assert (Hmid : exists t4, match boltGet [bucketFakeIP] (addrKey a) t with
                       | Some old => txDo (boltDelete [domainBucket (Is4 a)] old)
                       | None => txRet tt end t3 = Ret (Ok (tt, t4)) /\ healthy t4 /\ shape c t4 /\ boltBucket [domainBucket (Is4 a)] t4 = true /\
                   forall q j, boltGet q j t4 = if decide (q = [domainBucket (Is4 a)] /\ boltGet [bucketFakeIP] (addrKey a) t = Some j)
                                                then None else boltGet q j t3).
  { destruct (boltGet [bucketFakeIP] (addrKey a) t) as [old|].
    - destruct (delete_leaf c t3 [domainBucket (Is4 a)] old Hi L2 Hb3 Hh3 Hs3) as (t4 & E4 & Hh4 & Hs4 & Ho4 & Hb4).
      exists t4. unfold txDo. rewrite E4. split_and!; try done; try apply Hs4; [by rewrite Hb4|]. intros q j. rewrite Ho4.
      destruct (decide (q = [domainBucket (Is4 a)] /\ j = old)) as [[-> ->]|Hn]; [by rewrite decide_True|].
      rewrite decide_False; [done|]. intros [-> [= ->]]. by apply Hn.
    - exists t3. split_and!; try done; try apply Hs3. intros q j. rewrite decide_False; [done|]. by intros []. }
  destruct Hmid as (t4 & E4 & Hh4 & Hs4 & Hb4 & Hg4). rewrite E4.
  destruct (put_leaf c t4 [domainBucket (Is4 a)] domain (addrKey a) Hi L2 Hb4 Hd Hv Hh4 Hs4) as (t5 & E5 & Hh5 & Hs5 & Ho5 & _).
  exists t5. unfold txDo. rewrite E5. split; [done|]. split; [done|]. split; [done|].
  intros q j. rewrite Ho5. case_decide; [done|]. rewrite Hg4. case_decide; [done|]. rewrite Hg3, Ho2. case_decide; [done|apply Hg1].
Qed.

(** What the two kinds of buckets hold afterwards. *)
Lemma afterStore_address a domain old t t' b : afterStore a domain old t t' -> plain a -> plain b ->
  boltGet [bucketFakeIP] (addrKey b) t' = if decide (b = a) then Some domain else boltGet [bucketFakeIP] (addrKey b) t.
Proof.
  intros H Ha Hb. rewrite H. rewrite decide_False by (intros [[= E] _]; by destruct (domainBucket_ne (Is4 a))).
  rewrite decide_False by (intros [[= E] _]; by destruct (domainBucket_ne (Is4 a))).
  destruct (decide (b = a)) as [->|Hne]; [by rewrite decide_True|]. rewrite decide_False; [done|].
  intros [_ E]. apply Hne. by apply addrKey_inj.
Qed.

Lemma afterStore_domain a domain old t t' v4 d : afterStore a domain old t t' ->
  boltGet [domainBucket v4] d t' =
    if decide (v4 = Is4 a /\ d = domain) then Some (addrKey a)
    else if decide (v4 = Is4 a /\ old = Some d) then None else boltGet [domainBucket v4] d t.
Proof.
  intros H. rewrite H. rewrite (decide_False (P := [domainBucket v4] = [bucketFakeIP] /\ _)) by (intros [[= E] _]; by apply domainBucket_ne in E).
  assert (Hv : [domainBucket v4] = [domainBucket (Is4 a)] <-> v4 = Is4 a).
  { split; [intros [= E]; by apply domainBucket_inj|by intros ->]. }
  rewrite (decide_ext _ (v4 = Is4 a /\ d = domain)) by (by rewrite Hv).
  by rewrite (decide_ext (_ /\ old = Some d) (v4 = Is4 a /\ old = Some d)) by (by rewrite Hv).
Qed.

Lemma afterStore_inverse a domain t t' : inverse t -> plain a -> domain <> "" ->
  boltGet [domainBucket (Is4 a)] domain t = None ->
  afterStore a domain (boltGet [bucketFakeIP] (addrKey a) t) t t' -> inverse t'.
Proof.
  intros [Hi1 Hi2] Ha Hd Hnew Hst. split.
  - intros d v4 k. rewrite (afterStore_domain _ _ _ _ _ _ _ Hst). case_decide as D1.
    + destruct D1 as [-> ->]. intros [= <-]. split; [done|]. exists a. split_and!; try done.
      rewrite (afterStore_address _ _ _ _ _ _ Hst) by done. by rewrite decide_True.
    + case_decide as D2; [done|]. intros Hk. destruct (Hi1 d v4 k Hk) as (Hne & b & Hb & H4 & -> & Hf). split; [done|].
      exists b. split_and!; try done. rewrite (afterStore_address _ _ _ _ _ _ Hst) by done. rewrite decide_False; [done|].
      intros ->. apply D2. by rewrite Hf.
  - intros b d Hb. rewrite (afterStore_address _ _ _ _ _ _ Hst) by done. destruct (decide (b = a)) as [->|Hne].
    + intros [= <-]. split; [done|]. rewrite (afterStore_domain _ _ _ _ _ _ _ Hst). by rewrite decide_True.
    + intros Hf. destruct (Hi2 b d Hb Hf) as [Hdn Hdom]. split; [done|]. rewrite (afterStore_domain _ _ _ _ _ _ _ Hst).
      rewrite decide_False by (intros [E ->]; rewrite E in Hdom; congruence).
      rewrite decide_False; [done|]. intros [E Hold]. destruct (Hi2 a d Ha Hold) as [_ Hdom']. rewrite <-E in Hdom'.
      apply Hne, addrKey_inj; [done..|]. congruence.
Qed.

(** Changes of the saved position leave the addresses alone. *)
Lemma only_metadata_address v t t' a : only [bucketFakeIP] keyMetadata v t t' -> plain a ->
  boltGet [bucketFakeIP] (addrKey a) t' = boltGet [bucketFakeIP] (addrKey a) t.
Proof.
  intros Hon Ha. rewrite (only_same _ _ _ _ _ _ Hon). destruct (addrKey_ok a Ha) as (_ & _ & Hne). by rewrite decide_False.
Qed.

Lemma only_metadata_inverse v t t' : inverse t -> only [bucketFakeIP] keyMetadata v t t' -> inverse t'.
Proof.
  intros [H1 H2] Hon.
  assert (Hdom : forall v4 d, boltGet [domainBucket v4] d t' = boltGet [domainBucket v4] d t).
  { intros v4 d. rewrite (only_other _ _ _ _ _ _ _ Hon); [done|]. intros [= E]. by destruct (domainBucket_ne v4). }
  split.
  - intros d v4 k Hk. rewrite Hdom in Hk. destruct (H1 d v4 k Hk) as (Hd & a & Ha & H4 & -> & Hf). split; [done|].
    exists a. by rewrite (only_metadata_address _ _ _ _ Hon).
  - intros a d Ha Hk. rewrite (only_metadata_address _ _ _ _ Hon) in Hk by done. rewrite Hdom. by apply H2.
Qed.

(** ** The laws of a storage *)

Lemma cache_store_runs c t a d : openOn c t -> settled c -> inverse t -> plain a -> keyOk d ->
  domainOf c d (negb (Is4 a)) = None ->
  exists t', cache_FakeIPStore a d c = (set_DB (Some t') c, None) /\ openOn (set_DB (Some t') c) t' /\ inverse t' /\
    afterStore a d (boltGet [bucketFakeIP] (addrKey a) t) t t'.
Proof.
  intros Ho Hse Hin Ha Hd Hnew. destruct (storeAddress_runs c t a d Ho Ha Hd) as (t' & E & Hh & Hs & Hst).
  exists t'. unfold cache_FakeIPStore. rewrite (batch_runs _ c t tt t' Ho E Hh). split; [done|]. split; [by eapply openOn_set|].
  split; [|done]. eapply afterStore_inverse; try done; [by destruct Hd|].
  rewrite (fake_domain c t) in Hnew by done. rewrite negb_involutive in Hnew.
  destruct (boltGet [domainBucket (Is4 a)] d t) as [k|] eqn:E'; [|done]. destruct Hin as [Hin _].
  destruct (Hin d (Is4 a) k E') as (_ & b & Hb & _ & -> & _). by rewrite addressOf_key in Hnew.
Qed.

Lemma save_runs c t md : openOn c t -> settled c -> inverse t -> valueOk (bytes (metadataMarshal md)) ->
  exists t', cache_FakeIPSaveMetadata md c = (set_DB (Some t') c, None) /\ openOn (set_DB (Some t') c) t' /\ inverse t' /\
    only [bucketFakeIP] keyMetadata (Some (bytes (metadataMarshal md))) t t'.
Proof.
  intros Ho Hse Hin Hv.
  destruct (top_store c t bucketFakeIP keyMetadata (bytes (metadataMarshal md)) Ho) as (t' & E & Ho' & Hon);
    [set_solver|apply keyOk_names; set_solver|done|].
  exists t'. split; [exact E|]. split; [done|]. split; [|done]. by eapply only_metadata_inverse.
Qed.
#[export, program] Instance cache_storage_laws : FakeIPStorageLaws (cache_storage (EX := EX)) := {|
  sok := fakeOk;
  storable := keyOk;
|}.
Next Obligation. intros st a (t & Ho & _). cbn [FakeIPLoad cache_storage]. by rewrite (FakeIPLoad_get st t). Qed.
Next Obligation. intros st d v6 (t & Ho & _). cbn [FakeIPLoadDomain cache_storage]. by rewrite (FakeIPLoadDomain_get st t). Qed.
Next Obligation.
  intros st d v6 a (t & Ho & Hse & Hin). rewrite (fake_domain st t) by done. intros E.
  destruct (boltGet [domainBucket (negb v6)] d t) as [k|] eqn:Ek; [|by unfold addressOf in E; cbn in E; rewrite addrFromIP_nil in E].
  pose proof Hin as [Hin1 _]. destruct (Hin1 d (negb v6) k Ek) as (_ & b & Hb & H4 & -> & Hf).
  rewrite addressOf_key in E by done. injection E as <-. split; [done|]. by rewrite (fake_load st t).
Qed.
Next Obligation.
  intros st d a (t & Ho & Hse & Hin) Ha. rewrite (fake_load st t), (fake_domain st t), negb_involutive by done. intros E.
  destruct Hin as [_ Hin]. destruct (Hin a d Ha E) as [_ ->]. by apply addressOf_key.
Qed.
Next Obligation.
  intros st a d (t & Ho & Hse & Hin) Ha Hd Hnew. cbn [FakeIPStore_ cache_storage].
  destruct (cache_store_runs st t a d Ho Hse Hin Ha Hd Hnew) as (t' & -> & Ho' & Hin' & _). by exists t'.
Qed.
Next Obligation.
  intros st a d b (t & Ho & Hse & Hin) Ha Hb Hd Hnew. cbn [FakeIPStore_ cache_storage].
  destruct (cache_store_runs st t a d Ho Hse Hin Ha Hd Hnew) as (t' & -> & Ho' & Hin' & Hst). cbn [fst].
  rewrite (fake_load _ t'), (fake_load st t) by done. by rewrite (afterStore_address _ _ _ _ _ _ Hst).
Qed.
Next Obligation.
  intros st md (t & Ho & Hse & Hin). exists t. cbn [FakeIPSaveMetadataAsync cache_storage]. unfold cache_FakeIPSaveMetadataAsync.
  by destruct (saveMetadataTimer st).
Qed.
Next Obligation.
  intros st md a (t & Ho & _). cbn [FakeIPSaveMetadataAsync cache_storage]. unfold cache_FakeIPSaveMetadataAsync.
  destruct (saveMetadataTimer st); [done|]. unfold loadOf. cbn [FakeIPLoad cache_storage].
  by rewrite (FakeIPLoad_get st t), (FakeIPLoad_get (set_timer (Some md) st) t).
Qed.

(** ** The saved position *)

Lemma metadata_value md : metadataOk md -> valueOk (bytes (metadataMarshal md)) /\ bytes (metadataMarshal md) <> "".
Proof.
  intros Hm. pose proof (metadataMarshal_length md Hm) as Hl.
  assert (L : String.length (bytes (metadataMarshal md)) = length (metadataMarshal md)).
  { by rewrite <-to_bytes_length, to_bytes_bytes by apply metadataMarshal_bytes. }
  split; [unfold valueOk, MaxValueSize; lia|]. intros E. rewrite E in L. cbn in L. lia.
Qed.

(** Loading the position takes it out of the database. *)
Lemma metadata_loaded c t md : openOn c t -> inverse t -> metadataOk md -> boltBucket [bucketFakeIP] t = true ->
  boltGet [bucketFakeIP] keyMetadata t = Some (bytes (metadataMarshal md)) ->
  exists t', cache_FakeIPMetadata c = (set_DB (Some t') c, Some md) /\ openOn (set_DB (Some t') c) t' /\ inverse t' /\
    only [bucketFakeIP] keyMetadata None t t' /\ forall q, boltBucket q t' = boltBucket q t.
Proof.
  intros Ho Hin Hm Hb Hg. pose proof Ho as (_ & Hh & Hs & Hi). destruct (metadata_value md Hm) as [_ Hne].
  destruct (delete_leaf c t [bucketFakeIP] keyMetadata Hi) as (t' & E & Hh' & Hs' & Hon & HB); [apply leaf_top; set_solver|done..|].
  exists t'. unfold cache_FakeIPMetadata.
  rewrite (batch_runs _ c t (Some md) t' Ho); [|unfold txBind, txGet; rewrite Hb; cbn [negb]; rewrite Hg; cbn [from_option id]; unfold id|done].
  - split; [done|]. split; [by eapply openOn_set|]. split; [by eapply only_metadata_inverse|done].
  - destruct (String.eqb_spec (bytes (metadataMarshal md)) ""); [done|]. unfold txDo. rewrite E. unfold decodeWith.
    rewrite to_bytes_bytes by apply metadataMarshal_bytes. pose proof (reads_metadata md Hm []) as R. rewrite app_nil_r in R. by rewrite R.
Qed.

Lemma saved_loaded c md : fakeOk c -> metadataOk md ->
  exists c1 c2, cache_FakeIPSaveMetadata md c = (c1, None) /\ cache_FakeIPMetadata c1 = (c2, Some md) /\ fakeOk c2 /\
    forall a, plain a -> loadOf c2 a = loadOf c a.
Proof.
  intros (t & Ho & Hse & Hin) Hm. destruct (metadata_value md Hm) as [Hv _].
  destruct (save_runs c t md Ho Hse Hin Hv) as (t1 & E1 & Ho1 & Hin1 & Hon1).
  assert (Hg1 : boltGet [bucketFakeIP] keyMetadata t1 = Some (bytes (metadataMarshal md))).
  { rewrite (only_same _ _ _ _ _ _ Hon1). by rewrite decide_True. }
  assert (Hb1 : boltBucket [bucketFakeIP] t1 = true).
  { destruct (boltBucket [bucketFakeIP] t1) eqn:E; [done|]. rewrite get_missing in Hg1; [discriminate Hg1|done]. }
  destruct (metadata_loaded _ t1 md Ho1 Hin1 Hm Hb1 Hg1) as (t2 & E2 & Ho2 & Hin2 & Hon2 & _).
  eexists _, _. split; [exact E1|]. split; [exact E2|]. split; [by exists t2|]. intros a Ha.
  rewrite (fake_load _ t2), (fake_load c t) by done.
  by rewrite (only_metadata_address _ _ _ _ Hon2), (only_metadata_address _ _ _ _ Hon1).
Qed.

#[export] Instance cache_keep_laws : FakeIPKeepLaws cache_storage_laws.
Proof.
  refine {| positionOk := metadataOk |}; intros st md; cbn [FakeIPSaveMetadata FakeIPMetadata_ cache_storage sok cache_storage_laws].
  - intros Hs Hm. destruct (saved_loaded st md Hs Hm) as (c1 & c2 & -> & E2 & H & _). cbn [fst]. by rewrite E2.
  - intros Hs Hm. destruct (saved_loaded st md Hs Hm) as (c1 & c2 & -> & E2 & H & _). cbn [fst snd]. by rewrite E2.
  - intros a Hs Hm Ha. destruct (saved_loaded st md Hs Hm) as (c1 & c2 & -> & E2 & _ & H). cbn [fst]. rewrite E2. by apply H.
Defined.

(** ** A change of the ranges *)

(** As long as one family has no bucket the reset is rolled back. *)
Lemma reset_fails c t v4 : openOn c t -> boltBucket [domainBucket v4] t = false ->
  exists e, cache_FakeIPReset c = (c, Some e).
Proof.
  intros Ho Hb. pose proof Ho as (_ & Hh & _). unfold cache_FakeIPReset.
  assert (Hf : forall m : TxM (), (exists e, m t = Ret (Err e)) -> exists e, errOf (batch m c) = (c, Some e)).
  { intros m [e E]. exists e. by rewrite (batch_fails _ c t e Ho E). }
  apply Hf. unfold txBind, txDo. destruct (boltBucket ([] ++ [bucketFakeIP]) t) eqn:E1.
  2:{ destruct (deleteBucket_missing [] bucketFakeIP t E1) as [e ->]. by exists e. }
  destruct (deleteBucket_ok [] bucketFakeIP t E1 Hh) as (t1 & -> & Hh1 & _ & HB1).
  destruct (boltBucket ([] ++ [bucketFakeIPDomain4]) t1) eqn:E2.
  2:{ destruct (deleteBucket_missing [] bucketFakeIPDomain4 t1 E2) as [e ->]. by exists e. }
  destruct (deleteBucket_ok [] bucketFakeIPDomain4 t1 E2 Hh1) as (t2 & -> & Hh2 & _ & HB2).
  destruct v4; [rewrite HB1 in E2; cbn [app] in E2; unfold domainBucket in Hb; rewrite Hb, andb_false_r in E2; discriminate E2|].
  destruct (deleteBucket_missing [] bucketFakeIPDomain6 t2) as [e ->]; [|by exists e].
  rewrite HB2, HB1. cbn [app]. unfold domainBucket in Hb. by rewrite Hb, !andb_false_r.
Qed.

Lemma Create_known c d v6 a (s : Store CacheFile) : s.(storage) = Some c -> FakeIPLoadDomain d v6 c = (c, Some a) ->
  Create d v6 s = Ret (s, Ok a).
Proof. intros E El. unfold Create. rewrite E, El. by rewrite setStorage_same. Qed.

(** When the configured ranges change, a cache file in which addresses of only
    one family were ever stored keeps them: the reset of the store is rolled back
    and its error dropped, and a domain is answered the address it had under the
    old ranges. *)
Theorem range_change_keeps_addresses c t md d v6 a r4 r6 v4 :
  openOn c t -> settled c -> inverse t -> boltBucket [domainBucket v4] t = false -> metadataOk md ->
  boltGet [bucketFakeIP] keyMetadata t = Some (bytes (metadataMarshal md)) ->
  (md.(md_Inet4Range), md.(md_Inet6Range)) <> (r4, r6) -> domainOf c d v6 = Some a ->
  exists s, Create d v6 (Store_Start c (NewStore r4 r6)) = Ret (s, Ok a).
Proof.
  intros Ho Hse Hin Hb Hm Hg Hr Hd.
  assert (Hbk : boltBucket [bucketFakeIP] t = true).
  { destruct (boltBucket [bucketFakeIP] t) eqn:E; [done|]. rewrite get_missing in Hg; [discriminate Hg|done]. }
  destruct (metadata_loaded c t md Ho Hin Hm Hbk Hg) as (t' & E & Ho' & Hin' & Hon & HB).
  set (c' := set_DB (Some t') c) in *. destruct (reset_fails c' t' v4 Ho') as [e Er]; [by rewrite HB|].
  assert (Es : Store_Start c (NewStore r4 r6) = startAfresh c' (NewStore r4 r6)).
  { unfold Store_Start. cbn [FakeIPMetadata_ cache_storage]. rewrite E. unfold sameRanges. cbn [inet4Range inet6Range NewStore].
    destruct (bool_decide_reflect (md_Inet4Range md = r4)) as [<-|], (bool_decide_reflect (md_Inet6Range md = r6)) as [<-|]; done. }
  rewrite Es. eexists. apply (Create_known c').
  - unfold startAfresh. cbn [FakeIPReset cache_storage]. by rewrite Er.
  - cbn [FakeIPLoadDomain cache_storage]. rewrite (FakeIPLoadDomain_get c' t') by done.
    destruct Hse as (_ & E4 & E6). unfold c'. cbn [saveAddress4 saveAddress6 set_DB]. rewrite E4, E6.
    rewrite (only_other _ _ _ _ _ _ _ Hon) by (intros [= Eq]; by destruct (domainBucket_ne (negb v6))).
    unfold domainOf in Hd. cbn [FakeIPLoadDomain cache_storage] in Hd. rewrite (FakeIPLoadDomain_get c t) in Hd by done.
    rewrite E4, E6 in Hd. destruct v6; cbn [negb] in *; rewrite lookup_empty in *; cbn [snd] in Hd; by rewrite Hd.
Qed.

(** ** The delayed save *)

(** However often the position is to be saved later, the timer saves the first one. *)
Lemma timer_keeps_first c md l : c.(saveMetadataTimer) = None ->
  (foldl (fun c md => cache_FakeIPSaveMetadataAsync md c) c (md :: l)).(saveMetadataTimer) = Some md.
Proof.
  intros E. cbn. unfold cache_FakeIPSaveMetadataAsync at 2. rewrite E.
  assert (H : (set_timer (Some md) c).(saveMetadataTimer) = Some md) by done. revert H. generalize (set_timer (Some md) c) as c0.
  induction l as [|x l IH]; intros c0 H; cbn; [done|]. apply IH. unfold cache_FakeIPSaveMetadataAsync. by rewrite H.
Qed.

Lemma async_fakeOk c l : fakeOk c -> fakeOk (foldl (fun c md => cache_FakeIPSaveMetadataAsync md c) c l).
Proof.
  revert c. induction l as [|x l IH]; intros c Hf; cbn; [done|]. apply IH. by apply (sok_async (FakeIPStorageLaws := cache_storage_laws)).
Qed.

(** Between two starts the delayed save always writes the position of the first
    request: after any number of requests, when the timer goes off, the position a
    start would find is that first one. *)
Theorem delayed_save_is_stale c md l : fakeOk c -> metadataOk md -> c.(saveMetadataTimer) = None ->
  exists c2, cache_FakeIPMetadata (saveMetadataTimer_fires (foldl (fun c md => cache_FakeIPSaveMetadataAsync md c) c (md :: l))) = (c2, Some md).
Proof.
  intros Hf Hm E. set (c' := foldl _ _ _). pose proof (timer_keeps_first c md l E) as Ht. fold c' in Ht.
  assert (Hf' : fakeOk c') by (by apply async_fakeOk).
  unfold saveMetadataTimer_fires. rewrite Ht. destruct (saved_loaded c' md Hf' Hm) as (c1 & c2 & -> & E2 & _). by exists c2.
Qed.

End Fake.

(** ** A cache file in memory *)

Module CacheDemo.
#[local] Existing Instance text_exceptions.

Definition options : CacheFileOptions := mkCacheFileOptions "home" true true 0.

Definition fresh : CacheFile := New options ∅.

Lemma fresh_open : openOn fresh ∅.
Proof.
  split; [done|]. split; [done|]. split; [split|].
  - intros p k Hl. unfold leaf in Hl. cbn. unfold mBucket. rewrite lookup_empty. by destruct p.
  - intros p k _. cbn. unfold mGet. rewrite lookup_empty. by case_match.
  - split; [split; [done|vm_compute; congruence]|]. by eexists.
Qed.

Lemma fresh_inverse : inverse (∅ : Tree).
Proof.
  assert (H : forall p k, boltGet p k (∅ : Tree) = None).
  { intros p k. cbn. unfold mGet. rewrite lookup_empty. by case_match. }
  split; intros *; rewrite H; done.
Qed.

Lemma fresh_fakeOk : fakeOk fresh.
Proof. exists ∅. split; [apply fresh_open|]. split; [done|apply fresh_inverse]. Qed.

(** Saving and loading, by evaluation. *)
Lemma demo_saved :
  (LoadSelected "proxy" (StoreMode "rule" (StoreSelected "proxy" "tokyo" fresh).1).1).2 = "tokyo".
Proof. vm_compute. reflexivity. Qed.

Lemma cache_file_refines_witness :
  stores fresh (StoreSelected "proxy" "tokyo" fresh) (with_selected "proxy" "tokyo" (seen fresh)) /\
  stores fresh (SaveRDRC "remote" "example.com." 1 1700000000000000000 fresh)
    (with_rejected "remote" "example.com." 1 (1700604800 * 1000000000) (seen fresh)).
Proof.
  pose proof (cache_file_refines fresh ∅ fresh_open) as (_ & H1 & _ & _ & H2). split.
  - apply H1; [split; [done|vm_compute; congruence]|vm_compute; congruence].
  - apply (H2 "remote" "example.com." 1 1700000000000000000); try (vm_compute; done || congruence).
Defined.

Definition range4 : IPPrefix := mkIPPrefix (Addr4 0xC6120000) 29.

Lemma position_ok x : 0 <= x < 2 ^ 32 -> metadataOk (mkFakeIPMetadata (Some range4) None (Addr4 x) AddrZero).
Proof. intros Hx. split; [split; cbn; lia|]. split; [done|]. split; [by right|by left]. Qed.

Definition started : Store CacheFile := Store_Start fresh (NewStore (Some range4) None).

Lemma started_ok : storeOk started /\ positionOk (metadataOf started).
Proof.
  split.
  - split; [|split].
    + right. exists 0xC6120000, 29, 0xC6120001. split_and!; try (vm_compute; congruence); apply FakeIPDemo.range4_good.
    + by left.
    + exists fresh. split; [reflexivity|exact fresh_fakeOk].
  - by apply position_ok.
Qed.

Lemma fakeip_restart_witness :
  exists s1 st1, Store_Close started = (s1, None) /\ s1.(storage) = Some st1 /\
    let s2 := Store_Start st1 (NewStore (Some range4) None) in
    storeOk s2 /\ metadataOf s2 = metadataOf started /\
    (forall st a, started.(storage) = Some st -> plain a -> exists st2, s2.(storage) = Some st2 /\ loadOf st2 a = loadOf st a) /\
    forall domain v6 s3 a, storable domain -> Create domain v6 started = Ret (s3, Ok a) ->
      exists s4, Create domain v6 s2 = Ret (s4, Ok a).
Proof. exact (fakeip_restart started (proj1 started_ok) (proj2 started_ok)). Defined.

(** One address of the old range stored, and the position saved. *)
Definition oldMetadata : FakeIPMetadata := mkFakeIPMetadata (Some range4) None (Addr4 0xC6120002) AddrZero.

Definition usedTree : gmap (list string) (gmap string string) :=
  <[ [bucketFakeIP] := {[ keyMetadata := bytes (metadataMarshal oldMetadata); addrKey (Addr4 0xC6120002) := "a.example" ]} ]>
  {[ [bucketFakeIPDomain4] := {[ "a.example" := addrKey (Addr4 0xC6120002) ]} ]}.

Definition used : CacheFile := New (mkCacheFileOptions "" true false 0) usedTree.

(** It is what a request and the end of the store leave in the cache file. *)
Lemma used_reached :
  match Create "a.example" false (Store_Start (New (mkCacheFileOptions "" true false 0) ∅) (NewStore (Some range4) None)) with
  | Ret (s, _) => bool_decide ((Store_Close s).1.(storage) ≫= DB = Some usedTree)
  | Panic => false
  end = true.
Proof. vm_compute. reflexivity. Qed.

Lemma used_bucket p : mBucket p usedTree = true -> p = [] \/ p = [bucketFakeIP] \/ p = [bucketFakeIPDomain4].
Proof.
  unfold mBucket. intros [H%bool_decide_eq_true|[x H]%bool_decide_eq_true]%orb_true_iff; [by left|right].
  unfold usedTree in H. apply lookup_insert_Some in H as [[<- _]|[_ H]]; [by left|]. apply lookup_singleton_Some in H as [<- _]. by right.
Qed.

Lemma used_get p k v : mGet p k usedTree = Some v ->
  (p = [bucketFakeIP] /\ (k = keyMetadata \/ k = addrKey (Addr4 0xC6120002) /\ v = "a.example")) \/
  (p = [bucketFakeIPDomain4] /\ k = "a.example" /\ v = addrKey (Addr4 0xC6120002)).
Proof.
  unfold mGet. destruct (_ || _); [done|]. intros (b & H & Hk)%bind_Some. unfold usedTree in H.
  apply lookup_insert_Some in H as [[<- <-]|[_ H]].
  - left. split; [done|]. apply lookup_insert_Some in Hk as [[<- _]|[_ Hk]]; [by left|].
    apply lookup_singleton_Some in Hk as [<- <-]. by right.
  - right. apply lookup_singleton_Some in H as [<- <-]. by apply lookup_singleton_Some in Hk as [<- <-].
Qed.

Lemma used_open : openOn used usedTree.
Proof.
  split; [done|]. split; [done|]. split; [split|done].
  - intros p k Hl. change (mBucket (p ++ [k]) usedTree = false). destruct (mBucket (p ++ [k]) usedTree) eqn:E; [|done]. apply used_bucket in E.
    destruct Hl as [(key & _ & ->)|[(key & _ & ->)|[tn ->]]]; by destruct E as [E|[E|E]].
  - intros p k Hl. change (mGet p k usedTree = None). destruct (mGet p k usedTree) eqn:E; [|done]. apply used_get in E.
    destruct Hl as [->|(id & [=] & _)]. by destruct E as [[E _]|[E _]].
Qed.

Lemma used_inverse : inverse (BO := map_bolt) usedTree.
Proof.
  split.
  - intros d v4 k H. change (mGet [domainBucket v4] d usedTree = Some k) in H. apply used_get in H as [[E _]|(E & -> & ->)]; destruct v4; try discriminate E.
    split; [done|]. by exists (Addr4 0xC6120002).
  - intros a d Ha H. change (mGet [bucketFakeIP] (addrKey a) usedTree = Some d) in H. apply used_get in H as [[_ [E|[E ->]]]|[E _]]; [by apply addrKey_ok in Ha as (_ & _ & Ha)| |done].
    apply addrKey_inj in E as ->; [|done|done]. split; [done|]. vm_compute. reflexivity.
Qed.

Definition newRange : IPPrefix := mkIPPrefix (Addr4 0x64400000) 24.

Lemma range_change_keeps_addresses_witness :
  prefixContains (Some newRange) (Addr4 0xC6120002) = false /\
  exists s, Create "a.example" false (Store_Start used (NewStore (Some newRange) None)) = Ret (s, Ok (Addr4 0xC6120002)).
Proof.
  split; [vm_compute; reflexivity|].
  apply (range_change_keeps_addresses used usedTree oldMetadata "a.example" false (Addr4 0xC6120002) (Some newRange) None false).
  - apply used_open.
  - done.
  - apply used_inverse.
  - vm_compute. reflexivity.
  - by apply position_ok.
  - vm_compute. reflexivity.
  - discriminate.
  - vm_compute. reflexivity.
Defined.

Lemma delayed_save_is_stale_witness :
  exists c2, cache_FakeIPMetadata (saveMetadataTimer_fires (foldl (fun c md => cache_FakeIPSaveMetadataAsync md c) fresh
    [oldMetadata; mkFakeIPMetadata (Some range4) None (Addr4 0xC6120003) AddrZero])) = (c2, Some oldMetadata).
Proof.
  apply (delayed_save_is_stale fresh oldMetadata [mkFakeIPMetadata (Some range4) None (Addr4 0xC6120003) AddrZero]).
  - apply fresh_fakeOk.
  - by apply position_ok.
  - reflexivity.
Defined.

End CacheDemo.
