(* ===== verification/Srs.v ===== *)
(** * The options of a headless rule, field by field

    Assignments to the fields of [option.DefaultHeadlessRule], as the reader of binary
    rule-sets makes them. *)

From S2P Require Import Prelude GoStrings GoCrypto RuleItems RuleMatch RuleBuild GoBinary FakeIP CacheFile.

Local Open Scope string_scope.
Local Open Scope list_scope.
Local Open Scope Z_scope.

Section Fields.
Context `{RE : RuleEnv}.

Definition set_ho_QueryType (v : list Z) (o : HeadlessOptions) : HeadlessOptions :=
  mkHeadlessOptions v o.(ho_Network) o.(ho_Domain) o.(ho_DomainSuffix) o.(ho_DomainKeyword) o.(ho_DomainRegex) o.(ho_SourceIPCIDR) o.(ho_IPCIDR) o.(ho_SourcePort) o.(ho_SourcePortRange) o.(ho_Port) o.(ho_PortRange) o.(ho_ProcessName) o.(ho_ProcessPath) o.(ho_ProcessPathRegex) o.(ho_PackageName) o.(ho_NetworkType) o.(ho_NetworkIsExpensive) o.(ho_NetworkIsConstrained) o.(ho_WIFISSID) o.(ho_WIFIBSSID) o.(ho_NetworkInterfaceAddress) o.(ho_DefaultInterfaceAddress) o.(ho_Invert) o.(ho_DomainMatcher) o.(ho_SourceIPSet) o.(ho_IPSet) o.(ho_AdGuardDomain) o.(ho_AdGuardDomainMatcher).
Definition set_ho_Network (v : list string) (o : HeadlessOptions) : HeadlessOptions :=
  mkHeadlessOptions o.(ho_QueryType) v o.(ho_Domain) o.(ho_DomainSuffix) o.(ho_DomainKeyword) o.(ho_DomainRegex) o.(ho_SourceIPCIDR) o.(ho_IPCIDR) o.(ho_SourcePort) o.(ho_SourcePortRange) o.(ho_Port) o.(ho_PortRange) o.(ho_ProcessName) o.(ho_ProcessPath) o.(ho_ProcessPathRegex) o.(ho_PackageName) o.(ho_NetworkType) o.(ho_NetworkIsExpensive) o.(ho_NetworkIsConstrained) o.(ho_WIFISSID) o.(ho_WIFIBSSID) o.(ho_NetworkInterfaceAddress) o.(ho_DefaultInterfaceAddress) o.(ho_Invert) o.(ho_DomainMatcher) o.(ho_SourceIPSet) o.(ho_IPSet) o.(ho_AdGuardDomain) o.(ho_AdGuardDomainMatcher).
Definition set_ho_Domain (v : list string) (o : HeadlessOptions) : HeadlessOptions :=
  mkHeadlessOptions o.(ho_QueryType) o.(ho_Network) v o.(ho_DomainSuffix) o.(ho_DomainKeyword) o.(ho_DomainRegex) o.(ho_SourceIPCIDR) o.(ho_IPCIDR) o.(ho_SourcePort) o.(ho_SourcePortRange) o.(ho_Port) o.(ho_PortRange) o.(ho_ProcessName) o.(ho_ProcessPath) o.(ho_ProcessPathRegex) o.(ho_PackageName) o.(ho_NetworkType) o.(ho_NetworkIsExpensive) o.(ho_NetworkIsConstrained) o.(ho_WIFISSID) o.(ho_WIFIBSSID) o.(ho_NetworkInterfaceAddress) o.(ho_DefaultInterfaceAddress) o.(ho_Invert) o.(ho_DomainMatcher) o.(ho_SourceIPSet) o.(ho_IPSet) o.(ho_AdGuardDomain) o.(ho_AdGuardDomainMatcher).
Definition set_ho_DomainSuffix (v : list string) (o : HeadlessOptions) : HeadlessOptions :=
  mkHeadlessOptions o.(ho_QueryType) o.(ho_Network) o.(ho_Domain) v o.(ho_DomainKeyword) o.(ho_DomainRegex) o.(ho_SourceIPCIDR) o.(ho_IPCIDR) o.(ho_SourcePort) o.(ho_SourcePortRange) o.(ho_Port) o.(ho_PortRange) o.(ho_ProcessName) o.(ho_ProcessPath) o.(ho_ProcessPathRegex) o.(ho_PackageName) o.(ho_NetworkType) o.(ho_NetworkIsExpensive) o.(ho_NetworkIsConstrained) o.(ho_WIFISSID) o.(ho_WIFIBSSID) o.(ho_NetworkInterfaceAddress) o.(ho_DefaultInterfaceAddress) o.(ho_Invert) o.(ho_DomainMatcher) o.(ho_SourceIPSet) o.(ho_IPSet) o.(ho_AdGuardDomain) o.(ho_AdGuardDomainMatcher).
Definition set_ho_DomainKeyword (v : list string) (o : HeadlessOptions) : HeadlessOptions :=
  mkHeadlessOptions o.(ho_QueryType) o.(ho_Network) o.(ho_Domain) o.(ho_DomainSuffix) v o.(ho_DomainRegex) o.(ho_SourceIPCIDR) o.(ho_IPCIDR) o.(ho_SourcePort) o.(ho_SourcePortRange) o.(ho_Port) o.(ho_PortRange) o.(ho_ProcessName) o.(ho_ProcessPath) o.(ho_ProcessPathRegex) o.(ho_PackageName) o.(ho_NetworkType) o.(ho_NetworkIsExpensive) o.(ho_NetworkIsConstrained) o.(ho_WIFISSID) o.(ho_WIFIBSSID) o.(ho_NetworkInterfaceAddress) o.(ho_DefaultInterfaceAddress) o.(ho_Invert) o.(ho_DomainMatcher) o.(ho_SourceIPSet) o.(ho_IPSet) o.(ho_AdGuardDomain) o.(ho_AdGuardDomainMatcher).
Definition set_ho_DomainRegex (v : list string) (o : HeadlessOptions) : HeadlessOptions :=
  mkHeadlessOptions o.(ho_QueryType) o.(ho_Network) o.(ho_Domain) o.(ho_DomainSuffix) o.(ho_DomainKeyword) v o.(ho_SourceIPCIDR) o.(ho_IPCIDR) o.(ho_SourcePort) o.(ho_SourcePortRange) o.(ho_Port) o.(ho_PortRange) o.(ho_ProcessName) o.(ho_ProcessPath) o.(ho_ProcessPathRegex) o.(ho_PackageName) o.(ho_NetworkType) o.(ho_NetworkIsExpensive) o.(ho_NetworkIsConstrained) o.(ho_WIFISSID) o.(ho_WIFIBSSID) o.(ho_NetworkInterfaceAddress) o.(ho_DefaultInterfaceAddress) o.(ho_Invert) o.(ho_DomainMatcher) o.(ho_SourceIPSet) o.(ho_IPSet) o.(ho_AdGuardDomain) o.(ho_AdGuardDomainMatcher).
Definition set_ho_SourceIPCIDR (v : list string) (o : HeadlessOptions) : HeadlessOptions :=
  mkHeadlessOptions o.(ho_QueryType) o.(ho_Network) o.(ho_Domain) o.(ho_DomainSuffix) o.(ho_DomainKeyword) o.(ho_DomainRegex) v o.(ho_IPCIDR) o.(ho_SourcePort) o.(ho_SourcePortRange) o.(ho_Port) o.(ho_PortRange) o.(ho_ProcessName) o.(ho_ProcessPath) o.(ho_ProcessPathRegex) o.(ho_PackageName) o.(ho_NetworkType) o.(ho_NetworkIsExpensive) o.(ho_NetworkIsConstrained) o.(ho_WIFISSID) o.(ho_WIFIBSSID) o.(ho_NetworkInterfaceAddress) o.(ho_DefaultInterfaceAddress) o.(ho_Invert) o.(ho_DomainMatcher) o.(ho_SourceIPSet) o.(ho_IPSet) o.(ho_AdGuardDomain) o.(ho_AdGuardDomainMatcher).
Definition set_ho_IPCIDR (v : list string) (o : HeadlessOptions) : HeadlessOptions :=
  mkHeadlessOptions o.(ho_QueryType) o.(ho_Network) o.(ho_Domain) o.(ho_DomainSuffix) o.(ho_DomainKeyword) o.(ho_DomainRegex) o.(ho_SourceIPCIDR) v o.(ho_SourcePort) o.(ho_SourcePortRange) o.(ho_Port) o.(ho_PortRange) o.(ho_ProcessName) o.(ho_ProcessPath) o.(ho_ProcessPathRegex) o.(ho_PackageName) o.(ho_NetworkType) o.(ho_NetworkIsExpensive) o.(ho_NetworkIsConstrained) o.(ho_WIFISSID) o.(ho_WIFIBSSID) o.(ho_NetworkInterfaceAddress) o.(ho_DefaultInterfaceAddress) o.(ho_Invert) o.(ho_DomainMatcher) o.(ho_SourceIPSet) o.(ho_IPSet) o.(ho_AdGuardDomain) o.(ho_AdGuardDomainMatcher).
Definition set_ho_SourcePort (v : list Z) (o : HeadlessOptions) : HeadlessOptions :=
  mkHeadlessOptions o.(ho_QueryType) o.(ho_Network) o.(ho_Domain) o.(ho_DomainSuffix) o.(ho_DomainKeyword) o.(ho_DomainRegex) o.(ho_SourceIPCIDR) o.(ho_IPCIDR) v o.(ho_SourcePortRange) o.(ho_Port) o.(ho_PortRange) o.(ho_ProcessName) o.(ho_ProcessPath) o.(ho_ProcessPathRegex) o.(ho_PackageName) o.(ho_NetworkType) o.(ho_NetworkIsExpensive) o.(ho_NetworkIsConstrained) o.(ho_WIFISSID) o.(ho_WIFIBSSID) o.(ho_NetworkInterfaceAddress) o.(ho_DefaultInterfaceAddress) o.(ho_Invert) o.(ho_DomainMatcher) o.(ho_SourceIPSet) o.(ho_IPSet) o.(ho_AdGuardDomain) o.(ho_AdGuardDomainMatcher).
Definition set_ho_SourcePortRange (v : list string) (o : HeadlessOptions) : HeadlessOptions :=
  mkHeadlessOptions o.(ho_QueryType) o.(ho_Network) o.(ho_Domain) o.(ho_DomainSuffix) o.(ho_DomainKeyword) o.(ho_DomainRegex) o.(ho_SourceIPCIDR) o.(ho_IPCIDR) o.(ho_SourcePort) v o.(ho_Port) o.(ho_PortRange) o.(ho_ProcessName) o.(ho_ProcessPath) o.(ho_ProcessPathRegex) o.(ho_PackageName) o.(ho_NetworkType) o.(ho_NetworkIsExpensive) o.(ho_NetworkIsConstrained) o.(ho_WIFISSID) o.(ho_WIFIBSSID) o.(ho_NetworkInterfaceAddress) o.(ho_DefaultInterfaceAddress) o.(ho_Invert) o.(ho_DomainMatcher) o.(ho_SourceIPSet) o.(ho_IPSet) o.(ho_AdGuardDomain) o.(ho_AdGuardDomainMatcher).
Definition set_ho_Port (v : list Z) (o : HeadlessOptions) : HeadlessOptions :=
  mkHeadlessOptions o.(ho_QueryType) o.(ho_Network) o.(ho_Domain) o.(ho_DomainSuffix) o.(ho_DomainKeyword) o.(ho_DomainRegex) o.(ho_SourceIPCIDR) o.(ho_IPCIDR) o.(ho_SourcePort) o.(ho_SourcePortRange) v o.(ho_PortRange) o.(ho_ProcessName) o.(ho_ProcessPath) o.(ho_ProcessPathRegex) o.(ho_PackageName) o.(ho_NetworkType) o.(ho_NetworkIsExpensive) o.(ho_NetworkIsConstrained) o.(ho_WIFISSID) o.(ho_WIFIBSSID) o.(ho_NetworkInterfaceAddress) o.(ho_DefaultInterfaceAddress) o.(ho_Invert) o.(ho_DomainMatcher) o.(ho_SourceIPSet) o.(ho_IPSet) o.(ho_AdGuardDomain) o.(ho_AdGuardDomainMatcher).
Definition set_ho_PortRange (v : list string) (o : HeadlessOptions) : HeadlessOptions :=
  mkHeadlessOptions o.(ho_QueryType) o.(ho_Network) o.(ho_Domain) o.(ho_DomainSuffix) o.(ho_DomainKeyword) o.(ho_DomainRegex) o.(ho_SourceIPCIDR) o.(ho_IPCIDR) o.(ho_SourcePort) o.(ho_SourcePortRange) o.(ho_Port) v o.(ho_ProcessName) o.(ho_ProcessPath) o.(ho_ProcessPathRegex) o.(ho_PackageName) o.(ho_NetworkType) o.(ho_NetworkIsExpensive) o.(ho_NetworkIsConstrained) o.(ho_WIFISSID) o.(ho_WIFIBSSID) o.(ho_NetworkInterfaceAddress) o.(ho_DefaultInterfaceAddress) o.(ho_Invert) o.(ho_DomainMatcher) o.(ho_SourceIPSet) o.(ho_IPSet) o.(ho_AdGuardDomain) o.(ho_AdGuardDomainMatcher).
Definition set_ho_ProcessName (v : list string) (o : HeadlessOptions) : HeadlessOptions :=
  mkHeadlessOptions o.(ho_QueryType) o.(ho_Network) o.(ho_Domain) o.(ho_DomainSuffix) o.(ho_DomainKeyword) o.(ho_DomainRegex) o.(ho_SourceIPCIDR) o.(ho_IPCIDR) o.(ho_SourcePort) o.(ho_SourcePortRange) o.(ho_Port) o.(ho_PortRange) v o.(ho_ProcessPath) o.(ho_ProcessPathRegex) o.(ho_PackageName) o.(ho_NetworkType) o.(ho_NetworkIsExpensive) o.(ho_NetworkIsConstrained) o.(ho_WIFISSID) o.(ho_WIFIBSSID) o.(ho_NetworkInterfaceAddress) o.(ho_DefaultInterfaceAddress) o.(ho_Invert) o.(ho_DomainMatcher) o.(ho_SourceIPSet) o.(ho_IPSet) o.(ho_AdGuardDomain) o.(ho_AdGuardDomainMatcher).
Definition set_ho_ProcessPath (v : list string) (o : HeadlessOptions) : HeadlessOptions :=
  mkHeadlessOptions o.(ho_QueryType) o.(ho_Network) o.(ho_Domain) o.(ho_DomainSuffix) o.(ho_DomainKeyword) o.(ho_DomainRegex) o.(ho_SourceIPCIDR) o.(ho_IPCIDR) o.(ho_SourcePort) o.(ho_SourcePortRange) o.(ho_Port) o.(ho_PortRange) o.(ho_ProcessName) v o.(ho_ProcessPathRegex) o.(ho_PackageName) o.(ho_NetworkType) o.(ho_NetworkIsExpensive) o.(ho_NetworkIsConstrained) o.(ho_WIFISSID) o.(ho_WIFIBSSID) o.(ho_NetworkInterfaceAddress) o.(ho_DefaultInterfaceAddress) o.(ho_Invert) o.(ho_DomainMatcher) o.(ho_SourceIPSet) o.(ho_IPSet) o.(ho_AdGuardDomain) o.(ho_AdGuardDomainMatcher).
Definition set_ho_ProcessPathRegex (v : list string) (o : HeadlessOptions) : HeadlessOptions :=
  mkHeadlessOptions o.(ho_QueryType) o.(ho_Network) o.(ho_Domain) o.(ho_DomainSuffix) o.(ho_DomainKeyword) o.(ho_DomainRegex) o.(ho_SourceIPCIDR) o.(ho_IPCIDR) o.(ho_SourcePort) o.(ho_SourcePortRange) o.(ho_Port) o.(ho_PortRange) o.(ho_ProcessName) o.(ho_ProcessPath) v o.(ho_PackageName) o.(ho_NetworkType) o.(ho_NetworkIsExpensive) o.(ho_NetworkIsConstrained) o.(ho_WIFISSID) o.(ho_WIFIBSSID) o.(ho_NetworkInterfaceAddress) o.(ho_DefaultInterfaceAddress) o.(ho_Invert) o.(ho_DomainMatcher) o.(ho_SourceIPSet) o.(ho_IPSet) o.(ho_AdGuardDomain) o.(ho_AdGuardDomainMatcher).
Definition set_ho_PackageName (v : list string) (o : HeadlessOptions) : HeadlessOptions :=
  mkHeadlessOptions o.(ho_QueryType) o.(ho_Network) o.(ho_Domain) o.(ho_DomainSuffix) o.(ho_DomainKeyword) o.(ho_DomainRegex) o.(ho_SourceIPCIDR) o.(ho_IPCIDR) o.(ho_SourcePort) o.(ho_SourcePortRange) o.(ho_Port) o.(ho_PortRange) o.(ho_ProcessName) o.(ho_ProcessPath) o.(ho_ProcessPathRegex) v o.(ho_NetworkType) o.(ho_NetworkIsExpensive) o.(ho_NetworkIsConstrained) o.(ho_WIFISSID) o.(ho_WIFIBSSID) o.(ho_NetworkInterfaceAddress) o.(ho_DefaultInterfaceAddress) o.(ho_Invert) o.(ho_DomainMatcher) o.(ho_SourceIPSet) o.(ho_IPSet) o.(ho_AdGuardDomain) o.(ho_AdGuardDomainMatcher).
Definition set_ho_NetworkType (v : list Z) (o : HeadlessOptions) : HeadlessOptions :=
  mkHeadlessOptions o.(ho_QueryType) o.(ho_Network) o.(ho_Domain) o.(ho_DomainSuffix) o.(ho_DomainKeyword) o.(ho_DomainRegex) o.(ho_SourceIPCIDR) o.(ho_IPCIDR) o.(ho_SourcePort) o.(ho_SourcePortRange) o.(ho_Port) o.(ho_PortRange) o.(ho_ProcessName) o.(ho_ProcessPath) o.(ho_ProcessPathRegex) o.(ho_PackageName) v o.(ho_NetworkIsExpensive) o.(ho_NetworkIsConstrained) o.(ho_WIFISSID) o.(ho_WIFIBSSID) o.(ho_NetworkInterfaceAddress) o.(ho_DefaultInterfaceAddress) o.(ho_Invert) o.(ho_DomainMatcher) o.(ho_SourceIPSet) o.(ho_IPSet) o.(ho_AdGuardDomain) o.(ho_AdGuardDomainMatcher).
Definition set_ho_NetworkIsExpensive (v : bool) (o : HeadlessOptions) : HeadlessOptions :=
  mkHeadlessOptions o.(ho_QueryType) o.(ho_Network) o.(ho_Domain) o.(ho_DomainSuffix) o.(ho_DomainKeyword) o.(ho_DomainRegex) o.(ho_SourceIPCIDR) o.(ho_IPCIDR) o.(ho_SourcePort) o.(ho_SourcePortRange) o.(ho_Port) o.(ho_PortRange) o.(ho_ProcessName) o.(ho_ProcessPath) o.(ho_ProcessPathRegex) o.(ho_PackageName) o.(ho_NetworkType) v o.(ho_NetworkIsConstrained) o.(ho_WIFISSID) o.(ho_WIFIBSSID) o.(ho_NetworkInterfaceAddress) o.(ho_DefaultInterfaceAddress) o.(ho_Invert) o.(ho_DomainMatcher) o.(ho_SourceIPSet) o.(ho_IPSet) o.(ho_AdGuardDomain) o.(ho_AdGuardDomainMatcher).
Definition set_ho_NetworkIsConstrained (v : bool) (o : HeadlessOptions) : HeadlessOptions :=
  mkHeadlessOptions o.(ho_QueryType) o.(ho_Network) o.(ho_Domain) o.(ho_DomainSuffix) o.(ho_DomainKeyword) o.(ho_DomainRegex) o.(ho_SourceIPCIDR) o.(ho_IPCIDR) o.(ho_SourcePort) o.(ho_SourcePortRange) o.(ho_Port) o.(ho_PortRange) o.(ho_ProcessName) o.(ho_ProcessPath) o.(ho_ProcessPathRegex) o.(ho_PackageName) o.(ho_NetworkType) o.(ho_NetworkIsExpensive) v o.(ho_WIFISSID) o.(ho_WIFIBSSID) o.(ho_NetworkInterfaceAddress) o.(ho_DefaultInterfaceAddress) o.(ho_Invert) o.(ho_DomainMatcher) o.(ho_SourceIPSet) o.(ho_IPSet) o.(ho_AdGuardDomain) o.(ho_AdGuardDomainMatcher).
Definition set_ho_WIFISSID (v : list string) (o : HeadlessOptions) : HeadlessOptions :=
  mkHeadlessOptions o.(ho_QueryType) o.(ho_Network) o.(ho_Domain) o.(ho_DomainSuffix) o.(ho_DomainKeyword) o.(ho_DomainRegex) o.(ho_SourceIPCIDR) o.(ho_IPCIDR) o.(ho_SourcePort) o.(ho_SourcePortRange) o.(ho_Port) o.(ho_PortRange) o.(ho_ProcessName) o.(ho_ProcessPath) o.(ho_ProcessPathRegex) o.(ho_PackageName) o.(ho_NetworkType) o.(ho_NetworkIsExpensive) o.(ho_NetworkIsConstrained) v o.(ho_WIFIBSSID) o.(ho_NetworkInterfaceAddress) o.(ho_DefaultInterfaceAddress) o.(ho_Invert) o.(ho_DomainMatcher) o.(ho_SourceIPSet) o.(ho_IPSet) o.(ho_AdGuardDomain) o.(ho_AdGuardDomainMatcher).
Definition set_ho_WIFIBSSID (v : list string) (o : HeadlessOptions) : HeadlessOptions :=
  mkHeadlessOptions o.(ho_QueryType) o.(ho_Network) o.(ho_Domain) o.(ho_DomainSuffix) o.(ho_DomainKeyword) o.(ho_DomainRegex) o.(ho_SourceIPCIDR) o.(ho_IPCIDR) o.(ho_SourcePort) o.(ho_SourcePortRange) o.(ho_Port) o.(ho_PortRange) o.(ho_ProcessName) o.(ho_ProcessPath) o.(ho_ProcessPathRegex) o.(ho_PackageName) o.(ho_NetworkType) o.(ho_NetworkIsExpensive) o.(ho_NetworkIsConstrained) o.(ho_WIFISSID) v o.(ho_NetworkInterfaceAddress) o.(ho_DefaultInterfaceAddress) o.(ho_Invert) o.(ho_DomainMatcher) o.(ho_SourceIPSet) o.(ho_IPSet) o.(ho_AdGuardDomain) o.(ho_AdGuardDomainMatcher).
Definition set_ho_NetworkInterfaceAddress (v : option (list (Z * list Prefix))) (o : HeadlessOptions) : HeadlessOptions :=
  mkHeadlessOptions o.(ho_QueryType) o.(ho_Network) o.(ho_Domain) o.(ho_DomainSuffix) o.(ho_DomainKeyword) o.(ho_DomainRegex) o.(ho_SourceIPCIDR) o.(ho_IPCIDR) o.(ho_SourcePort) o.(ho_SourcePortRange) o.(ho_Port) o.(ho_PortRange) o.(ho_ProcessName) o.(ho_ProcessPath) o.(ho_ProcessPathRegex) o.(ho_PackageName) o.(ho_NetworkType) o.(ho_NetworkIsExpensive) o.(ho_NetworkIsConstrained) o.(ho_WIFISSID) o.(ho_WIFIBSSID) v o.(ho_DefaultInterfaceAddress) o.(ho_Invert) o.(ho_DomainMatcher) o.(ho_SourceIPSet) o.(ho_IPSet) o.(ho_AdGuardDomain) o.(ho_AdGuardDomainMatcher).
Definition set_ho_DefaultInterfaceAddress (v : list Prefix) (o : HeadlessOptions) : HeadlessOptions :=
  mkHeadlessOptions o.(ho_QueryType) o.(ho_Network) o.(ho_Domain) o.(ho_DomainSuffix) o.(ho_DomainKeyword) o.(ho_DomainRegex) o.(ho_SourceIPCIDR) o.(ho_IPCIDR) o.(ho_SourcePort) o.(ho_SourcePortRange) o.(ho_Port) o.(ho_PortRange) o.(ho_ProcessName) o.(ho_ProcessPath) o.(ho_ProcessPathRegex) o.(ho_PackageName) o.(ho_NetworkType) o.(ho_NetworkIsExpensive) o.(ho_NetworkIsConstrained) o.(ho_WIFISSID) o.(ho_WIFIBSSID) o.(ho_NetworkInterfaceAddress) v o.(ho_Invert) o.(ho_DomainMatcher) o.(ho_SourceIPSet) o.(ho_IPSet) o.(ho_AdGuardDomain) o.(ho_AdGuardDomainMatcher).
Definition set_ho_Invert (v : bool) (o : HeadlessOptions) : HeadlessOptions :=
  mkHeadlessOptions o.(ho_QueryType) o.(ho_Network) o.(ho_Domain) o.(ho_DomainSuffix) o.(ho_DomainKeyword) o.(ho_DomainRegex) o.(ho_SourceIPCIDR) o.(ho_IPCIDR) o.(ho_SourcePort) o.(ho_SourcePortRange) o.(ho_Port) o.(ho_PortRange) o.(ho_ProcessName) o.(ho_ProcessPath) o.(ho_ProcessPathRegex) o.(ho_PackageName) o.(ho_NetworkType) o.(ho_NetworkIsExpensive) o.(ho_NetworkIsConstrained) o.(ho_WIFISSID) o.(ho_WIFIBSSID) o.(ho_NetworkInterfaceAddress) o.(ho_DefaultInterfaceAddress) v o.(ho_DomainMatcher) o.(ho_SourceIPSet) o.(ho_IPSet) o.(ho_AdGuardDomain) o.(ho_AdGuardDomainMatcher).
Definition set_ho_DomainMatcher (v : option Matcher) (o : HeadlessOptions) : HeadlessOptions :=
  mkHeadlessOptions o.(ho_QueryType) o.(ho_Network) o.(ho_Domain) o.(ho_DomainSuffix) o.(ho_DomainKeyword) o.(ho_DomainRegex) o.(ho_SourceIPCIDR) o.(ho_IPCIDR) o.(ho_SourcePort) o.(ho_SourcePortRange) o.(ho_Port) o.(ho_PortRange) o.(ho_ProcessName) o.(ho_ProcessPath) o.(ho_ProcessPathRegex) o.(ho_PackageName) o.(ho_NetworkType) o.(ho_NetworkIsExpensive) o.(ho_NetworkIsConstrained) o.(ho_WIFISSID) o.(ho_WIFIBSSID) o.(ho_NetworkInterfaceAddress) o.(ho_DefaultInterfaceAddress) o.(ho_Invert) v o.(ho_SourceIPSet) o.(ho_IPSet) o.(ho_AdGuardDomain) o.(ho_AdGuardDomainMatcher).
Definition set_ho_SourceIPSet (v : option IPSet) (o : HeadlessOptions) : HeadlessOptions :=
  mkHeadlessOptions o.(ho_QueryType) o.(ho_Network) o.(ho_Domain) o.(ho_DomainSuffix) o.(ho_DomainKeyword) o.(ho_DomainRegex) o.(ho_SourceIPCIDR) o.(ho_IPCIDR) o.(ho_SourcePort) o.(ho_SourcePortRange) o.(ho_Port) o.(ho_PortRange) o.(ho_ProcessName) o.(ho_ProcessPath) o.(ho_ProcessPathRegex) o.(ho_PackageName) o.(ho_NetworkType) o.(ho_NetworkIsExpensive) o.(ho_NetworkIsConstrained) o.(ho_WIFISSID) o.(ho_WIFIBSSID) o.(ho_NetworkInterfaceAddress) o.(ho_DefaultInterfaceAddress) o.(ho_Invert) o.(ho_DomainMatcher) v o.(ho_IPSet) o.(ho_AdGuardDomain) o.(ho_AdGuardDomainMatcher).
Definition set_ho_IPSet (v : option IPSet) (o : HeadlessOptions) : HeadlessOptions :=
  mkHeadlessOptions o.(ho_QueryType) o.(ho_Network) o.(ho_Domain) o.(ho_DomainSuffix) o.(ho_DomainKeyword) o.(ho_DomainRegex) o.(ho_SourceIPCIDR) o.(ho_IPCIDR) o.(ho_SourcePort) o.(ho_SourcePortRange) o.(ho_Port) o.(ho_PortRange) o.(ho_ProcessName) o.(ho_ProcessPath) o.(ho_ProcessPathRegex) o.(ho_PackageName) o.(ho_NetworkType) o.(ho_NetworkIsExpensive) o.(ho_NetworkIsConstrained) o.(ho_WIFISSID) o.(ho_WIFIBSSID) o.(ho_NetworkInterfaceAddress) o.(ho_DefaultInterfaceAddress) o.(ho_Invert) o.(ho_DomainMatcher) o.(ho_SourceIPSet) v o.(ho_AdGuardDomain) o.(ho_AdGuardDomainMatcher).
Definition set_ho_AdGuardDomain (v : list string) (o : HeadlessOptions) : HeadlessOptions :=
  mkHeadlessOptions o.(ho_QueryType) o.(ho_Network) o.(ho_Domain) o.(ho_DomainSuffix) o.(ho_DomainKeyword) o.(ho_DomainRegex) o.(ho_SourceIPCIDR) o.(ho_IPCIDR) o.(ho_SourcePort) o.(ho_SourcePortRange) o.(ho_Port) o.(ho_PortRange) o.(ho_ProcessName) o.(ho_ProcessPath) o.(ho_ProcessPathRegex) o.(ho_PackageName) o.(ho_NetworkType) o.(ho_NetworkIsExpensive) o.(ho_NetworkIsConstrained) o.(ho_WIFISSID) o.(ho_WIFIBSSID) o.(ho_NetworkInterfaceAddress) o.(ho_DefaultInterfaceAddress) o.(ho_Invert) o.(ho_DomainMatcher) o.(ho_SourceIPSet) o.(ho_IPSet) v o.(ho_AdGuardDomainMatcher).
Definition set_ho_AdGuardDomainMatcher (v : option AdGuardMatcher) (o : HeadlessOptions) : HeadlessOptions :=
  mkHeadlessOptions o.(ho_QueryType) o.(ho_Network) o.(ho_Domain) o.(ho_DomainSuffix) o.(ho_DomainKeyword) o.(ho_DomainRegex) o.(ho_SourceIPCIDR) o.(ho_IPCIDR) o.(ho_SourcePort) o.(ho_SourcePortRange) o.(ho_Port) o.(ho_PortRange) o.(ho_ProcessName) o.(ho_ProcessPath) o.(ho_ProcessPathRegex) o.(ho_PackageName) o.(ho_NetworkType) o.(ho_NetworkIsExpensive) o.(ho_NetworkIsConstrained) o.(ho_WIFISSID) o.(ho_WIFIBSSID) o.(ho_NetworkInterfaceAddress) o.(ho_DefaultInterfaceAddress) o.(ho_Invert) o.(ho_DomainMatcher) o.(ho_SourceIPSet) o.(ho_IPSet) o.(ho_AdGuardDomain) v.

End Fields.

(** ** Binary rule-sets

    [src/common/srs]: the compiled form of a rule-set.  A file has a magic number, a
    version and a compressed stream of rules; a default rule is a sequence of items,
    each a tag and its value, up to a final tag; a logical rule holds rules.

    Reading is a function on the bytes that are left, writing gives the bytes.  What
    the format uses of other libraries is the class [SrsEnv]: the binary forms of the
    domain matchers, the ranges inside an IP set (which the code reaches by a cast),
    the parts of a prefix, and zlib. *)

(** ** The libraries *)

Class SrsEnv `{RE : RuleEnv} := {
  (** [sing/common/domain]; a matcher of the first version is built differently *)
  NewLegacyMatcher : list string -> list string -> Matcher;
  matcher_Write : Matcher -> list Z;
  ReadMatcher : Rd Matcher;
  matcher_Dump : Matcher -> list string * list string;
  adguard_Write : AdGuardMatcher -> list Z;
  ReadAdGuardMatcher : Rd AdGuardMatcher;
  adguard_Dump : AdGuardMatcher -> list string;
  (** the memory of a [netipx.IPSet], as ranges from an address to an address *)
  ipset_ranges : IPSet -> list (Addr * Addr);
  ipset_cast : list (Addr * Addr) -> IPSet;
  ipset_Prefixes : IPSet -> list string;
  (** [netip.Prefix] *)
  prefix_Addr : Prefix -> Addr;
  prefix_Bits : Prefix -> Z;
  prefix_From : Addr -> Z -> Prefix;
  (** [badjson.TypedMap.Put] *)
  typedMap_Put : Z -> list Prefix -> list (Z * list Prefix) -> list (Z * list Prefix);
  (** [compress/zlib]: the compressed bytes; the bytes that can be read of a stream *)
  zlib_Write : list Z -> list Z;
  zlib_NewReader : list Z -> result error (list Z);
}.

Declare Scope rd_scope.
Delimit Scope rd_scope with rd.
Notation "x <- m ;; k" := (rdBind m (fun x => k)) (at level 100, m at next level, right associativity) : rd_scope.

Definition MagicBytes : list Z := [0x53; 0x52; 0x53].
Definition RuleSetVersion1 : Z := 1.
Definition RuleSetVersion2 : Z := 2.
Definition RuleSetVersion3 : Z := 3.
Definition RuleSetVersion4 : Z := 4.
Definition RuleSetVersionCurrent : Z := RuleSetVersion4.

Definition ruleItemQueryType : Z := 0.
Definition ruleItemNetwork : Z := 1.
Definition ruleItemDomain : Z := 2.
Definition ruleItemDomainKeyword : Z := 3.
Definition ruleItemDomainRegex : Z := 4.
Definition ruleItemSourceIPCIDR : Z := 5.
Definition ruleItemIPCIDR : Z := 6.
Definition ruleItemSourcePort : Z := 7.
Definition ruleItemSourcePortRange : Z := 8.
Definition ruleItemPort : Z := 9.
Definition ruleItemPortRange : Z := 10.
Definition ruleItemProcessName : Z := 11.
Definition ruleItemProcessPath : Z := 12.
Definition ruleItemPackageName : Z := 13.
Definition ruleItemWIFISSID : Z := 14.
Definition ruleItemWIFIBSSID : Z := 15.
Definition ruleItemAdGuardDomain : Z := 16.
Definition ruleItemProcessPathRegex : Z := 17.
Definition ruleItemNetworkType : Z := 18.
Definition ruleItemNetworkIsExpensive : Z := 19.
Definition ruleItemNetworkIsConstrained : Z := 20.
Definition ruleItemNetworkInterfaceAddress : Z := 21.
Definition ruleItemDefaultInterfaceAddress : Z := 22.
Definition ruleItemFinal : Z := 0xFF.

(** Sizes of the elements of slices. *)
Definition sizeofString : Z := 16.
Definition sizeofHeadlessRule : Z := 624.
Definition sizeofRange : Z := 48.

Section Srs.
Context `{SE : SrsEnv} {VB : Varbin}.
Local Open Scope rd_scope.

Abbreviation HeadlessRuleOptions := (OptionTree HeadlessOptions unit) (only parsing).

(** ** Reading *)

Definition readRuleItemString : Rd (list string) :=
  n <- ReadUvarint ;; _ <- makeSlice sizeofString n ;;
  readMany (Z.to_nat n) (b <- readBytes ;; rdRet (bytes b)).

Definition readRuleItemUint8 : Rd (list Z) :=
  n <- ReadUvarint ;; _ <- makeSlice 1 n ;; ReadFull (Z.to_nat n).

(** Pairs of bytes as 16-bit integers. *)
Fixpoint pairs (b : list Z) : list Z :=
  match b with x :: y :: b => (x * 256 + y) :: pairs b | _ => [] end.

Definition readRuleItemUint16 : Rd (list Z) :=
  n <- ReadUvarint ;; _ <- makeSlice 2 n ;; b <- ReadFull (2 * Z.to_nat n) ;; rdRet (pairs b).

(** [ip_cidr.go] *)
Definition readPrefix : Rd Prefix :=
  b <- readBytes ;; bits <- ReadByte ;; rdRet (prefix_From (AddrFromIP b) bits).

Definition readPrefixes : Rd (list Prefix) :=
  n <- ReadUvarint ;; readMany (Z.to_nat n) readPrefix.

(** [ip_set.go] *)
Definition readRange : Rd (Addr * Addr) :=
  from <- readBytes ;; to <- readBytes ;; rdRet (AddrFromIP from, AddrFromIP to).

Definition readIPSet : Rd IPSet :=
  version <- ReadByte ;;
  if negb (version =? 1) then rdErr (Errorf "invalid argument")
  else n <- ReadUint 8 ;; _ <- makeSlice sizeofRange n ;;
       rr <- readMany (Z.to_nat n) readRange ;; rdRet (ipset_cast rr).

(** The entries of [network_interface_address]; [n] are left. *)
Fixpoint readInterfaceEntries (n : nat) (m : list (Z * list Prefix)) : Rd (list (Z * list Prefix)) :=
  match n with
  | O => rdRet m
  | S n => key <- ReadUint 1 ;; value <- readPrefixes ;; readInterfaceEntries n (typedMap_Put key value m)
  end.

(** One item of a default rule, other than the final one. *)
Definition readItem (recover : bool) (itemType lastItemType : Z) (rule : HeadlessOptions) : Rd HeadlessOptions :=
  if itemType =? ruleItemQueryType then v <- readRuleItemUint16 ;; rdRet (set_ho_QueryType v rule)
  else if itemType =? ruleItemNetwork then v <- readRuleItemString ;; rdRet (set_ho_Network v rule)
  else if itemType =? ruleItemDomain then
    matcher <- ReadMatcher ;;
    let rule := set_ho_DomainMatcher (Some matcher) rule in
    rdRet (if recover then set_ho_Domain (matcher_Dump matcher).1 (set_ho_DomainSuffix (matcher_Dump matcher).2 rule) else rule)
  else if itemType =? ruleItemDomainKeyword then v <- readRuleItemString ;; rdRet (set_ho_DomainKeyword v rule)
  else if itemType =? ruleItemDomainRegex then v <- readRuleItemString ;; rdRet (set_ho_DomainRegex v rule)
  else if itemType =? ruleItemSourceIPCIDR then
    set <- readIPSet ;;
    let rule := set_ho_SourceIPSet (Some set) rule in
    rdRet (if recover then set_ho_SourceIPCIDR (ipset_Prefixes set) rule else rule)
  else if itemType =? ruleItemIPCIDR then
    set <- readIPSet ;;
    let rule := set_ho_IPSet (Some set) rule in
    rdRet (if recover then set_ho_IPCIDR (ipset_Prefixes set) rule else rule)
  else if itemType =? ruleItemSourcePort then v <- readRuleItemUint16 ;; rdRet (set_ho_SourcePort v rule)
  else if itemType =? ruleItemSourcePortRange then v <- readRuleItemString ;; rdRet (set_ho_SourcePortRange v rule)
  else if itemType =? ruleItemPort then v <- readRuleItemUint16 ;; rdRet (set_ho_Port v rule)
  else if itemType =? ruleItemPortRange then v <- readRuleItemString ;; rdRet (set_ho_PortRange v rule)
  else if itemType =? ruleItemProcessName then v <- readRuleItemString ;; rdRet (set_ho_ProcessName v rule)
  else if itemType =? ruleItemProcessPath then v <- readRuleItemString ;; rdRet (set_ho_ProcessPath v rule)
  else if itemType =? ruleItemProcessPathRegex then v <- readRuleItemString ;; rdRet (set_ho_ProcessPathRegex v rule)
  else if itemType =? ruleItemPackageName then v <- readRuleItemString ;; rdRet (set_ho_PackageName v rule)
  else if itemType =? ruleItemWIFISSID then v <- readRuleItemString ;; rdRet (set_ho_WIFISSID v rule)
  else if itemType =? ruleItemWIFIBSSID then v <- readRuleItemString ;; rdRet (set_ho_WIFIBSSID v rule)
  else if itemType =? ruleItemAdGuardDomain then
    matcher <- ReadAdGuardMatcher ;;
    let rule := set_ho_AdGuardDomainMatcher (Some matcher) rule in
    rdRet (if recover then set_ho_AdGuardDomain (adguard_Dump matcher) rule else rule)
  else if itemType =? ruleItemNetworkType then v <- readRuleItemUint8 ;; rdRet (set_ho_NetworkType v rule)
  else if itemType =? ruleItemNetworkIsExpensive then rdRet (set_ho_NetworkIsExpensive true rule)
  else if itemType =? ruleItemNetworkIsConstrained then rdRet (set_ho_NetworkIsConstrained true rule)
  else if itemType =? ruleItemNetworkInterfaceAddress then
    size <- ReadUvarint ;; m <- readInterfaceEntries (Z.to_nat size) [] ;; rdRet (set_ho_NetworkInterfaceAddress (Some m) rule)
  else if itemType =? ruleItemDefaultInterfaceAddress then v <- readPrefixes ;; rdRet (set_ho_DefaultInterfaceAddress v rule)
  else rdErr (E_New ["unknown rule item type: "; itoa itemType; ", last type: "; itoa lastItemType]).

(** The loop over the items.  Every round reads at least a byte, so more rounds than
    there are bytes are never needed; running out of [fuel] is not reached
    ([readItems_fuel]). *)
Fixpoint readItems (fuel : nat) (recover : bool) (lastItemType : Z) (rule : HeadlessOptions) : Rd HeadlessOptions :=
  match fuel with
  | O => rdPanic
  | S fuel =>
      itemType <- ReadUint 1 ;;
      if itemType =? ruleItemFinal then inverted <- ReadBool ;; rdRet (set_ho_Invert inverted rule)
      else rule <- readItem recover itemType lastItemType rule ;; readItems fuel recover itemType rule
  end.

Definition readDefaultRule (recover : bool) : Rd HeadlessOptions := fun l =>
  readItems (S (length l)) recover 0 noHeadlessOptions l.

(** A loop over sub-rules, from index [i]; the error of one is wrapped. *)
Fixpoint readRules (f : Rd HeadlessRuleOptions) (wrap : Z -> error -> error) (i : Z) (n : nat) : Rd (list HeadlessRuleOptions) :=
  match n with
  | O => rdRet []
  | S n =>
      rule <- (fun l => match f l with Ret (Err e) => Ret (Err (wrap i e)) | r => r end) ;;
      rules <- readRules f wrap (i + 1) n ;; rdRet (rule :: rules)
  end.

Definition logicalRuleError (i : Z) (e : error) : error := E_Cause e ["read logical rule ["; itoa i; "]"].

(** The rules inside are read by [readRule]. *)
Definition readLogicalRule (readRule : Rd HeadlessRuleOptions) : Rd HeadlessRuleOptions :=
  mode <- ReadByte ;;
  if negb ((mode =? 0) || (mode =? 1)) then rdErr (E_New ["unknown logical mode: "; itoa mode])
  else
    n <- ReadUvarint ;; _ <- makeSlice sizeofHeadlessRule n ;;
    rules <- readRules readRule logicalRuleError 0 (Z.to_nat n) ;;
    inverted <- ReadBool ;;
    rdRet (OptionRule RuleTypeLogical noHeadlessOptions (if mode =? 0 then LogicalTypeAnd else LogicalTypeOr) rules inverted tt).

(** The fuel bounds the depth of logical rules; each level reads bytes. *)
Fixpoint readRule (fuel : nat) (recover : bool) : Rd HeadlessRuleOptions :=
  match fuel with
  | O => rdPanic
  | S fuel =>
      ruleType <- ReadUint 1 ;;
      if ruleType =? 0 then d <- readDefaultRule recover ;; rdRet (OptionRule RuleTypeDefault d "" [] false tt)
      else if ruleType =? 1 then readLogicalRule (readRule fuel recover)
      else rdErr (E_New ["unknown rule type: "; itoa ruleType])
  end.

Definition ruleError (i : Z) (e : error) : error := E_Cause e ["read rule["; itoa i; "]"].

(** [PlainRuleSetCompat]: the version and the rules. *)
Definition Read (recover : bool) (file : list Z) : outcome (result error (Z * list HeadlessRuleOptions)) :=
  match ReadFull 3 file with
  | Panic => Panic
  | Ret (Err e) => Ret (Err e)
  | Ret (Ok (magicBytes, l)) =>
      if negb (bool_decide (magicBytes = MagicBytes)) then Ret (Err (E_New ["invalid sing-box rule-set file"]))
      else
        match ReadUint 1 l with
        | Panic => Panic
        | Ret (Err e) => Ret (Err e)
        | Ret (Ok (version, l)) =>
            if RuleSetVersionCurrent <? version then Ret (Err (E_New ["unsupported version: "; itoa version]))
            else
              match zlib_NewReader l with
              | Err e => Ret (Err e)
              | Ok l =>
                  match (n <- ReadUvarint ;; _ <- makeSlice sizeofHeadlessRule n ;;
                         readRules (readRule (S (length l)) recover) ruleError 0 (Z.to_nat n)) l with
                  | Panic => Panic
                  | Ret (Err e) => Ret (Err e)
                  | Ret (Ok (rules, _)) => Ret (Ok (version, rules))
                  end
              end
        end
  end.

(** ** Writing *)

Definition Wr : Type := outcome (result error (list Z)).

Definition wrOk (b : list Z) : Wr := Ret (Ok b).
Definition wrErr (e : error) : Wr := Ret (Err e).

(** One after the other, up to the first error. *)
Fixpoint wrAll (l : list Wr) : Wr :=
  match l with
  | [] => wrOk []
  | Ret (Ok b) :: l => match wrAll l with Ret (Ok b') => Ret (Ok (b ++ b')) | r => r end
  | r :: _ => r
  end.

Definition wrIf (b : bool) (w : Wr) : Wr := if b then w else wrOk [].

(** An item that needs a version. *)
Definition wrSince (version generateVersion : Z) (message : string) (w : Wr) : Wr :=
  if generateVersion <? version then wrErr (E_New [message]) else w.

Definition count {A} (l : list A) : list Z := WriteUvarint (Z.of_nat (length l)).

Definition writeRuleItemString (itemType : Z) (value : list string) : Wr :=
  wrOk ([itemType] ++ count value ++ List.concat (map (fun s => writeBytes (to_bytes s)) value)).

Definition writeRuleItemUint8 (itemType : Z) (value : list Z) : Wr := wrOk ([itemType] ++ count value ++ value).

Definition writeRuleItemUint16 (itemType : Z) (value : list Z) : Wr :=
  wrOk ([itemType] ++ count value ++ List.concat (map (be_bytes 2) value)).

Definition writePrefix (p : Prefix) : list Z := writeBytes (AsSlice (prefix_Addr p)) ++ [prefix_Bits p mod 256].

Definition writePrefixes (l : list Prefix) : list Z := count l ++ List.concat (map writePrefix l).

Definition writeRange (r : Addr * Addr) : list Z := writeBytes (AsSlice r.1) ++ writeBytes (AsSlice r.2).

Definition writeIPSet (set : IPSet) : list Z :=
  [1] ++ be_bytes 8 (Z.of_nat (length (ipset_ranges set))) ++ List.concat (map writeRange (ipset_ranges set)).

Definition writeRuleItemCIDR (itemType : Z) (value : list string) : Wr :=
  match parsePrefixes 0 value with
  | Err e => wrErr e
  | Ok l => match BuildIPSet l with Err e => wrErr e | Ok ipSet => wrOk ([itemType] ++ writeIPSet ipSet) end
  end.

Definition wrCause (w : Wr) (what : string) : Wr :=
  match w with Ret (Err e) => Ret (Err (E_Cause e [what])) | r => r end.

Definition srsMatcher (generateVersion : Z) (domains suffixes : list string) : Matcher :=
  if generateVersion =? RuleSetVersion1 then NewLegacyMatcher domains suffixes else NewMatcher domains suffixes.

Definition writeInterfaceAddress (generateVersion : Z) (entries : list (Z * list Prefix)) : Wr :=
  wrSince RuleSetVersion4 generateVersion "`network_interface_address` rule item is only supported in version 4 or later"
    (wrOk ([ruleItemNetworkInterfaceAddress] ++ count entries ++
           List.concat (map (fun '(key, value) => [key mod 256] ++ writePrefixes value) entries))).

(** The items of a default rule, in the order they are written. *)
Definition itemWriters (generateVersion : Z) (rule : HeadlessOptions) : list Wr :=
  [wrIf (nonempty rule.(ho_QueryType)) (writeRuleItemUint16 ruleItemQueryType rule.(ho_QueryType));
   wrIf (nonempty rule.(ho_Network)) (writeRuleItemString ruleItemNetwork rule.(ho_Network));
   wrIf (nonempty rule.(ho_Domain) || nonempty rule.(ho_DomainSuffix))
     (wrOk ([ruleItemDomain] ++ matcher_Write (srsMatcher generateVersion rule.(ho_Domain) rule.(ho_DomainSuffix))));
   wrIf (nonempty rule.(ho_DomainKeyword)) (writeRuleItemString ruleItemDomainKeyword rule.(ho_DomainKeyword));
   wrIf (nonempty rule.(ho_DomainRegex)) (writeRuleItemString ruleItemDomainRegex rule.(ho_DomainRegex));
   wrIf (nonempty rule.(ho_SourceIPCIDR)) (wrCause (writeRuleItemCIDR ruleItemSourceIPCIDR rule.(ho_SourceIPCIDR)) "source_ip_cidr");
   wrIf (nonempty rule.(ho_IPCIDR)) (wrCause (writeRuleItemCIDR ruleItemIPCIDR rule.(ho_IPCIDR)) "ipcidr");
   wrIf (nonempty rule.(ho_SourcePort)) (writeRuleItemUint16 ruleItemSourcePort rule.(ho_SourcePort));
   wrIf (nonempty rule.(ho_SourcePortRange)) (writeRuleItemString ruleItemSourcePortRange rule.(ho_SourcePortRange));
   wrIf (nonempty rule.(ho_Port)) (writeRuleItemUint16 ruleItemPort rule.(ho_Port));
   wrIf (nonempty rule.(ho_PortRange)) (writeRuleItemString ruleItemPortRange rule.(ho_PortRange));
   wrIf (nonempty rule.(ho_ProcessName)) (writeRuleItemString ruleItemProcessName rule.(ho_ProcessName));
   wrIf (nonempty rule.(ho_ProcessPath)) (writeRuleItemString ruleItemProcessPath rule.(ho_ProcessPath));
   wrIf (nonempty rule.(ho_ProcessPathRegex)) (writeRuleItemString ruleItemProcessPathRegex rule.(ho_ProcessPathRegex));
   wrIf (nonempty rule.(ho_PackageName)) (writeRuleItemString ruleItemPackageName rule.(ho_PackageName));
   wrIf (nonempty rule.(ho_NetworkType))
     (wrSince RuleSetVersion3 generateVersion "`network_type` rule item is only supported in version 3 or later"
        (writeRuleItemUint8 ruleItemNetworkType rule.(ho_NetworkType)));
   wrIf rule.(ho_NetworkIsExpensive)
     (wrSince RuleSetVersion3 generateVersion "`network_is_expensive` rule item is only supported in version 3 or later"
        (wrOk [ruleItemNetworkIsExpensive]));
   wrIf rule.(ho_NetworkIsConstrained)
     (wrSince RuleSetVersion3 generateVersion "`network_is_constrained` rule item is only supported in version 3 or later"
        (wrOk [ruleItemNetworkIsConstrained]));
   match rule.(ho_NetworkInterfaceAddress) with
   | Some entries => wrIf (nonempty entries) (writeInterfaceAddress generateVersion entries)
   | None => wrOk []
   end;
   wrIf (nonempty rule.(ho_DefaultInterfaceAddress))
     (wrSince RuleSetVersion4 generateVersion "`default_interface_address` rule item is only supported in version 4 or later"
        (wrOk ([ruleItemDefaultInterfaceAddress] ++ writePrefixes rule.(ho_DefaultInterfaceAddress))));
   wrIf (nonempty rule.(ho_WIFISSID)) (writeRuleItemString ruleItemWIFISSID rule.(ho_WIFISSID));
   wrIf (nonempty rule.(ho_WIFIBSSID)) (writeRuleItemString ruleItemWIFIBSSID rule.(ho_WIFIBSSID));
   wrIf (nonempty rule.(ho_AdGuardDomain))
     (wrSince RuleSetVersion2 generateVersion "AdGuard rule items is only supported in version 2 or later"
        (wrOk ([ruleItemAdGuardDomain] ++ adguard_Write (NewAdGuardMatcher rule.(ho_AdGuardDomain)))))].

Definition boolByte (b : bool) : Z := if b then 1 else 0.

Definition writeDefaultRule (generateVersion : Z) (rule : HeadlessOptions) : Wr :=
  wrAll ([wrOk [0]] ++ itemWriters generateVersion rule ++ [wrOk [ruleItemFinal; boolByte rule.(ho_Invert)]]).

(** [count] are the bytes of the number of rules, [rules] the writers of each. *)
Definition writeLogicalRule (mode : string) (count : list Z) (rules : list Wr) (inverted : bool) : Wr :=
  wrAll ([wrOk [1];
          (if String.eqb mode LogicalTypeAnd then wrOk [0] else if String.eqb mode LogicalTypeOr then wrOk [1] else Panic);
          wrOk count] ++ rules ++ [wrOk [boolByte inverted]]).

(** An unknown type of rule or mode panics. *)
Fixpoint writeRule (generateVersion : Z) (t : HeadlessRuleOptions) : Wr :=
  match t with
  | OptionRule ty d mode rules inverted _ =>
      if String.eqb ty RuleTypeDefault then writeDefaultRule generateVersion d
      else if String.eqb ty RuleTypeLogical then
        writeLogicalRule mode (count rules) (map (writeRule generateVersion) rules) inverted
      else Panic
  end.

Definition Write (rules : list HeadlessRuleOptions) (generateVersion : Z) : Wr :=
  match wrAll (wrOk (count rules) :: map (writeRule generateVersion) rules) with
  | Ret (Ok b) => Ret (Ok (MagicBytes ++ [generateVersion mod 256] ++ zlib_Write b))
  | r => r
  end.

End Srs.
