(* ===== verification/SrsProps.v ===== *)
(** * Binary rule-sets are read as they were written

    Items, default rules, logical rules and whole files: what the writer produces is
    read as the options it was given, with lists of domains and addresses in their
    compiled form. *)

From S2P Require Import Prelude GoStrings GoCrypto GoBinary RuleItems RuleMatch RuleBuild Srs FakeIP FakeIPProps CacheFile BoltLaws CacheFileProps.

Local Open Scope string_scope.
Local Open Scope list_scope.
Local Open Scope Z_scope.

(** ** What the format relies on *)

Class SrsLaws `(SE : SrsEnv) := {
  reads_matcher m : reads ReadMatcher (matcher_Write m) m;
  reads_adguard m : reads ReadAdGuardMatcher (adguard_Write m) m;
  ipset_cast_ranges s : ipset_cast (ipset_ranges s) = s;
  AddrFromIP_slice a : plain a -> AddrFromIP (AsSlice a) = a;
  prefix_From_parts p : plain (prefix_Addr p) -> 0 <= prefix_Bits p <= BitLen (prefix_Addr p) ->
    prefix_From (prefix_Addr p) (prefix_Bits p) = p;
  typedMap_Put_new k v m : k ∉ m.*1 -> typedMap_Put k v m = m ++ [(k, v)];
  zlib_roundtrip b : zlib_NewReader (zlib_Write b) = Ok b;
  matcher_shrinks : shrinks ReadMatcher;
  adguard_shrinks : shrinks ReadAdGuardMatcher;
}.

Section SrsProps.
Context `{SL : SrsLaws} {VB : Varbin} {VL : VarbinLaws VB}.
Local Open Scope rd_scope.

Abbreviation HeadlessRuleOptions := (OptionTree HeadlessOptions unit) (only parsing).

(** ** Values *)

Definition sliceOk {A} (size : Z) (l : list A) : Prop := size * Z.of_nat (length l) <= maxAlloc.
Definition stringsOk (l : list string) : Prop := sliceOk sizeofString l /\ Forall (fun s => Z.of_nat (String.length s) <= maxAlloc) l.
Definition uint16s (l : list Z) : Prop := sliceOk 2 l /\ Forall (fun x => 0 <= x < 2 ^ 16) l.
Definition uint8s (l : list Z) : Prop := sliceOk 1 l /\ byte_list l.
Definition prefixValid (p : Prefix) : Prop := plain (prefix_Addr p) /\ 0 <= prefix_Bits p <= BitLen (prefix_Addr p).
Definition prefixesOk (l : list Prefix) : Prop := sliceOk 1 l /\ Forall prefixValid l.

Lemma reads_count {A} (l : list A) : sliceOk 1 l -> reads ReadUvarint (count l) (Z.of_nat (length l)).
Proof. intros H. apply ReadUvarint_WriteUvarint. unfold uint64_range, sliceOk, maxAlloc in *. lia. Qed.

Lemma sliceOk_1 {A} size (l : list A) : 1 <= size -> sliceOk size l -> sliceOk 1 l.
Proof. unfold sliceOk. nia. Qed.

(** A count, the slice, and the elements. *)
Lemma reads_slice {A B} size (l : list A) (f : nat -> Rd B) w b : 1 <= size -> sliceOk size l ->
  reads (f (length l)) w b ->
  reads (n <- ReadUvarint ;; _ <- makeSlice size n ;; f (Z.to_nat n)) (count l ++ w) b.
Proof.
  intros Hs Hl Hf. eapply reads_bind; [apply reads_count; by eapply sliceOk_1|].
  eapply reads_skip; [by apply reads_makeSlice|]. by rewrite Nat2Z.id.
Qed.

Lemma reads_strings l : stringsOk l ->
  reads readRuleItemString (count l ++ List.concat (map (fun s => writeBytes (to_bytes s)) l)) l.
Proof.
  intros [Hl Hs]. unfold readRuleItemString.
  apply reads_slice with (f := fun n => readMany n (b <- readBytes ;; rdRet (bytes b))); [done..|].
  apply reads_readMany with (w := fun s => writeBytes (to_bytes s)). apply (Forall_impl _ _ _ Hs).
  intros s Hb. apply (reads_map_eq _ _ _ _ _ (bytes_to_bytes s)), reads_readBytes. by rewrite to_bytes_length.
Qed.

Lemma reads_uint8s l : uint8s l -> reads readRuleItemUint8 (count l ++ l) l.
Proof.
  intros [Hl _]. unfold readRuleItemUint8. apply reads_slice with (f := ReadFull); [done..|]. apply reads_ReadFull.
Qed.

Lemma pairs_concat l : Forall (fun x => 0 <= x < 2 ^ 16) l -> pairs (List.concat (map (be_bytes 2) l)) = l.
Proof.
  induction 1 as [|x l Hx _ IH]; [done|]. cbn. f_equal; [|exact IH].
  rewrite (Z.mod_small (x / 256)) by (split; [apply Z.div_pos|apply Z.div_lt_upper_bound]; lia).
  pose proof (Z.div_mod x 256). lia.
Qed.

Lemma reads_uint16s l : uint16s l -> reads readRuleItemUint16 (count l ++ List.concat (map (be_bytes 2) l)) l.
Proof.
  intros [Hl Hx]. unfold readRuleItemUint16.
  apply reads_slice with (f := fun n => b <- ReadFull (2 * n) ;; rdRet (pairs b)); [done..|].
  apply (reads_map_eq _ _ _ _ _ (pairs_concat l Hx)).
  assert (E : (2 * length l)%nat = length (List.concat (map (be_bytes 2) l))).
  { clear. induction l as [|x l IH]; [done|]. cbn [map List.concat length]. rewrite length_app, be_bytes_length. lia. }
  rewrite E. apply reads_ReadFull.
Qed.

Lemma AsSlice_small a : plain a -> Z.of_nat (length (AsSlice a)) <= maxAlloc.
Proof. intros Ha. destruct a; [done|..]; cbn [AsSlice]; rewrite be_bytes_length; unfold maxAlloc; lia. Qed.

Lemma reads_address a : plain a -> reads (b <- readBytes ;; rdRet (AddrFromIP b)) (writeBytes (AsSlice a)) a.
Proof.
  intros Ha. apply (reads_map_eq _ _ _ _ _ (AddrFromIP_slice a Ha)), reads_readBytes. by apply AsSlice_small.
Qed.

Lemma reads_prefix p : prefixValid p -> reads readPrefix (writePrefix p) p.
Proof.
  intros [Ha Hb]. unfold readPrefix, writePrefix. eapply reads_bind; [apply reads_readBytes; by apply AsSlice_small|].
  assert (E : prefix_Bits p mod 256 = prefix_Bits p) by (apply Z.mod_small; destruct (prefix_Addr p); cbn in Hb; lia). rewrite E.
  rewrite AddrFromIP_slice by done. apply (reads_map_eq _ _ _ _ _ (prefix_From_parts p Ha Hb)), reads_ReadByte.
Qed.

Lemma reads_prefixes l : prefixesOk l -> reads readPrefixes (writePrefixes l) l.
Proof.
  intros [Hl Hp]. unfold readPrefixes, writePrefixes. eapply reads_bind; [by apply reads_count|]. rewrite Nat2Z.id.
  apply reads_readMany. apply (Forall_impl _ _ _ Hp). apply reads_prefix.
Qed.

(** A set of ranges between valid addresses. *)
Definition ipsetOk (s : IPSet) : Prop := sliceOk sizeofRange (ipset_ranges s) /\ Forall (fun r => plain r.1 /\ plain r.2) (ipset_ranges s).

Lemma reads_ipset s : ipsetOk s -> reads readIPSet (writeIPSet s) s.
Proof.
  intros [Hs Hp]. unfold sliceOk in Hs. unfold readIPSet, writeIPSet. eapply reads_bind; [apply reads_ReadByte|]. cbn [Z.eqb negb].
  eapply reads_bind; [apply reads_ReadUint; unfold sizeofRange, maxAlloc in Hs; cbn; lia|].
  eapply reads_skip; [by apply reads_makeSlice|]. apply (reads_map_eq _ _ _ _ _ (ipset_cast_ranges s)). rewrite Nat2Z.id.
  apply reads_readMany. eapply Forall_impl; [exact Hp|]. intros [x y] [Hx Hy]. cbn [fst snd] in *. unfold readRange, writeRange. cbn [fst snd].
  eapply reads_bind; [apply reads_readBytes; by apply AsSlice_small|].
  rewrite AddrFromIP_slice by done.
  apply (reads_map_eq _ (fun b => (x, AddrFromIP b)) _ (AsSlice y)); [by rewrite AddrFromIP_slice|]. apply reads_readBytes. by apply AsSlice_small.
Qed.

Definition entriesOk (l : list (Z * list Prefix)) : Prop :=
  sliceOk 1 l /\ NoDup l.*1 /\ Forall (fun e => 0 <= e.1 < 256 /\ prefixesOk e.2) l.

Lemma reads_entries l m : NoDup (m.*1 ++ l.*1) -> Forall (fun e => 0 <= e.1 < 256 /\ prefixesOk e.2) l ->
  reads (readInterfaceEntries (length l) m) (List.concat (map (fun '(key, value) => [key mod 256] ++ writePrefixes value) l)) (m ++ l).
Proof.
  intros Hn Hl. revert m Hn. induction Hl as [|[k v] l [Hk Hv] _ IH]; intros m Hn.
  { rewrite app_nil_r. apply reads_ret. }
  cbn [length map List.concat readInterfaceEntries]. rewrite <-app_assoc. cbn [fst snd] in Hk, Hv. rewrite Z.mod_small by done.
  eapply reads_bind; [by apply reads_uint8|]. eapply reads_bind; [by apply reads_prefixes|].
  cbn in Hn. assert (Hnk : k ∉ m.*1). { apply NoDup_app in Hn as (_ & Hd & _). intros Hin. apply (Hd k Hin). by left. }
  rewrite typedMap_Put_new by done. replace (m ++ (k, v) :: l) with ((m ++ [(k, v)]) ++ l) by (by rewrite <-app_assoc).
  apply IH. rewrite fmap_app, <-app_assoc. exact Hn.
Qed.

(** ** Items *)

(** The bytes [b] are nothing, or one item that takes the options from [s] to [s']. *)
Definition stepReads (b : list Z) (s s' : HeadlessOptions) : Prop :=
  (b = [] /\ s' = s) \/
  exists ty payload, b = ty :: payload /\ 0 <= ty < 256 /\ ty <> ruleItemFinal /\
    forall last, reads (readItem false ty last s) payload s'.

Definition wstep (w : Wr) (s s' : HeadlessOptions) : Prop := exists b, w = Ret (Ok b) /\ stepReads b s s'.

Definition tagOk (ty : Z) : Prop := 0 <= ty < 256 /\ ty <> ruleItemFinal.

(** An item whose value is read by [f] and stored by [F]. *)
Lemma wstep_value {A} ty (f : Rd A) (F : A -> HeadlessOptions) b v s : tagOk ty ->
  (forall last, readItem false ty last s = (x <- f ;; rdRet (F x))) -> reads f b v ->
  wstep (wrOk ([ty] ++ b)) s (F v).
Proof.
  intros [H1 H2] Hr Hb. exists (ty :: b). split; [done|]. right. exists ty, b. split_and!; try done; try lia.
  intros last. rewrite Hr. by apply reads_map.
Qed.

Lemma wstep_if c w s s' : (c = true -> wstep w s s') -> (c = false -> s' = s) -> wstep (wrIf c w) s s'.
Proof. destruct c; cbn; [auto|]. intros _ H. exists []. split; [done|]. left. by rewrite H. Qed.

Lemma nonempty_false {A} (l : list A) : nonempty l = false -> l = [].
Proof. by destruct l. Qed.

Lemma string_step ty v s F : tagOk ty -> (forall last, readItem false ty last s = (x <- readRuleItemString ;; rdRet (F x))) ->
  F [] = s -> stringsOk v -> wstep (wrIf (nonempty v) (writeRuleItemString ty v)) s (F v).
Proof.
  intros Ht Hr Hn Hv. apply wstep_if; [intros _|by intros ->%nonempty_false].
  eapply wstep_value; [done|exact Hr|by apply reads_strings].
Qed.

Lemma uint16_step ty v s F : tagOk ty -> (forall last, readItem false ty last s = (x <- readRuleItemUint16 ;; rdRet (F x))) ->
  F [] = s -> uint16s v -> wstep (wrIf (nonempty v) (writeRuleItemUint16 ty v)) s (F v).
Proof.
  intros Ht Hr Hn Hv. apply wstep_if; [intros _|by intros ->%nonempty_false].
  eapply wstep_value; [done|exact Hr|by apply reads_uint16s].
Qed.

Lemma wrSince_ok version generateVersion m w : version <= generateVersion -> wrSince version generateVersion m w = w.
Proof. intros H. unfold wrSince. by rewrite (proj2 (Z.ltb_ge _ _)). Qed.

(** The set a list of addresses compiles to. *)
Definition ipsetOf (l : list string) : option IPSet :=
  match parsePrefixes 0 l with
  | Ok x => match BuildIPSet x with Ok set => Some set | Err _ => None end
  | Err _ => None
  end.

(** Addresses that parse and make a set. *)
Definition cidrOk (l : list string) : Prop := nonempty l = true -> exists set, ipsetOf l = Some set /\ ipsetOk set.

Definition cidrSet (l : list string) : option IPSet := if nonempty l then ipsetOf l else None.

Lemma cidr_step ty what v s F : tagOk ty ->
  (forall last, readItem false ty last s = (set <- readIPSet ;; rdRet (F (Some set)))) ->
  F None = s -> cidrOk v ->
  wstep (wrIf (nonempty v) (wrCause (writeRuleItemCIDR ty v) what)) s (F (cidrSet v)).
Proof.
  intros Ht Hr Hn Hv. unfold cidrSet, cidrOk in *. destruct (nonempty v); cbn [wrIf]; [|exists []; split; [done|by left]].
  destruct (Hv eq_refl) as (set & Hset & Hok). rewrite Hset. unfold ipsetOf in Hset. unfold writeRuleItemCIDR.
  destruct (parsePrefixes 0 v) as [x|]; [|done]. destruct (BuildIPSet x) as [set'|]; [|done]. injection Hset as ->. cbn [wrCause wrOk].
  apply (wstep_value ty readIPSet (fun set => F (Some set))); [done|exact Hr|by apply reads_ipset].
Qed.

(** ** Default rules *)

Definition matcherOf (version : Z) (domains suffixes : list string) : option Matcher :=
  if nonempty domains || nonempty suffixes then Some (srsMatcher version domains suffixes) else None.

Definition adguardOf (l : list string) : option AdGuardMatcher := if nonempty l then Some (NewAdGuardMatcher l) else None.

Definition entriesOf (o : option (list (Z * list Prefix))) : option (list (Z * list Prefix)) :=
  match o with Some l => if nonempty l then Some l else None | None => None end.

(** The options after writing and reading: domains, addresses and AdGuard rules are
    in their compiled form. *)
Definition compiled (version : Z) (o : HeadlessOptions) : HeadlessOptions :=
  mkHeadlessOptions o.(ho_QueryType) o.(ho_Network) [] [] o.(ho_DomainKeyword) o.(ho_DomainRegex) [] []
    o.(ho_SourcePort) o.(ho_SourcePortRange) o.(ho_Port) o.(ho_PortRange) o.(ho_ProcessName) o.(ho_ProcessPath)
    o.(ho_ProcessPathRegex) o.(ho_PackageName) o.(ho_NetworkType) o.(ho_NetworkIsExpensive) o.(ho_NetworkIsConstrained)
    o.(ho_WIFISSID) o.(ho_WIFIBSSID) (entriesOf o.(ho_NetworkInterfaceAddress)) o.(ho_DefaultInterfaceAddress) o.(ho_Invert)
    (matcherOf version o.(ho_Domain) o.(ho_DomainSuffix)) (cidrSet o.(ho_SourceIPCIDR)) (cidrSet o.(ho_IPCIDR))
    [] (adguardOf o.(ho_AdGuardDomain)).

(** Options that fit the format: values of their width, addresses that parse, and a
    version that has all the items. *)
Definition writable (version : Z) (o : HeadlessOptions) : Prop :=
  uint16s o.(ho_QueryType) /\ uint16s o.(ho_SourcePort) /\ uint16s o.(ho_Port) /\ uint8s o.(ho_NetworkType) /\
  Forall stringsOk [o.(ho_Network); o.(ho_DomainKeyword); o.(ho_DomainRegex); o.(ho_SourcePortRange); o.(ho_PortRange);
    o.(ho_ProcessName); o.(ho_ProcessPath); o.(ho_ProcessPathRegex); o.(ho_PackageName); o.(ho_WIFISSID); o.(ho_WIFIBSSID)] /\
  Forall cidrOk [o.(ho_SourceIPCIDR); o.(ho_IPCIDR)] /\
  prefixesOk o.(ho_DefaultInterfaceAddress) /\ (forall l, o.(ho_NetworkInterfaceAddress) = Some l -> entriesOk l) /\
  (nonempty o.(ho_AdGuardDomain) = true -> 2 <= version) /\
  (nonempty o.(ho_NetworkType) || o.(ho_NetworkIsExpensive) || o.(ho_NetworkIsConstrained) = true -> 3 <= version) /\
  (isSome (entriesOf o.(ho_NetworkInterfaceAddress)) || nonempty o.(ho_DefaultInterfaceAddress) = true -> 4 <= version).

Inductive chain : list Wr -> HeadlessOptions -> HeadlessOptions -> Prop :=
| chain_nil s : chain [] s s
| chain_cons w ws s s1 s2 : wstep w s s1 -> chain ws s1 s2 -> chain (w :: ws) s s2.

(** An item written only from some version on. *)
Lemma list_step {A} ty c w (f : Rd (list A)) b (v : list A) s F : tagOk ty ->
  (forall last, readItem false ty last s = (x <- f ;; rdRet (F x))) -> F [] = s -> reads f b v ->
  c = nonempty v -> (c = true -> w = wrOk ([ty] ++ b)) -> wstep (wrIf c w) s (F v).
Proof.
  intros Ht Hr Hn Hb Hc Hw. apply wstep_if; [intros Ec|rewrite Hc; by intros ->%nonempty_false].
  rewrite Hw by done. by eapply wstep_value.
Qed.

Lemma opt_step {A} ty (c : bool) w (f : Rd A) b (x : A) s F : tagOk ty ->
  (forall last, readItem false ty last s = (m <- f ;; rdRet (F (Some m)))) -> F None = s -> reads f b x ->
  (c = true -> w = wrOk ([ty] ++ b)) -> wstep (wrIf c w) s (F (if c then Some x else None)).
Proof.
  intros Ht Hr Hn Hb Hw. apply wstep_if; [|by intros ->]. intros ->. rewrite Hw by done.
  apply (wstep_value ty f (fun m => F (Some m))); done.
Qed.

Lemma flag_step ty (c : bool) w s F : tagOk ty -> (forall last, readItem false ty last s = rdRet (F true)) -> F false = s ->
  (c = true -> w = wrOk [ty]) -> wstep (wrIf c w) s (F c).
Proof.
  intros [Ht Ht'] Hr Hn Hw. apply wstep_if; [|by intros ->]. intros ->. rewrite Hw by done.
  exists [ty]. split; [done|]. right. exists ty, []. split_and!; try done; try lia. intros last. rewrite Hr. apply reads_ret.
Qed.

Lemma chain_end s s' : s = s' -> chain [] s s'.
Proof. intros ->. constructor. Qed.

Lemma reads_interfaces l : entriesOk l ->
  reads (size <- ReadUvarint ;; readInterfaceEntries (Z.to_nat size) [])
    (count l ++ List.concat (map (fun '(key, value) => [key mod 256] ++ writePrefixes value) l)) l.
Proof.
  intros (Hl & Hn & He). eapply reads_bind; [by apply reads_count|]. rewrite Nat2Z.id. by apply (reads_entries l []).
Qed.

Lemma interface_step version (o : option (list (Z * list Prefix))) s F :
  (forall last, readItem false ruleItemNetworkInterfaceAddress last s =
     (size <- ReadUvarint ;; m <- readInterfaceEntries (Z.to_nat size) [] ;; rdRet (F (Some m)))) ->
  F None = s -> (forall l, o = Some l -> entriesOk l) -> (isSome (entriesOf o) = true -> 4 <= version) ->
  wstep (match o with Some entries => wrIf (nonempty entries) (writeInterfaceAddress version entries) | None => wrOk [] end) s (F (entriesOf o)).
Proof.
  intros Hr Hn He Hv. destruct o as [l|]; [|exists []; split; [done|by left]]. cbn [entriesOf] in *.
  destruct (nonempty l); cbn [wrIf]; [|exists []; split; [done|by left]].
  unfold writeInterfaceAddress. rewrite wrSince_ok by (by apply Hv).
  eexists. split; [done|]. right. eexists _, _. split; [done|]. split; [vm_compute; split; congruence|]. split; [vm_compute; congruence|].
  intros last rest. rewrite Hr. pose proof (reads_interfaces l (He l eq_refl) rest) as R. revert R. unfold rdBind.
  destruct (ReadUvarint _) as [[[n l1]|]|]; [|done|done]. by intros ->.
Qed.

(** The options as one record. *)
Ltac norm_options :=
  cbv beta delta [set_ho_QueryType set_ho_Network set_ho_Domain set_ho_DomainSuffix set_ho_DomainKeyword set_ho_DomainRegex
    set_ho_SourceIPCIDR set_ho_IPCIDR set_ho_SourcePort set_ho_SourcePortRange set_ho_Port set_ho_PortRange
    set_ho_ProcessName set_ho_ProcessPath set_ho_ProcessPathRegex set_ho_PackageName set_ho_NetworkType
    set_ho_NetworkIsExpensive set_ho_NetworkIsConstrained set_ho_WIFISSID set_ho_WIFIBSSID
    set_ho_NetworkInterfaceAddress set_ho_DefaultInterfaceAddress set_ho_Invert set_ho_DomainMatcher
    set_ho_SourceIPSet set_ho_IPSet set_ho_AdGuardDomain set_ho_AdGuardDomainMatcher noHeadlessOptions];
  cbn [ho_QueryType ho_Network ho_Domain ho_DomainSuffix ho_DomainKeyword ho_DomainRegex ho_SourceIPCIDR ho_IPCIDR
    ho_SourcePort ho_SourcePortRange ho_Port ho_PortRange ho_ProcessName ho_ProcessPath ho_ProcessPathRegex
    ho_PackageName ho_NetworkType ho_NetworkIsExpensive ho_NetworkIsConstrained ho_WIFISSID ho_WIFIBSSID
    ho_NetworkInterfaceAddress ho_DefaultInterfaceAddress ho_Invert ho_DomainMatcher ho_SourceIPSet ho_IPSet
    ho_AdGuardDomain ho_AdGuardDomainMatcher].

(** The next item, read from the state the items before have left. *)
Ltac read_tag := intros ?; cbv beta iota zeta delta [readItem ruleItemQueryType ruleItemNetwork ruleItemDomain ruleItemDomainKeyword ruleItemDomainRegex
    ruleItemSourceIPCIDR ruleItemIPCIDR ruleItemSourcePort ruleItemSourcePortRange ruleItemPort ruleItemPortRange
    ruleItemProcessName ruleItemProcessPath ruleItemPackageName ruleItemWIFISSID ruleItemWIFIBSSID
    ruleItemAdGuardDomain ruleItemProcessPathRegex ruleItemNetworkType ruleItemNetworkIsExpensive
    ruleItemNetworkIsConstrained ruleItemNetworkInterfaceAddress ruleItemDefaultInterfaceAddress ruleItemFinal Z.eqb Pos.eqb]; reflexivity.
Ltac tag := split; [vm_compute; split; congruence|vm_compute; congruence].
Ltac string_item F H := eapply chain_cons;
  [match goal with |- wstep _ ?s _ => apply (string_step _ _ s (fun x => F x s)); [tag|read_tag|reflexivity|exact H] end|norm_options].
Ltac uint16_item F H := eapply chain_cons;
  [match goal with |- wstep _ ?s _ => apply (uint16_step _ _ s (fun x => F x s)); [tag|read_tag|reflexivity|exact H] end|norm_options].
Ltac cidr_item F H := eapply chain_cons;
  [match goal with |- wstep _ ?s _ => apply (cidr_step _ _ _ s (fun x => F x s)); [tag|read_tag|reflexivity|exact H] end|norm_options].
Ltac flag_item tg F H := eapply chain_cons;
  [match goal with |- wstep _ ?s _ => apply (flag_step tg _ _ s (fun x => F x s));
     [tag|read_tag|reflexivity|intros E; apply wrSince_ok, H; rewrite E, ?orb_true_r; reflexivity] end|norm_options].

Lemma items_chain version o : writable version o ->
  chain (itemWriters version o) noHeadlessOptions (set_ho_Invert false (compiled version o)).
Proof.
  intros (Hq & Hsp & Hp & Hnt & Hs & Hip & Hpre & Hent & Hv2 & Hv3 & Hv4).
  rewrite !Forall_cons in Hs. destruct Hs as (S1 & S2 & S3 & S4 & S5 & S6 & S7 & S8 & S9 & S10 & S11 & _).
  rewrite !Forall_cons in Hip. destruct Hip as (I1 & I2 & _).
  unfold itemWriters. remember (set_ho_Invert false (compiled version o)) as final eqn:Ef. norm_options.
  uint16_item (@set_ho_QueryType _) Hq. string_item (@set_ho_Network _) S1.
  eapply chain_cons; [match goal with |- wstep _ ?s _ => eapply (opt_step ruleItemDomain _ _ ReadMatcher _ (srsMatcher version o.(ho_Domain) o.(ho_DomainSuffix)) s
    (fun x => set_ho_DomainMatcher x s)); [tag|read_tag|reflexivity|apply reads_matcher|reflexivity] end|norm_options].
  string_item (@set_ho_DomainKeyword _) S2. string_item (@set_ho_DomainRegex _) S3.
  cidr_item (@set_ho_SourceIPSet _) I1. cidr_item (@set_ho_IPSet _) I2.
  uint16_item (@set_ho_SourcePort _) Hsp. string_item (@set_ho_SourcePortRange _) S4.
  uint16_item (@set_ho_Port _) Hp. string_item (@set_ho_PortRange _) S5.
  string_item (@set_ho_ProcessName _) S6. string_item (@set_ho_ProcessPath _) S7.
  string_item (@set_ho_ProcessPathRegex _) S8. string_item (@set_ho_PackageName _) S9.
  eapply chain_cons; [match goal with |- wstep _ ?s _ => eapply (list_step ruleItemNetworkType _ _ readRuleItemUint8 _ _ s (fun x => set_ho_NetworkType x s));
    [tag|read_tag|reflexivity|by apply reads_uint8s|reflexivity|intros E; apply wrSince_ok, Hv3; by rewrite E] end|norm_options].
  flag_item ruleItemNetworkIsExpensive (@set_ho_NetworkIsExpensive _) Hv3.
  flag_item ruleItemNetworkIsConstrained (@set_ho_NetworkIsConstrained _) Hv3.
  eapply chain_cons; [match goal with |- wstep _ ?s _ => apply (interface_step version _ s (fun x => set_ho_NetworkInterfaceAddress x s));
    [read_tag|reflexivity|exact Hent|intros E; apply Hv4; by rewrite E] end|norm_options].
  eapply chain_cons; [match goal with |- wstep _ ?s _ => eapply (list_step ruleItemDefaultInterfaceAddress _ _ readPrefixes _ _ s (fun x => set_ho_DefaultInterfaceAddress x s));
    [tag|read_tag|reflexivity|by apply reads_prefixes|reflexivity|intros E; apply wrSince_ok, Hv4; by rewrite E, orb_true_r] end|norm_options].
  string_item (@set_ho_WIFISSID _) S10. string_item (@set_ho_WIFIBSSID _) S11.
  eapply chain_cons; [match goal with |- wstep _ ?s _ => eapply (opt_step ruleItemAdGuardDomain _ _ ReadAdGuardMatcher _ (NewAdGuardMatcher o.(ho_AdGuardDomain)) s
    (fun x => set_ho_AdGuardDomainMatcher x s)); [tag|read_tag|reflexivity|apply reads_adguard|intros E; by apply wrSince_ok, Hv2] end|norm_options].
  apply chain_end. subst final. reflexivity.
Qed.

(** The items of a chain are written, and the loop over them goes from one state to
    the other, with fuel left for what follows. *)
Lemma chain_reads ws s s' : chain ws s s' ->
  exists b, wrAll ws = Ret (Ok b) /\
    forall fuel last rest, (length (b ++ rest) < fuel)%nat ->
      exists fuel' last', (length rest < fuel')%nat /\ readItems fuel false last s (b ++ rest) = readItems fuel' false last' s' rest.
Proof.
  induction 1 as [s|w ws s s1 s2 (b1 & -> & Hb1) _ (b2 & E2 & Hr2)]; [exists []; cbn; eauto|].
  exists (b1 ++ b2). cbn [wrAll]. rewrite E2. split; [done|]. intros fuel last rest Hf.
  destruct Hb1 as [[-> ->]|(ty & payload & -> & Hty & Hnf & Hread)]; [by apply Hr2|].
  destruct fuel as [|fuel]; [lia|]. cbn [app length] in Hf. rewrite !length_app in Hf.
  destruct (Hr2 fuel ty rest) as (fuel' & last' & Hf' & E'); [rewrite length_app; lia|]. exists fuel', last'. split; [done|].
  rewrite <-E'. cbn [readItems]. unfold rdBind at 1. rewrite <-app_assoc. change ((ty :: payload) ++ b2 ++ rest) with ([ty] ++ payload ++ b2 ++ rest).
  rewrite reads_uint8 by done. rewrite (proj2 (Z.eqb_neq ty ruleItemFinal)) by done.
  unfold rdBind. by rewrite (Hread last (b2 ++ rest)).
Qed.

Lemma readItems_final fuel last s inverted rest :
  readItems (S fuel) false last s ([ruleItemFinal; boolByte inverted] ++ rest) = Ret (Ok (set_ho_Invert inverted s, rest)).
Proof. by destruct inverted. Qed.

Lemma wrAll_app l1 l2 b1 b2 : wrAll l1 = Ret (Ok b1) -> wrAll l2 = Ret (Ok b2) -> wrAll (l1 ++ l2) = Ret (Ok (b1 ++ b2)).
Proof.
  revert b1. induction l1 as [|w l1 IH]; intros b1 E1 E2; cbn [app wrAll] in *; [by injection E1 as <-|].
  destruct w as [[b|]|]; [|done|done]. destruct (wrAll l1) as [[b'|]|]; [|done|done]. injection E1 as <-.
  by rewrite (IH b'), <-app_assoc.
Qed.

Lemma defaultRule_roundtrip version o : writable version o ->
  exists b, writeDefaultRule version o = Ret (Ok ([0] ++ b)) /\ reads (readDefaultRule false) b (compiled version o).
Proof.
  intros Hw. destruct (chain_reads _ _ _ (items_chain version o Hw)) as (b & E & Hr).
  exists (b ++ [ruleItemFinal; boolByte o.(ho_Invert)]). split.
  - unfold writeDefaultRule. apply (wrAll_app _ _ [0]); [done|]. by apply wrAll_app.
  - intros rest. unfold readDefaultRule. rewrite <-app_assoc.
    destruct (Hr (S (length (b ++ [ruleItemFinal; boolByte o.(ho_Invert)] ++ rest))) 0 ([ruleItemFinal; boolByte o.(ho_Invert)] ++ rest))
      as (fuel' & last' & Hf' & ->); [lia|]. destruct fuel' as [|fuel']; [lia|].
    rewrite readItems_final. by destruct o.
Qed.

(** ** Rules *)

Fixpoint compiledTree (version : Z) (t : HeadlessRuleOptions) : HeadlessRuleOptions :=
  match t with
  | OptionRule ty d mode rules inverted _ =>
      if String.eqb ty RuleTypeDefault then OptionRule RuleTypeDefault (compiled version d) "" [] false tt
      else OptionRule RuleTypeLogical noHeadlessOptions mode (map (compiledTree version) rules) inverted tt
  end.

(** Rules of a known type and mode whose options fit the format. *)
Inductive writableTree (version : Z) : HeadlessRuleOptions -> Prop :=
| writable_default d mode rules inverted : writable version d ->
    writableTree version (OptionRule RuleTypeDefault d mode rules inverted tt)
| writable_logical d mode rules inverted : mode = LogicalTypeAnd \/ mode = LogicalTypeOr ->
    sliceOk sizeofHeadlessRule rules -> Forall (writableTree version) rules ->
    writableTree version (OptionRule RuleTypeLogical d mode rules inverted tt).

(** Written as [b], and read back wherever there is fuel for its bytes. *)
Definition ruleReads version (t : HeadlessRuleOptions) : Prop :=
  exists b, writeRule version t = Ret (Ok b) /\
    forall fuel rest, (length b < fuel)%nat -> readRule fuel false (b ++ rest) = Ret (Ok (compiledTree version t, rest)).

Lemma rules_roundtrip version (wrap : Z -> error -> error) rules : Forall (ruleReads version) rules ->
  exists b, wrAll (map (writeRule version) rules) = Ret (Ok b) /\
    forall fuel i, (length b < fuel)%nat -> reads (readRules (readRule fuel false) wrap i (length rules)) b (map (compiledTree version) rules).
Proof.
  induction 1 as [|t rules (b1 & E1 & H1) _ (b2 & E2 & H2)]; [exists []; split; [done|]; intros; apply reads_ret|].
  exists (b1 ++ b2). cbn [map wrAll]. rewrite E1, E2. split; [done|]. intros fuel i Hf. rewrite length_app in Hf.
  cbn [length readRules]. eapply (reads_bind _ _ b1 b2 (compiledTree version t)).
  - intros rest. by rewrite H1 by lia.
  - apply reads_map with (f := cons (compiledTree version t)). apply H2. lia.
Qed.

Definition modeByte (mode : string) : Z := if String.eqb mode LogicalTypeAnd then 0 else 1.

Lemma logicalRule_reads version fuel mode rules inverted b : mode = LogicalTypeAnd \/ mode = LogicalTypeOr ->
  sliceOk sizeofHeadlessRule rules ->
  reads (readRules (readRule fuel false) logicalRuleError 0 (length rules)) b (map (compiledTree version) rules) ->
  reads (readRule (S fuel) false) ([1] ++ [modeByte mode] ++ count rules ++ b ++ [boolByte inverted])
    (OptionRule RuleTypeLogical noHeadlessOptions mode (map (compiledTree version) rules) inverted tt).
Proof.
  intros Hmode Hs Hb. cbn [readRule]. eapply reads_bind; [apply reads_uint8; lia|]. cbn [Z.eqb].
  eapply reads_bind; [apply reads_ReadByte|].
  replace (negb ((modeByte mode =? 0) || (modeByte mode =? 1))) with false by (by destruct Hmode as [-> | ->]).
  apply reads_slice with (f := fun n => rules <- readRules (readRule fuel false) logicalRuleError 0 n ;; inverted <- ReadBool ;;
    rdRet (OptionRule RuleTypeLogical noHeadlessOptions (if modeByte mode =? 0 then LogicalTypeAnd else LogicalTypeOr) rules inverted tt)); [done..|].
  eapply reads_bind; [exact Hb|].
  replace (if modeByte mode =? 0 then LogicalTypeAnd else LogicalTypeOr) with mode by (by destruct Hmode as [-> | ->]).
  apply reads_map with (f := fun i => OptionRule RuleTypeLogical noHeadlessOptions mode (map (compiledTree version) rules) i tt).
  apply reads_ReadBool.
Qed.

Lemma logicalRule_written version d mode rules inverted b : mode = LogicalTypeAnd \/ mode = LogicalTypeOr ->
  wrAll (map (writeRule version) rules) = Ret (Ok b) ->
  writeRule version (OptionRule RuleTypeLogical d mode rules inverted tt) =
    Ret (Ok ([1] ++ [modeByte mode] ++ count rules ++ b ++ [boolByte inverted])).
Proof.
  intros Hmode E. cbn [writeRule]. unfold RuleTypeLogical, RuleTypeDefault. cbn [String.eqb Ascii.eqb Bool.eqb].
  apply (wrAll_app _ _ ([1] ++ [modeByte mode] ++ count rules)); [|by apply wrAll_app].
  by destruct Hmode as [-> | ->]; cbn; rewrite app_nil_r.
Qed.

Lemma rule_roundtrip version t : writableTree version t -> ruleReads version t.
Proof.
  induction t as [ty d mode rules inverted [] IH] using OptionTree_rect'. inversion 1 as [? ? ? ? Hd|? ? ? ? Hmode Hs Hr]; subst.
  - destruct (defaultRule_roundtrip version d Hd) as (b & E & Hb). exists ([0] ++ b). split; [exact E|].
    intros [|fuel] rest Hf; [lia|]. cbn [readRule compiledTree]. rewrite String.eqb_refl. unfold rdBind at 1.
    rewrite <-app_assoc, reads_uint8 by lia. cbn [Z.eqb]. unfold rdBind. by rewrite (Hb rest).
  - assert (HR : Forall (ruleReads version) rules).
    { rewrite Forall_forall in IH, Hr |- *. auto. }
    destruct (rules_roundtrip version logicalRuleError rules HR) as (b & E & Hb).
    eexists. split; [by apply logicalRule_written|]. intros [|fuel] rest Hf; [lia|]. rewrite !length_app in Hf. cbn [length] in Hf.
    cbn [compiledTree]. unfold RuleTypeLogical at 1, RuleTypeDefault. cbn [String.eqb Ascii.eqb Bool.eqb].
    apply logicalRule_reads; [done..|]. apply Hb. lia.
Qed.

(** ** Files *)

Lemma file_roundtrip version rules : 1 <= version <= RuleSetVersionCurrent ->
  sliceOk sizeofHeadlessRule rules -> Forall (writableTree version) rules ->
  exists file, Write rules version = Ret (Ok file) /\ Read false file = Ret (Ok (version, map (compiledTree version) rules)).
Proof.
  intros Hv Hs Hr. unfold RuleSetVersionCurrent, RuleSetVersion4 in *.
  assert (HR : Forall (ruleReads version) rules) by (eapply Forall_impl; [exact Hr|apply rule_roundtrip]).
  destruct (rules_roundtrip version ruleError rules HR) as (b & E & Hb).
  exists (MagicBytes ++ [version] ++ zlib_Write (count rules ++ b)). split.
  { unfold Write. cbn [wrAll wrOk]. rewrite E. by rewrite Z.mod_small by lia. }
  unfold Read. rewrite (reads_ReadFull MagicBytes). rewrite bool_decide_true by done. cbn [negb].
  rewrite reads_uint8 by lia. unfold RuleSetVersionCurrent, RuleSetVersion4. rewrite (proj2 (Z.ltb_ge _ _)) by lia.
  rewrite zlib_roundtrip.
  pose proof (reads_slice sizeofHeadlessRule rules (readRules (readRule (S (length (count rules ++ b))) false) ruleError 0) b
    (map (compiledTree version) rules)) as H.
  specialize (H ltac:(done) Hs ltac:(apply Hb; rewrite length_app; lia) []). rewrite app_nil_r in H. by rewrite H.
Qed.

(** C36: a rule-set written to a binary file is read back: for rules that fit the
    format the writer succeeds, and reading the file gives the version and the same
    rules, with their domains, addresses and AdGuard lists compiled. *)
Theorem srs_roundtrip version rules : 1 <= version <= RuleSetVersionCurrent ->
  sliceOk sizeofHeadlessRule rules -> Forall (writableTree version) rules ->
  exists file, Write rules version = Ret (Ok file) /\ Read false file = Ret (Ok (version, map (compiledTree version) rules)).
Proof. apply file_roundtrip. Qed.

End SrsProps.
