(* ===== verification/SrsBuild.v ===== *)
(** * Compiled rule-sets decide as their sources

    The rules built from a binary rule-set are those built from the source it was
    compiled from; reading terminates on every input; and a short file can make the
    reader panic. *)

From S2P Require Import Prelude GoStrings GoCrypto RuleItems RuleMatch RuleBuild GoBinary FakeIP FakeIPProps CacheFile BoltLaws CacheFileProps Srs SrsProps.

Local Open Scope string_scope.
Local Open Scope list_scope.
Local Open Scope Z_scope.

Section SrsBuild.
Context `{SL : SrsLaws} {VB : Varbin} {VL : VarbinLaws VB}.
Local Open Scope rd_scope.

Abbreviation HeadlessRuleOptions := (OptionTree HeadlessOptions unit) (only parsing).

(** ** Default rules *)

(** Options as they come from a source file: nothing is compiled. *)
Definition sourceForm (o : HeadlessOptions) : Prop :=
  o.(ho_DomainMatcher) = None /\ o.(ho_SourceIPSet) = None /\ o.(ho_IPSet) = None /\ o.(ho_AdGuardDomainMatcher) = None /\
  o.(ho_NetworkInterfaceAddress) <> Some [].

Abbreviation block := (list (result error (ItemGroup * RuleItem))) (only parsing).

Definition allOk (l : block) : Prop := Forall (fun r => is_Ok r = true) l.

Lemma runBlocks_allOk l items : runBlocks l = Ok items -> allOk l.
Proof.
  revert items. induction l as [|[p|e] l IH]; intros items; cbn [runBlocks]; [constructor| |done].
  destruct (runBlocks l) as [ps|] eqn:E; [|done]. intros _. constructor; [done|]. by eapply IH.
Qed.

Lemma domain_block version domains suffixes (m : option Matcher) : version <> RuleSetVersion1 -> m = None ->
  allOk (if nonempty domains || nonempty suffixes then condErr true GDestinationAddress (NewDomainItem domains suffixes) id
         else match m with Some m => cond true GDestinationAddress (NewRawDomainItem m) | None => [] end) ->
  (match matcherOf version domains suffixes with Some m => cond true GDestinationAddress (NewRawDomainItem m) | None => [] end : block) =
  (if nonempty domains || nonempty suffixes then condErr true GDestinationAddress (NewDomainItem domains suffixes) id
   else match m with Some m => cond true GDestinationAddress (NewRawDomainItem m) | None => [] end).
Proof.
  intros Hv ->. unfold matcherOf. destruct (nonempty domains || nonempty suffixes); [|done]. unfold condErr, NewDomainItem, srsMatcher.
  destruct (existsb (String.eqb "") domains); [by intros H; inversion H|].
  destruct (existsb (String.eqb "") suffixes); [by intros H; inversion H|].
  by destruct (Z.eqb_spec version RuleSetVersion1).
Qed.

Lemma cidr_block g isSource l (m : option IPSet) wrap : m = None ->
  allOk (if nonempty l then condErr true g (NewIPCIDRItem isSource l) wrap
         else match m with Some s => cond true g (NewRawIPCIDRItem isSource s) | None => [] end) ->
  (match cidrSet l with Some s => cond true g (NewRawIPCIDRItem isSource s) | None => [] end : block) =
  (if nonempty l then condErr true g (NewIPCIDRItem isSource l) wrap
   else match m with Some s => cond true g (NewRawIPCIDRItem isSource s) | None => [] end) /\ isSome (cidrSet l) = nonempty l.
Proof.
  intros ->. unfold cidrSet. destruct (nonempty l); [|done]. unfold condErr, NewIPCIDRItem, ipsetOf.
  destruct (parsePrefixes 0 l) as [x|]; [|by intros H; inversion H]. destruct (BuildIPSet x); [done|by intros H; inversion H].
Qed.

(** The blocks of the compiled options are those of the source, when these have no
    error. *)
Lemma compiled_blocks version haveNetworkManager o : version <> RuleSetVersion1 -> sourceForm o ->
  allOk (headlessBlocks haveNetworkManager o) ->
  headlessBlocks haveNetworkManager (compiled version o) = headlessBlocks haveNetworkManager o /\
  isSome (cidrSet o.(ho_SourceIPCIDR)) = nonempty o.(ho_SourceIPCIDR) /\ isSome (cidrSet o.(ho_IPCIDR)) = nonempty o.(ho_IPCIDR).
Proof.
  intros Hv (H1 & H2 & H3 & H4 & H5) Hok. unfold headlessBlocks in Hok. unfold allOk in Hok. rewrite !Forall_app in Hok.
  destruct Hok as (_ & _ & Hd & _ & _ & Hs & Hi & _).
  destruct (cidr_block _ _ _ _ _ H2 Hs) as [Es Ns]. destruct (cidr_block _ _ _ _ _ H3 Hi) as [Ei Ni]. split; [|done].
  unfold headlessBlocks, compiled. cbn [ho_QueryType ho_Network ho_Domain ho_DomainSuffix ho_DomainKeyword ho_DomainRegex ho_SourceIPCIDR
    ho_IPCIDR ho_SourcePort ho_SourcePortRange ho_Port ho_PortRange ho_ProcessName ho_ProcessPath ho_ProcessPathRegex ho_PackageName
    ho_NetworkType ho_NetworkIsExpensive ho_NetworkIsConstrained ho_WIFISSID ho_WIFIBSSID ho_NetworkInterfaceAddress
    ho_DefaultInterfaceAddress ho_Invert ho_DomainMatcher ho_SourceIPSet ho_IPSet ho_AdGuardDomain ho_AdGuardDomainMatcher nonempty orb].
  rewrite (domain_block version _ _ _ Hv H1 Hd), Es, Ei, H4. do 15 f_equal. f_equal.
  - destruct haveNetworkManager; [|done]. do 5 f_equal. f_equal. unfold entriesOf.
    destruct (ho_NetworkInterfaceAddress o) as [[|e l]|]; [done|done|done].
  - f_equal. unfold adguardOf. by destruct (ho_AdGuardDomain o).
Qed.

Lemma compiled_valid version o : sourceForm o -> 
  isSome (cidrSet o.(ho_SourceIPCIDR)) = nonempty o.(ho_SourceIPCIDR) -> isSome (cidrSet o.(ho_IPCIDR)) = nonempty o.(ho_IPCIDR) ->
  HeadlessOptions_IsValid (compiled version o) = HeadlessOptions_IsValid o.
Proof.
  intros (H1 & H2 & H3 & H4 & H5) Es Ei. unfold HeadlessOptions_IsValid, compiled.
  cbn [ho_QueryType ho_Network ho_Domain ho_DomainSuffix ho_DomainKeyword ho_DomainRegex ho_SourceIPCIDR
    ho_IPCIDR ho_SourcePort ho_SourcePortRange ho_Port ho_PortRange ho_ProcessName ho_ProcessPath ho_ProcessPathRegex ho_PackageName
    ho_NetworkType ho_NetworkIsExpensive ho_NetworkIsConstrained ho_WIFISSID ho_WIFIBSSID ho_NetworkInterfaceAddress
    ho_DefaultInterfaceAddress ho_Invert ho_DomainMatcher ho_SourceIPSet ho_IPSet ho_AdGuardDomain ho_AdGuardDomainMatcher nonempty].
  rewrite Es, Ei, H1, H2, H3, H4. cbn [isSome].
  assert (E1 : isSome (matcherOf version o.(ho_Domain) o.(ho_DomainSuffix)) = nonempty o.(ho_Domain) || nonempty o.(ho_DomainSuffix)).
  { unfold matcherOf. by destruct (_ || _). }
  assert (E2 : isSome (adguardOf o.(ho_AdGuardDomain)) = nonempty o.(ho_AdGuardDomain)) by (unfold adguardOf; by destruct (ho_AdGuardDomain o)).
  assert (E3 : isSome (entriesOf o.(ho_NetworkInterfaceAddress)) = isSome o.(ho_NetworkInterfaceAddress)).
  { by destruct (ho_NetworkInterfaceAddress o) as [[|]|]. }
  rewrite E1, E2, E3. rewrite ?orb_false_r, ?orb_false_l. clear.
  apply eq_true_iff_eq. rewrite !orb_true_iff. tauto.
Qed.

Lemma compiled_rule version haveNetworkManager o r : version <> RuleSetVersion1 -> sourceForm o ->
  NewDefaultHeadlessRule haveNetworkManager o = Ok r ->
  NewDefaultHeadlessRule haveNetworkManager (compiled version o) = Ok r /\
  HeadlessOptions_IsValid (compiled version o) = HeadlessOptions_IsValid o.
Proof.
  intros Hv Hs. unfold NewDefaultHeadlessRule. destruct (runBlocks (headlessBlocks haveNetworkManager o)) as [items|] eqn:E; [|done].
  destruct (compiled_blocks version haveNetworkManager o Hv Hs (runBlocks_allOk _ _ E)) as (-> & Es & Ei). rewrite E.
  intros [= <-]. split; [done|]. by apply compiled_valid.
Qed.

(** ** Rule trees *)

Inductive sourceTree : HeadlessRuleOptions -> Prop :=
| source_default d mode rules inverted : sourceForm d -> sourceTree (OptionRule RuleTypeDefault d mode rules inverted tt)
| source_logical d mode rules inverted : Forall sourceTree rules -> sourceTree (OptionRule RuleTypeLogical d mode rules inverted tt).

(** The branch of logical rules. *)
Lemma NewHeadlessRule_logical haveNetworkManager d mode rules inverted :
  NewHeadlessRule haveNetworkManager (OptionRule RuleTypeLogical d mode rules inverted tt) =
  match (if nonempty rules then allM HeadlessRule_IsValid rules else Ret false) with
  | Panic => Panic
  | Ret false => Ret (Err (E_New ["missing conditions"]))
  | Ret true =>
      if String.eqb mode LogicalTypeAnd || String.eqb mode LogicalTypeOr then
        match buildAll (NewHeadlessRule haveNetworkManager) subRuleError 0 rules with
        | Panic => Panic
        | Ret (Err e) => Ret (Err e)
        | Ret (Ok us) => Ret (Ok (LogicalNode mode inverted tt us))
        end
      else Ret (Err (E_New ["unknown logical mode: "; mode]))
  end.
Proof. reflexivity. Qed.

Lemma IsValid_logical d mode rules inverted :
  HeadlessRule_IsValid (OptionRule RuleTypeLogical d mode rules inverted tt) = if nonempty rules then allM HeadlessRule_IsValid rules else Ret false.
Proof. reflexivity. Qed.

Lemma compiledTree_logical version d mode rules inverted :
  compiledTree version (OptionRule RuleTypeLogical d mode rules inverted tt) =
  OptionRule RuleTypeLogical noHeadlessOptions mode (map (compiledTree version) rules) inverted tt.
Proof. reflexivity. Qed.

Lemma buildAll_map {T U} (f : T -> outcome (result error U)) wrap (g : T -> T) (V : T -> outcome bool) rules i us :
  (forall x u, x ∈ rules -> f x = Ret (Ok u) -> f (g x) = Ret (Ok u) /\ V (g x) = V x) ->
  buildAll f wrap i rules = Ret (Ok us) ->
  buildAll f wrap i (map g rules) = Ret (Ok us) /\ allM V (map g rules) = allM V rules.
Proof.
  revert i us. induction rules as [|x rules IH]; intros i us H E; [done|]. cbn [buildAll] in E.
  destruct (f x) as [[u|]|] eqn:Ex; [|done|done]. destruct (H x u (list_elem_of_here _ _) Ex) as [Hg HV].
  destruct (buildAll f wrap (i + 1) rules) as [[us'|]|] eqn:Er; [|done|done].
  destruct (IH (i + 1) us') as [IH1 IH2]; [|done|]; [intros y v Hy; apply H; by right|].
  cbn [map buildAll allM]. by rewrite Hg, IH1, HV, IH2.
Qed.

Lemma compiled_tree version haveNetworkManager t r : version <> RuleSetVersion1 -> sourceTree t ->
  NewHeadlessRule haveNetworkManager t = Ret (Ok r) ->
  NewHeadlessRule haveNetworkManager (compiledTree version t) = Ret (Ok r) /\
  HeadlessRule_IsValid (compiledTree version t) = HeadlessRule_IsValid t.
Proof.
  intros Hv. revert r. induction t as [ty d mode rules inverted [] IH] using OptionTree_rect'. intros r Hs.
  inversion Hs as [? ? ? ? Hd|? ? ? ? Hr]; subst.
  - cbn. destruct (HeadlessOptions_IsValid d) eqn:Ev; [|done].
    destruct (NewDefaultHeadlessRule haveNetworkManager d) as [x|] eqn:E; [|done]. intros [= <-].
    destruct (compiled_rule version haveNetworkManager d x Hv Hd E) as [-> ->]. by rewrite Ev.
  - rewrite compiledTree_logical, !NewHeadlessRule_logical, !IsValid_logical.
    assert (Hn : nonempty (map (compiledTree version) rules) = nonempty rules) by (by destruct rules). rewrite Hn.
    destruct (nonempty rules); [|done].
    destruct (allM HeadlessRule_IsValid rules) as [[|]|] eqn:Ea; [|done|done].
    destruct (String.eqb mode LogicalTypeAnd || String.eqb mode LogicalTypeOr); [|done].
    destruct (buildAll (NewHeadlessRule haveNetworkManager) subRuleError 0 rules) as [[us|]|] eqn:Eb; [|done|done]. intros [= <-].
    destruct (buildAll_map (NewHeadlessRule haveNetworkManager) subRuleError (compiledTree version) HeadlessRule_IsValid rules 0 us) as [E1 E2];
      [|done|by rewrite E2, Ea, E1].
    intros y u Hy. rewrite Forall_forall in IH, Hr. by apply IH; [|apply Hr].
Qed.

(** C13: a compiled rule-set decides as its source, for format versions from two on
    (version one compiles domains to another matcher and is not covered): when source
    rules that fit the format, and carry no compiled lists yet, are accepted by the
    builder, their file is written and read without error, and the builder makes of
    what was read exactly the rules it makes of the source.  Nothing is said of a source
    the builder refuses. *)
Theorem compiled_ruleset_same_rules version haveNetworkManager wrap rules us :
  2 <= version <= RuleSetVersionCurrent -> sliceOk sizeofHeadlessRule rules ->
  Forall (writableTree version) rules -> Forall sourceTree rules ->
  buildAll (NewHeadlessRule haveNetworkManager) wrap 0 rules = Ret (Ok us) ->
  exists file rules', Write rules version = Ret (Ok file) /\ Read false file = Ret (Ok (version, rules')) /\
    buildAll (NewHeadlessRule haveNetworkManager) wrap 0 rules' = Ret (Ok us).
Proof.
  intros Hv Hs Hw Hsrc E. destruct (file_roundtrip version rules) as (file & E1 & E2); [lia|done..|].
  exists file, (map (compiledTree version) rules). split; [done|]. split; [done|].
  refine (proj1 (buildAll_map _ wrap (compiledTree version) HeadlessRule_IsValid rules 0 us _ E)).
  intros x u Hx. rewrite Forall_forall in Hsrc. apply compiled_tree; [unfold RuleSetVersion1; lia|by apply Hsrc].
Qed.

(** ** Reading ends *)

Lemma readPrefixes_shrinks : shrinks readPrefixes.
Proof. unfold readPrefixes, readPrefix. eauto 10 with sb. Qed.

Lemma readIPSet_shrinks : shrinks readIPSet.
Proof. unfold readIPSet, readRange. apply shrinks_bind; [auto with sb|]. intros v. destruct (negb _); eauto 10 with sb. Qed.

Lemma readStrings_shrinks : shrinks readRuleItemString.
Proof. unfold readRuleItemString. eauto 10 with sb. Qed.

Lemma readUint16s_shrinks : shrinks readRuleItemUint16.
Proof. unfold readRuleItemUint16. eauto 10 with sb. Qed.

Lemma readUint8s_shrinks : shrinks readRuleItemUint8.
Proof. unfold readRuleItemUint8. eauto 10 with sb. Qed.

Lemma readEntries_shrinks n m : shrinks (readInterfaceEntries n m).
Proof.
  revert m. induction n as [|n IH]; intros m; cbn [readInterfaceEntries]; [apply shrinks_ret|].
  apply shrinks_bind; [auto with sb|]. intros k. apply shrinks_bind; [apply readPrefixes_shrinks|auto].
Qed.

Lemma readItem_shrinks recover ty last rule : shrinks (readItem recover ty last rule).
Proof.
  pose proof matcher_shrinks. pose proof adguard_shrinks. pose proof readIPSet_shrinks. pose proof readPrefixes_shrinks.
  pose proof readStrings_shrinks. pose proof readUint16s_shrinks. pose proof readUint8s_shrinks.
  assert (Hb : forall A (f : Rd A) (F : A -> HeadlessOptions), shrinks f -> shrinks (x <- f ;; rdRet (F x))).
  { intros A f F Hf. apply shrinks_bind; [done|]. intros a. apply shrinks_ret. }
  unfold readItem. repeat match goal with |- shrinks (if ?b then _ else _) => destruct b; [solve [auto using shrinks_ret]|] end.
  1: destruct (ty =? ruleItemNetworkInterfaceAddress).
  { apply shrinks_bind; [auto with sb|]. intros n. apply Hb. apply readEntries_shrinks. }
  destruct (ty =? ruleItemDefaultInterfaceAddress); [by apply Hb|apply shrinks_err].
Qed.

(** More rounds than bytes are as good as any number: the loop over the items does
    not run out. *)
Lemma readItems_fuel f1 f2 recover last rule l : (length l < f1)%nat -> (length l < f2)%nat ->
  readItems f1 recover last rule l = readItems f2 recover last rule l.
Proof.
  revert f2 last rule l. induction f1 as [|f1 IH]; intros [|f2] last rule l H1 H2; [lia..|]. cbn [readItems].
  apply rdBind_ext. intros ty l1 E%ReadUint_less. destruct (ty =? ruleItemFinal); [done|].
  apply rdBind_ext. intros rule' l2 E2%readItem_shrinks. apply IH; lia.
Qed.

Lemma readItems_shrinks fuel recover last rule : shrinks (readItems fuel recover last rule).
Proof.
  revert last rule. induction fuel as [|fuel IH]; intros last rule; cbn [readItems]; [done|].
  apply shrinks_bind; [auto with sb|]. intros ty. destruct (ty =? ruleItemFinal); [unfold ReadBool; eauto 10 with sb|].
  apply shrinks_bind; [apply readItem_shrinks|auto].
Qed.

Lemma readRules_shrinks f wrap i n : shrinks f -> shrinks (readRules f wrap i n).
Proof.
  intros Hf. revert i. induction n as [|n IH]; intros i; cbn [readRules]; [apply shrinks_ret|].
  apply shrinks_bind; [|intros r; apply shrinks_bind; [auto|intros; apply shrinks_ret]].
  intros l a l' E. destruct (f l) as [[[x l1]|]|] eqn:E1; [|done|done]. injection E as <- <-. by eapply Hf.
Qed.

Lemma readRule_shrinks fuel recover : shrinks (readRule fuel recover).
Proof.
  induction fuel as [|fuel IH]; cbn [readRule]; [done|]. apply shrinks_bind; [auto with sb|]. intros ty.
  destruct (ty =? 0).
  { apply shrinks_bind; [|intros; apply shrinks_ret]. intros l a l' E. unfold readDefaultRule in E. by apply readItems_shrinks in E. }
  destruct (ty =? 1); [|apply shrinks_err]. apply shrinks_bind; [auto with sb|]. intros mode.
  destruct (negb _); [apply shrinks_err|]. pose proof (fun n => readRules_shrinks _ logicalRuleError 0 n IH). unfold ReadBool.
  eauto 20 with sb.
Qed.

Lemma readRules_ext f1 f2 wrap i n l : (forall l', (length l' <= length l)%nat -> f1 l' = f2 l') -> shrinks f1 ->
  readRules f1 wrap i n l = readRules f2 wrap i n l.
Proof.
  intros H Hf. revert i l H. induction n as [|n IH]; intros i l H; cbn [readRules]; [done|]. unfold rdBind at 1 3.
  rewrite <-(H l) by lia. destruct (f1 l) as [[[x l1]|]|] eqn:E; [|done|done]. apply Hf in E.
  unfold rdBind. rewrite IH; [done|]. intros l' Hl'. apply H. lia.
Qed.

(** The same for the nesting of rules. *)
Lemma readRule_fuel f1 f2 recover l : (length l < f1)%nat -> (length l < f2)%nat ->
  readRule f1 recover l = readRule f2 recover l.
Proof.
  revert f2 l. induction f1 as [|f1 IH]; intros [|f2] l H1 H2; [lia..|]. cbn [readRule].
  apply rdBind_ext. intros ty l1 E1%ReadUint_less. destruct (ty =? 0); [done|]. destruct (ty =? 1); [|done].
  apply rdBind_ext. intros mode l2 E2%shrinks_ReadByte. destruct (negb _); [done|].
  apply rdBind_ext. intros n l3 E3%shrinks_ReadUvarint. apply rdBind_ext. intros [] l4 E4%shrinks_makeSlice.
  unfold rdBind at 1 3. rewrite (readRules_ext _ (readRule f2 recover)); [done| |apply readRule_shrinks].
  intros l' Hl'. apply IH; lia.
Qed.

(** ** Lengths that are not checked *)

(** A file of a few bytes makes the reader panic: the number of rules is read
    from the file and allocated at once, without a check. *)
Theorem crafted_ruleset_panics version n recover : 0 <= version <= RuleSetVersionCurrent -> uint64_range n ->
  maxAlloc < sizeofHeadlessRule * n ->
  Read recover (MagicBytes ++ [version] ++ zlib_Write (WriteUvarint n)) = Panic.
Proof.
  intros Hv Hn Hbig. unfold RuleSetVersionCurrent, RuleSetVersion4 in *. unfold Read. rewrite (reads_ReadFull MagicBytes), bool_decide_true by done. cbn [negb].
  rewrite reads_uint8 by lia. unfold RuleSetVersionCurrent, RuleSetVersion4. rewrite (proj2 (Z.ltb_ge _ _)), zlib_roundtrip by lia.
  unfold rdBind. pose proof (ReadUvarint_WriteUvarint re_exceptions n Hn []) as R. rewrite app_nil_r in R. rewrite R.
  unfold makeSlice. by rewrite (proj2 (Z.ltb_lt _ _)).
Qed.

End SrsBuild.

(** ** A rule-set compiled, read and built

    An instance of the libraries the format uses, and a rule-set of a default and a
    logical rule. *)

Module SrsDemo.

Definition between (a : Addr) (r : Addr * Addr) : bool :=
  match r.1, a, r.2 with Addr4 x, Addr4 v, Addr4 y => (x <=? v) && (v <=? y) | _, _, _ => false end.

(** Single IPv4 addresses are written as numbers; a domain matcher is the list of
    its domains and suffixes. *)
#[export] Instance srsRules : RuleEnv := {|
  re_exceptions := text_exceptions;
  E_Extend := fun e args => Errorf (Error e +:+ ": " +:+ str_concat args);
  IPSet := list (Addr * Addr);
  ipset_Contains := fun s a => existsb (between a) s;
  Prefix := option IPPrefix;
  Overlaps := fun _ _ => false;
  ParsePrefix := fun s => Err (Errorf s);
  ParseAddr := fun s => match atoi s with Some v => Ok (Addr4 v) | None => Err (Errorf s) end;
  BuildIPSet := fun l => Ok (omap (fun x => match x with inr (Addr4 v) => Some (Addr4 v, Addr4 v) | _ => None end) l);
  Matcher := list string;
  NewMatcher := fun domains suffixes => domains ++ suffixes;
  matcher_Match := fun m s => existsb (String.eqb s) m;
  AdGuardMatcher := list string;
  NewAdGuardMatcher := fun l => l;
  adguard_Match := fun m s => existsb (String.eqb s) m;
  socksIsIP := fun s => addrIsValid s.(sockAddr);
  socksIsIPv4 := fun s => Is4 s.(sockAddr);
  socksIsIPv6 := fun s => Is6 s.(sockAddr);
  AddrFromIP := mAddrFromIP;
  IsPublicAddr := fun _ => true;
  IsDuplicate := fun _ _ => false;
  Regexp := unit;
  CompileRegexp := fun _ => Ok tt;
  MatchString := fun _ _ => false;
  ParseMAC := fun _ => None;
  ToLower := fun s => s;
  EqualFold := String.eqb;
  IsAndroid := false;
|}.

(** ** Lists of strings with an end mark *)

Fixpoint markString (s : string) : list Z :=
  match s with EmptyString => [0] | String c s => 1 :: ascii_Z c :: markString s end.

Definition markStrings (l : list string) : list Z := List.concat (map (fun s => 1 :: markString s) l) ++ [0].

Fixpoint unmarkString (n : nat) (l : list Z) : option (string * list Z) :=
  match n, l with
  | S n, 0 :: l => Some ("", l)
  | S n, 1 :: c :: l => match unmarkString n l with Some (s, l) => Some (String (Z_ascii c) s, l) | None => None end
  | _, _ => None
  end.

Fixpoint unmarkStrings (n : nat) (l : list Z) : option (list string * list Z) :=
  match n, l with
  | S n, 0 :: l => Some ([], l)
  | S n, 1 :: l =>
      match unmarkString (length l) l with
      | Some (s, l) => match unmarkStrings n l with Some (ss, l) => Some (s :: ss, l) | None => None end
      | None => None
      end
  | _, _ => None
  end.

Definition readMarked : Rd (list string) := fun l =>
  match unmarkStrings (length l) l with Some x => Ret (Ok x) | None => Ret (Err (Errorf "bad matcher")) end.

Lemma unmark_mark s n rest : (length (markString s) <= n)%nat -> unmarkString n (markString s ++ rest) = Some (s, rest).
Proof.
  revert n. induction s as [|c s IH]; intros [|n] Hn; cbn [markString length app] in *; try lia; [done|].
  cbn [unmarkString]. rewrite IH by lia. by rewrite Z_ascii_Z.
Qed.

Lemma unmarkString_shrinks n l s l' : unmarkString n l = Some (s, l') -> (length l' <= length l)%nat.
Proof.
  revert l s. induction n as [|n IH]; intros l s E; [by destruct l|]. destruct l as [|x l]; [done|]. cbn in E.
  destruct x as [|[| |]|]; try done; [injection E as _ <-; cbn; lia|]. destruct l as [|c l]; [done|].
  destruct (unmarkString n l) as [[s1 l1]|] eqn:E1; [|done]. injection E as _ <-. apply IH in E1. cbn. lia.
Qed.

Lemma reads_marked m : reads readMarked (markStrings m) m.
Proof.
  intros rest. unfold readMarked, markStrings.
  assert (H : forall n, Nat.le (length (List.concat (map (fun s => 1 :: markString s) m) ++ [0])) n ->
    unmarkStrings n ((List.concat (map (fun s => 1 :: markString s) m) ++ [0]) ++ rest) = Some (m, rest)).
  { induction m as [|s m IH]; intros [|n] Hn; cbn [map List.concat app length] in *; try lia; [done|].
    cbn [unmarkStrings]. rewrite <-!app_assoc. rewrite unmark_mark by (rewrite length_app; lia).
    rewrite !length_app in Hn. cbn [length] in Hn. rewrite app_assoc, IH by (rewrite length_app; cbn; lia). done. }
  rewrite H; [done|]. rewrite !length_app. lia.
Qed.

Lemma marked_shrinks : shrinks readMarked.
Proof.
  intros l m l' E. unfold readMarked in E. destruct (unmarkStrings (length l) l) as [[m0 l0]|] eqn:E0; [|done]. injection E as -> ->.
  revert E0. generalize (length l) at 1. intros n. revert l m. induction n as [|n IH]; intros l m E; [by destruct l|].
  destruct l as [|x l]; [done|]. cbn in E. destruct x as [|[| |]|]; try done; [injection E as _ <-; cbn; lia|].
  destruct (unmarkString (length l) l) as [[s l1]|] eqn:E1; [|done]. apply unmarkString_shrinks in E1.
  destruct (unmarkStrings n l1) as [[ss l2]|] eqn:E2; [|done]. injection E as _ <-. apply IH in E2. cbn. lia.
Qed.

#[export] Instance srsEnv : SrsEnv := {|
  NewLegacyMatcher := fun domains suffixes => domains ++ suffixes;
  matcher_Write := markStrings;
  ReadMatcher := readMarked;
  matcher_Dump := fun m => (m, []);
  adguard_Write := markStrings;
  ReadAdGuardMatcher := readMarked;
  adguard_Dump := fun m => m;
  ipset_ranges := fun s => s;
  ipset_cast := fun s => s;
  ipset_Prefixes := fun _ => [];
  prefix_Addr := fun p => match p with Some p => p.(prefixAddr) | None => AddrZero end;
  prefix_Bits := fun p => match p with Some p => p.(prefixBits) | None => -1 end;
  prefix_From := fun a bits => match a with AddrZero => None | _ => Some (mkIPPrefix a bits) end;
  typedMap_Put := fun k v m => if bool_decide (k ∈ m.*1) then map (fun e => if e.1 =? k then (k, v) else e) m else m ++ [(k, v)];
  zlib_Write := fun b => b;
  zlib_NewReader := fun b => Ok b;
|}.

#[export] Instance srsLaws : SrsLaws srsEnv.
Proof.
  split.
  - apply reads_marked.
  - apply reads_marked.
  - done.
  - apply mAddrFromIP_slice.
  - intros [[a bits]|]; [|done]. cbn. by destruct a.
  - intros k v m H. cbn. by rewrite bool_decide_false.
  - done.
  - apply marked_shrinks.
  - apply marked_shrinks.
Qed.

(** ** A rule-set *)

Definition web : HeadlessOptions :=
  set_ho_Domain ["example.com"] (set_ho_IPCIDR ["167772161"] (set_ho_Port [80; 443] (set_ho_Invert true noHeadlessOptions))).
Definition local : HeadlessOptions := set_ho_Network ["tcp"] (set_ho_NetworkType [2] noHeadlessOptions).

Definition rules : list (OptionTree HeadlessOptions unit) :=
  [OptionRule RuleTypeDefault web "" [] false tt;
   OptionRule RuleTypeLogical noHeadlessOptions LogicalTypeOr
     [OptionRule RuleTypeDefault local "" [] false tt; OptionRule RuleTypeDefault web "" [] false tt] false tt].

(** The file, byte by byte, for one small rule. *)
Lemma small_file :
  Write [OptionRule RuleTypeDefault (set_ho_Port [443] noHeadlessOptions) "" [] false tt] 1 =
  Ret (Ok [0x53; 0x52; 0x53; 1; 1; 0; 9; 1; 1; 0xBB; 0xFF; 0]).
Proof. vm_compute. reflexivity. Qed.

Ltac small := unfold uint16s, uint8s, stringsOk, prefixesOk, sliceOk; cbn; repeat constructor; vm_compute; congruence.

Lemma web_writable : writable 3 web.
Proof.
  unfold writable. split; [small|]. split; [small|]. split; [small|]. split; [small|]. split.
  { repeat (apply Forall_cons; split; [small|]). constructor. }
  split.
  { apply Forall_cons. split; [done|]. apply Forall_cons. split; [|constructor]. intros _. exists [(Addr4 0x0A000001, Addr4 0x0A000001)].
    split; [vm_compute; reflexivity|]. split; [vm_compute; congruence|]. repeat constructor; vm_compute; congruence. }
  split; [small|]. split; [done|]. split; [done|]. split; [done|done].
Qed.

Lemma local_writable : writable 3 local.
Proof.
  unfold writable. split; [small|]. split; [small|]. split; [small|]. split; [small|]. split.
  { repeat (apply Forall_cons; split; [small|]). constructor. }
  split; [by repeat constructor|]. split; [small|]. split; [done|]. split; [done|]. split; [intros _; lia|done].
Qed.

Lemma rules_writable : Forall (writableTree 3) rules.
Proof.
  assert (H1 : writableTree 3 (OptionRule RuleTypeDefault web "" [] false tt)) by (apply writable_default, web_writable).
  assert (H2 : writableTree 3 (OptionRule RuleTypeDefault local "" [] false tt)) by (apply writable_default, local_writable).
  constructor; [done|]. constructor; [|constructor]. apply writable_logical; [by right|vm_compute; congruence|by apply Forall_cons; split; [|apply Forall_singleton]].
Qed.

Lemma rules_source : Forall sourceTree rules.
Proof.
  assert (H1 : sourceTree (OptionRule RuleTypeDefault web "" [] false tt)) by (by apply source_default).
  assert (H2 : sourceTree (OptionRule RuleTypeDefault local "" [] false tt)) by (by apply source_default).
  constructor; [done|]. constructor; [|constructor]. apply source_logical. by apply Forall_cons; split; [|apply Forall_singleton].
Qed.

Lemma srs_roundtrip_witness :
  exists file, Write rules 3 = Ret (Ok file) /\ Read false file = Ret (Ok (3, map (compiledTree 3) rules)).
Proof.
  apply (srs_roundtrip 3 rules); [vm_compute; split; congruence|vm_compute; congruence|exact rules_writable].
Defined.

Lemma compiled_ruleset_same_rules_witness :
  exists us file rules', buildAll (NewHeadlessRule true) subRuleError 0 rules = Ret (Ok us) /\
    Write rules 3 = Ret (Ok file) /\ Read false file = Ret (Ok (3, rules')) /\
    buildAll (NewHeadlessRule true) subRuleError 0 rules' = Ret (Ok us).
Proof.
  eexists. destruct (compiled_ruleset_same_rules 3 true subRuleError rules _ ltac:(vm_compute; split; congruence) ltac:(vm_compute; congruence)
    rules_writable rules_source eq_refl) as (file & rules' & H). exists file, rules'. split; [reflexivity|exact H].
Defined.

Lemma crafted_ruleset_panics_witness :
  Read false (MagicBytes ++ [4] ++ zlib_Write (WriteUvarint (2 ^ 63))) = Panic.
Proof.
  apply (crafted_ruleset_panics 4 (2 ^ 63) false); [vm_compute; split; congruence|vm_compute; split; congruence|vm_compute; reflexivity].
Defined.

End SrsDemo.
