(* ===== verification/RemoteRuleSet.v ===== *)
(** * Remote rule-sets

    [src/route/rule/rule_set_remote.go]: a rule-set that is fetched over HTTP, with the
    entity tag of what it has, kept in the cache file and updated by a ticker.

    The rules, their metadata and the count of references are the [RuleSet] of
    [RuleMatch]; what a server answers is a function of the tag in the request; times are
    nanoseconds since 1970.  Callbacks, the HTTP client and logging are left out. *)

From S2P Require Import Prelude GoStrings GoTime GoCrypto RuleState RuleItems RuleMatch RuleBuild GoBinary CacheFile BoltLaws CacheFileProps CacheFileTheorems Srs SrsProps SrsBuild.

Local Open Scope string_scope.
Local Open Scope list_scope.
Local Open Scope Z_scope.

Definition RuleSetFormatSource : string := "source".
Definition RuleSetFormatBinary : string := "binary".

(** The part of the cache file that keeps rule-sets. *)
Class RuleSetStore {EX : Exceptions} (S : Type) := {
  store_Load : string -> S -> S * option SavedBinary;
  store_Save : string -> SavedBinary -> S -> S * option error;
}.

#[export] Instance cache_ruleSets {EX : Exceptions} {BO : Bolt} : RuleSetStore CacheFile := {|
  store_Load := LoadRuleSet;
  store_Save := SaveRuleSet;
|}.

Section Remote.
Context `{SE : SrsEnv} {S : Type} {ST : RuleSetStore S}.
Abbreviation HeadlessRuleOptions := (OptionTree HeadlessOptions unit) (only parsing).
Abbreviation HeadlessRule := (RuleTree (abstractDefaultRule Empty_set) unit) (only parsing).
(** [json.UnmarshalExtended] of [PlainRuleSetCompat], whether there is a network manager,
    and the registered validator. *)
Variables (UnmarshalSource : list Z -> result error (Z * list HeadlessRuleOptions)) (haveNetworkManager : bool)
  (validate : option (string -> RuleSetMetadata -> option error)).

Record RemoteOptions := mkRemoteOptions { ro_Tag : string; ro_Format : string; ro_DownloadDetour : string; ro_UpdateInterval : Z }.

Record RemoteRuleSet := mkRemote {
  rr_options : RemoteOptions;
  rr_updateInterval : Z;
  rr_set : RuleSet;
  rr_lastUpdated : Z;
  rr_lastEtag : string;
  rr_cacheFile : option S;
  rr_ticking : bool;
}.

(** [time.Time{}] *)
Definition second : Z := 1000000000.
Definition zeroTime : Z := -62135596800 * second.

Definition NewRemoteRuleSet (options : RemoteOptions) : RemoteRuleSet :=
  mkRemote options (if 0 <? options.(ro_UpdateInterval) then options.(ro_UpdateInterval) else 24 * 3600 * second)
    (mkRuleSet [] (mkRuleSetMetadata false false false false) 0) zeroTime "" None false.

Definition setRules (set : RuleSet) (s : RemoteRuleSet) : RemoteRuleSet :=
  mkRemote s.(rr_options) s.(rr_updateInterval) set s.(rr_lastUpdated) s.(rr_lastEtag) s.(rr_cacheFile) s.(rr_ticking).
Definition setLast (updated : Z) (etag : string) (s : RemoteRuleSet) : RemoteRuleSet :=
  mkRemote s.(rr_options) s.(rr_updateInterval) s.(rr_set) updated etag s.(rr_cacheFile) s.(rr_ticking).
Definition setCache (cache : option S) (s : RemoteRuleSet) : RemoteRuleSet :=
  mkRemote s.(rr_options) s.(rr_updateInterval) s.(rr_set) s.(rr_lastUpdated) s.(rr_lastEtag) cache s.(rr_ticking).

(** The rules of a file ([Upgrade] included). *)
Definition Upgrade (r : Z * list HeadlessRuleOptions) : result error (list HeadlessRuleOptions) :=
  if existsb (Z.eqb r.1) [RuleSetVersion1; RuleSetVersion2; RuleSetVersion3; RuleSetVersion4] then Ok r.2
  else Err (E_New ["unknown rule-set version: " +:+ itoa r.1]).

Definition decode (format : string) (content : list Z) : outcome (result error (list HeadlessRuleOptions)) :=
  match (if String.eqb format RuleSetFormatSource then Ret (UnmarshalSource content)
         else if String.eqb format RuleSetFormatBinary then Srs.Read false content
         else Ret (Err (E_New ["unknown rule-set format: "; format]))) with
  | Panic => Panic
  | Ret (Err e) => Ret (Err e)
  | Ret (Ok r) => Ret (Upgrade r)
  end.

Definition loadBytes (content : list Z) (s : RemoteRuleSet) : outcome (RemoteRuleSet * option error) :=
  match decode s.(rr_options).(ro_Format) content with
  | Panic => Panic
  | Ret (Err e) => Ret (s, Some e)
  | Ret (Ok plain) =>
      match reloadRules haveNetworkManager validate s.(rr_options).(ro_Tag) plain s.(rr_set) with
      | Panic => Panic
      | Ret (set, e) => Ret (setRules set s, e)
      end
  end.

(** ** Fetching *)

(** The answer of a server: a failure, or a status with its text, the body or the error
    of reading it, and the entity tag (empty when there is none). *)
Inductive Response :=
| Failed (e : error)
| Replied (statusCode : Z) (status : string) (body : result error (list Z)) (etag : string).

(** [If-None-Match], when there is a tag. *)
Definition ifNoneMatch (etag : string) : option string := if String.eqb etag "" then None else Some etag.

Definition saved (content : list Z) (s : RemoteRuleSet) : SavedBinary := mkSavedBinary content (s.(rr_lastUpdated) / second) s.(rr_lastEtag).

(** Not modified: the time is saved with what is there. *)
Definition notModified (now : Z) (s : RemoteRuleSet) : RemoteRuleSet :=
  let s := setLast now s.(rr_lastEtag) s in
  match s.(rr_cacheFile) with
  | None => s
  | Some cache =>
      let '(cache, savedRuleSet) := store_Load s.(rr_options).(ro_Tag) cache in
      match savedRuleSet with
      | None => setCache (Some cache) s
      | Some b => setCache (Some (store_Save s.(rr_options).(ro_Tag) (mkSavedBinary b.(Content) (now / second) b.(LastEtag)) cache).1) s
      end
  end.

(** A new body that was loaded. *)
Definition modified (now : Z) (content : list Z) (etag : string) (s : RemoteRuleSet) : RemoteRuleSet :=
  let s := setLast now (if String.eqb etag "" then s.(rr_lastEtag) else etag) s in
  match s.(rr_cacheFile) with
  | None => s
  | Some cache => setCache (Some (store_Save s.(rr_options).(ro_Tag) (saved content s) cache).1) s
  end.

(** [newRequest] is the error of [http.NewRequest]; errors of saving are logged. *)
Definition fetch (now : Z) (newRequest : option error) (answer : option string -> Response) (s : RemoteRuleSet) : outcome (RemoteRuleSet * option error) :=
  match newRequest with
  | Some e => Ret (s, Some e)
  | None =>
      match answer (ifNoneMatch s.(rr_lastEtag)) with
      | Failed e => Ret (s, Some e)
      | Replied statusCode status body etag =>
          if statusCode =? 200 then
            match body with
            | Err e => Ret (s, Some e)
            | Ok content =>
                match loadBytes content s with
                | Panic => Panic
                | Ret (s, Some e) => Ret (s, Some e)
                | Ret (s, None) => Ret (modified now content etag s, None)
                end
            end
          else if statusCode =? 304 then Ret (notModified now s, None)
          else Ret (s, Some (E_New ["unexpected status: "; status]))
      end
  end.

(** ** Life *)

(** [outbound] finds outbounds by their tag. *)
Definition StartContext (outbound : string -> bool) (cacheFile : option S) (now : Z) (newRequest : option error) (answer : option string -> Response)
    (s : RemoteRuleSet) : outcome (RemoteRuleSet * option error) :=
  let s := setCache cacheFile s in
  let detour := s.(rr_options).(ro_DownloadDetour) in
  if negb (String.eqb detour "") && negb (outbound detour) then Ret (s, Some (E_New ["download detour not found: "; detour]))
  else
    match (match cacheFile with
           | None => Ret (s, None)
           | Some cache =>
               let '(cache, savedSet) := store_Load s.(rr_options).(ro_Tag) cache in
               let s := setCache (Some cache) s in
               match savedSet with
               | None => Ret (s, None)
               | Some b =>
                   match loadBytes b.(Content) s with
                   | Panic => Panic
                   | Ret (s, Some e) => Ret (s, Some (E_Cause e ["restore cached rule-set"]))
                   | Ret (s, None) => Ret (setLast (b.(LastUpdated) * second) b.(LastEtag) s, None)
                   end
               end
           end) with
    | Panic => Panic
    | Ret (s, Some e) => Ret (s, Some e)
    | Ret (s, None) =>
        let ticking (s : RemoteRuleSet) := mkRemote s.(rr_options) s.(rr_updateInterval) s.(rr_set) s.(rr_lastUpdated) s.(rr_lastEtag) s.(rr_cacheFile) true in
        if s.(rr_lastUpdated) =? zeroTime then
          match fetch now newRequest answer s with
          | Panic => Panic
          | Ret (s, Some e) => Ret (s, Some (E_Cause e ["initial rule-set: "; s.(rr_options).(ro_Tag)]))
          | Ret (s, None) => Ret (ticking s, None)
          end
        else Ret (ticking s, None)
    end.

(** Rules nobody refers to are dropped. *)
Definition Cleanup (s : RemoteRuleSet) : RemoteRuleSet :=
  if s.(rr_set).(refs) =? 0 then setRules (mkRuleSet [] s.(rr_set).(metadata) s.(rr_set).(refs)) s else s.

Definition updateOnce (now : Z) (newRequest : option error) (answer : option string -> Response) (s : RemoteRuleSet) : outcome RemoteRuleSet :=
  match fetch now newRequest answer s with
  | Panic => Panic
  | Ret (s, Some _) => Ret s
  | Ret (s, None) => Ret (Cleanup s)
  end.

(** The start of the update loop. *)
Definition loopEnter (now : Z) (newRequest : option error) (answer : option string -> Response) (s : RemoteRuleSet) : outcome RemoteRuleSet :=
  if s.(rr_updateInterval) <? now - s.(rr_lastUpdated) then updateOnce now newRequest answer s else Ret s.

Definition Close (s : RemoteRuleSet) : RemoteRuleSet :=
  mkRemote s.(rr_options) s.(rr_updateInterval) (mkRuleSet [] s.(rr_set).(metadata) s.(rr_set).(refs)) s.(rr_lastUpdated) s.(rr_lastEtag) s.(rr_cacheFile) false.

(** ** The content a rule-set shows *)

(** The rules and the metadata of a file. *)
Definition rulesOf (format : string) (content : list Z) : outcome (result error (list HeadlessRule * RuleSetMetadata)) :=
  match decode format content with
  | Panic => Panic
  | Ret (Err e) => Ret (Err e)
  | Ret (Ok plain) =>
      match buildAll (NewHeadlessRule haveNetworkManager) (fun i e => E_Cause e ["parse rule_set.rules.["; itoa i; "]"]) 0 plain with
      | Panic => Panic
      | Ret (Err e) => Ret (Err e)
      | Ret (Ok rules) => Ret (Ok (rules, buildRuleSetMetadata plain))
      end
  end.

Definition refused (tag : string) (m : RuleSetMetadata) : option error := match validate with None => None | Some v => v tag m end.

(** The content is a rule-set that the validator takes. *)
Definition accepted (o : RemoteOptions) (content : list Z) : option (list HeadlessRule * RuleSetMetadata) :=
  match rulesOf o.(ro_Format) content with
  | Ret (Ok (rules, m)) => match refused o.(ro_Tag) m with None => Some (rules, m) | Some _ => None end
  | _ => None
  end.

Lemma loadBytes_spec content s : rulesOf s.(rr_options).(ro_Format) content <> Panic ->
  exists e, loadBytes content s = Ret (match accepted s.(rr_options) content with
    | Some (rules, m) => setRules (mkRuleSet rules m s.(rr_set).(refs)) s | None => s end, e) /\
    (e = None <-> is_Some (accepted s.(rr_options) content)).
Proof.
  intros Hp. unfold loadBytes, accepted, rulesOf in *. destruct (decode _ content) as [[plain|e]|]; [| |done].
  2:{ exists (Some e). split; [done|]. split; [done|]. by intros [? ?]. }
  assert (setRules (rr_set s) s = s) as Hid by (by destruct s). unfold reloadRules.
  destruct (buildAll _ _ _ _) as [[rules|e]|]; [| |done].
  - unfold refused. destruct (match validate with None => None | Some v => v _ _ end) as [e|]; [|by exists None].
    exists (Some e). rewrite Hid. split; [done|]. split; [done|]. by intros [? ?].
  - exists (Some e). rewrite Hid. split; [done|]. split; [done|]. by intros [? ?].
Qed.

(** What an answer does to a content and its tag: a body that is accepted replaces
    them, the tag only when there is one. *)
Definition spec_fetch (o : RemoteOptions) (answer : option string -> Response) (content : list Z) (etag : string) : list Z * string :=
  match answer (ifNoneMatch etag) with
  | Replied statusCode _ (Ok body) etag' =>
      if statusCode =? 200 then
        match accepted o body with Some _ => (body, if String.eqb etag' "" then etag else etag') | None => (content, etag) end
      else (content, etag)
  | _ => (content, etag)
  end.

(** What is relied on of the cache file. *)
Class RuleSetStoreLaws := {
  storeHealthy : S -> Prop;
  storable : string -> SavedBinary -> Prop;
  store_Load_pure : forall c tag b, storeHealthy c -> (store_Load tag c).2 = Some b -> (store_Load tag c).1 = c;
  store_Save_loads : forall c tag b, storeHealthy c -> storable tag b ->
    storeHealthy (store_Save tag b c).1 /\ (store_Load tag (store_Save tag b c).1).2 = Some b;
}.
Context {STL : RuleSetStoreLaws}.

(** The rule-set shows a content: its rules and metadata, its tag, and the cache file has
    the same. *)
Definition shows (s : RemoteRuleSet) (content : list Z) (etag : string) : Prop :=
  accepted s.(rr_options) content = Some (s.(rr_set).(rules), s.(rr_set).(metadata)) /\ s.(rr_lastEtag) = etag /\
  match s.(rr_cacheFile) with
  | None => True
  | Some c => storeHealthy c /\ exists t, (store_Load s.(rr_options).(ro_Tag) c).2 = Some (mkSavedBinary content t etag) /\ t * second <> zeroTime
  end.

Lemma time_not_zero now : 0 <= now -> now / second * second <> zeroTime.
Proof. intros Hn. assert (0 <= now / second) by (apply Z.div_pos; [done|reflexivity]). unfold zeroTime, second in *. lia. Qed.

Lemma notModified_shows now s content etag : shows s content etag -> 0 <= now -> storable s.(rr_options).(ro_Tag) (mkSavedBinary content (now / second) etag) ->
  shows (notModified now s) content etag.
Proof.
  intros (Ha & He & Hc) Hn Hst. destruct s as [o iv set lu le cache tick]; cbn in *. subst le. unfold notModified; cbn.
  destruct cache as [c|]; [|done]. destruct Hc as (Hh & t & Hl & _). pose proof (store_Load_pure c (ro_Tag o) _ Hh Hl) as Hp.
  destruct (store_Load (ro_Tag o) c) as [c1 b]; cbn in *. subst c1 b. cbn. split; [done|]. split; [done|]. cbn.
  destruct (store_Save_loads c (ro_Tag o) _ Hh Hst) as [Hh' Hl']. split; [done|]. exists (now / second). split; [done|by apply time_not_zero].
Qed.

Lemma modified_shows now s content etag0 etag rules m : accepted s.(rr_options) content = Some (rules, m) -> s.(rr_lastEtag) = etag0 -> 0 <= now ->
  (forall c, s.(rr_cacheFile) = Some c -> storeHealthy c) ->
  storable s.(rr_options).(ro_Tag) (mkSavedBinary content (now / second) (if String.eqb etag "" then etag0 else etag)) ->
  shows (modified now content etag (setRules (mkRuleSet rules m s.(rr_set).(refs)) s)) content (if String.eqb etag "" then etag0 else etag).
Proof.
  intros Ha He Hn Hc Hst. destruct s as [o iv set lu le cache tick]; cbn in *. subst le. unfold modified; cbn.
  destruct cache as [c|]; [|done]. split; [done|]. split; [done|]. cbn.
  destruct (store_Save_loads c (ro_Tag o) _ (Hc c eq_refl) Hst) as [Hh' Hl']. split; [done|]. exists (now / second). split; [done|by apply time_not_zero].
Qed.

Lemma fetch_shows now answer s content etag : let spec := spec_fetch s.(rr_options) answer content etag in
  shows s content etag -> 0 <= now ->
  (forall st body tag, answer (ifNoneMatch etag) = Replied 200 st (Ok body) tag -> rulesOf s.(rr_options).(ro_Format) body <> Panic) ->
  storable s.(rr_options).(ro_Tag) (mkSavedBinary spec.1 (now / second) spec.2) ->
  exists s' e, fetch now None answer s = Ret (s', e) /\ shows s' spec.1 spec.2 /\ s'.(rr_set).(refs) = s.(rr_set).(refs) /\ (e <> None -> s' = s).
Proof.
  intros spec Hs Hn Hp Hst. pose proof Hs as (Ha & He & Hc). unfold fetch. rewrite He. unfold spec, spec_fetch in *.
  destruct (answer (ifNoneMatch etag)) as [e|code st body tag]; [by eexists _, _|]. destruct (code =? 200) eqn:E2.
  - apply Z.eqb_eq in E2. subst code. destruct body as [body|e]; [|by eexists _, _]. destruct (loadBytes_spec body s) as (e & -> & Hiff); [by eapply Hp|].
    destruct (accepted (rr_options s) body) as [[rules m]|] eqn:Eacc.
    + assert (e = None) as -> by (by apply Hiff). eexists _, None. split; [done|]. split; [|split; [|done]].
      * apply (modified_shows now s body etag tag rules m Eacc He Hn); [|done]. intros c Ec. rewrite Ec in Hc. apply Hc.
      * unfold modified. destruct s as [o iv set lu le [c|] tick]; done.
    + destruct e as [e|]; [|by destruct (proj1 Hiff eq_refl)]. by eexists _, _.
  - destruct (code =? 304); [|eexists _, _; split; [done|]; split; [by destruct body|done]].
    eexists _, None. split; [done|]. split; [|split; [|done]].
    + destruct body; by apply notModified_shows.
    + unfold notModified. destruct s as [o iv set lu le [c|] tick]; cbn; [|done]. destruct (store_Load (ro_Tag o) c) as [c1 [b|]]; done.
Qed.

(** C25: an update of a rule-set that rules refer to: whatever the server answers, the
    rule-set then shows the content and tag the answer leaves, with the rules and the
    metadata of that content and the same in the cache file; a server that knows contents
    by their tags leaves its current content, when it is accepted; and a restart from the
    cache file shows the same content without a request. *)
Theorem remote_ruleset_refines now answer s content etag :
  let spec := spec_fetch s.(rr_options) answer content etag in
  shows s content etag -> 0 <= now -> 0 < s.(rr_set).(refs) ->
  (forall st body tag, answer (ifNoneMatch etag) = Replied 200 st (Ok body) tag -> rulesOf s.(rr_options).(ro_Format) body <> Panic) ->
  storable s.(rr_options).(ro_Tag) (mkSavedBinary spec.1 (now / second) spec.2) ->
  (exists s', updateOnce now None answer s = Ret s' /\ shows s' spec.1 spec.2) /\
  (forall (tagOf : list Z -> string) current, (forall c, tagOf c <> "") -> (forall c c', tagOf c = tagOf c' -> c = c') -> etag = tagOf content ->
    is_Some (accepted s.(rr_options) current) ->
    (forall h, answer h = if bool_decide (h = Some (tagOf current)) then Replied 304 "" (Ok []) "" else Replied 200 "" (Ok current) (tagOf current)) ->
    spec = (current, tagOf current)) /\
  (forall c outbound now' nr any, s.(rr_cacheFile) = Some c -> (s.(rr_options).(ro_DownloadDetour) = "" \/ outbound s.(rr_options).(ro_DownloadDetour) = true) ->
    exists s', StartContext outbound (Some c) now' nr any (NewRemoteRuleSet s.(rr_options)) = Ret (s', None) /\ shows s' content etag).
Proof.
  intros spec Hs Hn Hr Hp Hst. split; [|split].
  - destruct (fetch_shows now answer s content etag Hs Hn Hp Hst) as (s' & e & Hf & Hs' & Hr' & _). unfold updateOnce. rewrite Hf.
    destruct e as [e|]; [by exists s'|]. exists s'. split; [|done]. unfold Cleanup. by rewrite (proj2 (Z.eqb_neq _ 0)) by lia.
  - intros tagOf current Hne Hinj He Hacc Hans. unfold spec, spec_fetch. rewrite Hans. unfold ifNoneMatch. rewrite (proj2 (String.eqb_neq etag "")) by (rewrite He; apply Hne).
    case_bool_decide as Hc.
    + injection Hc as Hc. rewrite He in Hc. apply Hinj in Hc as ->. by rewrite He.
    + destruct Hacc as [x ->]. cbn. by rewrite (proj2 (String.eqb_neq (tagOf current) "")) by apply Hne.
  - intros c outbound now' nr any Ec Hd. destruct Hs as (Ha & He & Hc). rewrite Ec in Hc. destruct Hc as (Hh & t & Hl & Ht).
    destruct s as [o iv set lu le cache tick]; cbn in *. unfold StartContext; cbn.
    assert (negb (String.eqb (ro_DownloadDetour o) "") && negb (outbound (ro_DownloadDetour o)) = false) as ->.
    { destruct Hd as [-> | ->]; [done|by rewrite andb_false_r]. }
    pose proof (store_Load_pure c (ro_Tag o) _ Hh Hl) as Hpure. destruct (store_Load (ro_Tag o) c) as [c1 b] eqn:El; cbn in *. subst c1 b. cbn.
    set (s0 := setCache (Some c) _). destruct (loadBytes_spec content s0) as (e & -> & Hiff).
    { cbn. unfold accepted in Ha. cbn. by destruct (rulesOf (ro_Format o) content). }
    change (rr_options s0) with o in *. rewrite Ha in *. assert (e = None) as -> by (by apply Hiff). cbn.
    rewrite (proj2 (Z.eqb_neq _ _)) by done. eexists. split; [done|]. split; [done|]. split; [done|]. cbn. split; [done|]. exists t. by rewrite El.
Qed.

End Remote.

(** The cache file keeps rule-sets whose tag and size the database takes. *)
#[export, program] Instance cache_ruleSets_laws {RE : RuleEnv} {BO : Bolt} {BL : BoltLaws BO} : RuleSetStoreLaws (RE := RE) (S := CacheFile) := {|
  storeHealthy := fun c => exists t, openOn c t;
  storable := fun tag b => keyOk tag /\ savedOk b /\ valueOk (bytes (savedMarshal b));
|}.
Next Obligation.
  intros RE BO BL c tag b (t & E & Hh & _). unfold store_Load, cache_ruleSets, LoadRuleSet, view, transact, valueOr. rewrite E, healthy_damaged by done.
  unfold txBind, txGet, decodeWith. destruct (negb _); [done|]. destruct (String.eqb (default "" _) ""); [done|]. by destruct (savedUnmarshal _) as [[[]|]|].
Qed.
Next Obligation.
  intros RE BO BL c tag b (t & Ho) (Hk & Hb & Hv). destruct (SaveRuleSet_stores c t tag b Ho Hk Hb Hv) as (c' & t' & E & Ho' & _ & _ & _ & Hset & _).
  unfold store_Save, store_Load, cache_ruleSets. rewrite E. cbn [fst]. split; [by exists t'|]. pose proof (Hset tag) as Ht. cbn in Ht.
  unfold upd in Ht. by rewrite decide_True in Ht.
Qed.

(** ** Examples *)

Module RemoteDemo.
#[local] Existing Instance SrsDemo.srsRules.
#[local] Existing Instance SrsDemo.srsEnv.

(** A file of one byte is a rule for that port. *)
Definition unmarshal (content : list Z) : result error (Z * list (OptionTree HeadlessOptions unit)) :=
  match content with
  | [n] => Ok (1, [OptionRule "default" (set_ho_Port [n] noHeadlessOptions) "" [] false tt])
  | _ => Err (Errorf "bad file")
  end.

(** A cache file for one rule-set. *)
#[export] Instance oneStore : RuleSetStore (option SavedBinary) := {| store_Load := fun _ c => (c, c); store_Save := fun _ b _ => (Some b, None) |}.
#[export] Instance oneStore_laws : RuleSetStoreLaws (S := option SavedBinary).
Proof. refine {| storeHealthy := fun _ => True; storable := fun _ _ => True |}; [by intros c tag b _ ?|by intros c tag b _ _]. Defined.

Definition options : RemoteOptions := mkRemoteOptions "ads" "source" "" 0.

(** A server with a content and its tag; none is empty. *)
Definition serve (content : list Z) (etag : string) (h : option string) : Response :=
  if bool_decide (h = Some etag) then Replied 304 "" (Ok []) "" else Replied 200 "" (Ok content) etag.

Definition after (r : outcome (RemoteRuleSet * option error)) : RemoteRuleSet (S := option SavedBinary) := match r with Ret (s, _) => s | Panic => NewRemoteRuleSet options end.
Definition afterUpdate (r : outcome RemoteRuleSet) : RemoteRuleSet (S := option SavedBinary) := match r with Ret s => s | Panic => NewRemoteRuleSet options end.

(** A rule-set that has port 80 from the server and is referred to. *)
Definition first : RemoteRuleSet :=
  after (StartContext unmarshal false None (fun _ => true) (Some None) 1000000000 None (serve [80] "a") (NewRemoteRuleSet options)).
Definition started : RemoteRuleSet := setRules (mkRuleSet first.(rr_set).(rules) first.(rr_set).(metadata) 1) first.

Lemma remote_ruleset_refines_witness :
  (exists s', updateOnce unmarshal false None 2000000000 None (serve [81] "b") started = Ret s' /\ shows unmarshal false None s' [81] "b") /\
  shows unmarshal false None started [80] "a".
Proof.
  assert (shows unmarshal false None started [80] "a") as Hs by (split_and!; [reflexivity|reflexivity|split; [done|]; exists 1; split; [reflexivity|discriminate]]).
  split; [|done].
  destruct (remote_ruleset_refines unmarshal false None 2000000000 (serve [81] "b") started [80] "a") as (H & _ & _);
    [exact Hs|lia|reflexivity| |done|exact H].
  intros st body tag Hb. assert (body = [81]) as -> by (unfold serve in Hb; rewrite bool_decide_false in Hb by discriminate; congruence). discriminate.
Defined.

(** A tag that stays: the server changes to port 81 without a tag, and back to port 80
    with its old tag; the rule-set still asks with that tag, is told that nothing has
    changed, and keeps port 81. *)
Theorem stale_tag_keeps_rules :
  let s1 := afterUpdate (updateOnce unmarshal false None 2000000000 None (fun _ => Replied 200 "" (Ok [81]) "") started) in
  let s2 := afterUpdate (updateOnce unmarshal false None 3000000000 None (serve [80] "a") s1) in
  shows unmarshal false None s2 [81] "a".
Proof. split_and!; [reflexivity|reflexivity|]. split; [done|]. exists 3. split; [reflexivity|discriminate]. Qed.

End RemoteDemo.
