(* ===== verification/DNSFlight.v ===== *)
(** * Queries for the same question

    [Exchange] of [src/dns/client.go]: while a cacheable question is being asked, other
    calls for the same question wait until the first one is through
    ([cacheLock], [transportCacheLock]).  A transport may itself need the client, to
    find the address of its server, so calls are nested; the context of such a call
    has the timeout of the outer one, which ends its wait.

    Every goroutine is a stack of calls, the innermost first; one event is one
    critical step of the innermost call.  What the transport does is left open: it
    may make the nested calls it has left or return. *)

From S2P Require Import Prelude RuleItems.

Local Open Scope list_scope.

#[local] Instance Question_dec : EqDecision Question.
Proof. solve_decision. Defined.

#[local] Instance Question_countable : Countable Question.
Proof.
  refine (inj_countable' (fun q => (q.(Qname), q.(Qtype), q.(Qclass))) (fun x => mkQuestion x.1.1 x.1.2 x.2) _).
  by intros [].
Defined.

(** ** State *)

(** A call of [Exchange]: its question, whether it may use the cache, and the calls
    its transport makes. *)
Inductive Call := MkCall (question : Question) (cached : bool) (nested : list Call).

(** Before the lock; waiting for a channel; past the lock, with the channel it has
    made, if any. *)
Inductive Status :=
| Arriving (cached : bool)
| Waiting (cond : nat)
| Running (own : option nat).

Record Frame := mkFrame { frQuestion : Question; frStatus : Status; frPending : list Call }.

(** [cacheLock], the closed channels, the channels made so far, the goroutines. *)
Record Flight := mkFlight {
  cacheLock : gmap Question nat;
  closed : gset nat;
  made : nat;
  goroutines : list (list Frame);
}.

Definition set_goroutine (i : nat) (stack : list Frame) (s : Flight) : Flight :=
  mkFlight s.(cacheLock) s.(closed) s.(made) (<[ i := stack ]> s.(goroutines)).

(** ** Events *)

Inductive Event := Arrive | Wake | TimeOut | Ask | Return.

(** The deferred function: the lock is deleted and the channel closed. *)
Definition unlock (q : Question) (own : option nat) (s : Flight) : Flight :=
  match own with
  | None => s
  | Some cond => mkFlight (delete q s.(cacheLock)) ({[ cond ]} ∪ s.(closed)) s.(made) s.(goroutines)
  end.

Definition fire (e : Event) (i : nat) (s : Flight) : option Flight :=
  match s.(goroutines) !! i with
  | Some (mkFrame q status pending :: rest) =>
      match e, status with
      | Arrive, Arriving false => Some (set_goroutine i (mkFrame q (Running None) pending :: rest) s)
      | Arrive, Arriving true =>
          match s.(cacheLock) !! q with
          | Some cond => Some (set_goroutine i (mkFrame q (Waiting cond) pending :: rest) s)
          | None =>
              Some (mkFlight (<[ q := s.(made) ]> s.(cacheLock)) s.(closed) (S s.(made))
                      (<[ i := mkFrame q (Running (Some s.(made))) pending :: rest ]> s.(goroutines)))
          end
      | Wake, Waiting cond =>
          if bool_decide (cond ∈ s.(closed)) then Some (set_goroutine i (mkFrame q (Running None) pending :: rest) s) else None
      | TimeOut, Waiting _ => match rest with [] => None | _ => Some (set_goroutine i rest s) end
      | Ask, Running own =>
          match pending with
          | MkCall q' cached nested :: more =>
              Some (set_goroutine i (mkFrame q' (Arriving cached) nested :: mkFrame q (Running own) more :: rest) s)
          | [] => None
          end
      | Return, Running own => Some (unlock q own (set_goroutine i rest s))
      | _, _ => None
      end
  | _ => None
  end.

Definition step (s s' : Flight) : Prop := exists e i, fire e i s = Some s'.

(** Runs of [n] events. *)
Inductive run : nat -> Flight -> Flight -> Prop :=
| run_here s : run 0 s s
| run_step n s s' s'' : run n s s' -> step s' s'' -> run (S n) s s''.

Definition enter (c : Call) : list Frame := match c with MkCall q cached nested => [mkFrame q (Arriving cached) nested] end.
Definition launch (calls : list Call) : Flight := mkFlight ∅ ∅ 0 (map enter calls).

Definition finished (s : Flight) : Prop := Forall (fun stack => stack = []) s.(goroutines).

(** ** How many events are left *)

Fixpoint callWeight (c : Call) : nat :=
  match c with MkCall _ _ nested => 4 + sum_list_with callWeight nested end.

Definition pendingWeight (l : list Call) : nat := sum_list_with callWeight l.

Definition frameWeight (f : Frame) : nat :=
  match f.(frStatus) with Arriving _ => 3 | Waiting _ => 2 | Running _ => 1 end + pendingWeight f.(frPending).

Definition flightWeight (s : Flight) : nat := sum_list_with (sum_list_with frameWeight) s.(goroutines).

Lemma sum_list_with_insert {A} (f : A -> nat) (l : list A) i x y : l !! i = Some x ->
  (sum_list_with f (<[ i := y ]> l) + f x = sum_list_with f l + f y)%nat.
Proof.
  intros H. rewrite <- (take_drop_middle l i x) at 2 by done.
  rewrite insert_take_drop by (by eapply lookup_lt_Some). rewrite !sum_list_with_app. cbn. lia.
Qed.

Lemma unlock_goroutines q own s : (unlock q own s).(goroutines) = s.(goroutines).
Proof. by destruct own. Qed.

(** Every event leaves fewer. *)
Lemma fire_weight e i s s' : fire e i s = Some s' -> (flightWeight s' < flightWeight s)%nat.
Proof.
  unfold fire. destruct (goroutines s !! i) as [[|[q status pending] rest]|] eqn:Hi; [done| |done].
  assert (Hw : forall stack, (sum_list_with frameWeight stack < sum_list_with frameWeight (mkFrame q status pending :: rest))%nat ->
    (sum_list_with (sum_list_with frameWeight) (<[ i := stack ]> (goroutines s)) < flightWeight s)%nat).
  { intros stack Hs. pose proof (sum_list_with_insert (sum_list_with frameWeight) _ i _ stack Hi). unfold flightWeight. lia. }
  destruct e, status as [[]|cond|own]; try done.
  - destruct (cacheLock s !! q); intros [= <-]; apply Hw; cbn; lia.
  - intros [= <-]. apply Hw. cbn. lia.
  - case_bool_decide; [|done]. intros [= <-]. apply Hw. cbn. lia.
  - destruct rest as [|f rest]; [done|]. intros [= <-]. apply Hw. cbn. lia.
  - destruct pending as [|[q' cached nested] more]; [done|]. intros [= <-]. apply Hw. cbn. unfold pendingWeight. lia.
  - intros [= <-]. unfold flightWeight at 1. rewrite unlock_goroutines. apply Hw. cbn. lia.
Qed.

Lemma run_weight n s s' : run n s s' -> (n + flightWeight s' <= flightWeight s)%nat.
Proof.
  induction 1 as [|n s s' s'' _ IH (e & i & Hf)]; [done|]. apply fire_weight in Hf. lia.
Qed.

(** ** No call is left waiting *)

Definition inFlight (s : Flight) (q : Question) (status : Status) : Prop :=
  exists i stack f, s.(goroutines) !! i = Some stack /\ f ∈ stack /\ f.(frQuestion) = q /\ f.(frStatus) = status.

Record flightOk (s : Flight) : Prop := {
  fo_owner : forall q cond, s.(cacheLock) !! q = Some cond -> inFlight s q (Running (Some cond));
  fo_waiting : forall q cond, inFlight s q (Waiting cond) ->
    cond ∈ s.(closed) \/ exists q', inFlight s q' (Running (Some cond));
}.

Definition inStack (stack : list Frame) (q : Question) (status : Status) : Prop :=
  exists f, f ∈ stack /\ f.(frQuestion) = q /\ f.(frStatus) = status.

Lemma inFlight_after s s' i old new q status : s.(goroutines) !! i = Some old -> s'.(goroutines) = <[ i := new ]> s.(goroutines) ->
  inFlight s' q status -> inStack new q status \/ inFlight s q status.
Proof.
  intros Hi Hs (j & stack & f & Hj & Hf). rewrite Hs in Hj.
  apply list_lookup_insert_Some in Hj as [(<- & -> & _)|[_ Hj]]; [left; by exists f|right; by exists j, stack, f].
Qed.

Lemma inFlight_kept s s' i old new q status : s.(goroutines) !! i = Some old -> s'.(goroutines) = <[ i := new ]> s.(goroutines) ->
  (inStack old q status -> inStack new q status) -> inFlight s q status -> inFlight s' q status.
Proof.
  intros Hi Hs Hin (j & stack & f & Hj & Hf). destruct (decide (i = j)) as [<-|Hne].
  - rewrite Hi in Hj. injection Hj as <-. destruct Hin as (f' & Hf'); [by exists f|].
    exists i, new, f'. split; [|done]. rewrite Hs. apply list_lookup_insert_eq. by eapply lookup_lt_Some.
  - exists j, stack, f. split; [|done]. rewrite Hs. by rewrite list_lookup_insert_ne.
Qed.

Lemma inFlight_top s i f rest : s.(goroutines) !! i = Some (f :: rest) -> inFlight s f.(frQuestion) f.(frStatus).
Proof. intros H. exists i, (f :: rest), f. repeat split; [done|set_solver]. Qed.

(** The innermost frame changes its status and no lock is given up. *)
Lemma flightOk_replace s s' i f f' pre rest : s.(goroutines) !! i = Some (f :: rest) ->
  s'.(goroutines) = <[ i := pre ++ f' :: rest ]> s.(goroutines) -> s'.(closed) = s.(closed) ->
  (forall g, g ∈ pre -> exists b, g.(frStatus) = Arriving b) -> f'.(frQuestion) = f.(frQuestion) ->
  (forall cond, f.(frStatus) = Running (Some cond) -> f'.(frStatus) = Running (Some cond)) ->
  (forall cond, f'.(frStatus) = Waiting cond -> s.(cacheLock) !! f.(frQuestion) = Some cond) ->
  (forall q cond, s'.(cacheLock) !! q = Some cond ->
     s.(cacheLock) !! q = Some cond \/ (q = f.(frQuestion) /\ f'.(frStatus) = Running (Some cond))) ->
  flightOk s -> flightOk s'.
Proof.
  intros Hi Hs Hc Hpre Hq Hown Hwait Hlock [H1 H2].
  assert (Hkeep : forall q cond, inFlight s q (Running (Some cond)) -> inFlight s' q (Running (Some cond))).
  { intros q cond. apply (inFlight_kept _ _ _ _ _ _ _ Hi Hs). intros (g & Hg & Hgq & Hgs).
    apply elem_of_cons in Hg as [->|Hg].
    - exists f'. split; [set_solver|]. split; [congruence|]. by apply Hown.
    - exists g. split; [set_solver|done]. }
  split.
  - intros q cond Hl. destruct (Hlock _ _ Hl) as [Hl'|[-> Hf']]; [by apply Hkeep, H1|].
    exists i, (pre ++ f' :: rest), f'. rewrite Hs. split; [apply list_lookup_insert_eq; by eapply lookup_lt_Some|].
    split; [set_solver|]. by split.
  - intros q cond Hin. rewrite Hc.
    assert (Hold : inFlight s q (Waiting cond) \/ s.(cacheLock) !! f.(frQuestion) = Some cond).
    { destruct (inFlight_after _ _ _ _ _ _ _ Hi Hs Hin) as [(g & Hg & Hgq & Hgs)|]; [|by left].
      apply elem_of_app in Hg as [Hg|[->|Hg]%elem_of_cons].
      - destruct (Hpre g Hg) as [b Hb]. congruence.
      - right. by apply Hwait.
      - left. exists i, (f :: rest), g. repeat split; [done|set_solver|done..]. }
    destruct Hold as [Hold|Hold].
    + destruct (H2 _ _ Hold) as [|[q' Hq']]; [by left|right; exists q'; by apply Hkeep].
    + right. exists f.(frQuestion). by apply Hkeep, H1.
Qed.

(** The innermost call is over: its lock, if any, is gone and its channel closed. *)
Lemma flightOk_pop s i f rest own : s.(goroutines) !! i = Some (f :: rest) ->
  (forall cond, f.(frStatus) = Running (Some cond) -> own = Some cond) ->
  (forall cond, own = Some cond -> f.(frStatus) = Running (Some cond)) ->
  flightOk s -> flightOk (unlock f.(frQuestion) own (set_goroutine i rest s)).
Proof.
  intros Hi Hown Hown2 [H1 H2]. set (s' := unlock _ _ _).
  assert (Hs : s'.(goroutines) = <[ i := rest ]> s.(goroutines)) by (unfold s'; by rewrite unlock_goroutines).
  split.
  - intros q cond Hl. assert (Hl' : s.(cacheLock) !! q = Some cond /\ (own <> None -> q <> f.(frQuestion))).
    { unfold s' in Hl. destruct own; cbn in Hl; [|done]. apply lookup_delete_Some in Hl as [? ?]. done. }
    destruct Hl' as [Hl' Hne]. apply (inFlight_kept _ _ _ _ _ _ _ Hi Hs); [|by apply H1].
    intros (g & Hg & Hgq & Hgs). apply elem_of_cons in Hg as [->|Hg]; [|by exists g].
    exfalso. specialize (Hown _ Hgs). subst own. by apply Hne.
  - intros q cond Hin.
    assert (Hold : inFlight s q (Waiting cond)).
    { destruct (inFlight_after _ _ _ _ _ _ _ Hi Hs Hin) as [(g & Hg & Hgq & Hgs)|]; [|done].
      exists i, (f :: rest), g. repeat split; [done|set_solver|done..]. }
    destruct (decide (own = Some cond)) as [->|Hne]; [left; cbn; set_solver|].
    destruct (H2 _ _ Hold) as [Hc|[q' Hq']]; [left; unfold s'; destruct own; cbn; set_solver|].
    right. exists q'. apply (inFlight_kept _ _ _ _ _ _ _ Hi Hs); [|done].
    intros (g & Hg & Hgq & Hgs). apply elem_of_cons in Hg as [->|Hg]; [|by exists g].
    exfalso. by specialize (Hown _ Hgs).
Qed.

Lemma fire_ok e i s s' : fire e i s = Some s' -> flightOk s -> flightOk s'.
Proof.
  unfold fire. destruct (goroutines s !! i) as [[|[q status pending] rest]|] eqn:Hi; [done| |done].
  destruct e, status as [[]|cond|own]; try done.
  - destruct (cacheLock s !! q) as [cond|] eqn:Hl; intros [= <-].
    + apply (flightOk_replace _ _ i _ (mkFrame q (Waiting cond) pending) [] rest Hi); try done; cbn; [set_solver|congruence|by left].
    + apply (flightOk_replace _ _ i _ (mkFrame q (Running (Some (made s))) pending) [] rest Hi); try done; cbn; [set_solver|].
      intros q' cond [[-> <-]|[_ H]]%lookup_insert_Some; [by right|by left].
  - intros [= <-].
    apply (flightOk_replace _ _ i _ (mkFrame q (Running None) pending) [] rest Hi); try done; cbn; [set_solver|by left].
  - case_bool_decide; [|done]. intros [= <-].
    apply (flightOk_replace _ _ i _ (mkFrame q (Running None) pending) [] rest Hi); try done; cbn; [set_solver|by left].
  - destruct rest as [|f rest]; [done|]. intros [= <-].
    by apply (flightOk_pop s i (mkFrame q (Waiting cond) pending) (f :: rest) None Hi).
  - destruct pending as [|[q' cached nested] more]; [done|]. intros [= <-].
    apply (flightOk_replace _ _ i _ (mkFrame q (Running own) more) [mkFrame q' (Arriving cached) nested] rest Hi); try done; cbn;
      [|by left]. intros g ->%list_elem_of_singleton. by eexists.
  - intros [= <-]. apply (flightOk_pop s i (mkFrame q (Running own) pending) rest own Hi); cbn; congruence.
Qed.

Lemma launch_ok calls : flightOk (launch calls).
Proof.
  split; [done|]. intros q cond (i & stack & f & Hi & Hf & _ & Hs). cbn in Hi.
  apply list_lookup_fmap_Some in Hi as ([q' cached nested] & -> & _). cbn in Hf.
  apply list_elem_of_singleton in Hf as ->. done.
Qed.

Lemma run_ok n s s' : run n s s' -> flightOk s -> flightOk s'.
Proof. induction 1 as [|n s s' s'' _ IH (e & i & Hf)]; [done|]. intros Hok. eapply fire_ok; [done|by apply IH]. Qed.

(** A goroutine that is not done goes on by itself unless its innermost call waits;
    a nested call does not wait for ever. *)
Lemma goroutine_steps s i f rest : s.(goroutines) !! i = Some (f :: rest) ->
  (forall cond, f.(frStatus) = Waiting cond -> rest <> [] \/ cond ∈ s.(closed)) -> exists s', step s s'.
Proof.
  intros Hi Hw. destruct f as [q status pending].
  destruct status as [[]|cond|own].
  - destruct (cacheLock s !! q) eqn:Hl; eexists _, Arrive, i; unfold fire; rewrite Hi, Hl; done.
  - eexists _, Arrive, i. unfold fire. rewrite Hi. done.
  - destruct (Hw cond eq_refl) as [Hr|Hc].
    + eexists _, TimeOut, i. unfold fire. rewrite Hi. by destruct rest.
    + eexists _, Wake, i. unfold fire. rewrite Hi, bool_decide_true by done. done.
  - eexists _, Return, i. unfold fire. rewrite Hi. done.
Qed.

Lemma flight_progress s : flightOk s -> ~ finished s -> exists s', step s s'.
Proof.
  intros [H1 H2] Hn. apply not_Forall_Exists in Hn; [|apply _].
  apply Exists_exists in Hn as (stack & Hin & Hne). apply list_elem_of_lookup in Hin as [i Hi].
  destruct stack as [|f rest]; [by destruct Hne|].
  destruct (frStatus f) as [b|cond|own] eqn:Hf; [by eapply goroutine_steps; [done|congruence]| |by eapply goroutine_steps; [done|congruence]].
  pose proof (inFlight_top _ _ _ _ Hi) as Htop. rewrite Hf in Htop.
  destruct (H2 _ _ Htop) as [Hc|(q' & j & stack & g & Hj & Hg & _ & Hgs)].
  { eapply goroutine_steps; [done|]. intros cond' Hc'. right. congruence. }
  destruct stack as [|f' rest']; [by apply not_elem_of_nil in Hg|].
  eapply goroutine_steps; [exact Hj|]. intros cond' Hf'. left.
  apply elem_of_cons in Hg as [->|Hg]; [congruence|]. intros ->. by apply not_elem_of_nil in Hg.
Qed.

(** C37: the locks of the DNS client do not make calls for the same question block each
    other for ever: whatever questions are asked at the same time, whatever nested
    calls their transports make, and in whatever order the goroutines run, every run
    ends within a bound given by the calls, and it cannot end before all of them have
    returned.  A transport that is asked can always return, and a nested call that
    waits can always be ended by the timeout of the call around it. *)
Theorem queries_all_return calls n s : run n (launch calls) s ->
  (n <= flightWeight (launch calls))%nat /\ ((exists s', step s s') \/ finished s).
Proof.
  intros Hrun. split; [apply run_weight in Hrun; lia|].
  apply run_ok in Hrun; [|apply launch_ok].
  destruct (decide (finished s)) as [Hf|Hf]; [by right|left; by apply flight_progress].
Qed.

(** A query that leads to itself waits for itself: when the transport that is
    asked a question asks the client the same question, the inner call waits for the
    channel of the outer one, and nothing but the timeout can go on; the check for
    loops comes after the wait. *)
Theorem loop_waits_for_itself q : exists n s, run n (launch [MkCall q true [MkCall q true []]]) s /\
  (exists s', fire TimeOut 0 s = Some s') /\ forall e i s', fire e i s = Some s' -> e = TimeOut.
Proof.
  eexists 3%nat, _. split.
  - eapply run_step; [eapply run_step; [eapply run_step; [apply run_here|]|]|].
    + exists Arrive, 0%nat. reflexivity.
    + exists Ask, 0%nat. reflexivity.
    + exists Arrive, 0%nat. unfold fire. cbn. rewrite lookup_insert_eq. reflexivity.
  - split; [by eexists|]. intros e i s'. unfold fire. destruct i as [|i]; [|by destruct i]. cbn.
    destruct e; [done| |done..]. by rewrite bool_decide_false by set_solver.
Qed.

Module FlightDemo.

(** Two goroutines ask the same question and one another, which needs the first one. *)
Definition a : Question := mkQuestion "a." 1 1.
Definition b : Question := mkQuestion "b." 1 1.
Definition calls : list Call := [MkCall a true [MkCall b true []]; MkCall a true []; MkCall b true [MkCall a true []]].

(** The first goroutine has the lock and asks the other question, for which the
    second one has the lock already; the third waits for the first. *)
Lemma queries_all_return_witness :
  exists s, run 5 (launch calls) s /\ (5 <= flightWeight (launch calls))%nat /\ ((exists s', step s s') \/ finished s).
Proof.
  eexists. refine ((fun Hrun => conj Hrun (queries_all_return calls 5 _ Hrun)) _).
  eapply run_step; [eapply run_step; [eapply run_step; [eapply run_step; [eapply run_step; [apply run_here|]|]|]|]|].
  - by exists Arrive, 0%nat.
  - by exists Arrive, 2%nat.
  - by exists Arrive, 1%nat.
  - by exists Ask, 0%nat.
  - by exists Arrive, 0%nat.
Defined.

End FlightDemo.
