(* ===== verification/DNSClient.v ===== *)
(** * The DNS client

    [src/dns/client.go], [extension_edns0_subnet.go] and [rcode.go]: the client asks a
    transport, checks and caches what it answers, and remembers rejected answers.

    What a transport answers and how long it takes is up to a [World] the client is
    run in.  The cache is an interface of a library ([FreeLRU]), the store of rejected
    answers one of the program ([RDRCStore]), which the cache file implements.

    Each call of [Exchange] is one transition; how calls for the same question wait
    for each other is in [DNSFlight].  A response that is put in the cache is not
    copied: what the code changes of it afterwards is changed in the cache too, so
    the cache gets the message as it is returned.  Responses taken from the cache are
    copies. *)

From S2P Require Import Prelude GoStrings GoTime RuleItems RuleMatch RuleBuild DNSRules DNSRouter DNSLookup FakeIP CacheFile.

Local Open Scope string_scope.
Local Open Scope list_scope.
Local Open Scope Z_scope.

#[export] Instance Question_eq_dec : EqDecision Question.
Proof. solve_decision. Defined.

Definition RcodeNameError : Z := 3.
Definition TypeOPT : Z := 41.
Definition TypeCNAME : Z := 5.

(** [transportCacheKey] *)
Record transportCacheKey := mkTransportCacheKey { tkQuestion : Question; tkTransportTag : string }.

#[export] Instance transportCacheKey_eq_dec : EqDecision transportCacheKey.
Proof. solve_decision. Defined.

(** ** What the client is built on *)

(** [freelru.Cache] of [sing], with messages as values; the clock is an argument. *)
Class FreeLRU := {
  LRU : Type -> Type;
  lru_New : forall {K} `{EqDecision K}, Z -> LRU K;
  lru_Add : forall {K} `{EqDecision K}, K -> Msg -> LRU K -> LRU K;
  lru_AddWithLifetime : forall {K} `{EqDecision K}, K -> Msg -> Z -> Z -> LRU K -> LRU K;
  lru_Get : forall {K} `{EqDecision K}, K -> Z -> LRU K -> LRU K * option Msg;
  lru_GetWithLifetime : forall {K} `{EqDecision K}, K -> Z -> LRU K -> LRU K * option (Msg * Z);
  lru_Remove : forall {K} `{EqDecision K}, K -> LRU K -> LRU K;
  lru_Purge : forall {K} `{EqDecision K}, LRU K -> LRU K;
}.

(** [adapter.RDRCStore]; the clock is an argument. *)
Class RDRCStore (R : Type) := {
  rdrc_LoadRDRC : string -> string -> Z -> Z -> R -> R * bool;
  rdrc_SaveRDRCAsync : string -> string -> Z -> R -> R;
}.

#[export] Instance cache_rdrc {EX : Exceptions} {BO : Bolt} : RDRCStore CacheFile := {|
  rdrc_LoadRDRC := LoadRDRC;
  rdrc_SaveRDRCAsync := SaveRDRCAsync;
|}.

Class ClientEnv `{RE : RuleEnv} := {
  (** transports *)
  World : Type;
  worldNow : World -> Z;
  transportExchange : World -> DNSTransport -> Msg -> World * result error Msg;
  (** [errors.As] with a [RcodeError]; a [RcodeError] as an error *)
  asRcodeError : error -> option Z;
  rcodeError : Z -> error;
  (** [github.com/miekg/dns] *)
  IsEdns0 : Msg -> option RR;
  opt_Version : RR -> Z;
  opt_UDPSize : RR -> Z;
  opt_Do : RR -> bool;
  SetEdns0 : Z -> bool -> Msg -> Msg;
  dnsIsFqdn : string -> bool;
  dnsFqdn : string -> string;
  (** [netip.Prefix] *)
  subnetAddr : Prefix -> Addr;
  subnetBits : Prefix -> Z;
  (** the error of a [task.Group] of two *)
  taskError : option error -> option error -> option error;
}.

(** ** Messages made and changed by the client *)

Definition set_Id (id : Z) (m : Msg) : Msg :=
  mkMsg id m.(msgResponse) m.(msgAuthoritative) m.(msgRecursionDesired) m.(msgRecursionAvailable) m.(Rcode)
    m.(msgQuestion) m.(Answer) m.(Ns) m.(Extra).
Definition set_Records (answer ns extra : list RR) (m : Msg) : Msg :=
  mkMsg m.(msgId) m.(msgResponse) m.(msgAuthoritative) m.(msgRecursionDesired) m.(msgRecursionAvailable) m.(Rcode)
    m.(msgQuestion) answer ns extra.

(** The records of a message, in the order the loops go through them. *)
Definition records (m : Msg) : list RR := m.(Answer) ++ m.(Ns) ++ m.(Extra).
Definition Ttl (r : RR) : Z := r.(rrHeader).(hdrTtl).
Definition set_Ttl (ttl : Z) (r : RR) : RR :=
  let h := r.(rrHeader) in mkRR (mkHeader h.(hdrName) h.(hdrRrtype) h.(hdrClass) ttl) r.(rrData).
Definition mapTtl (f : Z -> Z) (m : Msg) : Msg :=
  let g := map (fun r => set_Ttl (f (Ttl r)) r) in set_Records (g m.(Answer)) (g m.(Ns)) (g m.(Extra)) m.

Definition FixedResponseStatus (message : Msg) (rcode : Z) : Msg :=
  mkMsg message.(msgId) true true true true rcode message.(msgQuestion) [] [] [].

(** The header of the responses the program makes itself. *)
Definition fixed (id : Z) (question : Question) (answer : list RR) : Msg :=
  mkMsg id true true true true RcodeSuccess [question] answer [] [].

Definition FixedResponse (id : Z) (question : Question) (addresses : list Addr) (timeToLive : Z) : Msg :=
  fixed id question
    (omap (fun address =>
       if Is4 address && (question.(Qtype) =? TypeA)
       then Some (mkRR (mkHeader question.(Qname) TypeA ClassINET timeToLive) (RD_A (AsSlice address)))
       else if Is6 address && (question.(Qtype) =? TypeAAAA)
       then Some (mkRR (mkHeader question.(Qname) TypeAAAA ClassINET timeToLive) (RD_AAAA (AsSlice address)))
       else None) addresses).

Definition FixedResponseCNAME (id : Z) (question : Question) (record : string) (timeToLive : Z) : Msg :=
  fixed id question [mkRR (mkHeader question.(Qname) TypeCNAME ClassINET timeToLive) (RD_CNAME record)].

(** The headers of the next two say that the record is an address. *)
Definition FixedResponseTXT (id : Z) (question : Question) (texts : list string) (timeToLive : Z) : Msg :=
  fixed id question [mkRR (mkHeader question.(Qname) TypeA ClassINET timeToLive) (RD_TXT texts)].

Definition FixedResponseMX (id : Z) (question : Question) (mxs : list (Z * string)) (timeToLive : Z) : Msg :=
  fixed id question
    (map (fun '(pref, host) => mkRR (mkHeader question.(Qname) TypeA ClassINET timeToLive) (RD_MX pref host)) mxs).

(** [extractNegativeTTL]: of the first SOA record. *)
Fixpoint extractNegativeTTL (ns : list RR) : option Z :=
  match ns with
  | [] => None
  | record :: ns =>
      match record.(rrData) with
      | RD_SOA _ soaMinimum => Some (if Ttl record <? soaMinimum then Ttl record else soaMinimum)
      | _ => extractNegativeTTL ns
      end
  end.

(** One step of the loops that look for the least time to live. *)
Definition leastTtl (timeToLive ttl : Z) : Z :=
  if (timeToLive =? 0) || ((0 <? ttl) && (ttl <? timeToLive)) then ttl else timeToLive.

(** The time to live of a response: that of the SOA record of an empty answer, or
    the least one. *)
Definition responseTtl (response : Msg) : Z :=
  let timeToLive := if nonempty response.(Answer) then 0 else default 0 (extractNegativeTTL response.(Ns)) in
  if timeToLive =? 0 then foldl leastTtl 0 (map Ttl (records response)) else timeToLive.

(** Hints of the family a strategy excludes are taken out of HTTPS records. *)
Definition keepHint (strategy : Z) (v : SVCBValue) : bool :=
  match v with
  | SVCBIPv6Hint _ => negb (strategy =? DomainStrategyIPv4Only)
  | SVCBIPv4Hint _ => strategy =? DomainStrategyIPv4Only
  | SVCBOther => true
  end.

Definition filterHints (question : Question) (strategy : Z) (response : Msg) : Msg :=
  if (question.(Qtype) =? TypeHTTPS) && ((strategy =? DomainStrategyIPv4Only) || (strategy =? DomainStrategyIPv6Only)) then
    set_Records (map (fun r => match r.(rrData) with
                               | RD_HTTPS text value => mkRR r.(rrHeader) (RD_HTTPS text (List.filter (keepHint strategy) value))
                               | _ => r
                               end) response.(Answer)) response.(Ns) response.(Extra) response
  else response.

(** ** Client subnets ([extension_edns0_subnet.go]) *)

Fixpoint findSubnet (i : nat) (options : list EDNS0) : option nat :=
  match options with
  | [] => None
  | EDNS0_SUBNET _ _ _ _ :: _ => Some i
  | _ :: options => findSubnet (S i) options
  end.

(** The loop [findExists]: the index of the OPT record and of its subnet option.  A
    record of another type makes it forget the OPT record before. *)
Fixpoint findExists (i : nat) (extra : list RR) (optRecord : option nat) : option nat * option nat :=
  match extra with
  | [] => (optRecord, None)
  | record :: extra =>
      match record.(rrData) with
      | RD_OPT options =>
          match findSubnet 0 options with
          | Some j => (Some i, Some j)
          | None => findExists (S i) extra (Some i)
          end
      | _ => findExists (S i) extra None
      end
  end.

Section Client.
Context `{CE : ClientEnv} {FL : FreeLRU} {R : Type} {RS : RDRCStore R}.

Definition subnetOption (clientSubnet : Prefix) (scope : Z) : EDNS0 :=
  EDNS0_SUBNET (if Is4 (subnetAddr clientSubnet) then 1 else 2) (subnetBits clientSubnet mod 2 ^ 8) scope
    (AsSlice (subnetAddr clientSubnet)).

Definition updateOptions (clientSubnet : Prefix) (j : option nat) (options : list EDNS0) : list EDNS0 :=
  match j with
  | None => options ++ [subnetOption clientSubnet 0]
  | Some j => alter (fun o => match o with EDNS0_SUBNET _ _ scope _ => subnetOption clientSubnet scope | o => o end) j options
  end.

(** The message is copied before it is changed. *)
Definition SetClientSubnet (message : Msg) (clientSubnet : Prefix) : Msg :=
  let extra :=
    match findExists 0 message.(Extra) None with
    | (None, _) => message.(Extra) ++ [mkRR (mkHeader "." TypeOPT 0 0) (RD_OPT [subnetOption clientSubnet 0])]
    | (Some i, j) =>
        alter (fun r => match r.(rrData) with
                        | RD_OPT options => mkRR r.(rrHeader) (RD_OPT (updateOptions clientSubnet j options))
                        | _ => r
                        end) i message.(Extra)
    end in
  set_Records message.(Answer) message.(Ns) extra message.

(** ** State *)

Record Client := mkClient {
  cl_disableCache : bool;
  cl_disableExpire : bool;
  cl_independentCache : bool;
  cl_clientSubnet : option Prefix;
  cl_rdrc : option R;
  cl_cache : option (LRU Question);
  cl_transportCache : option (LRU transportCacheKey);
}.

Definition set_cache (l : LRU Question) (c : Client) : Client :=
  mkClient c.(cl_disableCache) c.(cl_disableExpire) c.(cl_independentCache) c.(cl_clientSubnet) c.(cl_rdrc) (Some l) c.(cl_transportCache).
Definition set_transportCache (l : LRU transportCacheKey) (c : Client) : Client :=
  mkClient c.(cl_disableCache) c.(cl_disableExpire) c.(cl_independentCache) c.(cl_clientSubnet) c.(cl_rdrc) c.(cl_cache) (Some l).
Definition set_rdrc (r : option R) (c : Client) : Client :=
  mkClient c.(cl_disableCache) c.(cl_disableExpire) c.(cl_independentCache) c.(cl_clientSubnet) r c.(cl_cache) c.(cl_transportCache).

(** [ClientOptions], without the timeout, the store and the logger. *)
Record ClientOptions := mkClientOptions {
  clo_DisableCache : bool;
  clo_DisableExpire : bool;
  clo_IndependentCache : bool;
  clo_CacheCapacity : Z;
  clo_ClientSubnet : option Prefix;
}.

Definition NewClient (options : ClientOptions) : Client :=
  let cacheCapacity := if options.(clo_CacheCapacity) <? 1024 then 1024 else options.(clo_CacheCapacity) in
  let caching := negb options.(clo_DisableCache) in
  mkClient options.(clo_DisableCache) options.(clo_DisableExpire) options.(clo_IndependentCache) options.(clo_ClientSubnet) None
    (if caching && negb options.(clo_IndependentCache) then Some (lru_New cacheCapacity) else None)
    (if caching && options.(clo_IndependentCache) then Some (lru_New cacheCapacity) else None).

(** [Start], with what [initRDRCFunc] answers, if it is set. *)
Definition Client_Start (init : option (option R)) (c : Client) : Client :=
  match init with Some rdrc => set_rdrc rdrc c | None => c end.

Definition ErrNotCached : error := E_New ["not cached"].
Definition ErrResponseRejected : error := E_New ["response rejected"].
Definition ErrResponseRejectedCached : error := E_Extend ErrResponseRejected ["cached"].

(** ** The cache *)

(** An operation on the cache the client uses, under its key; the cache it does not
    use is nil. *)
Definition onCache {A} (f : forall {K} `{EqDecision K}, K -> LRU K -> LRU K * A) (question : Question) (transport : DNSTransport)
    (c : Client) : outcome (Client * A) :=
  if negb c.(cl_independentCache) then
    match c.(cl_cache) with
    | None => Panic
    | Some l => let '(l, a) := f question l in Ret (set_cache l c, a)
    end
  else
    match c.(cl_transportCache) with
    | None => Panic
    | Some l => let '(l, a) := f (mkTransportCacheKey question transport.(transportTag)) l in Ret (set_transportCache l c, a)
    end.

Definition storeCache (transport : DNSTransport) (question : Question) (message : Msg) (timeToLive now : Z) (c : Client)
  : outcome Client :=
  if timeToLive =? 0 then Ret c
  else
    fst <$> onCache (fun K _ key l =>
      (if c.(cl_disableExpire) then lru_Add key message l
       else lru_AddWithLifetime key message (second * timeToLive) now l, tt)) question transport c.

(** What is left of the times to live of a cached message. *)
Definition aged (response : Msg) (nowTTL : Z) : Msg :=
  let originTTL := foldl leastTtl 0 (map Ttl (records response)) in
  if 0 <? originTTL then mapTtl (fun ttl => wrapu 32 (ttl - wrapu 32 (originTTL - nowTTL))) response
  else mapTtl (fun _ => wrapu 32 nowTTL) response.

Definition loadResponse (question : Question) (transport : DNSTransport) (now : Z) (c : Client)
  : outcome (Client * option (Msg * Z)) :=
  if c.(cl_disableExpire) then
    match onCache (fun K _ key l => lru_Get key now l) question transport c with
    | Panic => Panic
    | Ret (c, None) => Ret (c, None)
    | Ret (c, Some response) => Ret (c, Some (response, 0))
    end
  else
    match onCache (fun K _ key l => lru_GetWithLifetime key now l) question transport c with
    | Panic => Panic
    | Ret (c, None) => Ret (c, None)
    | Ret (c, Some (response, expireAt)) =>
        if expireAt <? now then
          match onCache (fun K _ key l => (lru_Remove key l, tt)) question transport c with
          | Panic => Panic
          | Ret (c, _) => Ret (c, None)
          end
        else
          let nowTTL := intSeconds (expireAt - now) in
          let nowTTL := if nowTTL <? 0 then 0 else nowTTL in
          Ret (c, Some (aged response nowTTL, nowTTL))
    end.

Definition ClearCache (c : Client) : Client :=
  match c.(cl_cache) with
  | Some l => set_cache (lru_Purge l) c
  | None => match c.(cl_transportCache) with Some l => set_transportCache (lru_Purge l) c | None => c end
  end.

(** ** Exchange *)

(** The answer of [Exchange]: a message, or an error with the message that was
    rejected. *)
Inductive ExchangeReply :=
| Answered (response : Msg)
| Failed (response : option Msg) (e : error).

(** The record in an OPT section that is not an OPT record makes the cast panic. *)
Definition isSimpleRequest (message : Msg) (options : DNSQueryOptions) : outcome bool :=
  if (length message.(msgQuestion) =? 1)%nat && negb (nonempty message.(Ns)) then
    match message.(Extra) with
    | [] => Ret (negb (isSome options.(qoClientSubnet)))
    | [record] =>
        let h := record.(rrHeader) in
        if (h.(hdrRrtype) =? TypeOPT) && (0 <? h.(hdrClass)) && (h.(hdrTtl) =? 0) then
          match record.(rrData) with
          | RD_OPT opts => Ret (negb (nonempty opts) && negb (isSome options.(qoClientSubnet)))
          | _ => Panic
          end
        else Ret false
    | _ => Ret false
    end
  else Ret false.

(** The OPT record of a response is taken out for a request without one, and
    replaced for one of an older version. *)
Definition matchEdns (request response : Msg) : Msg :=
  match IsEdns0 response with
  | None => response
  | Some responseOpt =>
      let replace := match IsEdns0 request with None => true | Some requestOpt => opt_Version requestOpt <? opt_Version responseOpt end in
      if replace then
        let response := set_Records response.(Answer) response.(Ns)
                          (List.filter (fun r => negb (r.(rrHeader).(hdrRrtype) =? TypeOPT)) response.(Extra)) response in
        match IsEdns0 request with
        | None => response
        | Some _ => SetEdns0 (opt_UDPSize responseOpt) (opt_Do responseOpt) response
        end
      else response
  end.

Definition cacheable (response : Msg) : bool := (response.(Rcode) =? RcodeSuccess) || (response.(Rcode) =? RcodeNameError).

(** The time to live a response gets. *)
Definition newTtl (question : Question) (options : DNSQueryOptions) (response : Msg) : Z :=
  default (responseTtl (filterHints question options.(qoStrategy) response)) options.(qoRewriteTTL).

(** A response as it is returned: its hints, times to live, id and OPT record. *)
Definition settled (message : Msg) (question : Question) (options : DNSQueryOptions) (response : Msg) : Msg :=
  matchEdns message (set_Id message.(msgId)
    (mapTtl (fun _ => newTtl question options response) (filterHints question options.(qoStrategy) response))).

(** [Exchange] after a response that was not rejected. *)
Definition finish (transport : DNSTransport) (message : Msg) (question : Question) (options : DNSQueryOptions)
    (disableCache : bool) (now : Z) (response : Msg) (c : Client) : outcome (Client * ExchangeReply) :=
  let settled := settled message question options response in
  if disableCache then Ret (c, Answered settled)
  else match storeCache transport question settled (newTtl question options response) now c with
       | Panic => Panic
       | Ret c => Ret (c, Answered settled)
       end.

(** [Exchange] after the transport has answered. *)
Definition received (transport : DNSTransport) (message : Msg) (question : Question) (options : DNSQueryOptions)
    (responseChecker : option (option Msg -> bool)) (disableCache : bool) (now : Z) (answer : result error Msg) (c : Client)
  : outcome (Client * ExchangeReply) :=
  let response :=
    match answer with
    | Ok response => Ok response
    | Err e => match asRcodeError e with Some rcode => Ok (FixedResponseStatus message rcode) | None => Err e end
    end in
  match response with
  | Err e => Ret (c, Failed None e)
  | Ok response =>
      let disableCache := disableCache || negb (cacheable response) in
      let rejected := match responseChecker with
                      | None => false
                      | Some check => if negb (cacheable response) then true else negb (check (Some response))
                      end in
      if rejected then
        let c := match c.(cl_rdrc) with
                 | Some r => if disableCache then c
                             else set_rdrc (Some (rdrc_SaveRDRCAsync transport.(transportTag) question.(Qname) question.(Qtype) r)) c
                 | None => c
                 end in
        Ret (c, Failed (Some response) ErrResponseRejected)
      else finish transport message question options disableCache now response c
  end.

(** Whether the transport and question are known to be rejected. *)
Definition loadRejected (transport : DNSTransport) (question : Question) (asked : bool) (now : Z) (c : Client) : Client * bool :=
  match c.(cl_rdrc) with
  | Some r =>
      if asked then
        let '(r, rejected) := rdrc_LoadRDRC transport.(transportTag) question.(Qname) question.(Qtype) now r in
        (set_rdrc (Some r) c, rejected)
      else (c, false)
  | None => (c, false)
  end.

(** [Exchange] when the cache has no answer; [contextTransport] is the transport the
    query comes from, if any. *)
Definition ask (contextTransport : option string) (transport : DNSTransport) (message : Msg) (question : Question)
    (options : DNSQueryOptions) (responseChecker : option (option Msg -> bool)) (disableCache : bool) (w : World) (c : Client)
  : outcome (World * Client * ExchangeReply) :=
  if bool_decide (contextTransport = Some transport.(transportTag))
  then Ret (w, c, Failed None (E_New ["DNS query loopback in transport["; transport.(transportTag); "]"]))
  else
    let '(c, rejected) := loadRejected transport question (negb disableCache && isSome responseChecker) (worldNow w) c in
    if rejected then Ret (w, c, Failed None ErrResponseRejectedCached)
    else
      let '(w, answer) := transportExchange w transport message in
      match received transport message question options responseChecker disableCache (worldNow w) answer c with
      | Panic => Panic
      | Ret (c, reply) => Ret (w, c, reply)
      end.

Definition strategyRejects (question : Question) (strategy : Z) : bool :=
  ((question.(Qtype) =? TypeA) && (strategy =? DomainStrategyIPv6Only)) ||
  ((question.(Qtype) =? TypeAAAA) && (strategy =? DomainStrategyIPv4Only)).

(** The request, with the subnet of the query or of the client. *)
Definition withSubnet (message : Msg) (options : DNSQueryOptions) (c : Client) : Msg :=
  match (match options.(qoClientSubnet) with Some p => Some p | None => c.(cl_clientSubnet) end) with
  | Some clientSubnet => SetClientSubnet message clientSubnet
  | None => message
  end.

Definition Exchange (contextTransport : option string) (transport : DNSTransport) (message : Msg) (options : DNSQueryOptions)
    (responseChecker : option (option Msg -> bool)) (w : World) (c : Client) : outcome (World * Client * ExchangeReply) :=
  match message.(msgQuestion) with
  | [] => Ret (w, c, Answered (FixedResponseStatus message RcodeFormatError))
  | question :: _ =>
      if strategyRejects question options.(qoStrategy) then Ret (w, c, Answered (FixedResponseStatus message RcodeSuccess))
      else
        let message := withSubnet message options c in
        match isSimpleRequest message options with
        | Panic => Panic
        | Ret simple =>
            let disableCache := negb simple || c.(cl_disableCache) || options.(qoDisableCache) in
            if disableCache then ask contextTransport transport message question options responseChecker true w c
            else
              match loadResponse question transport (worldNow w) c with
              | Panic => Panic
              | Ret (c, Some (response, _)) => Ret (w, c, Answered (set_Id message.(msgId) response))
              | Ret (c, None) => ask contextTransport transport message question options responseChecker false w c
              end
        end
  end.

(** ** Lookup *)

(** [questionCache] and what [lookupToExchange] makes of a response. *)
Definition responseAddresses (response : Msg) : list Addr * option error :=
  if negb (response.(Rcode) =? RcodeSuccess) then ([], Some (rcodeError response.(Rcode)))
  else (DNSResponseAddresses (Some response), None).

Definition lookupToExchange (contextTransport : option string) (transport : DNSTransport) (name : string) (qType : Z)
    (options : DNSQueryOptions) (responseChecker : option (option Msg -> bool)) (w : World) (c : Client)
  : outcome (World * Client * (list Addr * option error)) :=
  let question := mkQuestion name qType ClassINET in
  let exchange c :=
    match Exchange contextTransport transport (mkMsg 0 false false true false 0 [question] [] [] []) options responseChecker w c with
    | Panic => Panic
    | Ret (w, c, Failed _ e) => Ret (w, c, ([], Some e))
    | Ret (w, c, Answered response) => Ret (w, c, responseAddresses response)
    end in
  if c.(cl_disableCache) || options.(qoDisableCache) then exchange c
  else match loadResponse question transport (worldNow w) c with
       | Panic => Panic
       | Ret (c, Some (response, _)) => Ret (w, c, responseAddresses response)
       | Ret (c, None) => exchange c
       end.

(** [sixFirst]: the two queries run at the same time, one after the other in some
    order here. *)
Definition Client_Lookup (contextTransport : option string) (sixFirst : bool) (transport : DNSTransport) (domain : string)
    (options : DNSQueryOptions) (responseChecker : option (option Msg -> bool)) (w : World) (c : Client)
  : outcome (World * Client * (list Addr * option error)) :=
  let domain := if dnsIsFqdn domain then String.substring 0 (String.length domain - 1) domain else domain in
  let dnsName := dnsFqdn domain in
  let strategy := if negb (options.(qoLookupStrategy) =? DomainStrategyAsIS) then options.(qoLookupStrategy) else options.(qoStrategy) in
  let lookupOptions := if negb (options.(qoLookupStrategy) =? DomainStrategyAsIS) then set_Strategy strategy options else options in
  let lookup qType := lookupToExchange contextTransport transport dnsName qType lookupOptions responseChecker in
  if strategy =? DomainStrategyIPv4Only then lookup TypeA w c
  else if strategy =? DomainStrategyIPv6Only then lookup TypeAAAA w c
  else
    match lookup (if sixFirst then TypeAAAA else TypeA) w c with
    | Panic => Panic
    | Ret (w, c, first) =>
        match lookup (if sixFirst then TypeA else TypeAAAA) w c with
        | Panic => Panic
        | Ret (w, c, second) =>
            let '(response4, e4) := if sixFirst then second else first in
            let '(response6, e6) := if sixFirst then first else second in
            Ret (w, c, if nonempty response4 || nonempty response6 then (sortAddresses response4 response6 strategy, None)
                       else ([], taskError e4 e6))
        end
    end.

End Client.

Arguments Client {_ _} R.
