(* ===== verification/DNSClientProps.v ===== *)
(** * What the DNS client relies on

    The laws of the cache, of the world the transports run in and of the EDNS part of
    the DNS library, and what the operations on the client's cache preserve. *)

From S2P Require Import Prelude GoStrings GoTime RuleItems RuleMatch RuleBuild DNSRules DNSRouter DNSLookup FakeIP CacheFile DNSClient.

Local Open Scope string_scope.
Local Open Scope list_scope.
Local Open Scope Z_scope.

(** ** Laws *)

Definition millisecond : Z := 1000000.

(** A cache only holds what was put in; it may drop anything.  The instant an entry
    expires is that of its lifetime, cut to milliseconds. *)
Class FreeLRULaws (FL : FreeLRU) := {
  held : forall {K} `{EqDecision K}, LRU K -> K -> Msg -> option Z -> Prop;
  held_New : forall {K} `{EqDecision K} n k m e, ~ held (lru_New n : LRU K) k m e;
  held_Add : forall {K} `{EqDecision K} (l : LRU K) key message k m e,
    held (lru_Add key message l) k m e -> (k = key /\ m = message /\ e = None) \/ held l k m e;
  held_AddWithLifetime : forall {K} `{EqDecision K} (l : LRU K) key message lifetime now k m e,
    held (lru_AddWithLifetime key message lifetime now l) k m e ->
    (k = key /\ m = message /\ exists x, e = Some x /\ now + lifetime - millisecond < x <= now + lifetime) \/ held l k m e;
  held_Get : forall {K} `{EqDecision K} (l : LRU K) key now k m e, held (lru_Get key now l).1 k m e -> held l k m e;
  Get_held : forall {K} `{EqDecision K} (l : LRU K) key now m, (lru_Get key now l).2 = Some m -> exists e, held l key m e;
  held_GetWithLifetime : forall {K} `{EqDecision K} (l : LRU K) key now k m e,
    held (lru_GetWithLifetime key now l).1 k m e -> held l k m e;
  GetWithLifetime_held : forall {K} `{EqDecision K} (l : LRU K) key now m x,
    (lru_GetWithLifetime key now l).2 = Some (m, x) -> held l key m (Some x);
  held_Remove : forall {K} `{EqDecision K} (l : LRU K) key k m e, held (lru_Remove key l) k m e -> held l k m e;
  held_Purge : forall {K} `{EqDecision K} (l : LRU K) k m e, ~ held (lru_Purge l) k m e;
}.

(** A question put to a transport, what it answered, and when. *)
Record Asked {EX : Exceptions} := mkAsked { askedTag : string; askedMessage : Msg; askedAnswer : result error Msg; askedAt : Z }.

(** The world keeps a record of what was asked; time does not run backwards. *)
Class WorldLaws `(CE : ClientEnv) := {
  asked : World -> list Asked;
  asked_exchange : forall w t m, asked (transportExchange w t m).1 =
    asked w ++ [mkAsked _ t.(transportTag) m (transportExchange w t m).2 (worldNow (transportExchange w t m).1)];
  worldNow_exchange : forall w t m, worldNow w <= worldNow (transportExchange w t m).1;
}.

(** A message without OPT record has no EDNS options; setting them adds one. *)
Class EdnsLaws `(CE : ClientEnv) := {
  IsEdns0_None : forall m, (forall r, r ∈ m.(Extra) -> r.(rrHeader).(hdrRrtype) <> TypeOPT) -> IsEdns0 m = None;
  SetEdns0_adds : forall n b m, exists r, r.(rrHeader).(hdrRrtype) = TypeOPT /\
    SetEdns0 n b m = set_Records m.(Answer) m.(Ns) (m.(Extra) ++ [r]) m;
}.

Section Laws.
Context `{CE : ClientEnv} {FL : FreeLRU} {LL : FreeLRULaws FL} {R : Type} {RS : RDRCStore R}.

(** ** The cache of a client *)

(** What the cache in use holds for a question and a transport. *)
Definition holds (c : Client R) (question : Question) (tag : string) (m : Msg) (e : option Z) : Prop :=
  if c.(cl_independentCache)
  then exists l, c.(cl_transportCache) = Some l /\ held l (mkTransportCacheKey question tag) m e
  else exists l, c.(cl_cache) = Some l /\ held l question m e.

(** What no operation changes. *)
Definition sameConfig (c c' : Client R) : Prop :=
  c'.(cl_disableCache) = c.(cl_disableCache) /\ c'.(cl_disableExpire) = c.(cl_disableExpire) /\
  c'.(cl_independentCache) = c.(cl_independentCache) /\ c'.(cl_clientSubnet) = c.(cl_clientSubnet).

(** The cache in use is there, unless caching is off. *)
Definition hasCache (c : Client R) : Prop :=
  c.(cl_disableCache) = true \/ (if c.(cl_independentCache) then isSome c.(cl_transportCache) else isSome c.(cl_cache)) = true.

#[export] Instance sameConfig_refl : Reflexive sameConfig.
Proof. done. Qed.
#[export] Instance sameConfig_trans : Transitive sameConfig.
Proof. intros a b c (?&?&?&?) (?&?&?&?). repeat split; congruence. Qed.

Abbreviation cacheOp A := (forall K, EqDecision K -> K -> LRU K -> LRU K * A) (only parsing).

(** An operation puts in what [P] allows under the key it is given. *)
Definition addsOnly {A} (f : cacheOp A) (P : Msg -> option Z -> Prop) : Prop :=
  forall K (dec : EqDecision K) (key : K) l k m e, held (f K dec key l).1 k m e -> (k = key /\ P m e) \/ held l k m e.

(** ... and answers what [Q] says of what is held. *)
Definition answers {A} (f : cacheOp A) (Q : (Msg -> option Z -> Prop) -> A -> Prop) : Prop :=
  forall K (dec : EqDecision K) (key : K) l, Q (held l key) (f K dec key l).2.

Lemma onCache_spec {A} (f : cacheOp A) P Q question t c : hasCache c -> c.(cl_disableCache) = false ->
  addsOnly f P -> answers f Q ->
  exists c' a h, onCache f question t c = Ret (c', a) /\ sameConfig c c' /\ hasCache c' /\ c'.(cl_rdrc) = c.(cl_rdrc) /\
    Q h a /\ (forall m e, h m e -> holds c question t.(transportTag) m e) /\
    forall q tag m e, holds c' q tag m e ->
      (q = question /\ (c.(cl_independentCache) = true -> tag = t.(transportTag)) /\ P m e) \/ holds c q tag m e.
Proof.
  intros [Hc|Hc] Hd HP HQ; [congruence|]. unfold onCache, holds.
  destruct (cl_independentCache c) eqn:Hi; cbn.
  - destruct (cl_transportCache c) as [l|] eqn:Hl; [|done].
    set (key := mkTransportCacheKey question t.(transportTag)).
    destruct (f _ _ key l) as [l' a] eqn:Hf. exists (set_transportCache l' c), a, (held l key).
    repeat split; try done; cbn; rewrite ?Hi.
    + by right; cbn; rewrite Hi.
    + specialize (HQ _ _ key l). by rewrite Hf in HQ.
    + intros m e Hm. by exists l.
    + intros q tag m e (l2 & [= <-] & Hh). specialize (HP _ _ key l (mkTransportCacheKey q tag) m e). rewrite Hf in HP.
      destruct (HP Hh) as [[[= -> ->] ?]|?]; [by left|right; by exists l].
  - destruct (cl_cache c) as [l|] eqn:Hl; [|done].
    destruct (f _ _ question l) as [l' a] eqn:Hf. exists (set_cache l' c), a, (held l question).
    repeat split; try done; cbn; rewrite ?Hi.
    + by right; cbn; rewrite Hi.
    + specialize (HQ _ _ question l). by rewrite Hf in HQ.
    + intros m e Hm. by exists l.
    + intros q tag m e (l2 & [= <-] & Hh). specialize (HP _ _ question l q m e). rewrite Hf in HP.
      destruct (HP Hh) as [[-> ?]|?]; [by left|right; by exists l].
Qed.

End Laws.

(** ** What the DNS client answers

    Where the responses of the client's cache come from and how old they may be: an
    invariant of all states a client reaches. *)

Section Props.
Context `{CE : ClientEnv} {FL : FreeLRU} {LL : FreeLRULaws FL} {WL : WorldLaws CE} {EL : EdnsLaws CE}.
Context {R : Type} {RS : RDRCStore R}.
Implicit Types (c : Client R) (w : World).

(** ** Loading and storing *)

Lemma loadResponse_spec question t now c : hasCache c -> c.(cl_disableCache) = false ->
  exists c' r, loadResponse question t now c = Ret (c', r) /\ sameConfig c c' /\ hasCache c' /\
    (forall q tag m e, holds c' q tag m e -> holds c q tag m e) /\
    match r with
    | None => True
    | Some (m', n) => exists m e, holds c question t.(transportTag) m e /\
        if c.(cl_disableExpire) then m' = m
        else exists x, e = Some x /\ now <= x /\ m' = aged m n /\ n = Z.max 0 (intSeconds (x - now))
    end.
Proof.
  intros Hh Hd. unfold loadResponse. destruct (cl_disableExpire c) eqn:He.
  - destruct (onCache_spec (fun K _ key l => lru_Get key now l) (fun _ _ => False)
      (fun h a => forall m, a = Some m -> exists e, h m e) question t c Hh Hd) as (c' & a & h & -> & Hs & Hh' & _ & HQ & Hin & Hsub).
    { intros K dec key l k m e H. right. by eapply held_Get. }
    { intros K dec key l m H. by eapply Get_held. }
    exists c', (match a with Some m => Some (m, 0) | None => None end).
    split; [by destruct a|]. do 2 (split; [done|]). split; [intros ???? H; by destruct (Hsub _ _ _ _ H) as [(_ & _ & [])|]|].
    destruct a as [m|]; [|done]. destruct (HQ m eq_refl) as [e Hm]. exists m, e. split; [by apply Hin|done].
  - destruct (onCache_spec (fun K _ key l => lru_GetWithLifetime key now l) (fun _ _ => False)
      (fun h a => forall m x, a = Some (m, x) -> h m (Some x)) question t c Hh Hd) as (c' & a & h & -> & Hs & Hh' & _ & HQ & Hin & Hsub).
    { intros K dec key l k m e H. right. by eapply held_GetWithLifetime. }
    { intros K dec key l m x H. by eapply GetWithLifetime_held. }
    assert (Hsub' : forall q tag m e, holds c' q tag m e -> holds c q tag m e)
      by (intros ???? H; by destruct (Hsub _ _ _ _ H) as [(_ & _ & [])|]).
    destruct a as [[m x]|]; [|by eexists c', None].
    destruct (x <? now) eqn:Hx; zbool.
    + destruct (onCache_spec (fun K _ key l => (lru_Remove key l, tt)) (fun _ _ => False) (fun _ _ => True) question t c' Hh')
        as (c2 & [] & h2 & -> & Hs2 & Hh2 & _ & _ & _ & Hsub2).
      { destruct Hs as (Hs1 & _). by rewrite Hs1. }
      { intros K dec key l k m' e H. right. by eapply held_Remove. }
      { done. }
      exists c2, None. split; [done|]. split; [by etrans|]. split; [done|]. split; [|done].
      intros ???? H. destruct (Hsub2 _ _ _ _ H) as [(_ & _ & [])|H2]. by apply Hsub'.
    + eexists c', (Some _). split; [done|]. do 2 (split; [done|]). split; [done|].
      exists m, (Some x). split; [apply Hin; by apply HQ|]. exists x.
      replace (if intSeconds (x - now) <? 0 then 0 else intSeconds (x - now)) with (Z.max 0 (intSeconds (x - now)))
        by (destruct (_ <? _) eqn:?; zbool; lia).
      done.
Qed.

(** An entry as [storeCache] makes it. *)
Definition lifetimeOk (e : option Z) (at_ ttl : Z) : Prop :=
  match e with Some x => at_ + second * ttl - millisecond < x <= at_ + second * ttl | None => True end.

Lemma storeCache_spec t question message ttl now c : hasCache c -> c.(cl_disableCache) = false ->
  exists c', storeCache t question message ttl now c = Ret c' /\ sameConfig c c' /\ hasCache c' /\ c'.(cl_rdrc) = c.(cl_rdrc) /\
    forall q tag m e, holds c' q tag m e ->
      (q = question /\ (c.(cl_independentCache) = true -> tag = t.(transportTag)) /\
       m = message /\ ttl <> 0 /\ lifetimeOk e now ttl) \/ holds c q tag m e.
Proof.
  intros Hh Hd. unfold storeCache. destruct (ttl =? 0) eqn:Ht; zbool.
  { exists c. repeat split; try done. intros ???? H. by right. }
  destruct (onCache_spec (fun K _ key l => (if cl_disableExpire c then lru_Add key message l
       else lru_AddWithLifetime key message (second * ttl) now l, tt)) (fun m e => m = message /\ lifetimeOk e now ttl)
      (fun _ _ => True) question t c Hh Hd) as (c' & a & h & -> & Hs & Hh' & Hr & _ & _ & Hsub).
  { intros K dec key l k m e H. cbn in H. destruct (cl_disableExpire c).
    - destruct (held_Add _ _ _ _ _ _ H) as [(-> & -> & ->)|]; [by left|by right].
    - destruct (held_AddWithLifetime _ _ _ _ _ _ _ _ H) as [(-> & -> & x & -> & Hx)|]; [by left|by right]. }
  { done. }
  exists c'. split; [done|]. do 3 (split; [done|]). intros q tag m e H.
  destruct (Hsub _ _ _ _ H) as [(-> & Htag & -> & Hl)|]; [left|by right]. done.
Qed.

(** ** Where entries come from *)

Definition askedReply (a : Asked) : option Msg :=
  match a.(askedAnswer) with
  | Ok response => Some response
  | Err e => match asRcodeError e with Some rcode => Some (FixedResponseStatus a.(askedMessage) rcode) | None => None end
  end.

(** A message that was made of the answer to a question. *)
Definition stems (a : Asked) (question : Question) (options : DNSQueryOptions) (response m : Msg) (e : option Z) : Prop :=
  List.hd_error a.(askedMessage).(msgQuestion) = Some question /\ askedReply a = Some response /\ cacheable response = true /\
  m = settled a.(askedMessage) question options response /\
  newTtl question options response <> 0 /\ lifetimeOk e a.(askedAt) (newTtl question options response).

Definition entriesOk (w : World) (c : Client R) : Prop :=
  forall question tag m e, holds c question tag m e ->
    exists a options response, a ∈ asked w /\ (c.(cl_independentCache) = true -> a.(askedTag) = tag) /\
      stems a question options response m e.

Record clientOk (w : World) (c : Client R) : Prop := {
  co_cache : hasCache c;
  co_past : forall a, a ∈ asked w -> a.(askedAt) <= worldNow w;
  co_entries : entriesOk w c;
}.

Lemma entriesOk_mono w w' c c' : (forall a, a ∈ asked w -> a ∈ asked w') -> sameConfig c c' ->
  (forall q tag m e, holds c' q tag m e -> holds c q tag m e) -> entriesOk w c -> entriesOk w' c'.
Proof.
  intros Hw (_ & _ & Hi & _) Hsub HE q tag m e H. destruct (HE q tag m e (Hsub _ _ _ _ H)) as (a & o & r & Ha & Htag & Hs).
  exists a, o, r. rewrite Hi. split; [by apply Hw|done].
Qed.

Lemma clientOk_load w c c' : clientOk w c -> sameConfig c c' -> hasCache c' ->
  (forall q tag m e, holds c' q tag m e -> holds c q tag m e) -> clientOk w c'.
Proof. intros [H1 H2 H3] Hs Hh Hsub. split; [done..|]. by eapply entriesOk_mono. Qed.

(** The rejections are not part of it. *)
Lemma clientOk_rdrc w c r : clientOk w c -> clientOk w (set_rdrc r c).
Proof. intros [H1 H2 H3]; split; done. Qed.

(** ** Every operation keeps the invariant *)

Lemma received_ok t message question options check disableCache w c answer :
  let w' := (transportExchange w t message).1 in
  answer = (transportExchange w t message).2 ->
  List.hd_error message.(msgQuestion) = Some question -> (c.(cl_disableCache) = true -> disableCache = true) -> clientOk w c ->
  exists c' reply, received t message question options check disableCache (worldNow w') answer c = Ret (c', reply) /\
    clientOk w' c' /\ sameConfig c c'.
Proof.
  intros w' -> Hq Hd Hok. set (a := mkAsked _ t.(transportTag) message (transportExchange w t message).2 (worldNow w')).
  assert (Hasked : asked w' = asked w ++ [a]) by apply asked_exchange.
  assert (Hok' : clientOk w' c).
  { destruct Hok as [H1 H2 H3]. split; [done|..].
    - intros b. rewrite Hasked, elem_of_app, list_elem_of_singleton. intros [Hb| ->]; [|done].
      etrans; [by apply H2|apply worldNow_exchange].
    - eapply entriesOk_mono; [|done|done|exact H3]. intros b Hb. rewrite Hasked. set_solver. }
  unfold received. fold w'.
  set (resp := match (transportExchange w t message).2 with
    | Ok response => Ok response
    | Err e => match asRcodeError e with Some rcode => Ok (FixedResponseStatus message rcode) | None => Err e end end).
  assert (Hresp : forall r, resp = Ok r -> askedReply a = Some r).
  { intros r. unfold resp, askedReply, a; cbn. destruct (transportExchange w t message).2 as [|e]; [by intros [= ->]|].
    destruct (asRcodeError e); [by intros [= ->]|done]. }
  destruct resp as [response|e]; [|by eexists c, _].
  specialize (Hresp _ eq_refl). case_goal.
  - eexists _, _. split; [done|]. destruct (cl_rdrc c) as [r|]; [|done]. case_goal; [done|].
    split; [by apply clientOk_rdrc|done].
  - unfold finish. destruct (disableCache || negb (cacheable response)) eqn:Hdc; [by eexists c, _|].
    apply orb_false_iff in Hdc as [Hdc Hca]. apply negb_false_iff in Hca.
    assert (Hcd : c.(cl_disableCache) = false) by (destruct (cl_disableCache c); [by rewrite Hd in Hdc|done]).
    destruct (storeCache_spec t question (settled message question options response) (newTtl question options response)
      (worldNow w') c (co_cache _ _ Hok) Hcd) as (c' & -> & Hs & Hh & _ & Hsub).
    eexists c', _. split; [done|]. split; [|done]. destruct Hok' as [H1 H2 H3]. split; [done..|].
    intros q tag m e H. destruct (Hsub _ _ _ _ H) as [(-> & Htag & -> & Ht & Hl)|Hold].
    + exists a, options, response. rewrite Hasked. split; [set_solver|].
      assert (Hi : cl_independentCache c' = cl_independentCache c) by apply Hs.
      rewrite Hi. split; [intros H'; symmetry; by apply Htag|]. by repeat split.
    + assert (Hi : cl_independentCache c' = cl_independentCache c) by apply Hs. rewrite Hi. by apply H3.
Qed.

Lemma loadRejected_ok t question q now w c : clientOk w c -> let c' := (loadRejected t question q now c).1 in
  clientOk w c' /\ sameConfig c c'.
Proof.
  intros Hok. unfold loadRejected. destruct (cl_rdrc c) as [r|]; [|done]. destruct q; [|done].
  destruct (rdrc_LoadRDRC _ _ _ _ r) as [r' b]. cbn. split; [by apply clientOk_rdrc|done].
Qed.

(** The transport was asked, once. *)
Definition askedOnce (w w' : World) (t : DNSTransport) (message : Msg) : Prop :=
  w' = (transportExchange w t message).1.

Lemma ask_ok ctx t message question options check disableCache w c :
  List.hd_error message.(msgQuestion) = Some question -> (c.(cl_disableCache) = true -> disableCache = true) -> clientOk w c ->
  exists w' c' reply, ask ctx t message question options check disableCache w c = Ret (w', c', reply) /\
    clientOk w' c' /\ sameConfig c c' /\
    ((w' = w /\ exists e, reply = Failed None e) \/ askedOnce w w' t message).
Proof.
  intros Hq Hd Hok. unfold ask. case_goal.
  { eexists w, c, _. do 3 (split; [done|]). left. eauto. }
  pose proof (loadRejected_ok t question (negb disableCache && isSome check) (worldNow w) w c Hok) as [Hok2 Hs].
  destruct (loadRejected _ _ _ _ c) as [c2 rejected]; cbn in *.
  destruct rejected.
  { eexists w, c2, _. do 3 (split; [done|]). left. eauto. }
  destruct (received_ok t message question options check disableCache w c2 (transportExchange w t message).2 eq_refl Hq)
    as (c3 & reply & Hr & Hok3 & Hs3); [by destruct Hs as (-> & _)|done|].
  destruct (transportExchange w t message) as [w' answer] eqn:Hx; cbn in *. rewrite Hr.
  eexists _, _, _. split; [done|]. split; [done|]. split; [by etrans|]. right. unfold askedOnce. by rewrite Hx.
Qed.

Lemma withSubnet_question message options c : (withSubnet message options c).(msgQuestion) = message.(msgQuestion).
Proof. unfold withSubnet. by destruct (match qoClientSubnet options with Some p => Some p | None => _ end). Qed.

Lemma withSubnet_id message options c : (withSubnet message options c).(msgId) = message.(msgId).
Proof. unfold withSubnet. by destruct (match qoClientSubnet options with Some p => Some p | None => _ end). Qed.

(** The reply to a question that the cache has an answer for. *)
Definition served (w : World) (c : Client R) (t : DNSTransport) (message : Msg) (reply : ExchangeReply) : Prop :=
  exists question m e m' n, List.hd_error message.(msgQuestion) = Some question /\
    holds c question t.(transportTag) m e /\ reply = Answered (set_Id message.(msgId) m') /\
    if c.(cl_disableExpire) then m' = m
    else exists x, e = Some x /\ worldNow w <= x /\ m' = aged m n /\ n = Z.max 0 (intSeconds (x - worldNow w)).

(** The replies that need neither the cache nor a transport. *)
Definition fixedReply (message : Msg) (options : DNSQueryOptions) (reply : ExchangeReply) : Prop :=
  match List.hd_error message.(msgQuestion) with
  | None => reply = Answered (FixedResponseStatus message RcodeFormatError)
  | Some question => strategyRejects question options.(qoStrategy) = true /\ reply = Answered (FixedResponseStatus message RcodeSuccess)
  end.

Lemma Exchange_ok ctx t message options check w c w' c' reply : clientOk w c ->
  Exchange ctx t message options check w c = Ret (w', c', reply) ->
  clientOk w' c' /\ sameConfig c c' /\
  ((w' = w /\ (fixedReply message options reply \/ served w c t message reply \/ exists e, reply = Failed None e)) \/
   askedOnce w w' t (withSubnet message options c)).
Proof.
  intros Hok. unfold Exchange. destruct (msgQuestion message) as [|question rest] eqn:Hmq.
  { intros [= <- <- <-]. split; [done|]. split; [done|]. left. split; [done|left]. unfold fixedReply. by rewrite Hmq. }
  case_goal.
  { intros [= <- <- <-]. split; [done|]. split; [done|]. left. split; [done|left]. unfold fixedReply. by rewrite Hmq. }
  assert (Hq : List.hd_error (msgQuestion (withSubnet message options c)) = Some question)
    by by rewrite withSubnet_question, Hmq.
  destruct (isSimpleRequest _ options) as [simple|]; [|done]. case_goal.
  - destruct (ask_ok ctx t (withSubnet message options c) question options check true w c Hq) as (w2 & c2 & r2 & -> & Hok2 & Hs & Hcase);
      [done..|]. intros [= <- <- <-]. split; [done|]. split; [done|]. destruct Hcase as [[-> He]|]; [left|by right]. auto.
  - apply orb_false_iff in Heqb0 as [Hd Hod]. apply orb_false_iff in Hd as [_ Hd].
    destruct (loadResponse_spec question t (worldNow w) c (co_cache _ _ Hok) Hd) as (c2 & r & -> & Hs & Hh & Hsub & Hr).
    assert (Hok2 : clientOk w c2) by by eapply clientOk_load.
    destruct r as [[m' n]|].
    + intros [= <- <- <-]. split; [done|]. split; [done|]. left. split; [done|]. right; left.
      destruct Hr as (m & e & Hm & Hr). exists question, m, e, m', n. rewrite Hmq, withSubnet_id. done.
    + assert (Hws : withSubnet message options c2 = withSubnet message options c).
      { unfold withSubnet. by destruct Hs as (_ & _ & _ & ->). }
      destruct (ask_ok ctx t (withSubnet message options c) question options check false w c2 Hq) as (w2 & c3 & r2 & -> & Hok3 & Hs3 & Hcase);
        [by destruct Hs as (-> & _); rewrite Hd|done|].
      intros [= <- <- <-]. split; [done|]. split; [by etrans|]. destruct Hcase as [[-> He]|]; [left|by right]. auto.
Qed.

End Props.
