(* ===== verification/DNSClientTheorems.v ===== *)
(** * The age of cached DNS answers

    The states a client reaches, and the theorem on what its cache answers. *)

From S2P Require Import Prelude GoStrings GoTime RuleItems RuleMatch RuleBuild RuleTheorems DNSRules DNSRouter DNSLookup FakeIP CacheFile DNSClient DNSClientProps.

Local Open Scope string_scope.
Local Open Scope list_scope.
Local Open Scope Z_scope.

Section Theorems.
Context `{CE : ClientEnv} {FL : FreeLRU} {LL : FreeLRULaws FL} {WL : WorldLaws CE} {EL : EdnsLaws CE}.
Context {R : Type} {RS : RDRCStore R}.
Implicit Types (c : Client R) (w : World).

(** ** Reachable states *)

Lemma lookupToExchange_ok ctx t name qType options check w c w' c' r : clientOk w c ->
  lookupToExchange ctx t name qType options check w c = Ret (w', c', r) -> clientOk w' c'.
Proof.
  intros Hok. unfold lookupToExchange.
  assert (Hex : forall c0 m, clientOk w c0 -> match Exchange ctx t m options check w c0 with
    | Panic => Panic | Ret (w, c, Failed _ e) => Ret (w, c, ([], Some e))
    | Ret (w, c, Answered response) => Ret (w, c, responseAddresses response) end = Ret (w', c', r) -> clientOk w' c').
  { intros c0 m H0. destruct (Exchange ctx t m options check w c0) as [[[w2 c2] reply]|] eqn:Hx; [|done].
    apply Exchange_ok in Hx as [H2 _]; [|done]. by destruct reply; intros [= <- <- _]. }
  case_goal; [by apply Hex|]. apply orb_false_iff in Heqb as [Hd _].
  destruct (loadResponse_spec (mkQuestion name qType ClassINET) t (worldNow w) c (co_cache _ _ Hok) Hd)
    as (c2 & m & -> & Hs & Hh & Hsub & _).
  assert (clientOk w c2) by by eapply clientOk_load.
  destruct m as [[m n]|]; [by intros [= <- <- _]|by apply Hex].
Qed.

Lemma Client_Lookup_ok ctx sixFirst t domain options check w c w' c' r : clientOk w c ->
  Client_Lookup ctx sixFirst t domain options check w c = Ret (w', c', r) -> clientOk w' c'.
Proof.
  intros Hok. unfold Client_Lookup. case_goal; [by apply lookupToExchange_ok|]. case_goal; [by apply lookupToExchange_ok|].
  destruct (lookupToExchange _ _ _ _ _ _ w c) as [[[w2 c2] r2]|] eqn:H2; [|done].
  apply lookupToExchange_ok in H2; [|done].
  destruct (lookupToExchange _ _ _ _ _ _ w2 c2) as [[[w3 c3] r3]|] eqn:H3; [|done].
  apply lookupToExchange_ok in H3; [|done]. destruct sixFirst, r2, r3; by intros [= <- <- _].
Qed.

Lemma ClearCache_ok w c : clientOk w c -> clientOk w (ClearCache c).
Proof.
  intros [H1 H2 H3]. unfold ClearCache.
  destruct (cl_cache c) as [l|] eqn:Hc; [|destruct (cl_transportCache c) as [l|] eqn:Ht; [|done]]; split; try done.
  - destruct H1 as [H1|H1]; [by left|right; cbn; by destruct (cl_independentCache c)].
  - intros q tag m e. unfold holds; cbn. destruct (cl_independentCache c) eqn:Hi.
    + intros H. pose proof (H3 q tag m e) as H'. unfold holds in H'. rewrite Hi in H'. by apply H'.
    + intros (l' & [= <-] & H). by apply held_Purge in H.
  - destruct H1 as [H1|H1]; [by left|right; cbn]. rewrite Hc in H1. by destruct (cl_independentCache c).
  - intros q tag m e. unfold holds; cbn. destruct (cl_independentCache c) eqn:Hi.
    + intros (l' & [= <-] & H). by apply held_Purge in H.
    + intros (l' & Hl & _). congruence.
Qed.

Lemma NewClient_ok o w : (forall a, a ∈ asked w -> a.(askedAt) <= worldNow w) -> clientOk w (NewClient o : Client R).
Proof.
  intros H. split; [|done|].
  - unfold hasCache, NewClient; cbn. by destruct (clo_DisableCache o), (clo_IndependentCache o); auto.
  - intros q tag m e. unfold holds, NewClient; cbn.
    destruct (clo_DisableCache o), (clo_IndependentCache o); cbn; intros (l & [= <-] & Hl); by apply held_New in Hl.
Qed.

(** Calls of the client in any order; in between time passes, transports are asked
    by others, and the store of rejections changes. *)
Inductive clientRun (o : ClientOptions) : World -> Client R -> Prop :=
| run_new w : (forall a, a ∈ asked w -> a.(askedAt) <= worldNow w) -> clientRun o w (NewClient o)
| run_rdrc w c r : clientRun o w c -> clientRun o w (set_rdrc r c)
| run_wait w w' c : clientRun o w c -> (forall a, a ∈ asked w -> a ∈ asked w') ->
    (forall a, a ∈ asked w' -> a.(askedAt) <= worldNow w') -> clientRun o w' c
| run_exchange ctx t message options check w c w' c' reply : clientRun o w c ->
    Exchange ctx t message options check w c = Ret (w', c', reply) -> clientRun o w' c'
| run_lookup ctx sixFirst t domain options check w c w' c' r : clientRun o w c ->
    Client_Lookup ctx sixFirst t domain options check w c = Ret (w', c', r) -> clientRun o w' c'
| run_clear w c : clientRun o w c -> clientRun o w (ClearCache c).

Lemma clientRun_ok o w c : clientRun o w c -> clientOk w c.
Proof.
  induction 1.
  - by apply NewClient_ok.
  - by apply clientOk_rdrc.
  - destruct IHclientRun as [H2 H3 H4]. split; [done..|]. by eapply entriesOk_mono.
  - by eapply Exchange_ok in H0 as [? _].
  - by eapply Client_Lookup_ok.
  - by apply ClearCache_ok.
Qed.

(** ** Records up to their times to live *)

Definition sameData (l l' : list RR) : Prop := map (set_Ttl 0) l = map (set_Ttl 0) l'.

Lemma sameData_map (f : RR -> Z) l : sameData (map (fun r => set_Ttl (f r) r) l) l.
Proof. unfold sameData. rewrite map_map. by apply map_ext. Qed.

#[local] Instance sameData_equiv : Equivalence sameData.
Proof. unfold sameData. split; [done|by intros ??|by intros ??? -> ->]. Qed.

Lemma set_Records_self m : set_Records m.(Answer) m.(Ns) m.(Extra) m = m.
Proof. by destruct m. Qed.

(** Only the OPT records of a response depend on the request. *)
Lemma matchEdns_data message response : let m := matchEdns message response in
  m.(Answer) = response.(Answer) /\ m.(Ns) = response.(Ns) /\ m.(Rcode) = response.(Rcode) /\ m.(msgId) = response.(msgId).
Proof.
  cbn. unfold matchEdns. destruct (IsEdns0 response) as [o|]; [|done]. case_goal; [|done].
  destruct (IsEdns0 message); [|done].
  edestruct SetEdns0_adds as (rr & _ & ->). done.
Qed.

Definition noOPT (m : Msg) : Prop := forall r, r ∈ m.(Extra) -> r.(rrHeader).(hdrRrtype) <> TypeOPT.

Lemma matchEdns_none message response : noOPT response -> matchEdns message response = response.
Proof. intros H. unfold matchEdns. by rewrite IsEdns0_None. Qed.

Lemma filterHints_rest question strategy m : let m' := filterHints question strategy m in
  m'.(Ns) = m.(Ns) /\ m'.(Extra) = m.(Extra) /\ m'.(Rcode) = m.(Rcode).
Proof. cbn. unfold filterHints. by case_goal. Qed.

Lemma mapTtl_Ttl f m : map Ttl (records (mapTtl f m)) = map (fun r => f (Ttl r)) (records m).
Proof. unfold records. cbn. by rewrite !map_app, !map_map. Qed.

Lemma settled_data message question options response : let m := settled message question options response in
  sameData m.(Answer) (filterHints question options.(qoStrategy) response).(Answer) /\ sameData m.(Ns) response.(Ns) /\
  m.(Rcode) = response.(Rcode).
Proof.
  cbn. unfold settled. edestruct matchEdns_data as (-> & -> & -> & _). cbn.
  edestruct filterHints_rest as (-> & _ & ->).
  split; [|split; [|done]]; exact (sameData_map (fun _ => newTtl question options response) _).
Qed.

(** Without OPT record all records of a settled response live equally long. *)
Lemma settled_Ttl message question options response : noOPT response ->
  Forall (fun t => t = newTtl question options response) (map Ttl (records (settled message question options response))).
Proof.
  intros H. unfold settled. rewrite matchEdns_none.
  - set (m := mapTtl _ _). change (records (set_Id _ m)) with (records m). unfold m. rewrite mapTtl_Ttl.
    apply Forall_forall. intros x (r & -> & _)%list_elem_of_fmap. done.
  - intros r. cbn. edestruct filterHints_rest as (_ & -> & _). intros (r' & -> & Hr')%list_elem_of_fmap. exact (H r' Hr').
Qed.

Lemma leastTtl_all t l : Forall (fun x => x = t) l -> foldl leastTtl t l = t.
Proof.
  induction 1 as [|x l -> Hl IH]; [done|]. cbn. unfold leastTtl at 2.
  rewrite Z.ltb_irrefl, andb_false_r, orb_false_r. by destruct (t =? 0) eqn:Ht.
Qed.

(** Aging records that all live equally long. *)
Lemma aged_Ttl m n t : Forall (fun x => x = t) (map Ttl (records m)) -> 0 <= n <= t -> t < 2 ^ 32 ->
  Forall (fun x => x = n) (map Ttl (records (aged m n))).
Proof.
  intros Ht Hn Hb. unfold aged.
  assert (Hor : foldl leastTtl 0 (map Ttl (records m)) = t \/ records m = []).
  { destruct (records m) as [|r l]; [by right|left]. inversion Ht as [|? ? Hr Hall]; subst.
    cbn [foldl map]. by apply leastTtl_all. }
  destruct Hor as [-> | Hm]; [|case_goal; rewrite mapTtl_Ttl, Hm; constructor].
  case_goal; rewrite mapTtl_Ttl; zbool; apply Forall_forall; intros x (r & -> & Hr)%list_elem_of_fmap; unfold wrapu.
  - rewrite Forall_forall in Ht. rewrite (Ht (Ttl r)) by (apply list_elem_of_fmap; eauto).
    rewrite (Z.mod_small (t - n)) by lia. rewrite Z.mod_small; lia.
  - apply Z.mod_small. lia.
Qed.

Lemma aged_data m n : sameData (aged m n).(Answer) m.(Answer) /\ sameData (aged m n).(Ns) m.(Ns) /\ (aged m n).(Rcode) = m.(Rcode).
Proof.
  unfold aged. case_goal; cbn; (split; [|split; [|done]]).
  1,2: exact (sameData_map (fun r => wrapu 32 (Ttl r - _)) _).
  all: exact (sameData_map (fun _ => wrapu 32 n) _).
Qed.

(** ** What the cache answers *)

Lemma asked_grows w w' t message : askedOnce w w' t message -> asked w' <> asked w.
Proof. intros -> H. rewrite asked_exchange in H. apply (f_equal length) in H. rewrite length_app in H. cbn in H. lia. Qed.

(** What is left of a lifetime, in whole seconds. *)
Lemma seconds_left at_ ttl x now : at_ + second * ttl - millisecond < x <= at_ + second * ttl -> at_ <= now <= x ->
  0 <= ttl < 2 ^ 23 -> let left := Z.max 0 (intSeconds (x - now)) in
  0 <= left <= ttl /\ now + second * left <= at_ + second * ttl < now + second * (left + 1) + millisecond.
Proof.
  intros Hx Hnow Ht. cbn. assert (Hs : second = 10 ^ 9) by done.
  rewrite intSeconds_exact by lia. set (d := (x - now) / second).
  assert (Hd : second * d <= x - now < second * (d + 1)).
  { pose proof (Z.div_mod (x - now) second ltac:(done)). pose proof (Z.mod_pos_bound (x - now) second ltac:(done)).
    unfold d. lia. }
  assert (0 <= d) by (apply Z.div_pos; lia). rewrite Z.max_r by done. split; [|lia]. nia.
Qed.

(** C16: what the DNS client answers without asking a transport is what a transport
    answered before: in every state a client can reach, such an answer to a question
    that the strategy of the query does not reject has the id of
    the request and the code and records of an earlier answer to the same question
    (from the same transport when caches are independent, which is not the default),
    which was a success or a missing name.  Unless expiry is off it is not older than
    its time to live, and when in addition the answer had no OPT record and its time to
    live is less than [2^23] seconds, the time to live of every record is what is left
    of it, in whole seconds. *)
Theorem cached_answer_recent o w c ctx t message options check w' c' r question :
  clientRun o w c -> Exchange ctx t message options check w c = Ret (w', c', Answered r) -> asked w' = asked w ->
  List.hd_error message.(msgQuestion) = Some question -> strategyRejects question options.(qoStrategy) = false ->
  r.(msgId) = message.(msgId) /\
  exists a options0 response, let ttl := newTtl question options0 response in
    a ∈ asked w /\ List.hd_error a.(askedMessage).(msgQuestion) = Some question /\
    (c.(cl_independentCache) = true -> a.(askedTag) = t.(transportTag)) /\
    askedReply a = Some response /\ cacheable response = true /\ r.(Rcode) = response.(Rcode) /\
    sameData r.(Answer) (filterHints question options0.(qoStrategy) response).(Answer) /\ sameData r.(Ns) response.(Ns) /\
    (c.(cl_disableExpire) = false ->
       a.(askedAt) <= worldNow w <= a.(askedAt) + second * ttl /\
       (noOPT response -> 0 <= ttl < 2 ^ 23 -> exists left, Forall (fun x => x = left) (map Ttl (records r)) /\ 0 <= left <= ttl /\
          worldNow w + second * left <= a.(askedAt) + second * ttl < worldNow w + second * (left + 1) + millisecond)).
Proof.
  intros Hrun Hx Hasked Hq Hst. apply clientRun_ok in Hrun as Hok.
  destruct (Exchange_ok _ _ _ _ _ _ _ _ _ _ Hok Hx) as (_ & _ & [[-> [Hfix|[Hserved|[e [=]]]]]|Honce]);
    [| |by apply asked_grows in Honce].
  { unfold fixedReply in Hfix. rewrite Hq in Hfix. destruct Hfix. congruence. }
  destruct Hserved as (q & m & e & m' & n & Hq' & Hm & [= ->] & Hcase). assert (q = question) as -> by congruence.
  split; [done|].
  destruct (co_entries _ _ Hok _ _ _ _ Hm) as (a & o0 & response & Ha & Htag & Haq & Hrep & Hca & -> & Ht & Hl).
  exists a, o0, response. cbn zeta.
  destruct (settled_data (askedMessage a) question o0 response) as (D1 & D2 & D3).
  do 5 (split; [done|]). destruct (cl_disableExpire c).
  { subst m'. by repeat split. }
  destruct Hcase as (x & -> & Hnow & -> & ->). cbn in Hl.
  destruct (aged_data (settled (askedMessage a) question o0 response) (Z.max 0 (intSeconds (x - worldNow w)))) as (E1 & E2 & E3).
  split; [cbn; congruence|]. split; [cbn; by etrans|]. split; [cbn; by etrans|]. intros _.
  pose proof (co_past _ _ Hok _ Ha). split; [lia|]. intros Hno Hb.
  destruct (seconds_left (askedAt a) (newTtl question o0 response) x (worldNow w)) as [H1 H2]; [done|lia|done|].
  eexists. split; [|by split]. change (records (set_Id ?i ?m)) with (records m).
  eapply aged_Ttl; [by apply settled_Ttl|done|lia].
Qed.

End Theorems.

(** ** A running DNS client

    An environment in which the client runs, for the theorem on its cache, and two
    things a cached answer can do that a fresh one does not. *)

Module ClientDemo.
Import RuleDemo.

(** ** A cache that forgets nothing, and its laws *)

Definition findEntry {K} {dec : EqDecision K} (key : K) (l : list (K * (Msg * option Z))) : option (Msg * option Z) :=
  snd <$> List.find (fun entry => bool_decide (entry.1 = key)) l.
Definition dropEntry {K} {dec : EqDecision K} (key : K) (l : list (K * (Msg * option Z))) : list (K * (Msg * option Z)) :=
  List.filter (fun entry => negb (bool_decide (entry.1 = key))) l.

#[export] Instance listLRU : FreeLRU := {|
  LRU := fun K => list (K * (Msg * option Z));
  lru_New := fun K _ _ => [];
  lru_Add := fun K _ key m l => (key, (m, None)) :: dropEntry key l;
  lru_AddWithLifetime := fun K _ key m lifetime now l =>
    (key, (m, Some ((now + lifetime) / millisecond * millisecond))) :: dropEntry key l;
  lru_Get := fun K _ key _ l => (l, fst <$> findEntry key l);
  lru_GetWithLifetime := fun K _ key _ l =>
    (l, match findEntry key l with Some (m, Some x) => Some (m, x) | _ => None end);
  lru_Remove := fun K _ key l => dropEntry key l;
  lru_Purge := fun K _ l => [];
|}.

Lemma findEntry_elem {K} {dec : EqDecision K} (key : K) l m e : findEntry key l = Some (m, e) -> (key, (m, e)) ∈ l.
Proof.
  unfold findEntry. destruct (List.find _ l) as [[k x]|] eqn:Hf; [|done]. cbn. intros [= ->].
  apply find_some in Hf as [Hin Hk]. apply bool_decide_eq_true in Hk as Hk'. cbn in Hk'. subst. by apply list_elem_of_In.
Qed.

Lemma dropEntry_elem {K} {dec : EqDecision K} (key : K) l x : x ∈ dropEntry key l -> x ∈ l.
Proof. unfold dropEntry. rewrite !list_elem_of_In. by intros [? _]%filter_In. Qed.

#[export, program] Instance listLRU_laws : FreeLRULaws listLRU := {|
  held := fun K dec l k m e => (k, (m, e)) ∈ (l : list (K * (Msg * option Z)));
|}.
Next Obligation. intros K dec n k m e. apply not_elem_of_nil. Qed.
Next Obligation.
  intros K dec l key message k m e [[= -> -> ->]|H]%elem_of_cons; [by left|right; by eapply dropEntry_elem].
Qed.
Next Obligation.
  intros K dec l key message lifetime now k m e [[= -> -> ->]|H]%elem_of_cons; [left|right; by eapply dropEntry_elem].
  split; [done|]. split; [done|]. eexists. split; [done|]. unfold millisecond.
  pose proof (Z.div_mod (now + lifetime) 1000000 ltac:(done)). pose proof (Z.mod_pos_bound (now + lifetime) 1000000 ltac:(done)). lia.
Qed.
Next Obligation. done. Qed.
Next Obligation.
  intros K dec l key now m H. cbn in H. destruct (findEntry key l) as [[m' e]|] eqn:Hf; [|done]. cbn in H. injection H as ->.
  exists e. by apply findEntry_elem.
Qed.
Next Obligation. done. Qed.
Next Obligation.
  intros K dec l key now m x H. cbn in H. destruct (findEntry key l) as [[m' [e|]]|] eqn:Hf; [|done..]. injection H as -> ->.
  by apply findEntry_elem.
Qed.
Next Obligation. intros K dec l key k m e. apply dropEntry_elem. Qed.
Next Obligation. intros K dec l k m e. apply not_elem_of_nil. Qed.

(** ** The world

    A clock, the record of what was asked; a transport takes 20 ms and answers by
    the type of the question. *)
Definition answer (m : Msg) : Msg :=
  let question := default (mkQuestion "" 0 0) (List.hd_error m.(msgQuestion)) in
  let header ttl := mkHeader question.(Qname) question.(Qtype) ClassINET ttl in
  let reply l extra := mkMsg m.(msgId) true false true true RcodeSuccess m.(msgQuestion) l [] extra in
  if question.(Qtype) =? TypeHTTPS then
    reply [mkRR (header 300) (RD_HTTPS "h2" [SVCBIPv4Hint [[1; 1; 1; 1]]; SVCBIPv6Hint [[0]]])] []
  else if nonempty m.(Extra) then
    reply [mkRR (header 172800) (RD_A [10; 0; 0; 9])] [mkRR (mkHeader "." TypeOPT 1232 0) (RD_OPT [])]
  else reply [mkRR (header 60) (RD_A [10; 0; 0; 9])] [].

(** The EDNS flags as RFC 6891 lays them out in the time to live of an OPT record. *)
#[export] Instance demoClient : ClientEnv (RE := demoEnv) := {|
  World := Z * list (@Asked text_exceptions);
  worldNow := fst;
  transportExchange := fun w t m =>
    let now := w.1 + 20 * millisecond in
    ((now, w.2 ++ [mkAsked _ t.(transportTag) m (Ok (answer m)) now]), Ok (answer m));
  asRcodeError := fun _ => None;
  rcodeError := fun rcode => Errorf (itoa rcode);
  IsEdns0 := fun m => List.find (fun r => r.(rrHeader).(hdrRrtype) =? TypeOPT) (List.rev m.(Extra));
  opt_Version := fun r => Ttl r / 2 ^ 16 mod 2 ^ 8;
  opt_UDPSize := fun r => r.(rrHeader).(hdrClass);
  opt_Do := fun r => Z.testbit (Ttl r) 15;
  SetEdns0 := fun size b m =>
    set_Records m.(Answer) m.(Ns) (m.(Extra) ++ [mkRR (mkHeader "." TypeOPT size (if b then 2 ^ 15 else 0)) (RD_OPT [])]) m;
  dnsIsFqdn := fun s => String.eqb (String.substring (String.length s - 1) 1 s) ".";
  dnsFqdn := fun d => d +:+ ".";
  subnetAddr := fun p => Addr4 p.1;
  subnetBits := fun _ => 24;
  taskError := fun e4 e6 => match e4 with Some e => Some e | None => e6 end;
|}.

#[export] Instance demoWorld_laws : WorldLaws demoClient.
Proof.
  refine {| asked := fun w : World => w.2 |}; intros w t m; cbn; [done|]. unfold millisecond. lia.
Defined.

#[export] Instance demoEdns_laws : EdnsLaws demoClient.
Proof.
  split.
  - intros m H. cbn. destruct (List.find _ (List.rev (Extra m))) as [r|] eqn:Hf; [|done].
    apply find_some in Hf as [Hin Ht]. apply Z.eqb_eq in Ht. apply in_rev in Hin. apply list_elem_of_In in Hin.
    by apply H in Hin.
  - intros n b m. eexists. split; [|done]. done.
Qed.

#[export] Instance noRDRC : RDRCStore () := {|
  rdrc_LoadRDRC := fun _ _ _ _ r => (r, false);
  rdrc_SaveRDRCAsync := fun _ _ _ r => r;
|}.

Definition start : World (ClientEnv := demoClient) := (0, []).
Definition options0 : ClientOptions (RE := demoEnv) := mkClientOptions false false false 4096 None.
Definition client0 : Client () := NewClient options0.
Definition server : DNSTransport := mkDNSTransport "remote" "udp".
Definition plain : DNSQueryOptions := mkDNSQueryOptions None 0 0 false None None.
Definition request (id qtype : Z) (extra : list RR) : Msg :=
  mkMsg id false false true false 0 [mkQuestion "example.com." qtype ClassINET] [] [] extra.
Definition wait (d : Z) (w : World (ClientEnv := demoClient)) : World (ClientEnv := demoClient) := (w.1 + d, w.2).

Definition ednsRequest (id : Z) : Msg := request id TypeA [mkRR (mkHeader "." TypeOPT 1232 0) (RD_OPT [])].

(** The state after a first request. *)
Definition exchange1 (message : Msg) : World (ClientEnv := demoClient) * Client () :=
  match Exchange None server message plain None start client0 with Ret (w, c, _) => (w, c) | Panic => (start, client0) end.
(** Writing the time to live into every record also writes it into the OPT
    record, where it stands for flags: after an answer of two days to a request with
    EDNS options the OPT record of the answer is taken for one of a newer version and
    replaced, and a second later the same question is answered from the cache with a
    time to live above the one of the answer. *)
Theorem cached_ttl_grows : exists w c first w' c' later,
  Exchange None server (ednsRequest 1) plain None start client0 = Ret (w, c, Answered first) /\
  Exchange None server (ednsRequest 2) plain None (wait second w) c = Ret (w', c', Answered later) /\ asked w' = asked w /\
  map Ttl (answer (ednsRequest 1)).(Answer) = [172800] /\ map Ttl first.(Answer) = [172800] /\
  map opt_Do (answer (ednsRequest 1)).(Extra) = [false] /\ map opt_Do first.(Extra) = [true] /\
  map Ttl later.(Answer) = [312831].
Proof. do 6 eexists. split; [reflexivity|]. split; [reflexivity|]. repeat split; reflexivity. Qed.

(** A cached answer is neither checked nor filtered for the query it answers: a
    query whose check refuses every response and whose strategy excludes IPv6 gets,
    from the cache, an answer with IPv6 hints, where the transport's own answer would
    have been rejected. *)
Theorem cached_answer_unchecked : exists w c r w' c' r',
  let strict := mkDNSQueryOptions None DomainStrategyIPv4Only 0 false None None in
  let refuse := Some (fun _ : option Msg => false) in
  Exchange None server (request 1 TypeHTTPS []) plain None start client0 = Ret (w, c, Answered r) /\
  Exchange None server (request 2 TypeHTTPS []) strict refuse w c = Ret (w, c', Answered r') /\
  map rrData r'.(Answer) = [RD_HTTPS "h2" [SVCBIPv4Hint [[1; 1; 1; 1]]; SVCBIPv6Hint [[0]]]] /\
  exists c2 r2, Exchange None server (request 2 TypeHTTPS []) strict refuse start client0 = Ret (w', c2, Failed (Some r2) ErrResponseRejected).
Proof.
  do 6 eexists. cbn zeta. split; [reflexivity|]. split; [reflexivity|]. split; [reflexivity|]. do 2 eexists. reflexivity.
Qed.

Definition later : World (ClientEnv := demoClient) * Client () :=
  let '(w, c) := exchange1 (request 1 TypeA []) in (wait (9 * second) w, c).

Lemma later_run : clientRun options0 later.1 later.2.
Proof.
  eapply (run_wait _ (exchange1 (request 1 TypeA [])).1).
  - eapply (run_exchange _ None server (request 1 TypeA []) plain None start client0); [|reflexivity].
    apply run_new. intros a Ha. by apply not_elem_of_nil in Ha.
  - done.
  - intros a Ha. apply list_elem_of_singleton in Ha as ->. by apply Z.leb_le.
Qed.

Lemma cached_answer_recent_witness :
  exists r, Exchange None server (request 2 TypeA []) plain None later.1 later.2 = Ret (later.1, later.2, Answered r) /\
    r.(msgId) = 2 /\ map Ttl r.(Answer) = [51].
Proof.
  eexists. split; [reflexivity|]. split; [|reflexivity].
  refine (proj1 (cached_answer_recent options0 later.1 later.2 None server (request 2 TypeA []) plain None later.1 later.2 _
    (mkQuestion "example.com." TypeA ClassINET) later_run _ _ _ _)); reflexivity.
Defined.

End ClientDemo.
