(* ===== verification/OutboundGroups.v ===== *)
(** * Outbound groups

    [src/protocol/group]: the selector, whose outbound is chosen by hand and kept in
    the cache file, and the URL test, which chooses by measured delays; with the group
    of connections to interrupt ([src/common/interrupt]) and the history of delays
    ([src/common/urltest]).

    Outbounds are the nodes of the outbound manager; what they answer (networks, the
    choice of a group, dialing, the result of a test) is an argument.  A method that
    closes connections returns the list of them. *)

From S2P Require Import Prelude GoStrings GoTime RuleItems RuleMatch RuleBuild StartOrder FakeIP CacheFile.

Local Open Scope string_scope.
Local Open Scope list_scope.
Local Open Scope Z_scope.

Definition NetworkTCP : string := "tcp".
Definition NetworkUDP : string := "udp".

(** ** Connections to interrupt *)

(** An element of the list, with its identity, its connection and whether it came
    from an inbound. *)
Record groupConnItem := mkGroupConnItem { itemElement : nat; itemConn : Z; isExternal : bool }.

Record InterruptGroup := mkInterruptGroup { connections : list groupConnItem; elements : nat }.

Definition NewGroup : InterruptGroup := mkInterruptGroup [] 0.

(** [NewConn], [NewPacketConn]: the group and the element of the connection. *)
Definition NewConn (conn : Z) (external : bool) (g : InterruptGroup) : InterruptGroup * nat :=
  (mkInterruptGroup (g.(connections) ++ [mkGroupConnItem g.(elements) conn external]) (S g.(elements)), g.(elements)).

(** [Conn.Close]: the element is removed; the connection is closed in any case. *)
Definition Conn_Close (element : nat) (g : InterruptGroup) : InterruptGroup :=
  mkInterruptGroup (List.filter (fun item => negb (item.(itemElement) =? element)%nat) g.(connections)) g.(elements).

Definition interrupted (interruptExternalConnections : bool) (item : groupConnItem) : bool :=
  negb item.(isExternal) || interruptExternalConnections.

Definition Interrupt (interruptExternalConnections : bool) (g : InterruptGroup) : InterruptGroup * list Z :=
  (mkInterruptGroup (List.filter (fun item => negb (interrupted interruptExternalConnections item)) g.(connections)) g.(elements),
   map itemConn (List.filter (interrupted interruptExternalConnections) g.(connections))).

(** ** What groups know of outbounds *)

Class Outbounds {EX : Exceptions} := {
  ob_networks : Node -> list string;
  (** [Now] of a group at this time *)
  ob_now : Node -> option string;
  (** [DialContext] for a network, [ListenPacket]: a connection *)
  ob_DialContext : Node -> string -> result error Z;
  ob_ListenPacket : Node -> result error Z;
  (** [adapter.DirectRouteOutbound]; [adapter.ConnectionHandlerEx] and
      [adapter.PacketConnectionHandlerEx] *)
  ob_isDirectRoute : Node -> bool;
  ob_isHandler : Node -> bool;
  (** [N.NetworkName], [N.ErrUnknownNetwork] extended with a network *)
  networkName : string -> string;
  ErrUnknownNetwork : string -> error;
}.

Section Groups.
Context `{OB : Outbounds}.

Definition RealTag (detour : Node) : string :=
  match ob_now detour with Some tag => tag | None => detour.(nodeTag) end.

Definition supportsNetwork (network : string) (detour : Node) : bool := existsb (String.eqb network) (ob_networks detour).

(** ** Selector *)

(** The part of the cache file that keeps selections. *)
Class SelectionStore (S : Type) := {
  selection_Load : string -> S -> S * string;
  selection_Store : string -> string -> S -> S * option error;
}.

Record Selector := mkSelector {
  sel_Tag : string;
  sel_tags : list string;
  sel_defaultTag : string;
  sel_outbounds : gmap string Node;
  sel_selected : option Node;
  sel_interruptGroup : InterruptGroup;
  sel_interruptExternal : bool;
}.

Definition set_sel_outbounds (outbounds : gmap string Node) (s : Selector) : Selector :=
  mkSelector s.(sel_Tag) s.(sel_tags) s.(sel_defaultTag) outbounds s.(sel_selected) s.(sel_interruptGroup) s.(sel_interruptExternal).
Definition set_sel_selected (selected : option Node) (s : Selector) : Selector :=
  mkSelector s.(sel_Tag) s.(sel_tags) s.(sel_defaultTag) s.(sel_outbounds) selected s.(sel_interruptGroup) s.(sel_interruptExternal).
Definition set_sel_group (g : InterruptGroup) (s : Selector) : Selector :=
  mkSelector s.(sel_Tag) s.(sel_tags) s.(sel_defaultTag) s.(sel_outbounds) s.(sel_selected) g s.(sel_interruptExternal).

(** [SelectorOutboundOptions] *)
Record SelectorOptions := mkSelectorOptions {
  so_Outbounds : list string;
  so_Default : string;
  so_InterruptExistConnections : bool;
}.

Definition NewSelector (tag : string) (options : SelectorOptions) : result error Selector :=
  if negb (nonempty options.(so_Outbounds)) then Err (E_New ["missing tags"])
  else Ok (mkSelector tag options.(so_Outbounds) options.(so_Default) ∅ None NewGroup options.(so_InterruptExistConnections)).

Definition Selector_Network (s : Selector) : list string :=
  match s.(sel_selected) with None => [NetworkTCP; NetworkUDP] | Some selected => ob_networks selected end.

(** The loop of [Start] over the tags: what was found, and the error. *)
Fixpoint findOutbounds (lookup : string -> option Node) (i : Z) (tags : list string) (outbounds : gmap string Node)
  : gmap string Node * option error :=
  match tags with
  | [] => (outbounds, None)
  | tag :: tags =>
      match lookup tag with
      | None => (outbounds, Some (E_New ["outbound "; itoa i; " not found: "; tag]))
      | Some detour => findOutbounds lookup (i + 1) tags (<[ tag := detour ]> outbounds)
      end
  end.

(** The selection the cache file has, when there is one; [cacheFile] is none without
    a cache file. *)
Definition savedSelection {S} `{SelectionStore S} (s : Selector) (cacheFile : option S) : option S * option Node :=
  if negb (String.eqb s.(sel_Tag) "") then
    match cacheFile with
    | None => (None, None)
    | Some cache =>
        let '(cache, selected) := selection_Load s.(sel_Tag) cache in
        (Some cache, if negb (String.eqb selected "") then s.(sel_outbounds) !! selected else None)
    end
  else (cacheFile, None).

(** [s.tags[0]] panics without tags. *)
Definition Selector_Start {S} `{SelectionStore S} (lookup : string -> option Node) (s : Selector) (cacheFile : option S)
  : outcome (Selector * option S * option error) :=
  let '(outbounds, e) := findOutbounds lookup 0 s.(sel_tags) s.(sel_outbounds) in
  let s := set_sel_outbounds outbounds s in
  match e with
  | Some e => Ret (s, cacheFile, Some e)
  | None =>
      let '(cacheFile, saved) := savedSelection s cacheFile in
      match saved with
      | Some detour => Ret (set_sel_selected (Some detour) s, cacheFile, None)
      | None =>
          if negb (String.eqb s.(sel_defaultTag) "") then
            match s.(sel_outbounds) !! s.(sel_defaultTag) with
            | None => Ret (s, cacheFile, Some (E_New ["default outbound not found: "; s.(sel_defaultTag)]))
            | Some detour => Ret (set_sel_selected (Some detour) s, cacheFile, None)
            end
          else
            match s.(sel_tags) with
            | [] => Panic
            | tag :: _ => Ret (set_sel_selected (s.(sel_outbounds) !! tag) s, cacheFile, None)
            end
      end
  end.

Definition Selector_Now (s : Selector) : outcome string :=
  match s.(sel_selected), s.(sel_tags) with
  | Some selected, _ => Ret selected.(nodeTag)
  | None, tag :: _ => Ret tag
  | None, [] => Panic
  end.

(** The connections it closes; an error of the cache file is only logged. *)
Definition SelectOutbound {S} `{SelectionStore S} (tag : string) (s : Selector) (cacheFile : option S)
  : Selector * option S * list Z * bool :=
  match s.(sel_outbounds) !! tag with
  | None => (s, cacheFile, [], false)
  | Some detour =>
      if bool_decide (s.(sel_selected) = Some detour) then (s, cacheFile, [], true)
      else
        let s := set_sel_selected (Some detour) s in
        let cacheFile :=
          if negb (String.eqb s.(sel_Tag) "") then
            match cacheFile with Some cache => Some (selection_Store s.(sel_Tag) tag cache).1 | None => None end
          else cacheFile in
        let '(g, closed) := Interrupt s.(sel_interruptExternal) s.(sel_interruptGroup) in
        (set_sel_group g s, cacheFile, closed, true)
  end.

(** A connection of the group's own, with its element. *)
Definition Selector_connect (connect : Node -> result error Z) (external : bool) (s : Selector)
  : outcome (Selector * result error (Node * Z * nat)) :=
  match s.(sel_selected) with
  | None => Panic
  | Some selected =>
      match connect selected with
      | Err e => Ret (s, Err e)
      | Ok conn =>
          let '(g, element) := NewConn conn external s.(sel_interruptGroup) in
          Ret (set_sel_group g s, Ok (selected, conn, element))
      end
  end.

(** Without a selected outbound these dereference nil. *)
Definition Selector_DialContext (network : string) : bool -> Selector -> outcome (Selector * result error (Node * Z * nat)) :=
  Selector_connect (fun o => ob_DialContext o network).
Definition Selector_ListenPacket : bool -> Selector -> outcome (Selector * result error (Node * Z * nat)) :=
  Selector_connect ob_ListenPacket.

(** Where [NewConnectionEx] and [NewPacketConnectionEx] send a connection of an
    inbound: to the selected outbound when it handles connections, or to the
    connection manager, which dials with the selected outbound. *)
Inductive Forward := ToHandler (o : Node) | ToManager (dialer : option Node).

Definition Selector_NewConnectionEx (s : Selector) : Forward :=
  match s.(sel_selected) with
  | Some selected => if ob_isHandler selected then ToHandler selected else ToManager (Some selected)
  | None => ToManager None
  end.

(** The outbound [NewDirectRouteConnection] forwards to; the cast panics when it has
    no direct routes. *)
Definition Selector_DirectRoute (network : string) (s : Selector) : outcome (result error Node) :=
  match s.(sel_selected) with
  | None => Panic
  | Some selected =>
      if negb (supportsNetwork network selected)
      then Ret (Err (E_New [network; " is not supported by outbound: "; selected.(nodeTag)]))
      else if ob_isDirectRoute selected then Ret (Ok selected) else Panic
  end.

(** ** Delays *)

(** [adapter.URLTestHistory], the history by tag. *)
Record URLTestHistory := mkURLTestHistory { his_Time : Z; his_Delay : Z }.

Definition HistoryStorage : Type := gmap string URLTestHistory.
Definition LoadURLTestHistory (tag : string) (h : HistoryStorage) : option URLTestHistory := h !! tag.
Definition DeleteURLTestHistory (tag : string) (h : HistoryStorage) : HistoryStorage := delete tag h.
Definition StoreURLTestHistory (tag : string) (history : URLTestHistory) (h : HistoryStorage) : HistoryStorage := <[ tag := history ]> h.

(** ** URL test *)

Definition DefaultURLTestInterval : Z := 3 * minute.
Definition DefaultURLTestIdleTimeout : Z := 30 * minute.

(** [ticker] is whether there is one. *)
Record URLTestGroup := mkURLTestGroup {
  utg_outbounds : list Node;
  utg_interval : Z;
  utg_tolerance : Z;
  utg_idleTimeout : Z;
  utg_history : HistoryStorage;
  utg_selectedTCP : option Node;
  utg_selectedUDP : option Node;
  utg_interruptGroup : InterruptGroup;
  utg_interruptExternal : bool;
  utg_ticker : bool;
  utg_started : bool;
  utg_lastActive : Z;
  (** whether the channel [close] is closed *)
  utg_closed : bool;
}.

Definition set_history (h : HistoryStorage) (g : URLTestGroup) : URLTestGroup :=
  mkURLTestGroup g.(utg_outbounds) g.(utg_interval) g.(utg_tolerance) g.(utg_idleTimeout) h g.(utg_selectedTCP) g.(utg_selectedUDP)
    g.(utg_interruptGroup) g.(utg_interruptExternal) g.(utg_ticker) g.(utg_started) g.(utg_lastActive) g.(utg_closed).
Definition set_chosen (tcp udp : option Node) (g : URLTestGroup) : URLTestGroup :=
  mkURLTestGroup g.(utg_outbounds) g.(utg_interval) g.(utg_tolerance) g.(utg_idleTimeout) g.(utg_history) tcp udp
    g.(utg_interruptGroup) g.(utg_interruptExternal) g.(utg_ticker) g.(utg_started) g.(utg_lastActive) g.(utg_closed).
Definition set_utgroup (i : InterruptGroup) (g : URLTestGroup) : URLTestGroup :=
  mkURLTestGroup g.(utg_outbounds) g.(utg_interval) g.(utg_tolerance) g.(utg_idleTimeout) g.(utg_history) g.(utg_selectedTCP)
    g.(utg_selectedUDP) i g.(utg_interruptExternal) g.(utg_ticker) g.(utg_started) g.(utg_lastActive) g.(utg_closed).
Definition set_activity (ticker started : bool) (lastActive : Z) (g : URLTestGroup) : URLTestGroup :=
  mkURLTestGroup g.(utg_outbounds) g.(utg_interval) g.(utg_tolerance) g.(utg_idleTimeout) g.(utg_history) g.(utg_selectedTCP)
    g.(utg_selectedUDP) g.(utg_interruptGroup) g.(utg_interruptExternal) ticker started lastActive g.(utg_closed).

(** [history] is the storage the services of the context have, or an empty one. *)
Definition NewURLTestGroup (outbounds : list Node) (interval tolerance idleTimeout : Z) (history : HistoryStorage)
    (interruptExternalConnections : bool) : result error URLTestGroup :=
  let interval := if interval =? 0 then DefaultURLTestInterval else interval in
  let tolerance := if tolerance =? 0 then 50 else tolerance in
  let idleTimeout := if idleTimeout =? 0 then DefaultURLTestIdleTimeout else idleTimeout in
  if idleTimeout <? interval then Err (E_New ["interval must be less or equal than idle_timeout"])
  else Ok (mkURLTestGroup outbounds interval tolerance idleTimeout history None None NewGroup interruptExternalConnections
             false false zero_time false).

(** [PostStart] also starts a check. *)
Definition PostStart (now : Z) (g : URLTestGroup) : URLTestGroup := set_activity g.(utg_ticker) true now g.

(** Whether [Touch] starts the loop of checks, and the group. *)
Definition Touch (now : Z) (g : URLTestGroup) : URLTestGroup * bool :=
  if negb g.(utg_started) then (g, false)
  else if g.(utg_ticker) then (set_activity true true now g, false)
  else (set_activity true true g.(utg_lastActive) g, true).

(** [Close]: closing the channel a second time panics. *)
Definition URLTestGroup_Close (g : URLTestGroup) : outcome URLTestGroup :=
  if negb g.(utg_ticker) then Ret g
  else if g.(utg_closed) then Panic
  else Ret (mkURLTestGroup g.(utg_outbounds) g.(utg_interval) g.(utg_tolerance) g.(utg_idleTimeout) g.(utg_history) g.(utg_selectedTCP)
    g.(utg_selectedUDP) g.(utg_interruptGroup) g.(utg_interruptExternal) g.(utg_ticker) g.(utg_started) g.(utg_lastActive) true).

(** One step of the loop over the outbounds: [uint16] arithmetic. *)
Definition selectStep (network : string) (g : URLTestGroup) (acc : Z * option Node) (detour : Node) : Z * option Node :=
  let '(minDelay, minOutbound) := acc in
  if negb (supportsNetwork network detour) then acc
  else
    match LoadURLTestHistory (RealTag detour) g.(utg_history) with
    | None => acc
    | Some history =>
        if (minDelay =? 0) || (wrapu 16 (history.(his_Delay) + g.(utg_tolerance)) <? minDelay)
        then (history.(his_Delay), Some detour) else acc
    end.

(** The outbound in use for a network, with its delay. *)
Definition currentChoice (network : string) (g : URLTestGroup) : Z * option Node :=
  let selected := if String.eqb network NetworkTCP then g.(utg_selectedTCP)
                  else if String.eqb network NetworkUDP then g.(utg_selectedUDP) else None in
  match selected with
  | None => (0, None)
  | Some detour =>
      match LoadURLTestHistory (RealTag detour) g.(utg_history) with
      | Some history => (history.(his_Delay), Some detour)
      | None => (0, None)
      end
  end.

Definition Select (network : string) (g : URLTestGroup) : option Node * bool :=
  match (foldl (selectStep network g) (currentChoice network g) g.(utg_outbounds)).2 with
  | Some minOutbound => (Some minOutbound, true)
  | None => (List.find (supportsNetwork network) g.(utg_outbounds), false)
  end.

(** What [performUpdateCheck] does for one network: the outbound and whether another
    one is replaced. *)
Definition updateChoice (network : string) (selected : option Node) (g : URLTestGroup) : option Node * bool :=
  match Select network g with
  | (Some outbound, exists_) =>
      match selected with
      | None => (Some outbound, false)
      | Some current => if exists_ && negb (bool_decide (outbound = current)) then (Some outbound, true) else (selected, false)
      end
  | (None, _) => (selected, false)
  end.

Definition performUpdateCheck (g : URLTestGroup) : URLTestGroup * list Z :=
  let '(tcp, updatedTCP) := updateChoice NetworkTCP g.(utg_selectedTCP) g in
  let g := set_chosen tcp g.(utg_selectedUDP) g in
  let '(udp, updatedUDP) := updateChoice NetworkUDP g.(utg_selectedUDP) g in
  let g := set_chosen g.(utg_selectedTCP) udp g in
  if updatedTCP || updatedUDP then
    let '(i, closed) := Interrupt g.(utg_interruptExternal) g.(utg_interruptGroup) in (set_utgroup i g, closed)
  else (g, []).

(** The loop of [urlTest]: an outbound whose delay is recent is not tested; [test]
    is the result of testing the outbound of a tag, none when there is no such
    outbound.  Tests run at the same time, each on a tag of its own. *)
Fixpoint testOutbounds (test : string -> option (result error Z)) (force : bool) (interval now : Z) (l : list Node)
    (checked : gset string) (h : HistoryStorage) (result : gmap string Z) : HistoryStorage * gmap string Z :=
  match l with
  | [] => (h, result)
  | detour :: l =>
      let realTag := RealTag detour in
      if bool_decide (realTag ∈ checked) then testOutbounds test force interval now l checked h result
      else
        let recent := match LoadURLTestHistory realTag h with Some history => now - history.(his_Time) <? interval | None => false end in
        if negb force && recent then testOutbounds test force interval now l checked h result
        else
          let checked := {[ realTag ]} ∪ checked in
          match test realTag with
          | None => testOutbounds test force interval now l checked h result
          | Some (Err _) => testOutbounds test force interval now l checked (DeleteURLTestHistory realTag h) result
          | Some (Ok t) =>
              testOutbounds test force interval now l checked (StoreURLTestHistory realTag (mkURLTestHistory now t) h)
                (<[ detour.(nodeTag) := t ]> result)
          end
  end.

(** [urlTest], when no other check is running: the group, the connections closed,
    the delays. *)
Definition urlTest (test : string -> option (result error Z)) (force : bool) (now : Z) (g : URLTestGroup)
  : URLTestGroup * list Z * gmap string Z :=
  let '(h, result) := testOutbounds test force g.(utg_interval) now g.(utg_outbounds) ∅ g.(utg_history) ∅ in
  let '(g, closed) := performUpdateCheck (set_history h g) in
  (g, closed, result).

(** [loopCheck] when it starts, and when its ticker fires: whether the loop goes on. *)
Definition loopEnter (test : string -> option (result error Z)) (now : Z) (g : URLTestGroup) : URLTestGroup * list Z :=
  if g.(utg_interval) <? now - g.(utg_lastActive) then
    let '(g, closed, _) := urlTest test false now (set_activity g.(utg_ticker) g.(utg_started) now g) in (g, closed)
  else (g, []).

Definition loopTick (test : string -> option (result error Z)) (now : Z) (g : URLTestGroup) : URLTestGroup * list Z * bool :=
  if g.(utg_idleTimeout) <? now - g.(utg_lastActive) then (set_activity false g.(utg_started) g.(utg_lastActive) g, [], false)
  else let '(g, closed, _) := urlTest test false now g in (g, closed, true).

(** ** The outbound of a URL test *)

(** [URLTestOutboundOptions], without the link of the tests. *)
Record URLTestOptions := mkURLTestOptions {
  uto_Outbounds : list string;
  uto_Interval : Z;
  uto_Tolerance : Z;
  uto_IdleTimeout : Z;
  uto_InterruptExistConnections : bool;
}.

Record URLTest := mkURLTest { ut_options : URLTestOptions; ut_group : option URLTestGroup }.

Definition NewURLTest (options : URLTestOptions) : result error URLTest :=
  if negb (nonempty options.(uto_Outbounds)) then Err (E_New ["missing tags"]) else Ok (mkURLTest options None).

(** The loop of [Start] over the tags. *)
Fixpoint groupOutbounds (lookup : string -> option Node) (i : Z) (tags : list string) : result error (list Node) :=
  match tags with
  | [] => Ok []
  | tag :: tags =>
      match lookup tag with
      | None => Err (E_New ["outbound "; itoa i; " not found: "; tag])
      | Some detour => match groupOutbounds lookup (i + 1) tags with Err e => Err e | Ok outbounds => Ok (detour :: outbounds) end
      end
  end.

Definition URLTest_Start (lookup : string -> option Node) (history : HistoryStorage) (s : URLTest) : URLTest * option error :=
  let o := s.(ut_options) in
  match groupOutbounds lookup 0 o.(uto_Outbounds) with
  | Err e => (s, Some e)
  | Ok outbounds =>
      match NewURLTestGroup outbounds o.(uto_Interval) o.(uto_Tolerance) o.(uto_IdleTimeout) history
              o.(uto_InterruptExistConnections) with
      | Err e => (s, Some e)
      | Ok group => (mkURLTest o (Some group), None)
      end
  end.

(** The outbound in use, or what [Select] gives for the network that was asked. *)
Definition chosenOutbound (selected : option Node) (network : string) (g : URLTestGroup) : option Node :=
  match selected with Some o => Some o | None => (Select network g).1 end.

(** A connection of the group; an error forgets the delay of the outbound. *)
Definition URLTest_connect (connect : Node -> result error Z) (external : bool) (outbound : option Node) (g : URLTestGroup)
  : URLTestGroup * result error (Node * Z * nat) :=
  match outbound with
  | None => (g, Err (E_New ["missing supported outbound"]))
  | Some outbound =>
      match connect outbound with
      | Ok conn =>
          let '(i, element) := NewConn conn external g.(utg_interruptGroup) in
          (set_utgroup i g, Ok (outbound, conn, element))
      | Err e => (set_history (DeleteURLTestHistory outbound.(nodeTag) g.(utg_history)) g, Err e)
      end
  end.

(** The boolean is whether a loop of checks starts. *)
Definition URLTest_DialContext (network : string) (external : bool) (now : Z) (g : URLTestGroup)
  : URLTestGroup * bool * result error (Node * Z * nat) :=
  let '(g, loop) := Touch now g in
  let name := networkName network in
  let dial selected :=
    let '(g, r) := URLTest_connect (fun o => ob_DialContext o network) external (chosenOutbound selected network g) g in (g, loop, r) in
  if String.eqb name NetworkTCP then dial g.(utg_selectedTCP)
  else if String.eqb name NetworkUDP then dial g.(utg_selectedUDP)
  else (g, loop, Err (ErrUnknownNetwork network)).

Definition URLTest_ListenPacket (external : bool) (now : Z) (g : URLTestGroup)
  : URLTestGroup * bool * result error (Node * Z * nat) :=
  let '(g, loop) := Touch now g in
  let '(g, r) := URLTest_connect ob_ListenPacket external (chosenOutbound g.(utg_selectedUDP) NetworkUDP g) g in (g, loop, r).

Definition URLTest_Now (g : URLTestGroup) : string :=
  match g.(utg_selectedTCP), g.(utg_selectedUDP) with
  | Some o, _ => o.(nodeTag)
  | None, Some o => o.(nodeTag)
  | None, None => ""
  end.

Definition URLTest_DirectRoute (network : string) (now : Z) (g : URLTestGroup) : URLTestGroup * bool * outcome (result error Node) :=
  let '(g, loop) := Touch now g in
  (g, loop,
   match chosenOutbound g.(utg_selectedTCP) NetworkTCP g with
   | None => Ret (Err (E_New ["missing supported outbound"]))
   | Some selected =>
       if negb (supportsNetwork network selected)
       then Ret (Err (E_New [network; " is not supported by outbound: "; selected.(nodeTag)]))
       else if ob_isDirectRoute selected then Ret (Ok selected) else Panic
   end).

End Groups.

(** The cache file keeps selections. *)
#[export] Instance cache_selection {EX : Exceptions} {BO : Bolt} : SelectionStore CacheFile := {|
  selection_Load := LoadSelected;
  selection_Store := StoreSelected;
|}.
