(* ===== verification/OutboundGroupsProps.v ===== *)
(** * Outbound groups: the choices they make

    The URL test keeps an outbound whose delay is within the tolerance of the best
    and leaves the one in use only for one that is faster by more than the tolerance;
    a selector starts again with what was selected last. *)

From S2P Require Import Prelude GoStrings GoTime RuleItems RuleMatch RuleBuild GoBinary StartOrder FakeIP FakeIPProps CacheFile BoltLaws CacheFileProps CacheFileTheorems CacheFileFake OutboundGroups.

Local Open Scope string_scope.
Local Open Scope list_scope.
Local Open Scope Z_scope.

Section URLTestProps.
Context `{OB : Outbounds}.
Implicit Types (g : URLTestGroup) (o : Node) (h : HistoryStorage).

(** The delay a history has of an outbound. *)
Definition delayOf h o : option Z := his_Delay <$> LoadURLTestHistory (RealTag o) h.

(** Delays [uint16] arithmetic is exact on; 0 is what the loop takes for none. *)
Definition delayOk (tolerance d : Z) : Prop := 0 < d /\ d + tolerance < 2 ^ 16.
Definition historyOk (tolerance : Z) h : Prop := forall tag r, h !! tag = Some r -> delayOk tolerance r.(his_Delay).

Definition usable network g o : Prop := o ∈ g.(utg_outbounds) /\ supportsNetwork network o = true.

Definition supportedNetwork (network : string) : Prop := network = NetworkTCP \/ network = NetworkUDP.

(** The selected outbounds are outbounds of the group for their networks. *)
Definition selectedOf network g : option Node :=
  if String.eqb network NetworkTCP then g.(utg_selectedTCP) else g.(utg_selectedUDP).
Definition groupOk g : Prop := forall network o, supportedNetwork network -> selectedOf network g = Some o -> usable network g o.

(** What the loop of [Select] keeps: the least delay with its outbound. *)
Definition accOk g (acc : Z * option Node) : Prop :=
  match acc with (d, Some o) => delayOf g.(utg_history) o = Some d | (d, None) => d = 0 end.

(** The outcome of the loop over [l] from [acc]. *)
Record chosenFrom network g (acc : Z * option Node) (l : list Node) (r : Z * option Node) : Prop := {
  cf_ok : accOk g r;
  cf_from : r = acc \/ exists o, r.2 = Some o /\ o ∈ l /\ supportsNetwork network o = true;
  cf_least : forall o d, o ∈ l -> supportsNetwork network o = true -> delayOf g.(utg_history) o = Some d ->
    r.2 <> None /\ r.1 <= d + g.(utg_tolerance);
  cf_gain : acc.2 <> None -> r = acc \/ (r.2 <> None /\ r.1 + g.(utg_tolerance) < acc.1);
}.

Section Loop.
Variables (network : string) (g : URLTestGroup).
Hypothesis Htol : 0 <= g.(utg_tolerance).
Hypothesis Hok : historyOk g.(utg_tolerance) g.(utg_history).

Lemma delay_ok o d : delayOf g.(utg_history) o = Some d -> delayOk g.(utg_tolerance) d.
Proof.
  unfold delayOf, LoadURLTestHistory. destruct (_ !! _) as [r|] eqn:E; [|done]. intros [= <-]. by eapply Hok.
Qed.

Lemma selectStep_eq acc o : accOk g acc ->
  selectStep network g acc o =
    (if supportsNetwork network o then
       match delayOf g.(utg_history) o with
       | Some d => match acc.2 with
                   | Some _ => if d + g.(utg_tolerance) <? acc.1 then (d, Some o) else acc
                   | None => (d, Some o)
                   end
       | None => acc
       end
     else acc).
Proof.
  destruct acc as [m c]. unfold selectStep. intros Ha. destruct (supportsNetwork network o); [|done]. cbn [negb snd fst].
  unfold delayOf. destruct (LoadURLTestHistory _ _) as [r|] eqn:E; [|done]. cbn.
  assert (delayOf g.(utg_history) o = Some r.(his_Delay)) as Hd by (unfold delayOf; by rewrite E).
  destruct (delay_ok _ _ Hd) as [Hp Hb]. unfold wrapu. rewrite Z.mod_small by lia.
  destruct c as [c|]; cbn in Ha.
  - destruct (delay_ok _ _ Ha). by replace (m =? 0) with false by lia.
  - by subst m.
Qed.

(** An outbound that is passed over, and one that is taken. *)
Lemma loop_skip acc o l r : chosenFrom network g acc l r ->
  (supportsNetwork network o = true -> forall d, delayOf g.(utg_history) o = Some d -> acc.2 <> None /\ acc.1 <= d + g.(utg_tolerance)) ->
  chosenFrom network g acc (o :: l) r.
Proof.
  intros [H1 H2 H3 H4] Hs. split; [done| | |done].
  - destruct H2 as [?|(x & ? & ? & ?)]; [by left|right; exists x; set_solver].
  - intros x d [->|Hx]%elem_of_cons Es Ed; [|by eapply H3]. destruct (Hs Es d Ed) as [Hn Hle].
    destruct (H4 Hn) as [->|[? ?]]; [done|split; [done|lia]].
Qed.

Lemma loop_take acc o d l r : chosenFrom network g (d, Some o) l r -> supportsNetwork network o = true ->
  delayOf g.(utg_history) o = Some d -> (acc.2 <> None -> d + g.(utg_tolerance) < acc.1) ->
  chosenFrom network g acc (o :: l) r.
Proof.
  intros [H1 H2 H3 H4] Es Ed Hg. assert (r.2 <> None /\ r.1 <= d) as [Hn Hle].
  { destruct H4 as [->|[? ?]]; [done|done|]. cbn in *. split; [done|lia]. }
  split; [done| | |].
  - right. destruct H2 as [->|(x & ? & ? & ?)]; [exists o; set_solver|exists x; set_solver].
  - intros x dx [->|Hx]%elem_of_cons ? Ex; [|by eapply H3]. simplify_eq. split; [done|lia].
  - intros Ha. right. specialize (Hg Ha). split; [done|lia].
Qed.

Lemma select_loop l : forall acc, accOk g acc -> chosenFrom network g acc l (foldl (selectStep network g) acc l).
Proof.
  induction l as [|o l IH]; intros acc Ha; cbn [foldl].
  { split; [done|by left| |by left]. intros ?? []%elem_of_nil. }
  rewrite selectStep_eq by done.
  destruct (supportsNetwork network o) eqn:Es; [|by apply loop_skip; [apply IH|congruence]].
  destruct (delayOf g.(utg_history) o) as [d|] eqn:Ed; [|by apply loop_skip; [apply IH|congruence]].
  assert (accOk g (d, Some o)) as Hn by done.
  destruct acc as [m [c|]]; cbn [fst snd]; [|by eapply loop_take; [apply IH| | |]].
  destruct (d + _ <? m) eqn:El; zbool.
  - by eapply loop_take; [apply IH| | |].
  - apply loop_skip; [by apply IH|]. intros _ ??. simplify_eq. by split.
Qed.

End Loop.

(** What a check may leave in use for a network, [before] being in use before it. *)
Record goodChoice network g (before after : option Node) : Prop := {
  gc_usable : forall o, after = Some o -> usable network g o;
  gc_found : forall o, usable network g o -> after <> None;
  gc_least : forall o d, usable network g o -> delayOf g.(utg_history) o = Some d ->
    exists c dc, after = Some c /\ delayOf g.(utg_history) c = Some dc /\ dc <= d + g.(utg_tolerance);
  gc_stay : forall c dc, before = Some c -> delayOf g.(utg_history) c = Some dc ->
    after = Some c \/ exists o d, after = Some o /\ delayOf g.(utg_history) o = Some d /\ d + g.(utg_tolerance) < dc;
  gc_keep : (forall o, usable network g o -> delayOf g.(utg_history) o = None) -> before <> None -> after = before;
}.

Lemma currentChoice_eq network g : supportedNetwork network ->
  currentChoice network g =
    match selectedOf network g with
    | Some o => match delayOf g.(utg_history) o with Some d => (d, Some o) | None => (0, None) end
    | None => (0, None)
    end.
Proof.
  unfold currentChoice, selectedOf, delayOf. intros [->| ->]; cbn [String.eqb]; cbn;
    (destruct (_ : option Node) as [o|]; [|done]; by destruct (LoadURLTestHistory _ _)).
Qed.

Lemma updateChoice_measured network selected g o : Select network g = (Some o, true) -> (updateChoice network selected g).1 = Some o.
Proof.
  unfold updateChoice. intros ->. destruct selected as [c|]; [|done]. cbn [andb]. by case_bool_decide; subst.
Qed.

Lemma updateChoice_unmeasured network selected g r : Select network g = (r, false) ->
  (updateChoice network selected g).1 = match selected with Some _ => selected | None => r end.
Proof. unfold updateChoice. intros ->. by destruct r, selected. Qed.

Lemma Select_good network g : supportedNetwork network -> 0 <= g.(utg_tolerance) -> historyOk g.(utg_tolerance) g.(utg_history) ->
  (forall o, selectedOf network g = Some o -> usable network g o) ->
  goodChoice network g (selectedOf network g) (updateChoice network (selectedOf network g) g).1.
Proof.
  intros Hn Ht Hh Hs. pose proof (currentChoice_eq network g Hn) as Hc.
  assert (accOk g (currentChoice network g)) as Ha.
  { rewrite Hc. destruct (selectedOf _ _) as [o|]; [|done]. by destruct (delayOf _ o) eqn:E. }
  destruct (select_loop network g Ht Hh g.(utg_outbounds) _ Ha) as [H1 H2 H3 H4].
  destruct (foldl _ (currentChoice network g) _) as [m [o|]] eqn:Er; cbn [snd fst] in *.
  - rewrite (updateChoice_measured _ _ _ o) by (unfold Select; by rewrite Er).
    assert (usable network g o) as Hu.
    { destruct H2 as [E|(x & [= <-] & ? & ?)]; [|done]. apply Hs. rewrite Hc in E.
      destruct (selectedOf _ _) as [c|]; [|done]. by destruct (delayOf _ c); simplify_eq. }
    split; [by intros ? [= <-]|done| | |].
    + intros x d [Hx Hxs] Hd. destruct (H3 x d Hx Hxs Hd) as [_ Hle]. by exists o, m.
    + intros c dc Ec Ed. rewrite Hc, Ec, Ed in H4. destruct H4 as [?|[_ ?]]; [done|left; congruence|].
      right. by exists o, m.
    + intros Hno _. specialize (Hno o Hu). cbn in H1. congruence.
  - rewrite (updateChoice_unmeasured _ _ _ (List.find (supportsNetwork network) g.(utg_outbounds))) by (unfold Select; by rewrite Er).
    assert (forall x d, usable network g x -> delayOf g.(utg_history) x = Some d -> False) as Hno.
    { intros x d [??] ?. by destruct (H3 x d) as [? _]. }
    destruct (selectedOf network g) as [c|] eqn:Ec.
    + split; [by apply Hs|done|by intros ??? ?%Hno| |done]. intros ??? ?. by left.
    + split; [|  |by intros ??? ?%Hno|done|done].
      * intros x [Hx ?]%List.find_some. split; [by apply list_elem_of_In|done].
      * intros x [Hx Hxs] Hf. apply list_elem_of_In in Hx. by rewrite (List.find_none _ _ Hf x Hx) in Hxs.
Qed.

(** What a check makes of the history of a tag: a delay younger than the interval is
    kept unless the check is forced, and a tag without an outbound is left alone. *)
Definition tested (test : string -> option (result error Z)) (force : bool) (interval now : Z) h (tag : string) : option URLTestHistory :=
  let recent := match h !! tag with Some history => now - history.(his_Time) <? interval | None => false end in
  if negb force && recent then h !! tag
  else match test tag with
       | None => h !! tag
       | Some (Err _) => None
       | Some (Ok t) => Some (mkURLTestHistory now t)
       end.

Lemma tested_same test force interval now h h' tag : h !! tag = h' !! tag ->
  tested test force interval now h tag = tested test force interval now h' tag.
Proof. unfold tested. by intros ->. Qed.

Lemma testOutbounds_lookup test force interval now l : forall checked h result tag,
  (testOutbounds test force interval now l checked h result).1 !! tag =
    if bool_decide (tag ∈ map RealTag l) && negb (bool_decide (tag ∈ checked)) then tested test force interval now h tag else h !! tag.
Proof.
  induction l as [|o l IH]; intros checked h result tag; [done|]. cbn [testOutbounds map].
  unfold LoadURLTestHistory. destruct (decide (tag = RealTag o)) as [->|Hne].
  - rewrite (bool_decide_eq_true_2 (RealTag o ∈ RealTag o :: _)) by set_solver.
    case_bool_decide as Hc; [by rewrite IH, (bool_decide_eq_true_2 (_ ∈ checked)), andb_false_r by done|]. cbn [andb negb].
    assert (forall r, negb (bool_decide (RealTag o ∈ ({[RealTag o]} ∪ checked : gset string))) && r = false) as Hin
      by (intros; by rewrite bool_decide_eq_true_2 by set_solver).
    unfold tested. destruct (negb force && _) eqn:Er.
    + rewrite IH. unfold tested. rewrite Er. clear Er. by destruct (_ && _).
    + destruct (test (RealTag o)) as [[t|e]|]; rewrite IH, andb_comm, Hin; [apply lookup_insert_eq|apply lookup_delete_eq|done].
  - assert (bool_decide (tag ∈ RealTag o :: map RealTag l) = bool_decide (tag ∈ map RealTag l)) as Hm by (apply bool_decide_ext; set_solver).
    assert (bool_decide (tag ∈ {[RealTag o]} ∪ checked) = bool_decide (tag ∈ checked)) as Hk by (apply bool_decide_ext; set_solver).
    rewrite Hm. destruct (bool_decide (RealTag o ∈ checked)); [apply IH|]. destruct (negb force && _); [apply IH|].
    destruct (test (RealTag o)) as [[t|e]|]; rewrite IH, Hk; [| |done].
    + assert (StoreURLTestHistory (RealTag o) (mkURLTestHistory now t) h !! tag = h !! tag) as E by (by apply lookup_insert_ne).
      by rewrite E, (tested_same _ _ _ _ _ _ _ E).
    + assert (DeleteURLTestHistory (RealTag o) h !! tag = h !! tag) as E by (by apply lookup_delete_ne).
      by rewrite E, (tested_same _ _ _ _ _ _ _ E).
Qed.

(** Whether an outbound in use was replaced. *)
Definition replaced (before after : option Node) : bool :=
  match before with Some c => negb (bool_decide (after = Some c)) | None => false end.

Lemma updateChoice_replaced network selected g : (updateChoice network selected g).2 = replaced selected (updateChoice network selected g).1.
Proof.
  unfold updateChoice, replaced. destruct (Select network g) as [[o|] []], selected as [c|]; cbn [andb fst snd];
    rewrite ?bool_decide_eq_true_2 by done; try done.
  case_bool_decide as E; cbn [negb fst snd]; [by rewrite bool_decide_eq_true_2|]. by rewrite bool_decide_eq_false_2 by congruence.
Qed.

Lemma performUpdateCheck_choices g :
  let g' := (performUpdateCheck g).1 in
  g'.(utg_selectedTCP) = (updateChoice NetworkTCP g.(utg_selectedTCP) g).1 /\
  g'.(utg_selectedUDP) = (updateChoice NetworkUDP g.(utg_selectedUDP) (set_chosen g'.(utg_selectedTCP) g.(utg_selectedUDP) g)).1 /\
  g'.(utg_outbounds) = g.(utg_outbounds) /\ g'.(utg_history) = g.(utg_history) /\ g'.(utg_tolerance) = g.(utg_tolerance) /\
  (performUpdateCheck g).2 =
    if replaced g.(utg_selectedTCP) g'.(utg_selectedTCP) || replaced g.(utg_selectedUDP) g'.(utg_selectedUDP)
    then (Interrupt g.(utg_interruptExternal) g.(utg_interruptGroup)).2 else [].
Proof.
  unfold performUpdateCheck. pose proof (updateChoice_replaced NetworkTCP g.(utg_selectedTCP) g) as Ht.
  destruct (updateChoice NetworkTCP _ g) as [tcp b] eqn:Et. cbn in Ht.
  change (utg_selectedUDP (set_chosen tcp (utg_selectedUDP g) g)) with g.(utg_selectedUDP).
  pose proof (updateChoice_replaced NetworkUDP g.(utg_selectedUDP) (set_chosen tcp g.(utg_selectedUDP) g)) as Hu.
  destruct (updateChoice NetworkUDP _ _) as [udp b'] eqn:Eu. cbn in Hu.
  destruct (b || b') eqn:Eb; (split; [done|]; split; [done|]; split; [done|]; split; [done|]; split; [done|]);
    cbn; by rewrite <- Ht, <- Hu, Eb.
Qed.

Lemma goodChoice_same network g g' before after : g'.(utg_outbounds) = g.(utg_outbounds) -> g'.(utg_history) = g.(utg_history) ->
  g'.(utg_tolerance) = g.(utg_tolerance) -> goodChoice network g before after -> goodChoice network g' before after.
Proof.
  intros E1 E2 E3 [H1 H2 H3 H4 H5]. unfold usable in *. rewrite <- E1 in *. rewrite <- E2 in *. rewrite <- E3 in *. by split.
Qed.

Lemma performUpdateCheck_good g : 0 <= g.(utg_tolerance) -> historyOk g.(utg_tolerance) g.(utg_history) -> groupOk g ->
  forall network, supportedNetwork network ->
    goodChoice network (performUpdateCheck g).1 (selectedOf network g) (selectedOf network (performUpdateCheck g).1).
Proof.
  intros Ht Hh Hg network Hn. destruct (performUpdateCheck_choices g) as (E1 & E2 & E3 & E4 & E5 & _).
  destruct Hn as [->| ->].
  - apply (goodChoice_same _ g); [done..|]. unfold selectedOf in *; cbn. rewrite E1. apply (Select_good NetworkTCP g); [by left|done|done|]. intros o. by apply Hg; left.
  - set (g1 := set_chosen (utg_selectedTCP (performUpdateCheck g).1) g.(utg_selectedUDP) g) in *.
    apply (goodChoice_same _ g1); [done..|]. unfold selectedOf in *; cbn. rewrite E2.
    apply (Select_good NetworkUDP g1); [by right|done|done|].
    intros o Ho. exact (Hg NetworkUDP o (or_intror eq_refl) Ho).
Qed.

Lemma testOutbounds_ok test force interval now l checked h result tolerance : historyOk tolerance h ->
  (forall tag t, test tag = Some (Ok t) -> delayOk tolerance t) ->
  historyOk tolerance (testOutbounds test force interval now l checked h result).1.
Proof.
  intros Hh Ht tag r. rewrite testOutbounds_lookup. destruct (_ && _); [|apply Hh]. unfold tested.
  destruct (negb force && _); [apply Hh|]. destruct (test tag) as [[t|e]|] eqn:E; [|done|apply Hh].
  intros [= <-]. by eapply Ht.
Qed.

(** C19: a check of a URL test group whose delays are positive and stay below [2^16] with
    the tolerance added, and whose outbounds in use belong to it: every outbound of the group is measured unless its delay is
    recent; afterwards the outbound in use for TCP and the one for UDP belong to the
    group and carry that network, there is one whenever the group has one, its delay is
    within the tolerance of every measured one, an outbound in use that still answers is
    only left for one that is faster by more than the tolerance, it stays when nothing
    was measured, and connections are interrupted exactly when one in use was replaced. *)
Theorem url_test_choice (test : string -> option (result error Z)) (force : bool) (now : Z) (g : URLTestGroup) :
  0 <= g.(utg_tolerance) -> historyOk g.(utg_tolerance) g.(utg_history) -> groupOk g ->
  (forall tag t, test tag = Some (Ok t) -> delayOk g.(utg_tolerance) t) ->
  let '(g', closed, _) := urlTest test force now g in
  groupOk g' /\
  (forall o, o ∈ g.(utg_outbounds) ->
    g'.(utg_history) !! RealTag o = tested test force g.(utg_interval) now g.(utg_history) (RealTag o)) /\
  (forall network, supportedNetwork network -> goodChoice network g' (selectedOf network g) (selectedOf network g')) /\
  closed = if replaced g.(utg_selectedTCP) g'.(utg_selectedTCP) || replaced g.(utg_selectedUDP) g'.(utg_selectedUDP)
           then (Interrupt g.(utg_interruptExternal) g.(utg_interruptGroup)).2 else [].
Proof.
  intros Htol Hh Hg Ht. unfold urlTest.
  pose proof (testOutbounds_ok test force g.(utg_interval) now g.(utg_outbounds) ∅ g.(utg_history) ∅ _ Hh Ht) as Hh'.
  pose proof (testOutbounds_lookup test force g.(utg_interval) now g.(utg_outbounds) ∅ g.(utg_history) ∅) as Hl.
  destruct (testOutbounds _ _ _ _ _ _ _ _) as [h result]. cbn [fst] in Hh', Hl.
  destruct (performUpdateCheck_choices (set_history h g)) as (_ & _ & _ & E4 & _ & E6).
  pose proof (performUpdateCheck_good (set_history h g) Htol Hh' Hg) as Hgood.
  destruct (performUpdateCheck (set_history h g)) as [g' closed]. cbn [fst snd] in *.
  split; [|split; [|split; [exact Hgood|exact E6]]].
  - intros network o Hn Ho. by apply (gc_usable _ _ _ _ (Hgood network Hn)).
  - intros o Ho. rewrite E4. change (utg_history (set_history h g)) with h.
    rewrite Hl, (bool_decide_eq_true_2 (RealTag o ∈ map RealTag _)); [done|].
    apply list_elem_of_fmap. by exists o.
Qed.

End URLTestProps.

(** ** The selector

    Stated against what a selector needs of the store of selections; the cache file
    is such a store. *)

(** What is stored for a group is loaded, other groups keep what they had, and loading
    changes nothing. *)
Class SelectionLaws {EX : Exceptions} (S : Type) {SS : SelectionStore S} := {
  selHealthy : S -> Prop;
  selKey : string -> Prop;
  selValue : string -> Prop;
  selection_load : forall c g, selHealthy c -> (selection_Load g c).1 = c;
  selection_stored : forall c g v, selHealthy c -> selKey g -> selValue v ->
    let c' := (selection_Store g v c).1 in
    selHealthy c' /\ (selection_Load g c').2 = v /\ forall g', g' <> g -> (selection_Load g' c').2 = (selection_Load g' c).2;
}.

Section Restart.
Context `{OB : Outbounds} {S : Type} {SS : SelectionStore S} {SL : SelectionLaws S}.
Implicit Types (s : Selector) (c : S) (m : gmap string Node).

Lemma findOutbounds_keys lookup tags : forall i m tag, is_Some ((findOutbounds lookup i tags m).1 !! tag) -> tag ∈ tags \/ is_Some (m !! tag).
Proof.
  induction tags as [|t tags IH]; intros i m tag; cbn [findOutbounds]; [by right|].
  destruct (lookup t) as [o|]; cbn [fst]; [|by right]. intros [Ht|[o' Ho]]%IH; [left; set_solver|].
  destruct (decide (tag = t)) as [->|]; [left; set_solver|]. right. rewrite lookup_insert_ne in Ho by done. by exists o'.
Qed.

Lemma findOutbounds_found lookup tags : forall i m m', findOutbounds lookup i tags m = (m', None) ->
  forall tag, m' !! tag = if bool_decide (tag ∈ tags) then lookup tag else m !! tag.
Proof.
  induction tags as [|t tags IH]; intros i m m'; cbn [findOutbounds]; [by intros [= <-]|].
  destruct (lookup t) as [o|] eqn:E; [|done]. intros Hf tag. rewrite (IH _ _ _ Hf tag).
  destruct (decide (tag = t)) as [->|Hne].
  - rewrite (bool_decide_eq_true_2 (t ∈ t :: _)), lookup_insert_eq, E by set_solver. by case_match.
  - rewrite lookup_insert_ne by done. by rewrite (bool_decide_ext (tag ∈ t :: tags) (tag ∈ tags)) by set_solver.
Qed.

Lemma findOutbounds_some lookup tags : forall i m m', findOutbounds lookup i tags m = (m', None) -> forall tag, tag ∈ tags -> lookup tag <> None.
Proof.
  induction tags as [|t tags IH]; intros i m m'; cbn [findOutbounds]; [set_solver|].
  destruct (lookup t) as [o|] eqn:E; [|done]. intros Hf tag [->|Hin]%elem_of_cons; [by rewrite E|by eapply IH].
Qed.

(** A selector as it was configured, and the outbounds its tags name. *)
Variables (lookup : string -> option Node) (s0 : Selector) (m : gmap string Node).
Hypothesis Hfound : findOutbounds lookup 0 s0.(sel_tags) s0.(sel_outbounds) = (m, None).
Hypothesis Hfresh : s0.(sel_outbounds) = ∅.
Hypothesis Hkey : selKey s0.(sel_Tag).
Hypothesis Htag : s0.(sel_Tag) <> "".
Hypothesis Hvalues : forall tag, tag ∈ s0.(sel_tags) -> tag <> "" /\ selValue tag.

Lemma found_lookup tag : m !! tag = if bool_decide (tag ∈ s0.(sel_tags)) then lookup tag else None.
Proof. by rewrite (findOutbounds_found _ _ _ _ _ Hfound tag), Hfresh, lookup_empty. Qed.

Lemma found_tag tag o : m !! tag = Some o -> tag ∈ s0.(sel_tags) /\ lookup tag = Some o.
Proof. rewrite found_lookup. by case_bool_decide. Qed.

Lemma unknown_tag tag : m !! tag = None -> tag ∉ s0.(sel_tags).
Proof.
  rewrite found_lookup. case_bool_decide as Hin; [|done]. intros Hn. by destruct (findOutbounds_some _ _ _ _ _ Hfound tag Hin).
Qed.

(** A started selector with its store: starting the configured one again would select
    the same outbound. *)
Record started s c : Prop := {
  st_healthy : selHealthy c;
  st_tag : s.(sel_Tag) = s0.(sel_Tag);
  st_tags : s.(sel_tags) = s0.(sel_tags);
  st_outbounds : s.(sel_outbounds) = m;
  st_selected : exists t o, t ∈ s0.(sel_tags) /\ lookup t = Some o /\ s.(sel_selected) = Some o;
  st_again : exists s', Selector_Start lookup s0 (Some c) = Ret (s', Some c, None) /\ s'.(sel_selected) = s.(sel_selected);
}.

Lemma savedSelection_eq s c : s.(sel_Tag) = s0.(sel_Tag) -> selHealthy c -> savedSelection s (Some c) =
  (Some c, if negb (String.eqb (selection_Load s0.(sel_Tag) c).2 "") then s.(sel_outbounds) !! (selection_Load s0.(sel_Tag) c).2 else None).
Proof.
  intros Et Hc. unfold savedSelection. rewrite Et. destruct (String.eqb_spec s0.(sel_Tag) ""); [done|]. cbn [negb].
  pose proof (selection_load c s0.(sel_Tag) Hc). destruct (selection_Load _ c) as [c' v]. cbn in *. by subst.
Qed.

Lemma Start_started s c (c' : option S) : selHealthy c -> nonempty s0.(sel_tags) = true -> Selector_Start lookup s0 (Some c) = Ret (s, c', None) ->
  c' = Some c /\ started s c.
Proof.
  intros Hc Hne E. pose proof E as E0. revert E. unfold Selector_Start. rewrite Hfound, savedSelection_eq by done.
  set (saved := if negb _ then _ else None).
  assert (forall t o, m !! t = Some o -> Selector_Start lookup s0 (Some c) = Ret (set_sel_selected (Some o) (set_sel_outbounds m s0), Some c, None) ->
    Some c = Some c /\ started (set_sel_selected (Some o) (set_sel_outbounds m s0)) c) as Hgo.
  { intros t o [??]%found_tag Es. split; [done|]. split; try done; [by exists t, o|]. by eexists. }
  destruct saved as [o|] eqn:Es.
  { subst saved. destruct (negb _); [|done]. intros [= <- <-]. by eapply Hgo. }
  clear saved Es. destruct (negb (String.eqb _ "")); cbn [sel_outbounds set_sel_outbounds sel_defaultTag sel_tags].
  - destruct (m !! _) as [o|] eqn:Em; [|done]. intros [= <- <-]. by eapply Hgo.
  - destruct (sel_tags s0) as [|tag tags] eqn:Et in |- *; [done|]. destruct (m !! tag) as [o|] eqn:Em; [intros [= <- <-]; by eapply Hgo|].
    apply unknown_tag in Em. rewrite Et in Em. set_solver.
Qed.

Lemma SelectOutbound_started s c tag : started s c ->
  exists s' c' closed ok, SelectOutbound tag s (Some c) = (s', Some c', closed, ok) /\ started s' c' /\
    (ok = true -> s'.(sel_selected) = lookup tag) /\ (ok = false -> s' = s) /\ (ok = true <-> tag ∈ s0.(sel_tags)).
Proof.
  intros [Hc Et Ets Eo Hs Ha]. unfold SelectOutbound. rewrite Eo.
  destruct (m !! tag) as [o|] eqn:Em.
  2: { exists s, c, [], false. apply unknown_tag in Em. by repeat split. }
  destruct (found_tag tag o Em) as [Hin Hl].
  case_bool_decide as Eq.
  { exists s, c, [], true. split; [done|]. split; [by split|]. split; [intros _; by rewrite Eq|]. split; [done|]. by split. }
  cbn [sel_Tag set_sel_selected]. rewrite Et. destruct (String.eqb_spec s0.(sel_Tag) ""); [done|]. cbn [negb].
  destruct (Hvalues tag Hin) as [Hne Hv]. destruct (selection_stored c s0.(sel_Tag) tag Hc Hkey Hv) as (Hc' & Hld & _).
  destruct (selection_Store s0.(sel_Tag) tag c) as [c' e]. cbn [fst] in *.
  destruct (Interrupt _ _) as [g closed]. eexists _, c', closed, true. split; [done|].
  split; [|split; [intros _; by rewrite Hl|by split]].
  split; try done; [by exists tag, o|]. exists (set_sel_selected (Some o) (set_sel_outbounds m s0)). split; [|done]. unfold Selector_Start. rewrite Hfound, savedSelection_eq by done. rewrite Hld.
  destruct (String.eqb_spec tag ""); [done|]. cbn [negb sel_outbounds set_sel_outbounds]. by rewrite Em.
Qed.

End Restart.

(** [SelectOutbound] for each of [chosen] in turn. *)
Definition selectAll `{OB : Outbounds} {S} `{SelectionStore S} (chosen : list string) (s : Selector) (cacheFile : option S) : Selector * option S :=
  foldl (fun '(s, c) tag => let '(s, c, _, _) := SelectOutbound tag s c in (s, c)) (s, cacheFile) chosen.

Section Theorems.
Context `{OB : Outbounds} {S : Type} {SS : SelectionStore S} {SL : SelectionLaws S}.

Lemma selectAll_started lookup s0 m chosen : findOutbounds lookup 0 s0.(sel_tags) s0.(sel_outbounds) = (m, None) -> s0.(sel_outbounds) = ∅ ->
  selKey s0.(sel_Tag) -> s0.(sel_Tag) <> "" -> (forall tag, tag ∈ s0.(sel_tags) -> tag <> "" /\ selValue tag) ->
  forall s (c : S), started lookup s0 m s c -> exists s' c', selectAll chosen s (Some c) = (s', Some c') /\ started lookup s0 m s' c'.
Proof.
  intros Hf Hr Hk Ht Hv. induction chosen as [|tag chosen IH]; intros s c Hs; [by exists s, c|]. unfold selectAll. cbn [foldl].
  destruct (SelectOutbound_started lookup s0 m Hf Hr Hk Ht Hv s c tag Hs) as (s' & c' & closed & ok & -> & Hs' & _). by apply IH.
Qed.

(** A selector that was started with a store of selections and told to select any
    tags, known or not: it can dial (an outbound is selected, one its tags name), and
    starting the same configuration again on that store selects the same outbound. *)
Theorem selector_restart (lookup : string -> option Node) (tag : string) (options : SelectorOptions) (chosen : list string) s0 s1 (c : S) c1 :
  NewSelector tag options = Ok s0 -> selHealthy c -> selKey tag -> tag <> "" ->
  (forall t, t ∈ options.(so_Outbounds) -> t <> "" /\ selValue t) ->
  Selector_Start lookup s0 (Some c) = Ret (s1, c1, None) ->
  exists s2 c2 s3 o, selectAll chosen s1 c1 = (s2, Some c2) /\ s2.(sel_selected) = Some o /\
    (exists t, t ∈ options.(so_Outbounds) /\ lookup t = Some o) /\
    Selector_Start lookup s0 (Some c2) = Ret (s3, Some c2, None) /\ s3.(sel_selected) = Some o.
Proof.
  unfold NewSelector. destruct (negb (nonempty _)) eqn:Ene; [done|]. intros [= <-] Hc Hk Ht Hv E.
  set (s0 := mkSelector _ _ _ _ _ _ _) in *. apply negb_false_iff in Ene.
  destruct (findOutbounds lookup 0 s0.(sel_tags) s0.(sel_outbounds)) as [m [e|]] eqn:Hf.
  { unfold Selector_Start in E. by rewrite Hf in E. }
  destruct (Start_started lookup s0 m Hf eq_refl Hk Ht Hv s1 c c1 Hc Ene E) as [-> Hs].
  destruct (selectAll_started lookup s0 m chosen Hf eq_refl Hk Ht Hv s1 c Hs) as (s2 & c2 & E2 & [? ? ? ? (t & o & ? & ? & Eo) (s3 & E3 & Es)]).
  exists s2, c2, s3, o. rewrite Es. split; [done|]. split; [done|]. split; [by exists t|]. by split.
Qed.

End Theorems.

(** The cache file is a store of selections. *)
#[export, program] Instance cache_selection_laws {EX : Exceptions} {VB : Varbin} {VL : VarbinLaws VB} {BO : Bolt} {BL : BoltLaws BO}
  : SelectionLaws CacheFile := {|
  selHealthy := fun c => exists t, openOn c t;
  selKey := keyOk;
  selValue := valueOk;
|}.
Next Obligation. intros ????? c g (t & Ho). exact (f_equal fst (LoadSelected_get c t g Ho)). Qed.
Next Obligation.
  intros ????? c g v (t & Ho) Hg Hv. destruct (StoreSelected_stores c t g v Ho Hg Hv) as (c' & t' & E & Ho' & _ & Hsel & _).
  assert (forall g', (LoadSelected g' c').2 = if decide (g' = g) then v else (LoadSelected g' c).2) as HL by exact Hsel.
  unfold selection_Store, selection_Load, cache_selection. rewrite E. cbn [fst]. split; [by exists t'|].
  split; [by rewrite HL, decide_True|]. intros g' Hne. by rewrite HL, decide_False.
Qed.

(** ** Examples *)

Module GroupDemo.
#[local] Existing Instance text_exceptions.

Definition tokyo := mkNode 1 "direct" "tokyo" [].
Definition osaka := mkNode 2 "direct" "osaka" [].
Definition lookup (tag : string) : option Node :=
  if String.eqb tag "tokyo" then Some tokyo else if String.eqb tag "osaka" then Some osaka else None.

Definition outbounds : Outbounds := {|
  ob_networks := fun o => if String.eqb o.(nodeTag) "osaka" then [NetworkTCP] else [NetworkTCP; NetworkUDP];
  ob_now := fun _ => None;
  ob_DialContext := fun o _ => Ok o.(nodeId);
  ob_ListenPacket := fun o => Ok o.(nodeId);
  ob_isDirectRoute := fun _ => false;
  ob_isHandler := fun _ => false;
  networkName := id;
  ErrUnknownNetwork := fun n => Errorf n;
|}.
#[local] Existing Instance outbounds.

Definition selectorOptions : SelectorOptions := mkSelectorOptions ["tokyo"; "osaka"] "" true.
Definition selector0 : Selector := mkSelector "proxy" ["tokyo"; "osaka"] "" ∅ None NewGroup true.

Lemma demo_keys t : t ∈ ["tokyo"; "osaka"] -> t <> "" /\ valueOk t.
Proof. intros Ht. repeat (apply elem_of_cons in Ht as [->|Ht]; [split; [done|by vm_compute]|]). by apply elem_of_nil in Ht. Qed.

Definition selector1 : Selector := mkSelector "proxy" ["tokyo"; "osaka"] "" (<["osaka" := osaka]> (<["tokyo" := tokyo]> ∅)) (Some tokyo) NewGroup true.

Lemma selector_restart_witness :
  exists s2 c2 s3 o, selectAll ["osaka"; "nara"] selector1 (Some CacheDemo.fresh) = (s2, Some c2) /\ s2.(sel_selected) = Some o /\
    (exists t, t ∈ ["tokyo"; "osaka"] /\ lookup t = Some o) /\
    Selector_Start lookup selector0 (Some c2) = Ret (s3, Some c2, None) /\ s3.(sel_selected) = Some o.
Proof.
  apply (selector_restart lookup "proxy" selectorOptions ["osaka"; "nara"] selector0 selector1 CacheDemo.fresh (Some CacheDemo.fresh)).
  - reflexivity.
  - exists ∅. apply CacheDemo.fresh_open.
  - split; [done|by vm_compute].
  - done.
  - exact demo_keys.
  - reflexivity.
Defined.

(** Two outbounds for TCP, the first in use for both networks. *)
Definition demoHistory : HistoryStorage := <["tokyo" := mkURLTestHistory 0 300]> ∅.
Definition demoGroup (tolerance : Z) : URLTestGroup :=
  mkURLTestGroup [tokyo; osaka] (3 * minute) tolerance (30 * minute) demoHistory (Some tokyo) (Some tokyo)
    (NewConn 7 true (NewConn 6 false NewGroup).1).1 false true true 0 false.
Definition demoTest (tag : string) : option (result error Z) :=
  if String.eqb tag "tokyo" then Some (Ok 300) else if String.eqb tag "osaka" then Some (Ok 100) else None.

Lemma demoGroup_ok tolerance : groupOk (demoGroup tolerance).
Proof. intros network o [->| ->] [= <-]; (split; [apply list_elem_of_here|reflexivity]). Qed.

Lemma url_test_choice_witness :
  let '(g', closed, _) := urlTest demoTest true (5 * minute) (demoGroup 50) in
  groupOk g' /\
  (forall o, o ∈ [tokyo; osaka] ->
    g'.(utg_history) !! RealTag o = tested demoTest true (3 * minute) (5 * minute) demoHistory (RealTag o)) /\
  (forall network, supportedNetwork network -> goodChoice network g' (Some tokyo) (selectedOf network g')) /\
  closed = if replaced (Some tokyo) g'.(utg_selectedTCP) || replaced (Some tokyo) g'.(utg_selectedUDP) then [6] else [].
Proof.
  assert (forall network, selectedOf network (demoGroup 50) = Some tokyo) as Hsel by (intros; unfold selectedOf; by destruct (String.eqb _ _)).
  pose proof (url_test_choice demoTest true (5 * minute) (demoGroup 50)) as H.
  destruct (urlTest demoTest true (5 * minute) (demoGroup 50)) as [[g' closed] r].
  destruct H as (H1 & H2 & H3 & H4).
  - done.
  - intros tag h Hl. change (<["tokyo" := mkURLTestHistory 0 300]> (∅ : gmap string URLTestHistory) !! tag = Some h) in Hl.
    apply (lookup_insert_Some (M := gmap string)) in Hl as [[_ <-]|[_ Hl]]; [done|].
    by rewrite (lookup_empty (M := gmap string)) in Hl.
  - apply demoGroup_ok.
  - intros tag t. unfold demoTest. destruct (String.eqb _ _); [by intros [= <-]|]. destruct (String.eqb _ _); [by intros [= <-]|done].
  - split; [exact H1|]. split; [exact H2|]. split; [|exact H4]. intros network Hn. rewrite <- (Hsel network). by apply H3.
Defined.

(** What the check of the example does. *)
Lemma demo_check : let '(g', closed, _) := urlTest demoTest true (5 * minute) (demoGroup 50) in
  (g'.(utg_selectedTCP), g'.(utg_selectedUDP), closed) = (Some osaka, Some tokyo, [6]).
Proof. reflexivity. Qed.

(** Delay and tolerance are added in 16 bits and 0 stands for no delay: with a
    tolerance of 65300 the outbound in use (100 ms) is left for one that takes 300 ms,
    because 65600 wraps to 64, while a tolerance of 65000 keeps it; and an outbound
    measured at 0 ms is left for one that takes 300 ms. *)
Theorem url_test_wraps :
  let choose tolerance inUse other :=
    (Select NetworkTCP (set_history (<["tokyo" := mkURLTestHistory 0 inUse]> (<["osaka" := mkURLTestHistory 0 other]> ∅))
       (demoGroup tolerance))).1 in
  choose 65000 100 300 = Some tokyo /\ choose 65300 100 300 = Some osaka /\ choose 50 0 300 = Some osaka.
Proof. split_and!; reflexivity. Qed.

End GroupDemo.
