(* ===== verification/TLSFragment.v ===== *)
(** * Fragmenting TLS handshakes

    [src/common/tlsfragment]: where the server name is in a ClientHello
    ([IndexTLSServerName] and the functions it calls), and the connection that cuts
    the first write inside that name, into TCP segments, TLS records or both.

    Bytes are integers, [len] is the length; an index or a slice out of range panics.
    The loop over the extensions has fuel, [None] standing for a loop that goes on. *)

From S2P Require Import Prelude GoCrypto GoBinary.

Local Open Scope list_scope.
Local Open Scope Z_scope.

(** ** The server name of a ClientHello *)

Definition recordLayerHeaderLen : Z := 5.
Definition handshakeHeaderLen : Z := 6.
Definition randomDataLen : Z := 32.
Definition sessionIDHeaderLen : Z := 1.
Definition cipherSuiteHeaderLen : Z := 2.
Definition compressMethodHeaderLen : Z := 1.
Definition extensionsHeaderLen : Z := 2.
Definition extensionHeaderLen : Z := 4.
Definition sniExtensionHeaderLen : Z := 5.
Definition contentType : Z := 22.
Definition handshakeType : Z := 1.
Definition sniExtensionType : Z := 0.
Definition sniNameDNSHostnameType : Z := 0.
Definition tlsVersionBitmask : Z := 0xFFFC.
Definition tls13 : Z := 0x0304.

Record MyServerName := mkServerName { Index : Z; Length : Z; ServerName : list Z }.

Definition shift (n : Z) (s : MyServerName) : MyServerName := mkServerName (s.(Index) + n) s.(Length) s.(ServerName).

(** The result of a function with fuel: [None] when it ran out. *)
Definition fueled (A : Type) : Type := option (outcome (option A)).
Definition nil {A} : fueled A := Some (Ret None).
Definition run {A B} (m : outcome A) (k : A -> fueled B) : fueled B := match m with Ret a => k a | Panic => Some Panic end.
Definition shifted (n : Z) (r : fueled MyServerName) : fueled MyServerName := fmap (M := option) (fmap (M := outcome) (fmap (M := option) (shift n))) r.

(** The name in the data of the extension. *)
Definition sniName (currentIndex : Z) (sex : list Z) : outcome (option MyServerName) :=
  if len sex <? sniExtensionHeaderLen then Ret None
  else
    sniType ← byteAt 2 sex;
    if negb (sniType =? sniNameDNSHostnameType) then Ret None
    else
      sniLen ← uint16At 3 sex;
      sex ← sliceFrom sniExtensionHeaderLen sex;
      Ret (Some (mkServerName (currentIndex + extensionHeaderLen + sniExtensionHeaderLen) sniLen sex)).

(** [4+exLen] is a [uint16] in the slice expression and an [int] in the index. *)
Fixpoint extensionsLoop (fuel : nat) (exs : list Z) (currentIndex : Z) : fueled MyServerName :=
  match fuel with
  | O => None
  | S fuel =>
      if len exs <=? 0 then nil
      else if len exs <? extensionHeaderLen then nil
      else
        run (uint16At 0 exs) (fun exType =>
        run (uint16At 2 exs) (fun exLen =>
        if len exs <? extensionHeaderLen + exLen then nil
        else
          run (slice extensionHeaderLen (extensionHeaderLen + exLen) exs) (fun sex =>
          if exType =? sniExtensionType then Some (sniName currentIndex sex)
          else run (sliceFrom (wrapu 16 (4 + exLen)) exs) (fun exs => extensionsLoop fuel exs (currentIndex + (4 + exLen))))))
  end.

Definition indexTLSServerNameFromExtensions (fuel : nat) (exs : list Z) : fueled MyServerName :=
  if len exs =? 0 then nil
  else if len exs <? extensionsHeaderLen then nil
  else
    run (uint16At 0 exs) (fun exsLen =>
    run (sliceFrom extensionsHeaderLen exs) (fun exs =>
    if len exs <? exsLen then nil else extensionsLoop fuel exs extensionsHeaderLen)).

Definition indexTLSServerNameFromHandshake (fuel : nat) (handshake : list Z) : fueled MyServerName :=
  if len handshake <? handshakeHeaderLen + randomDataLen + sessionIDHeaderLen then nil
  else
    run (byteAt 0 handshake) (fun b0 =>
    if negb (b0 =? handshakeType) then nil
    else
      run (byteAt 1 handshake) (fun b1 => run (byteAt 2 handshake) (fun b2 => run (byteAt 3 handshake) (fun b3 =>
      let handshakeLen := Z.lor (Z.lor (wrapu 32 (Z.shiftl b1 16)) (wrapu 32 (Z.shiftl b2 8))) b3 in
      run (sliceFrom 4 handshake) (fun body =>
      if negb (len body =? handshakeLen) then nil
      else
        run (uint16At 4 handshake) (fun tlsVersion =>
        if negb (Z.land tlsVersion tlsVersionBitmask =? 0x0300) && negb (tlsVersion =? tls13) then nil
        else
          run (byteAt 38 handshake) (fun sessionIDLen =>
          let currentIndex := handshakeHeaderLen + randomDataLen + sessionIDHeaderLen + sessionIDLen in
          if len handshake <? currentIndex then nil
          else
            run (sliceFrom currentIndex handshake) (fun cipherSuites =>
            if len cipherSuites <? cipherSuiteHeaderLen then nil
            else
              run (uint16At 0 cipherSuites) (fun csLen =>
              if len cipherSuites <? cipherSuiteHeaderLen + csLen + compressMethodHeaderLen then nil
              else
                run (byteAt (cipherSuiteHeaderLen + csLen) cipherSuites) (fun compressMethodLen =>
                let currentIndex := currentIndex + (cipherSuiteHeaderLen + csLen + compressMethodHeaderLen + compressMethodLen) in
                if len handshake <? currentIndex then nil
                else
                  run (sliceFrom currentIndex handshake) (fun exs =>
                  shifted currentIndex (indexTLSServerNameFromExtensions fuel exs)))))))))))).

Definition IndexTLSServerName (fuel : nat) (payload : list Z) : fueled MyServerName :=
  if len payload <? recordLayerHeaderLen then nil
  else
    run (byteAt 0 payload) (fun b0 =>
    if negb (b0 =? contentType) then nil
    else
      run (uint16At 3 payload) (fun segmentLen =>
      if len payload <? recordLayerHeaderLen + segmentLen then nil
      else
        run (sliceFrom recordLayerHeaderLen payload) (fun handshake =>
        shifted recordLayerHeaderLen (indexTLSServerNameFromHandshake fuel handshake)))).

(** ** The connection *)

(** [strings.Split] and [strings.Count] for a dot. *)
Definition dot : Z := 46.
Fixpoint splitDots (s : list Z) : list (list Z) :=
  match s with
  | [] => [[]]
  | c :: s => if c =? dot then [] :: splitDots s
              else match splitDots s with first :: rest => (c :: first) :: rest | [] => [[c]] end
  end.
Definition countDots (s : list Z) : Z := len (List.filter (fun c => c =? dot) s).

(** What the connection is written on: a world with the operations of the
    connection below and of its TCP connection. *)
Class Upstream {EX : Exceptions} (W : Type) := {
  up_Write : list Z -> W -> W * (Z * option error);
  up_writeAndWaitAck : list Z -> W -> W * option error;
  up_SetNoDelay : bool -> W -> W * option error;
}.

Record Conn := mkConn { hasTCP : bool; firstPacketWritten : bool; splitPacket : bool; splitRecord : bool }.

Section Write.
Context {EX : Exceptions} {W : Type} {UP : Upstream W}.
(** [publicsuffix.List.PublicSuffix]; the results of [rand.Intn], the number of the
    call and the bound being given. *)
Variables (PublicSuffix : list Z -> list Z) (Intn : nat -> Z -> Z).

(** The labels to cut, and where the first one is. *)
Definition labels (serverName : MyServerName) : outcome (Z * list (list Z)) :=
  let splits := splitDots serverName.(ServerName) in
  let currentIndex := serverName.(Index) in
  splits ← (if bool_decide (PublicSuffix serverName.(ServerName) <> []) then
              let n := len splits - countDots serverName.(ServerName) in
              if (0 <=? n) && (n <=? len splits) then Ret (take (Z.to_nat n) splits) else Panic
            else Ret splits);
  match splits with
  | first :: _ :: _ => if bool_decide (first = [dot; dot; dot]) then Ret (currentIndex + (len first + 1), tail splits) else Ret (currentIndex, splits)
  | _ => Ret (currentIndex, splits)
  end.

(** [rand.Intn] panics for a bound that is not positive. *)
Fixpoint splitIndexes (call : nat) (currentIndex : Z) (splits : list (list Z)) : outcome (list Z) :=
  match splits with
  | [] => Ret []
  | split :: splits =>
      if len split <=? 0 then Panic
      else
        let splitAt := Intn call (len split) in
        rest ← splitIndexes (S call) (currentIndex + len split + (if bool_decide (splits = []) then 0 else 1)) splits;
        Ret (currentIndex + splitAt :: rest)
  end.

Definition intAt (i : Z) (l : list Z) : outcome Z := byteAt i l.

(** The payload of round [i]. *)
Definition payloadAt (c : Conn) (b : list Z) (indexes : list Z) (i : Z) : outcome (list Z) :=
  if i =? 0 then
    at_ ← intAt i indexes; payload ← slice 0 at_ b;
    if c.(splitRecord) then sliceFrom recordLayerHeaderLen payload else Ret payload
  else if i =? len indexes then at_ ← intAt (i - 1) indexes; sliceFrom at_ b
  else from ← intAt (i - 1) indexes; to ← intAt i indexes; slice from to b.

(** A record with the header of [b]. *)
Definition record (header payload : list Z) : list Z := header ++ be_bytes 2 (wrapu 16 (len payload)) ++ payload.

(** One round: the buffer holds the records made so far, or the last one. *)
Definition writeRound (c : Conn) (b indexes : list Z) (i : Z) (buffer : list Z) (w : W) : outcome (W * list Z * option error) :=
  payload ← payloadAt c b indexes i;
  header ← (if c.(splitRecord) then slice 0 3 b else Ret []);
  let buffer := if c.(splitRecord) then (if c.(splitPacket) then [] else buffer) ++ record header payload else buffer in
  let payload := if c.(splitRecord) && c.(splitPacket) then buffer else payload in
  if c.(splitPacket) then
    let '(w, e) := if c.(hasTCP) && negb (i =? len indexes) then up_writeAndWaitAck payload w else (let '(w, (_, e)) := up_Write payload w in (w, e)) in
    Ret (w, buffer, e)
  else Ret (w, buffer, None).

Fixpoint writeRounds (c : Conn) (b indexes : list Z) (rounds : list Z) (buffer : list Z) (w : W) : outcome (W * list Z * option error) :=
  match rounds with
  | [] => Ret (w, buffer, None)
  | i :: rounds =>
      '(w, buffer, e) ← writeRound c b indexes i buffer w;
      match e with
      | Some e => Ret (w, buffer, Some e)
      | None => writeRounds c b indexes rounds buffer w
      end
  end.

(** [SetNoDelay] of the TCP connection below, when there is one. *)
Definition setNoDelay (c : Conn) (noDelay : bool) (w : W) : W * option error :=
  if c.(hasTCP) then up_SetNoDelay noDelay w else (w, None).

Definition fragment (b : list Z) (serverName : MyServerName) (c : Conn) (w : W) : outcome (W * (Z * option error)) :=
  let '(w, e) := if c.(splitPacket) then setNoDelay c true w else (w, None) in
  match e with
  | Some e => Ret (w, (0, Some e))
  | None =>
      '(currentIndex, splits) ← labels serverName;
      indexes ← splitIndexes 0 currentIndex splits;
      '(w, buffer, e) ← writeRounds c b indexes (seqZ 0 (len indexes + 1)) [] w;
      let '(w, e) := match e with
                     | None => if c.(splitRecord) && negb c.(splitPacket) then (let '(w, (_, e)) := up_Write buffer w in (w, e)) else (w, None)
                     | Some e => (w, Some e)
                     end in
      let '(w, e) := match e with None => setNoDelay c false w | Some e => (w, Some e) end in
      Ret (w, match e with None => (len b, None) | Some e => (0, Some e) end)
  end.

Definition written (c : Conn) : Conn := mkConn c.(hasTCP) true c.(splitPacket) c.(splitRecord).

(** [Write], in the connection and the world below it. *)
Definition Write (fuel : nat) (b : list Z) (c : Conn) (w : W) : option (outcome (W * Conn * (Z * option error))) :=
  let plain := let '(w, r) := up_Write b w in Some (Ret (w, written c, r)) in
  if c.(firstPacketWritten) then plain
  else
    match IndexTLSServerName fuel b with
    | None => None
    | Some Panic => Some Panic
    | Some (Ret None) => plain
    | Some (Ret (Some serverName)) =>
        Some ('(w, r) ← fragment b serverName c w; Ret (w, written c, r))
    end.

End Write.
