(* ===== verification/TLSFragmentProps.v ===== *)
(** * Fragmented handshakes arrive as they were written

    The index of the server name is in range and never makes a slice panic for
    handshakes below 64 KiB; what is written is the handshake, cut inside the name. *)

From S2P Require Import Prelude GoCrypto GoBinary TLSFragment.

Local Open Scope list_scope.
Local Open Scope Z_scope.

Create HintDb bytes.
#[local] Hint Resolve byte_list_drop byte_list_take len_nonneg : bytes.

(** Reads the code has checked. *)
Ltac read_byte x Hx := match goal with
  | |- context [run (byteAt ?i ?b) _] =>
      let E := fresh in destruct (byteAt_ret i b) as (x & E & Hx); [by auto with bytes|lia|rewrite E; clear E; cbn [run]]
  end.
Ltac read_uint16 x Hx := match goal with
  | |- context [run (uint16At ?i ?b) _] =>
      let E := fresh in destruct (uint16At_ret i b) as (x & E & Hx); [by auto with bytes|lia|lia|rewrite E; clear E; cbn [run]]
  end.

(** ** The server name is in the payload *)

Definition located (b : list Z) (s : MyServerName) : Prop :=
  0 <= s.(Index) /\ s.(Index) + len s.(ServerName) <= len b /\
  take (length s.(ServerName)) (drop (Z.to_nat s.(Index)) b) = s.(ServerName).

(** A search that ends with a name of [b], the index being [offset] more. *)
Definition finds (b : list Z) (offset : Z) (r : fueled MyServerName) : Prop :=
  exists o, r = Some (Ret o) /\ forall s, o = Some s -> located b (shift (- offset) s).

Lemma finds_nil b offset : finds b offset nil.
Proof. by exists None. Qed.
#[local] Hint Resolve finds_nil : bytes.

Lemma shift_shift n k s : shift n (shift k s) = shift (k + n) s.
Proof. unfold shift. cbn. f_equal. lia. Qed.

Lemma shift_zero s : shift 0 s = s.
Proof. destruct s. unfold shift. cbn. f_equal. lia. Qed.

Lemma located_drop i b s : 0 <= i <= len b -> located (drop (Z.to_nat i) b) s -> located b (shift i s).
Proof.
  intros Hi (H1 & H2 & H3). rewrite len_drop in H2 by done. unfold located, shift; cbn. split; [lia|]. split; [lia|].
  rewrite drop_drop in H3. by replace (Z.to_nat (Index s + i)) with (Z.to_nat i + Z.to_nat (Index s))%nat by lia.
Qed.

Lemma finds_shifted i b offset r : 0 <= i <= len b -> finds (drop (Z.to_nat i) b) 0 r -> finds b offset (shifted (i + offset) r).
Proof.
  intros Hi (o & -> & Ho). exists (shift (i + offset) <$> o). split; [done|]. intros s (s' & -> & ->)%fmap_Some.
  rewrite shift_shift. replace (i + offset + - offset) with i by lia. apply located_drop; [done|].
  specialize (Ho s' eq_refl). by rewrite shift_zero in Ho.
Qed.

Lemma finds_drop i b offset r : 0 <= i <= len b -> finds (drop (Z.to_nat i) b) (offset + i) r -> finds b offset r.
Proof.
  intros Hi (o & -> & Ho). exists o. split; [done|]. intros s Hs. specialize (Ho s Hs). apply located_drop in Ho; [|done].
  rewrite shift_shift in Ho. by replace (- (offset + i) + i) with (- offset) in Ho by lia.
Qed.

Lemma sniName_finds currentIndex sex : byte_list sex ->
  exists o, sniName currentIndex sex = Ret o /\ forall s, o = Some s -> located sex (shift (- (currentIndex + extensionHeaderLen)) s).
Proof.
  intros Hb. unfold sniName. destruct (len sex <? _) eqn:Hl; [by exists None|]. unfold sniExtensionHeaderLen in *.
  destruct (byteAt_ret 2 sex Hb) as (ty & -> & _); [lia|]. cbn. destruct (negb _); [by exists None|].
  destruct (uint16At_ret 3 sex Hb) as (n & -> & _); [lia|lia|]. cbn. rewrite sliceFrom_ret by lia. cbn. eexists. split; [done|].
  intros s [= <-]. unfold located, shift; cbn. replace (_ + - _) with 5 by lia. rewrite (len_drop 5) by lia.
  split; [lia|]. split; [lia|]. apply take_ge. done.
Qed.

Lemma extensionsLoop_finds fuel : forall exs currentIndex, byte_list exs -> len exs < 2 ^ 16 -> (length exs < fuel)%nat ->
  finds exs currentIndex (extensionsLoop fuel exs currentIndex).
Proof.
  induction fuel as [|fuel IH]; intros exs i Hb Hl Hf; [lia|]. cbn [extensionsLoop]. unfold extensionHeaderLen.
  destruct (len exs <=? 0) eqn:E0; [auto with bytes|]. destruct (len exs <? 4) eqn:E4; [auto with bytes|]. zbool.
  read_uint16 exType Ht. read_uint16 exLen Hx. destruct (len exs <? 4 + exLen) eqn:El; [auto with bytes|]. zbool.
  rewrite slice_ret by lia. cbn [run]. destruct (exType =? sniExtensionType).
  - set (sex := take _ _). destruct (sniName_finds i sex) as (o & -> & Ho); [subst sex; auto with bytes|].
    exists o. split; [done|]. intros s Hs. specialize (Ho s Hs). destruct Ho as (H1 & H2 & H3). unfold extensionHeaderLen in *.
    replace (4 + exLen - 4) with exLen in * by lia.
    assert (len sex = exLen) as Hsex by (subst sex; unfold len in *; rewrite length_take, length_drop; lia). rewrite Hsex in H2.
    unfold located, shift in *; cbn in *. split; [lia|]. split; [lia|].
    rewrite <- H3 at 2. subst sex. rewrite take_drop_take by (unfold len in *; lia). rewrite drop_drop.
    by replace (Z.to_nat 4 + Z.to_nat (Index s + - (i + 4)))%nat with (Z.to_nat (Index s + - i)) by lia.
  - unfold wrapu. rewrite Z.mod_small, sliceFrom_ret by lia. cbn [run].
    apply (finds_drop (4 + exLen)); [lia|]. apply IH; [auto with bytes| |].
    + rewrite len_drop by lia. lia.
    + rewrite length_drop. unfold len in *. lia.
Qed.

Lemma extensions_finds fuel exs : byte_list exs -> len exs < 2 ^ 16 -> (length exs < fuel)%nat ->
  finds exs 0 (indexTLSServerNameFromExtensions fuel exs).
Proof.
  intros Hb Hl Hf. unfold indexTLSServerNameFromExtensions, extensionsHeaderLen.
  destruct (len exs =? 0); [auto with bytes|]. destruct (len exs <? 2) eqn:E; [auto with bytes|]. zbool.
  read_uint16 exsLen Hx. rewrite sliceFrom_ret by lia. cbn [run]. destruct (_ <? exsLen); [auto with bytes|].
  apply (finds_drop 2); [lia|]. apply extensionsLoop_finds; [auto with bytes|rewrite len_drop; lia|rewrite length_drop; lia].
Qed.

Lemma handshake_finds fuel h : byte_list h -> len h < 2 ^ 16 -> (length h < fuel)%nat -> finds h 0 (indexTLSServerNameFromHandshake fuel h).
Proof.
  intros Hb Hl Hf. unfold indexTLSServerNameFromHandshake, handshakeHeaderLen, randomDataLen, sessionIDHeaderLen, cipherSuiteHeaderLen, compressMethodHeaderLen.
  destruct (len h <? _) eqn:E; [auto with bytes|]. zbool. read_byte b0 H0. destruct (negb _); [auto with bytes|].
  read_byte b1 H1. read_byte b2 H2. read_byte b3 H3. rewrite sliceFrom_ret by lia. cbn [run].
  destruct (negb _); [auto with bytes|]. read_uint16 version Hv. destruct (_ && _); [auto with bytes|].
  read_byte n Hn. destruct (len h <? _) eqn:E1; [auto with bytes|]. zbool. rewrite sliceFrom_ret by lia. cbn [run].
  set (i := 6 + 32 + 1 + n) in *. set (cs := drop (Z.to_nat i) h).
  assert (len cs = len h - i) as Hcs by (apply len_drop; lia). assert (byte_list cs) by (by apply byte_list_drop). clearbody cs.
  destruct (len cs <? 2) eqn:E2; [auto with bytes|]. zbool. read_uint16 csLen Hc.
  destruct (len cs <? _) eqn:E3; [auto with bytes|]. zbool. read_byte cm Hm. destruct (len h <? _) eqn:E4; [auto with bytes|]. zbool.
  rewrite sliceFrom_ret by lia. cbn [run]. rewrite <- (Z.add_0_r (i + _)) at 1. apply finds_shifted; [lia|].
  apply extensions_finds; [auto with bytes|rewrite len_drop; lia|rewrite length_drop; lia].
Qed.

(** For a payload below 64 KiB the search ends, and a name it finds is there. *)
Lemma IndexTLSServerName_finds fuel payload : byte_list payload -> len payload < 2 ^ 16 -> (length payload < fuel)%nat ->
  exists o, IndexTLSServerName fuel payload = Some (Ret o) /\
    forall s, o = Some s -> located payload s /\ recordLayerHeaderLen <= s.(Index).
Proof.
  intros Hb Hl Hf. unfold IndexTLSServerName, recordLayerHeaderLen. destruct (len payload <? 5) eqn:E; [by exists None|]. zbool.
  read_byte b0 H0. destruct (negb _); [by exists None|]. read_uint16 n Hn. destruct (_ <? 5 + n) eqn:E1; [by exists None|]. zbool.
  rewrite sliceFrom_ret by lia. cbn [run]. destruct (handshake_finds fuel (drop (Z.to_nat 5) payload)) as (o & -> & Ho);
    [auto with bytes|rewrite len_drop; lia|rewrite length_drop; lia|].
  exists (shift 5 <$> o). split; [done|]. intros s (s' & -> & ->)%fmap_Some. specialize (Ho s' eq_refl). rewrite shift_zero in Ho.
  split; [apply located_drop; [lia|done]|]. destruct Ho as [? _]. cbn. lia.
Qed.

(** ** Labels and cuts *)

Lemma splitDots_length s : len (splitDots s) = countDots s + 1.
Proof.
  unfold countDots. induction s as [|c s IH]; [done|]. cbn [splitDots List.filter]. destruct (c =? dot).
  - unfold len in *. cbn [length]. lia.
  - destruct (splitDots s) as [|f r]; unfold len in *; cbn [length] in *; lia.
Qed.

Lemma splitDots_nonempty s : splitDots s <> [].
Proof. intros E. pose proof (splitDots_length s) as H. rewrite E in H. pose proof (len_nonneg (List.filter (fun c => c =? dot) s)). unfold countDots, len in *. cbn in H. lia. Qed.

Lemma splitDots_no_dot s : Forall (fun l => dot ∉ l) (splitDots s).
Proof.
  induction s as [|c s IH]; [by repeat constructor; apply not_elem_of_nil|]. cbn [splitDots]. destruct (Z.eqb_spec c dot).
  - constructor; [apply not_elem_of_nil|done].
  - destruct (splitDots s) as [|f r]; [by repeat constructor; set_solver|]. inversion IH; subst. constructor; [set_solver|done].
Qed.

(** The length of labels joined by dots. *)
Fixpoint joined (l : list (list Z)) : Z :=
  match l with [] => 0 | x :: l => len x + (match l with [] => 0 | _ => 1 end) + joined l end.

Lemma joined_splitDots s : joined (splitDots s) = len s.
Proof.
  induction s as [|c s IH]; [done|]. cbn [splitDots]. destruct (c =? dot).
  - cbn [joined]. rewrite IH. pose proof (splitDots_nonempty s). destruct (splitDots s); [done|]. unfold len. cbn [length]. lia.
  - pose proof (splitDots_nonempty s). destruct (splitDots s) as [|f r]; [done|]. cbn [joined] in *. unfold len in *. cbn [length]. lia.
Qed.

Lemma joined_nonneg l : 0 <= joined l.
Proof. induction l as [|x l IH]; [done|]. cbn [joined]. pose proof (len_nonneg x). destruct l; lia. Qed.

Lemma joined_first x l : joined [x] <= joined (x :: l).
Proof. cbn [joined]. pose proof (joined_nonneg l). destruct l; lia. Qed.

(** Cuts between [lo] and [hi], in order. *)
Fixpoint ordered (lo hi : Z) (l : list Z) : Prop :=
  match l with [] => lo <= hi | x :: l => lo <= x /\ ordered x hi l end.

Lemma ordered_weaken lo lo' hi l : lo' <= lo -> ordered lo hi l -> ordered lo' hi l.
Proof. destruct l; cbn; intuition lia. Qed.

Lemma labels_ret (PublicSuffix : list Z -> list Z) s : exists l, labels PublicSuffix s = Ret (s.(Index), l) /\ l <> [] /\ joined l <= len s.(ServerName) /\
  (forall x, x ∈ l -> x ∈ splitDots s.(ServerName)).
Proof.
  unfold labels. set (name := s.(ServerName)). pose proof (splitDots_length name) as Hlen. pose proof (splitDots_nonempty name) as Hne.
  pose proof (joined_splitDots name) as Hj. pose proof (splitDots_no_dot name) as Hd.
  assert (len (splitDots name) - countDots name = 1) as -> by lia.
  destruct (splitDots name) as [|first rest]; [done|]. inversion Hd as [|? ? Hf]; subst.
  case_bool_decide.
  - assert (1 <= len (first :: rest)) as H1 by (unfold len; cbn [length]; lia). apply Z.leb_le in H1. rewrite H1.
    cbn. exists [first]. split; [done|]. split; [done|]. split; [rewrite <- Hj; apply joined_first|set_solver].
  - cbn. exists (first :: rest). split; [|by rewrite Hj]. destruct rest; [done|]. rewrite bool_decide_eq_false_2; [done|].
    intros ->. set_solver.
Qed.

Section Cuts.
Variable Intn : nat -> Z -> Z.
Hypothesis HIntn : forall call n, 0 < n -> 0 <= Intn call n < n.

Lemma splitIndexes_ret splits : forall call i, [] ∉ splits -> exists l, splitIndexes Intn call i splits = Ret l /\
  length l = length splits /\ ordered i (i + joined splits) l.
Proof.
  induction splits as [|x splits IH]; intros call i Hx; [by exists []; cbn; split_and!; try lia|]. cbn [splitIndexes].
  assert (0 < len x) as Hl by (destruct x; [set_solver|unfold len; cbn [length]; lia]). replace (len x <=? 0) with false by lia.
  set (i' := i + len x + _). destruct (IH (S call) i') as (l & -> & Hlen & Ho); [set_solver|]. cbn.
  exists (i + Intn call (len x) :: l). split; [done|]. split; [cbn; lia|]. pose proof (HIntn call (len x) Hl).
  cbn [ordered joined]. split; [lia|].
  assert (i' = i + len x + match splits with [] => 0 | _ => 1 end) as Hi by (subst i'; f_equal; case_bool_decide; by destruct splits).
  replace (i + (len x + _ + _)) with (i' + joined splits) by lia. eapply ordered_weaken; [|exact Ho]. destruct splits; lia.
Qed.

End Cuts.

(** ** The payloads of the rounds *)

Fixpoint pieces (start : Z) (b cuts : list Z) : list (list Z) :=
  match cuts with
  | [] => [drop (Z.to_nat start) b]
  | x :: cuts => take (Z.to_nat (x - start)) (drop (Z.to_nat start) b) :: pieces x b cuts
  end.

Lemma pieces_length cuts : forall start b, length (pieces start b cuts) = S (length cuts).
Proof. induction cuts; intros; cbn; [done|]. by rewrite IHcuts. Qed.

Lemma pieces_lookup cuts : forall start b k x y, (start :: cuts) !! k = Some x -> (cuts ++ [len b]) !! k = Some y -> x <= len b ->
  pieces start b cuts !! k = Some (take (Z.to_nat (y - x)) (drop (Z.to_nat x) b)).
Proof.
  induction cuts as [|z cuts IH]; intros start b k x y Hx Hy Hl; destruct k as [|k]; cbn in *; simplify_eq.
  - f_equal. symmetry. apply take_ge. rewrite length_drop. unfold len in *. lia.
  - done.
  - by apply IH.
Qed.

Lemma pieces_concat cuts : forall start b, 0 <= start -> ordered start (len b) cuts -> concat (pieces start b cuts) = drop (Z.to_nat start) b.
Proof.
  induction cuts as [|x cuts IH]; intros start b Hs Ho; cbn; [by rewrite app_nil_r|]. destruct Ho as [Hx Ho]. rewrite IH by (done || lia).
  replace (drop (Z.to_nat x) b) with (drop (Z.to_nat (x - start)) (drop (Z.to_nat start) b)); [apply take_drop|].
  rewrite drop_drop. f_equal. lia.
Qed.

Lemma ordered_bounds cuts : forall lo hi, ordered lo hi cuts -> lo <= hi /\ forall k x, cuts !! k = Some x -> lo <= x <= hi.
Proof.
  induction cuts as [|z cuts IH]; intros lo hi; cbn; [by intros; split|]. intros [Hz Ho]. destruct (IH _ _ Ho) as [Hh Hk].
  split; [lia|]. intros [|k] x Hx; cbn in Hx; simplify_eq; [lia|]. specialize (Hk k x Hx). lia.
Qed.

Lemma ordered_next cuts : forall lo hi k x y, ordered lo hi cuts -> cuts !! k = Some x -> cuts !! S k = Some y -> x <= y.
Proof.
  induction cuts as [|z cuts IH]; intros lo hi k x y; [done|]. cbn [ordered]. intros [Hz Ho] Hx Hy. destruct k as [|k]; cbn in *; simplify_eq.
  - destruct (ordered_bounds _ _ _ Ho) as [_ Hb]. by apply (Hb 0%nat).
  - by eapply (IH z hi k).
Qed.

Lemma intAt_lookup k l x : l !! k = Some x -> intAt (Z.of_nat k) l = Ret x.
Proof.
  intros Hx. unfold intAt, byteAt. pose proof (lookup_lt_Some _ _ _ Hx).
  replace ((0 <=? Z.of_nat k) && (Z.of_nat k <? len l)) with true by (unfold len; lia). by rewrite Nat2Z.id, Hx.
Qed.

Definition startOf (c : Conn) : Z := if c.(splitRecord) then recordLayerHeaderLen else 0.

Lemma payloadAt_pieces c b cuts k p : cuts <> [] -> ordered recordLayerHeaderLen (len b) cuts ->
  pieces (startOf c) b cuts !! k = Some p -> payloadAt c b cuts (Z.of_nat k) = Ret p.
Proof.
  intros Hne Ho Hp. pose proof (lookup_lt_Some _ _ _ Hp) as Hk. rewrite pieces_length in Hk.
  destruct (ordered_bounds _ _ _ Ho) as [Hl Hb]. unfold recordLayerHeaderLen in *.
  assert (exists y, (cuts ++ [len b]) !! k = Some y) as [y Hy] by (apply lookup_lt_is_Some; rewrite length_app; cbn; lia).
  assert (exists x, (startOf c :: cuts) !! k = Some x) as [x Hx] by (apply lookup_lt_is_Some; cbn; lia).
  assert (x <= len b) as Hxb by (destruct k; cbn in Hx; simplify_eq; [unfold startOf, recordLayerHeaderLen; destruct (splitRecord c); lia|by apply (Hb k)]).
  rewrite (pieces_lookup _ _ _ _ _ _ Hx Hy Hxb) in Hp. simplify_eq. unfold payloadAt. destruct k as [|k].
  - destruct cuts as [|z cuts]; [done|]. cbn in Hx, Hy. simplify_eq. change (Z.of_nat 0 =? 0) with true. cbv iota.
    rewrite (intAt_lookup 0 _ y) by done. destruct (Hb 0%nat y eq_refl). cbn. rewrite slice_ret by lia. cbn. rewrite Z.sub_0_r, drop_0. unfold startOf, recordLayerHeaderLen.
    destruct (splitRecord c); [|by rewrite Z.sub_0_r].
    rewrite sliceFrom_ret by (unfold len in *; rewrite length_take; lia).
    by replace (Z.to_nat y) with (Z.to_nat 5 + Z.to_nat (y - 5))%nat by lia; rewrite <- take_drop_commute.
  - change (Z.of_nat (S k) =? 0) with false. cbv iota. replace (Z.of_nat (S k) - 1) with (Z.of_nat k) by lia. cbn in Hx.
    destruct (Hb k x Hx). rewrite (intAt_lookup k _ x) by done. destruct (Z.eqb_spec (Z.of_nat (S k)) (len cuts)) as [E|E].
    + rewrite lookup_app_r in Hy by (unfold len in E; lia). unfold len in E. replace (S k - length cuts)%nat with 0%nat in Hy by lia.
      cbn in Hy. simplify_eq. cbn. rewrite sliceFrom_ret by lia. f_equal. symmetry. apply take_ge. rewrite length_drop. unfold len. lia.
    + rewrite lookup_app_l in Hy by (unfold len in E; lia). rewrite (intAt_lookup (S k) _ y) by done. cbn.
      destruct (Hb _ _ Hy). pose proof (ordered_next _ _ _ _ _ _ Ho Hx Hy). by rewrite slice_ret by lia.
Qed.

Lemma payloads c b cuts : cuts <> [] -> ordered recordLayerHeaderLen (len b) cuts ->
  Forall2 (fun i p => payloadAt c b cuts i = Ret p) (seqZ 0 (len cuts + 1)) (pieces (startOf c) b cuts).
Proof.
  intros Hne Ho. apply Forall2_same_length_lookup_2.
  - rewrite length_seqZ, pieces_length. unfold len. lia.
  - intros k i p Hi Hp. apply lookup_seqZ in Hi as [-> _]. rewrite Z.add_0_l. by apply payloadAt_pieces.
Qed.

(** ** What the other side receives *)

(** The records of a stream: the three bytes before the length, and the content. *)
Fixpoint tlsRecords (fuel : nat) (l : list Z) : option (list (list Z * list Z)) :=
  match fuel, l with
  | _, [] => Some []
  | S fuel, t :: v1 :: v2 :: n1 :: n2 :: rest =>
      let n := Z.to_nat (256 * n1 + n2) in
      if (n <=? length rest)%nat then cons ([t; v1; v2], take n rest) <$> tlsRecords fuel (drop n rest) else None
  | _, _ => None
  end.

Lemma tlsRecords_records h ps : length h = 3%nat -> Forall (fun p => len p < 2 ^ 16) ps ->
  forall fuel, (length ps <= fuel)%nat -> tlsRecords fuel (concat (map (record h) ps)) = Some (map (pair h) ps).
Proof.
  intros Hh. destruct h as [|t [|v1 [|v2 [|]]]]; cbn in Hh; try lia. clear Hh. intros H.
  induction H as [|p ps Hp _ IH]; intros fuel Hf; [by destruct fuel|]. destruct fuel as [|fuel]; cbn in Hf; [lia|].
  cbn [map concat]. unfold record at 1. unfold wrapu. pose proof (len_nonneg p). rewrite Z.mod_small, be_bytes_2 by lia.
  rewrite <- !app_assoc. cbn [app tlsRecords]. replace (256 * (len p / 256) + len p mod 256) with (len p) by (rewrite <- Z.div_mod; lia).
  replace (Z.to_nat (len p)) with (length p) by (unfold len; lia).
  assert ((length p <=? length (p ++ concat (map (record [t; v1; v2]) ps)))%nat = true) as -> by (apply Nat.leb_le; rewrite length_app; lia).
  rewrite take_app_length, drop_app_length, IH by lia. done.
Qed.

(** The bytes that were sent; sending adds them, whatever else it does. *)
Class UpstreamLaws {EX : Exceptions} {W : Type} (UP : Upstream W) := {
  sent : W -> list Z;
  Write_sent : forall p w w' n, up_Write p w = (w', (n, None)) -> sent w' = sent w ++ p;
  writeAndWaitAck_sent : forall p w w', up_writeAndWaitAck p w = (w', None) -> sent w' = sent w ++ p;
  SetNoDelay_sent : forall b w, sent (up_SetNoDelay b w).1 = sent w;
}.

Section Sending.
Context {EX : Exceptions} {W : Type} {UP : Upstream W} {UL : UpstreamLaws UP}.

Definition encoded (c : Conn) (h p : list Z) : list Z := if c.(splitRecord) then record h p else p.

Lemma writeRound_sent c b cuts i p buffer w : payloadAt c b cuts i = Ret p -> 3 <= len b ->
  exists w' buffer' e, writeRound c b cuts i buffer w = Ret (w', buffer', e) /\
    (e = None -> sent w' = sent w ++ (if c.(splitPacket) then encoded c (take 3 b) p else []) /\
      (c.(splitRecord) && negb c.(splitPacket) = true -> buffer' = buffer ++ record (take 3 b) p)).
Proof.
  intros Hp Hb. unfold writeRound. rewrite Hp. cbn. unfold encoded.
  assert (slice 0 3 b = Ret (take 3 b)) as Hs by (by rewrite slice_ret by lia). rewrite Hs.
  destruct (splitRecord c), (splitPacket c); cbn.
  all: try (destruct (hasTCP c && _);
    [destruct (up_writeAndWaitAck _ w) as [w' e] eqn:E|destruct (up_Write _ w) as [w' [n e]] eqn:E];
    eexists _, _, e; (split; [done|]); intros ->;
    [apply writeAndWaitAck_sent in E|apply Write_sent in E]; by split).
  all: eexists _, _, None; (split; [done|]); intros _; by rewrite app_nil_r.
Qed.

Lemma writeRounds_sent c b cuts rounds ps : Forall2 (fun i p => payloadAt c b cuts i = Ret p) rounds ps -> 3 <= len b ->
  forall buffer w, exists w' buffer' e, writeRounds c b cuts rounds buffer w = Ret (w', buffer', e) /\
    (e = None -> sent w' = sent w ++ (if c.(splitPacket) then concat (map (encoded c (take 3 b)) ps) else []) /\
      (c.(splitRecord) && negb c.(splitPacket) = true -> buffer' = buffer ++ concat (map (record (take 3 b)) ps))).
Proof.
  intros H Hb. induction H as [|i p rounds ps Hp _ IH]; intros buffer w; cbn [writeRounds map concat].
  { eexists _, _, None. split; [done|]. intros _. rewrite app_nil_r. by destruct (splitPacket c); rewrite app_nil_r. }
  destruct (writeRound_sent c b cuts i p buffer w Hp Hb) as (w1 & b1 & [e|] & -> & H1); cbn.
  { by eexists _, _, (Some e). }
  destruct (H1 eq_refl) as [S1 B1]. destruct (IH b1 w1) as (w2 & b2 & e & -> & H2). exists w2, b2, e. split; [done|]. intros He.
  destruct (H2 He) as [S2 B2]. split.
  - rewrite S2, S1, <- app_assoc. by destruct (splitPacket c).
  - intros Hc. by rewrite (B2 Hc), (B1 Hc), <- app_assoc.
Qed.

Lemma setNoDelay_sent c b (w : W) : sent (setNoDelay c b w).1 = sent w.
Proof. unfold setNoDelay. destruct (hasTCP c); [apply SetNoDelay_sent|done]. Qed.

(** What a stream has to be for a handshake [b] that was cut. *)
Definition cutInto (c : Conn) (b : list Z) (ps : list (list Z)) (out : list Z) : Prop :=
  (2 <= length ps)%nat /\
  (c.(splitRecord) = false -> concat ps = b /\ out = b) /\
  (c.(splitRecord) = true -> concat ps = drop 5 b /\ tlsRecords (length out) out = Some (map (pair (take 3 b)) ps)).

Lemma concat_elem_length (ps : list (list Z)) p : p ∈ ps -> (length p <= length (concat ps))%nat.
Proof. intros Hp. apply list_elem_of_split in Hp as (l1 & l2 & ->). rewrite concat_app, length_app. cbn. rewrite length_app. lia. Qed.

Lemma records_length h ps : (length ps <= length (concat (map (record h) ps)))%nat.
Proof. induction ps as [|p ps IH]; cbn; [lia|]. unfold record at 1. rewrite !length_app. cbn. lia. Qed.

(** The rounds over cuts that are in range, and the records written at the end. *)
Lemma cut_sent c b cuts : cuts <> [] -> ordered recordLayerHeaderLen (len b) cuts -> len b < 2 ^ 16 -> c.(splitPacket) || c.(splitRecord) = true ->
  let ps := pieces (startOf c) b cuts in
  cutInto c b ps (concat (map (encoded c (take 3 b)) ps)).
Proof.
  intros Hne Ho Hl Hc ps. destruct (ordered_bounds _ _ _ Ho) as [Hb _]. unfold recordLayerHeaderLen in *.
  assert (ordered (startOf c) (len b) cuts) as Ho' by (eapply ordered_weaken; [|exact Ho]; unfold startOf, recordLayerHeaderLen; destruct (splitRecord c); lia).
  assert (concat ps = drop (Z.to_nat (startOf c)) b) as Hcat by (apply pieces_concat; [unfold startOf, recordLayerHeaderLen; destruct (splitRecord c); lia|done]).
  unfold cutInto, encoded. split; [subst ps; rewrite pieces_length; destruct cuts; [done|cbn; lia]|]. unfold startOf in Hcat.
  split; intros Hr; rewrite Hr in *.
  - rewrite map_id, Hcat. by rewrite drop_0.
  - split; [done|]. apply tlsRecords_records; [rewrite length_take; unfold len in *; lia| |apply records_length].
    apply Forall_forall. intros p Hp%concat_elem_length. rewrite Hcat, length_drop in Hp. unfold len in *. lia.
Qed.

Variables (PublicSuffix : list Z -> list Z) (Intn : nat -> Z -> Z).
Hypothesis HIntn : forall call n, 0 < n -> 0 <= Intn call n < n.

Lemma cuts_ordered b s : located b s -> recordLayerHeaderLen <= s.(Index) -> [] ∉ splitDots s.(ServerName) ->
  exists splits cuts, labels PublicSuffix s = Ret (s.(Index), splits) /\ splitIndexes Intn 0 s.(Index) splits = Ret cuts /\
    cuts <> [] /\ ordered recordLayerHeaderLen (len b) cuts.
Proof.
  intros (_ & Hr & _) Hi Hd. destruct (labels_ret PublicSuffix s) as (splits & El & Hne & Hj & Hsub).
  destruct (splitIndexes_ret Intn HIntn splits 0 s.(Index)) as (cuts & Es & Hlen & Ho); [set_solver|].
  exists splits, cuts. split; [done|]. split; [done|]. split; [by destruct splits, cuts|].
  eapply ordered_weaken; [exact Hi|]. clear -Ho Hj Hr.
  assert (forall l lo hi hi', hi <= hi' -> ordered lo hi l -> ordered lo hi' l) as Hup.
  { induction l as [|x l IH]; cbn; [lia|]. intros lo hi hi' ? [??]. split; [done|]. by eapply IH. }
  eapply Hup; [|exact Ho]. lia.
Qed.

Lemma fragment_sent b s c (w : W) : len b < 2 ^ 16 -> located b s -> recordLayerHeaderLen <= s.(Index) -> [] ∉ splitDots s.(ServerName) ->
  c.(splitPacket) || c.(splitRecord) = true ->
  exists w' r, fragment PublicSuffix Intn b s c w = Ret (w', r) /\
    (r.2 = None -> r.1 = len b /\ exists ps out, sent w' = sent w ++ out /\ cutInto c b ps out).
Proof.
  intros Hl Hloc Hi Hd Hc. unfold fragment. destruct (cuts_ordered b s Hloc Hi Hd) as (splits & cuts & -> & Es & Hne & Ho).
  pose proof (setNoDelay_sent c true w) as Hn.
  destruct (if splitPacket c then setNoDelay c true w else (w, None)) as [w0 e0] eqn:E0.
  assert (sent w0 = sent w) as S0 by (destruct (splitPacket c); [by rewrite E0 in Hn|by simplify_eq]).
  destruct e0 as [e0|]; [by eexists _, _|]. cbn. rewrite Es. cbn.
  destruct (ordered_bounds _ _ _ Ho) as [Hb _]. unfold recordLayerHeaderLen in Hb.
  assert (3 <= len b) as Hb3 by lia.
  destruct (writeRounds_sent c b cuts _ _ (payloads c b cuts Hne Ho) Hb3 [] w0) as (w1 & buffer & e1 & -> & H1). cbn.
  pose proof (cut_sent c b cuts Hne Ho Hl Hc) as Hcut. set (ps := pieces (startOf c) b cuts) in *.
  set (out := concat (map (encoded c (take 3 b)) ps)) in *.
  destruct e1 as [e1|]; [by eexists _, _|]. destruct (H1 eq_refl) as [S1 B1]. clear H1.
  assert (exists w2 e2, (if splitRecord c && negb (splitPacket c) then let '(w, (_, e)) := up_Write buffer w1 in (w, e) else (w1, None)) = (w2, e2) /\
    (e2 = None -> sent w2 = sent w ++ out)) as (w2 & e2 & -> & S2).
  { rewrite S0 in S1. destruct (splitRecord c && negb (splitPacket c)) eqn:Er.
    - rewrite (B1 eq_refl). destruct (up_Write _ w1) as [w2 [n e2]] eqn:Ew. exists w2, e2. split; [done|]. intros ->.
      apply Write_sent in Ew. rewrite Ew, S1. apply andb_true_iff in Er as [Er Ep]. subst out. unfold encoded. rewrite Er.
      destruct (splitPacket c); [done|]. by rewrite app_nil_r.
    - exists w1, None. split; [done|]. intros _. rewrite S1. destruct (splitPacket c); [done|]. by destruct (splitRecord c). }
  destruct e2 as [e2|]; [by eexists _, _|]. specialize (S2 eq_refl). pose proof (setNoDelay_sent c false w2) as H3.
  destruct (setNoDelay c false w2) as [w3 [e3|]]; cbn in H3; [by eexists _, _|]. eexists _, _. split; [done|]. intros _.
  split; [done|]. exists ps, out. by rewrite H3.
Qed.

(** C18: the first write of a fragmenting connection, for data below 64 KiB whose server
    name, when there is one, has no empty label: it returns; without an error it
    reports all bytes, and what was sent below is either the data unchanged (no server
    name was found) or the data cut into at least two parts, as they are or each in a
    TLS record with the type and version of the original one, so that the records
    carry the same handshake. *)
Theorem fragments_reassemble (fuel : nat) (b : list Z) (c : Conn) (w : W) :
  byte_list b -> len b < 2 ^ 16 -> (length b < fuel)%nat -> c.(firstPacketWritten) = false -> c.(splitPacket) || c.(splitRecord) = true ->
  (forall s, IndexTLSServerName fuel b = Some (Ret (Some s)) -> [] ∉ splitDots s.(ServerName)) ->
  exists w' r, Write PublicSuffix Intn fuel b c w = Some (Ret (w', written c, r)) /\
    (r.2 = None -> exists out, sent w' = sent w ++ out /\
      match IndexTLSServerName fuel b with
      | Some (Ret (Some _)) => r.1 = len b /\ exists ps, cutInto c b ps out
      | _ => out = b
      end).
Proof.
  intros Hb Hl Hf Hc Hs Hd. unfold Write. rewrite Hc.
  destruct (IndexTLSServerName_finds fuel b Hb Hl Hf) as ([s|] & E & Ho); rewrite E in *.
  - destruct (Ho s eq_refl) as [Hloc Hi]. destruct (fragment_sent b s c w Hl Hloc Hi (Hd s eq_refl) Hs) as (w' & r & -> & H). cbn.
    exists w', r. split; [done|]. intros Hr. destruct (H Hr) as (Hn & ps & out & Hsent & Hcut). exists out. by eauto.
  - destruct (up_Write b w) as [w' [n e]] eqn:Ew. exists w', (n, e). split; [done|]. cbn. intros ->.
    apply Write_sent in Ew. by exists b.
Qed.

End Sending.

(** ** Examples *)

Module FragmentDemo.
#[local] Existing Instance text_exceptions.

(** A ClientHello with the given extensions, and one with a server name. *)
Definition hello (extensions : list Z) : list Z :=
  let body := [3; 3] ++ replicate 32 0 ++ [0] ++ [0; 2; 19; 1] ++ [1; 0] ++ be_bytes 2 (Z.min 0xFFFF (len extensions)) ++ extensions in
  let handshake := [1] ++ be_bytes 3 (len body) ++ body in
  [22; 3; 1] ++ be_bytes 2 (Z.min 0xFFFF (len handshake)) ++ handshake.
Definition sniExtension (name : list Z) : list Z :=
  be_bytes 2 0 ++ be_bytes 2 (len name + 5) ++ be_bytes 2 (len name + 3) ++ [0] ++ be_bytes 2 (len name) ++ name.

(** A connection that keeps what is written. *)
Definition Wire : Type := list (list Z).
#[export] Instance wire : Upstream Wire := {|
  up_Write p w := (w ++ [p], (len p, None));
  up_writeAndWaitAck p w := (w ++ [p], None);
  up_SetNoDelay _ w := (w, None);
|}.
#[export, program] Instance wire_laws : UpstreamLaws wire := {| sent := fun w => concat w |}.
Next Obligation. intros p w w' n [= <- _]. rewrite concat_app. cbn. by rewrite app_nil_r. Qed.
Next Obligation. intros p w w' [= <-]. rewrite concat_app. cbn. by rewrite app_nil_r. Qed.
Next Obligation. done. Qed.

Definition suffix (name : list Z) : list Z := drop 2 name.
Definition middle (_ : nat) (n : Z) : Z := n / 2.
Definition both : Conn := mkConn true false true true.
Definition abc : list Z := hello (sniExtension [97; 98; 99; 46; 100; 101]).

Lemma abc_cut : option_map (fmap (fun r : Wire * Conn * (Z * option error) => (length r.1.1, r.2))) (Write suffix middle 1000 abc both []) =
  Some (Ret (2%nat, (len abc, None))).
Proof. reflexivity. Qed.

Lemma fragments_reassemble_witness : exists w' r, Write suffix middle 1000 abc both [] = Some (Ret (w', written both, r)) /\
  (r.2 = None -> exists out, sent w' = sent [] ++ out /\
    match IndexTLSServerName 1000 abc with
    | Some (Ret (Some _)) => r.1 = len abc /\ exists ps, cutInto both abc ps out
    | _ => out = abc
    end).
Proof.
  apply (fragments_reassemble suffix middle); [|apply (bool_decide_unpack _); reflexivity|vm_compute; reflexivity|cbn; lia|reflexivity|reflexivity|].
  - intros call n Hn. unfold middle. split; [apply Z.div_pos; lia|apply Z.div_lt; lia].
  - intros s Hs. assert (s = mkServerName 61 6 [97; 98; 99; 46; 100; 101]) as -> by (vm_compute in Hs; congruence).
    apply (bool_decide_unpack (_ ∉ _)). reflexivity.
Defined.

(** ** A search that goes on *)

(** An extension of this length is stepped over by 0 bytes. *)
Lemma loop_forever zs fuel : len zs = 65532 -> forall i, extensionsLoop fuel ([1; 1; 255; 252] ++ zs) i = None.
Proof.
  intros Hz. assert (len ([1; 1; 255; 252] ++ zs) = 65536) as Hl by (unfold len in *; rewrite length_app; cbn [length]; lia).
  induction fuel as [|fuel IH]; intros i; [done|]. cbn [extensionsLoop]. rewrite Hl, !uint16At_app by (vm_compute; intuition congruence).
  change (uint16At 0 [1; 1; 255; 252]) with (Ret 257). change (uint16At 2 [1; 1; 255; 252]) with (Ret 65532). cbn [run].
  rewrite slice_ret by (unfold extensionHeaderLen; lia). cbn [run].
  change (wrapu 16 (4 + 65532)) with 0. rewrite sliceFrom_app by (vm_compute; intuition congruence). apply IH.
Qed.

Definition helloPrefix : list Z :=
  [22; 3; 1; 255; 255; 1; 1; 0; 43; 3; 3] ++ replicate 32 0 ++ [0; 0; 2; 19; 1; 1; 0; 255; 255].

Lemma hello_eq zs : len zs = 65536 -> hello zs = helloPrefix ++ zs.
Proof.
  intros Hz. unfold hello. rewrite !Hz. change (be_bytes 2 (Z.min 0xFFFF 65536)) with [255; 255].
  set (body := [3; 3] ++ _). assert (len body = 65579) as Hb.
  { subst body. unfold len in *. rewrite !length_app, length_replicate. cbn [length]. lia. }
  rewrite Hb. change (be_bytes 3 65579) with [1; 0; 43].
  assert (len ([1] ++ [1; 0; 43] ++ body) = 65583) as Hh by (unfold len in *; cbn [app length]; lia).
  rewrite Hh. reflexivity.
Qed.

Ltac read_prefix := rewrite ?byteAt_app, ?uint16At_app, ?sliceFrom_app by (vm_compute; intuition congruence).

Lemma hello_search zs fuel : len zs = 65536 -> extensionsLoop fuel zs 2 = None -> IndexTLSServerName fuel (hello zs) = None.
Proof.
  intros Hz Hloop. assert (forall p, len (p ++ zs) = len p + 65536) as Hlen by (intros p; unfold len in *; rewrite length_app; lia).
  rewrite hello_eq by done. unfold IndexTLSServerName. rewrite Hlen. read_prefix.
  change (len helloPrefix) with 52. change (byteAt 0 helloPrefix) with (Ret 22). change (uint16At 3 helloPrefix) with (Ret 65535). cbn [run].
  change (drop _ helloPrefix) with (drop 5 helloPrefix). set (h := drop 5 helloPrefix).
  enough (indexTLSServerNameFromHandshake fuel (h ++ zs) = None) as -> by done.
  unfold indexTLSServerNameFromHandshake. rewrite Hlen. read_prefix. change (len h) with 47.
  change (byteAt 0 h) with (Ret 1). change (byteAt 1 h) with (Ret 1). change (byteAt 2 h) with (Ret 0). change (byteAt 3 h) with (Ret 43).
  change (uint16At 4 h) with (Ret 771). change (byteAt 38 h) with (Ret 0). cbn [run].
  rewrite Hlen. change (len (drop _ h) + 65536) with 65579.
  change (handshakeHeaderLen + randomDataLen + sessionIDHeaderLen + 0) with 39. change (47 + 65536) with 65583.
  cbn -[sliceFrom uint16At byteAt app h len handshakeHeaderLen cipherSuiteHeaderLen compressMethodHeaderLen indexTLSServerNameFromExtensions].
  read_prefix. cbn [run]. change (drop _ h) with [0; 2; 19; 1; 1; 0; 255; 255]. rewrite Hlen. read_prefix.
  change (uint16At 0 _) with (Ret 2). cbn [run]. change (cipherSuiteHeaderLen + 2) with 4. read_prefix.
  change (byteAt 4 _) with (Ret 1). cbn [run]. change (39 + (4 + compressMethodHeaderLen + 1)) with 45.
  change (_ <? cipherSuiteHeaderLen) with false. change (_ <? 4 + compressMethodHeaderLen) with false. change (65583 <? 45) with false.
  read_prefix. cbn [run]. change (drop _ h) with [255; 255].
  enough (indexTLSServerNameFromExtensions fuel ([255; 255] ++ zs) = None) as -> by reflexivity.
  unfold indexTLSServerNameFromExtensions. rewrite Hlen. read_prefix. change (uint16At 0 _) with (Ret 65535).
  change (drop _ _) with (@Datatypes.nil Z). cbn [run]. rewrite Hlen. exact Hloop.
Qed.

(** Two ways to crash or hang: the name of the server may be empty, or begin with a
    dot, and the first write then panics; an extension of 65532 bytes makes the search
    for the name go round for ever, because the length is added in 16 bits. *)
Theorem fragment_crashes :
  Write suffix middle 1000 (hello (sniExtension [])) both [] = Some Panic /\
  Write suffix middle 1000 (hello (sniExtension [46; 100; 101])) both [] = Some Panic /\
  forall fuel, IndexTLSServerName fuel (hello ([1; 1; 255; 252] ++ replicate (Z.to_nat 65532) 0)) = None.
Proof.
  split; [reflexivity|]. split; [reflexivity|]. intros fuel.
  assert (len (replicate (Z.to_nat 65532) 0) = 65532) as Hz by (unfold len; rewrite length_replicate; lia).
  apply hello_search; [|by apply loop_forever]. unfold len in *. rewrite length_app. cbn [length]. lia.
Qed.

End FragmentDemo.
