(* ===== verification/Sniffers.v ===== *)
(** * Protocol sniffers

    The sniffers of [src/common/sniff] but QUIC's: each looks at the first bytes of a
    stream, or at a packet, and sets the protocol in the metadata, or answers an error.
    For a stream the error may be that more data is needed; [PeekStream] then tries
    again with more.

    Bytes are integers.  The reader of a stream is the list of its buffers
    ([io.MultiReader] over [bytes.NewReader]): a read gives bytes of one buffer only.
    The TLS, HTTP and DNS parsers are third-party. *)

From S2P Require Import Prelude GoStrings GoCrypto GoBinary.

Local Open Scope string_scope.
Local Open Scope list_scope.
Local Open Scope Z_scope.

Definition ProtocolTLS : string := "tls".
Definition ProtocolHTTP : string := "http".
Definition ProtocolQUIC : string := "quic".
Definition ProtocolDNS : string := "dns".
Definition ProtocolSTUN : string := "stun".
Definition ProtocolBitTorrent : string := "bittorrent".
Definition ProtocolDTLS : string := "dtls".
Definition ProtocolSSH : string := "ssh".
Definition ProtocolRDP : string := "rdp".
Definition ProtocolNTP : string := "ntp".

(** ** Metadata *)

Record qCryptoFragment := mkFragment { offset : Z; length_ : Z; payload : list Z }.

(** The fields of [adapter.InboundContext] that sniffers use. *)
Record Metadata := mkMetadata { Protocol : string; Domain : string; Client : string; SniffContext : option (list qCryptoFragment) }.

Definition setProtocol (p : string) (m : Metadata) : Metadata := mkMetadata p m.(Domain) m.(Client) m.(SniffContext).
Definition setDomain (d : string) (m : Metadata) : Metadata := mkMetadata m.(Protocol) d m.(Client) m.(SniffContext).
Definition setClient (c : string) (m : Metadata) : Metadata := mkMetadata m.(Protocol) m.(Domain) c m.(SniffContext).
Definition setContext (x : option (list qCryptoFragment)) (m : Metadata) : Metadata := mkMetadata m.(Protocol) m.(Domain) m.(Client) x.

(** [E.Cause1], and what [errors.Is(err, ErrNeedMoreData)] answers. *)
Class SniffErrors {EX : Exceptions} := {
  E_Cause1 : error -> error -> error;
  isNeedMoreData : error -> bool;
}.

(** A message as far as the sniffer looks at it. *)
Record MsgShape := mkMsgShape { Response : bool; questions : nat; answers : nat; authorities : nat }.

(** [Msg.Unpack] of the DNS library; a TLS server's handshake over what can be read
    (the client hello it came to, and its error); [http.ReadRequest] with the host of
    the request, and the address in it. *)
Class SniffLib {EX : Exceptions} := {
  Unpack : list Z -> result error MsgShape;
  tlsHandshake : list Z -> option string * error;
  ReadRequest : list Z -> result error string;
  hostAddress : string -> string;
  isUnexpectedEOF : error -> bool;
}.

Section Sniffers.
Context {EX : Exceptions} {SE : SniffErrors}.

Definition ErrNeedMoreData : error := E_New ["need more data"].
Definition ErrInvalid : error := Errorf "invalid argument".

(** A sniffer's answer: the new metadata and the error. *)
Definition Sniffed : Type := outcome (Metadata * option error).

(** An error of a read means that more data is needed. *)
Definition needMore {A} (m : Rd A) : Rd A := fun l =>
  match m l with
  | Ret (Err e) => Ret (Err (E_Cause1 ErrNeedMoreData e))
  | r => r
  end.

(** A sniffer that reads the stream to its end and sets the metadata. *)
Definition sniffWith (m : Metadata) (read : Rd (Metadata -> Metadata)) (l : list Z) : Sniffed :=
  match read l with
  | Panic => Panic
  | Ret (Err e) => Ret (m, Some e)
  | Ret (Ok (f, _)) => Ret (f m, None)
  end.

(** A field that must have a value. *)
Definition expect (n : nat) (v : Z) : Rd () :=
  rdBind (needMore (ReadUint n)) (fun x => if x =? v then rdRet tt else rdErr ErrInvalid).

(** ** Streams *)

Definition RDP_read : Rd (Metadata -> Metadata) :=
  rdBind (expect 1 0x03) (fun _ =>
  rdBind (expect 1 0x00) (fun _ =>
  rdBind (expect 2 19) (fun _ =>
  rdBind (expect 1 14) (fun _ =>
  rdBind (expect 1 0xE0) (fun _ =>
  rdBind (needMore (ReadFull 5)) (fun _ =>
  rdBind (expect 1 0x01) (fun _ =>
  rdBind (needMore (ReadUint 1)) (fun _ =>
  rdBind (expect 1 8) (fun _ => rdRet (setProtocol ProtocolRDP)))))))))).

Definition RDP (m : Metadata) (reader : list (list Z)) : Sniffed := sniffWith m RDP_read (concat reader).

(** One [Read] of a [MultiReader] into [n] bytes: the bytes, none at the end. *)
Fixpoint readOnce (n : nat) (reader : list (list Z)) : list Z :=
  match reader with
  | [] => []
  | [] :: reader => readOnce n reader
  | segment :: _ => take n segment
  end.

(** What is left after the first byte. *)
Fixpoint dropByte (reader : list (list Z)) : option (Z * list (list Z)) :=
  match reader with
  | [] => None
  | [] :: reader => dropByte reader
  | (b :: segment) :: reader => Some (b, segment :: reader)
  end.

Definition bitTorrentHeader : list Z := to_bytes "BitTorrent protocol".

Definition BitTorrent (m : Metadata) (reader : list (list Z)) : Sniffed :=
  match dropByte reader with
  | None => Ret (m, Some (E_Cause1 ErrNeedMoreData ioEOF))
  | Some (first, reader) =>
      if negb (first =? 19) then Ret (m, Some ErrInvalid)
      else
        let protocol := readOnce 19 reader in
        if negb (bool_decide (protocol = take (length protocol) bitTorrentHeader)) then Ret (m, Some ErrInvalid)
        else if bool_decide (protocol = []) then Ret (m, Some (E_Cause1 ErrNeedMoreData ioEOF))
        else if (length protocol <? 19)%nat then Ret (m, Some ErrNeedMoreData)
        else Ret (setProtocol ProtocolBitTorrent m, None)
  end.

(** [bufio.Reader.ReadLine] at the start of a stream: up to the first newline, which is
    dropped with a carriage return before it; a line longer than the buffer of 4096
    bytes is cut there, not after a carriage return, and the end of the stream ends
    a line. *)
Definition bufferSize : nat := 4096.
Definition dropCR (line : list Z) : list Z := match reverse line with b :: r => if b =? 13 then reverse r else line | [] => [] end.
Fixpoint untilNewline (n : nat) (l : list Z) : option (list Z) :=
  match n, l with
  | S n, b :: l => if b =? 10 then Some [] else cons b <$> untilNewline n l
  | _, _ => None
  end.
Definition ReadLine (l : list Z) : result error (list Z) :=
  match untilNewline bufferSize l with
  | Some line => Ok (dropCR line)
  | None => if (bufferSize <=? length l)%nat then Ok (dropCR (take bufferSize l)) else match l with [] => Err ioEOF | _ => Ok l end
  end.

Definition sshPrefix : list Z := to_bytes "SSH-2.0-".

Definition SSH (m : Metadata) (reader : list (list Z)) : Sniffed :=
  let l := concat reader in
  let prefix := take (length sshPrefix) l in
  if negb (bool_decide (prefix = take (length prefix) sshPrefix)) then Ret (m, Some ErrInvalid)
  else if (length prefix <? length sshPrefix)%nat then Ret (m, Some (E_Cause1 ErrNeedMoreData ioEOF))
  else
    match ReadLine l with
    | Err e => Ret (m, Some e)
    | Ok fistLine => client ← sliceFrom 8 fistLine; Ret (setClient (bytes client) (setProtocol ProtocolSSH m), None)
    end.

Section Libraries.
Context {SL : SniffLib}.

Definition DomainNameQuery (m : Metadata) (packet : list Z) : Sniffed :=
  match Unpack packet with
  | Err e => Ret (m, Some e)
  | Ok msg =>
      if msg.(Response) || (msg.(questions) =? 0)%nat || (0 <? msg.(answers))%nat || (0 <? msg.(authorities))%nat then Ret (m, None)
      else Ret (setProtocol ProtocolDNS m, None)
  end.

(** A byte of the packet, when it was read. *)
Definition hasByte (packet : list Z) (i : nat) (p : Z -> bool) : bool := match packet !! i with Some b => p b | None => false end.

(** The checks on a packet that may be incomplete. *)
Definition notAQuery (packet : list Z) : bool :=
  hasByte packet 2 (fun b => negb (Z.land b 0x80 =? 0)) ||
  (hasByte packet 4 (Z.eqb 0) && hasByte packet 5 (Z.eqb 0)) ||
  existsb (fun i => hasByte packet i (fun b => negb (b =? 0))) [6; 7; 8; 9]%nat.

Definition StreamDomainNameQuery (m : Metadata) (reader : list (list Z)) : Sniffed :=
  match needMore (ReadUint 2) (concat reader) with
  | Panic => Panic
  | Ret (Err e) => Ret (m, Some e)
  | Ret (Ok (len_, rest)) =>
      if len_ <? 12 then Ret (m, Some ErrInvalid)
      else
        let packet := take (Z.to_nat len_) rest in
        if notAQuery packet then Ret (m, Some ErrInvalid)
        else
          match needMore (ReadFull (Z.to_nat len_)) rest with
          | Ret (Err e) => Ret (m, Some e)
          | _ => DomainNameQuery m packet
          end
  end.

Definition TLSClientHello (m : Metadata) (reader : list (list Z)) : Sniffed :=
  match tlsHandshake (concat reader) with
  | (Some serverName, _) => Ret (setDomain serverName (setProtocol ProtocolTLS m), None)
  | (None, e) => Ret (m, Some (if isUnexpectedEOF e then E_Cause1 ErrNeedMoreData e else e))
  end.

Definition HTTPHost (m : Metadata) (reader : list (list Z)) : Sniffed :=
  match ReadRequest (concat reader) with
  | Err e => Ret (m, Some (if isUnexpectedEOF e then E_Cause1 ErrNeedMoreData e else e))
  | Ok host => Ret (setDomain (hostAddress host) (setProtocol ProtocolHTTP m), None)
  end.

End Libraries.

(** ** Packets *)

Definition uint32At (i : Z) (b : list Z) : outcome Z := be_value 0 <$> slice i (i + 4) b.
Definition uint64At (i : Z) (b : list Z) : outcome Z := be_value 0 <$> slice i (i + 8) b.

(** The extensions of a uTP packet: the next type, the length, the data. *)
Fixpoint utpExtensions (fuel : nat) (extension : Z) (reader : list Z) : option (option error) :=
  match fuel with
  | O => None
  | S fuel =>
      if extension =? 0 then Some None
      else
        match reader with
        | [] => Some (Some ioEOF)
        | extension :: reader =>
            if 0x04 <? extension then Some (Some ErrInvalid)
            else
              match reader with
              | [] => Some (Some ioEOF)
              | n :: reader => utpExtensions fuel extension (drop (Z.to_nat n) reader)
              end
        end
  end.

(** The loop reads two bytes in a round. *)
Definition UTP (m : Metadata) (packet : list Z) : Sniffed :=
  if len packet <? 20 then Ret (m, Some ErrInvalid)
  else
    first ← byteAt 0 packet;
    let version := Z.land first 0x0F in
    let ty := Z.shiftr first 4 in
    if negb (version =? 1) || (4 <? ty) then Ret (m, Some ErrInvalid)
    else
      extension ← byteAt 1 packet; reader ← sliceFrom 20 packet;
      match utpExtensions (S (length reader)) extension reader with
      | Some None => Ret (setProtocol ProtocolBitTorrent m, None)
      | Some (Some e) => Ret (m, Some e)
      | None => Panic
      end.

Definition trackerConnectFlag : Z := 0.
Definition trackerProtocolID : Z := 0x41727101980.
Definition trackerConnectMinSize : Z := 16.

Definition UDPTracker (m : Metadata) (packet : list Z) : Sniffed :=
  if len packet <? trackerConnectMinSize then Ret (m, Some ErrInvalid)
  else
    id ← uint64At 0 packet;
    if negb (id =? trackerProtocolID) then Ret (m, Some ErrInvalid)
    else
      flag ← uint32At 8 packet;
      if negb (flag =? trackerConnectFlag) then Ret (m, Some ErrInvalid)
      else Ret (setProtocol ProtocolBitTorrent m, None).

Definition STUNMessage (m : Metadata) (packet : list Z) : Sniffed :=
  if len packet <? 20 then Ret (m, Some ErrInvalid)
  else
    cookie ← uint32At 4 packet;
    if negb (cookie =? 0x2112A442) then Ret (m, Some ErrInvalid)
    else
      n ← uint16At 2 packet;
      if len packet <? 20 + n then Ret (m, Some ErrInvalid)
      else Ret (setProtocol ProtocolSTUN m, None).

Definition DTLSRecord (m : Metadata) (packet : list Z) : Sniffed :=
  if len packet <? 13 then Ret (m, Some ErrInvalid)
  else
    contentType ← byteAt 0 packet;
    if negb (existsb (Z.eqb contentType) [20; 21; 22; 23; 25]) then Ret (m, Some ErrInvalid)
    else
      versionMajor ← byteAt 1 packet;
      if negb (versionMajor =? 0xfe) then Ret (m, Some ErrInvalid)
      else
        versionMinor ← byteAt 2 packet;
        if negb (versionMinor =? 0xff) && negb (versionMinor =? 0xfd) then Ret (m, Some ErrInvalid)
        else Ret (setProtocol ProtocolDTLS m, None).

(** [float64(v)/65536.0 > 16.0], which is exact for a [uint32]. *)
Definition above16Seconds (v : Z) : bool := 16 * 65536 <? v.

Definition NTP (m : Metadata) (packet : list Z) : Sniffed :=
  if len packet <? 48 then Ret (m, Some ErrInvalid)
  else
    firstByte ← byteAt 0 packet;
    let li := Z.land (Z.shiftr firstByte 6) 0x03 in
    let vn := Z.land (Z.shiftr firstByte 3) 0x07 in
    let mode := Z.land firstByte 0x07 in
    if 3 <? li then Ret (m, Some ErrInvalid)
    else if negb (vn =? 3) && negb (vn =? 4) then Ret (m, Some ErrInvalid)
    else if negb (mode =? 3) then Ret (m, Some ErrInvalid)
    else
      rootDelay ← uint32At 4 packet; rootDispersion ← uint32At 8 packet;
      if above16Seconds rootDelay then Ret (m, Some ErrInvalid)
      else if above16Seconds rootDispersion then Ret (m, Some ErrInvalid)
      else Ret (setProtocol ProtocolNTP m, None).

End Sniffers.

(** ** Streams in pieces *)

(** What the sniffers rely on: both errors ask for more data. *)
Class SniffErrorsLaws {EX : Exceptions} (SE : SniffErrors) := {
  need_more : isNeedMoreData ErrNeedMoreData = true;
  need_more_cause : forall e, isNeedMoreData (E_Cause1 ErrNeedMoreData e) = true;
}.

Section Pieces.
Context {EX : Exceptions} {SE : SniffErrors} {SEL : SniffErrorsLaws SE} {SL : SniffLib}.

(** An answer that asks for more data. *)
Definition asks (r : Sniffed) : bool := match r with Ret (_, Some e) => isNeedMoreData e | _ => false end.

(** The loop of [PeekStream] for one sniffer: it is tried again on all data so far while
    it asks for more and there is any. *)
Fixpoint peek (sniffer : Metadata -> list (list Z) -> Sniffed) (m : Metadata) (buffer : list Z) (reads : list (list Z)) (answer : Sniffed) : Sniffed :=
  match reads with
  | [] => answer
  | data :: reads =>
      let buffer := buffer ++ data in
      let answer := sniffer m [buffer] in
      if asks answer then peek sniffer m buffer reads answer else answer
  end.

(** A sniffer whose answer, when it does not ask for more, is the one for all longer
    streams. *)
Definition stable (sniffer : Metadata -> list (list Z) -> Sniffed) : Prop :=
  forall m p q, asks (sniffer m [p]) = false -> sniffer m [p ++ q] = sniffer m [p].

Lemma peek_stable sniffer m reads : stable sniffer -> forall buffer,
  peek sniffer m buffer reads (sniffer m [buffer]) = sniffer m [buffer ++ concat reads].
Proof.
  intros Hs. induction reads as [|data reads IH]; intros buffer; cbn [peek concat]; [by rewrite app_nil_r|].
  rewrite app_assoc. destruct (asks _) eqn:E; [apply IH|]. symmetry. by apply Hs.
Qed.

(** The same for a reader. *)
Definition stableRd {A} (f : Rd A) : Prop := forall p q,
  match f p with
  | Panic => f (p ++ q) = Panic
  | Ret (Ok (a, rest)) => f (p ++ q) = Ret (Ok (a, rest ++ q))
  | Ret (Err e) => isNeedMoreData e = true \/ f (p ++ q) = Ret (Err e)
  end.

Lemma stableRd_ret {A} (a : A) : stableRd (rdRet a).
Proof. by intros p q. Qed.

Lemma stableRd_err {A} e : stableRd (rdErr (A := A) e).
Proof. intros p q. by right. Qed.

Lemma stableRd_bind {A B} (f : Rd A) (k : A -> Rd B) : stableRd f -> (forall a, stableRd (k a)) -> stableRd (rdBind f k).
Proof.
  intros Hf Hk p q. unfold rdBind. specialize (Hf p q). destruct (f p) as [[[a rest]|e]|].
  - rewrite Hf. apply Hk.
  - destruct Hf as [?|Hf]; [by left|right; by rewrite Hf].
  - by rewrite Hf.
Qed.

Lemma stableRd_ReadFull n : stableRd (needMore (ReadFull n)).
Proof.
  intros p q. unfold needMore, ReadFull. destruct (n <=? length p)%nat eqn:E.
  - apply Nat.leb_le in E. rewrite (proj2 (Nat.leb_le n _)) by (rewrite length_app; lia).
    by rewrite take_app_le, drop_app_le.
  - destruct p; left; apply need_more_cause.
Qed.

Lemma needMore_bind {A B} (f : Rd A) (g : A -> B) l :
  needMore (rdBind f (fun a => rdRet (g a))) l = rdBind (needMore f) (fun a => rdRet (g a)) l.
Proof. unfold needMore, rdBind, rdRet. by destruct (f l) as [[[a rest]|e]|]. Qed.

Lemma stableRd_ReadUint n : stableRd (needMore (ReadUint n)).
Proof.
  intros p q. unfold ReadUint. rewrite !needMore_bind.
  apply (stableRd_bind (needMore (ReadFull n)) (fun b => rdRet (be_value 0 b))); [apply stableRd_ReadFull|intros; apply stableRd_ret].
Qed.

Lemma stableRd_expect n v : stableRd (expect n v).
Proof. apply stableRd_bind; [apply stableRd_ReadUint|]. intros x. destruct (x =? v); [apply stableRd_ret|apply stableRd_err]. Qed.

Lemma RDP_stable : stable RDP.
Proof.
  assert (stableRd RDP_read) as Hs.
  { unfold RDP_read. repeat (apply stableRd_bind; [first [apply stableRd_expect|apply stableRd_ReadFull|apply stableRd_ReadUint]|intros ?]). apply stableRd_ret. }
  intros m p q. unfold RDP, sniffWith. cbn [concat]. rewrite !app_nil_r. specialize (Hs p q).
  destruct (RDP_read p) as [[[f rest]|e]|]; cbn.
  - by rewrite Hs.
  - destruct Hs as [->| ->]; done.
  - by rewrite Hs.
Qed.

Lemma BitTorrent_stable : stable BitTorrent.
Proof.
  intros m [|b p] q; cbn [BitTorrent dropByte app]; [cbn; by rewrite need_more_cause|].
  destruct (negb (b =? 19)); [done|]. destruct p as [|x p].
  { intros Ha. exfalso. revert Ha. cbn. rewrite bool_decide_true by done. cbn. by rewrite need_more_cause. }
  set (t := take 19 (x :: p)). cbn zeta. change (readOnce 19 [x :: p]) with t. change (readOnce 19 [(x :: p) ++ q]) with (take 19 ((x :: p) ++ q)).
  destruct (decide (19 <= length (x :: p))%nat) as [Hl|Hl].
  - by rewrite take_app_le.
  - assert (length t < 19)%nat as Ht by (unfold t; rewrite length_take; lia). assert (t = x :: p) as Et by (unfold t; apply take_ge; lia).
    assert (t `prefix_of` take 19 ((x :: p) ++ q)) as [z Hz].
    { rewrite Et, take_app_ge by lia. eexists. reflexivity. }
    destruct (bool_decide (t = take (length t) bitTorrentHeader)) eqn:E; cbn [negb].
    + rewrite bool_decide_false by (rewrite Et; done). rewrite (proj2 (Nat.ltb_lt _ _) Ht). cbn. by rewrite need_more.
    + intros _. rewrite Hz. apply bool_decide_eq_false in E. rewrite bool_decide_false; [done|]. intros Hc. apply E.
      apply (f_equal (take (length t))) in Hc. rewrite take_app_length in Hc. rewrite Hc at 1. rewrite take_take, length_app. f_equal. lia.
Qed.

Lemma hasByte_app p q i f : hasByte p i f = true -> hasByte (p ++ q) i f = true.
Proof. unfold hasByte. destruct (p !! i) eqn:E; [|done]. by rewrite (lookup_app_l_Some _ _ _ _ E). Qed.

Lemma notAQuery_app p q : notAQuery p = true -> notAQuery (p ++ q) = true.
Proof.
  unfold notAQuery. rewrite !orb_true_iff, !andb_true_iff, !existsb_exists. intros [[H|[H1 H2]]|(i & Hi & H)].
  - left; left. by apply hasByte_app.
  - left; right. split; by apply hasByte_app.
  - right. exists i. split; [done|]. by apply hasByte_app.
Qed.

Lemma StreamDomainNameQuery_stable : stable StreamDomainNameQuery.
Proof.
  intros m p q. unfold StreamDomainNameQuery. cbn [concat]. rewrite !app_nil_r. pose proof (stableRd_ReadUint 2 p q) as H2.
  destruct (needMore (ReadUint 2) p) as [[[n rest]|e]|]; cbn in H2 |- *; [|destruct H2 as [->| ->]; done|by rewrite H2].
  rewrite H2. destruct (n <? 12); [done|]. destruct (decide (Z.to_nat n <= length rest)%nat) as [Hl|Hl].
  - rewrite take_app_le by done. destruct (notAQuery _); [done|]. unfold needMore, ReadFull.
    rewrite !(proj2 (Nat.leb_le _ _)) by (rewrite ?length_app; lia). done.
  - rewrite (take_ge rest) by lia. destruct (notAQuery rest) eqn:E.
    + intros _. rewrite (take_app_ge rest) by lia. by rewrite notAQuery_app.
    + unfold needMore at 1, ReadFull at 1. rewrite (proj2 (Nat.leb_gt _ _)) by lia. by destruct rest; cbn; rewrite need_more_cause.
Qed.

(** C20: the sniffers of DNS, BitTorrent and RDP do not depend on how a stream arrives:
    tried again while they ask for more data, they end with the answer they give to
    the whole stream at once. *)
Theorem sniffing_ignores_segmentation sniffer m first reads :
  In sniffer [StreamDomainNameQuery; BitTorrent; RDP] ->
  peek sniffer m [] (first :: reads) (sniffer m [[]]) = sniffer m [concat (first :: reads)].
Proof.
  intros Hin. apply (peek_stable sniffer m (first :: reads)).
  destruct Hin as [<-|[<-|[<-|[]]]]; [apply StreamDomainNameQuery_stable|apply BitTorrent_stable|apply RDP_stable].
Qed.

(** SSH: the line starts with the prefix, so only the client's version depends on
    where the data ends. *)
Lemma dropCR_keeps a b l : b <> 13 -> exists l', dropCR ((a ++ [b]) ++ l) = (a ++ [b]) ++ l'.
Proof.
  intros Hb. unfold dropCR. destruct l as [|x l _] using rev_ind.
  - rewrite app_nil_r, reverse_snoc. rewrite (proj2 (Z.eqb_neq b 13) Hb). exists []. by rewrite app_nil_r.
  - rewrite app_assoc, reverse_snoc. destruct (x =? 13); [rewrite reverse_involutive; by exists l|]. exists (l ++ [x]). by rewrite app_assoc.
Qed.

Lemma untilNewline_app n p l : Forall (fun b => b <> 10) p -> untilNewline (length p + n) (p ++ l) = app p <$> untilNewline n l.
Proof.
  induction 1 as [|b p Hb _ IH]; cbn [untilNewline length app Nat.add]; [by destruct (untilNewline n l)|].
  rewrite (proj2 (Z.eqb_neq b 10) Hb), IH. by destruct (untilNewline n l).
Qed.

Lemma ReadLine_ssh rest : exists line, ReadLine (sshPrefix ++ rest) = Ok (sshPrefix ++ line).
Proof.
  set (a := take 7 sshPrefix). assert (sshPrefix = a ++ [45]) as Es by reflexivity.
  unfold ReadLine. assert (untilNewline bufferSize (sshPrefix ++ rest) = app sshPrefix <$> untilNewline 4088 rest) as ->.
  { apply (untilNewline_app 4088 sshPrefix rest). vm_compute. repeat constructor; discriminate. }
  destruct (untilNewline 4088 rest) as [line|] eqn:E; cbn [fmap option_fmap option_map].
  - destruct (dropCR_keeps a 45 line) as [l Hl]; [lia|]. exists l. rewrite <-Es in Hl. by rewrite Hl.
  - destruct (bufferSize <=? _)%nat; [|by exists rest]. rewrite take_app_ge by (apply Nat.leb_le; reflexivity).
    destruct (dropCR_keeps a 45 (take (bufferSize - length sshPrefix) rest)) as [l Hl]; [lia|]. exists l. rewrite <-Es in Hl. by rewrite Hl.
Qed.

Lemma ssh_client line : sliceFrom 8 (sshPrefix ++ line) = Ret line.
Proof.
  unfold sliceFrom, slice, len. rewrite length_app. change (length sshPrefix) with 8%nat.
  rewrite (proj2 (Z.leb_le 8 _)) by lia. rewrite Z.leb_refl. cbn [andb Z.leb Z.compare]. change (Z.to_nat 8) with (length sshPrefix). rewrite drop_app_length.
  f_equal. apply take_ge. change (length sshPrefix) with 8%nat. lia.
Qed.

Lemma SSH_answer m p : asks (SSH m [p]) = false ->
  (SSH m [p] = Ret (m, Some ErrInvalid) /\ take (length sshPrefix) p <> take (length (take (length sshPrefix) p)) sshPrefix) \/
  exists rest client, p = sshPrefix ++ rest /\ SSH m [p] = Ret (setClient client (setProtocol ProtocolSSH m), None).
Proof.
  unfold SSH. cbn [concat]. rewrite app_nil_r. cbv zeta. set (prefix := take _ p).
  destruct (bool_decide (prefix = take (length prefix) sshPrefix)) eqn:E; cbn [negb]; [|left; by apply bool_decide_eq_false in E].
  destruct (length prefix <? length sshPrefix)%nat eqn:El; [cbn; by rewrite need_more_cause|]. intros _. right.
  apply bool_decide_eq_true in E. apply Nat.ltb_ge in El. assert (prefix = sshPrefix) as Ep by (rewrite E; apply take_ge; lia).
  assert (p = sshPrefix ++ drop (length sshPrefix) p) as Hp by (rewrite <-Ep at 1; symmetry; apply take_drop).
  destruct (ReadLine_ssh (drop (length sshPrefix) p)) as [line Hl]. rewrite <-Hp in Hl. rewrite Hl.
  exists (drop (length sshPrefix) p), (bytes line). split; [done|].
  by rewrite ssh_client.
Qed.

Lemma SSH_protocol_stable m p q : asks (SSH m [p]) = false ->
  exists m1 m2 e, SSH m [p] = Ret (m1, e) /\ SSH m [p ++ q] = Ret (m2, e) /\ Protocol m1 = Protocol m2.
Proof.
  intros Ha. destruct (SSH_answer m p Ha) as [[Hp E]|(rest & client & -> & Hp)].
  - exists m, m, (Some ErrInvalid). split_and!; [done| |done]. unfold SSH. cbn [concat]. rewrite app_nil_r. cbv zeta.
    set (k := length sshPrefix) in *. rewrite bool_decide_false; [done|]. intros Hc. apply E.
    rewrite take_app in Hc. apply (f_equal (take (length (take k p)))) in Hc. rewrite take_app_length in Hc. rewrite Hc at 1.
    rewrite take_take, length_app. f_equal. lia.
  - assert (asks (SSH m [(sshPrefix ++ rest) ++ q]) = false -> exists m1 m2 e, SSH m [sshPrefix ++ rest] = Ret (m1, e) /\
      SSH m [(sshPrefix ++ rest) ++ q] = Ret (m2, e) /\ Protocol m1 = Protocol m2) as Hgo.
    { intros Hq. destruct (SSH_answer _ _ Hq) as [[_ Hi]|(rest' & client' & _ & Hc)].
      - exfalso. apply Hi. rewrite <-app_assoc, take_app_length. symmetry. by apply take_ge.
      - eexists _, _, None. split_and!; [exact Hp|exact Hc|done]. }
    apply Hgo. rewrite <-app_assoc. unfold SSH. cbn [concat]. rewrite app_nil_r. cbv zeta. rewrite take_app_length.
    rewrite bool_decide_true by (by rewrite take_ge by done). rewrite Nat.ltb_irrefl. cbn [negb]. destruct (ReadLine_ssh (rest ++ q)) as [line ->]. by destruct (sliceFrom 8 _).
Qed.

(** *** The stream sniffers return *)

Definition neverPanics {A} (f : Rd A) : Prop := forall l, returns (f l).

Lemma neverPanics_bind {A B} (f : Rd A) (k : A -> Rd B) : neverPanics f -> (forall a, neverPanics (k a)) -> neverPanics (rdBind f k).
Proof. intros Hf Hk l. unfold rdBind. destruct (Hf l) as [[[a rest]|e] ->]; [apply Hk|by eexists]. Qed.

Lemma neverPanics_ReadFull n : neverPanics (needMore (ReadFull n)).
Proof. intros l. unfold needMore, ReadFull. destruct (n <=? length l)%nat; [by eexists|]. destruct l; by eexists. Qed.

Lemma neverPanics_ReadUint n : neverPanics (needMore (ReadUint n)).
Proof.
  intros l. unfold ReadUint. rewrite needMore_bind.
  apply (neverPanics_bind (needMore (ReadFull n)) (fun b => rdRet (be_value 0 b))); [apply neverPanics_ReadFull|]. intros a l'. by eexists.
Qed.

Lemma neverPanics_expect n v : neverPanics (expect n v).
Proof. apply neverPanics_bind; [apply neverPanics_ReadUint|]. intros x l. destruct (x =? v); by eexists. Qed.

Lemma RDP_returns m reader : returns (RDP m reader).
Proof.
  assert (neverPanics RDP_read) as Hr.
  { unfold RDP_read.
    repeat (apply neverPanics_bind; [first [apply neverPanics_expect|apply neverPanics_ReadFull|apply neverPanics_ReadUint]|intros ?]).
    intros l. by eexists. }
  unfold RDP, sniffWith. destruct (Hr (concat reader)) as [[[f rest]|e] ->]; by eexists.
Qed.

Lemma BitTorrent_returns m reader : returns (BitTorrent m reader).
Proof. unfold BitTorrent. destruct (dropByte reader) as [[b r]|]; [|by eexists]. repeat case_goal; by eexists. Qed.

Lemma SSH_returns m reader : returns (SSH m reader).
Proof.
  unfold SSH. set (p := concat reader). cbv zeta. set (prefix := take _ p).
  destruct (bool_decide (prefix = take (length prefix) sshPrefix)) eqn:E; cbn [negb]; [|by eexists].
  destruct (length prefix <? length sshPrefix)%nat eqn:El; [by eexists|].
  apply bool_decide_eq_true in E. apply Nat.ltb_ge in El. assert (prefix = sshPrefix) as Ep by (rewrite E; apply take_ge; lia).
  assert (p = sshPrefix ++ drop (length sshPrefix) p) as Hp by (rewrite <-Ep at 1; symmetry; apply take_drop).
  destruct (ReadLine_ssh (drop (length sshPrefix) p)) as [line Hl]. rewrite <-Hp in Hl. rewrite Hl, ssh_client. by eexists.
Qed.

Lemma DomainNameQuery_returns m packet : returns (DomainNameQuery m packet).
Proof. unfold DomainNameQuery. destruct (Unpack packet); [|by eexists]. case_goal; by eexists. Qed.

Lemma StreamDomainNameQuery_returns m reader : returns (StreamDomainNameQuery m reader).
Proof.
  unfold StreamDomainNameQuery. destruct (neverPanics_ReadUint 2 (concat reader)) as [[[n rest]|e] ->]; [|by eexists].
  do 2 (case_goal; [by eexists|]). destruct (neverPanics_ReadFull (Z.to_nat n) rest) as [[x|e] ->]; [apply DomainNameQuery_returns|by eexists].
Qed.

Lemma TLSClientHello_returns m reader : returns (TLSClientHello m reader).
Proof. unfold TLSClientHello. destruct (tlsHandshake _) as [[?|] ?]; by eexists. Qed.

Lemma HTTPHost_returns m reader : returns (HTTPHost m reader).
Proof. unfold HTTPHost. destruct (ReadRequest _); by eexists. Qed.

End Pieces.

(** ** Packets *)

Section Packets.
Context {EX : Exceptions} {SE : SniffErrors}.

Lemma utpExtensions_ends fuel e reader : (length reader < fuel)%nat -> exists r, utpExtensions fuel e reader = Some r.
Proof.
  revert e reader. induction fuel as [|fuel IH]; intros e reader Hf; [lia|]. cbn [utpExtensions]. destruct (e =? 0); [by eexists|].
  destruct reader as [|x [|n reader]]; [by eexists|destruct (4 <? x); by eexists|]. destruct (4 <? x); [by eexists|].
  apply IH. rewrite length_drop. cbn in Hf. lia.
Qed.

Lemma uintAt_ret i n b : 0 <= i -> 0 <= n -> i + n <= len b -> exists v, be_value 0 <$> slice i (i + n) b = Ret v.
Proof. intros H1 Hn H2. rewrite slice_ret by lia. by eexists. Qed.

(** A packet is recognised. *)
Definition recognises (sniffer : Metadata -> list Z -> Sniffed) (m : Metadata) (packet : list Z) : Prop := exists m', sniffer m packet = Ret (m', None).

(** Each of the sniffers returns, and what it says about the first byte. *)
Definition decides (sniffer : Metadata -> list Z -> Sniffed) (first : Z -> Prop) : Prop :=
  forall m packet, (exists r, sniffer m packet = Ret r) /\ (recognises sniffer m packet -> exists b, packet !! 0%nat = Some b /\ first b).

Ltac refused := split; [by eexists|intros [? ?]; discriminate].

Lemma UTP_decides : decides UTP (fun b => Z.land b 15 = 1).
Proof.
  intros m packet. unfold recognises, UTP. destruct (len packet <? 20) eqn:E; [refused|]. apply Z.ltb_ge in E.
  destruct (byteAt_lookup 0 packet) as (b & -> & Hb); [lia|]. cbn [mbind outcome_bind].
  destruct (negb (Z.land b 15 =? 1)) eqn:Ev; cbn [orb]; [refused|]. destruct (4 <? Z.shiftr b 4); [refused|].
  apply negb_false_iff, Z.eqb_eq in Ev. destruct (byteAt_lookup 1 packet) as (e & -> & _); [lia|]. cbn [mbind outcome_bind].
  rewrite sliceFrom_ret by lia. set (s := drop _ packet). cbn [mbind outcome_bind].
  destruct (utpExtensions_ends (S (length s)) e s) as [[x|] ->]; [lia|refused|]. split; [by eexists|]. intros _. by exists b.
Qed.

Lemma DTLSRecord_decides : decides DTLSRecord (fun b => In b [20; 21; 22; 23; 25]).
Proof.
  intros m packet. unfold recognises, DTLSRecord. destruct (len packet <? 13) eqn:E; [refused|]. apply Z.ltb_ge in E.
  destruct (byteAt_lookup 0 packet) as (b & -> & Hb); [lia|]. cbn [mbind outcome_bind].
  destruct (existsb (Z.eqb b) _) eqn:Ex; cbn [negb]; [|refused]. apply existsb_exists in Ex as (x & Hx & ->%Z.eqb_eq).
  destruct (byteAt_lookup 1 packet) as (e & -> & _); [lia|]. cbn [mbind outcome_bind]. destruct (negb (e =? 254)); [refused|].
  destruct (byteAt_lookup 2 packet) as (v & -> & _); [lia|]. cbn [mbind outcome_bind].
  destruct (negb (v =? 255) && negb (v =? 253)); [refused|]. split; [by eexists|]. intros _. by exists x.
Qed.

Lemma NTP_decides : decides NTP (fun b => Z.land b 7 = 3).
Proof.
  intros m packet. unfold recognises, NTP. destruct (len packet <? 48) eqn:E; [refused|]. apply Z.ltb_ge in E.
  destruct (byteAt_lookup 0 packet) as (b & -> & Hb); [lia|]. cbn [mbind outcome_bind]. destruct (3 <? _); [refused|].
  destruct (_ && _); [refused|]. destruct (negb (Z.land b 7 =? 3)) eqn:Em; [refused|]. apply negb_false_iff, Z.eqb_eq in Em. unfold uint32At.
  destruct (uintAt_ret 4 4 packet) as [d ->]; [lia..|]. destruct (uintAt_ret 8 4 packet) as [s ->]; [lia..|]. cbn [mbind outcome_bind].
  destruct (above16Seconds d); [refused|]. destruct (above16Seconds s); [refused|]. split; [by eexists|]. intros _. by exists b.
Qed.

Lemma STUNMessage_returns m packet : exists r, STUNMessage m packet = Ret r.
Proof.
  unfold STUNMessage. destruct (len packet <? 20) eqn:E; [by eexists|]. apply Z.ltb_ge in E. unfold uint32At.
  destruct (uintAt_ret 4 4 packet) as [c ->]; [lia..|]. cbn [mbind outcome_bind]. destruct (negb _); [by eexists|].
  destruct (uint16At_total 2 packet) as [n ->]; [lia..|]. cbn [mbind outcome_bind]. destruct (_ <? _); by eexists.
Qed.

Lemma UDPTracker_returns m packet : returns (UDPTracker m packet).
Proof.
  unfold UDPTracker. destruct (len packet <? trackerConnectMinSize) eqn:E; [by eexists|]. apply Z.ltb_ge in E. unfold trackerConnectMinSize in E.
  unfold uint64At, uint32At. destruct (uintAt_ret 0 8 packet) as [x ->]; [lia..|]. cbn [mbind outcome_bind]. case_goal; [by eexists|].
  destruct (uintAt_ret 8 4 packet) as [f ->]; [lia..|]. cbn [mbind outcome_bind]. case_goal; by eexists.
Qed.

(** The identifier of the tracker protocol starts with a zero byte. *)
Lemma be_value_first b l : byte_list (b :: l) -> b * 256 ^ Z.of_nat (length l) <= be_value 0 (b :: l).
Proof.
  intros H. apply Forall_cons in H as [Hb Hl]. cbn [be_value]. rewrite be_value_acc.
  assert (0 <= be_value 0 l). { clear -Hl. induction l as [|x l IH]; cbn; [lia|]. apply Forall_cons in Hl as [? Hl]. rewrite be_value_acc. specialize (IH Hl). nia. }
  lia.
Qed.

Lemma UDPTracker_decides m packet : byte_list packet ->
  (exists r, UDPTracker m packet = Ret r) /\ (recognises UDPTracker m packet -> exists b, packet !! 0%nat = Some b /\ b = 0).
Proof.
  intros Hb. unfold recognises, UDPTracker. destruct (len packet <? trackerConnectMinSize) eqn:E; [refused|]. apply Z.ltb_ge in E. unfold trackerConnectMinSize in E.
  assert (uint64At 0 packet = Ret (be_value 0 (take 8 packet))) as ->.
  { unfold uint64At, slice. change (0 + 8) with 8. rewrite (proj2 (Z.leb_le 8 (len packet))) by lia. reflexivity. }
  cbn [mbind outcome_bind]. destruct (negb _) eqn:Ei; [refused|]. apply negb_false_iff, Z.eqb_eq in Ei.
  unfold uint32At. destruct (uintAt_ret 8 4 packet) as [f ->]; [lia..|]. cbn [mbind outcome_bind]. destruct (negb _); [refused|]. split; [by eexists|]. intros _.
  destruct packet as [|b packet]; [unfold len in E; cbn in E; lia|]. exists b. split; [done|]. change (take 8 (b :: packet)) with (b :: take 7 packet) in Ei.
  assert (byte_list (b :: take 7 packet)) as Hb'. { apply Forall_cons in Hb as [? ?]. apply Forall_cons. split; [done|]. by apply Forall_take. }
  pose proof (be_value_first _ _ Hb') as Hv. rewrite Ei in Hv. rewrite length_take, Nat.min_l in Hv by (unfold len in E; cbn in E; lia).
  apply Forall_cons in Hb as [? _]. unfold trackerProtocolID in Hv. change (256 ^ Z.of_nat 7) with 72057594037927936 in Hv. lia.
Qed.

(** The packet sniffers of STUN, uTP, the UDP tracker protocol, DTLS and NTP return for
    every packet, and no packet is recognised by two of the last four, so the order in
    which they are tried does not matter. *)
Theorem packet_sniffers_disjoint m packet : byte_list packet ->
  Forall (fun sniffer => exists r, sniffer m packet = Ret r) [STUNMessage; UTP; UDPTracker; DTLSRecord; NTP] /\
  forall i j s1 s2, [UTP; UDPTracker; DTLSRecord; NTP] !! i = Some s1 -> [UTP; UDPTracker; DTLSRecord; NTP] !! j = Some s2 ->
    recognises s1 m packet -> recognises s2 m packet -> i = j.
Proof.
  intros Hb. destruct (UTP_decides m packet) as [R1 F1]. destruct (UDPTracker_decides m packet Hb) as [R2 F2].
  destruct (DTLSRecord_decides m packet) as [R3 F3]. destruct (NTP_decides m packet) as [R4 F4].
  split; [repeat constructor; [apply STUNMessage_returns|done..]|]. intros i j s1 s2 H1 H2 Hr1 Hr2.
  assert (forall k (s : Metadata -> list Z -> Sniffed), [UTP; UDPTracker; DTLSRecord; NTP] !! k = Some s -> recognises s m packet ->
    exists b, packet !! 0%nat = Some b /\ match k with 0%nat => Z.land b 15 = 1 | 1%nat => b = 0 | 2%nat => In b [20; 21; 22; 23; 25] | _ => Z.land b 7 = 3 end) as Hk.
  { intros k s Hs Hr. destruct k as [|[|[|[|k]]]]; cbn in Hs; [injection Hs as <-; auto..|done]. }
  destruct (Hk _ _ H1 Hr1) as (b & E1 & C1). destruct (Hk _ _ H2 Hr2) as (b' & E2 & C2). rewrite E1 in E2. injection E2 as <-.
  apply lookup_lt_Some in H1, H2. cbn in H1, H2.
  change 15 with (Z.ones 4) in *. change 7 with (Z.ones 3) in *.
  destruct i as [|[|[|[|i]]]], j as [|[|[|[|j]]]]; try reflexivity; try lia; cbn [In] in C1, C2; exfalso;
    rewrite ?Z.land_ones in C1 by lia; rewrite ?Z.land_ones in C2 by lia; change (2 ^ 4) with 16 in *; change (2 ^ 3) with 8 in *; Z.to_euclidean_division_equations; lia.
Qed.

End Packets.

(** ** Examples *)

Module SniffDemo.
#[local] Existing Instance text_exceptions.
#[export] Instance textSniff : SniffErrors := {|
  E_Cause1 := fun a b => (a +:+ ": " +:+ b : @error text_exceptions);
  isNeedMoreData := fun e => String.prefix "need more data" (e : @error text_exceptions);
|}.
#[export] Instance textSniff_laws : SniffErrorsLaws textSniff.
Proof. split; [done|]. intros e. reflexivity. Qed.

(** A DNS library that refuses everything. *)
#[export] Instance noLib : SniffLib := {|
  Unpack := fun _ => Err ("bad message" : @error text_exceptions);
  tlsHandshake := fun _ => (None, "no client hello" : @error text_exceptions);
  ReadRequest := fun _ => Err ("no request" : @error text_exceptions);
  hostAddress := fun s => s;
  isUnexpectedEOF := fun _ => false;
|}.

Definition none : Metadata := mkMetadata "" "" "" None.
Definition text (s : string) : list Z := to_bytes s.

Lemma sniffing_ignores_segmentation_witness :
  peek BitTorrent none [] [[19]; text "BitTor"; text "rent protocol and more"] (BitTorrent none [[]]) =
  Ret (mkMetadata ProtocolBitTorrent "" "" None, None).
Proof.
  etransitivity; [apply (sniffing_ignores_segmentation BitTorrent none [19] [text "BitTor"; text "rent protocol and more"]); cbn [In]; tauto|].
  vm_compute. reflexivity.
Defined.

Lemma packet_sniffers_disjoint_witness :
  Forall (fun sniffer => exists r, sniffer none ([22; 254; 253] ++ replicate 10 0) = Ret r) [STUNMessage; UTP; UDPTracker; DTLSRecord; NTP].
Proof. apply packet_sniffers_disjoint. repeat constructor; lia. Defined.

(** The name of an SSH client is cut when its line has not arrived; a BitTorrent
    handshake over two buffers is never recognised; and a DNS response is no query,
    but also no error. *)
Theorem sniffing_flaws :
  SSH none [text "SSH-2.0-Open"] = Ret (mkMetadata "ssh" "" "Open" None, None) /\
  SSH none [text "SSH-2.0-Open" ++ text "SSH_9.6" ++ [13; 10]] = Ret (mkMetadata "ssh" "" "OpenSSH_9.6" None, None) /\
  BitTorrent none [19 :: text "BitTor"; text "rent protocol and more"] = Ret (none, Some "need more data") /\
  DomainNameQuery (SL := {| Unpack := fun _ => Ok (mkMsgShape true 1 1 0); tlsHandshake := tlsHandshake; ReadRequest := ReadRequest;
                            hostAddress := hostAddress; isUnexpectedEOF := isUnexpectedEOF |}) none [] = Ret (none, None).
Proof. split_and!; vm_compute; reflexivity. Qed.

End SniffDemo.
