(* ===== verification/QUIC.v ===== *)
(** * The QUIC sniffer

    [src/common/sniff/quic.go] with what it calls: the TLS fingerprints of
    [src/common/ja3] and the key derivation of [src/common/sniff/internal/qtls].  A
    packet is opened with the keys anyone can derive from it, its frames are read, and
    the CRYPTO frames of this and earlier packets are put together to a client hello.

    An index or a slice out of range panics.  Loops that need not end have fuel; [None]
    stands for a loop that goes on. *)

From S2P Require Import Prelude GoStrings GoCrypto GoBinary GoAES Sniffers.

Local Open Scope string_scope.
Local Open Scope list_scope.
Local Open Scope Z_scope.

(** A computation that may go on, panic, or answer a value or an error. *)
Definition Div {EX : Exceptions} (A : Type) : Type := option (outcome (result error A)).

Section Div.
Context {EX : Exceptions}.

Definition ok {A} (a : A) : Div A := Some (Ret (Ok a)).
Definition fails {A} (e : error) : Div A := Some (Ret (Err e)).
Definition calls {A B} (m : outcome A) (k : A -> Div B) : Div B := match m with Ret a => k a | Panic => Some Panic end.

End Div.

(** ** TLS fingerprints *)

Module JA3.

Definition recordLayerHeaderLen : Z := 5.
Definition handshakeHeaderLen : Z := 6.
Definition randomDataLen : Z := 32.
Definition sessionIDHeaderLen : Z := 1.
Definition cipherSuiteHeaderLen : Z := 2.
Definition compressMethodHeaderLen : Z := 1.
Definition extensionsHeaderLen : Z := 2.
Definition extensionHeaderLen : Z := 4.
Definition sniExtensionHeaderLen : Z := 5.
Definition ecExtensionHeaderLen : Z := 2.
Definition ecpfExtensionHeaderLen : Z := 1.
Definition versionExtensionHeaderLen : Z := 1.
Definition signatureAlgorithmsExtensionHeaderLen : Z := 2.
Definition contentType : Z := 22.
Definition handshakeType : Z := 1.
Definition sniExtensionType : Z := 0.
Definition sniNameDNSHostnameType : Z := 0.
Definition ecExtensionType : Z := 10.
Definition ecpfExtensionType : Z := 11.
Definition versionExtensionType : Z := 43.
Definition signatureAlgorithmsExtensionType : Z := 13.
Definition tlsVersionBitmask : Z := 0xFFFC.
Definition tls13 : Z := 0x0304.
Definition GreaseBitmask : Z := 0x0F0F.

Record ClientHello := mkClientHello {
  Version : Z;
  CipherSuites : list Z;
  Extensions : list Z;
  EllipticCurves : list Z;
  EllipticCurvePF : list Z;
  Versions : list Z;
  SignatureAlgorithms : list Z;
  ServerName : list Z;
}.

(** What the loop over the extensions has found. *)
Record Found := mkFound { fSni : list Z; fExtensions : list Z; fCurves : list Z; fPF : list Z; fVersions : list Z; fAlgorithms : list Z }.

Section Parser.
Context {EX : Exceptions}.

(** [ParseError]: the text of the error. *)
Definition LengthErr (check : Z) : error := Errorf ("length check " +:+ itoa check +:+ " failed").
Definition VersionErr (check : Z) : error := Errorf ("version check " +:+ itoa check +:+ " failed").
Definition ContentTypeErr : error := Errorf "content type not matching".
Definition HandshakeTypeErr : error := Errorf "handshake type not matching".
Definition SNITypeErr : error := Errorf "SNI type not supported".

(** [rounds] integers of two bytes from position [i] on. *)
Fixpoint uint16s (rounds : nat) (i : Z) (b : list Z) : outcome (list Z) :=
  match rounds with
  | O => Ret []
  | S rounds => v ← uint16At i b; vs ← uint16s rounds (i + 2) b; Ret (v :: vs)
  end.

Definition supportedVersion (v : Z) : bool := (Z.land v tlsVersionBitmask =? 0x0300) || (v =? tls13).

(** The rounds of [for i := 0; i < n; i += 2]. *)
Definition rounds2 (n : Z) : nat := Z.to_nat ((n + 1) / 2).

(** The data of one extension. *)
Definition parseExtension (exType : Z) (sex : list Z) (f : Found) : outcome (result error Found) :=
  if exType =? sniExtensionType then
    if len sex <? sniExtensionHeaderLen then Ret (Err (LengthErr 13))
    else
      sniType ← byteAt 2 sex; sniLen ← uint16At 3 sex; sex ← sliceFrom sniExtensionHeaderLen sex;
      if negb (len sex =? sniLen) then Ret (Err (LengthErr 14))
      else if sniType =? sniNameDNSHostnameType then Ret (Ok (mkFound sex f.(fExtensions) f.(fCurves) f.(fPF) f.(fVersions) f.(fAlgorithms)))
      else Ret (Err SNITypeErr)
  else if exType =? ecExtensionType then
    if len sex <? ecExtensionHeaderLen then Ret (Err (LengthErr 15))
    else
      ecsLen ← uint16At 0 sex; sex ← sliceFrom ecExtensionHeaderLen sex;
      if negb (len sex =? ecsLen) then Ret (Err (LengthErr 16))
      else
        curves ← uint16s (Z.to_nat (ecsLen / 2)) 0 sex;
        Ret (Ok (mkFound f.(fSni) f.(fExtensions) curves f.(fPF) f.(fVersions) f.(fAlgorithms)))
  else if exType =? ecpfExtensionType then
    if len sex <? ecpfExtensionHeaderLen then Ret (Err (LengthErr 17))
    else
      numPF ← byteAt 0 sex; sex ← sliceFrom ecpfExtensionHeaderLen sex;
      if negb (len sex =? numPF) then Ret (Err (LengthErr 18))
      else Ret (Ok (mkFound f.(fSni) f.(fExtensions) f.(fCurves) sex f.(fVersions) f.(fAlgorithms)))
  else if exType =? versionExtensionType then
    if len sex <? versionExtensionHeaderLen then Ret (Err (LengthErr 19))
    else
      versionsLen ← byteAt 0 sex; sex ← sliceFrom 1 sex;
      versions ← uint16s (rounds2 versionsLen) 0 sex;
      Ret (Ok (mkFound f.(fSni) f.(fExtensions) f.(fCurves) f.(fPF) (f.(fVersions) ++ versions) f.(fAlgorithms)))
  else if exType =? signatureAlgorithmsExtensionType then
    if len sex <? signatureAlgorithmsExtensionHeaderLen then Ret (Err (LengthErr 20))
    else
      ssaLen ← uint16At 0 sex; sex ← sliceFrom 2 sex;
      algorithms ← uint16s (rounds2 ssaLen) 0 sex;
      Ret (Ok (mkFound f.(fSni) f.(fExtensions) f.(fCurves) f.(fPF) f.(fVersions) (f.(fAlgorithms) ++ algorithms)))
  else Ret (Ok f).

Definition withExtension (exType : Z) (f : Found) : Found :=
  mkFound f.(fSni) (f.(fExtensions) ++ [exType]) f.(fCurves) f.(fPF) f.(fVersions) f.(fAlgorithms).

Fixpoint extensionsLoop (fuel : nat) (exs : list Z) (f : Found) : Div Found :=
  match fuel with
  | O => None
  | S fuel =>
      if len exs <=? 0 then ok f
      else if len exs <? extensionHeaderLen then fails (LengthErr 11)
      else
        calls (uint16At 0 exs) (fun exType =>
        calls (uint16At 2 exs) (fun exLen =>
        if len exs <? extensionHeaderLen + exLen then fails (LengthErr 12)
        else
          calls (slice extensionHeaderLen (extensionHeaderLen + exLen) exs) (fun sex =>
          calls (parseExtension exType sex (withExtension exType f)) (fun r =>
          match r with
          | Err e => fails e
          | Ok f => calls (sliceFrom (wrapu 16 (4 + exLen)) exs) (fun exs => extensionsLoop fuel exs f)
          end))))
  end.

Definition parseExtensions (fuel : nat) (version : Z) (cipherSuites exs : list Z) : Div ClientHello :=
  if len exs =? 0 then ok (mkClientHello version cipherSuites [] [] [] [] [] [])
  else if len exs <? extensionsHeaderLen then fails (LengthErr 9)
  else
    calls (uint16At 0 exs) (fun exsLen =>
    calls (sliceFrom extensionsHeaderLen exs) (fun exs =>
    if len exs <? exsLen then fails (LengthErr 10)
    else
      match extensionsLoop fuel exs (mkFound [] [] [] [] [] []) with
      | None => None
      | Some Panic => Some Panic
      | Some (Ret (Err e)) => fails e
      | Some (Ret (Ok f)) => ok (mkClientHello version cipherSuites f.(fExtensions) f.(fCurves) f.(fPF) f.(fVersions) f.(fAlgorithms) f.(fSni))
      end)).

Definition parseHandshake (fuel : nat) (hs : list Z) : Div ClientHello :=
  if len hs <? handshakeHeaderLen + randomDataLen + sessionIDHeaderLen then fails (LengthErr 3)
  else
    calls (byteAt 0 hs) (fun handshType =>
    if negb (handshType =? handshakeType) then fails HandshakeTypeErr
    else
      calls (byteAt 1 hs) (fun b1 => calls (byteAt 2 hs) (fun b2 => calls (byteAt 3 hs) (fun b3 =>
      let handshakeLen := Z.lor (Z.lor (wrapu 32 (Z.shiftl b1 16)) (wrapu 32 (Z.shiftl b2 8))) b3 in
      calls (sliceFrom 4 hs) (fun body =>
      if negb (len body =? handshakeLen) then fails (LengthErr 4)
      else
        calls (uint16At 4 hs) (fun tlsVersion =>
        if negb (supportedVersion tlsVersion) then fails (VersionErr 2)
        else
          calls (byteAt 38 hs) (fun sessionIDLen =>
          let csIndex := handshakeHeaderLen + randomDataLen + sessionIDHeaderLen + sessionIDLen in
          if len hs <? csIndex then fails (LengthErr 5)
          else
            calls (sliceFrom csIndex hs) (fun cs =>
            if len cs <? cipherSuiteHeaderLen then fails (LengthErr 6)
            else
              calls (uint16At 0 cs) (fun csLen =>
              if len cs <? cipherSuiteHeaderLen + csLen + compressMethodHeaderLen then fails (LengthErr 7)
              else
                calls (uint16s (Z.to_nat (csLen / 2)) 2 cs) (fun cipherSuites =>
                calls (byteAt (cipherSuiteHeaderLen + csLen) cs) (fun compressMethodLen =>
                let exIndex := cipherSuiteHeaderLen + csLen + compressMethodHeaderLen + compressMethodLen in
                if len cs <? exIndex then fails (LengthErr 8)
                else calls (sliceFrom exIndex cs) (fun exs => parseExtensions fuel tlsVersion cipherSuites exs)))))))))))).

Definition parseSegment (fuel : nat) (segment : list Z) : Div ClientHello :=
  if len segment <? recordLayerHeaderLen then fails (LengthErr 1)
  else
    calls (byteAt 0 segment) (fun contType =>
    if negb (contType =? contentType) then fails ContentTypeErr
    else
      calls (uint16At 1 segment) (fun tlsRecordVersion =>
      if negb (supportedVersion tlsRecordVersion) then fails (VersionErr 1)
      else
        calls (uint16At 3 segment) (fun segmentLen =>
        calls (sliceFrom recordLayerHeaderLen segment) (fun body =>
        if len body <? segmentLen then fails (LengthErr 2)
        else calls (slice recordLayerHeaderLen (recordLayerHeaderLen + segmentLen) segment) (parseHandshake fuel))))).

Definition Compute (fuel : nat) (payload : list Z) : Div ClientHello := parseSegment fuel payload.

End Parser.

(** [marshalJA3]: values with the GREASE pattern are written, with a dash after each;
    the last byte becomes a comma. *)
Definition dash : string := "-".
Definition comma : string := ",".
Definition isGrease (val : Z) : bool := Z.land val GreaseBitmask =? 0x0A0A.
Definition dashed (vals : list Z) : string := str_concat (map (fun val => itoa val +:+ dash) vals).
Definition dropLast (s : string) : string := String.substring 0 (String.length s - 1) s.
Definition marshalList (out : string) (vals : list Z) : string :=
  match vals with [] => out +:+ comma | _ => dropLast (out +:+ dashed (List.filter isGrease vals)) +:+ comma end.
Definition marshalJA3 (j : ClientHello) : string :=
  let out := itoa j.(Version) +:+ comma in
  let out := marshalList (marshalList (marshalList out j.(CipherSuites)) j.(Extensions)) j.(EllipticCurves) in
  match j.(EllipticCurvePF) with [] => out | _ => dropLast (out +:+ dashed j.(EllipticCurvePF)) end.

End JA3.

(** ** Keys and integers *)

Definition VersionDraft29 : Z := 0xff00001d.
Definition Version1 : Z := 0x1.
Definition Version2 : Z := 0x6b3343cf.
Definition SaltOld : list Z := be_bytes 20 0xafbfec289993d24c9e9786f19c6111e04390a899.
Definition SaltV1 : list Z := be_bytes 20 0x38762cf7f55934b34d179ae6a4c80cadccbb7f0a.
Definition SaltV2 : list Z := be_bytes 20 0x0dede3def700a6db819381be6e269dcbf9bd2ed9.
Definition HKDFLabelKeyV1 : string := "quic key".
Definition HKDFLabelKeyV2 : string := "quicv2 key".
Definition HKDFLabelIVV1 : string := "quic iv".
Definition HKDFLabelIVV2 : string := "quicv2 iv".
Definition HKDFLabelHeaderProtectionV1 : string := "quic hp".
Definition HKDFLabelHeaderProtectionV2 : string := "quicv2 hp".

(** [golang.org/x/crypto/hkdf] over SHA-256: [Extract] of a secret and a salt, and the
    first bytes of [Expand] of a key and an info. *)
Class HKDF := {
  hkdfExtract : list Z -> list Z -> list Z;
  hkdfExpand : list Z -> list Z -> nat -> list Z;
}.

(** [qtls.ReadUvarint]: the first two bits are the length. *)
Section Uvarint.
Context {EX : Exceptions}.
Definition quicUvarint : Rd Z :=
  rdBind ReadByte (fun firstByte =>
  let n := Z.shiftl 1 (Z.shiftr (Z.land firstByte 0xc0) 6) in
  let b1 := Z.land firstByte (0xff - 0xc0) in
  rdBind (readMany (Z.to_nat (n - 1)) ReadByte) (fun rest => rdRet (be_value b1 rest))).
End Uvarint.

Section QUIC.
Context {EX : Exceptions} {SE : SniffErrors} {HK : HKDF}.

Definition HKDFExpandLabel (secret context : list Z) (label : string) (length_ : nat) : outcome (list Z) :=
  let b := be_bytes 2 (wrapu 16 (Z.of_nat length_)) ++ [wrapu 8 (6 + len (to_bytes label))] ++ to_bytes "tls13 " ++ to_bytes label
             ++ [wrapu 8 (len context)] ++ context in
  let out := hkdfExpand secret b length_ in
  if (length out =? length_)%nat then Ret out else Panic.

(** [AEADAESGCMTLS13] and [Open] of it: the nonce is xored into the last 8 bytes of the
    mask. *)
Definition openTLS13 (key nonceMask nonce ciphertext aad : list Z) : outcome (result error (list Z)) :=
  if negb (length nonceMask =? 12)%nat then Panic
  else if negb (length key =? 16)%nat then Panic
  else Ret (gcmOpen key (take 4 nonceMask ++ xorBytes (drop 4 nonceMask) nonce) ciphertext aad).

(** ** Opening a packet *)

(** [io.CopyN] to nowhere. *)
Definition discard (n : Z) : Rd () := fun l => if n <=? len l then Ret (Ok (tt, drop (Z.to_nat n) l)) else Ret (Err ioEOF).

Record Header := mkHeader { typeByte : Z; versionNumber : Z; destConnID : list Z; packetLen : Z }.

Definition badPacketType (packetType versionNumber : Z) : bool :=
  ((packetType =? 0) && (versionNumber =? Version2)) || ((packetType =? 2) && negb (versionNumber =? Version2)) || (2 <? packetType).

Definition readHeader : Rd Header :=
  rdBind ReadByte (fun typeByte =>
  if Z.land typeByte 0x40 =? 0 then rdErr (E_New ["bad type byte"])
  else rdBind (ReadUint 4) (fun versionNumber =>
  if negb (existsb (Z.eqb versionNumber) [VersionDraft29; Version1; Version2]) then rdErr (E_New ["bad version"])
  else if badPacketType (Z.shiftr (Z.land typeByte 0x30) 4) versionNumber then rdErr (E_New ["bad packet type"])
  else rdBind ReadByte (fun destConnIDLen =>
  if (destConnIDLen =? 0) || (20 <? destConnIDLen) then rdErr (E_New ["bad destination connection id length"])
  else rdBind (ReadFull (Z.to_nat destConnIDLen)) (fun destConnID =>
  rdBind ReadByte (fun srcConnIDLen =>
  rdBind (discard srcConnIDLen) (fun _ =>
  rdBind quicUvarint (fun tokenLen =>
  rdBind (discard tokenLen) (fun _ =>
  rdBind quicUvarint (fun packetLen => rdRet (mkHeader typeByte versionNumber destConnID packetLen)))))))))).

Definition saltOf (versionNumber : Z) : list Z :=
  if versionNumber =? Version1 then SaltV1 else if versionNumber =? Version2 then SaltV2 else SaltOld.

(** The header with the protection removed: the first byte, and the four bytes where
    the packet number is, xored with the mask. *)
Definition unmask (mask packet : list Z) (hdrLen : nat) : list Z :=
  match packet with
  | [] => []
  | b :: _ => Z.lxor b (Z.land (nth 0 mask 0) 0xf) :: drop 1 (take hdrLen packet)
                ++ xorBytes (take 4 (drop hdrLen packet)) (take 4 (drop 1 mask)) ++ drop (hdrLen + 4) packet
  end.

(** The decrypted payload, and the bytes after it in the same array. *)
Definition openPacket (packet : list Z) : outcome (result error (list Z * list Z)) :=
  match readHeader packet with
  | Panic => Panic
  | Ret (Err e) => Ret (Err e)
  | Ret (Ok (h, rest)) =>
      let hdrLen := len packet - len rest in
      if len packet <? hdrLen + h.(packetLen) then Ret (Err ErrInvalid)
      else
        match rdBind (discard 4) (fun _ => ReadFull 16) rest with
        | Panic => Panic
        | Ret (Err e) => Ret (Err e)
        | Ret (Ok (pnBytes, _)) =>
            let v2 := h.(versionNumber) =? Version2 in
            let initialSecret := hkdfExtract h.(destConnID) (saltOf h.(versionNumber)) in
            secret ← HKDFExpandLabel initialSecret [] "client in" 32;
            hpKey ← HKDFExpandLabel secret [] (if v2 then HKDFLabelHeaderProtectionV2 else HKDFLabelHeaderProtectionV1) 16;
            let newPacket := unmask (aesEncrypt hpKey pnBytes) packet (Z.to_nat hdrLen) in
            first ← byteAt 0 newPacket;
            let packetNumberLength := Z.land first 0x3 + 1 in
            if h.(packetLen) + hdrLen <? hdrLen + packetNumberLength then Ret (Err ErrInvalid)
            else
              number ← slice hdrLen (hdrLen + packetNumberLength) newPacket;
              let packetNumber := be_value 0 number in
              let extHdrLen := hdrLen + packetNumberLength in
              let restored := take (Z.to_nat extHdrLen) newPacket ++ drop (Z.to_nat extHdrLen) packet in
              data ← slice extHdrLen (h.(packetLen) + hdrLen) restored;
              key ← HKDFExpandLabel secret [] (if v2 then HKDFLabelKeyV2 else HKDFLabelKeyV1) 16;
              iv ← HKDFExpandLabel secret [] (if v2 then HKDFLabelIVV2 else HKDFLabelIVV1) 12;
              decrypted ← openTLS13 key iv (be_bytes 8 packetNumber) data (take (Z.to_nat extHdrLen) restored);
              Ret (match decrypted with
                   | Err e => Err e
                   | Ok decrypted => Ok (decrypted, drop (Z.to_nat extHdrLen + length decrypted) restored)
                   end)
        end
  end.

(** ** Frames *)

Definition frameTypePadding : Z := 0x00.
Definition frameTypePing : Z := 0x01.
Definition frameTypeAck : Z := 0x02.
Definition frameTypeAck2 : Z := 0x03.
Definition frameTypeCrypto : Z := 0x06.
Definition frameTypeConnectionClose : Z := 0x1c.

(** [Seek] forward from where the reader is; it may go past the end. *)
Definition seek (n : Z) : Rd () := fun l => Ret (Ok (tt, if len l <? n then [] else drop (Z.to_nat n) l)).

Definition skipUvarints (n : nat) : Rd () := rdBind (readMany n quicUvarint) (fun _ => rdRet tt).

(** The ranges of an ACK frame: a gap and a length each.  A count above the number of
    bytes left reads as far as one above it, to the end. *)
Definition skipRanges (count_ : Z) : Rd () := fun l => skipUvarints (2 * Z.to_nat (Z.min count_ (len l + 1))) l.

Definition ackFrame (frameType : Z) : Rd () :=
  rdBind (skipUvarints 2) (fun _ =>
  rdBind quicUvarint (fun ackRangeCount =>
  rdBind (skipUvarints 1) (fun _ =>
  rdBind (skipRanges ackRangeCount) (fun _ =>
  if frameType =? frameTypeAck2 then skipUvarints 3 else rdRet tt)))).

(** The fragment of a CRYPTO frame; [full] is the array, whose first [n] bytes are
    read. *)
Definition cryptoFrame (full : list Z) (n : Z) : Rd qCryptoFragment :=
  rdBind quicUvarint (fun offset => rdBind quicUvarint (fun length_ => fun l =>
  let index := n - len l in
  match slice index (index + length_) full with
  | Panic => Panic
  | Ret payload => rdBind (seek length_) (fun _ => rdRet (mkFragment offset length_ payload)) l
  end)).

Definition closeFrame : Rd () := rdBind (skipUvarints 2) (fun _ => rdBind quicUvarint seek).

(** One frame of the given type: the fragment, if it has one. *)
Definition readFrame (full : list Z) (n : Z) (frameType : Z) : Rd (list qCryptoFragment) :=
  if (frameType =? frameTypePadding) || (frameType =? frameTypePing) then rdRet []
  else if (frameType =? frameTypeAck) || (frameType =? frameTypeAck2) then rdBind (ackFrame frameType) (fun _ => rdRet [])
  else if frameType =? frameTypeCrypto then rdBind (cryptoFrame full n) (fun f => rdRet [f])
  else if frameType =? frameTypeConnectionClose then rdBind closeFrame (fun _ => rdRet [])
  else rdErr ErrInvalid.

(** The loop over the frames: their types and fragments. *)
Fixpoint readFrames (fuel : nat) (full : list Z) (n : Z) (reader : list Z) : Div (list Z * list qCryptoFragment) :=
  match fuel with
  | O => None
  | S fuel =>
      match reader with
      | [] => ok ([], [])
      | frameType :: reader =>
          match readFrame full n frameType reader with
          | Panic => Some Panic
          | Ret (Err e) => fails e
          | Ret (Ok (fs, reader)) =>
              match readFrames fuel full n reader with
              | Some (Ret (Ok (types, fragments))) => ok (frameType :: types, fs ++ fragments)
              | r => r
              end
          end
      end
  end.

(** ** The client hello *)

(** The loop [find]: the first fragment that starts at [index] is appended. *)
Fixpoint find (fuel : nat) (fragments : list qCryptoFragment) (index : Z) : option (list Z) :=
  match fuel with
  | O => None
  | S fuel =>
      match List.find (fun f => f.(offset) =? index) fragments with
      | None => Some []
      | Some f => app f.(payload) <$> find fuel fragments (wrapu 64 (f.(offset) + f.(length_)))
      end
  end.

Definition frameLen (fragments : list qCryptoFragment) : Z := foldl (fun n f => wrapu 64 (n + f.(length_))) 0 fragments.

(** A TLS record of all fragments. *)
Definition helloRecord (fuel : nat) (fragments : list qCryptoFragment) : option (list Z) :=
  app ([0x16] ++ be_bytes 2 0x0303 ++ be_bytes 2 (wrapu 16 (frameLen fragments))) <$> find fuel fragments 0.

Definition isZero (slices : list Z) : bool := forallb (Z.eqb 0) slices.
Definition count (slices : list Z) (value : Z) : nat := length (List.filter (fun x => x =? value) slices).

Definition x25519Kyber768Draft00 : Z := 0x11EC.
Definition extensionRenegotiationInfo : Z := 0xFF01.
Definition isQUICGo (fingerprint : JA3.ClientHello) : bool :=
  existsb (Z.eqb x25519Kyber768Draft00) fingerprint.(JA3.EllipticCurves) || existsb (Z.eqb extensionRenegotiationInfo) fingerprint.(JA3.Extensions).

Definition ClientChromium : string := "chromium".
Definition ClientSafari : string := "safari".
Definition ClientFirefox : string := "firefox".
Definition ClientQUICGo : string := "quic-go".
Definition ClientUnknown : string := "unknown".

(** The two fingerprints of Safari; the constants are those of [crypto/tls]. *)
Definition grease0 (l : list Z) : bool := match l with v :: _ => Z.land v JA3.GreaseBitmask =? 0x0A0A | [] => false end.
Definition isSafari (f : JA3.ClientHello) : bool :=
  ((length f.(JA3.Versions) =? 2)%nat && grease0 f.(JA3.Versions) && (length f.(JA3.EllipticCurves) =? 5)%nat && grease0 f.(JA3.EllipticCurves)) ||
  (bool_decide (f.(JA3.CipherSuites) = [0x1302]) && bool_decide (f.(JA3.EllipticCurves) = [29]) && bool_decide (f.(JA3.SignatureAlgorithms) = [0x0403])).

(** The client, by the types of the frames and the fingerprint. *)
Definition clientOf (frameTypeList : list Z) (fingerprint : JA3.ClientHello) : outcome string :=
  if (length frameTypeList =? 1)%nat then Ret ClientFirefox
  else
    match frameTypeList, last frameTypeList with
    | first :: rest, Some last_ =>
        Ret (if (first =? frameTypeCrypto) && isZero rest && isSafari fingerprint then ClientSafari
             else if (last_ =? frameTypeCrypto) && isZero (take (length frameTypeList - 1) frameTypeList) then ClientQUICGo
             else if (1 <? count frameTypeList frameTypeCrypto)%nat || (0 <? count frameTypeList frameTypePing)%nat then
               if isQUICGo fingerprint then ClientQUICGo else ClientChromium
             else ClientUnknown)
    | _, _ => Panic
    end.

(** After the frames: the fragments of earlier packets come after those of this one. *)
Definition finishHello (fuel : nat) (frameTypeList : list Z) (fragments : list qCryptoFragment) (m : Metadata) : option Sniffed :=
  let fragments := fragments ++ default [] m.(SniffContext) in
  let m := setContext None m in
  match helloRecord fuel fragments with
  | None => None
  | Some buffer =>
      let m := setProtocol ProtocolQUIC m in
      match JA3.Compute fuel buffer with
      | None => None
      | Some Panic => Some Panic
      | Some (Ret (Err e)) => Some (Ret (setContext (Some fragments) m, Some (E_Cause1 ErrNeedMoreData e)))
      | Some (Ret (Ok fingerprint)) =>
          let m := setDomain (bytes fingerprint.(JA3.ServerName)) m in
          Some (if String.eqb m.(Client) "" then client ← clientOf frameTypeList fingerprint; Ret (setClient client m, None)
                else Ret (m, None))
      end
  end.

Definition QUICClientHello (fuel : nat) (m : Metadata) (packet : list Z) : option Sniffed :=
  match openPacket packet with
  | Panic => Some Panic
  | Ret (Err e) => Some (Ret (m, Some e))
  | Ret (Ok (decrypted, after)) =>
      match readFrames fuel (decrypted ++ after) (len decrypted) decrypted with
      | None => None
      | Some Panic => Some Panic
      | Some (Ret (Err e)) => Some (Ret (m, Some e))
      | Some (Ret (Ok (frameTypeList, fragments))) => finishHello fuel frameTypeList fragments m
      end
  end.

End QUIC.
