(* ===== verification/QUICProps.v ===== *)
(** * What the QUIC sniffer recognises

    The CRYPTO frames of a client hello may come in any order and over several packets:
    the sniffer asks for more until the last one has come, and then knows the server
    name.  Fingerprints are read back from what a client encodes.  A packet can make
    the sniffer panic or never end. *)

From S2P Require Import Prelude GoStrings GoCrypto GoBinary GoAES Sniffers QUIC.

Local Open Scope string_scope.
Local Open Scope list_scope.
Local Open Scope Z_scope.

(** ** Putting fragments together *)

(** The fragments of data cut into parts, the first at offset [off]. *)
Fixpoint cutAt (off : Z) (parts : list (list Z)) : list qCryptoFragment :=
  match parts with
  | [] => []
  | p :: parts => mkFragment off (len p) p :: cutAt (off + len p) parts
  end.

Lemma cutAt_app off a b : cutAt off (a ++ b) = cutAt off a ++ cutAt (off + len (concat a)) b.
Proof.
  revert off. induction a as [|p a IH]; intros off; cbn [cutAt app concat].
  - f_equal. unfold len. cbn. lia.
  - f_equal. rewrite IH, len_app. do 2 f_equal. lia.
Qed.

Lemma cutAt_bounds off parts f : f ∈ cutAt off parts -> off <= offset f /\ offset f + length_ f <= off + len (concat parts).
Proof.
  revert off. induction parts as [|p parts IH]; intros off; cbn [cutAt concat]; [by intros ?%elem_of_nil|].
  rewrite len_app. intros [->|Hf]%elem_of_cons; cbn.
  - pose proof (len_nonneg (concat parts)). lia.
  - pose proof (len_nonneg p). apply IH in Hf. lia.
Qed.

Lemma cutAt_pos off parts f : Forall (fun p => p <> []) parts -> f ∈ cutAt off parts -> 0 < length_ f.
Proof.
  intros Hn. revert off. induction Hn as [|p parts Hp _ IH]; intros off; cbn [cutAt]; [by intros ?%elem_of_nil|].
  intros [->|Hf]%elem_of_cons; [cbn; by apply len_pos|by eapply IH].
Qed.

(** Only one part starts at an offset. *)
Lemma cutAt_at a p b f : Forall (fun p => p <> []) (a ++ p :: b) -> f ∈ cutAt 0 (a ++ p :: b) -> offset f = len (concat a) -> f = mkFragment (len (concat a)) (len p) p.
Proof.
  intros Hn Hf Ho. rewrite cutAt_app in Hf. cbn [cutAt] in Hf. rewrite Z.add_0_l in Hf. apply elem_of_app in Hf as [Hf|[->|Hf]%elem_of_cons]; [|done|].
  - exfalso. apply Forall_app in Hn as [Hn _]. pose proof (cutAt_pos _ _ _ Hn Hf). apply cutAt_bounds in Hf. lia.
  - exfalso. apply cutAt_bounds in Hf. apply Forall_app in Hn as [_ Hn]. apply Forall_cons in Hn as [Hp _]. apply len_pos in Hp. lia.
Qed.

(** The chain from a part on: it ends before the first part that is missing. *)
Lemma find_chain fs b a fuel :
  Forall (fun p => p <> []) (a ++ b) -> (forall f, f ∈ fs -> f ∈ cutAt 0 (a ++ b)) -> len (concat (a ++ b)) < 2 ^ 64 -> (length b < fuel)%nat ->
  exists b1 b2, b = b1 ++ b2 /\ find fuel fs (len (concat a)) = Some (concat b1) /\
    (forall f, f ∈ cutAt (len (concat a)) b1 -> f ∈ fs) /\ (forall f, f ∈ fs -> offset f <> len (concat (a ++ b1))).
Proof.
  revert a fuel. induction b as [|p b IH]; intros a fuel Hn Hs Hl Hf; (destruct fuel as [|fuel]; [lia|]); cbn [find].
  - destruct (List.find _ fs) as [f|] eqn:E.
    + apply find_some in E as [Hin Ho%Z.eqb_eq]. apply list_elem_of_In, Hs in Hin. exfalso. rewrite app_nil_r in *.
      pose proof (cutAt_pos _ _ _ Hn Hin).
      apply cutAt_bounds in Hin. lia.
    + exists [], []. rewrite !app_nil_r. split_and!; [done|done|by intros f ?%elem_of_nil|]. intros f Hin Ho. apply list_elem_of_In in Hin.
      pose proof (find_none _ _ E f Hin) as H0. cbn in H0. apply Z.eqb_neq in H0. done.
  - destruct (List.find _ fs) as [f|] eqn:E.
    + apply find_some in E as [Hin Ho%Z.eqb_eq]. apply list_elem_of_In in Hin. pose proof (Hs _ Hin) as Hc. apply cutAt_at in Hc; [|done|done].
      subst f. cbn [offset length_ payload]. assert (a ++ p :: b = (a ++ [p]) ++ b) as Ea by (by rewrite <-app_assoc).
      rewrite Ea in Hn, Hs, Hl. assert (len (concat (a ++ [p])) = len (concat a) + len p) as Ep by (rewrite concat_app, len_app; cbn; by rewrite app_nil_r).
      destruct (IH (a ++ [p]) fuel Hn Hs Hl) as (b1 & b2 & -> & Hfind & Hin1 & Hout); [cbn in Hf; lia|].
      exists (p :: b1), b2. rewrite Ep in *. split_and!; [done| | |].
      * unfold wrapu. rewrite Z.mod_small, Hfind; [done|]. rewrite concat_app, len_app, Ep in Hl. pose proof (len_nonneg (concat a)). pose proof (len_nonneg p).
        pose proof (len_nonneg (concat (b1 ++ b2))). lia.
      * intros g [->|Hg]%elem_of_cons; [done|]. by apply Hin1.
      * intros g Hg. rewrite <-app_assoc in Hout. by apply Hout.
    + exists [], (p :: b). rewrite app_nil_r. split_and!; [done|done|by intros f ?%elem_of_nil|]. intros f Hin Ho. apply list_elem_of_In in Hin.
      pose proof (find_none _ _ E f Hin) as H0. cbn in H0. apply Z.eqb_neq in H0. done.
Qed.

Definition sumLen (fs : list qCryptoFragment) : Z := foldr (fun f n => length_ f + n) 0 fs.

#[export] Instance sumLen_proper : Proper ((≡ₚ) ==> eq) sumLen.
Proof. intros a b H. unfold sumLen. induction H; cbn; lia. Qed.

Lemma sumLen_app a b : sumLen (a ++ b) = sumLen a + sumLen b.
Proof. induction a as [|f a IH]; cbn; [done|]. unfold sumLen in *. lia. Qed.

Lemma sumLen_cutAt off parts : sumLen (cutAt off parts) = len (concat parts).
Proof. revert off. induction parts as [|p parts IH]; intros off; cbn [cutAt concat]; [done|]. rewrite len_app. cbn. f_equal. apply IH. Qed.

Lemma sumLen_nonneg fs : Forall (fun f => 0 <= length_ f) fs -> 0 <= sumLen fs.
Proof. induction 1; cbn; [lia|]. unfold sumLen in *. lia. Qed.

Lemma frameLen_sum fs : Forall (fun f => 0 <= length_ f) fs -> sumLen fs < 2 ^ 64 -> frameLen fs = sumLen fs.
Proof.
  intros Hp Hl. unfold frameLen. enough (forall n, 0 <= n -> n + sumLen fs < 2 ^ 64 -> foldl (fun n f => wrapu 64 (n + length_ f)) n fs = n + sumLen fs) as H by (rewrite H; lia).
  clear Hl. induction Hp as [|f fs Hf Hp IH]; intros n Hn Hl; cbn [foldl sumLen foldr] in *; [lia|]. pose proof (sumLen_nonneg fs Hp).
  unfold sumLen in *. unfold wrapu at 2. rewrite Z.mod_small by lia. rewrite IH; lia.
Qed.

Lemma cutAt_NoDup off parts : Forall (fun p => p <> []) parts -> NoDup (cutAt off parts).
Proof.
  intros Hn. revert off. induction Hn as [|p parts Hp _ IH]; intros off; cbn [cutAt]; constructor; [|apply IH].
  intros Hin. apply cutAt_bounds in Hin. cbn in Hin. apply len_pos in Hp. lia.
Qed.

Lemma sumLen_submseteq a b : Forall (fun f => 0 <= length_ f) b -> a ⊆+ b -> sumLen a <= sumLen b.
Proof.
  intros Hb [k Hk]%submseteq_Permutation. rewrite Hk, sumLen_app. rewrite Hk in Hb. apply Forall_app in Hb as [_ Hb]. pose proof (sumLen_nonneg _ Hb). lia.
Qed.

(** A record that says it has [n] bytes. *)
Definition recordOf (n : Z) (body : list Z) : list Z := [0x16] ++ be_bytes 2 0x0303 ++ be_bytes 2 (wrapu 16 n) ++ body.

(** With some of the fragments: the parts up to the first that is missing. *)
Lemma helloRecord_parts fuel fs rest parts :
  fs ++ rest ≡ₚ cutAt 0 parts -> Forall (fun p => p <> []) parts -> len (concat parts) < 2 ^ 16 -> (length parts < fuel)%nat ->
  exists b1 b2, parts = b1 ++ b2 /\ helloRecord fuel fs = Some (recordOf (sumLen fs) (concat b1)) /\
    sumLen fs + sumLen rest = len (concat parts) /\ len (concat b1) <= sumLen fs /\ (rest = [] -> b2 = []).
Proof.
  intros Hp Hn Hl Hf. assert (forall f, f ∈ fs -> f ∈ cutAt 0 parts) as Hin by (intros f ?; rewrite <-Hp; apply elem_of_app; by left).
  assert (Forall (fun f => 0 <= length_ f) fs) as Hpos. { apply Forall_forall. intros f Hf'. apply Hin in Hf'. pose proof (cutAt_pos _ _ _ Hn Hf'). lia. }
  assert (sumLen fs + sumLen rest = len (concat parts)) as Hsum by (rewrite <-sumLen_app, Hp; apply sumLen_cutAt).
  assert (0 <= sumLen rest). { apply sumLen_nonneg, Forall_forall. intros f Hf'. assert (f ∈ cutAt 0 parts) as Hc by (rewrite <-Hp; apply elem_of_app; by right). pose proof (cutAt_pos _ _ _ Hn Hc). lia. }
  destruct (find_chain fs parts [] fuel Hn Hin) as (b1 & b2 & -> & Hfind & Hb1 & Hout); [cbn [app]; lia|done|].
  exists b1, b2. split; [done|]. split.
  { unfold helloRecord. change (find fuel fs 0) with (find fuel fs (len (concat (@List.nil (list Z))))). rewrite Hfind. cbn [fmap option_fmap option_map]. f_equal. rewrite frameLen_sum by (done || lia). unfold recordOf. by rewrite <-!app_assoc. }
  split; [done|]. split.
  - rewrite <-(sumLen_cutAt 0 b1). apply sumLen_submseteq; [done|]. apply NoDup_submseteq; [|exact Hb1]. apply cutAt_NoDup. by apply Forall_app in Hn as [? _].
  - intros ->. destruct b2 as [|p b2]; [done|]. exfalso. rewrite app_nil_r in Hp.
    apply (Hout (mkFragment (len (concat b1)) (len p) p)); [|done]. rewrite Hp, cutAt_app. apply elem_of_app. right. cbn [cutAt]. apply list_elem_of_here.
Qed.

(** ** Records that are not complete *)

Section Compute.
Context {EX : Exceptions}.

Lemma Compute_recordOf fuel n body : 0 <= n < 2 ^ 16 ->
  JA3.Compute fuel (recordOf n body) = if len body <? n then fails (JA3.LengthErr 2) else JA3.parseHandshake fuel (take (Z.to_nat n) body).
Proof.
  intros Hn. unfold JA3.Compute, JA3.parseSegment. set (h := [22; 3; 3; n / 256; n mod 256]).
  assert (recordOf n body = h ++ body) as ->. { unfold recordOf, wrapu. rewrite Z.mod_small, (be_bytes_2 n) by done. reflexivity. }
  assert (len (h ++ body) = 5 + len body) as Hl by (rewrite len_app; reflexivity). pose proof (len_nonneg body). rewrite Hl.
  change JA3.recordLayerHeaderLen with 5. rewrite (proj2 (Z.ltb_ge _ 5)) by lia.
  rewrite byteAt_app by (unfold len, h; cbn; lia). change (byteAt 0 h) with (Ret 22). cbn [calls]. change (negb (22 =? JA3.contentType)) with false. cbn [calls].
  rewrite uint16At_app by (unfold len, h; cbn; lia). change (uint16At 1 h) with (Ret 0x0303). cbn [calls]. change (negb (JA3.supportedVersion 0x0303)) with false. cbn [calls].
  assert (uint16At 3 (h ++ body) = Ret n) as ->.
  { change (h ++ body) with ([22; 3; 3] ++ ([n / 256; n mod 256] ++ body)). rewrite uint16At_shift by (unfold len; cbn; lia). rewrite <-(be_bytes_2 n) by done. by apply uint16At_bytes. }
  cbn [calls]. rewrite sliceFrom_ret by (rewrite Hl; lia). change (drop (Z.to_nat 5) (h ++ body)) with body. cbn [calls].
  destruct (len body <? n) eqn:E; [done|]. apply Z.ltb_ge in E. rewrite slice_ret by (rewrite ?Hl; lia). cbn [calls].
  change (drop (Z.to_nat 5) (h ++ body)) with body. by replace (5 + n - 5) with n by lia.
Qed.

(** A part of a handshake has the wrong length. *)
Lemma parseHandshake_prefix fuel hs h n : JA3.parseHandshake fuel hs = ok h -> (n < length hs)%nat ->
  exists e, JA3.parseHandshake fuel (take n hs) = fails e.
Proof.
  intros Hok Hn. unfold JA3.parseHandshake in *. set (k := JA3.handshakeHeaderLen + JA3.randomDataLen + JA3.sessionIDHeaderLen) in *.
  assert (k = 39) as Ek by reflexivity. destruct (len hs <? k) eqn:E1; [done|]. apply Z.ltb_ge in E1.
  destruct (len (take n hs) <? k) eqn:E2; [by eexists|]. apply Z.ltb_ge in E2.
  assert (forall i, 0 <= i < 39 -> byteAt i (take n hs) = byteAt i hs) as Hb.
  { intros i Hi. rewrite <-(take_drop n hs) at 2. symmetry. apply byteAt_app. lia. }
  rewrite !Hb by lia. destruct (byteAt_lookup 0 hs) as (b0 & H0 & _); [lia|]. rewrite H0 in *. cbn [calls] in *.
  destruct (negb (b0 =? _)); [done|]. destruct (byteAt_lookup 1 hs) as (b1 & H1 & _); [lia|]. destruct (byteAt_lookup 2 hs) as (b2 & H2 & _); [lia|].
  destruct (byteAt_lookup 3 hs) as (b3 & H3 & _); [lia|]. rewrite H1, H2, H3 in *. cbn [calls] in *. rewrite sliceFrom_ret in Hok |- * by lia. cbn [calls] in *.
  destruct (negb (len (drop (Z.to_nat 4) hs) =? _)) eqn:E3; [done|]. apply negb_false_iff, Z.eqb_eq in E3. rewrite len_drop in E3 by lia.
  rewrite len_drop by lia. rewrite <-E3. exists (JA3.LengthErr 4).
  assert (len (take n hs) < len hs) by (unfold len; rewrite length_take; lia). by rewrite (proj2 (Z.eqb_neq _ _)) by lia.
Qed.

(** A record that has too little, or a part of the hello only, is no hello. *)
Lemma Compute_incomplete fuel hello h b1 b2 n :
  JA3.Compute fuel (recordOf (len hello) hello) = ok h -> hello = b1 ++ b2 -> len hello < 2 ^ 16 -> len b1 <= n -> n < len hello ->
  exists e, JA3.Compute fuel (recordOf n b1) = fails e.
Proof.
  intros Hok -> Hl H1 H2. pose proof (len_nonneg b1). rewrite Compute_recordOf in Hok by lia. rewrite Compute_recordOf by lia.
  rewrite Z.ltb_irrefl, take_ge in Hok by (unfold len; lia). destruct (len b1 <? n) eqn:E; [by eexists|]. apply Z.ltb_ge in E.
  rewrite take_ge by (unfold len in *; lia). destruct (parseHandshake_prefix fuel (b1 ++ b2) h (length b1) Hok) as [e He].
  - rewrite len_app in *. rewrite length_app. unfold len in *. lia.
  - rewrite take_app_length in He. by exists e.
Qed.

End Compute.

(** ** Client hellos over several packets *)

Section Recognised.
Context {EX : Exceptions} {SE : SniffErrors} {SEL : SniffErrorsLaws SE} {HK : HKDF}.

(** A packet that can be opened and read: the types of its frames and the fragments. *)
Definition opens (fuel : nat) (packet : list Z) (types : list Z) (fs : list qCryptoFragment) : Prop :=
  exists decrypted after, openPacket packet = Ret (Ok (decrypted, after)) /\
    readFrames fuel (decrypted ++ after) (len decrypted) decrypted = ok (types, fs).

(** The sniffer on packets one after the other: the errors. *)
Fixpoint sniffPackets (fuel : nat) (m : Metadata) (packets : list (list Z)) : option (outcome (Metadata * list (option error))) :=
  match packets with
  | [] => Some (Ret (m, []))
  | packet :: packets =>
      match QUICClientHello fuel m packet with
      | None => None
      | Some Panic => Some Panic
      | Some (Ret (m, e)) =>
          match sniffPackets fuel m packets with
          | Some (Ret (m, es)) => Some (Ret (m, e :: es))
          | r => r
          end
      end
  end.

Lemma opens_sniff fuel m packet types fs : opens fuel packet types fs -> QUICClientHello fuel m packet = finishHello fuel types fs m.
Proof. intros (d & a & Ho & Hr). unfold QUICClientHello. rewrite Ho, Hr. done. Qed.

Lemma readFrames_types fuel full n reader types fs : readFrames fuel full n reader = ok (types, fs) -> fs <> [] -> types <> [].
Proof.
  destruct fuel as [|fuel]; [done|]. cbn [readFrames]. destruct reader as [|t reader]; [by intros [= <- <-]|].
  destruct (readFrame full n t reader) as [[[f r]|e]|]; [|done|done]. destruct (readFrames fuel full n r) as [[[[ts gs]|e]|]|]; [|done..]. by intros [= <- <-].
Qed.

Lemma clientOf_ret types h : types <> [] -> exists c, clientOf types h = Ret c.
Proof.
  intros Ht. unfold clientOf. destruct (length types =? 1)%nat; [by eexists|]. destruct types as [|t types]; [done|].
  destruct (last (t :: types)) eqn:E; [by eexists|]. by apply last_None in E.
Qed.

(** What is known of the hello: its parts, and that it is one. *)
Context (fuel : nat) (parts : list (list Z)) (h : JA3.ClientHello).
Context (Hparts : Forall (fun p => p <> []) parts) (Hsize : len (concat parts) < 2 ^ 16) (Hfuel : (length parts < fuel)%nat).
Context (Hhello : JA3.Compute fuel (recordOf (len (concat parts)) (concat parts)) = ok h).

(** A packet after which parts are missing. *)
Lemma finishHello_more types fs rest m : fs ++ default [] (SniffContext m) ++ rest ≡ₚ cutAt 0 parts -> rest <> [] ->
  exists e, finishHello fuel types fs m =
    Some (Ret (setContext (Some (fs ++ default [] (SniffContext m))) (setProtocol ProtocolQUIC (setContext None m)), Some (E_Cause1 ErrNeedMoreData e))).
Proof.
  intros Hp Hr. rewrite app_assoc in Hp. unfold finishHello. destruct (helloRecord_parts fuel _ _ _ Hp Hparts Hsize Hfuel) as (b1 & b2 & Eb & -> & Hsum & Hle & _).
  assert (0 < sumLen rest).
  { destruct rest as [|f rest]; [done|]. assert (forall g, g ∈ f :: rest -> 0 < length_ g) as Hg.
    { intros g Hg. apply (cutAt_pos 0 parts g Hparts). rewrite <-Hp. apply elem_of_app. by right. }
    cbn. pose proof (Hg f (list_elem_of_here _ _)). assert (0 <= sumLen rest); [|unfold sumLen in *; lia].
    apply sumLen_nonneg, Forall_forall. intros g Hg'. pose proof (Hg g (list_elem_of_further _ _ _ Hg')). lia. }
  destruct (Compute_incomplete fuel (concat parts) h (concat b1) (concat b2) (sumLen (fs ++ default [] (SniffContext m)))) as [e ->]; [done|by rewrite Eb, concat_app|done|done|lia|].
  by exists e.
Qed.

(** The packet with the last part. *)
Lemma finishHello_last types fs m : fs ++ default [] (SniffContext m) ≡ₚ cutAt 0 parts -> types <> [] ->
  exists m', finishHello fuel types fs m = Some (Ret (m', None)) /\ Protocol m' = ProtocolQUIC /\ Domain m' = bytes (JA3.ServerName h) /\ SniffContext m' = None.
Proof.
  intros Hp Ht. rewrite <-(app_nil_r (fs ++ _)) in Hp. unfold finishHello.
  destruct (helloRecord_parts fuel _ _ _ Hp Hparts Hsize Hfuel) as (b1 & b2 & Eb & -> & Hsum & _ & Hb2). rewrite (Hb2 eq_refl), app_nil_r in Eb. subst b1.
  cbn [sumLen foldr] in Hsum. rewrite Z.add_0_r in Hsum. rewrite Hsum, Hhello. cbn [ok setDomain setProtocol setContext Client].
  destruct (String.eqb (Client m) ""); [|by eexists]. destruct (clientOf_ret types h Ht) as [c ->]. by eexists.
Qed.

Lemma sniffPackets_hello typesL fsL pL ps fss m :
  Forall2 (fun packet fs => exists types, opens fuel packet types fs) ps fss -> opens fuel pL typesL fsL -> fsL <> [] ->
  default [] (SniffContext m) ++ concat fss ++ fsL ≡ₚ cutAt 0 parts ->
  exists m' es, sniffPackets fuel m (ps ++ [pL]) = Some (Ret (m', es ++ [None])) /\
    Forall (fun e => exists x, e = Some x /\ isNeedMoreData x = true) es /\ length es = length ps /\
    Protocol m' = ProtocolQUIC /\ Domain m' = bytes (JA3.ServerName h) /\ SniffContext m' = None.
Proof.
  intros Hps HL Hne. revert m. induction Hps as [|p fs ps fss (types & Ho) _ IH]; intros m Hp; cbn [app sniffPackets].
  - rewrite (opens_sniff _ _ _ _ _ HL). cbn [concat app] in Hp. rewrite (Permutation_app_comm _ fsL) in Hp.
    destruct (finishHello_last typesL fsL m Hp) as (m' & -> & H1 & H2 & H3); [destruct HL as (d & a & _ & Hr); by eapply readFrames_types|].
    exists m', []. by split_and!.
  - rewrite (opens_sniff _ _ _ _ _ Ho). cbn [concat] in Hp.
    assert (fs ++ default [] (SniffContext m) ++ (concat fss ++ fsL) ≡ₚ cutAt 0 parts) as Hp'.
    { rewrite (app_assoc fs), (Permutation_app_comm fs), <-app_assoc. by rewrite <-(app_assoc fs) in Hp. }
    destruct (finishHello_more types fs (concat fss ++ fsL) m Hp') as [e ->]; [destruct (concat fss); [done|discriminate]|].
    destruct (IH (setContext (Some (fs ++ default [] (SniffContext m))) (setProtocol ProtocolQUIC (setContext None m)))) as (m' & es & -> & Hes & Hlen & H1 & H2 & H3).
    { cbn [setContext SniffContext from_option id]. by rewrite <-app_assoc. }
    exists m', (Some (E_Cause1 ErrNeedMoreData e) :: es). split_and!; [done| |cbn; by rewrite Hlen|done..].
    constructor; [|done]. eexists. split; [done|]. apply need_more_cause.
Qed.

End Recognised.

(** C17: a TLS client hello below 64 KiB that the fingerprint parser accepts, sent as QUIC
    CRYPTO frames of nonempty parts, in any order and over any packets that can be
    opened: the sniffer asks for more data after every packet but the last, and then
    returns with protocol QUIC and the server name of the hello, and nothing is kept. *)
Theorem quic_hello_recognised {EX : Exceptions} {SE : SniffErrors} {SEL : SniffErrorsLaws SE} {HK : HKDF}
    (fuel : nat) (parts : list (list Z)) (h : JA3.ClientHello) (ps : list (list Z)) (fss : list (list qCryptoFragment)) pL typesL fsL m :
  Forall (fun p => p <> []) parts -> len (concat parts) < 2 ^ 16 -> (length parts < fuel)%nat ->
  JA3.Compute fuel (recordOf (len (concat parts)) (concat parts)) = ok h ->
  Forall2 (fun packet fs => exists types, opens fuel packet types fs) ps fss -> opens fuel pL typesL fsL -> fsL <> [] ->
  concat fss ++ fsL ≡ₚ cutAt 0 parts -> SniffContext m = None ->
  exists m' es, sniffPackets fuel m (ps ++ [pL]) = Some (Ret (m', es ++ [None])) /\
    Forall (fun e => exists x, e = Some x /\ isNeedMoreData x = true) es /\ length es = length ps /\
    Protocol m' = ProtocolQUIC /\ Domain m' = bytes (JA3.ServerName h) /\ SniffContext m' = None.
Proof.
  intros Hparts Hsize Hfuel Hhello Hps HL Hne Hperm Hm.
  apply (sniffPackets_hello fuel parts h Hparts Hsize Hfuel Hhello typesL fsL pL ps fss m Hps HL Hne). by rewrite Hm.
Qed.

(** ** Fingerprints of what clients send *)

(** The extensions of a client hello, those the parser reads among them. *)
Inductive Ext :=
| SNI (name : list Z)
| Groups (l : list Z)
| Formats (l : list Z)
| SupportedVersions (l : list Z)
| SignatureAlgs (l : list Z)
| OtherExt (t : Z) (data : list Z).

Definition u16 (z : Z) : list Z := be_bytes 2 z.
Definition u16s (l : list Z) : list Z := concat (map u16 l).

Definition extType (e : Ext) : Z :=
  match e with SNI _ => 0 | Groups _ => 10 | Formats _ => 11 | SupportedVersions _ => 43 | SignatureAlgs _ => 13 | OtherExt t _ => t end.

Definition extData (e : Ext) : list Z :=
  match e with
  | SNI name => u16 (len name + 3) ++ [0] ++ u16 (len name) ++ name
  | Groups l => u16 (2 * len l) ++ u16s l
  | Formats l => [len l] ++ l
  | SupportedVersions l => [2 * len l] ++ u16s l
  | SignatureAlgs l => u16 (2 * len l) ++ u16s l
  | OtherExt _ data => data
  end.

Definition encodeExt (e : Ext) : list Z := u16 (extType e) ++ u16 (len (extData e)) ++ extData e.

(** The hello: version, random, session, cipher suites, compression methods. *)
Definition encodeHello (version : Z) (random session ciphers compression : list Z) (exts : list Ext) : list Z :=
  let exs := concat (map encodeExt exts) in
  let body := u16 version ++ random ++ ([len session] ++ session) ++ (u16 (2 * len ciphers) ++ u16s ciphers) ++ ([len compression] ++ compression) ++ (u16 (len exs) ++ exs) in
  [1] ++ be_bytes 3 (len body) ++ body.

(** What the parser finds in them, one after the other. *)
Definition applyExt (f : JA3.Found) (e : Ext) : JA3.Found :=
  let f := JA3.withExtension (extType e) f in
  match e with
  | SNI name => JA3.mkFound name f.(JA3.fExtensions) f.(JA3.fCurves) f.(JA3.fPF) f.(JA3.fVersions) f.(JA3.fAlgorithms)
  | Groups l => JA3.mkFound f.(JA3.fSni) f.(JA3.fExtensions) l f.(JA3.fPF) f.(JA3.fVersions) f.(JA3.fAlgorithms)
  | Formats l => JA3.mkFound f.(JA3.fSni) f.(JA3.fExtensions) f.(JA3.fCurves) l f.(JA3.fVersions) f.(JA3.fAlgorithms)
  | SupportedVersions l => JA3.mkFound f.(JA3.fSni) f.(JA3.fExtensions) f.(JA3.fCurves) f.(JA3.fPF) (f.(JA3.fVersions) ++ l) f.(JA3.fAlgorithms)
  | SignatureAlgs l => JA3.mkFound f.(JA3.fSni) f.(JA3.fExtensions) f.(JA3.fCurves) f.(JA3.fPF) f.(JA3.fVersions) (f.(JA3.fAlgorithms) ++ l)
  | OtherExt _ _ => f
  end.

Definition uint16_list (l : list Z) : Prop := Forall (fun v => 0 <= v < 2 ^ 16) l.

Definition ext_ok (e : Ext) : Prop :=
  match e with
  | SNI name => byte_list name
  | Formats l => byte_list l /\ len l < 256
  | Groups l | SignatureAlgs l => uint16_list l
  | SupportedVersions l => uint16_list l /\ 2 * len l < 256
  | OtherExt t data => 0 <= t < 2 ^ 16 /\ byte_list data /\ ~ In t [0; 10; 11; 43; 13]
  end.

Section Fingerprint.
Context {EX : Exceptions}.

Lemma len_u16 z : len (u16 z) = 2.
Proof. reflexivity. Qed.

Lemma len_u16s l : len (u16s l) = 2 * len l.
Proof. unfold u16s. induction l as [|x l IH]; [done|]. cbn [map concat]. rewrite len_app, IH, len_u16. unfold len. cbn [length]. lia. Qed.

Lemma uint16s_read l pre suf i : uint16_list l -> len pre = i -> JA3.uint16s (length l) i (pre ++ u16s l ++ suf) = Ret l.
Proof.
  intros Hl. revert pre i. induction Hl as [|x l Hx _ IH]; intros pre i Hi; [done|]. cbn [length JA3.uint16s u16s map concat]. fold (u16s l).
  rewrite uint16At_shift, Hi, Z.sub_diag by lia. rewrite <-!app_assoc. unfold u16 at 1. rewrite uint16At_bytes by done. cbn [mbind outcome_bind].
  rewrite (app_assoc pre), IH; [done|]. rewrite len_app, len_u16. lia.
Qed.

Lemma uint16s_read0 l : uint16_list l -> JA3.uint16s (length l) 0 (u16s l) = Ret l.
Proof. intros Hl. pose proof (uint16s_read l [] [] 0 Hl eq_refl) as H. by rewrite app_nil_r in H. Qed.

Lemma sliceFrom_pre p l i : len p = i -> sliceFrom i (p ++ l) = Ret l.
Proof.
  intros <-. rewrite sliceFrom_ret by (rewrite len_app; pose proof (len_nonneg p); pose proof (len_nonneg l); lia).
  unfold len. by rewrite Nat2Z.id, drop_app_length.
Qed.

Lemma rounds2_even n : 0 <= n -> JA3.rounds2 (2 * n) = Z.to_nat n.
Proof. intros Hn. unfold JA3.rounds2. f_equal. Z.to_euclidean_division_equations. lia. Qed.

Lemma to_nat_len {A} (l : list A) : Z.to_nat (len l) = length l.
Proof. unfold len. lia. Qed.

Lemma half_len (l : list Z) : Z.to_nat (2 * len l / 2) = length l.
Proof. rewrite Z.mul_comm, Z.div_mul by lia. apply to_nat_len. Qed.

Lemma parseExtension_data e f : ext_ok e -> len (extData e) < 2 ^ 16 -> JA3.parseExtension (extType e) (extData e) (JA3.withExtension (extType e) f) = Ret (Ok (applyExt f e)).
Proof.
  intros Hok Hl. destruct e as [name|l|l|l|l|t data]; cbn [extType extData] in *; unfold JA3.parseExtension; cbn [Z.eqb Pos.eqb JA3.sniExtensionType JA3.ecExtensionType JA3.ecpfExtensionType JA3.versionExtensionType JA3.signatureAlgorithmsExtensionType].
  - rewrite !len_app, !len_u16 in Hl. change (len [0]) with 1 in Hl. pose proof (len_nonneg name). rewrite (proj2 (Z.ltb_ge _ _)) by (rewrite !len_app, !len_u16; change (len [0]) with 1; unfold JA3.sniExtensionHeaderLen; lia).
    rewrite byteAt_shift by (rewrite len_u16; lia). rewrite len_u16. change (byteAt (2 - 2) ([0] ++ u16 (len name) ++ name)) with (Ret 0). cbn [mbind outcome_bind].
    rewrite (app_assoc (u16 _) [0]), uint16At_shift by (rewrite len_app, len_u16; change (len [0]) with 1; lia). rewrite len_app, len_u16. change (3 - (2 + len [0])) with 0. unfold u16 at 2. rewrite uint16At_bytes by lia. cbn [mbind outcome_bind].
    rewrite app_assoc, sliceFrom_pre by (rewrite !len_app, !len_u16; reflexivity). cbn [mbind outcome_bind]. by rewrite Z.eqb_refl.
  - rewrite len_app, len_u16, len_u16s in *. pose proof (len_nonneg l). rewrite (proj2 (Z.ltb_ge _ _)) by (unfold JA3.ecExtensionHeaderLen; lia).
    unfold u16 at 1. rewrite uint16At_bytes by lia. cbn [mbind outcome_bind]. rewrite sliceFrom_pre by done. cbn [mbind outcome_bind]. rewrite len_u16s, Z.eqb_refl. cbn [negb].
    rewrite half_len, uint16s_read0 by done. done.
  - rewrite len_app in *. change (len [len l]) with 1 in *. pose proof (len_nonneg l). rewrite (proj2 (Z.ltb_ge _ _)) by (unfold JA3.ecpfExtensionHeaderLen; lia).
    change (byteAt 0 ([len l] ++ l)) with (Ret (len l)). cbn [mbind outcome_bind]. rewrite sliceFrom_pre by done. cbn [mbind outcome_bind]. by rewrite Z.eqb_refl.
  - rewrite len_app, len_u16s in *. change (len [2 * len l]) with 1 in *. pose proof (len_nonneg l). rewrite (proj2 (Z.ltb_ge _ _)) by (unfold JA3.versionExtensionHeaderLen; lia).
    change (byteAt 0 ([2 * len l] ++ u16s l)) with (Ret (2 * len l)). cbn [mbind outcome_bind]. rewrite sliceFrom_pre by done. cbn [mbind outcome_bind].
    destruct Hok. rewrite rounds2_even, to_nat_len, uint16s_read0 by done. done.
  - rewrite len_app, len_u16, len_u16s in *. pose proof (len_nonneg l). rewrite (proj2 (Z.ltb_ge _ _)) by (unfold JA3.signatureAlgorithmsExtensionHeaderLen; lia).
    unfold u16 at 1. rewrite uint16At_bytes by lia. cbn [mbind outcome_bind]. rewrite sliceFrom_pre by done. cbn [mbind outcome_bind].
    rewrite rounds2_even, to_nat_len, uint16s_read0 by done. done.
  - destruct Hok as (_ & _ & Hn). cbn [In] in Hn. unfold JA3.sniExtensionType, JA3.ecExtensionType, JA3.ecpfExtensionType, JA3.versionExtensionType, JA3.signatureAlgorithmsExtensionType.
    rewrite !(proj2 (Z.eqb_neq _ _)) by (intros ->; tauto). done.
Qed.

Lemma extType_range e : ext_ok e -> 0 <= extType e < 2 ^ 16.
Proof. destruct e; cbn; lia. Qed.

Lemma extensionsLoop_encoded exts fuel f : Forall ext_ok exts -> len (concat (map encodeExt exts)) < 2 ^ 16 -> (length exts < fuel)%nat ->
  JA3.extensionsLoop fuel (concat (map encodeExt exts)) f = ok (foldl applyExt f exts).
Proof.
  intros Hok. revert fuel f. induction Hok as [|e exts He _ IH]; intros fuel f Hl Hf; (destruct fuel as [|fuel]; [lia|]); cbn [map concat foldl]; [done|].
  cbn [map concat] in Hl. set (rest := concat (map encodeExt exts)) in *. pose proof (len_nonneg rest) as Hr. pose proof (len_nonneg (extData e)) as Hd.
  assert (encodeExt e ++ rest = u16 (extType e) ++ (u16 (len (extData e)) ++ extData e ++ rest)) as Ee by (unfold encodeExt; by rewrite <-!app_assoc).
  assert (len (encodeExt e ++ rest) = 4 + len (extData e) + len rest) as Hlen by (rewrite Ee, !len_app, !len_u16; lia).
  cbn [JA3.extensionsLoop]. rewrite Hlen in *. unfold JA3.extensionHeaderLen. rewrite (proj2 (Z.leb_gt _ 0)), (proj2 (Z.ltb_ge _ 4)) by lia.
  pose proof (extType_range e He). rewrite Ee. unfold u16 at 1. rewrite uint16At_bytes by lia. cbn [calls].
  rewrite uint16At_shift by (rewrite len_u16; lia). rewrite len_u16. change (2 - 2) with 0. unfold u16 at 1. rewrite uint16At_bytes by lia. cbn [calls].
  rewrite (proj2 (Z.ltb_ge _ _)) by lia. rewrite <-Ee. rewrite slice_ret by (rewrite ?Hlen; lia). rewrite Ee, app_assoc. cbn [calls].
  change (drop (Z.to_nat 4) ((u16 (extType e) ++ u16 (len (extData e))) ++ extData e ++ rest)) with (extData e ++ rest).
  replace (Z.to_nat (4 + len (extData e) - 4)) with (length (extData e)) by (unfold len; lia). rewrite take_app_length.
  rewrite parseExtension_data by (done || lia). cbn [calls]. unfold wrapu. rewrite Z.mod_small by lia.
  rewrite (app_assoc _ (extData e)), sliceFrom_pre by (rewrite !len_app, !len_u16; lia). cbn [calls]. apply IH; [lia|cbn in Hf; lia].
Qed.

Lemma lor_shift hi lo k : 0 < k -> 0 <= lo < 2 ^ k -> Z.lor (Z.shiftl hi k) lo = hi * 2 ^ k + lo.
Proof.
  intros Hk Hlo. rewrite <-Z.shiftl_mul_pow2 by lia.
  assert (Z.land (Z.shiftl hi k) lo = 0) as Hd; [|rewrite <-Z.lxor_lor, <-Z.add_nocarry_lxor by done; lia].
  apply Z.bits_inj'. intros i Hi. rewrite Z.land_spec, Z.bits_0. destruct (Z.ltb_spec i k); [by rewrite Z.shiftl_spec_low by lia|].
  rewrite (Z.bits_above_log2 lo i), andb_false_r; [done|lia|]. destruct (decide (lo = 0)) as [->|]; [cbn; lia|].
  apply Z.log2_lt_pow2; [lia|]. assert (2 ^ k <= 2 ^ i) by (apply Z.pow_le_mono_r; lia). lia.
Qed.

Lemma uint24_join n : 0 <= n < 2 ^ 24 -> exists b1 b2 b3, be_bytes 3 n = [b1; b2; b3] /\
  Z.lor (Z.lor (wrapu 32 (Z.shiftl b1 16)) (wrapu 32 (Z.shiftl b2 8))) b3 = n.
Proof.
  intros Hn. exists (n / 256 / 256), (n / 256 mod 256), (n mod 256). assert (0 <= n / 256 / 256 < 256) as H1 by (Z.to_euclidean_division_equations; lia).
  split; [cbn; by rewrite (Z.mod_small (n / 256 / 256)) by done|]. pose proof (Z.mod_pos_bound (n / 256) 256). pose proof (Z.mod_pos_bound n 256).
  set (b1 := n / 256 / 256) in *. set (b2 := n / 256 mod 256) in *. set (b3 := n mod 256) in *.
  assert (forall b k, 0 <= b < 256 -> 0 <= k <= 16 -> wrapu 32 (Z.shiftl b k) = Z.shiftl b k) as Hw.
  { intros b k Hb Hk. unfold wrapu. apply Z.mod_small. rewrite Z.shiftl_mul_pow2 by lia. assert (0 < 2 ^ k <= 2 ^ 16) by (split; [lia|apply Z.pow_le_mono_r; lia]). nia. }
  rewrite !Hw by lia. change 16 with (8 + 8) at 1. rewrite <-Z.shiftl_shiftl, <-Z.shiftl_lor by lia. rewrite (lor_shift b1) by lia. rewrite lor_shift by lia.
  unfold b1, b2, b3. Z.to_euclidean_division_equations. lia.
Qed.

(** The fingerprint of what was encoded. *)
Definition fingerprintOf (version : Z) (ciphers : list Z) (exts : list Ext) : JA3.ClientHello :=
  let f := foldl applyExt (JA3.mkFound [] [] [] [] [] []) exts in
  JA3.mkClientHello version ciphers f.(JA3.fExtensions) f.(JA3.fCurves) f.(JA3.fPF) f.(JA3.fVersions) f.(JA3.fAlgorithms) f.(JA3.fSni).

Lemma parseExtensions_encoded fuel version ciphers exts : Forall ext_ok exts -> len (concat (map encodeExt exts)) < 2 ^ 16 -> (length exts < fuel)%nat ->
  JA3.parseExtensions fuel version ciphers (u16 (len (concat (map encodeExt exts))) ++ concat (map encodeExt exts)) = ok (fingerprintOf version ciphers exts).
Proof.
  intros Hok Hl Hf. set (exs := concat (map encodeExt exts)) in *. pose proof (len_nonneg exs). unfold JA3.parseExtensions, JA3.extensionsHeaderLen.
  rewrite len_app, len_u16. rewrite (proj2 (Z.eqb_neq _ 0)), (proj2 (Z.ltb_ge _ 2)) by lia. unfold u16 at 1. rewrite uint16At_bytes by lia. cbn [calls].
  rewrite sliceFrom_pre by done. cbn [calls]. rewrite Z.ltb_irrefl. unfold exs. by rewrite extensionsLoop_encoded.
Qed.

(** The part after the session. *)
Lemma parse_suites (fuel : nat) ciphers compression exts :
  uint16_list ciphers -> 2 * len ciphers < 2 ^ 16 -> Forall ext_ok exts -> len (concat (map encodeExt exts)) < 2 ^ 16 -> (length exts < fuel)%nat ->
  let exs := concat (map encodeExt exts) in
  let cs := (u16 (2 * len ciphers) ++ u16s ciphers) ++ ([len compression] ++ compression) ++ (u16 (len exs) ++ exs) in
  (len cs <? 2) = false /\ uint16At 0 cs = Ret (2 * len ciphers) /\ (len cs <? 2 + 2 * len ciphers + 1) = false /\
  JA3.uint16s (Z.to_nat (2 * len ciphers / 2)) 2 cs = Ret ciphers /\ byteAt (2 + 2 * len ciphers) cs = Ret (len compression) /\
  (len cs <? 2 + 2 * len ciphers + 1 + len compression) = false /\
  sliceFrom (2 + 2 * len ciphers + 1 + len compression) cs = Ret (u16 (len exs) ++ exs).
Proof.
  intros Hc Hcl Hok Hl Hf exs cs. pose proof (len_nonneg ciphers). pose proof (len_nonneg compression). pose proof (len_nonneg exs).
  assert (len cs = 2 + 2 * len ciphers + 1 + len compression + 2 + len exs) as Hlen.
  { unfold cs. rewrite !len_app, !len_u16, len_u16s. change (len [len compression]) with 1. lia. }
  rewrite Hlen. split_and!; try (apply Z.ltb_ge; lia).
  - unfold cs. rewrite <-!app_assoc. unfold u16 at 1. by rewrite uint16At_bytes by lia.
  - unfold cs. rewrite half_len, <-app_assoc. by apply uint16s_read.
  - unfold cs. rewrite byteAt_shift; rewrite len_app, len_u16, len_u16s; [|lia]. replace (2 + 2 * len ciphers - (2 + 2 * len ciphers)) with 0 by lia. rewrite <-app_assoc. by rewrite byteAt_app by (change (len [len compression]) with 1; lia).
  - unfold cs. rewrite app_assoc. apply sliceFrom_pre. rewrite !len_app, len_u16, len_u16s. change (len [len compression]) with 1. lia.
Qed.

Lemma parseHandshake_encoded fuel version random session ciphers compression exts :
  let hello := encodeHello version random session ciphers compression exts in
  0 <= version < 2 ^ 16 -> JA3.supportedVersion version = true -> len random = 32 -> len session < 256 -> uint16_list ciphers -> len compression < 256 ->
  Forall ext_ok exts -> len hello < 2 ^ 16 -> (length exts < fuel)%nat ->
  JA3.parseHandshake fuel hello = ok (fingerprintOf version ciphers exts).
Proof.
  intros hello Hv Hs Hr Hse Hc Hco Hok Hl Hf. unfold hello, encodeHello in *. cbv zeta in *.
  set (exs := concat (map encodeExt exts)) in *. set (cs := (u16 (2 * len ciphers) ++ u16s ciphers) ++ ([len compression] ++ compression) ++ (u16 (len exs) ++ exs)) in *.
  set (body := u16 version ++ random ++ ([len session] ++ session) ++ cs) in *.
  pose proof (len_nonneg session). pose proof (len_nonneg ciphers). pose proof (len_nonneg compression). pose proof (len_nonneg exs).
  assert (len cs = 2 + 2 * len ciphers + 1 + len compression + 2 + len exs) as Hcs by (unfold cs; rewrite !len_app, !len_u16, len_u16s; change (len [len compression]) with 1; lia).
  assert (len body = 35 + len session + len cs) as Hbody by (unfold body; rewrite !len_app, len_u16, Hr; change (len [len session]) with 1; lia).
  assert (len ([1] ++ be_bytes 3 (len body) ++ body) = 4 + len body) as Hlen by (rewrite !len_app; change (len [1]) with 1; change (len (be_bytes 3 (len body))) with 3; lia).
  destruct (uint24_join (len body)) as (b1 & b2 & b3 & Eb & Ejoin); [lia|]. rewrite Eb in *.
  destruct (parse_suites fuel ciphers compression exts) as (S1 & S2 & S3 & S4 & S5 & S6 & S7); [done|lia|done|fold exs; lia|done|]. fold exs in S1, S2, S3, S4, S5, S6, S7. fold cs in S1, S2, S3, S4, S5, S6, S7.
  unfold JA3.parseHandshake, JA3.handshakeHeaderLen, JA3.randomDataLen, JA3.sessionIDHeaderLen, JA3.cipherSuiteHeaderLen, JA3.compressMethodHeaderLen.
  rewrite Hlen in *. change (6 + 32 + 1) with 39. rewrite (proj2 (Z.ltb_ge _ 39)) by lia.
  change ([1] ++ [b1; b2; b3] ++ body) with ([1; b1; b2; b3] ++ body).
  rewrite (byteAt_app 0), (byteAt_app 1), (byteAt_app 2), (byteAt_app 3) by (change (len [1; b1; b2; b3]) with 4; lia).
  change (byteAt 0 [1; b1; b2; b3]) with (Ret 1). change (byteAt 1 [1; b1; b2; b3]) with (Ret b1). change (byteAt 2 [1; b1; b2; b3]) with (Ret b2). change (byteAt 3 [1; b1; b2; b3]) with (Ret b3).
  cbn [calls]. change (negb (1 =? JA3.handshakeType)) with false. cbn [calls]. rewrite sliceFrom_pre by done. cbn [calls]. rewrite Ejoin, Z.eqb_refl. cbn [negb].
  rewrite uint16At_shift by (change (len [1; b1; b2; b3]) with 4; lia). change (4 - len [1; b1; b2; b3]) with 0.
  assert (uint16At 0 body = Ret version) as -> by (unfold body; by apply uint16At_bytes). cbn [calls]. rewrite Hs. cbn [negb].
  assert (byteAt 38 ([1; b1; b2; b3] ++ body) = Ret (len session)) as ->.
  { rewrite byteAt_shift by (change (len [1; b1; b2; b3]) with 4; lia). change (38 - len [1; b1; b2; b3]) with 34. unfold body. rewrite app_assoc, byteAt_shift; rewrite len_app, len_u16, Hr; [|lia]. change (34 - (2 + 32)) with 0. rewrite <-app_assoc. by rewrite byteAt_app by (change (len [len session]) with 1; lia). }
  cbn [calls]. rewrite (proj2 (Z.ltb_ge _ _)) by lia.
  assert (sliceFrom (39 + len session) ([1; b1; b2; b3] ++ body) = Ret cs) as ->.
  { unfold body. rewrite !app_assoc, sliceFrom_pre; [done|]. rewrite !len_app, len_u16, Hr. change (len [1; b1; b2; b3]) with 4. change (len [len session]) with 1. lia. }
  cbn [calls]. rewrite S1, S2. cbn [calls]. rewrite S3, S4. cbn [calls]. rewrite S5. cbn [calls]. rewrite S6, S7. cbn [calls].
  apply parseExtensions_encoded; [done|fold exs; lia|done].
Qed.

End Fingerprint.

(** C39: a client hello is read back: of the record of a hello with the given version,
    random, session, cipher suites, compression methods and extensions, below 64 KiB,
    the parser returns the version, the cipher suites, the types of the extensions, and
    what the extensions say; the last server name, groups and point formats count, and
    the lists of versions and signature algorithms are appended. *)
Theorem hello_roundtrip {EX : Exceptions} fuel version random session ciphers compression exts :
  let hello := encodeHello version random session ciphers compression exts in
  0 <= version < 2 ^ 16 -> JA3.supportedVersion version = true -> len random = 32 -> len session < 256 -> uint16_list ciphers -> len compression < 256 ->
  Forall ext_ok exts -> len hello < 2 ^ 16 -> (length exts < fuel)%nat ->
  JA3.Compute fuel (recordOf (len hello) hello) = ok (fingerprintOf version ciphers exts).
Proof.
  intros hello Hv Hs Hr Hse Hc Hco Hok Hl Hf. pose proof (len_nonneg hello). rewrite Compute_recordOf by lia. rewrite Z.ltb_irrefl, take_ge by (unfold len; lia).
  by apply parseHandshake_encoded.
Qed.

(** ** Examples *)

Module QUICDemo.
#[local] Existing Instance text_exceptions.
#[local] Existing Instance SniffDemo.textSniff.
#[local] Existing Instance SniffDemo.textSniff_laws.

(** HKDF for up to 32 bytes (RFC 5869). *)
#[export] Instance rfc5869 : HKDF := {|
  hkdfExtract := fun secret salt => to_bytes (hmac_sha256 (bytes salt) (bytes secret));
  hkdfExpand := fun key info n => take n (to_bytes (hmac_sha256 (bytes key) (bytes (info ++ [1]))));
|}.

Definition label (secret : list Z) (name : string) (n : nat) : list Z := match HKDFExpandLabel secret [] name n with Ret k => k | Panic => [] end.

(** What a client does: an Initial packet, number 0, of version 1 with the frames. *)
Definition sealPacket (frames : list Z) : list Z :=
  let connID := [1; 2; 3; 4; 5; 6; 7; 8] in
  let secret := label (hkdfExtract connID SaltV1) "client in" 32 in
  let header := [0xc0] ++ be_bytes 4 Version1 ++ [8] ++ connID ++ [0] ++ [0] ++ be_bytes 2 (0x4000 + 1 + len frames + 16) in
  let ct := gcmSeal (label secret HKDFLabelKeyV1 16) (label secret HKDFLabelIVV1 12) frames (header ++ [0]) in
  let mask := aesEncrypt (label secret HKDFLabelHeaderProtectionV1 16) (take 16 (drop 3 ct)) in
  match header, mask with
  | b :: header, m0 :: m1 :: _ => Z.lxor b (Z.land m0 0xf) :: header ++ [m1] ++ ct
  | _, _ => []
  end.

(** A CRYPTO frame with an offset and a length below 64. *)
Definition cryptoBytes (off : Z) (data : list Z) : list Z := [6; off; len data] ++ data.

Definition hello : list Z := encodeHello 0x0303 (replicate 32 7) [] [0x1301] [0] [SNI (to_bytes "a.bc"); SupportedVersions [0x0304]].
Definition part1 : list Z := take 30 hello.
Definition part2 : list Z := drop 30 hello.

(** The second part comes first. *)
Definition packet1 : list Z := Eval vm_compute in sealPacket (cryptoBytes 30 part2 ++ [0; 0; 1]).
Definition packet2 : list Z := Eval vm_compute in sealPacket ([0; 0] ++ cryptoBytes 0 part1).
Definition none : Metadata := mkMetadata "" "" "" None.

Lemma packet1_opens : opens 100 packet1 [6; 0; 0; 1] [mkFragment 30 (len part2) part2].
Proof. do 2 eexists. split; [vm_compute; reflexivity|]. vm_compute. reflexivity. Qed.
Lemma packet2_opens : opens 100 packet2 [0; 0; 6] [mkFragment 0 30 part1].
Proof. do 2 eexists. split; [vm_compute; reflexivity|]. vm_compute. reflexivity. Qed.

Lemma hello_roundtrip_witness :
  JA3.Compute 100 (recordOf (len hello) hello) =
  ok (JA3.mkClientHello 0x0303 [0x1301] [0; 43] [] [] [0x0304] [] (to_bytes "a.bc")).
Proof.
  apply (hello_roundtrip 100 0x0303 (replicate 32 7) [] [0x1301] [0] [SNI (to_bytes "a.bc"); SupportedVersions [0x0304]]);
    [lia|reflexivity|reflexivity|reflexivity|repeat constructor; lia|reflexivity| |reflexivity|cbn; lia].
  constructor; [cbn; repeat constructor; vm_compute; intuition congruence|]. constructor; [|constructor]. cbn. split; [repeat constructor; lia|reflexivity].
Defined.

Lemma quic_hello_recognised_witness :
  exists m' es, sniffPackets 100 none ([packet1] ++ [packet2]) = Some (Ret (m', es ++ [None])) /\
    Forall (fun e => exists x, e = Some x /\ isNeedMoreData x = true) es /\ length es = length [packet1] /\
    Protocol m' = ProtocolQUIC /\ Domain m' = bytes (to_bytes "a.bc") /\ SniffContext m' = None.
Proof.
  apply (quic_hello_recognised 100 [part1; part2] (JA3.mkClientHello 0x0303 [0x1301] [0; 43] [] [] [0x0304] [] (to_bytes "a.bc")) [packet1]
           [[mkFragment 30 (len part2) part2]] packet2 [0; 0; 6] [mkFragment 0 30 part1]).
  - repeat constructor; vm_compute; discriminate.
  - reflexivity.
  - cbn. lia.
  - vm_compute. reflexivity.
  - constructor; [|constructor]. eexists. exact packet1_opens.
  - exact packet2_opens.
  - discriminate.
  - apply (perm_swap (mkFragment 0 30 part1)).
  - reflexivity.
Defined.

(** A CRYPTO frame longer than the packet, one of length zero, and a hello whose list of
    versions is longer than its extension. *)
Definition longPacket : list Z := Eval vm_compute in sealPacket ([6; 0; 63] ++ replicate 20 0).
Definition emptyPacket : list Z := Eval vm_compute in sealPacket ([6; 0; 0] ++ replicate 20 0).
Definition versionsPacket : list Z := Eval vm_compute in
  sealPacket (cryptoBytes 0 (encodeHello 0x0303 (replicate 32 7) [] [] [] [OtherExt 43 [4; 3; 4]])).

Lemma emptyPacket_opens : opens 100 emptyPacket (6 :: replicate 20 0) [mkFragment 0 0 []].
Proof. do 2 eexists. split; [vm_compute; reflexivity|]. vm_compute. reflexivity. Qed.

(** More fuel finds the same frames. *)
Lemma readFrames_fuel {EX : Exceptions} full n fuel1 : forall fuel2 reader r, readFrames fuel1 full n reader = Some r ->
  readFrames fuel2 full n reader = None \/ readFrames fuel2 full n reader = Some r.
Proof.
  induction fuel1 as [|fuel1 IH]; intros [|fuel2] reader r; cbn [readFrames]; try done; [by left|].
  destruct reader as [|t reader]; [by right|]. destruct (readFrame full n t reader) as [[[fs rest]|e]|]; [|by right|by right].
  destruct (readFrames fuel1 full n rest) as [q|] eqn:E; [|done]. destruct (IH fuel2 rest q E) as [->| ->]; [by left|by right].
Qed.

(** A fragment of length zero at the start is found again and again. *)
Lemma find_empty fuel fs : List.find (fun f => offset f =? 0) fs = Some (mkFragment 0 0 []) -> find fuel fs 0 = None.
Proof. intros Hf. induction fuel as [|fuel IH]; cbn [find]; [done|]. rewrite Hf. cbn [offset length_]. change (wrapu 64 (0 + 0)) with 0. by rewrite IH. Qed.

(** C40: three packets anyone can make stop the sniffer: a CRYPTO frame that says to be
    longer than the packet is an index out of range, so is a list of versions in the
    hello that says to be longer than its extension, and a CRYPTO frame of length zero
    is put together with itself for ever. *)
Theorem quic_sniffer_crashes :
  QUICClientHello 100 none longPacket = Some Panic /\ QUICClientHello 100 none versionsPacket = Some Panic /\
  forall fuel, QUICClientHello fuel none emptyPacket = None.
Proof.
  split; [vm_compute; reflexivity|]. split; [vm_compute; reflexivity|]. intros fuel.
  destruct emptyPacket_opens as (d & after & Ho & Hr). unfold QUICClientHello. rewrite Ho.
  destruct (readFrames_fuel (d ++ after) (len d) 100 fuel d _ Hr) as [->| ->]; [done|]. cbn [ok]. unfold finishHello, helloRecord. cbn [SniffContext none default from_option id].
  by rewrite find_empty.
Qed.

End QUICDemo.
