(* ===== verification/RouteRules.v ===== *)
(** * Route rules from options

    [src/route/rule/rule_default.go] (the constructors of route rules), the route
    actions of [rule_action.go], the ban on nested actions of
    [rule_nested_action.go], and the option types of [src/option/rule.go] and
    [rule_action.go]. *)

From S2P Require Import Prelude GoStrings RuleState RuleItems RuleMatch RuleBuild DNSRules.

Local Open Scope string_scope.
Local Open Scope list_scope.
Local Open Scope Z_scope.

Definition RuleActionTypeDirect : string := "direct".
Definition RuleActionTypeBypass : string := "bypass".
Definition RuleActionTypeHijackDNS : string := "hijack-dns".
Definition RuleActionTypeSniff : string := "sniff".
Definition RuleActionTypeResolve : string := "resolve".

(** What actions take from [sing/common/metadata] and the dialer package. *)
Class ActionEnv `{RE : RuleEnv} := {
  ParseSocksaddrHostPort : string -> Z -> Socksaddr;
  socksIsValid : Socksaddr -> bool;
  socksIsDomain : Socksaddr -> bool;
  (** [option.DialerOptions]: whether they differ from the zero value, and the
      error of [dialer.New] *)
  DialerOptions : Type;
  dialerOptionsSet : DialerOptions -> bool;
  noDialerOptions : DialerOptions;
  newDialer : DialerOptions -> option error;
}.

(** ** Sniffers *)

Inductive StreamSniffer := TLSClientHello | HTTPHost | StreamDomainNameQuery | BitTorrent | SSH | RDP.
Inductive PacketSniffer := DomainNameQuery | QUICClientHello | STUNMessage | UTP | UDPTracker | DTLSRecord | NTP.

Section Actions.
Context `{AE : ActionEnv}.

(** [RuleActionSniff.build]: the sniffers of each name, in order. *)
Definition sniffersOf (name : string) : option (list StreamSniffer * list PacketSniffer) :=
  if String.eqb name "tls" then Some ([TLSClientHello], [])
  else if String.eqb name "http" then Some ([HTTPHost], [])
  else if String.eqb name "quic" then Some ([], [QUICClientHello])
  else if String.eqb name "dns" then Some ([StreamDomainNameQuery], [DomainNameQuery])
  else if String.eqb name "stun" then Some ([], [STUNMessage])
  else if String.eqb name "bittorrent" then Some ([BitTorrent], [UTP; UDPTracker])
  else if String.eqb name "dtls" then Some ([], [DTLSRecord])
  else if String.eqb name "ssh" then Some ([SSH], [])
  else if String.eqb name "rdp" then Some ([RDP], [])
  else if String.eqb name "ntp" then Some ([], [NTP])
  else None.

Fixpoint buildSniffers (names : list string) : result error (list StreamSniffer * list PacketSniffer) :=
  match names with
  | [] => Ok ([], [])
  | name :: rest =>
      match sniffersOf name with
      | None => Err (E_New ["unknown sniffer: "; name])
      | Some (streams, packets) =>
          match buildSniffers rest with
          | Err e => Err e
          | Ok (streams', packets') => Ok (streams ++ streams', packets ++ packets')
          end
      end
  end.

(** ** Actions *)

(** [RuleActionRouteOptions]; [NetworkStrategy] is a pointer to an enumeration. *)
Record RouteActionOptions := mkRouteActionOptions {
  OverrideAddress : Socksaddr;
  OverridePort : Z;
  ro_NetworkStrategy : option Z;
  ro_NetworkType : list Z;
  ro_FallbackNetworkType : list Z;
  ro_FallbackDelay : Z;
  ro_UDPDisableDomainUnmapping : bool;
  ro_UDPConnect : bool;
  ro_UDPTimeout : Z;
  ro_TLSFragment : bool;
  ro_TLSFragmentFallbackDelay : Z;
  ro_TLSRecordFragment : bool;
}.

Inductive RouteAction :=
| NoRouteAction
| RuleActionRoute (outbound : string) (options : RouteActionOptions)
| RuleActionRouteOptions (options : RouteActionOptions)
| RuleActionBypass (outbound : string) (options : RouteActionOptions)
| RuleActionDirect
| RouteReject (method : string) (noDrop : bool)
| RuleActionHijackDNS
| RuleActionSniff (names : list string) (streams : list StreamSniffer) (packets : list PacketSniffer) (timeout : Z)
| RuleActionResolve (server : string) (options : DNSRouteOptions).

(** [option.RawRouteOptionsActionOptions] *)
Record RawRouteOptions := mkRawRouteOptions {
  raw_OverrideAddress : string;
  raw_OverridePort : Z;
  raw_NetworkStrategy : option Z;
  raw_FallbackDelay : Z;
  raw_UDPDisableDomainUnmapping : bool;
  raw_UDPConnect : bool;
  raw_UDPTimeout : Z;
  raw_TLSFragment : bool;
  raw_TLSFragmentFallbackDelay : Z;
  raw_TLSRecordFragment : bool;
}.

Definition noRawOptions : RawRouteOptions := mkRawRouteOptions "" 0 None 0 false false 0 false 0 false.

(** [option.RuleAction] *)
Record ActionOptions := mkActionOptions {
  act_Action : string;
  act_Outbound : string;
  act_Route : RawRouteOptions;
  act_RouteOptions : RawRouteOptions;
  act_Direct : DialerOptions;
  act_BypassOutbound : string;
  act_Bypass : RawRouteOptions;
  act_RejectMethod : string;
  act_RejectNoDrop : bool;
  act_Sniffer : list string;
  act_SniffTimeout : Z;
  act_ResolveServer : string;
  act_Resolve : DNSRouteOptions;
}.

Definition noRouteAction : ActionOptions :=
  mkActionOptions "" "" noRawOptions noRawOptions noDialerOptions "" noRawOptions "" false [] 0 "" noRouteOptions.

Definition rawOptionsSet (o : RawRouteOptions) : bool :=
  negb (String.eqb o.(raw_OverrideAddress) "") || negb (o.(raw_OverridePort) =? 0) || isSome o.(raw_NetworkStrategy) ||
  negb (o.(raw_FallbackDelay) =? 0) || o.(raw_UDPDisableDomainUnmapping) || o.(raw_UDPConnect) ||
  negb (o.(raw_UDPTimeout) =? 0) || o.(raw_TLSFragment) || negb (o.(raw_TLSFragmentFallbackDelay) =? 0) ||
  o.(raw_TLSRecordFragment).

(** [!reflect.DeepEqual(action, option.RuleAction{})] *)
Definition hasRouteAction (a : ActionOptions) : bool :=
  negb (String.eqb a.(act_Action) "") || negb (String.eqb a.(act_Outbound) "") || rawOptionsSet a.(act_Route) ||
  rawOptionsSet a.(act_RouteOptions) || dialerOptionsSet a.(act_Direct) || negb (String.eqb a.(act_BypassOutbound) "") ||
  rawOptionsSet a.(act_Bypass) || negb (String.eqb a.(act_RejectMethod) "") || a.(act_RejectNoDrop) ||
  nonempty a.(act_Sniffer) || negb (a.(act_SniffTimeout) =? 0) || negb (String.eqb a.(act_ResolveServer) "") ||
  routeOptionsSet a.(act_Resolve).

(** What the [route] and [bypass] actions take over of their options: the UDP
    timeout and the network types are not among it. *)
Definition routeActionOptions (o : RawRouteOptions) : RouteActionOptions :=
  mkRouteActionOptions (ParseSocksaddrHostPort o.(raw_OverrideAddress) 0) o.(raw_OverridePort) o.(raw_NetworkStrategy) [] []
    o.(raw_FallbackDelay) o.(raw_UDPDisableDomainUnmapping) o.(raw_UDPConnect) 0 o.(raw_TLSFragment)
    o.(raw_TLSFragmentFallbackDelay) o.(raw_TLSRecordFragment).

(** What the [route-options] action takes over. *)
Definition routeOptionsActionOptions (o : RawRouteOptions) : RouteActionOptions :=
  mkRouteActionOptions (ParseSocksaddrHostPort o.(raw_OverrideAddress) 0) o.(raw_OverridePort) o.(raw_NetworkStrategy) [] []
    o.(raw_FallbackDelay) o.(raw_UDPDisableDomainUnmapping) o.(raw_UDPConnect) o.(raw_UDPTimeout) o.(raw_TLSFragment)
    o.(raw_TLSFragmentFallbackDelay) o.(raw_TLSRecordFragment).

(** An unknown action panics. *)
Definition NewRuleAction (a : ActionOptions) : outcome (result error RouteAction) :=
  if String.eqb a.(act_Action) "" then Ret (Ok NoRouteAction)
  else if String.eqb a.(act_Action) RuleActionTypeRoute then
    Ret (Ok (RuleActionRoute a.(act_Outbound) (routeActionOptions a.(act_Route))))
  else if String.eqb a.(act_Action) RuleActionTypeRouteOptions then
    Ret (Ok (RuleActionRouteOptions (routeOptionsActionOptions a.(act_RouteOptions))))
  else if String.eqb a.(act_Action) RuleActionTypeBypass then
    Ret (Ok (RuleActionBypass a.(act_BypassOutbound) (routeActionOptions a.(act_Bypass))))
  else if String.eqb a.(act_Action) RuleActionTypeDirect then
    Ret (match newDialer a.(act_Direct) with Some e => Err e | None => Ok RuleActionDirect end)
  else if String.eqb a.(act_Action) RuleActionTypeReject then
    Ret (Ok (RouteReject a.(act_RejectMethod) a.(act_RejectNoDrop)))
  else if String.eqb a.(act_Action) RuleActionTypeHijackDNS then Ret (Ok RuleActionHijackDNS)
  else if String.eqb a.(act_Action) RuleActionTypeSniff then
    Ret (match buildSniffers a.(act_Sniffer) with
         | Err e => Err e
         | Ok (streams, packets) => Ok (RuleActionSniff a.(act_Sniffer) streams packets a.(act_SniffTimeout))
         end)
  else if String.eqb a.(act_Action) RuleActionTypeResolve then
    Ret (Ok (RuleActionResolve a.(act_ResolveServer) a.(act_Resolve)))
  else Panic.

(** ** Options *)

(** [option.DefaultRule] *)
Record RouteOptions := mkRouteOptions {
  re_Inbound : list string;
  re_IPVersion : Z;
  re_Network : list string;
  re_AuthUser : list string;
  re_Protocol : list string;
  re_Client : list string;
  re_Domain : list string;
  re_DomainSuffix : list string;
  re_DomainKeyword : list string;
  re_DomainRegex : list string;
  re_Geosite : list string;
  re_SourceGeoIP : list string;
  re_GeoIP : list string;
  re_SourceIPCIDR : list string;
  re_SourceIPIsPrivate : bool;
  re_IPCIDR : list string;
  re_IPIsPrivate : bool;
  re_SourcePort : list Z;
  re_SourcePortRange : list string;
  re_Port : list Z;
  re_PortRange : list string;
  re_ProcessName : list string;
  re_ProcessPath : list string;
  re_ProcessPathRegex : list string;
  re_PackageName : list string;
  re_User : list string;
  re_UserID : list Z;
  re_ClashMode : string;
  re_NetworkType : list Z;
  re_NetworkIsExpensive : bool;
  re_NetworkIsConstrained : bool;
  re_WIFISSID : list string;
  re_WIFIBSSID : list string;
  re_InterfaceAddress : option (list (string * list Prefix));
  re_NetworkInterfaceAddress : option (list (Z * list Prefix));
  re_DefaultInterfaceAddress : list Prefix;
  re_SourceMACAddress : list string;
  re_SourceHostname : list string;
  re_PreferredBy : list string;
  re_RuleSet : list string;
  re_RuleSetIPCIDRMatchSource : bool;
  re_Invert : bool;
  re_Deprecated_RulesetIPCIDRMatchSource : bool;
  re_Action : ActionOptions;
}.

Definition noRouteRule : RouteOptions :=
  mkRouteOptions
    [] 0 [] [] [] [] [] [] [] [] [] [] [] [] false [] false [] [] [] [] [] [] [] [] [] [] "" [] false false [] []
    None None [] [] [] [] [] false false false noRouteAction.

(** [DefaultRule.IsValid], with absent and empty lists identified. *)
Definition RouteOptions_IsValid (o : RouteOptions) : bool :=
  nonempty o.(re_Inbound) || negb (o.(re_IPVersion) =? 0) || nonempty o.(re_Network) || nonempty o.(re_AuthUser) ||
  nonempty o.(re_Protocol) || nonempty o.(re_Client) || nonempty o.(re_Domain) || nonempty o.(re_DomainSuffix) ||
  nonempty o.(re_DomainKeyword) || nonempty o.(re_DomainRegex) || nonempty o.(re_Geosite) ||
  nonempty o.(re_SourceGeoIP) || nonempty o.(re_GeoIP) || nonempty o.(re_SourceIPCIDR) ||
  o.(re_SourceIPIsPrivate) || nonempty o.(re_IPCIDR) || o.(re_IPIsPrivate) || nonempty o.(re_SourcePort) ||
  nonempty o.(re_SourcePortRange) || nonempty o.(re_Port) || nonempty o.(re_PortRange) ||
  nonempty o.(re_ProcessName) || nonempty o.(re_ProcessPath) || nonempty o.(re_ProcessPathRegex) ||
  nonempty o.(re_PackageName) || nonempty o.(re_User) || nonempty o.(re_UserID) ||
  negb (String.eqb o.(re_ClashMode) "") || nonempty o.(re_NetworkType) || o.(re_NetworkIsExpensive) ||
  o.(re_NetworkIsConstrained) || nonempty o.(re_WIFISSID) || nonempty o.(re_WIFIBSSID) ||
  isSome o.(re_InterfaceAddress) || isSome o.(re_NetworkInterfaceAddress) ||
  nonempty o.(re_DefaultInterfaceAddress) || nonempty o.(re_SourceMACAddress) || nonempty o.(re_SourceHostname) ||
  nonempty o.(re_PreferredBy) || nonempty o.(re_RuleSet) || o.(re_RuleSetIPCIDRMatchSource) ||
  o.(re_Deprecated_RulesetIPCIDRMatchSource) || hasRouteAction o.(re_Action).

Abbreviation RouteRuleOptions := (OptionTree RouteOptions ActionOptions) (only parsing).

(** ** Constructors *)

(** The conditions on the connection, the addresses and the ports. *)
Definition routeAddressBlocks (o : RouteOptions) : list (result error (ItemGroup * RuleItem)) :=
  cond (nonempty o.(re_Inbound)) GItems (NewInboundRule o.(re_Inbound)) ++
  (if 0 <? o.(re_IPVersion) then
     if (o.(re_IPVersion) =? 4) || (o.(re_IPVersion) =? 6)
     then cond true GItems (NewIPVersionItem (o.(re_IPVersion) =? 6))
     else reject true (E_New ["invalid ip version: "; itoa o.(re_IPVersion)])
   else []) ++
  cond (nonempty o.(re_Network)) GItems (NewNetworkItem o.(re_Network)) ++
  cond (nonempty o.(re_AuthUser)) GItems (NewAuthUserItem o.(re_AuthUser)) ++
  cond (nonempty o.(re_Protocol)) GItems (NewProtocolItem o.(re_Protocol)) ++
  cond (nonempty o.(re_Client)) GItems (NewClientItem o.(re_Client)) ++
  condErr (nonempty o.(re_Domain) || nonempty o.(re_DomainSuffix)) GDestinationAddress
    (NewDomainItem o.(re_Domain) o.(re_DomainSuffix)) id ++
  cond (nonempty o.(re_DomainKeyword)) GDestinationAddress (NewDomainKeywordItem o.(re_DomainKeyword)) ++
  condErr (nonempty o.(re_DomainRegex)) GDestinationAddress (NewDomainRegexItem o.(re_DomainRegex))
    (fun e => E_Cause e ["domain_regex"]) ++
  reject (nonempty o.(re_Geosite)) (E_New ["geosite database is deprecated in sing-box 1.8.0 and removed in sing-box 1.12.0"]) ++
  reject (nonempty o.(re_SourceGeoIP)) (E_New ["geoip database is deprecated in sing-box 1.8.0 and removed in sing-box 1.12.0"]) ++
  reject (nonempty o.(re_GeoIP)) (E_New ["geoip database is deprecated in sing-box 1.8.0 and removed in sing-box 1.12.0"]) ++
  condErr (nonempty o.(re_SourceIPCIDR)) GSourceAddress (NewIPCIDRItem true o.(re_SourceIPCIDR))
    (fun e => E_Cause e ["source_ip_cidr"]) ++
  cond o.(re_SourceIPIsPrivate) GSourceAddress (NewIPIsPrivateItem true) ++
  condErr (nonempty o.(re_IPCIDR)) GDestinationIPCIDR (NewIPCIDRItem false o.(re_IPCIDR))
    (fun e => E_Cause e ["ipcidr"]) ++
  cond o.(re_IPIsPrivate) GDestinationIPCIDR (NewIPIsPrivateItem false) ++
  cond (nonempty o.(re_SourcePort)) GSourcePort (NewPortItem true o.(re_SourcePort)) ++
  condErr (nonempty o.(re_SourcePortRange)) GSourcePort (NewPortRangeItem true o.(re_SourcePortRange))
    (fun e => E_Cause e ["source_port_range"]) ++
  cond (nonempty o.(re_Port)) GDestinationPort (NewPortItem false o.(re_Port)) ++
  condErr (nonempty o.(re_PortRange)) GDestinationPort (NewPortRangeItem false o.(re_PortRange))
    (fun e => E_Cause e ["port_range"]).

(** The conditions on the process, the network and the neighbour, and the checks
    on rule-set options. *)
Definition routeContextBlocks (o : RouteOptions) : list (result error (ItemGroup * RuleItem)) :=
  cond (nonempty o.(re_ProcessName)) GItems (NewProcessItem o.(re_ProcessName)) ++
  cond (nonempty o.(re_ProcessPath)) GItems (NewProcessPathItem o.(re_ProcessPath)) ++
  condErr (nonempty o.(re_ProcessPathRegex)) GItems (NewProcessPathRegexItem o.(re_ProcessPathRegex))
    (fun e => E_Cause e ["process_path_regex"]) ++
  cond (nonempty o.(re_PackageName)) GItems (NewPackageNameItem o.(re_PackageName)) ++
  cond (nonempty o.(re_User)) GItems (NewUserItem o.(re_User)) ++
  cond (nonempty o.(re_UserID)) GItems (NewUserIDItem o.(re_UserID)) ++
  cond (negb (String.eqb o.(re_ClashMode) "")) GItems (NewClashModeItem o.(re_ClashMode)) ++
  cond (nonempty o.(re_NetworkType)) GItems (NewNetworkTypeItem o.(re_NetworkType)) ++
  cond o.(re_NetworkIsExpensive) GItems NewNetworkIsExpensiveItem ++
  cond o.(re_NetworkIsConstrained) GItems NewNetworkIsConstrainedItem ++
  cond (nonempty o.(re_WIFISSID)) GItems (NewWIFISSIDItem o.(re_WIFISSID)) ++
  cond (nonempty o.(re_WIFIBSSID)) GItems (NewWIFIBSSIDItem o.(re_WIFIBSSID)) ++
  (match o.(re_InterfaceAddress) with
   | Some entries => cond (nonempty entries) GItems (NewInterfaceAddressItem entries)
   | None => []
   end) ++
  (match o.(re_NetworkInterfaceAddress) with
   | Some entries => cond (nonempty entries) GItems (NewNetworkInterfaceAddressItem entries)
   | None => []
   end) ++
  cond (nonempty o.(re_DefaultInterfaceAddress)) GItems (NewDefaultInterfaceAddressItem o.(re_DefaultInterfaceAddress)) ++
  cond (nonempty o.(re_SourceMACAddress)) GItems (NewSourceMACAddressItem o.(re_SourceMACAddress)) ++
  cond (nonempty o.(re_SourceHostname)) GItems (NewSourceHostnameItem o.(re_SourceHostname)) ++
  cond (nonempty o.(re_PreferredBy)) GItems (NewPreferredByItem o.(re_PreferredBy)) ++
  reject (nonempty o.(re_RuleSet) && o.(re_Deprecated_RulesetIPCIDRMatchSource))
    (E_New ["rule_set_ipcidr_match_source is deprecated in sing-box 1.10.0 and removed in sing-box 1.11.0"]).

Definition routeBlocks (o : RouteOptions) : list (result error (ItemGroup * RuleItem)) :=
  routeAddressBlocks o ++ routeContextBlocks o.

(** A route rule: its conditions and its action.  Sub-rules of a logical rule
    have no action, so the tree carries none. *)
Record RouteRule := mkRouteRule {
  rrTree : RuleTree (abstractDefaultRule RuleSetItem) unit;
  rrAction : RouteAction;
}.

Definition NewDefaultRule (o : RouteOptions) : outcome (result error RouteRule) :=
  match NewRuleAction o.(re_Action) with
  | Panic => Panic
  | Ret (Err e) => Ret (Err (E_Cause e ["action"]))
  | Ret (Ok action) =>
      match runBlocks (routeBlocks o) with
      | Err e => Ret (Err e)
      | Ok items =>
          let rs := if nonempty o.(re_RuleSet)
                    then Some (NewRuleSetItem o.(re_RuleSet) o.(re_RuleSetIPCIDRMatchSource) false) else None in
          Ret (Ok (mkRouteRule (DefaultLeaf (mkDefaultRule items rs o.(re_Invert))) action))
      end
  end.

(** [Rule.IsValid]: types other than ["default"] and ["logical"] panic. *)
Fixpoint Rule_IsValid (t : RouteRuleOptions) : outcome bool :=
  match t with
  | OptionRule ty d _ rules _ _ =>
      if String.eqb ty RuleTypeDefault then Ret (RouteOptions_IsValid d)
      else if String.eqb ty RuleTypeLogical then
        if nonempty rules then allM Rule_IsValid rules else Ret false
      else Panic
  end.

Definition ruleHasConfiguredAction (t : RouteRuleOptions) : bool :=
  let '(OptionRule ty d _ _ _ action) := t in
  if isDefaultType ty then hasRouteAction d.(re_Action)
  else if String.eqb ty RuleTypeLogical then hasRouteAction action
  else false.

Definition RouteRuleActionNestedUnsupportedMessage : string := "rule action is not supported in nested rules".

Fixpoint validateNoNestedRuleActions (t : RouteRuleOptions) (nested : bool) : option error :=
  match t with
  | OptionRule ty _ _ rules _ _ =>
      if nested && ruleHasConfiguredAction t then Some (E_New [RouteRuleActionNestedUnsupportedMessage])
      else if negb (String.eqb ty RuleTypeLogical) then None
      else firstError (fun r => validateNoNestedRuleActions r true) subRuleError 0 rules
  end.

(** Whether the action needs an outbound. *)
Definition needsOutbound (a : ActionOptions) : bool :=
  String.eqb a.(act_Action) "" || String.eqb a.(act_Action) RuleActionTypeRoute.

Fixpoint NewRule (t : RouteRuleOptions) (checkOutbound : bool) : outcome (result error RouteRule) :=
  match t with
  | OptionRule ty d mode rules inverted action =>
      if isDefaultType ty then
        if negb (RouteOptions_IsValid d) then Ret (Err (E_New ["missing conditions"]))
        else if needsOutbound d.(re_Action) && String.eqb d.(re_Action).(act_Outbound) "" && checkOutbound
        then Ret (Err (E_New ["missing outbound field"]))
        else NewDefaultRule d
      else if String.eqb ty RuleTypeLogical then
        match (if nonempty rules then allM Rule_IsValid rules else Ret false) with
        | Panic => Panic
        | Ret false => Ret (Err (E_New ["missing conditions"]))
        | Ret true =>
            if needsOutbound action && String.eqb action.(act_Outbound) "" && checkOutbound
            then Ret (Err (E_New ["missing outbound field"]))
            else
              (* NewLogicalRule *)
              match NewRuleAction action with
              | Panic => Panic
              | Ret (Err e) => Ret (Err (E_Cause e ["action"]))
              | Ret (Ok act) =>
                  if String.eqb mode LogicalTypeAnd || String.eqb mode LogicalTypeOr then
                    match buildAll (fun sub =>
                            match validateNoNestedRuleActions sub true with
                            | Some e => Ret (Err e)
                            | None => NewRule sub false
                            end) subRuleError 0 rules with
                    | Panic => Panic
                    | Ret (Err e) => Ret (Err e)
                    | Ret (Ok us) => Ret (Ok (mkRouteRule (LogicalNode mode inverted tt (map rrTree us)) act))
                    end
                  else Ret (Err (E_New ["unknown logical mode: "; mode]))
              end
        end
      else Ret (Err (E_New ["unknown rule type: "; ty]))
  end.

End Actions.
