(* ===== verification/RouteRouter.v ===== *)
(** * Routing metadata and sniffing

    The metadata of a routed connection ([src/adapter/inbound.go]), the route
    options [matchRule] applies to it and [actionSniff] ([src/route/route.go]), and
    the loops over sniffers of [src/common/sniff/sniff.go].

    What a connection yields when it is read is a list of events; reading past its
    end is a timeout.  The sniffers are those of [Sniffers] and [QUIC], with the parsers
    of the libraries they call.  Logging, the release of buffers, read deadlines of the
    connection and [RuleActionSniff.OverrideDestination], which no constructor sets, are
    left out. *)

From S2P Require Import Prelude GoStrings GoTime GoCrypto GoBinary Sniffers GoAES QUIC RuleState RuleItems RuleMatch RuleBuild DNSRules DNSRouter DNSLookup RouteRules.

Local Open Scope string_scope.
Local Open Scope list_scope.
Local Open Scope Z_scope.

Definition NetworkTCP : string := "tcp".
Definition NetworkUDP : string := "udp".
Definition NetworkICMP : string := "icmp".

(** ** What the router uses *)

Class RouteEnv {RE : RuleEnv} {DE : @DNSEnv RE} {LE : @LookupEnv RE DE} {AE : @ActionEnv RE} := {
  (** What the sniffers use of the libraries, and the errors they return. *)
  ro_sniffErrors :: SniffErrors (EX := re_exceptions);
  ro_sniffLib :: SniffLib (EX := re_exceptions);
  ro_hkdf :: HKDF;
  (** The rounds after which a loop of the QUIC sniffer counts as endless. *)
  sniffFuel : nat;
  (** [errors.Is(err, context.DeadlineExceeded)] *)
  isDeadlineExceeded : error -> bool;
  DeadlineExceeded : error;
  (** [adapter.DNSRouter] *)
  DNSState : Type;
  dns_Lookup : DNSState -> InboundContext -> string -> DNSQueryOptions -> DNSState * (list Addr * option error);
  (** The magic destinations of [sing-mux], [sing-vmess] and [sing/common/uot]. *)
  muxDestination : string;
  vmessMuxDestination : string;
  uotMagicAddress : string;
  uotLegacyMagicAddress : string;
  (** [tun.ErrBypass] in a [BypassedError] *)
  BypassedError : error;
}.

Section Context.
Context {RE : RuleEnv} {DE : @DNSEnv RE} {LE : @LookupEnv RE DE} {AE : @ActionEnv RE} {RoE : @RouteEnv RE DE LE AE}.

(** ** Metadata *)

(** The options of [adapter.InboundContext] that route actions set. *)
Record AppliedOptions := mkAppliedOptions {
  NetworkStrategy : option Z;
  ao_NetworkType : list Z;
  FallbackNetworkType : list Z;
  FallbackDelay : Z;
  UDPDisableDomainUnmapping : bool;
  UDPConnect : bool;
  UDPTimeout : Z;
  TLSFragment : bool;
  TLSFragmentFallbackDelay : Z;
  TLSRecordFragment : bool;
}.

(** [adapter.InboundContext]: the fields rules read, and those only routing uses. *)
Record RouteContext := mkRouteContext {
  rcIn : InboundContext;
  InboundDetour : string;
  LastInbound : string;
  OriginDestination : Socksaddr;
  RouteOriginalDestination : Socksaddr;
  rcOptions : AppliedOptions;
  FakeIP : bool;
  rcSniff : option (list qCryptoFragment);
  SnifferNames : list string;
  SniffError : option error;
}.

Definition with_in (i : InboundContext) (c : RouteContext) : RouteContext :=
  mkRouteContext i c.(InboundDetour) c.(LastInbound) c.(OriginDestination) c.(RouteOriginalDestination) c.(rcOptions)
    c.(FakeIP) c.(rcSniff) c.(SnifferNames) c.(SniffError).
Definition with_options (o : AppliedOptions) (c : RouteContext) : RouteContext :=
  mkRouteContext c.(rcIn) c.(InboundDetour) c.(LastInbound) c.(OriginDestination) c.(RouteOriginalDestination) o
    c.(FakeIP) c.(rcSniff) c.(SnifferNames) c.(SniffError).
Definition with_original (d : Socksaddr) (c : RouteContext) : RouteContext :=
  mkRouteContext c.(rcIn) c.(InboundDetour) c.(LastInbound) c.(OriginDestination) d c.(rcOptions)
    c.(FakeIP) c.(rcSniff) c.(SnifferNames) c.(SniffError).
Definition with_sniffed (m : InboundContext * option (list qCryptoFragment)) (names : list string) (e : option error)
    (c : RouteContext) : RouteContext :=
  mkRouteContext m.1 c.(InboundDetour) c.(LastInbound) c.(OriginDestination) c.(RouteOriginalDestination) c.(rcOptions)
    c.(FakeIP) m.2 names e.

Definition set_owner (p : option ConnectionOwner) (mac : option string) (hostname : string) (addresses : list Addr)
    (network inbound : string) (c : InboundContext) : InboundContext :=
  mkInboundContext inbound c.(IPVersion) network c.(Source) c.(Destination) c.(User) c.(Outbound) c.(Protocol) c.(Domain)
    c.(Client) addresses c.(DNSResponse) c.(DestinationAddressMatchFromResponse) p mac hostname c.(QueryType)
    c.(IPCIDRMatchSource) c.(IPCIDRAcceptEmpty) c.(SourceAddressMatch) c.(SourcePortMatch) c.(DestinationAddressMatch)
    c.(DestinationPortMatch) c.(DidMatch) c.(IgnoreDestinationIPCIDRMatch).
Definition set_ProcessInfo (p : option ConnectionOwner) (c : InboundContext) : InboundContext :=
  set_owner p c.(SourceMACAddress) c.(SourceHostname) c.(DestinationAddresses) c.(Network) c.(Inbound) c.
Definition set_SourceMACAddress (mac : option string) (c : InboundContext) : InboundContext :=
  set_owner c.(ProcessInfo) mac c.(SourceHostname) c.(DestinationAddresses) c.(Network) c.(Inbound) c.
Definition set_SourceHostname (h : string) (c : InboundContext) : InboundContext :=
  set_owner c.(ProcessInfo) c.(SourceMACAddress) h c.(DestinationAddresses) c.(Network) c.(Inbound) c.
Definition set_DestinationAddresses (l : list Addr) (c : InboundContext) : InboundContext :=
  set_owner c.(ProcessInfo) c.(SourceMACAddress) c.(SourceHostname) l c.(Network) c.(Inbound) c.
Definition set_Network (n : string) (c : InboundContext) : InboundContext :=
  set_owner c.(ProcessInfo) c.(SourceMACAddress) c.(SourceHostname) c.(DestinationAddresses) n c.(Inbound) c.
Definition set_Inbound (i : string) (c : InboundContext) : InboundContext :=
  set_owner c.(ProcessInfo) c.(SourceMACAddress) c.(SourceHostname) c.(DestinationAddresses) c.(Network) i c.

(** What [matchRule] does with the route options of a matched rule. *)
Definition applyRouteOptions (o : RouteActionOptions) (c : RouteContext) : RouteContext :=
  let d := c.(rcIn).(Destination) in
  let c := if (socksIsValid o.(OverrideAddress) || (0 <? o.(OverridePort))) && negb (socksIsValid c.(RouteOriginalDestination))
           then with_original d c else c in
  let c := if socksIsValid o.(OverrideAddress)
           then with_in (set_DestinationAddresses [] (set_Destination
                  (mkSocksaddr o.(OverrideAddress).(sockAddr) d.(sockPort) o.(OverrideAddress).(sockFqdn)) c.(rcIn))) c
           else c in
  let d := c.(rcIn).(Destination) in
  let c := if 0 <? o.(OverridePort)
           then with_in (set_Destination (mkSocksaddr d.(sockAddr) o.(OverridePort) d.(sockFqdn)) c.(rcIn)) c else c in
  let a := c.(rcOptions) in
  with_options
    (mkAppliedOptions
       (if isSome o.(ro_NetworkStrategy) then o.(ro_NetworkStrategy) else a.(NetworkStrategy))
       (if nonempty o.(ro_NetworkType) then o.(ro_NetworkType) else a.(ao_NetworkType))
       (if nonempty o.(ro_FallbackNetworkType) then o.(ro_FallbackNetworkType) else a.(FallbackNetworkType))
       (if negb (o.(ro_FallbackDelay) =? 0) then o.(ro_FallbackDelay) else a.(FallbackDelay))
       (o.(ro_UDPDisableDomainUnmapping) || a.(UDPDisableDomainUnmapping))
       (o.(ro_UDPConnect) || a.(UDPConnect))
       (if 0 <? o.(ro_UDPTimeout) then o.(ro_UDPTimeout) else a.(UDPTimeout))
       (o.(ro_TLSFragment) || a.(TLSFragment))
       (if o.(ro_TLSFragment) then o.(ro_TLSFragmentFallbackDelay) else a.(TLSFragmentFallbackDelay))
       (o.(ro_TLSRecordFragment) || a.(TLSRecordFragment))) c.

(** ** Sniffing *)

Inductive StreamEvent :=
| StreamData (bytes : string)
| StreamError (e : error)
| StreamDeadlineError (e : error).

(** A packet with the destination it was sent to. *)
Record PacketBuffer := mkPacketBuffer { pbBytes : string; pbDestination : Socksaddr }.

Inductive PacketEvent :=
| PacketData (p : PacketBuffer)
| PacketError (e : error)
| PacketDone (e : error).

(** [sniff.Skip]: ports of protocols where the server speaks first. *)
Definition Skip (c : InboundContext) : bool :=
  List.existsb (Z.eqb c.(Destination).(sockPort)) [25; 465; 587; 143; 993; 110; 995].

(** The metadata with what the sniffers of multi-packet protocols keep. *)
Abbreviation Sniffed := (InboundContext * option (list qCryptoFragment))%type.

Definition sniffMeta (m : Sniffed) : Metadata := mkMetadata m.1.(Protocol) m.1.(Domain) m.1.(Client) m.2.

Definition withMeta (d : Metadata) (c : InboundContext) : InboundContext :=
  mkInboundContext c.(Inbound) c.(IPVersion) c.(Network) c.(Source) c.(Destination) c.(User) c.(Outbound)
    d.(Sniffers.Protocol) d.(Sniffers.Domain) d.(Sniffers.Client) c.(DestinationAddresses) c.(DNSResponse)
    c.(DestinationAddressMatchFromResponse) c.(ProcessInfo) c.(SourceMACAddress) c.(SourceHostname) c.(QueryType)
    c.(IPCIDRMatchSource) c.(IPCIDRAcceptEmpty) c.(SourceAddressMatch) c.(SourcePortMatch) c.(DestinationAddressMatch)
    c.(DestinationPortMatch) c.(DidMatch) c.(IgnoreDestinationIPCIDRMatch).

(** What a sniffer has set, in the metadata of the connection. *)
Definition sniffed (m : Sniffed) (r : outcome (Metadata * option error)) : outcome (Sniffed * option error) :=
  match r with
  | Panic => Panic
  | Ret (d, e) => Ret ((withMeta d m.1, d.(Sniffers.SniffContext)), e)
  end.

Definition streamSniff (sniffer : StreamSniffer) (m : Sniffed) (buffers : list string) : outcome (Sniffed * option error) :=
  let reader := map to_bytes buffers in
  sniffed m
    match sniffer with
    | TLSClientHello => Sniffers.TLSClientHello (sniffMeta m) reader
    | HTTPHost => Sniffers.HTTPHost (sniffMeta m) reader
    | StreamDomainNameQuery => Sniffers.StreamDomainNameQuery (sniffMeta m) reader
    | BitTorrent => Sniffers.BitTorrent (sniffMeta m) reader
    | SSH => Sniffers.SSH (sniffMeta m) reader
    | RDP => Sniffers.RDP (sniffMeta m) reader
    end.

(** A sniffer whose loop does not end does not return either: it is a [Panic] here too. *)
Definition packetSniff (sniffer : PacketSniffer) (m : Sniffed) (packet : string) : outcome (Sniffed * option error) :=
  let packet := to_bytes packet in
  sniffed m
    match sniffer with
    | DomainNameQuery => Sniffers.DomainNameQuery (sniffMeta m) packet
    | QUICClientHello => match QUIC.QUICClientHello sniffFuel (sniffMeta m) packet with Some r => r | None => Panic end
    | STUNMessage => Sniffers.STUNMessage (sniffMeta m) packet
    | UTP => Sniffers.UTP (sniffMeta m) packet
    | UDPTracker => Sniffers.UDPTracker (sniffMeta m) packet
    | DTLSRecord => Sniffers.DTLSRecord (sniffMeta m) packet
    | NTP => Sniffers.NTP (sniffMeta m) packet
    end.

(** The loop over the sniffers in [PeekStream]: [E.Errors(sniffError, err)]. *)
Fixpoint tryStream (sniffers : list StreamSniffer) (m : Sniffed) (buffers : list string) (sniffError : option error)
  : outcome (Sniffed * bool * option error) :=
  match sniffers with
  | [] => Ret (m, false, sniffError)
  | sniffer :: rest =>
      '(m, e) ← streamSniff sniffer m buffers;
      match e with
      | None => Ret (m, true, None)
      | Some e => tryStream rest m buffers (E_Errors (match sniffError with Some e0 => [e0; e] | None => [e] end))
      end
  end.

(** [PeekStream]: [first] is [i == 0], [buffer] what has been read so far. *)
Fixpoint PeekStream (reads : list StreamEvent) (sniffers : list StreamSniffer) (m : Sniffed) (buffers : list string)
    (buffer : string) (first : bool) (sniffError : option error)
  : outcome (Sniffed * string * list StreamEvent * option error) :=
  let failed (e : error) (rest : list StreamEvent) :=
    Ret (m, buffer, rest, if first then Some (E_Cause e ["read payload"]) else sniffError) in
  match reads with
  | [] => failed DeadlineExceeded []
  | StreamDeadlineError e :: rest => Ret (m, buffer, rest, Some (E_Cause e ["set read deadline"]))
  | StreamError e :: rest => failed e rest
  | StreamData bytes :: rest =>
      let buffer := buffer +:+ bytes in
      '(m, found, e) ← tryStream sniffers m (buffers ++ [buffer]) None;
      if (found : bool) then Ret (m, buffer, rest, None)
      else if match e with Some e => isNeedMoreData e | None => false end
      then PeekStream rest sniffers m buffers buffer false e
      else Ret (m, buffer, rest, e)
  end.

(** [PeekPacket] *)
Fixpoint tryPacket (sniffers : list PacketSniffer) (m : Sniffed) (packet : string) (errors : list error)
  : outcome (Sniffed * option error) :=
  match sniffers with
  | [] => Ret (m, E_Errors errors)
  | sniffer :: rest =>
      '(m, e) ← packetSniff sniffer m packet;
      match e with
      | None => Ret (m, None)
      | Some e => tryPacket rest m packet (errors ++ [e])
      end
  end.

Definition PeekPacket (m : Sniffed) (packet : string) (sniffers : list PacketSniffer) : outcome (Sniffed * option error) :=
  tryPacket sniffers m packet [].

Definition defaultStreamSniffers : list StreamSniffer := [TLSClientHello; HTTPHost; StreamDomainNameQuery; BitTorrent; SSH; RDP].
Definition defaultPacketSniffers : list PacketSniffer :=
  [DomainNameQuery; QUICClientHello; STUNMessage; UTP; UDPTracker; DTLSRecord; NTP].

Definition sniffedOf (c : RouteContext) : Sniffed := (c.(rcIn), c.(rcSniff)).

(** A previous attempt with the same sniffers has failed for good. *)
Definition sniffFailed (names : list string) (c : RouteContext) : bool :=
  bool_decide (c.(SnifferNames) = names) && match c.(SniffError) with Some e => negb (isNeedMoreData e) | None => false end.

(** [quicMoreData] *)
Definition quicMoreData (names : list string) (c : RouteContext) : bool :=
  bool_decide (c.(SnifferNames) = names) && match c.(SniffError) with Some e => isNeedMoreData e | None => false end.

Definition sniffSkipped (c : RouteContext) : bool := Skip c.(rcIn) || negb (String.eqb c.(rcIn).(Protocol) "").

(** The branch of [actionSniff] for streams: the new buffer, if anything was
    read. *)
Definition actionSniffStream (names : list string) (streams : list StreamSniffer) (packets : list PacketSniffer)
    (c : RouteContext) (buffers : list string) (reads : list StreamEvent)
  : outcome (RouteContext * option string * list StreamEvent) :=
  if sniffSkipped c then Ret (c, None, reads)
  else if negb (nonempty streams) && nonempty packets then Ret (c, None, reads)
  else if sniffFailed names c then Ret (c, None, reads)
  else
    let sniffers := if nonempty streams then streams else defaultStreamSniffers in
    '(m, buffer, reads, e) ← PeekStream reads sniffers (sniffedOf c) buffers "" true None;
    Ret (with_sniffed m names e c, if String.eqb buffer "" then None else Some buffer, reads).

(** One packet: after a part of a QUIC client hello only that sniffer is tried. *)
Definition sniffPacket (names : list string) (sniffers : list PacketSniffer) (c : RouteContext) (packet : string)
  : outcome (RouteContext * option error) :=
  '(m, e) ← PeekPacket (sniffedOf c) packet (if quicMoreData names c then [QUICClientHello] else sniffers);
  Ret (with_sniffed m names e c, e).

Definition needMore (e : option error) : bool := match e with Some e => isNeedMoreData e | None => false end.

(** The packets read for an earlier sniff action: [true] when all of them ask for
    more. *)
Fixpoint sniffKnown (names : list string) (sniffers : list PacketSniffer) (c : RouteContext) (l : list PacketBuffer)
  : outcome (RouteContext * bool) :=
  match l with
  | [] => Ret (c, true)
  | p :: rest =>
      '(c, e) ← sniffPacket names sniffers c p.(pbBytes);
      if needMore e then sniffKnown names sniffers c rest else Ret (c, false)
  end.

(** The loop that reads packets; the last component is the fatal error. *)
Fixpoint sniffNew (names : list string) (sniffers : list PacketSniffer) (c : RouteContext) (packetBuffers : list PacketBuffer)
    (reads : list PacketEvent) : outcome (RouteContext * list PacketBuffer * list PacketEvent * option error) :=
  match reads with
  | [] => Ret (c, packetBuffers, [], None)
  | PacketDone e :: rest => Ret (c, packetBuffers, rest, Some e)
  | PacketError e :: rest => Ret (c, packetBuffers, rest, if isDeadlineExceeded e then None else Some e)
  | PacketData p :: rest =>
      '(c, e) ← sniffPacket names sniffers c p.(pbBytes);
      let packetBuffers := packetBuffers ++ [p] in
      if needMore e then sniffNew names sniffers c packetBuffers rest else Ret (c, packetBuffers, rest, None)
  end.

(** The branch of [actionSniff] for packets: the packets it returns start with
    those it was given, when it reads any. *)
Definition actionSniffPacket (names : list string) (streams : list StreamSniffer) (packets : list PacketSniffer)
    (c : RouteContext) (inputPacketBuffers : list PacketBuffer) (reads : list PacketEvent)
  : outcome (RouteContext * list PacketBuffer * list PacketEvent * option error) :=
  if sniffSkipped c then Ret (c, [], reads, None)
  else if negb (nonempty packets) && nonempty streams then Ret (c, [], reads, None)
  else if sniffFailed names c then Ret (c, [], reads, None)
  else
    let sniffers := if nonempty packets then packets else defaultPacketSniffers in
    '(c, more) ← sniffKnown names sniffers c inputPacketBuffers;
    if (more : bool) then sniffNew names sniffers c inputPacketBuffers reads else Ret (c, [], reads, None).

End Context.
