(* ===== verification/RouteDispatch.v ===== *)
(** * The connection router

    [src/route/route.go]: the preparation of the metadata and the loop over the
    rules ([matchRule]), resolving ([actionResolve]), and the dispatch of
    connections, packet connections and packets to outbounds ([routeConnection],
    [routePacketConnection], [PreMatch]).

    The managers of outbounds, inbounds and DNS transports, the process searcher,
    the neighbour resolver, the fakeip store and the reverse mapping are what the
    router reads of them ([RouteView]).  A connection that is handed on is the
    input wrapped in layers ([RoutedConn]), in the order the code wraps it.
    Logging and the release of buffers are left out. *)

From S2P Require Import Prelude GoStrings GoTime RuleState RuleItems RuleMatch RuleBuild DNSRules DNSRouter DNSLookup RouteRules RouteRouter.

Local Open Scope string_scope.
Local Open Scope list_scope.
Local Open Scope Z_scope.

(** ** What the router looks at *)

Section View.
Context `{RE : RuleEnv}.

(** [adapter.Outbound]: its tag and networks, whether it is a
    [ConnectionHandlerEx], a [PacketConnectionHandlerEx] and a
    [DirectRouteOutbound]. *)
Record OutboundInfo := mkOutboundInfo {
  ob_Tag : string;
  ob_Network : list string;
  ob_ConnectionHandlerEx : bool;
  ob_PacketConnectionHandlerEx : bool;
  ob_DirectRouteOutbound : bool;
}.

(** [adapter.Inbound]: whether connections and packets can be injected. *)
Record InboundInfo := mkInboundInfo { in_TCPInjectable : bool; in_UDPInjectable : bool }.

(** [adapter.NeighborResolver], [adapter.FakeIPStore] *)
Record NeighborResolver := mkNeighborResolver {
  LookupMAC : Addr -> option string;
  LookupHostname : Addr -> option string;
}.
Record FakeIPStore := mkFakeIPStore { fs_Contains : Addr -> bool; fs_Lookup : Addr -> option string }.

Abbreviation AddrPort := (Addr * Z)%type.

Definition AddrPortOf (s : Socksaddr) : AddrPort := (s.(sockAddr), s.(sockPort)).

Record RouteView := mkRouteView {
  vNet : NetView;
  vSets : gmap string RuleSet;
  vProcess : option (string -> AddrPort -> AddrPort -> option ConnectionOwner);
  vNeighbor : option NeighborResolver;
  vFakeIP : option FakeIPStore;
  vReverseMapping : Addr -> option string;
  vTransports : gmap string DNSTransport;
  vOutbounds : gmap string OutboundInfo;
  vDefault : option OutboundInfo;
  vInbounds : gmap string InboundInfo;
  vTrackers : list string;
}.

End View.

(** The input connection, with what is left to read of it, under the layers put
    around it; [E] is an event of reading, [B] what one layer replays. *)
Inductive RoutedConn (E B : Type) :=
| InputConn (left : list E)
| CachedConn (inner : RoutedConn E B) (buffer : B)
| TrackedConn (inner : RoutedConn E B) (tracker : string) (rule : option Z) (outbound : option OutboundInfo)
| NATPacketConn (inner : RoutedConn E B) (origin destination : Socksaddr).
Arguments InputConn {E B} _.
Arguments CachedConn {E B} _ _.
Arguments TrackedConn {E B} _ _ _ _.
Arguments NATPacketConn {E B} _ _ _.

Definition cacheAll {E B} (buffers : list B) (conn : RoutedConn E B) : RoutedConn E B := fold_left CachedConn buffers conn.

Definition trackAll {E B} (trackers : list string) (rule : option Z) (outbound : option OutboundInfo) (conn : RoutedConn E B)
  : RoutedConn E B :=
  fold_left (fun conn tracker => TrackedConn conn tracker rule outbound) trackers conn.

Section Router.
Context {RE : RuleEnv} {DE : @DNSEnv RE} {LE : @LookupEnv RE DE} {AE : @ActionEnv RE} {RoE : @RouteEnv RE DE LE AE}.
Context (v : RouteView).

(** ** The metadata before the rules *)

Definition withProcessInfo (c : RouteContext) : RouteContext :=
  match v.(vProcess), c.(rcIn).(ProcessInfo) with
  | Some find, None =>
      let originDestination :=
        if socksIsValid c.(OriginDestination) then AddrPortOf c.(OriginDestination)
        else if socksIsIP c.(rcIn).(Destination) then AddrPortOf c.(rcIn).(Destination)
        else (AddrZero, 0) in
      match find c.(rcIn).(Network) (AddrPortOf c.(rcIn).(Source)) originDestination with
      | Some info => with_in (set_ProcessInfo (Some info) c.(rcIn)) c
      | None => c
      end
  | _, _ => c
  end.

Definition withNeighbor (c : RouteContext) : RouteContext :=
  let source := c.(rcIn).(Source).(sockAddr) in
  match v.(vNeighbor), c.(rcIn).(SourceMACAddress) with
  | Some resolver, None =>
      if addrIsValid source then
        let c := match resolver.(LookupMAC) source with
                 | Some mac => with_in (set_SourceMACAddress (Some mac) c.(rcIn)) c
                 | None => c
                 end in
        match resolver.(LookupHostname) source with
        | Some hostname => with_in (set_SourceHostname hostname c.(rcIn)) c
        | None => c
        end
      else c
  | _, _ => c
  end.

Definition isFakeAddress (a : Addr) : bool :=
  addrIsValid a && match v.(vFakeIP) with Some store => store.(fs_Contains) a | None => false end.

(** A fakeip destination becomes the domain it stands for; for other
    destinations the domain may be known from an earlier DNS answer. *)
Definition withDomainOfAddress (c : RouteContext) : result error RouteContext :=
  let d := c.(rcIn).(Destination) in
  if isFakeAddress d.(sockAddr) then
    match match v.(vFakeIP) with Some store => store.(fs_Lookup) d.(sockAddr) | None => None end with
    | None => Err (E_New ["missing fakeip record, try enable `experimental.cache_file`"])
    | Some domain =>
        if String.eqb domain "" then Ok c
        else Ok (mkRouteContext (set_Destination (mkSocksaddr AddrZero d.(sockPort) domain) c.(rcIn)) c.(InboundDetour)
                   c.(LastInbound) d c.(RouteOriginalDestination) c.(rcOptions) true c.(rcSniff) c.(SnifferNames)
                   c.(SniffError))
    end
  else if String.eqb c.(rcIn).(Domain) "" then
    match v.(vReverseMapping) d.(sockAddr) with
    | Some domain => Ok (with_in (set_Domain domain c.(rcIn)) c)
    | None => Ok c
    end
  else Ok c.

Definition withIPVersion (c : RouteContext) : RouteContext :=
  if socksIsIPv4 c.(rcIn).(Destination) then with_in (set_IPVersion 4 c.(rcIn)) c
  else if socksIsIPv6 c.(rcIn).(Destination) then with_in (set_IPVersion 6 c.(rcIn)) c
  else c.

Definition prepareMetadata (c : RouteContext) : result error RouteContext :=
  match withDomainOfAddress (withNeighbor (withProcessInfo c)) with
  | Err e => Err e
  | Ok c => Ok (withIPVersion c)
  end.

(** ** Actions that go on *)

Definition actionResolve (server : string) (o : DNSRouteOptions) (c : RouteContext) (dns : DNSState)
  : RouteContext * DNSState * option error :=
  if socksIsDomain c.(rcIn).(Destination) then
    match (if String.eqb server "" then Some None else Some <$> (v.(vTransports) !! server)) with
    | None => (c, dns, Some (E_New ["DNS server not found: "; server]))
    | Some transport =>
        let '(dns, (addresses, e)) :=
          dns_Lookup dns c.(rcIn) c.(rcIn).(Destination).(sockFqdn)
            (mkDNSQueryOptions transport o.(roStrategy) DomainStrategyAsIS o.(roDisableCache) o.(roRewriteTTL)
               o.(roClientSubnet)) in
        match e with
        | Some e => (c, dns, Some e)
        | None => (with_in (set_DestinationAddresses addresses c.(rcIn)) c, dns, None)
        end
    end
  else (c, dns, None).

(** Which of [inputConn] and [inputPacketConn] is not nil. *)
Inductive ConnKind := StreamInput | PacketInput | NoInput.

(** What [matchRule] changes: the metadata, the buffers read so far, what the
    connection has left to read, and the DNS router. *)
Record MatchState := mkMatchState {
  msContext : RouteContext;
  msBuffers : list string;
  msPacketBuffers : list PacketBuffer;
  msStreamReads : list StreamEvent;
  msPacketReads : list PacketEvent;
  msDNS : DNSState;
}.

Definition with_context (c : RouteContext) (s : MatchState) : MatchState :=
  mkMatchState c s.(msBuffers) s.(msPacketBuffers) s.(msStreamReads) s.(msPacketReads) s.(msDNS).

(** [actionSniff], and what [matchRule] does with the buffers it returns. *)
Definition sniffStep (kind : ConnKind) (names : list string) (streams : list StreamSniffer)
    (packets : list PacketSniffer) (s : MatchState) : outcome (MatchState * option error) :=
  match kind with
  | StreamInput =>
      '(c, newBuffer, reads) ← actionSniffStream names streams packets s.(msContext) s.(msBuffers) s.(msStreamReads);
      Ret (mkMatchState c (match newBuffer with Some b => s.(msBuffers) ++ [b] | None => s.(msBuffers) end)
         s.(msPacketBuffers) reads s.(msPacketReads) s.(msDNS), None)
  | PacketInput =>
      '(c, newPacketBuffers, reads, e) ←
        actionSniffPacket names streams packets s.(msContext) s.(msPacketBuffers) s.(msPacketReads);
      Ret (mkMatchState c s.(msBuffers) (s.(msPacketBuffers) ++ newPacketBuffers) s.(msStreamReads) reads s.(msDNS), e)
  | NoInput => Ret (s, None)
  end.

Definition resolveStep (server : string) (o : DNSRouteOptions) (s : MatchState) : MatchState * option error :=
  let '(c, dns, e) := actionResolve server o s.(msContext) s.(msDNS) in
  (mkMatchState c s.(msBuffers) s.(msPacketBuffers) s.(msStreamReads) s.(msPacketReads) dns, e).

(** The rules of [Router.Initialize] ([src/route/router.go]). *)
Definition initializeRules (raw : list (OptionTree RouteOptions ActionOptions)) : outcome (result error (list RouteRule)) :=
  buildAll (fun options =>
      match validateNoNestedRuleActions options false with
      | Some e => Ret (Err e)
      | None => NewRule options false
      end) (fun i e => E_Cause e ["parse rule["; itoa i; "]"]) 0 raw.

(** ** The loop over the rules *)

Inductive StepResult := NextRule | SelectRule | StepFatal (e : error).

Definition ofStep (p : MatchState * option error) : outcome (MatchState * StepResult) :=
  Ret (p.1, match p.2 with Some e => StepFatal e | None => NextRule end).

(** The body of the loop for a rule that matches; a rule without action panics. *)
Definition matchedRule (preMatch supportBypass : bool) (kind : ConnKind) (action : RouteAction) (s : MatchState)
  : outcome (MatchState * StepResult) :=
  match action with
  | NoRouteAction => Panic
  | RuleActionRoute _ options => Ret (with_context (applyRouteOptions options s.(msContext)) s, SelectRule)
  | RuleActionRouteOptions options => Ret (with_context (applyRouteOptions options s.(msContext)) s, NextRule)
  | RuleActionBypass outbound _ =>
      Ret (s, if negb supportBypass && String.eqb outbound "" then NextRule else SelectRule)
  | RuleActionDirect => Ret (s, NextRule)
  | RouteReject _ _ | RuleActionHijackDNS => Ret (s, SelectRule)
  | RuleActionSniff names streams packets _ =>
      if negb preMatch then p ← sniffStep kind names streams packets s; ofStep p
      else if negb (String.eqb s.(msContext).(rcIn).(Network) NetworkICMP) then Ret (s, SelectRule)
      else Ret (s, NextRule)
  | RuleActionResolve server options => ofStep (resolveStep server options s)
  end.

Inductive MatchResult := Selected (rule : option (Z * RouteRule)) | MatchFatal (e : error).

(** The matched rule of a route rule, with the metadata it leaves. *)
Definition matchContext (rule : RouteRule) (c : RouteContext) : RouteContext * bool :=
  let '(i, matched) := ruleMatch v.(vNet) v.(vSets) rule.(rrTree) (ResetRuleCache c.(rcIn)) in (with_in i c, matched).

Fixpoint matchRulesFrom (preMatch supportBypass : bool) (kind : ConnKind) (i : Z) (rules : list RouteRule) (s : MatchState)
  : outcome (MatchState * MatchResult) :=
  match rules with
  | [] => Ret (s, Selected None)
  | currentRule :: rest =>
      let '(c, matched) := matchContext currentRule s.(msContext) in
      let s := with_context c s in
      if negb matched then matchRulesFrom preMatch supportBypass kind (i + 1) rest s
      else
        match matchedRule preMatch supportBypass kind currentRule.(rrAction) s with
        | Panic => Panic
        | Ret (s, NextRule) => matchRulesFrom preMatch supportBypass kind (i + 1) rest s
        | Ret (s, SelectRule) => Ret (s, Selected (Some (i, currentRule)))
        | Ret (s, StepFatal e) => Ret (s, MatchFatal e)
        end
  end.

Definition matchRule (rules : list RouteRule) (preMatch supportBypass : bool) (kind : ConnKind) (s : MatchState)
  : outcome (MatchState * MatchResult) :=
  match prepareMetadata s.(msContext) with
  | Err e => Ret (s, MatchFatal e)
  | Ok c => matchRulesFrom preMatch supportBypass kind 0 rules (with_context c s)
  end.

(** ** Dispatch *)

(** The counters of the rejecting rules, by index, and the DNS router. *)
Record RouterState := mkRouterState { rsDrops : gmap Z (list Z); rsDNS : DNSState }.

Inductive Dispatch (E B : Type) :=
| Returned (e : option error)
| Injected (inbound : string) (c : RouteContext)
| HijackedDNS (conn : RoutedConn E B) (buffers : list B) (c : RouteContext)
| Handed (toHandler : bool) (outbound : option OutboundInfo) (conn : RoutedConn E B) (c : RouteContext).

Arguments Returned {E B} _.
Arguments Injected {E B} _ _.
Arguments HijackedDNS {E B} _ _ _.
Arguments Handed {E B} _ _ _ _.

Definition supports (o : OutboundInfo) (network : string) : bool := List.existsb (String.eqb network) o.(ob_Network).

(** The outbound an action names, for connections of a network. *)
Definition selectOutbound (network label tag : string) : result error OutboundInfo :=
  match v.(vOutbounds) !! tag with
  | None => Err (E_New ["outbound not found: "; tag])
  | Some o => if supports o network then Ok o
              else Err (E_New [label; " is not supported by outbound: "; o.(ob_Tag)])
  end.

(** The detour of a legacy inbound. *)
Definition injectDetour {E B} (injectable : InboundInfo -> bool) (label : string) (c : RouteContext) : Dispatch E B :=
  if String.eqb c.(LastInbound) c.(InboundDetour) then
    Returned (Some (E_New ["routing loop on detour: "; c.(InboundDetour)]))
  else match v.(vInbounds) !! c.(InboundDetour) with
       | None => Returned (Some (E_New ["inbound detour not found: "; c.(InboundDetour)]))
       | Some detour =>
           if negb (injectable detour) then
             Returned (Some (E_New ["inbound detour is not "; label; " injectable: "; c.(InboundDetour)]))
           else Injected c.(InboundDetour)
                  (mkRouteContext (set_Inbound c.(InboundDetour) c.(rcIn)) "" c.(rcIn).(Inbound) c.(OriginDestination)
                     c.(RouteOriginalDestination) c.(rcOptions) c.(FakeIP) c.(rcSniff) c.(SnifferNames) c.(SniffError))
       end.

(** What [selectedRule] asks for: an outbound ([inl], which a bypass without
    outbound leaves nil), a rejection, or the hijacking of DNS. *)
Inductive Selection := ToOutbound (o : option OutboundInfo) | ToReject (i : Z) (method : string) (noDrop : bool) | ToDNS.

Definition selection (network label default_label : string) (rule : option (Z * RouteRule))
  : outcome (result error Selection) :=
  match rule with
  | None =>
      match v.(vDefault) with
      | None => Panic
      | Some o => Ret (if supports o network then Ok (ToOutbound (Some o))
                       else Err (E_New [label; default_label; o.(ob_Tag)]))
      end
  | Some (i, rule) =>
      Ret (match rule.(rrAction) with
           | RuleActionRoute outbound _ =>
               match selectOutbound network label outbound with Err e => Err e | Ok o => Ok (ToOutbound (Some o)) end
           | RuleActionBypass outbound _ =>
               if String.eqb outbound "" then Ok (ToOutbound None)
               else match selectOutbound network label outbound with Err e => Err e | Ok o => Ok (ToOutbound (Some o)) end
           | RouteReject method noDrop => Ok (ToReject i method noDrop)
           | RuleActionHijackDNS => Ok ToDNS
           | _ => Ok (ToOutbound None)
           end)
  end.

(** [action.Error] of the selected rule, except for the method [reply]. *)
Definition rejectConnection {E B} (label : string) (i : Z) (method : string) (noDrop : bool) (now : Z) (s : RouterState)
  : outcome (RouterState * Dispatch E B) :=
  if String.eqb method RuleActionRejectMethodReply then
    Ret (s, Returned (Some (E_New ["reject method `reply` is not supported for "; label; " connections"])))
  else
    match rejectRule i method noDrop now s.(rsDrops) with
    | Panic => Panic
    | Ret (drops, e) => Ret (mkRouterState drops s.(rsDNS), Returned e)
    end.

Definition deprecatedDestination (fqdn : string) : option error :=
  if String.eqb fqdn muxDestination then
    Some (E_New ["global multiplex is deprecated since sing-box v1.7.0, enable multiplex in Inbound fields instead."])
  else if String.eqb fqdn vmessMuxDestination then
    Some (E_New ["global multiplex (v2ray legacy) not supported since sing-box v1.7.0."])
  else if String.eqb fqdn uotMagicAddress then Some (E_New ["global UoT not supported since sing-box v1.7.0."])
  else if String.eqb fqdn uotLegacyMagicAddress then
    Some (E_New ["global UoT (legacy) not supported since sing-box v1.7.0."])
  else None.

Definition ruleIndex (rule : option (Z * RouteRule)) : option Z := fst <$> rule.

Definition routeConnection (rules : list RouteRule) (now : Z) (c : RouteContext) (reads : list StreamEvent) (s : RouterState)
  : outcome (RouterState * Dispatch StreamEvent string) :=
  if negb (String.eqb c.(InboundDetour) "") then Ret (s, injectDetour in_TCPInjectable "TCP" c)
  else
    let c := with_in (set_Network NetworkTCP c.(rcIn)) c in
    match deprecatedDestination c.(rcIn).(Destination).(sockFqdn) with
    | Some e => Ret (s, Returned (Some e))
    | None =>
        match matchRule rules false false StreamInput (mkMatchState c [] [] reads [] s.(rsDNS)) with
        | Panic => Panic
        | Ret (m, MatchFatal e) => Ret (mkRouterState s.(rsDrops) m.(msDNS), Returned (Some e))
        | Ret (m, Selected rule) =>
            let s := mkRouterState s.(rsDrops) m.(msDNS) in
            match selection NetworkTCP "TCP" " is not supported by default outbound: " rule with
            | Panic => Panic
            | Ret (Err e) => Ret (s, Returned (Some e))
            | Ret (Ok (ToReject i method noDrop)) => rejectConnection "TCP" i method noDrop now s
            | Ret (Ok ToDNS) => Ret (s, HijackedDNS (cacheAll m.(msBuffers) (InputConn m.(msStreamReads))) [] m.(msContext))
            | Ret (Ok (ToOutbound o)) =>
                let conn := trackAll v.(vTrackers) (ruleIndex rule) o (cacheAll m.(msBuffers) (InputConn m.(msStreamReads))) in
                Ret (s, Handed (match o with Some o => o.(ob_ConnectionHandlerEx) | None => false end) o conn m.(msContext))
            end
        end
    end.

Definition routePacketConnection (rules : list RouteRule) (now : Z) (c : RouteContext) (reads : list PacketEvent)
    (s : RouterState) : outcome (RouterState * Dispatch PacketEvent PacketBuffer) :=
  if negb (String.eqb c.(InboundDetour) "") then Ret (s, injectDetour in_UDPInjectable "UDP" c)
  else
    let c := with_in (set_Network NetworkUDP c.(rcIn)) c in
    match matchRule rules false false PacketInput (mkMatchState c [] [] [] reads s.(rsDNS)) with
    | Panic => Panic
    | Ret (m, MatchFatal e) => Ret (mkRouterState s.(rsDrops) m.(msDNS), Returned (Some e))
    | Ret (m, Selected rule) =>
        let s := mkRouterState s.(rsDrops) m.(msDNS) in
        let c := m.(msContext) in
        match selection NetworkUDP "UDP" " is not supported by outbound: " rule with
        | Panic => Panic
        | Ret (Err e) => Ret (s, Returned (Some e))
        | Ret (Ok (ToReject i method noDrop)) => rejectConnection "UDP" i method noDrop now s
        | Ret (Ok ToDNS) => Ret (s, HijackedDNS (InputConn m.(msPacketReads)) m.(msPacketBuffers) c)
        | Ret (Ok (ToOutbound o)) =>
            let conn := trackAll v.(vTrackers) (ruleIndex rule) o (cacheAll m.(msPacketBuffers) (InputConn m.(msPacketReads))) in
            let conn := if c.(FakeIP) then NATPacketConn conn c.(OriginDestination) c.(rcIn).(Destination) else conn in
            Ret (s, Handed (match o with Some o => o.(ob_PacketConnectionHandlerEx) | None => false end) o conn c)
        end
    end.

(** ** [PreMatch] *)

(** [NoDestination] is [nil, nil]; a direct route is what
    [NewDirectRouteConnection] of the outbound answers for this metadata, with
    the destination rewritten from the address of [origin] when it is given. *)
Inductive PreMatchResult :=
| NoDestination
| PreMatchError (e : error)
| DirectRoute (outbound : OutboundInfo) (c : RouteContext) (origin : option Addr).

(** A direct route through an outbound that is not a [DirectRouteOutbound] panics. *)
Definition directOutbound (network tag : string) : outcome (result error OutboundInfo) :=
  match v.(vOutbounds) !! tag with
  | None => Ret (Err (E_New ["outbound not found: "; tag]))
  | Some o =>
      if negb (supports o network) then Ret (Err (E_New [network; " is not supported by outbound: "; tag]))
      else if o.(ob_DirectRouteOutbound) then Ret (Ok o) else Panic
  end.

(** The last part of [PreMatch]: a domain is resolved to an address of the
    family of the source. *)
Definition directRoute (o : OutboundInfo) (c : RouteContext) (s : RouterState) : outcome (RouterState * PreMatchResult) :=
  if negb (socksIsDomain c.(rcIn).(Destination)) then Ret (s, DirectRoute o c None)
  else
    let v4 := socksIsIPv4 c.(rcIn).(Source) in
    let '(c, dns, e) :=
      if nonempty c.(rcIn).(DestinationAddresses) then (c, s.(rsDNS), None)
      else actionResolve "" (mkDNSRouteOptions (if v4 then DomainStrategyIPv4Only else DomainStrategyIPv6Only) false None None)
             c s.(rsDNS) in
    let s := mkRouterState s.(rsDrops) dns in
    match e with
    | Some e => Ret (s, PreMatchError e)
    | None =>
        match List.find (if v4 then Is4 else Is6) c.(rcIn).(DestinationAddresses) with
        | None => Ret (s, PreMatchError (E_New [if v4 then "no IPv4 address found for domain: "
                                                else "no IPv6 address found for domain: ";
                                                c.(rcIn).(Destination).(sockFqdn)]))
        | Some newDestination =>
            let c := with_in (set_Destination (mkSocksaddr newDestination 0 "") c.(rcIn)) c in
            Ret (s, DirectRoute o c (Some c.(OriginDestination).(sockAddr)))
        end
    end.

Definition PreMatch (rules : list RouteRule) (now : Z) (haveContext supportBypass : bool) (c : RouteContext) (s : RouterState)
  : outcome (RouterState * PreMatchResult) :=
  match matchRule rules true supportBypass NoInput (mkMatchState c [] [] [] [] s.(rsDNS)) with
  | Panic => Panic
  | Ret (m, MatchFatal e) => Ret (mkRouterState s.(rsDrops) m.(msDNS), PreMatchError e)
  | Ret (m, Selected rule) =>
      let s := mkRouterState s.(rsDrops) m.(msDNS) in
      let c := m.(msContext) in
      let network := c.(rcIn).(Network) in
      let toOutbound tag :=
        if negb haveContext then Ret (s, NoDestination)
        else match directOutbound network tag with
             | Panic => Panic
             | Ret (Err e) => Ret (s, PreMatchError e)
             | Ret (Ok o) => directRoute o c s
             end in
      match rule with
      | None =>
          if negb (String.eqb network NetworkICMP) then Ret (s, NoDestination)
          else match v.(vDefault) with
               | None => Panic
               | Some o =>
                   if negb (supports o network) then
                     Ret (s, PreMatchError (E_New [network; " is not supported by default outbound: "; o.(ob_Tag)]))
                   else if o.(ob_DirectRouteOutbound) then directRoute o c s else Panic
               end
      | Some (i, rule) =>
          match rule.(rrAction) with
          | RouteReject method noDrop =>
              if String.eqb method RuleActionRejectMethodReply && String.eqb network NetworkTCP then
                Ret (s, PreMatchError (E_New ["reject method `reply` is not supported for TCP connections"]))
              else if String.eqb method RuleActionRejectMethodReply && String.eqb network NetworkUDP then
                Ret (s, PreMatchError (E_New ["reject method `reply` is not supported for UDP connections"]))
              else
                match rejectRule i method noDrop now s.(rsDrops) with
                | Panic => Panic
                | Ret (drops, None) => Ret (mkRouterState drops s.(rsDNS), NoDestination)
                | Ret (drops, Some e) => Ret (mkRouterState drops s.(rsDNS), PreMatchError e)
                end
          | RuleActionBypass outbound _ =>
              if supportBypass then Ret (s, PreMatchError BypassedError) else toOutbound outbound
          | RuleActionRoute outbound _ => toOutbound outbound
          | _ => Ret (s, NoDestination)
          end
      end
  end.

End Router.

Arguments Returned {_ _ _} _.
Arguments Injected {_ _ _} _ _.
Arguments HijackedDNS {_ _ _} _ _ _.
Arguments Handed {_ _ _} _ _ _ _.
