(* ===== verification/RouteTheorems.v ===== *)
(** * Lemmas on the connection router

    What matching leaves of the metadata, an induction principle for the loop over
    the rules, and what sniffing does with the data it reads. *)

From S2P Require Import Prelude GoStrings GoTime RuleState RuleItems RuleMatch RuleBuild DNSRules DNSRouter DNSLookup RouteRules RouteRouter RouteDispatch.

Local Open Scope string_scope.
Local Open Scope list_scope.
Local Open Scope Z_scope.

(** ** Matching writes only the caches of the metadata *)

Section Matching.
Context `{RE : RuleEnv}.

Lemma groupStep_reset n items bit c s : ResetRuleCache (groupStep n items bit c s).1 = ResetRuleCache c.
Proof. unfold groupStep. destruct (nonempty items); reflexivity. Qed.

Lemma cidrStep_reset n b items bit c s : ResetRuleCache (cidrStep n b items bit c s).1 = ResetRuleCache c.
Proof. unfold cidrStep. destruct b, (has s bit); reflexivity. Qed.

Lemma matchAllItems_reset n items c : ResetRuleCache (matchAllItems n items c).1 = ResetRuleCache c.
Proof.
  revert c. induction items as [|item items IH]; intros c; [done|]. cbn.
  destruct (Match item n (set_DidMatch true c)); [rewrite IH|]; reflexivity.
Qed.

Lemma matchStates_reset {RS} n (ev : RS -> _) r c base :
  ResetRuleCache (matchStatesWithBase n ev r c base).1 = ResetRuleCache c.
Proof.
  unfold matchStatesWithBase. destruct (noItems r); [done|].
  repeat match goal with
  | |- context [groupStep ?n ?a ?b ?c ?d] =>
      let E := fresh "E" in pose proof (groupStep_reset n a b c d) as E; destruct (groupStep n a b c d); cbn [fst] in E
  | |- context [cidrStep ?n ?a ?b ?c ?d ?e] =>
      let E := fresh "E" in pose proof (cidrStep_reset n a b c d e) as E; destruct (cidrStep n a b c d e); cbn [fst] in E
  | |- context [matchAllItems ?n ?a ?b] =>
      let E := fresh "E" in pose proof (matchAllItems_reset n a b) as E; destruct (matchAllItems n a b) as [? []]; cbn [fst] in E
  end; cbn [negb]; [|cbn [fst]; congruence].
  destruct (ruleSetItem r);
    repeat match goal with |- context [if ?b then _ else _] => destruct b end; cbn [fst];
    try (match goal with |- ResetRuleCache (set_DidMatch true ?x) = _ => change (ResetRuleCache (set_DidMatch true x)) with (ResetRuleCache x) end);
    congruence.
Qed.

Lemma ruleMatch_reset {A} n sets (t : RuleTree (abstractDefaultRule RuleSetItem) A) c :
  ResetRuleCache (ruleMatch n sets t c).1 = ResetRuleCache c.
Proof. destruct t; [apply matchStates_reset|done]. Qed.

Lemma reset_idem c : ResetRuleCache (ResetRuleCache c) = ResetRuleCache c.
Proof. reflexivity. Qed.

End Matching.

(** ** The metadata along the rules *)

(** Who opened the connection, and where from: the inbound, the network, the
    source, the user. *)
Definition identity (i : InboundContext) : string * string * Socksaddr * string :=
  (i.(Inbound), i.(Network), i.(Source), i.(User)).

(** Sniffers write what they found out and leave the rest alone. *)
Definition kept (i j : InboundContext) : Prop := identity i = identity j /\ i.(Destination) = j.(Destination).

Lemma kept_trans i j k : kept i j -> kept j k -> kept i k.
Proof. unfold kept. intros [] []. split; congruence. Qed.

Lemma kept_refl i : kept i i.
Proof. done. Qed.

Section Sniffing.
Context {RE : RuleEnv} {DE : @DNSEnv RE} {LE : @LookupEnv RE DE} {AE : @ActionEnv RE} {RoE : @RouteEnv RE DE LE AE}.
Lemma sniffed_keeps m r m' e : sniffed m r = Ret (m', e) -> kept m'.1 m.1.
Proof. unfold sniffed. destruct r as [[d e']|]; [|done]. by intros [= <- <-]. Qed.

Lemma tryStream_keeps sniffers m b e m' f e' : tryStream sniffers m b e = Ret (m', f, e') -> kept m'.1 m.1.
Proof.
  revert m e. induction sniffers as [|x l IH]; intros m e; cbn [tryStream]; [by intros [= <- <- <-]|].
  destruct (streamSniff x m b) as [[m1 [e1|]]|] eqn:E; cbn; [| |done]; apply sniffed_keeps in E.
  - intros H. apply IH in H. by eapply kept_trans.
  - by intros [= <- <- <-].
Qed.

Lemma PeekStream_keeps reads sniffers m buffers buffer first e m' b r e' :
  PeekStream reads sniffers m buffers buffer first e = Ret (m', b, r, e') -> kept m'.1 m.1.
Proof.
  revert m buffer first e. induction reads as [|[bytes|x|x] reads IH]; intros m buffer first e; cbn [PeekStream];
    try by intros [= <- <- <- <-].
  destruct (tryStream _ _ _ _) as [[[m1 f] e1]|] eqn:E; cbn; [|done]. apply tryStream_keeps in E.
  destruct f; [by intros [= <- <- <- <-]|].
  destruct (match e1 with Some _ => _ | None => _ end); [|by intros [= <- <- <- <-]].
  intros H. apply IH in H. by eapply kept_trans.
Qed.

Lemma tryPacket_keeps sniffers m b e m' e' : tryPacket sniffers m b e = Ret (m', e') -> kept m'.1 m.1.
Proof.
  revert m e. induction sniffers as [|x l IH]; intros m e; cbn [tryPacket]; [by intros [= <- <-]|].
  destruct (packetSniff x m b) as [[m1 [e1|]]|] eqn:E; cbn; [| |done]; apply sniffed_keeps in E.
  - intros H. apply IH in H. by eapply kept_trans.
  - by intros [= <- <-].
Qed.

End Sniffing.

(** *** An invariant of every action is one of the loop *)

Section Invariant.
Context {RE : RuleEnv} {DE : @DNSEnv RE} {LE : @LookupEnv RE DE} {AE : @ActionEnv RE} {RoE : @RouteEnv RE DE LE AE}.
Context (v : RouteView).
Context (P : RouteContext -> Prop).
Context (Pcache : forall c i, ResetRuleCache i = ResetRuleCache c.(rcIn) -> P c -> P (with_in i c)).
Context (Poptions : forall o c, P c -> P (applyRouteOptions o c)).
Context (Paddresses : forall l c, P c -> P (with_in (set_DestinationAddresses l c.(rcIn)) c)).
Context (Psniffed : forall m names e c, kept m.1 c.(rcIn) -> P c -> P (with_sniffed m names e c)).

Lemma matchContext_inv r c : P c -> P (matchContext v r c).1.
Proof.
  intros H. unfold matchContext.
  pose proof (ruleMatch_reset v.(vNet) v.(vSets) (rrTree r) (ResetRuleCache (rcIn c))) as E.
  destruct (ruleMatch _ _ _ _) as [i b]; cbn in *. by apply Pcache.
Qed.

Lemma sniffPacket_inv names l c b c' e : sniffPacket names l c b = Ret (c', e) -> P c -> P c'.
Proof.
  unfold sniffPacket, PeekPacket. destruct (tryPacket _ _ _ _) as [[m e1]|] eqn:E; [|done]. intros [= <- <-] H.
  apply Psniffed; [|done]. by apply tryPacket_keeps in E.
Qed.

Lemma sniffKnown_inv names l c ps c' b : sniffKnown names l c ps = Ret (c', b) -> P c -> P c'.
Proof.
  revert c. induction ps as [|p ps IH]; intros c; cbn [sniffKnown]; [by intros [= <- <-]|].
  destruct (sniffPacket _ _ _ _) as [[c1 e]|] eqn:E; [|done]. cbn. intros H Hc. apply sniffPacket_inv in E; [|done].
  destruct (needMore e); [by eapply IH|by injection H as <- <-].
Qed.

Lemma sniffNew_inv names l c ps reads c' qs rest e : sniffNew names l c ps reads = Ret (c', qs, rest, e) -> P c -> P c'.
Proof.
  revert c ps. induction reads as [|[p|x|x] reads IH]; intros c ps; cbn [sniffNew]; try by intros [= <- _ _ _].
  destruct (sniffPacket _ _ _ _) as [[c1 e1]|] eqn:E; [|done]. cbn. intros H Hc. apply sniffPacket_inv in E; [|done].
  destruct (needMore e1); [by eapply IH|by injection H as <- _ _ _].
Qed.

Lemma actionSniffPacket_inv names st pk c ps reads c' qs rest e :
  actionSniffPacket names st pk c ps reads = Ret (c', qs, rest, e) -> P c -> P c'.
Proof.
  unfold actionSniffPacket. do 3 (case_match; [by intros [= <- _ _ _]|]).
  destruct (sniffKnown _ _ _ _) as [[c1 more]|] eqn:E; [|done]. cbn. intros HE Hc. apply sniffKnown_inv in E; [|done].
  destruct more; [by eapply sniffNew_inv|by injection HE as <- _ _ _].
Qed.

Lemma actionSniffStream_inv names st pk c bs reads c' b rest :
  actionSniffStream names st pk c bs reads = Ret (c', b, rest) -> P c -> P c'.
Proof.
  unfold actionSniffStream. do 3 (case_match; [by intros [= <- _ _]|]).
  destruct (PeekStream _ _ _ _ _ _ _) as [[[[m buffer] r] e]|] eqn:E; [|done]. intros [= <- _ _] Hc.
  apply PeekStream_keeps in E. by apply Psniffed.
Qed.

Lemma actionResolve_inv server o c dns : P c -> P (actionResolve v server o c dns).1.1.
Proof.
  intros H. unfold actionResolve. case_match; [|done]. case_match; [|done].
  destruct (dns_Lookup _ _ _ _) as [? [? [?|]]]; [done|by apply Paddresses].
Qed.

Lemma matchedRule_inv pre bypass kind a s s' r :
  matchedRule v pre bypass kind a s = Ret (s', r) -> P s.(msContext) -> P s'.(msContext).
Proof.
  intros E H. destruct a; cbn in E; try (injection E as <- <-; cbn; auto); try done.
  - unfold ofStep, sniffStep in E. destruct pre; cbn in E; [repeat case_match; by simplify_eq|].
    destruct kind; [| |by injection E as <- <-].
    + destruct (actionSniffStream _ _ _ _ _ _) as [[[c b] rest]|] eqn:K; [|done]. injection E as <- <-.
      by eapply actionSniffStream_inv.
    + destruct (actionSniffPacket _ _ _ _ _ _) as [[[[c qs] rest] e]|] eqn:K; [|done]. injection E as <- <-.
      by eapply actionSniffPacket_inv.
  - unfold ofStep, resolveStep. pose proof (actionResolve_inv server options _ s.(msDNS) H) as K.
    by destruct (actionResolve _ _ _ _ _) as [[? ?] ?].
Qed.

Lemma matchRulesFrom_inv pre bypass kind i rules s s' r :
  matchRulesFrom v pre bypass kind i rules s = Ret (s', r) -> P s.(msContext) -> P s'.(msContext).
Proof.
  revert i s. induction rules as [|x l IH]; intros i s; cbn [matchRulesFrom]; [by intros [= <- <-]|].
  intros E H. pose proof (matchContext_inv x _ H) as K. destruct (matchContext v x _) as [c []]; cbn [negb fst] in E, K; [|exact (IH _ _ E K)].
  destruct (matchedRule _ _ _ _ _ _) as [[s1 r1]|] eqn:E1; [|done].
  apply matchedRule_inv in E1; [|done]. destruct r1; simplify_eq; [exact (IH _ _ E E1)|done..].
Qed.

End Invariant.

(** ** What the connection router does

    Which rule is selected, where connections go and under which identity, what
    happens to the data sniffing has read, and that routing returns. *)

Section Router.
Context {RE : RuleEnv} {DE : @DNSEnv RE} {LE : @LookupEnv RE DE} {AE : @ActionEnv RE} {RoE : @RouteEnv RE DE LE AE}.
Context (v : RouteView).

(** ** The selected rule *)

Section Passing.
Context (pre bypass : bool) (kind : ConnKind).

(** Rules that were offered the connection in turn and let it go on, changing the
    state on the way. *)
Inductive passes : list RouteRule -> MatchState -> MatchState -> Prop :=
| passes_nil s : passes [] s s
| passes_skip r l s s' :
    (matchContext v r s.(msContext)).2 = false ->
    passes l (with_context (matchContext v r s.(msContext)).1 s) s' -> passes (r :: l) s s'
| passes_next r l s s1 s' :
    (matchContext v r s.(msContext)).2 = true ->
    matchedRule v pre bypass kind r.(rrAction) (with_context (matchContext v r s.(msContext)).1 s) = Ret (s1, NextRule) ->
    passes l s1 s' -> passes (r :: l) s s'.

(** The rule at which the loop stops, after [s] has become [s1]. *)
Definition takes (r : RouteRule) (s1 s' : MatchState) : Prop :=
  (matchContext v r s1.(msContext)).2 = true /\
  matchedRule v pre bypass kind r.(rrAction) (with_context (matchContext v r s1.(msContext)).1 s1) = Ret (s', SelectRule).

Lemma matchRulesFrom_passes i before after s s1 : passes before s s1 ->
  matchRulesFrom v pre bypass kind i (before ++ after) s
  = matchRulesFrom v pre bypass kind (i + Z.of_nat (length before)) after s1.
Proof.
  intros H. revert i. induction H as [s|r l s s' Hm _ IH|r l s s1 s' Hm Hn _ IH]; intros i; cbn [length app].
  - f_equal. lia.
  - cbn [matchRulesFrom]. destruct (matchContext v r _) as [c b]; cbn in Hm; subst b; cbn [negb].
    rewrite IH. f_equal. lia.
  - cbn [matchRulesFrom]. destruct (matchContext v r _) as [c b]; cbn in Hm, Hn; subst b; cbn [negb].
    rewrite Hn, IH. f_equal. lia.
Qed.

Lemma matchRulesFrom_stops i rules s s' res : matchRulesFrom v pre bypass kind i rules s = Ret (s', Selected res) ->
  match res with
  | None => passes rules s s'
  | Some (j, r) => exists before after s1, rules = before ++ r :: after /\ j = i + Z.of_nat (length before) /\
                     passes before s s1 /\ takes r s1 s'
  end.
Proof.
  revert i s. induction rules as [|x l IH]; intros i s; cbn [matchRulesFrom]; [intros [= <- <-]; constructor|].
  intros E. destruct (matchContext v x s.(msContext)) as [c []] eqn:Ec; cbn [negb] in E.
  - destruct (matchedRule _ _ _ _ _ _) as [[s1 [ | |e]]|] eqn:Em; try done.
    + apply IH in E. assert (Hp : forall l s', passes l s1 s' -> passes (x :: l) s s').
      { intros. eapply passes_next; rewrite ?Ec; [done|exact Em|done]. }
      destruct res as [[j r]|]; [|auto]. destruct E as (b & a & s2 & -> & -> & Hb & Ht).
      exists (x :: b), a, s2. repeat split; auto; try apply Ht. cbn [length]. lia.
    + simplify_eq. exists [], l, s. repeat split; [cbn; lia|constructor|by rewrite Ec|by rewrite Ec].
  - apply IH in E. assert (Hp : forall l s', passes l (with_context c s) s' -> passes (x :: l) s s').
    { intros. apply passes_skip; by rewrite Ec. }
    destruct res as [[j r]|]; [|auto]. destruct E as (b & a & s2 & -> & -> & Hb & Ht).
    exists (x :: b), a, s2. repeat split; auto; try apply Ht. cbn [length]. lia.
Qed.

End Passing.

(** Actions that leave the metadata alone unless they are selected: all but sniffing,
    resolving and the setting of route options. *)
Definition passive (a : RouteAction) : bool :=
  match a with
  | RuleActionRoute _ _ | RuleActionBypass _ _ | RuleActionDirect | RouteReject _ _ | RuleActionHijackDNS => true
  | _ => false
  end.

(** Actions that decide: a bypass does so for callers that support it, and for others
    when it names an outbound. *)
Definition final (bypass : bool) (a : RouteAction) : bool :=
  match a with
  | RuleActionRoute _ _ | RouteReject _ _ | RuleActionHijackDNS => true
  | RuleActionBypass tag _ => bypass || negb (String.eqb tag "")
  | _ => false
  end.

(** A rule holds of a connection on its own, with no match of another rule before it. *)
Definition holds (c : RouteContext) (r : RouteRule) : bool :=
  (ruleMatch v.(vNet) v.(vSets) r.(rrTree) (ResetRuleCache c.(rcIn))).2.

(** The metadata without what matching caches in it. *)
Definition uncached (c : RouteContext) : RouteContext := with_in (ResetRuleCache c.(rcIn)) c.

(** What the selected rule makes of the metadata. *)
Definition selectedContext (rule : option (nat * RouteRule)) (c : RouteContext) : RouteContext :=
  match rule with
  | Some (_, r) => match r.(rrAction) with RuleActionRoute _ options => applyRouteOptions options c | _ => c end
  | None => c
  end.

Lemma uncached_options o c : uncached (applyRouteOptions o c) = applyRouteOptions o (uncached c).
Proof. unfold applyRouteOptions, uncached. destruct c. cbn. repeat case_match; done. Qed.

Lemma matchContext_holds r c c0 : uncached c = uncached c0 ->
  (matchContext v r c).2 = holds c0 r /\ uncached (matchContext v r c).1 = uncached c0.
Proof.
  intros E. unfold matchContext, holds. assert (Hi : ResetRuleCache (rcIn c) = ResetRuleCache (rcIn c0)) by exact (f_equal rcIn E).
  rewrite Hi. pose proof (ruleMatch_reset v.(vNet) v.(vSets) r.(rrTree) (ResetRuleCache c0.(rcIn))) as Hr.
  destruct (ruleMatch _ _ _ _) as [i b]. cbn in *. split; [done|]. rewrite reset_idem in Hr. unfold uncached in *. cbn. rewrite Hr.
  exact (f_equal (with_in (ResetRuleCache (rcIn c0))) E).
Qed.

Lemma first_from pre bypass kind c rules : forallb (fun r => passive r.(rrAction)) rules = true -> forall i s,
  uncached s.(msContext) = uncached c ->
  let rule := list_find (fun r => holds c r && final bypass r.(rrAction) = true) rules in
  exists c', matchRulesFrom v pre bypass kind i rules s =
      Ret (with_context c' s, Selected ((fun p => (i + Z.of_nat p.1, p.2)) <$> rule)) /\
    uncached c' = uncached (selectedContext rule c).
Proof.
  induction rules as [|r rules IH]; intros Hp i s Hs; cbn [matchRulesFrom list_find].
  { exists s.(msContext). split; [by destruct s|done]. }
  cbn [forallb] in Hp. apply andb_true_iff in Hp as [Ha Hp].
  destruct (matchContext_holds r s.(msContext) c Hs) as [Hm Hu].
  destruct (matchContext v r s.(msContext)) as [c1 m]. cbn [fst snd] in Hm, Hu. subst m.
  set (next := matchRulesFrom v pre bypass kind (i + 1) rules).
  assert (Hnext : holds c r && final bypass (rrAction r) = false ->
    let rule := if decide (holds c r && final bypass (rrAction r) = true) then Some (0%nat, r)
                else prod_map S id <$> list_find (fun r => holds c r && final bypass r.(rrAction) = true) rules in
    exists c', next (with_context c1 s) = Ret (with_context c' s, Selected ((fun p => (i + Z.of_nat p.1, p.2)) <$> rule)) /\
      uncached c' = uncached (selectedContext rule c)).
  { intros Hf. rewrite decide_False by (rewrite Hf; done).
    destruct (IH Hp (i + 1) (with_context c1 s) Hu) as (c' & E & Hc). exists c'. unfold next. rewrite E.
    destruct (list_find _ rules) as [[k r']|]; [|done]. split; [|done]. cbn [fmap option_fmap option_map prod_map fst snd].
    replace (i + Z.of_nat (S k)) with (i + 1 + Z.of_nat k) by lia. done. }
  destruct (holds c r) eqn:Hh; cbn [negb andb]; [|by apply Hnext].
  destruct (rrAction r) eqn:Er; try done; cbn [matchedRule final andb] in *; try (rewrite decide_True by done).
  - exists (applyRouteOptions options c1). split; [cbn; rewrite Z.add_0_r; done|]. cbn [selectedContext]. rewrite Er.
    by rewrite !uncached_options, Hu.
  - destruct bypass; cbn [negb andb orb] in *.
    + rewrite decide_True by done. exists c1. split; [cbn; rewrite Z.add_0_r; done|]. cbn [selectedContext]. by rewrite Er.
    + destruct (String.eqb outbound "") eqn:Eo; cbn [negb] in *; [by apply Hnext|].
      rewrite decide_True by done. exists c1. split; [cbn; rewrite Z.add_0_r; done|]. cbn [selectedContext]. by rewrite Er.
  - by apply Hnext.
  - exists c1. split; [cbn; rewrite Z.add_0_r; done|]. cbn [selectedContext]. by rewrite Er.
  - exists c1. split; [cbn; rewrite Z.add_0_r; done|]. cbn [selectedContext]. by rewrite Er.
Qed.

(** C12: among rules whose actions neither sniff, nor resolve, nor set route options
    before the end, the router selects the first one that holds of the connection on its
    own and whose action decides: what the rules before it have matched, and cached in
    the metadata, has no influence.  The metadata is the prepared one, but for those
    caches and for the route options of a selected [route] action; nothing is read from
    the connection, and the DNS router is not used. *)
Theorem first_selecting_rule pre bypass kind rules s c :
  prepareMetadata v s.(msContext) = Ok c -> forallb (fun r => passive r.(rrAction)) rules = true ->
  let rule := list_find (fun r => holds c r && final bypass r.(rrAction) = true) rules in
  exists c', matchRule v rules pre bypass kind s = Ret (with_context c' s, Selected ((fun p => (Z.of_nat p.1, p.2)) <$> rule)) /\
    uncached c' = uncached (selectedContext rule c).
Proof.
  intros Hc Hp rule. unfold matchRule. rewrite Hc.
  destruct (first_from pre bypass kind c rules Hp 0 (with_context c s) eq_refl) as (c' & E & Hu). exists c'. rewrite E. done.
Qed.

(** ** Pre-matching *)

(** The decision for a connection does not depend on the mode, if pre-matching did
    not stop at a sniff action. *)
Definition notSniff (a : RouteAction) : bool := match a with RuleActionSniff _ _ _ _ => false | _ => true end.

Lemma matchedRule_pre kind kind' a s s' res :
  matchedRule v true false kind a s = Ret (s', res) -> notSniff a = true \/ res = NextRule ->
  s.(msContext).(rcIn).(Network) <> NetworkICMP ->
  matchedRule v false false kind' a s = Ret (s', res).
Proof.
  intros E H Hn. destruct a; try exact E. cbn in E.
  rewrite (proj2 (String.eqb_neq _ _) Hn) in E. cbn in E. destruct H; simplify_eq; done.
Qed.

Definition networkOf (c : RouteContext) : string := c.(rcIn).(Network).

Lemma network_reset i j : ResetRuleCache i = ResetRuleCache j -> i.(Network) = j.(Network).
Proof. intros H. by apply (f_equal Network) in H. Qed.

Lemma options_identity o c : identity (applyRouteOptions o c).(rcIn) = identity c.(rcIn).
Proof. unfold applyRouteOptions. repeat case_match; reflexivity. Qed.

Lemma identity_reset i j : ResetRuleCache i = ResetRuleCache j -> identity i = identity j.
Proof. intros H. exact (f_equal identity H). Qed.

Lemma identity_inv x :
  (forall c i, ResetRuleCache i = ResetRuleCache c.(rcIn) -> identity c.(rcIn) = x -> identity (with_in i c).(rcIn) = x) /\
  (forall o c, identity c.(rcIn) = x -> identity (applyRouteOptions o c).(rcIn) = x) /\
  (forall l c, identity c.(rcIn) = x -> identity (with_in (set_DestinationAddresses l c.(rcIn)) c).(rcIn) = x) /\
  (forall m names e c, kept m.1 c.(rcIn) -> identity c.(rcIn) = x -> identity (with_sniffed m names e c).(rcIn) = x).
Proof.
  repeat split.
  - intros c i H <-. by apply identity_reset.
  - intros o c <-. apply options_identity.
  - intros l c <-. done.
  - intros m names e c [H _] <-. done.
Qed.

(** No rule changes who a connection belongs to. *)
Lemma matchRulesFrom_identity pre bypass kind i rules s s' r :
  matchRulesFrom v pre bypass kind i rules s = Ret (s', r) -> identity s'.(msContext).(rcIn) = identity s.(msContext).(rcIn).
Proof.
  destruct (identity_inv (identity s.(msContext).(rcIn))) as (H1 & H2 & H3 & H4).
  intros H. exact (matchRulesFrom_inv v (fun c => identity c.(rcIn) = identity s.(msContext).(rcIn)) H1 H2 H3 H4 _ _ _ _ _ _ _ _ H eq_refl).
Qed.

Lemma matchedRule_identity pre bypass kind a s s' r :
  matchedRule v pre bypass kind a s = Ret (s', r) -> identity s'.(msContext).(rcIn) = identity s.(msContext).(rcIn).
Proof.
  destruct (identity_inv (identity s.(msContext).(rcIn))) as (H1 & H2 & H3 & H4).
  intros H. exact (matchedRule_inv v (fun c => identity c.(rcIn) = identity s.(msContext).(rcIn)) H2 H3 H4 _ _ _ _ _ _ _ H eq_refl).
Qed.

Lemma matchContext_identity r c : identity (matchContext v r c).1.(rcIn) = identity c.(rcIn).
Proof. apply (matchContext_inv v (fun c' => identity c'.(rcIn) = identity c.(rcIn))); [|done]. apply identity_inv. Qed.

Lemma network_identity i j : identity i = identity j -> i.(Network) = j.(Network).
Proof. unfold identity. congruence. Qed.

Lemma prepare_identity c c' : prepareMetadata v c = Ok c' -> identity c'.(rcIn) = identity c.(rcIn).
Proof.
  unfold prepareMetadata.
  assert (H1 : identity (withNeighbor v (withProcessInfo v c)).(rcIn) = identity c.(rcIn)).
  { unfold withNeighbor, withProcessInfo. repeat case_match; reflexivity. }
  rewrite <- H1. generalize (withNeighbor v (withProcessInfo v c)). clear H1. intros d.
  destruct (withDomainOfAddress v d) as [e|] eqn:E; [|done]. intros [= <-].
  transitivity (identity e.(rcIn)); [unfold withIPVersion; repeat case_match; reflexivity|].
  unfold withDomainOfAddress in E. repeat case_match; simplify_eq; reflexivity.
Qed.

Lemma matchRulesFrom_pre kind i rules s s' res :
  s.(msContext).(rcIn).(Network) <> NetworkICMP ->
  matchRulesFrom v true false NoInput i rules s = Ret (s', Selected res) ->
  match res with Some (_, r) => notSniff r.(rrAction) = true | None => True end ->
  matchRulesFrom v false false kind i rules s = Ret (s', Selected res).
Proof.
  revert i s. induction rules as [|x l IH]; intros i s Hn; cbn [matchRulesFrom]; [done|].
  pose proof (matchContext_identity x s.(msContext)) as Hi. apply network_identity in Hi.
  destruct (matchContext v x _) as [c []]; cbn [negb fst] in Hi |- *; intros E Hr;
    [|apply IH; [by cbn; rewrite Hi|done|done]].
  destruct (matchedRule v true _ _ _ _) as [[s1 r1]|] eqn:Em; [|done].
  pose proof (matchedRule_identity _ _ _ _ _ _ _ Em) as Hi'. apply network_identity in Hi'. cbn in Hi'.
  apply (matchedRule_pre _ kind) in Em; [|destruct r1; simplify_eq; auto|by cbn; rewrite Hi].
  rewrite Em. destruct r1; [|done..]. apply IH; [by rewrite Hi', Hi|done|done].
Qed.

(** A pre-match that selects a rule other than a sniff action, or none, has
    decided as routing the connection itself will: the rule and the metadata are
    the same. *)
Theorem prematch_agrees kind rules s s' res :
  s.(msContext).(rcIn).(Network) <> NetworkICMP ->
  matchRule v rules true false NoInput s = Ret (s', Selected res) ->
  match res with Some (_, r) => notSniff r.(rrAction) = true | None => True end ->
  matchRule v rules false false kind s = Ret (s', Selected res).
Proof.
  intros Hn H Hr. unfold matchRule in *. destruct (prepareMetadata v s.(msContext)) as [c|e] eqn:Ep; [|done].
  apply (matchRulesFrom_pre kind) in H; [done| |done]. cbn. by rewrite (network_identity _ _ (prepare_identity _ _ Ep)).
Qed.

(** ** Where connections go *)

(** The outbound that a selected rule, or no rule, stands for. *)
Definition chosen (rules : list RouteRule) (rule : option Z) (o : OutboundInfo) : Prop :=
  match rule with
  | None => v.(vDefault) = Some o
  | Some i => exists (r : RouteRule) (tag : string) options, rules !! Z.to_nat i = Some r /\ v.(vOutbounds) !! tag = Some o /\
                (r.(rrAction) = RuleActionRoute tag options \/ r.(rrAction) = RuleActionBypass tag options /\ tag <> "")
  end.

Lemma selectOutbound_ok network label tag o : selectOutbound v network label tag = Ok o ->
  v.(vOutbounds) !! tag = Some o /\ supports o network = true.
Proof. unfold selectOutbound. repeat case_match; naive_solver. Qed.

(** Outside of pre-matching a rule is selected for an action that names an
    outbound, rejects or hijacks. *)
Lemma takes_action kind r s1 s' : takes false false kind r s1 s' ->
  match r.(rrAction) with
  | RuleActionRoute _ _ | RouteReject _ _ | RuleActionHijackDNS => True
  | RuleActionBypass tag _ => tag <> ""
  | _ => False
  end.
Proof.
  intros [_ E]. destruct (rrAction r); cbn in E; try done; try (unfold ofStep in E; repeat case_match; simplify_eq; done).
  2: destruct (sniffStep _ _ _ _ _) as [[? [?|]]|]; done.
  destruct (String.eqb_spec outbound ""); simplify_eq; done.
Qed.

Lemma selection_outbound network label dl kind rules s s' rule o :
  matchRule v rules false false kind s = Ret (s', Selected rule) ->
  selection v network label dl rule = Ret (Ok (ToOutbound o)) ->
  exists o', o = Some o' /\ supports o' network = true /\ chosen rules (ruleIndex rule) o'.
Proof.
  unfold matchRule. destruct (prepareMetadata _ _) as [c0|e0]; [|done]. intros Hm Hs. apply matchRulesFrom_stops in Hm.
  destruct rule as [[i r]|]; cbn in Hs |- *.
  - destruct Hm as (b & a & s1 & -> & -> & _ & Ht). apply takes_action in Ht.
    assert (Hr : (b ++ r :: a) !! Z.to_nat (0 + Z.of_nat (length b)) = Some r).
    { rewrite Z.add_0_l, Nat2Z.id. apply list_lookup_middle. done. }
    destruct (rrAction r) eqn:Ea; try done; injection Hs; clear Hs.
    + case_match eqn:Eo; [|done]. intros [= <-]. apply selectOutbound_ok in Eo as [? ?]. naive_solver.
    + rewrite (proj2 (String.eqb_neq _ _) Ht). case_match eqn:Eo; [|done]. intros [= <-].
      apply selectOutbound_ok in Eo as [? ?]. naive_solver.
  - case_match; [|done]. case_match; [|done]. simplify_eq. eauto.
Qed.

Lemma matchRule_identity rules pre bypass kind s s' r : matchRule v rules pre bypass kind s = Ret (s', r) ->
  identity s'.(msContext).(rcIn) = identity s.(msContext).(rcIn).
Proof.
  unfold matchRule. destruct (prepareMetadata _ _) eqn:E; [|by intros [= <- <-]].
  intros H. apply matchRulesFrom_identity in H. by rewrite H; cbn; apply prepare_identity.
Qed.

(** C8: a connection that is handed on goes to the outbound its rule names, or to
    the default one when no rule was selected; that outbound exists and supports
    TCP.  Every tracker has wrapped the connection, in their order and outside
    the data sniffing has read, for that rule and outbound, and the metadata
    still carries the inbound, source and user it came with. *)
Theorem connection_dispatch rules now c reads s s' h o conn c' :
  routeConnection v rules now c reads s = Ret (s', Handed h o conn c') ->
  identity c'.(rcIn) = (c.(rcIn).(Inbound), NetworkTCP, c.(rcIn).(Source), c.(rcIn).(User)) /\
  exists o' rule buffers left, o = Some o' /\ supports o' NetworkTCP = true /\ chosen rules rule o' /\
    h = o'.(ob_ConnectionHandlerEx) /\ conn = trackAll v.(vTrackers) rule o (cacheAll buffers (InputConn left)).
Proof.
  unfold routeConnection. case_match; [intros [= <- E]; unfold injectDetour in E; by repeat case_match|].
  case_match; [done|]. destruct (matchRule _ _ _ _ _ _) as [[m [rule|e]]|] eqn:Em; try done.
  destruct (selection _ _ _ _ _) as [[[o0|i method nd|]|e]|] eqn:Es; try done;
    [|unfold rejectConnection; by repeat case_match].
  intros [= <- <- <- <- <-]. split; [by apply matchRule_identity in Em|].
  destruct (selection_outbound _ _ _ _ _ _ _ _ _ Em Es) as (o' & -> & ? & ?). eexists _, _, _, _. eauto.
Qed.

(** The same for packet connections and UDP; for a fakeip destination the
    addresses of the packets are translated outside of the trackers. *)
Theorem packet_connection_dispatch rules now c reads s s' h o conn c' :
  routePacketConnection v rules now c reads s = Ret (s', Handed h o conn c') ->
  identity c'.(rcIn) = (c.(rcIn).(Inbound), NetworkUDP, c.(rcIn).(Source), c.(rcIn).(User)) /\
  exists o' rule buffers left, o = Some o' /\ supports o' NetworkUDP = true /\ chosen rules rule o' /\
    h = o'.(ob_PacketConnectionHandlerEx) /\
    conn = (if c'.(FakeIP) then fun inner => NATPacketConn inner c'.(OriginDestination) c'.(rcIn).(Destination) else id)
             (trackAll v.(vTrackers) rule o (cacheAll buffers (InputConn left))).
Proof.
  unfold routePacketConnection. case_match; [intros [= <- E]; unfold injectDetour in E; by repeat case_match|].
  destruct (matchRule _ _ _ _ _ _) as [[m [rule|e]]|] eqn:Em; try done.
  destruct (selection _ _ _ _ _) as [[[o0|i method nd|]|e]|] eqn:Es; try done;
    [|unfold rejectConnection; by repeat case_match].
  intros [= <- <- <- <- <-]. split; [by apply matchRule_identity in Em|].
  destruct (selection_outbound _ _ _ _ _ _ _ _ _ Em Es) as (o' & -> & ? & ?). eexists _, _, _, _.
  repeat split; eauto. by destruct (FakeIP (msContext m)).
Qed.

End Router.
