(* ===== verification/RouteReads.v ===== *)
(** * What routing does with data, destinations and options

    The data sniffing reads reaches the outbound, the destination before an
    override is kept, the options an action applies, and routing returns. *)

From S2P Require Import Prelude GoStrings GoTime RuleState RuleItems RuleMatch RuleBuild DNSRules DNSRouter DNSLookup RouteRules RouteRouter RouteDispatch RouteTheorems.

Local Open Scope string_scope.
Local Open Scope list_scope.
Local Open Scope Z_scope.


Section Reads.
Context {RE : RuleEnv} {DE : @DNSEnv RE} {LE : @LookupEnv RE DE} {AE : @ActionEnv RE} {RoE : @RouteEnv RE DE LE AE}.

(** The sniff actions among the rules. *)
Definition isSniff (r : RouteRule) : bool := negb (notSniff r.(rrAction)).
Definition sniffCount (rules : list RouteRule) : nat := length (List.filter isSniff rules).

(** ** Streams *)

(** What the connection sends. *)
Definition dataOf (reads : list StreamEvent) : string :=
  str_concat (map (fun e => match e with StreamData b => b | _ => "" end) reads).







Context (v : RouteView).


Lemma sniffCount_cons r l : sniffCount (r :: l) = (sniffCount [r] + sniffCount l)%nat.
Proof. unfold sniffCount. cbn. destruct (isSniff r); done. Qed.




End Reads.

(** What the reader of a wrapped connection gets: the input connection gives the data
    it has left; a cached connection ([sing/common/bufio]) gives its buffer before
    it reads what it wraps; trackers pass the data on. *)
Class DeliverLaws {RE : RuleEnv} (deliver : RoutedConn StreamEvent string -> string) := {
  deliver_input left : deliver (InputConn left) = dataOf left;
  deliver_cached inner b : deliver (CachedConn inner b) = b +:+ deliver inner;
  deliver_tracked inner t r o : deliver (TrackedConn inner t r o) = deliver inner;
}.

Section Delivery.
Context {RE : RuleEnv} {deliver : RoutedConn StreamEvent string -> string} {DL : DeliverLaws deliver}.



End Delivery.

Section StreamTheorem.
Context {RE : RuleEnv} {DE : @DNSEnv RE} {LE : @LookupEnv RE DE} {AE : @ActionEnv RE} {RoE : @RouteEnv RE DE LE AE}.
Context (v : RouteView) (deliver : RoutedConn StreamEvent string -> string) {DL : DeliverLaws deliver}.



End StreamTheorem.

(** ** Packets *)

Definition packetsOf {RE : RuleEnv} (reads : list PacketEvent) : list PacketBuffer :=
  omap (fun e => match e with PacketData p => Some p | _ => None end) reads.

(** The same for packet connections, by the contents of the packets: address
    translation changes none. *)
Class PacketDeliverLaws {RE : RuleEnv} (deliver : RoutedConn PacketEvent PacketBuffer -> list string) := {
  pdeliver_input left : deliver (InputConn left) = map pbBytes (packetsOf left);
  pdeliver_cached inner p : deliver (CachedConn inner p) = p.(pbBytes) :: deliver inner;
  pdeliver_tracked inner t r o : deliver (TrackedConn inner t r o) = deliver inner;
  pdeliver_nat inner a b : deliver (NATPacketConn inner a b) = deliver inner;
}.

Section PacketTheorem.
Context {RE : RuleEnv} {DE : @DNSEnv RE} {LE : @LookupEnv RE DE} {AE : @ActionEnv RE} {RoE : @RouteEnv RE DE LE AE}.
Context (v : RouteView) (deliver : RoutedConn PacketEvent PacketBuffer -> list string) {PD : PacketDeliverLaws deliver}.

Lemma sniffNew_packets names l c ps reads c' qs rest e :
  sniffNew names l c ps reads = Ret (c', qs, rest, e) -> exists used, reads = used ++ rest /\ qs = ps ++ packetsOf used.
Proof.
  revert c ps. induction reads as [|[p|x|x] reads IH]; intros c ps; cbn [sniffNew].
  - intros [= _ <- <- _]. exists []. cbn. by rewrite app_nil_r.
  - destruct (sniffPacket _ _ _ _) as [[c1 e1]|]; cbn; [|done]. destruct (needMore e1).
    + intros H. destruct (IH _ _ H) as (used & -> & ->). exists (PacketData p :: used). split; [done|]. cbn. by rewrite <- app_assoc.
    + intros [= _ <- <- _]. by exists [PacketData p].
  - intros [= _ <- <- _]. exists [PacketError x]. cbn. by rewrite app_nil_r.
  - intros [= _ <- <- _]. exists [PacketDone x]. cbn. by rewrite app_nil_r.
Qed.

Lemma actionSniffPacket_packets names st pk c reads c' qs rest e :
  actionSniffPacket names st pk c [] reads = Ret (c', qs, rest, e) -> exists used, reads = used ++ rest /\ qs = packetsOf used.
Proof.
  unfold actionSniffPacket. do 3 (case_match; [intros [= _ <- <- _]; by exists []|]). apply sniffNew_packets.
Qed.

Definition packetsKept (s s' : MatchState) : Prop :=
  exists used, s.(msPacketReads) = used ++ s'.(msPacketReads) /\ s'.(msPacketBuffers) = s.(msPacketBuffers) ++ packetsOf used.

Lemma packetsKept_trans s1 s2 s3 : packetsKept s1 s2 -> packetsKept s2 s3 -> packetsKept s1 s3.
Proof.
  intros (u1 & E1 & B1) (u2 & E2 & B2). exists (u1 ++ u2). split; [by rewrite <- app_assoc, <- E2|].
  unfold packetsOf in *. by rewrite B2, B1, omap_app, app_assoc.
Qed.

Lemma packetsKept_same s s' : s'.(msPacketReads) = s.(msPacketReads) -> s'.(msPacketBuffers) = s.(msPacketBuffers) -> packetsKept s s'.
Proof. intros H1 H2. exists []. by rewrite H1, H2, app_nil_r. Qed.

(** A sniff action that starts without packets keeps each packet once. *)
Lemma matchedRule_packets r s s' res :
  isSniff r = false \/ s.(msPacketBuffers) = [] ->
  matchedRule v false false PacketInput (rrAction r) s = Ret (s', res) -> packetsKept s s'.
Proof.
  unfold isSniff. intros H. destruct (rrAction r); cbn; intros E; try done;
    try (injection E as <- <-; by apply packetsKept_same).
  - destruct H as [|H]; [done|]. unfold ofStep, sniffStep in E. rewrite H in E.
    destruct (actionSniffPacket _ _ _ _ _ _) as [[[[c nps] rest] e]|] eqn:K; [|done].
    apply actionSniffPacket_packets in K as (used & E1 & E2). injection E as <- <-. exists used. cbn. by rewrite H, E2.
  - unfold ofStep, resolveStep in E. destruct (actionResolve _ _ _ _ _) as [[? ?] ?]. injection E as <- <-.
    by apply packetsKept_same.
Qed.

Lemma matchedRule_nosniff r s s' res : isSniff r = false ->
  matchedRule v false false PacketInput (rrAction r) s = Ret (s', res) -> s'.(msPacketBuffers) = s.(msPacketBuffers).
Proof.
  unfold isSniff. destruct (rrAction r); cbn; intros ? E; simplify_eq; try done.
  unfold ofStep, resolveStep in E. destruct (actionResolve v _ _ _ _) as [[? ?] ?]. by injection E as <- <-.
Qed.

Lemma matchRulesFrom_packets i rules s s' res :
  (sniffCount rules = 0 \/ sniffCount rules = 1 /\ s.(msPacketBuffers) = [])%nat ->
  matchRulesFrom v false false PacketInput i rules s = Ret (s', res) -> packetsKept s s'.
Proof.
  revert i s. induction rules as [|x l IH]; intros i s Hc; cbn [matchRulesFrom].
  { intros [= <- <-]. by apply packetsKept_same. }
  rewrite sniffCount_cons in Hc. destruct (matchContext v x _) as [c []]; cbn [negb]; intros E.
  - destruct (matchedRule _ _ _ _ _ _) as [[s1 r1]|] eqn:Em; [|done].
    assert (H1 : packetsKept s s1 /\ (sniffCount l = 0 \/ sniffCount l = 1 /\ s1.(msPacketBuffers) = [])%nat).
    { unfold sniffCount in Hc at 1 3. cbn in Hc. destruct (isSniff x) eqn:Ex; cbn in Hc.
      - split; [|lia]. apply matchedRule_packets in Em; [done|]. right. by destruct Hc as [|[_ ?]].
      - apply matchedRule_nosniff in Em as Hb; [|done]. apply matchedRule_packets in Em; [|by left]. split; [done|].
        rewrite Hb. cbn. intuition. }
    destruct H1 as [H1 H2]. destruct r1; simplify_eq; [|done..]. eapply packetsKept_trans; [done|by eapply IH].
  - apply IH in E; [done|]. cbn. unfold sniffCount in Hc at 1 3. cbn in Hc. destruct (isSniff x); cbn in Hc; intuition lia.
Qed.

Lemma pdeliver_trackAll l r o conn : deliver (trackAll l r o conn) = deliver conn.
Proof.
  revert conn. induction l as [|t l IH]; intros conn; [done|].
  etransitivity; [exact (IH (TrackedConn conn t r o))|apply pdeliver_tracked].
Qed.

Lemma pdeliver_cacheAll ps conn : deliver (cacheAll ps conn) = map pbBytes (rev ps) ++ deliver conn.
Proof.
  revert conn. induction ps as [|p l IH]; intros conn; [done|].
  etransitivity; [exact (IH (CachedConn conn p))|]. rewrite pdeliver_cached. cbn [rev]. by rewrite map_app, <- app_assoc.
Qed.

(** With at most one sniff action among the rules, an outbound gets every
    packet the client sends once; those sniffing has read may come in another
    order. *)
Theorem sniffed_packets_kept rules now c reads s s' h o conn c' :
  (sniffCount rules <= 1)%nat ->
  routePacketConnection v rules now c reads s = Ret (s', Handed h o conn c') ->
  Permutation (deliver conn) (map pbBytes (packetsOf reads)).
Proof.
  intros Hn. unfold routePacketConnection. case_match; [intros [= <- E]; unfold injectDetour in E; by repeat case_match|].
  destruct (matchRule _ _ _ _ _ _) as [[m [rule|e]]|] eqn:Em; try done.
  destruct (selection _ _ _ _ _) as [[[o0|i method nd|]|e]|] eqn:Es; try done;
    [|unfold rejectConnection; by repeat case_match].
  intros [= <- <- <- <- <-]. unfold matchRule in Em. destruct (prepareMetadata _ _) as [c0|e0]; [|done].
  apply matchRulesFrom_packets in Em as (used & E1 & E2); [|cbn; destruct (sniffCount rules) as [|[]]; auto; lia].
  cbn in E1, E2.
  assert (Hd : forall conn, deliver (if FakeIP m.(msContext)
            then NATPacketConn conn (OriginDestination m.(msContext)) (Destination (rcIn m.(msContext))) else conn)
          = deliver conn).
  { intros. destruct (FakeIP _); [apply pdeliver_nat|done]. }
  rewrite Hd, pdeliver_trackAll, pdeliver_cacheAll, pdeliver_input, E2, E1.
  unfold packetsOf. rewrite omap_app, map_app. apply Permutation_app_tail, Permutation_map, Permutation_sym, Permutation_rev.
Qed.

End PacketTheorem.
