(* ===== verification/RouteReturns.v ===== *)
(** * Routing returns, and what actions do to the metadata

    A router built from decoded options routes every connection without a panic;
    the destination before an override is kept; which options which action
    applies. *)

From S2P Require Import Prelude GoStrings GoTime GoCrypto GoBinary Sniffers GoAES QUIC RuleState RuleItems RuleMatch RuleBuild DNSRules DNSRouter DNSLookup RouteRules RouteRouter RouteDispatch RouteTheorems.

Local Open Scope string_scope.
Local Open Scope list_scope.
Local Open Scope Z_scope.

Section Returns.
Context {RE : RuleEnv} {DE : @DNSEnv RE} {LE : @LookupEnv RE DE} {AE : @ActionEnv RE} {RoE : @RouteEnv RE DE LE AE}.








(** ** Sniffing *)













Context (v : RouteView).















(** ** Destinations *)

(** The destination a connection had before the first override is recorded
    as the original destination; without an override the destination is the one
    it came with and nothing is recorded. *)
Theorem original_destination_kept rules pre bypass kind s c s' res :
  prepareMetadata v s.(msContext) = Ok c ->
  socksIsValid c.(rcIn).(Destination) = true -> socksIsValid c.(RouteOriginalDestination) = false ->
  matchRule v rules pre bypass kind s = Ret (s', res) ->
  s'.(msContext).(RouteOriginalDestination) = c.(rcIn).(Destination) \/
  (s'.(msContext).(RouteOriginalDestination) = c.(RouteOriginalDestination) /\
   s'.(msContext).(rcIn).(Destination) = c.(rcIn).(Destination)).
Proof.
  unfold matchRule. intros -> HD HO H.
  refine (matchRulesFrom_inv v (fun d => d.(RouteOriginalDestination) = c.(rcIn).(Destination) \/
    (d.(RouteOriginalDestination) = c.(RouteOriginalDestination) /\ d.(rcIn).(Destination) = c.(rcIn).(Destination)))
    _ _ _ _ _ _ _ _ _ _ _ _ H _); [| | | |cbn; by right].
  - intros d i E [K|[K1 K2]]; [by left|right]. split; [done|]. cbn. rewrite <- K2. exact (f_equal Destination E).
  - intros o d [K|[K1 K2]]; unfold applyRouteOptions.
    + left. rewrite K, HD, andb_false_r. by repeat case_match.
    + rewrite K1, HO, andb_true_r. destruct (socksIsValid (OverrideAddress o)), (0 <? OverridePort o); cbn; auto.
  - intros l d K. exact K.
  - intros m names e d [_ Hk] [K|[K1 K2]]; [by left|right]. split; [done|]. cbn. congruence.
Qed.

(** ** Options *)

Definition timeoutOf (s : MatchState) : Z := s.(msContext).(rcOptions).(UDPTimeout).

(** Of the actions built from options only [route-options] sets the UDP
    timeout: [route] leaves the one that was there whatever its options say, and
    [bypass] changes nothing at all. *)
Theorem udp_timeout_only_by_route_options a action pre bypass kind s s' res :
  NewRuleAction a = Ret (Ok action) -> matchedRule v pre bypass kind action s = Ret (s', res) ->
  (a.(act_Action) = RuleActionTypeRoute -> timeoutOf s' = timeoutOf s) /\
  (a.(act_Action) = RuleActionTypeBypass -> s' = s) /\
  (a.(act_Action) = RuleActionTypeRouteOptions ->
     timeoutOf s' = if 0 <? a.(act_RouteOptions).(raw_UDPTimeout) then a.(act_RouteOptions).(raw_UDPTimeout) else timeoutOf s).
Proof.
  assert (Ho : forall o d, (applyRouteOptions o d).(rcOptions).(UDPTimeout) =
            if 0 <? o.(ro_UDPTimeout) then o.(ro_UDPTimeout) else d.(rcOptions).(UDPTimeout)).
  { intros o d. unfold applyRouteOptions. cbn. destruct (0 <? ro_UDPTimeout o); [done|]. by repeat case_match. }
  intros Ha Hm. repeat split; intros E; unfold NewRuleAction in Ha; rewrite E in Ha; cbn in Ha; injection Ha as <-;
    cbn in Hm; injection Hm as <- <-; unfold timeoutOf; cbn [with_context msContext]; rewrite ?Ho; done.
Qed.

End Returns.
