(* ===== verification/RouteDemo.v ===== *)
(** * A concrete connection router

    Rules built from options, the sniffers with an HTTP parser for short texts, the
    demonstration DNS router behind [resolve]; the instances of the theorems on the connection
    router, and what a second sniff action does to the data of the first. *)

From S2P Require Import Prelude GoStrings GoTime GoCrypto GoBinary Sniffers GoAES QUIC QUICProps RuleState RuleItems RuleMatch RuleBuild RuleTheorems DNSRules DNSRouter DNSLookup DNSDemo RouteRules RouteRouter RouteDispatch RouteTheorems RouteReads RouteReturns.

Local Open Scope string_scope.
Local Open Scope list_scope.
Local Open Scope Z_scope.

Import RuleDemo DNSDemo.

Module RouteDemo.

#[export] Instance demoActions : ActionEnv (RE := demoEnv) := {|
  ParseSocksaddrHostPort := fun host port => mkSocksaddr AddrZero port host;
  socksIsValid := fun s => addrIsValid s.(sockAddr) || negb (String.eqb s.(sockFqdn) "");
  socksIsDomain := fun s => negb (String.eqb s.(sockFqdn) "");
  DialerOptions := unit;
  dialerOptionsSet := fun _ => false;
  noDialerOptions := tt;
  newDialer := fun _ => None;
|}.

(** Errors that contain the text of [ErrNeedMoreData] ask for more data. *)
#[export] Instance demoErrors : SniffErrors (EX := re_exceptions) := {|
  E_Cause1 := fun a b => (a +:+ ": " +:+ b : @error text_exceptions);
  isNeedMoreData := fun e => match String.index 0 "need more data" (e : @error text_exceptions) with Some _ => true | None => false end;
|}.

(** An HTTP request is text that starts with GET. *)
#[export] Instance demoLib : SniffLib (EX := re_exceptions) := {|
  Unpack := fun _ => Err ("bad message" : @error text_exceptions);
  tlsHandshake := fun _ => (None, "no client hello" : @error text_exceptions);
  ReadRequest := fun l => if String.prefix "GET" (bytes l) then Ok "www.example.com" else Err ("no request" : @error text_exceptions);
  hostAddress := fun s => s;
  isUnexpectedEOF := fun _ => false;
|}.

#[export] Instance demoRoute : RouteEnv (AE := demoActions) := {|
  ro_sniffErrors := demoErrors;
  ro_sniffLib := demoLib;
  ro_hkdf := QUICDemo.rfc5869;
  sniffFuel := 100;
  isDeadlineExceeded := fun e => String.eqb e "deadline";
  DeadlineExceeded := Errorf "deadline";
  DNSState := LookupState;
  dns_Lookup := fun s c domain options =>
    match Lookup (started fakeRaw).1 (queryEnv (started fakeRaw).2) 10 (fun _ => 0) true domain options c s with
    | Some (Ret result) => result
    | _ => (s, ([], Some (Errorf "lookup")))
    end;
  muxDestination := "sp.mux.sing-box.arpa";
  vmessMuxDestination := "v1.mux.cool";
  uotMagicAddress := "sp.v2.udp-over-tcp.arpa";
  uotLegacyMagicAddress := "sp.udp-over-tcp.arpa";
  BypassedError := Errorf "bypassed";
|}.

Fixpoint read (conn : RoutedConn StreamEvent string) : string :=
  match conn with
  | InputConn rest => dataOf rest
  | CachedConn inner b => b +:+ read inner
  | TrackedConn inner _ _ _ | NATPacketConn inner _ _ => read inner
  end.

#[export] Instance read_laws : DeliverLaws read.
Proof. by split. Qed.

Fixpoint readPackets (conn : RoutedConn PacketEvent PacketBuffer) : list string :=
  match conn with
  | InputConn rest => map pbBytes (packetsOf rest)
  | CachedConn inner p => p.(pbBytes) :: readPackets inner
  | TrackedConn inner _ _ _ | NATPacketConn inner _ _ => readPackets inner
  end.

#[export] Instance readPackets_laws : PacketDeliverLaws readPackets.
Proof. by split. Qed.

(** ** Rules *)

Definition actionOf (ty outbound : string) (o : RawRouteOptions) (sniffer : list string) : ActionOptions :=
  mkActionOptions ty outbound o o tt "" o "default" false sniffer 0 "" noRouteOptions.

(** A rule on the network and the protocol. *)
Definition ruleOf (network protocol : list string) (a : ActionOptions) : OptionTree RouteOptions ActionOptions :=
  OptionRule RuleTypeDefault
    (mkRouteOptions [] 0 network [] protocol [] [] [] [] [] [] [] [] [] false [] false [] [] [] [] [] [] [] [] [] [] "" []
       false false [] [] None None [] [] [] [] [] false false false a) "" [] false noRouteAction.

Definition overridePort : RawRouteOptions := mkRawRouteOptions "" 8443 None 0 false false 300 false 0 false.

Definition sniffRule (names : list string) := ruleOf ["tcp"; "udp"] [] (actionOf "sniff" "" noRawOptions names).

(** Sniff, then send HTTP and QUIC to [proxy] on another port. *)
Definition raw : list (OptionTree RouteOptions ActionOptions) :=
  [sniffRule []; ruleOf [] ["http"; "quic"] (actionOf "route" "proxy" overridePort [])].

(** Two sniff actions before the same rule. *)
Definition rawTwice (first second : list string) : list (OptionTree RouteOptions ActionOptions) :=
  [sniffRule first; sniffRule second; ruleOf [] ["http"; "quic"] (actionOf "route" "proxy" noRawOptions [])].

(** TCP is rejected. *)
Definition rawReject : list (OptionTree RouteOptions ActionOptions) :=
  [ruleOf ["udp"] [] (actionOf "sniff" "" noRawOptions []); ruleOf ["tcp"] [] (actionOf "reject" "" noRawOptions [])].

Definition built (l : list (OptionTree RouteOptions ActionOptions)) : list RouteRule :=
  match initializeRules l with Ret (Ok rules) => rules | _ => [] end.

Definition proxy : OutboundInfo := mkOutboundInfo "proxy" ["tcp"; "udp"] false false false.
Definition direct : OutboundInfo := mkOutboundInfo "direct" ["tcp"; "udp"; "icmp"] true true true.

Definition view : RouteView :=
  mkRouteView net demoSets None None None (fun _ => None) ∅ {[ "proxy" := proxy; "direct" := direct ]} (Some direct) ∅
    ["quota"; "speed"].

Definition noApplied : AppliedOptions := mkAppliedOptions None [] [] 0 false false 0 false 0 false.

Definition incoming : RouteContext :=
  mkRouteContext conn "" "" noSocksaddr noSocksaddr noApplied false None [] None.


Definition idle : RouterState := mkRouterState ∅ fresh.

Definition request : list StreamEvent := [StreamData "GET /"; StreamData "index"].

Definition packet (b : string) : PacketEvent := PacketData (mkPacketBuffer b (mkSocksaddr AddrZero 443 "example.com")).

(** The two packets of a QUIC client hello, the second part first. *)
Definition q1 : string := bytes QUICDemo.packet1.
Definition q2 : string := bytes QUICDemo.packet2.

Example built_run : length (built raw) = 2%nat /\ length (built (rawTwice ["tls"] ["http"])) = 3%nat.
Proof. vm_compute. done. Qed.

(** The connection of [alice] is sniffed as HTTP and goes to [proxy], port 8443. *)
Example route_run :
  match routeConnection view (built raw) 0 incoming request idle with
  | Ret (_, Handed h o conn c) =>
      o = Some proxy /\ read conn = "GET /index" /\ c.(rcIn).(User) = "alice" /\
      c.(rcIn).(Destination) = mkSocksaddr AddrZero 8443 "example.com" /\ c.(rcOptions).(UDPTimeout) = 0
  | _ => False
  end.
Proof. vm_compute. done. Qed.

End RouteDemo.

Import RouteDemo.

(** ** A second sniff action *)

(** A sniff action after one that has read data and not recognised it can
    spoil that data: a stream whose first part is [GET /] reaches the outbound
    with its parts in the wrong order.  The packets that one sniff action reads of
    a packet connection come out in reverse order too.  Both hold for all
    connections that read as the cached ones of the library do. *)
Theorem second_sniff_corrupts_data :
  (exists conn c s', routeConnection view (built (rawTwice ["tls"] ["http"])) 0 incoming request idle
       = Ret (s', Handed false (Some proxy) conn c) /\
     dataOf request = "GET /index" /\
     forall deliver, DeliverLaws deliver -> deliver conn = "indexGET /") /\
  (exists conn c s', routePacketConnection view (built raw) 0 incoming [packet q1; packet q2] idle
       = Ret (s', Handed false (Some proxy) conn c) /\
     forall deliver, PacketDeliverLaws deliver -> deliver conn = [q2; q1]).
Proof.
  split.
  - assert (E : match routeConnection view (built (rawTwice ["tls"] ["http"])) 0 incoming request idle with
      | Ret (_, Handed false (Some o) (TrackedConn (TrackedConn (CachedConn (CachedConn (InputConn []) a) b) _ _ _) _ _ _) _) =>
          o = proxy /\ a = "GET /" /\ b = "index"
      | _ => False end) by (vm_compute; done).
    destruct (routeConnection _ _ _ _ _ _) as [[s' []]|]; try done.
    repeat case_match; try done. destruct E as (-> & -> & ->). eexists _, _, _. split; [reflexivity|]. split; [reflexivity|].
    intros deliver DL. by rewrite !deliver_tracked, !deliver_cached, deliver_input.
  - assert (E : match routePacketConnection view (built raw) 0 incoming [packet q1; packet q2] idle with
      | Ret (_, Handed false (Some o) (TrackedConn (TrackedConn (CachedConn (CachedConn (InputConn []) a) b) _ _ _) _ _ _) _) =>
          o = proxy /\ pbBytes a = q1 /\ pbBytes b = q2
      | _ => False end) by (vm_compute; done).
    destruct (routePacketConnection _ _ _ _ _ _) as [[s' []]|]; try done.
    repeat case_match; try done. destruct E as (-> & Ea & Eb). eexists _, _, _. split; [reflexivity|].
    intros deliver DL. by rewrite !pdeliver_tracked, !pdeliver_cached, pdeliver_input, Ea, Eb.
Qed.

(** ** Instances of the theorems *)

(** Three rules that decide nothing before the end: the first is for UDP, the second
    hijacks DNS, the third routes the rest. *)
Definition rawPlain : list (OptionTree RouteOptions ActionOptions) :=
  [ruleOf ["udp"] [] (actionOf "reject" "" noRawOptions []); ruleOf [] ["dns"] (actionOf "hijack-dns" "" noRawOptions []);
   ruleOf ["tcp"] [] (actionOf "route" "proxy" overridePort [])].

Definition offered : MatchState := mkMatchState incoming [] [] request [] fresh.

Lemma first_selecting_rule_witness : exists c' r,
  matchRule view (built rawPlain) false false StreamInput offered = Ret (with_context c' offered, Selected (Some (2, r))) /\
  c'.(rcIn).(Destination) = mkSocksaddr AddrZero 8443 "example.com".
Proof.
  assert (Hp : forallb (fun r => passive r.(rrAction)) (built rawPlain) = true) by (vm_compute; reflexivity).
  destruct (first_selecting_rule view false false StreamInput (built rawPlain) offered incoming eq_refl Hp) as (c' & E & Hu).
  set (found := list_find _ _) in *.
  assert (Hf : (fun p => (p.1, Destination (rcIn (uncached (selectedContext (Some p) incoming))))) <$> found
    = Some (2%nat, mkSocksaddr AddrZero 8443 "example.com")) by (vm_compute; reflexivity).
  destruct found as [[k r]|]; [|discriminate Hf]. injection Hf as -> Hd. exists c', r. split; [exact E|].
  transitivity (Destination (rcIn (uncached c'))); [reflexivity|]. rewrite Hu. exact Hd.
Defined.

Lemma prematch_agrees_witness : exists s' r,
  matchRule view (built rawReject) false false StreamInput offered = Ret (s', Selected (Some (1, r))).
Proof.
  assert (E : match matchRule view (built rawReject) true false NoInput offered with
              | Ret (_, Selected (Some (1, r))) => notSniff r.(rrAction) | _ => false end = true) by (vm_compute; reflexivity).
  destruct (matchRule view (built rawReject) true false NoInput offered) as [[s' [[[[|[]|] r]|]|]]|] eqn:Em; try discriminate E.
  exists s', r. refine (prematch_agrees view StreamInput (built rawReject) offered s' (Some (1, r)) _ Em E).
  vm_compute. intros H. discriminate H.
Defined.

Lemma connection_dispatch_witness : exists o' rule,
  supports o' NetworkTCP = true /\ chosen view (built raw) rule o'.
Proof.
  assert (E : match routeConnection view (built raw) 0 incoming request idle with
              | Ret (_, Handed _ _ _ _) => true | _ => false end = true) by (vm_compute; reflexivity).
  destruct (routeConnection view (built raw) 0 incoming request idle) as [[s' [e|inb c|cn bs c|h o cn c']]|] eqn:Er; try discriminate E.
  destruct (connection_dispatch view (built raw) 0 incoming request idle s' h o cn c' Er) as (_ & o' & rule & _ & _ & _ & H1 & H2 & _).
  exists o', rule. split; [exact H1|exact H2].
Defined.

Lemma packet_connection_dispatch_witness : exists o' rule,
  supports o' NetworkUDP = true /\ chosen view (built raw) rule o'.
Proof.
  assert (E : match routePacketConnection view (built raw) 0 incoming [packet q1; packet q2] idle with
              | Ret (_, Handed _ _ _ _) => true | _ => false end = true) by (vm_compute; reflexivity).
  destruct (routePacketConnection view (built raw) 0 incoming [packet q1; packet q2] idle)
    as [[s' [e|inb c|cn bs c|h o cn c']]|] eqn:Er; try discriminate E.
  destruct (packet_connection_dispatch view (built raw) 0 incoming _ idle s' h o cn c' Er) as (_ & o' & rule & _ & _ & _ & H1 & H2 & _).
  exists o', rule. split; [exact H1|exact H2].
Defined.


Lemma sniffed_packets_kept_witness : exists h o conn c s',
  routePacketConnection view (built raw) 0 incoming [packet q1; packet q2] idle = Ret (s', Handed h o conn c) /\
  Permutation (readPackets conn) [q1; q2].
Proof.
  assert (E : match routePacketConnection view (built raw) 0 incoming [packet q1; packet q2] idle with
              | Ret (_, Handed _ _ _ _) => true | _ => false end = true) by (vm_compute; reflexivity).
  destruct (routePacketConnection view (built raw) 0 incoming [packet q1; packet q2] idle)
    as [[s' [e|inb c|cn bs c|h o cn c']]|] eqn:Er; try discriminate E.
  exists h, o, cn, c', s'. split; [reflexivity|]. refine (sniffed_packets_kept view readPackets (built raw) 0 incoming _ idle s' h o cn c' _ Er).
  vm_compute. repeat constructor.
Defined.



(** With the default sniffers, one packet of the QUIC sniffer's undoing stops the
    router: [routePacketConnection] panics. *)
Theorem quic_packet_stops_router :
  routePacketConnection view (built raw) 0 incoming [packet (bytes QUICDemo.longPacket)] idle = Panic.
Proof.
  assert (E : match routePacketConnection view (built raw) 0 incoming [packet (bytes QUICDemo.longPacket)] idle with
              | Panic => true | _ => false end = true) by (vm_compute; reflexivity).
  by destruct (routePacketConnection _ _ _ _ _ _).
Qed.

Lemma original_destination_kept_witness : exists s' res,
  matchRule view (built raw) false false StreamInput offered = Ret (s', res) /\
  (s'.(msContext).(RouteOriginalDestination) = mkSocksaddr AddrZero 443 "example.com" \/
   s'.(msContext).(rcIn).(Destination) = mkSocksaddr AddrZero 443 "example.com").
Proof.
  assert (E : match matchRule view (built raw) false false StreamInput offered with Ret _ => true | _ => false end = true)
    by (vm_compute; reflexivity).
  destruct (matchRule view (built raw) false false StreamInput offered) as [[s' res]|] eqn:Em; [|discriminate E].
  exists s', res. split; [reflexivity|].
  destruct (original_destination_kept view (built raw) false false StreamInput offered incoming s' res eq_refl eq_refl eq_refl Em)
    as [H|[_ H]]; [left|right]; exact H.
Defined.

Lemma udp_timeout_only_by_route_options_witness : exists s' res,
  matchedRule view false false PacketInput (RuleActionRoute "proxy" (routeActionOptions overridePort)) offered = Ret (s', res) /\
  timeoutOf s' = 0 /\ overridePort.(raw_UDPTimeout) = 300.
Proof.
  destruct (matchedRule view false false PacketInput (RuleActionRoute "proxy" (routeActionOptions overridePort)) offered)
    as [[s' res]|] eqn:Em; [|discriminate Em].
  exists s', res. split; [reflexivity|]. split; [|reflexivity].
  exact (proj1 (udp_timeout_only_by_route_options view (actionOf "route" "proxy" overridePort []) _ false false PacketInput
    offered s' res eq_refl Em) eq_refl).
Defined.
