(* ===== verification/Trojan.v ===== *)
(** * The Trojan protocol

    [src/transport/trojan]: keys, the requests and packets of a client, the users of a
    service and the requests it accepts.

    Bytes are integers.  A connection that is read is the list of the segments that
    arrive; one [Read] gives at most one of them.  What is written is the bytes; a
    buffer that is too small for them panics.  A payload that comes in a buffer has the
    room before it that [FrontHeadroom] asks for, as its callers see to. *)

From S2P Require Import Prelude GoStrings GoCrypto GoBinary RuleItems.

Local Open Scope string_scope.
Local Open Scope list_scope.
Local Open Scope Z_scope.

Definition KeyLength : nat := 56.
Definition CommandTCP : Z := 1.
Definition CommandUDP : Z := 3.
Definition CommandMux : Z := 0x7f.
Definition CRLF : list Z := [13; 10].

(** ** Keys *)

(** [sha256.New224]: the first 28 bytes, from other initial values. *)
Definition sha224_H0 : list Z :=
  [0xc1059ed8; 0x367cd507; 0x3070dd17; 0xf70e5939; 0xffc00b31; 0x68581511; 0x64f98fa7; 0xbefa4fa4].
Definition sha224 (l : list Z) : list Z :=
  let p := sha_pad l in
  take 28 (sha_blocks (length p) sha224_H0 p ≫= be_bytes 4).

(** [hex.Encode] *)
Definition hexDigit (d : Z) : Z := if d <? 10 then 48 + d else 87 + d.
Definition hexEncode (l : list Z) : list Z := l ≫= fun b => [hexDigit (b / 16); hexDigit (b mod 16)].

Definition Key (password : string) : list Z := hexEncode (sha224 (to_bytes password)).

(** ** Addresses on the wire *)

(** [M.SocksaddrSerializer], [E.Extend] and the errors of the buffer. *)
Class SocksaddrSerializer {EX : Exceptions} := {
  WriteAddrPort : Socksaddr -> result error (list Z);
  AddrPortLen : Socksaddr -> Z;
  ReadAddrPort : Rd Socksaddr;
  E_ExtendWith : error -> list string -> error;
  ErrShortBuffer : error;
}.

Section Trojan.
Context `{SS : SocksaddrSerializer}.

(** A buffer of [size] bytes that holds [b]. *)
Definition inBuffer (size : Z) (b : list Z) : outcome (list Z) := if size <? Z.of_nat (length b) then Panic else Ret b.

Definition uint16Bytes (n : Z) : list Z := be_bytes 2 (wrapu 16 n).

(** ** The client *)

(** The bytes of the writes, one after the other; nothing in the repository calls it. *)
Definition ClientHandshakeRaw (key : list Z) (command : Z) (destination : Socksaddr) (payload : list Z) : result error (list Z) :=
  match WriteAddrPort destination with
  | Err e => Err e
  | Ok addr => Ok (key ++ CRLF ++ [command] ++ addr ++ CRLF ++ (if (0 <? length payload)%nat then payload else []))
  end.

Definition ClientHandshake (key : list Z) (destination : Socksaddr) (payload : list Z) : outcome (result error (list Z)) :=
  let headerLen := Z.of_nat KeyLength + AddrPortLen destination + 5 in
  match WriteAddrPort destination with
  | Err e => Ret (Err e)
  | Ok addr => Ok <$> inBuffer (headerLen + Z.of_nat (length payload)) (key ++ CRLF ++ [CommandTCP] ++ addr ++ CRLF ++ payload)
  end.

(** The header is written into the room before the payload. *)
Definition ClientHandshakeBuffer (key : list Z) (destination : Socksaddr) (payload : list Z) : outcome (result error (list Z)) :=
  match WriteAddrPort destination with
  | Err e => Ret (Err e)
  | Ok addr =>
      match inBuffer (Z.of_nat KeyLength + AddrPortLen destination + 5) (key ++ CRLF ++ [CommandTCP] ++ addr ++ CRLF) with
      | Panic => Panic
      | Ret header => Ret (Ok (header ++ payload))
      end
  end.

(** The header and the payload are one write or two; the address is written twice. *)
Definition ClientHandshakePacket (key : list Z) (destination : Socksaddr) (payload : list Z) : outcome (result error (list Z)) :=
  let headerLen := Z.of_nat KeyLength + 2 * AddrPortLen destination + 9 in
  let payloadLen := Z.of_nat (length payload) in
  match WriteAddrPort destination with
  | Err e => Ret (Err e)
  | Ok addr =>
      match WriteAddrPort destination with
      | Err _ => Panic
      | Ok addr' =>
          match inBuffer headerLen (key ++ CRLF ++ [CommandUDP] ++ addr ++ CRLF ++ addr' ++ uint16Bytes payloadLen ++ CRLF) with
          | Panic => Panic
          | Ret header => Ret (Ok (header ++ payload))
          end
      end
  end.

Definition WritePacket (destination : Socksaddr) (payload : list Z) : outcome (result error (list Z)) :=
  match WriteAddrPort destination with
  | Err e => Ret (Err e)
  | Ok addr =>
      match inBuffer (AddrPortLen destination + 4) (addr ++ uint16Bytes (Z.of_nat (length payload)) ++ CRLF) with
      | Panic => Panic
      | Ret header => Ret (Ok (header ++ payload))
      end
  end.

(** [ClientConn] and [ClientPacketConn]: whether the header is written, and the
    bytes of a write. *)
Definition ClientConn_Write (key : list Z) (destination : Socksaddr) (headerWritten : bool) (p : list Z)
  : outcome (bool * result error (list Z)) :=
  if headerWritten then Ret (true, Ok p)
  else
    match ClientHandshake key destination p with
    | Panic => Panic
    | Ret (Err e) => Ret (false, Err e)
    | Ret (Ok b) => Ret (true, Ok b)
    end.

Definition ClientConn_WriteBuffer (key : list Z) (destination : Socksaddr) (headerWritten : bool) (buffer : list Z)
  : outcome (bool * result error (list Z)) :=
  if headerWritten then Ret (true, Ok buffer)
  else
    match ClientHandshakeBuffer key destination buffer with
    | Panic => Panic
    | Ret (Err e) => Ret (false, Err e)
    | Ret (Ok b) => Ret (true, Ok b)
    end.

Definition ClientPacketConn_WritePacket (key : list Z) (destination : Socksaddr) (headerWritten : bool) (p : list Z)
  : outcome (bool * result error (list Z)) :=
  pair true <$> (if headerWritten then WritePacket destination p else ClientHandshakePacket key destination p).

(** ** Reading *)

Definition rdCause {A} (m : Rd A) (what : string) : Rd A := fun l =>
  match m l with
  | Ret (Err e) => Ret (Err (E_Cause e [what]))
  | r => r
  end.

(** [rw.SkipN] *)
Definition SkipN (n : nat) : Rd () := rdBind (ReadFull n) (fun _ => rdRet tt).

(** [buffer.ReadFullFrom] for a buffer with [free] bytes. *)
Definition ReadFullFrom (free n : Z) : Rd (list Z) := if free <? n then rdErr ErrShortBuffer else ReadFull (Z.to_nat n).

(** Also [WaitReadPacket]. *)
Definition ReadPacket (free : Z) : Rd (Socksaddr * list Z) :=
  rdBind (rdCause ReadAddrPort "read destination") (fun destination =>
  rdBind (rdCause (ReadUint 2) "read chunk length") (fun n =>
  rdBind (rdCause (SkipN 2) "skip crlf") (fun _ =>
  rdBind (ReadFullFrom free n) (fun payload => rdRet (destination, payload))))).

(** ** The service *)

Section Service.
Context {K : Type} `{Countable K}.

Record Service := mkService { users : gmap K (list Z); keys : gmap (list Z) K; hasFallback : bool }.

Definition NewService (fallback : bool) : Service := mkService ∅ ∅ fallback.

Definition ErrUserExists : error := E_New ["user already exists"].

(** The loop of [UpdateUsers]; a missing password is an index out of range. *)
Fixpoint updateLoop (show : K -> string) (userList : list K) (passwordList : list string) (us : gmap K (list Z)) (ks : gmap (list Z) K)
  : outcome (result error (gmap K (list Z) * gmap (list Z) K)) :=
  match userList with
  | [] => Ret (Ok (us, ks))
  | user :: userList =>
      if bool_decide (is_Some (us !! user)) then Ret (Err ErrUserExists)
      else
        match passwordList with
        | [] => Panic
        | password :: passwordList =>
            let key := Key password in
            match ks !! key with
            | Some oldUser => Ret (Err (E_ExtendWith ErrUserExists ["password used by "; show oldUser]))
            | None => updateLoop show userList passwordList (<[ user := key ]> us) (<[ key := user ]> ks)
            end
        end
  end.

Definition UpdateUsers (show : K -> string) (userList : list K) (passwordList : list string) (s : Service) : outcome (Service * option error) :=
  match updateLoop show userList passwordList ∅ ∅ with
  | Panic => Panic
  | Ret (Err e) => Ret (s, Some e)
  | Ret (Ok (us, ks)) => Ret (mkService us ks s.(hasFallback), None)
  end.

(** What a connection is handed to: the bytes that follow are still to be read. *)
Inductive Accepted :=
| AcceptTCP (user : K) (destination : Socksaddr) (rest : list Z)
| AcceptUDP (user : K) (destination : Socksaddr) (rest : list Z)
| AcceptMux (user : K) (rest : list Z)
| ToFallback (stream : list Z).

(** One [Read] into [n] bytes: none at the end of the stream. *)
Definition connRead (n : nat) (segments : list (list Z)) : option (list Z * list (list Z)) :=
  match segments with
  | [] => None
  | segment :: rest => Some (take n segment, if (n <? length segment)%nat then drop n segment :: rest else rest)
  end.

(** The cached connection gives the header first. *)
Definition fallback (s : Service) (header rest : list Z) (e : error) : result error Accepted :=
  if s.(hasFallback) then Ok (ToFallback (header ++ rest)) else Err (E_ExtendWith e ["fallback disabled"]).

(** The request after the key. *)
Definition readRequest : Rd (Z * Socksaddr) :=
  rdBind (rdCause (SkipN 2) "skip crlf") (fun _ =>
  rdBind (rdCause (ReadUint 1) "read command") (fun command =>
  if negb (existsb (Z.eqb command) [CommandTCP; CommandUDP; CommandMux]) then rdErr (E_New ["unknown command "; itoa command])
  else
    rdBind (rdCause ReadAddrPort "read destination") (fun destination =>
    rdBind (rdCause (SkipN 2) "skip crlf") (fun _ => rdRet (command, destination))))).

Definition NewConnection (s : Service) (segments : list (list Z)) : outcome (result error Accepted) :=
  match connRead KeyLength segments with
  | None => Ret (Err ioEOF)
  | Some (key, rest) =>
      if negb (length key =? KeyLength)%nat then Ret (fallback s key (concat rest) (E_New ["bad request size"]))
      else
        match s.(keys) !! key with
        | None => Ret (fallback s key (concat rest) (E_New ["bad request"]))
        | Some user =>
            match readRequest (concat rest) with
            | Panic => Panic
            | Ret (Err e) => Ret (Err e)
            | Ret (Ok (command, destination, rest)) =>
                Ret (Ok (if command =? CommandTCP then AcceptTCP user destination rest
                         else if command =? CommandUDP then AcceptUDP user destination rest
                         else AcceptMux user rest))
            end
        end
  end.

End Service.

(** ** Multiplexed streams *)

(** What a buffered reader has not asked the connection for when [consumed] bytes were
    taken from it: it reads whole segments. *)
Fixpoint unreadAfter (consumed : nat) (segments : list (list Z)) : list Z :=
  match segments with
  | [] => []
  | segment :: rest => if (consumed <=? length segment)%nat then concat rest else unreadAfter (consumed - length segment) rest
  end.

(** The bytes the reader has in its buffer after the address are to be kept in a new
    buffer, of which as many are read as it holds, which is none. *)
Definition newMuxConnection0 (segments : list (list Z)) : outcome (result error (Z * Socksaddr * list Z)) :=
  match rdCause ReadByte "read command" (concat segments) with
  | Panic => Panic
  | Ret (Err e) => Ret (Err e)
  | Ret (Ok (command, stream)) =>
      match rdCause ReadAddrPort "read destination" stream with
      | Panic => Panic
      | Ret (Err e) => Ret (Err e)
      | Ret (Ok (destination, rest)) =>
          let unread := unreadAfter (length (concat segments) - length rest) segments in
          let buffered := (length rest - length unread)%nat in
          let cached := take 0 (take buffered rest) in
          if existsb (Z.eqb command) [CommandTCP; CommandUDP] then Ret (Ok (command, destination, cached ++ drop buffered rest))
          else Ret (Err (E_New ["unknown command "; itoa command]))
      end
  end.

End Trojan.

Example sha224_abc : be_words (sha224 (to_bytes "abc")) =
  [0x23097d22; 0x3405d822; 0x8642a477; 0xbda255b3; 0x2aadbce4; 0xbda0b3f7; 0xe36c9da7].
Proof. vm_compute. reflexivity. Qed.
