(* ===== verification/TrojanProps.v ===== *)
(** * Trojan: who is let in, and what is delivered *)

From S2P Require Import Prelude GoStrings GoCrypto GoBinary RuleItems Trojan.

Local Open Scope string_scope.
Local Open Scope list_scope.
Local Open Scope Z_scope.

(** ** Keys *)

Lemma sha_blocks_length fuel : forall st p, length st = 8%nat -> length (sha_blocks fuel st p) = 8%nat.
Proof.
  assert (forall kws st, length st = 8%nat -> length (foldl sha_round st kws) = 8%nat) as Hr.
  { induction kws as [|kw kws IH]; intros st Hs; [done|]. cbn [foldl]. apply IH. unfold sha_round.
    by destruct st as [|a [|b [|c [|d [|e [|f [|g [|h [|]]]]]]]]]. }
  induction fuel as [|fuel IH]; intros st p Hs; [done|]. cbn [sha_blocks]. destruct p; [done|]. apply IH.
  unfold sha_block. rewrite length_zip_with, Hr by done. lia.
Qed.

Lemma hexEncode_length l : length (hexEncode l) = (2 * length l)%nat.
Proof. unfold hexEncode. induction l as [|x l IH]; [done|]. cbn in *. lia. Qed.

Lemma Key_length p : length (Key p) = KeyLength.
Proof.
  unfold Key. rewrite hexEncode_length. unfold sha224. rewrite length_take.
  set (b := sha_blocks _ _ _). assert (length b = 8%nat) as Hb by (by apply sha_blocks_length).
  destruct b as [|b1 [|b2 [|b3 [|b4 [|b5 [|b6 [|b7 [|b8 [|]]]]]]]]]; try discriminate Hb. done.
Qed.

(** ** Addresses *)

Definition alphanumeric (c : Z) : bool := ((48 <=? c) && (c <=? 57)) || ((97 <=? c) && (c <=? 122)).

(** Labels of at most 63 letters, digits and inner hyphens; [n] is the length of the
    label so far. *)
Fixpoint labelsOk (n : nat) (b : list Z) : bool :=
  match b with
  | [] => (0 <? n)%nat
  | c :: b =>
      if c =? 46 then (0 <? n)%nat && labelsOk 0 b
      else
        (alphanumeric c || ((c =? 45) && (0 <? n)%nat && match b with next :: _ => negb (next =? 46) | [] => false end)) &&
        (n <? 63)%nat && labelsOk (S n) b
  end.

(** A host name in lower case that does not end like an address. *)
Definition hostName (b : list Z) : bool :=
  labelsOk 0 b && (length b <=? 253)%nat && match last b with Some c => (97 <=? c) && (c <=? 122) | None => false end.

(** Destinations the SOCKS format has a form of its own for: an IPv4 address, an IPv6
    address without a zone that is not a mapped IPv4 address, or a host name, each
    alone.  Other destinations are written as one of these. *)
Definition plainDestination (d : Socksaddr) : bool :=
  (0 <=? d.(sockPort)) && (d.(sockPort) <? 2 ^ 16) &&
  match d.(sockAddr), to_bytes d.(sockFqdn) with
  | AddrZero, b => hostName b
  | Addr4 v, [] => (0 <=? v) && (v <? 2 ^ 32)
  | Addr6 v "", [] => (0 <=? v) && (v <? 2 ^ 128) && negb (v / 2 ^ 32 =? 0xFFFF)
  | _, _ => false
  end.

(** What is written has the length announced; a plain destination is read back as it
    was written. *)
Class SerializerLaws {EX : Exceptions} (SS : SocksaddrSerializer) := {
  addr_reads : forall d w, plainDestination d = true -> WriteAddrPort d = Ok w -> reads ReadAddrPort w d;
  addr_length : forall d w, WriteAddrPort d = Ok w -> Z.of_nat (length w) = AddrPortLen d;
}.

Section Props.
Context {EX : Exceptions} {SS : SocksaddrSerializer} {SL : SerializerLaws SS}.

(** ** Readers *)

Lemma reads_cause {A} (m : Rd A) w a what : reads m w a -> reads (rdCause m what) w a.
Proof. intros H rest. unfold rdCause. by rewrite H. Qed.

Lemma reads_skip_n w : reads (SkipN (length w)) w tt.
Proof. unfold SkipN. eapply reads_map_eq; [done|]. apply reads_ReadFull. Qed.

Lemma reads_packet free d p addr : plainDestination d = true -> WriteAddrPort d = Ok addr ->
  Z.of_nat (length p) < 2 ^ 16 -> Z.of_nat (length p) <= free ->
  reads (ReadPacket free) (addr ++ uint16Bytes (Z.of_nat (length p)) ++ CRLF ++ p) (d, p).
Proof.
  intros Hd Ea Hp Hf. unfold ReadPacket. eapply reads_bind; [by apply reads_cause, addr_reads|]. cbv beta.
  eapply reads_bind; [apply reads_cause; unfold uint16Bytes, wrapu; rewrite Z.mod_small by lia; apply reads_ReadUint; cbn; lia|]. cbv beta.
  eapply reads_bind; [apply reads_cause, (reads_skip_n CRLF)|]. cbv beta. rewrite <- (app_nil_r p) at 2. eapply reads_bind; [|apply reads_ret].
  unfold ReadFullFrom. replace (free <? Z.of_nat (length p)) with false by lia. rewrite Nat2Z.id. apply reads_ReadFull.
Qed.

Lemma reads_request command d addr : existsb (Z.eqb command) [CommandTCP; CommandUDP; CommandMux] = true ->
  plainDestination d = true -> WriteAddrPort d = Ok addr -> reads readRequest (CRLF ++ [command] ++ addr ++ CRLF) (command, d).
Proof.
  intros Hin Hd Ea. assert (0 <= command < 256) as Hc.
  { cbn in Hin. unfold CommandTCP, CommandUDP, CommandMux in Hin. lia. }
  unfold readRequest. eapply reads_bind; [apply reads_cause, (reads_skip_n CRLF)|]. cbv beta.
  eapply reads_bind; [apply reads_cause, reads_uint8; lia|]. cbv beta. rewrite Hin. cbn [negb].
  eapply reads_bind; [by apply reads_cause, addr_reads|]. cbv beta. rewrite <- (app_nil_r CRLF).
  eapply reads_bind; [apply reads_cause, (reads_skip_n CRLF)|]. apply reads_ret.
Qed.

(** ** Users *)

Section Users.
Context {K : Type} `{Countable K}.

(** The user of an index with its key. *)
Definition pairOf (userList : list K) (passwordList : list string) (u : K) (key : list Z) : Prop :=
  exists i p, userList !! i = Some u /\ passwordList !! i = Some p /\ key = Key p.

Lemma pairOf_cons u p ul pl v key : pairOf (u :: ul) (p :: pl) v key <-> (v = u /\ key = Key p) \/ pairOf ul pl v key.
Proof.
  split.
  - intros ([|i] & q & Hu & Hp & ->); cbn in *; simplify_eq; [by left|]. right. by exists i, q.
  - intros [[-> ->]|(i & q & ? & ? & ->)]; [by exists 0%nat, p|by exists (S i), q].
Qed.

Lemma updateLoop_keys show ul : forall pl us ks us' ks', updateLoop show ul pl us ks = Ret (Ok (us', ks')) ->
  forall key u, ks' !! key = Some u <-> ks !! key = Some u \/ pairOf ul pl u key.
Proof.
  induction ul as [|v ul IH]; intros pl us ks us' ks'; cbn [updateLoop].
  { intros [= <- <-] key u. split; [by left|]. intros [?|(i & p & Hi & _)]; [done|by rewrite lookup_nil in Hi]. }
  case_bool_decide; [done|]. destruct pl as [|p pl]; [done|]. destruct (ks !! Key p) as [?|] eqn:Ek; [done|].
  intros Hl key u. rewrite (IH _ _ _ _ _ Hl), pairOf_cons, lookup_insert_Some. split; [naive_solver|].
  intros [?|[[-> ->]|?]]; [|by left; left|by right]. left. right. split; [congruence|done].
Qed.

(** ** Requests *)

Definition acceptedAs (a : Accepted (K := K)) : option K :=
  match a with AcceptTCP u _ _ | AcceptUDP u _ _ | AcceptMux u _ => Some u | ToFallback _ => None end.

Lemma connRead_take n segments b rest : connRead n segments = Some (b, rest) -> b ++ concat rest = concat segments /\ b = take n (concat segments) \/ (length b < n)%nat /\ b ++ concat rest = concat segments.
Proof.
  unfold connRead. destruct segments as [|seg segs]; [done|]. intros [= <- <-]. cbn [concat].
  destruct (n <? length seg)%nat eqn:E; [apply Nat.ltb_lt in E|apply Nat.ltb_ge in E].
  - left. cbn [concat]. rewrite app_assoc, take_drop. split; [done|]. by rewrite take_app_le by lia.
  - destruct (decide (length seg = n)) as [<-|].
    + left. rewrite take_ge by lia. split; [done|]. by rewrite take_app_length.
    + right. rewrite take_ge by lia. split; [lia|done].
Qed.

(** A connection that is let in as a user has shown the key of that user. *)
Lemma NewConnection_sound show s0 s ul pl segments a u : UpdateUsers show ul pl s0 = Ret (s, None) ->
  NewConnection s segments = Ret (Ok a) -> acceptedAs a = Some u ->
  exists i p, ul !! i = Some u /\ pl !! i = Some p /\ take KeyLength (concat segments) = Key p.
Proof.
  intros Hu. unfold NewConnection. destruct (connRead KeyLength segments) as [[key rest]|] eqn:Er; [|done].
  assert (forall key rest e, fallback s key rest e = Ok a -> acceptedAs a = Some u -> False) as Hfb.
  { intros k r e. unfold fallback. destruct (hasFallback s); [by intros [= <-]|done]. }
  destruct (negb _) eqn:En; [intros [= Hx] Ha; by destruct (Hfb _ _ _ Hx)|].
  destruct (keys s !! key) as [v|] eqn:Ek; [|intros [= Hx] Ha; by destruct (Hfb _ _ _ Hx)].
  intros Hreq Ha. assert (v = u) as ->.
  { destruct (readRequest _) as [[[[cmd d] r]|]|]; [|done|done]. injection Hreq as <-. revert Ha.
    destruct (cmd =? CommandTCP); [by intros [= ->]|]. destruct (cmd =? CommandUDP); by intros [= ->]. }
  apply negb_false_iff, Nat.eqb_eq in En.
  destruct (connRead_take _ _ _ _ Er) as [[_ Hk]|[Hlt _]]; [|lia]. rewrite <- Hk.
  unfold UpdateUsers in Hu. destruct (updateLoop show ul pl ∅ ∅) as [[[us ks]|]|] eqn:El; [|done|done]. injection Hu as <-.
  apply (updateLoop_keys _ _ _ _ _ _ _ El) in Ek as [Ek|(i & p & ? & ? & ->)]; [by rewrite lookup_empty in Ek|]. by exists i, p.
Qed.

Lemma connRead_first n seg segs : (n <= length seg)%nat ->
  exists rest, connRead n (seg :: segs) = Some (take n (concat (seg :: segs)), rest) /\ concat rest = drop n (concat (seg :: segs)).
Proof.
  intros Hn. unfold connRead. exists (if (n <? length seg)%nat then drop n seg :: segs else segs).
  split; [cbn [concat]; by rewrite take_app_le by lia|]. cbn [concat].
  destruct (n <? length seg)%nat eqn:E; [apply Nat.ltb_lt in E|apply Nat.ltb_ge in E].
  - cbn [concat]. by rewrite drop_app_le by lia.
  - rewrite drop_app_ge by lia. by replace (n - length seg)%nat with 0%nat by lia.
Qed.

(** What a request with a command is accepted as. *)
Definition acceptAs (command : Z) (u : K) (d : Socksaddr) (rest : list Z) : Accepted :=
  if command =? CommandTCP then AcceptTCP u d rest else if command =? CommandUDP then AcceptUDP u d rest else AcceptMux u rest.

Lemma NewConnection_complete show s0 s ul pl i u p command d addr payload seg segs : UpdateUsers show ul pl s0 = Ret (s, None) ->
  ul !! i = Some u -> pl !! i = Some p -> existsb (Z.eqb command) [CommandTCP; CommandUDP; CommandMux] = true ->
  plainDestination d = true -> WriteAddrPort d = Ok addr ->
  concat (seg :: segs) = Key p ++ CRLF ++ [command] ++ addr ++ CRLF ++ payload -> (KeyLength <= length seg)%nat ->
  NewConnection s (seg :: segs) = Ret (Ok (acceptAs command u d payload)).
Proof.
  intros Hu Hi Hp Hc Hd Ha Hcat Hl. pose proof (reads_request command d addr Hc Hd Ha) as Hw.
  assert (concat (seg :: segs) = Key p ++ (CRLF ++ [command] ++ addr ++ CRLF) ++ payload) as Hcat' by (by rewrite Hcat, <- !app_assoc).
  clear Hcat. destruct (connRead_first KeyLength seg segs Hl) as (rest & E & Hrest). unfold NewConnection. rewrite E, Hcat'.
  rewrite Hcat' in Hrest. set (w := CRLF ++ _) in *.
  assert (take KeyLength (Key p ++ w ++ payload) = Key p) as -> by (rewrite <- (Key_length p); apply take_app_length).
  rewrite Key_length, Nat.eqb_refl. cbn [negb].
  unfold UpdateUsers in Hu. destruct (updateLoop show ul pl ∅ ∅) as [[[us ks]|]|] eqn:El; [|done|done]. injection Hu as <-.
  cbn [keys]. assert (ks !! Key p = Some u) as -> by (apply (updateLoop_keys _ _ _ _ _ _ _ El); right; by exists i, p).
  rewrite Hrest. rewrite <- (Key_length p) at 1. rewrite drop_app_length. by rewrite Hw.
Qed.

Lemma NewConnection_fallback (s : Service (K := K)) segments stream : NewConnection s segments = Ret (Ok (ToFallback stream)) -> stream = concat segments.
Proof.
  unfold NewConnection. destruct (connRead KeyLength segments) as [[key rest]|] eqn:Er; [|done].
  assert (key ++ concat rest = concat segments) as Hk by (destruct (connRead_take _ _ _ _ Er) as [[? _]|[_ ?]]; done).
  assert (forall e, fallback s key (concat rest) e = Ok (ToFallback stream) -> stream = concat segments) as Hfb.
  { intros e. unfold fallback. destruct (hasFallback s); [|done]. intros [= <-]. done. }
  destruct (negb _); [intros [= Hx]; by eapply Hfb|]. destruct (keys s !! key); [|intros [= Hx]; by eapply Hfb].
  destruct (readRequest _) as [[[[c d] r]|]|]; [|done|done]. destruct (c =? CommandTCP); [done|]. by destruct (c =? CommandUDP).
Qed.

(** ** What a client sends *)

(** The writes of a connection one after the other, each through [Write] or
    [WriteBuffer]. *)
Fixpoint connStream (key : list Z) (d : Socksaddr) (headerWritten : bool) (writes : list (bool * list Z)) : outcome (result error (list Z)) :=
  match writes with
  | [] => Ret (Ok [])
  | (buffered, p) :: writes =>
      match (if buffered then ClientConn_WriteBuffer else ClientConn_Write) key d headerWritten p with
      | Panic => Panic
      | Ret (_, Err e) => Ret (Err e)
      | Ret (headerWritten, Ok b) =>
          match connStream key d headerWritten writes with
          | Ret (Ok rest) => Ret (Ok (b ++ rest))
          | r => r
          end
      end
  end.

(** The packets of a packet connection one after the other. *)
Fixpoint packetStream (key : list Z) (headerWritten : bool) (packets : list (Socksaddr * list Z)) : outcome (result error (list Z)) :=
  match packets with
  | [] => Ret (Ok [])
  | (d, p) :: packets =>
      match ClientPacketConn_WritePacket key d headerWritten p with
      | Panic => Panic
      | Ret (_, Err e) => Ret (Err e)
      | Ret (headerWritten, Ok b) =>
          match packetStream key headerWritten packets with
          | Ret (Ok rest) => Ret (Ok (b ++ rest))
          | r => r
          end
      end
  end.

Lemma uint16Bytes_length n : length (uint16Bytes n) = 2%nat.
Proof. done. Qed.

Lemma inBuffer_fits size b : Z.of_nat (length b) = size -> inBuffer size b = Ret b.
Proof. intros <-. unfold inBuffer. by rewrite Z.ltb_irrefl. Qed.

Lemma ClientHandshake_bytes key d addr payload : length key = KeyLength -> WriteAddrPort d = Ok addr ->
  ClientHandshake key d payload = Ret (Ok (key ++ CRLF ++ [CommandTCP] ++ addr ++ CRLF ++ payload)) /\
  ClientHandshakeBuffer key d payload = Ret (Ok (key ++ CRLF ++ [CommandTCP] ++ addr ++ CRLF ++ payload)).
Proof.
  intros Hk Ha. pose proof (addr_length _ _ Ha) as Hal. unfold ClientHandshake, ClientHandshakeBuffer. rewrite Ha. split.
  - rewrite inBuffer_fits; [done|]. rewrite !length_app, Hk. cbn [length CRLF]. lia.
  - rewrite inBuffer_fits; [by rewrite <- !app_assoc|]. rewrite !length_app, Hk. cbn [length CRLF]. lia.
Qed.

Lemma connStream_written key d writes : connStream key d true writes = Ret (Ok (concat writes.*2)).
Proof.
  induction writes as [|[buffered p] writes IH]; [done|]. cbn [connStream].
  assert ((if buffered then ClientConn_WriteBuffer else ClientConn_Write) key d true p = Ret (true, Ok p)) as -> by (by destruct buffered).
  by rewrite IH.
Qed.

Lemma connStream_bytes key d addr writes : length key = KeyLength -> WriteAddrPort d = Ok addr -> writes <> [] ->
  connStream key d false writes = Ret (Ok (key ++ CRLF ++ [CommandTCP] ++ addr ++ CRLF ++ concat writes.*2)).
Proof.
  intros Hk Ha Hn. destruct writes as [|[buffered p] writes]; [done|]. cbn [connStream].
  destruct (ClientHandshake_bytes key d addr p Hk Ha) as [E1 E2].
  assert ((if buffered then ClientConn_WriteBuffer else ClientConn_Write) key d false p =
    Ret (true, Ok (key ++ CRLF ++ [CommandTCP] ++ addr ++ CRLF ++ p))) as ->.
  { destruct buffered; [unfold ClientConn_WriteBuffer; by rewrite E2|unfold ClientConn_Write; by rewrite E1]. }
  rewrite connStream_written. cbn [fmap list_fmap snd concat]. by rewrite <- !app_assoc.
Qed.

(** The bytes of a packet. *)
Definition packetBytes (packet : Socksaddr * list Z) : list Z :=
  match WriteAddrPort packet.1 with
  | Ok addr => addr ++ uint16Bytes (Z.of_nat (length packet.2)) ++ CRLF ++ packet.2
  | Err _ => []
  end.

Definition sendable (d : Socksaddr) : Prop := plainDestination d = true /\ exists addr, WriteAddrPort d = Ok addr.

Lemma WritePacket_bytes d p : sendable d -> WritePacket d p = Ret (Ok (packetBytes (d, p))).
Proof.
  intros [_ [addr Ha]]. pose proof (addr_length _ _ Ha). unfold WritePacket, packetBytes. cbn [fst snd]. rewrite Ha.
  rewrite inBuffer_fits; [by rewrite <- !app_assoc|]. rewrite !length_app. rewrite uint16Bytes_length. cbn [length CRLF]. lia.
Qed.

Lemma ClientHandshakePacket_bytes key d addr p : length key = KeyLength -> WriteAddrPort d = Ok addr ->
  ClientHandshakePacket key d p = Ret (Ok (key ++ CRLF ++ [CommandUDP] ++ addr ++ CRLF ++ packetBytes (d, p))).
Proof.
  intros Hk Ha. pose proof (addr_length _ _ Ha). unfold ClientHandshakePacket, packetBytes. cbn [fst snd]. rewrite Ha.
  rewrite inBuffer_fits; [by rewrite <- !app_assoc|]. rewrite !length_app, Hk. rewrite uint16Bytes_length. cbn [length CRLF]. lia.
Qed.

Lemma packetStream_bytes key packets : Forall (fun packet => sendable packet.1) packets ->
  packetStream key true packets = Ret (Ok (concat (map packetBytes packets))).
Proof.
  induction 1 as [|[d p] packets Hp _ IH]; [done|]. cbn [packetStream map concat]. unfold ClientPacketConn_WritePacket.
  rewrite WritePacket_bytes by done. cbn. by rewrite IH.
Qed.

(** Packets a client sends arrive. *)
Lemma packets_arrive (show : K -> string) (ul : list K) (pl : list string) s0 s i u p d0 p0 packets free :
  UpdateUsers show ul pl s0 = Ret (s, None) -> ul !! i = Some u -> pl !! i = Some p ->
  Forall (fun packet => sendable packet.1 /\ Z.of_nat (length packet.2) < 2 ^ 16 <= free) ((d0, p0) :: packets) ->
  exists b, packetStream (Key p) false ((d0, p0) :: packets) = Ret (Ok b) /\
    forall seg segs, concat (seg :: segs) = b -> (KeyLength <= length seg)%nat ->
    exists rest, NewConnection s (seg :: segs) = Ret (Ok (AcceptUDP u d0 rest)) /\
      readMany (S (length packets)) (ReadPacket free) rest = Ret (Ok ((d0, p0) :: packets, [])).
Proof.
  intros Hu Hi Hp Hall. inversion Hall as [|? ? [[Hd0 [addr0 Ha0]] Hb0] Hrest]; subst. cbn [fst] in Hd0, Ha0.
  cbn [packetStream]. unfold ClientPacketConn_WritePacket. rewrite (ClientHandshakePacket_bytes _ _ _ _ (Key_length p) Ha0). cbn -[concat CRLF packetBytes app].
  rewrite packetStream_bytes by (eapply Forall_impl; [exact Hrest|by intros ? []]). eexists. split; [done|]. intros seg segs Hcat Hl.
  exists (concat (map packetBytes ((d0, p0) :: packets))). split.
  - apply (NewConnection_complete show s0 s ul pl i u p CommandUDP d0 addr0); [done..| |done].
    rewrite Hcat. cbn [map concat]. by rewrite <- !app_assoc.
  - rewrite <- (app_nil_r (concat _)). apply (reads_readMany (ReadPacket free) packetBytes ((d0, p0) :: packets)).
    eapply Forall_impl; [exact Hall|]. intros [d q] [[Hd [addr Ha]] Hq]. cbn [fst snd] in *. unfold packetBytes. cbn [fst snd]. rewrite Ha.
    apply reads_packet; [done|done|lia|lia].
Qed.

(** C14: of a service whose users were set to pairs of users and passwords.  A connection
    that is accepted as a user, for any command, began with the key of that user's
    password.  Whatever a client with the password of a user writes to a connection, in
    any number of writes through [Write] or [WriteBuffer] (with buffers that have the room
    [FrontHeadroom] asks for), it sends without a panic, and
    when the key arrives in one piece the service accepts the connection as that user's,
    for the client's destination and with exactly the bytes written.  The packets, of
    less than 64 KiB, that a client writes to a packet connection are sent without a
    panic, accepted as that user's, and read back with their destinations and data in
    order.  Both are for destinations the address format has a form of its own for: an
    IPv4 address, an IPv6 address without a zone that is not a mapped one, or a host
    name.  A connection that is handed to the fallback has lost nothing. *)
Theorem trojan_requests (show : K -> string) (ul : list K) (pl : list string) s0 s :
  UpdateUsers show ul pl s0 = Ret (s, None) ->
  (forall segments a u, NewConnection s segments = Ret (Ok a) -> acceptedAs a = Some u ->
    exists i p, ul !! i = Some u /\ pl !! i = Some p /\ take KeyLength (concat segments) = Key p) /\
  (forall i u p d writes, ul !! i = Some u -> pl !! i = Some p -> sendable d -> writes <> [] ->
    exists b, connStream (Key p) d false writes = Ret (Ok b) /\
      forall seg segs, concat (seg :: segs) = b -> (KeyLength <= length seg)%nat ->
      NewConnection s (seg :: segs) = Ret (Ok (AcceptTCP u d (concat writes.*2)))) /\
  (forall i u p d0 p0 packets free, ul !! i = Some u -> pl !! i = Some p ->
    Forall (fun packet => sendable packet.1 /\ Z.of_nat (length packet.2) < 2 ^ 16 <= free) ((d0, p0) :: packets) ->
    exists b, packetStream (Key p) false ((d0, p0) :: packets) = Ret (Ok b) /\
      forall seg segs, concat (seg :: segs) = b -> (KeyLength <= length seg)%nat ->
      exists rest, NewConnection s (seg :: segs) = Ret (Ok (AcceptUDP u d0 rest)) /\
        readMany (S (length packets)) (ReadPacket free) rest = Ret (Ok ((d0, p0) :: packets, []))) /\
  (forall segments stream, NewConnection s segments = Ret (Ok (ToFallback stream)) -> stream = concat segments).
Proof.
  intros Hu. split; [|split; [|split]].
  - intros. by eapply NewConnection_sound.
  - intros i u p d writes Hi Hp [Hd [addr Ha]] Hn. eexists. split; [by apply connStream_bytes; [apply Key_length| |]|].
    intros seg segs Hcat Hl. by apply (NewConnection_complete show s0 s ul pl i u p CommandTCP d addr).
  - intros. by eapply packets_arrive.
  - apply NewConnection_fallback.
Qed.

End Users.
End Props.

(** ** Examples *)

Module TrojanDemo.
#[local] Existing Instance text_exceptions.

(** IPv4 addresses and host names as SOCKS writes them. *)
Definition readAddress : Rd Socksaddr :=
  rdBind (ReadUint 1) (fun t =>
  if t =? 1 then rdBind (ReadUint 4) (fun a => rdBind (ReadUint 2) (fun port => rdRet (mkSocksaddr (Addr4 a) port "")))
  else if t =? 3 then
    rdBind (ReadUint 1) (fun n => rdBind (ReadFull (Z.to_nat n)) (fun b =>
    rdBind (ReadUint 2) (fun port => rdRet (mkSocksaddr AddrZero port (bytes b)))))
  else rdErr (Errorf "unknown address type")).

#[export] Instance socks : SocksaddrSerializer := {|
  WriteAddrPort d :=
    if negb (plainDestination d) then Err (Errorf "bad address")
    else
      match d with
      | mkSocksaddr (Addr4 a) port _ => Ok ([1] ++ be_bytes 4 a ++ be_bytes 2 port)
      | mkSocksaddr AddrZero port fqdn =>
          Ok ([3] ++ be_bytes 1 (Z.of_nat (length (to_bytes fqdn))) ++ to_bytes fqdn ++ be_bytes 2 port)
      | _ => Err (Errorf "not an IPv4 address")
      end;
  AddrPortLen d := match d with mkSocksaddr AddrZero _ fqdn => 4 + Z.of_nat (length (to_bytes fqdn)) | _ => 7 end;
  ReadAddrPort := readAddress;
  E_ExtendWith e args := Errorf (Error e +:+ ": " +:+ str_concat args);
  ErrShortBuffer := Errorf "short buffer";
|}.

#[local] Arguments be_bytes : simpl never.

#[export] Instance socks_laws : SerializerLaws socks.
Proof.
  assert (forall (x y : list Z), Ok (E := error) x = Ok y -> y = x) as Hinj by congruence.
  split.
  - intros [[|a|] port fqdn] w Hd; cbn -[plainDestination to_bytes app]; rewrite Hd; cbn [negb]; [| |done]; intros ->%Hinj;
      unfold plainDestination in Hd; cbn [sockPort sockAddr sockFqdn] in Hd; rewrite !andb_true_iff in Hd; destruct Hd as [Hport Hd].
    + unfold hostName in Hd. rewrite !andb_true_iff, Nat.leb_le in Hd. unfold readAddress.
      eapply (reads_bind _ _ [3]); [by apply reads_uint8|]. cbn [Z.eqb Pos.eqb].
      eapply reads_bind; [apply reads_ReadUint; cbn; lia|]. rewrite Nat2Z.id.
      eapply reads_bind; [apply reads_ReadFull|]. rewrite bytes_to_bytes. eapply reads_map_eq; [done|]. apply reads_ReadUint. cbn. lia.
    + destruct (to_bytes fqdn) eqn:Ef; [|done]. rewrite !andb_true_iff in Hd. unfold readAddress.
      eapply (reads_bind _ _ [1]); [by apply reads_uint8|]. cbn [Z.eqb Pos.eqb].
      eapply reads_bind; [apply reads_ReadUint; cbn; lia|]. eapply reads_map_eq; [|apply reads_ReadUint; cbn; lia].
      assert (fqdn = "") as -> by (by rewrite <- (bytes_to_bytes fqdn), Ef). done.
  - intros [[|a|] port fqdn] w; cbn -[plainDestination to_bytes app]; destruct (plainDestination _); cbn [negb]; try done; intros ->%Hinj;
      rewrite !length_app, !be_bytes_length; cbn [length]; lia.
Qed.

Definition ul : list Z := [0; 1].
Definition pl : list string := ["secret"; "other"].
Definition service : Service (K := Z) :=
  match UpdateUsers itoa ul pl (NewService true) with Ret (s, _) => s | Panic => NewService true end.
Definition target : Socksaddr := mkSocksaddr (Addr4 0x01010101) 443 "".

Lemma service_updated : UpdateUsers itoa ul pl (NewService true) = Ret (service, None).
Proof. unfold service. vm_compute (UpdateUsers _ _ _ _). reflexivity. Qed.

Definition site : Socksaddr := mkSocksaddr AddrZero 80 "example.org".

Lemma trojan_requests_witness : exists b, connStream (Key "other") site false [(false, [1; 2]); (true, [3])] = Ret (Ok b) /\
  NewConnection service [b] = Ret (Ok (AcceptTCP 1 site [1; 2; 3])).
Proof.
  destruct (trojan_requests itoa ul pl (NewService true) service service_updated) as (_ & H & _).
  destruct (H 1%nat 1 "other" site [(false, [1; 2]); (true, [3])]) as (b & Hb & Ha); [reflexivity|reflexivity| |discriminate|].
  { split; [vm_compute; reflexivity|]. eexists. vm_compute. reflexivity. }
  exists b. split; [exact Hb|]. refine (Ha b [] (app_nil_r b) _).
  revert Hb. vm_compute. intros [= <-]. cbn. lia.
Defined.

Lemma packets_arrive_example : exists b, packetStream (Key "secret") false [(target, [1]); (site, [2; 3])] = Ret (Ok b) /\
  forall seg segs, concat (seg :: segs) = b -> (KeyLength <= length seg)%nat ->
  exists rest, NewConnection service (seg :: segs) = Ret (Ok (AcceptUDP 0 target rest)) /\
    readMany 2 (ReadPacket 65536) rest = Ret (Ok ([(target, [1]); (site, [2; 3])], [])).
Proof.
  apply (packets_arrive itoa ul pl (NewService true) service 0%nat 0 "secret" target [1] [(site, [2; 3])] 65536 service_updated);
    [reflexivity|reflexivity|].
  repeat (constructor; [split; [split; [vm_compute; reflexivity|eexists; vm_compute; reflexivity]|cbn; lia]|]). constructor.
Qed.

(** A multiplexed stream whose address and first data arrive together loses that data;
    when they arrive apart nothing is lost. *)
Theorem mux_first_data_lost :
  let header := [CommandTCP] ++ [1; 1; 1; 1; 1; 1; 187] in
  newMuxConnection0 [header ++ [1; 2; 3]; [4; 5]] = Ret (Ok (CommandTCP, target, [4; 5])) /\
  newMuxConnection0 [header; [1; 2; 3]; [4; 5]] = Ret (Ok (CommandTCP, target, [1; 2; 3; 4; 5])).
Proof. split; reflexivity. Qed.

End TrojanDemo.
