(* ===== verification/InboundUsers.v ===== *)
(** * The users of inbounds

    [ReplaceUsers] of the inbounds under [src/protocol]: how the list the user provider
    pushes becomes the credentials an inbound knows, and how a connection gets the
    user it is routed, counted and limited under.

    Two kinds of inbounds: those whose service knows users by their index in the list
    (VMess, VLESS, Trojan, Shadowsocks, TUIC, Hysteria), which look the name up again
    when the connection or a stream of it is handed on, and those that take the name
    from the authentication (HTTP, SOCKS, mixed, naive, AnyTLS, ShadowTLS).  The
    Trojan service is that of [Trojan]; the services of the other protocols and the
    authenticator are not part of the repository. *)

From S2P Require Import Prelude GoStrings GoTime GoCrypto GoBinary RuleItems Trojan TrojanProps UserProvider.

Local Open Scope string_scope.
Local Open Scope list_scope.
Local Open Scope Z_scope.

(** ** Services that know users by index *)

(** [UpdateUsers] with the indexes and the credentials; the proof of a credential a
    connection shows (the key of a password), and the index it authenticates. *)
Record IndexService {EX : Exceptions} (C : Type) := mkIndexService {
  isState : Type;
  isProof : Type;
  isShow : C -> isProof;
  isUpdate : list nat -> list C -> isState -> outcome (isState * option error);
  isAuth : isProof -> isState -> option nat;
}.
Arguments isState {_ _} _.
Arguments isProof {_ _} _.
Arguments isShow {_ _} _ _.
Arguments isUpdate {_ _} _ _ _ _.
Arguments isAuth {_ _} _ _ _.

(** What the inbounds rely on: a proof belongs to the credential of the index, and a
    refused update changes nothing. *)
Class IndexServiceLaws {EX : Exceptions} {C : Type} (svc : IndexService C) := {
  update_auth : forall indexes creds s s' c i, isUpdate svc indexes creds s = Ret (s', None) -> isAuth svc c s' = Some i ->
    exists j c', indexes !! j = Some i /\ creds !! j = Some c' /\ isShow svc c' = c;
  update_failed : forall indexes creds s s' e c, isUpdate svc indexes creds s = Ret (s', Some e) -> isAuth svc c s' = isAuth svc c s;
}.

(** An inbound: its service and the names by index. *)
Record Indexed {EX : Exceptions} {C : Type} (svc : IndexService C) := mkIndexed { ixService : isState svc; ixNames : list string }.
Arguments mkIndexed {_ _ _} _ _.
Arguments ixService {_ _ _} _.
Arguments ixNames {_ _ _} _.

Section Replace.
Context {EX : Exceptions}.

(** The indexes of a list ([common.MapIndexed]). *)
Definition indexes {A} (l : list A) : list nat := seq 0 (length l).

(** The update of a service that can refuse: the names change only with it. *)
Definition updateChecked {C} (svc : IndexService C) (creds : list C) (names : list string) (h : Indexed svc)
  : outcome (Indexed svc * option error) :=
  match isUpdate svc (indexes creds) creds h.(ixService) with
  | Panic => Panic
  | Ret (s, Some e) => Ret (mkIndexed s h.(ixNames), Some e)
  | Ret (s, None) => Ret (mkIndexed s names, None)
  end.

(** Of one that returns nothing. *)
Definition updateAlways {C} (svc : IndexService C) (creds : list C) (names : list string) (h : Indexed svc)
  : outcome (Indexed svc * option error) :=
  match isUpdate svc (indexes creds) creds h.(ixService) with
  | Panic => Panic
  | Ret (s, _) => Ret (mkIndexed s names, None)
  end.

Definition vmess_ReplaceUsers (svc : IndexService (string * Z)) (users : list AdapterUser) (h : Indexed svc) :=
  updateChecked svc (map (fun u => (u.(au_UUID), u.(au_AlterId))) users) (map au_Name users) h.

Definition vless_ReplaceUsers (svc : IndexService (string * string)) (users : list AdapterUser) (h : Indexed svc) :=
  updateAlways svc (map (fun u => (u.(au_UUID), u.(au_Flow))) users) (map au_Name users) h.

Definition shadowsocks_ReplaceUsers (svc : IndexService string) (users : list AdapterUser) (h : Indexed svc) :=
  updateChecked svc (map au_Password users) (map au_Name users) h.

Definition hysteria_ReplaceUsers (svc : IndexService string) (users : list AdapterUser) (h : Indexed svc) :=
  updateAlways svc (map au_Password users) (map au_Name users) h.

Definition hysteria2_ReplaceUsers (svc : IndexService string) (users : list AdapterUser) (h : Indexed svc) :=
  updateAlways svc (map au_Password users) (map au_Name users) h.

(** The loop of the TUIC inbound; [FromString] is that of the UUID library. *)
Fixpoint tuicUsers (FromString : string -> result error (list Z)) (i : Z) (users : list AdapterUser) : result error (list (list Z * string)) :=
  match users with
  | [] => Ok []
  | u :: users =>
      if String.eqb u.(au_UUID) "" then Err (E_New ["missing uuid for user "; itoa i])
      else
        match FromString u.(au_UUID) with
        | Err e => Err (E_Cause e ["invalid uuid for user "; itoa i])
        | Ok uuid =>
            match tuicUsers FromString (i + 1) users with
            | Err e => Err e
            | Ok creds => Ok ((uuid, u.(au_Password)) :: creds)
            end
        end
  end.

Definition tuic_ReplaceUsers (FromString : string -> result error (list Z)) (svc : IndexService (list Z * string)) (users : list AdapterUser)
    (h : Indexed svc) : outcome (Indexed svc * option error) :=
  match tuicUsers FromString 0 users with
  | Err e => Ret (h, Some e)
  | Ok creds => updateAlways svc creds (map au_Name users) h
  end.

(** ** The user of a connection *)

(** [os.ErrInvalid] *)
Definition ErrInvalid : error := Errorf "invalid argument".

(** [newConnection], [newPacketConnection] of the inbounds for streams: the user of the
    metadata, empty when the user has no name. *)
Definition connectionUser (names : list string) (userIndex : option nat) : outcome (result error string) :=
  match userIndex with
  | None => Ret (Err ErrInvalid)
  | Some i => match names !! i with None => Panic | Some user => Ret (Ok user) end
  end.

(** [NewConnectionEx], [NewPacketConnectionEx] of TUIC and Hysteria, for every stream of
    a session: without a user in the context the index is 0. *)
Definition streamUser (names : list string) (userID : option nat) : outcome string :=
  match names !! default 0%nat userID with None => Panic | Some user => Ret user end.

(** ** The Trojan inbound *)

Section TrojanInbound.
Context {SS : SocksaddrSerializer}.

(** The users of [Trojan]'s service are the indexes. *)
Definition trojanService : IndexService string := mkIndexService EX string (Trojan.Service (K := nat)) (list Z) Trojan.Key
  (Trojan.UpdateUsers (fun i => itoa (Z.of_nat i)))
  (fun key s => s.(Trojan.keys) !! key).

Definition trojan_ReplaceUsers (users : list AdapterUser) (h : Indexed trojanService) : outcome (Indexed trojanService * option error) :=
  updateChecked trojanService (map au_Password users) (map au_Name users) h.

End TrojanInbound.

(** ** Inbounds that keep the name *)

(** [auth.NewAuthenticator] and what the HTTP and SOCKS servers do with it: the user
    name of the credentials, or no user when none is asked for; none when the
    connection is refused. *)
Class AuthLib := {
  Authenticator : Type;
  NewAuthenticator : list (string * string) -> Authenticator;
  authorize : Authenticator -> option (string * string) -> option (option string);
}.

(** Without users no authentication is required ([docs/configuration/inbound]); with
    users it is the pairs of the list. *)
Class AuthLibLaws (AL : AuthLib) := {
  authorize_empty : forall shown, authorize (NewAuthenticator []) shown = Some None;
  authorize_users : forall l shown r, l <> [] -> authorize (NewAuthenticator l) shown = Some r ->
    exists name password, shown = Some (name, password) /\ r = Some name /\ (name, password) ∈ l;
  authorize_member : forall l name password, (name, password) ∈ l -> authorize (NewAuthenticator l) (Some (name, password)) = Some (Some name);
}.

Section Named.
Context {AL : AuthLib}.

Definition authUsers (users : list AdapterUser) : list (string * string) := map (fun u => (u.(au_Name), u.(au_Password))) users.

(** The inbound is its authenticator. *)
Definition http_ReplaceUsers (users : list AdapterUser) (h : Authenticator) : Authenticator * option error := (NewAuthenticator (authUsers users), None).
Definition socks_ReplaceUsers (users : list AdapterUser) (h : Authenticator) : Authenticator * option error := (NewAuthenticator (authUsers users), None).
Definition mixed_ReplaceUsers (users : list AdapterUser) (h : Authenticator) : Authenticator * option error := (NewAuthenticator (authUsers users), None).

Definition naive_ReplaceUsers (users : list AdapterUser) (h : Authenticator) : Authenticator * option error := (NewAuthenticator (authUsers users), None).

(** The user of the metadata of an accepted connection: what the authentication said. *)
Definition newUserConnection (user : option string) : string := match user with None => "" | Some user => user end.

End Named.

(** [NewService] of ShadowTLS may refuse the list; the service in use stays. *)
Definition shadowtls_ReplaceUsers {S} (NewService : list (string * string) -> result error S) (users : list AdapterUser) (h : option S)
  : option S * option error :=
  match NewService (authUsers users) with
  | Err e => (h, Some e)
  | Ok service => (Some service, None)
  end.

Definition anytls_ReplaceUsers {S} (UpdateUsers : list (string * string) -> S -> S) (users : list AdapterUser) (h : S) : S * option error :=
  (UpdateUsers (authUsers users) h, None).

End Replace.

(** ** Sessions *)

(** An inbound with the sessions it has authenticated: the proof shown, the name it
    belonged to then, and the index. *)
Record Session (C : Type) := mkSession { seProof : C; seOwner : string; seIndex : nat }.
Arguments mkSession {_} _ _ _.
Arguments seProof {_} _.
Arguments seOwner {_} _.
Arguments seIndex {_} _.

Section Sessions.
Context {EX : Exceptions} {C : Type} (svc : IndexService C) (replace : list AdapterUser -> Indexed svc -> outcome (Indexed svc * option error)).

Record World := mkWorld { wInbound : Indexed svc; wSessions : list (Session (isProof svc)) }.

(** Pushing a list, and a connection that shows a credential. *)
Inductive step : World -> World -> Prop :=
| StepReplace users h' e w : replace users w.(wInbound) = Ret (h', e) -> step w (mkWorld h' w.(wSessions))
| StepAuth c i name w : isAuth svc c w.(wInbound).(ixService) = Some i -> w.(wInbound).(ixNames) !! i = Some name ->
    step w (mkWorld w.(wInbound) (mkSession c name i :: w.(wSessions))).

(** The user a stream of a session is handed on under, now. *)
Definition handedOnAs (w : World) (s : Session (isProof svc)) : outcome string := streamUser w.(wInbound).(ixNames) (Some s.(seIndex)).

End Sessions.
Arguments mkWorld {_ _ _} _ _.
Arguments wInbound {_ _ _} _.
Arguments wSessions {_ _ _} _.
