(* ===== verification/InboundUsersProps.v ===== *)
(** * Under which user a connection is handed on

    With users known by index the name is right as long as lists only grow at their
    end, and can be another user's or out of range after other changes; with the name
    from the authentication it is always right.  The provider and the HTTP inbounds
    together let in exactly the current users - or everyone, when there are none. *)

From S2P Require Import Prelude GoStrings GoTime GoCrypto GoBinary RuleItems Trojan TrojanProps UserProvider UserProviderProps InboundUsers.

Local Open Scope string_scope.
Local Open Scope list_scope.
Local Open Scope Z_scope.

(** ** Users by index *)

Section Indexed.
Context {EX : Exceptions} {C : Type} (svc : IndexService C) {SL : IndexServiceLaws svc} (cred : AdapterUser -> C).
Implicit Types (h : Indexed svc) (w : World svc).

(** Replacing with a service that can refuse. *)
Definition replaceChecked (users : list AdapterUser) h : outcome (Indexed svc * option error) :=
  updateChecked svc (map cred users) (map au_Name users) h.

(** The names are those of a list of users whose credentials the service knows. *)
Definition consistent h (users : list AdapterUser) : Prop :=
  h.(ixNames) = map au_Name users /\
  forall c i, isAuth svc c h.(ixService) = Some i -> exists u, users !! i = Some u /\ isShow svc (cred u) = c.

Lemma replaceChecked_consistent users' users h h' e : consistent h users -> replaceChecked users' h = Ret (h', e) ->
  consistent h' (match e with Some _ => users | None => users' end) /\ (forall x, e = Some x -> h'.(ixNames) = h.(ixNames)).
Proof.
  intros [Hn Ha]. unfold replaceChecked, updateChecked. destruct (isUpdate svc _ _ _) as [[s [x|]]|] eqn:E; [| |done]; intros [= <- <-]; cbn.
  - split; [|done]. split; [done|]. intros c i. rewrite (update_failed _ _ _ _ _ _ E). apply Ha.
  - split; [|done]. split; [done|]. intros c i Hi. destruct (update_auth _ _ _ _ _ _ E Hi) as (j & c' & Hj & Hc & <-).
    unfold indexes in Hj. apply lookup_seq in Hj as [-> _]. rewrite list_lookup_fmap in Hc. cbn.
    destruct (users' !! j) as [u|]; [|done]. injection Hc as <-. by exists u.
Qed.

(** Steps in which lists only grow at their end, of users that satisfy [P]. *)
Inductive growing (P : AdapterUser -> Prop) : World svc -> World svc -> Prop :=
| GrowReplace users h' e w : replaceChecked users w.(wInbound) = Ret (h', e) -> w.(wInbound).(ixNames) `prefix_of` map au_Name users ->
    Forall P users -> growing P w (mkWorld h' w.(wSessions))
| GrowAuth c i name w : isAuth svc c w.(wInbound).(ixService) = Some i -> w.(wInbound).(ixNames) !! i = Some name ->
    growing P w (mkWorld w.(wInbound) (mkSession c name i :: w.(wSessions))).

Definition worldOk (P : AdapterUser -> Prop) w : Prop :=
  (exists users, consistent w.(wInbound) users /\ Forall P users) /\
  Forall (fun s => w.(wInbound).(ixNames) !! s.(seIndex) = Some s.(seOwner) /\
                   exists u, P u /\ au_Name u = s.(seOwner) /\ isShow svc (cred u) = s.(seProof)) w.(wSessions).

Lemma growing_ok P w w' : growing P w w' -> worldOk P w -> worldOk P w'.
Proof.
  intros Hs [(users0 & Hc & HP) Hse]. destruct Hs as [users h' e w Hr Hp HPu|c i name w Ha Hn]; cbn.
  - destruct (replaceChecked_consistent _ _ _ _ _ Hc Hr) as [Hc' Hsame]. split.
    + destruct e; [by exists users0|by exists users].
    + eapply Forall_impl; [exact Hse|]. intros s [Hl Hu]. split; [|done].
      destruct e as [x|]; cbn; [by rewrite (Hsame x eq_refl)|]. destruct Hc' as [-> _]. by eapply prefix_lookup_Some.
  - split; [by exists users0|]. constructor; [|done]. cbn. split; [done|].
    destruct Hc as [En Hau]. destruct (Hau c i Ha) as (u & Hu & Hcu). exists u. rewrite En, list_lookup_fmap, Hu in Hn. injection Hn as <-.
    split; [|done]. by eapply Forall_lookup_1.
Qed.

(** C21: an inbound that knows users by index, from its start on, while the lists pushed to
    it only grow at their end: every stream of every session is handed on under the
    name of a pushed user whose credential the session showed, the one it had when it
    was authenticated. *)
Theorem growing_lists_keep_users (P : AdapterUser -> Prop) (h0 : Indexed svc) w :
  consistent h0 [] -> rtc (growing P) (mkWorld h0 []) w ->
  Forall (fun s => handedOnAs svc w s = Ret s.(seOwner) /\ exists u, P u /\ au_Name u = s.(seOwner) /\ isShow svc (cred u) = s.(seProof)) w.(wSessions).
Proof.
  intros H0 Hr. assert (worldOk P w) as [_ Hw].
  { assert (worldOk P (mkWorld h0 [])) as Hi by (split; [by exists []|constructor]).
    remember (mkWorld h0 []) as w0. clear Heqw0. induction Hr as [|w1 w2 w3 Hs _ IH]; [done|]. apply IH. by eapply growing_ok. }
  eapply Forall_impl; [exact Hw|]. intros s [Hl Hu]. split; [|done]. unfold handedOnAs, streamUser. cbn. by rewrite Hl.
Qed.

End Indexed.

(** The Trojan service is one. *)
#[export] Instance trojan_service_laws {EX : Exceptions} {SS : SocksaddrSerializer} : IndexServiceLaws (trojanService (EX := EX)).
Proof.
  split; cbn; intros indexes creds s s'.
  - intros c i. unfold Trojan.UpdateUsers. destruct (Trojan.updateLoop _ _ _ _ _) as [[[us ks]|]|] eqn:E; [|done|done]. intros [= <-] Hk. cbn in Hk.
    apply (updateLoop_keys _ _ _ _ _ _ _ E) in Hk as [Hk|(j & p & Hj & Hp & Hkey)]; [by rewrite lookup_empty in Hk|].
    by exists j, p.
  - intros e c. unfold Trojan.UpdateUsers. destruct (Trojan.updateLoop _ _ _ _ _) as [[[us ks]|]|]; [done| |done]. by intros [= <- _].
Qed.

(** ** The provider and inbounds that keep the name *)

Section Provider.
Context {EX : Exceptions} {EL : ExceptionsLaws EX} {AL : AuthLib} {ALL : AuthLibLaws AL}.
(** What a provider needs of the outside; its servers are HTTP inbounds. *)
Variables (unmarshal : string -> result error (list OptionUser)) (Inb : Type) (typeOf : Inb -> string) (managed : Inb -> option Authenticator).

Definition httpProvider : ProviderEnv := {|
  UnmarshalUsers := unmarshal;
  inbound := Inb;
  server := Authenticator;
  inbound_Type := typeOf;
  asManaged := managed;
  srv_Type := fun _ => "http";
  srv_Tag := fun _ => "in";
  ReplaceUsers := http_ReplaceUsers;
  dialer := unit;
|}.
#[local] Existing Instance httpProvider.

Lemma findUser_member users u : NoDup (map au_Name users) -> u ∈ users -> findUser (au_Name u) users = Some u.
Proof.
  induction users as [|v users IH]; intros Hn Hu; [by apply elem_of_nil in Hu|]. cbn in Hn. apply NoDup_cons in Hn as [Hv Hn].
  cbn [findUser]. apply elem_of_cons in Hu as [->|Hu]; [by rewrite decide_True|]. rewrite decide_False; [by apply IH|].
  intros E. apply Hv. rewrite E. apply list_elem_of_fmap. by exists u.
Qed.

Lemma authUsers_elem users m name password : lists users m -> (name, password) ∈ authUsers users -> exists u, m !! name = Some u /\ au_Password u = password.
Proof.
  intros [Hn Hl] Hin. unfold authUsers in Hin. apply list_elem_of_fmap in Hin as (u & [= -> ->] & Hu). exists u. split; [|done].
  rewrite <- Hl. by apply findUser_member.
Qed.
Lemma findUser_elem name users u : findUser name users = Some u -> u ∈ users /\ au_Name u = name.
Proof.
  induction users as [|v users IH]; cbn [findUser]; [done|]. case_decide as E.
  - intros [= <-]. split; [apply list_elem_of_here|done].
  - intros Hu. destruct (IH Hu). split; [by apply list_elem_of_further|done].
Qed.

Lemma elem_authUsers users m name u : lists users m -> m !! name = Some u -> (name, au_Password u) ∈ authUsers users.
Proof.
  intros [_ Hl] Hu. rewrite <- Hl in Hu. apply findUser_elem in Hu as [Hu <-]. unfold authUsers. apply list_elem_of_fmap. by exists u.
Qed.

Lemma op_refines w1 w2 w3 o s src : up_inv s -> loads w1 s = Ok src -> loads w2 s = Ok src -> loads w3 s = Ok src ->
  refines s src (spec_op o (view s src)) (run_op w1 w2 w3 o s).
Proof.
  intros Hi H1 H2 H3. destruct o; cbn [run_op];
    [by apply CreateUser_refines|by apply UpdateUser_refines|by apply DeleteUser_refines].
Qed.

(** C15: the user provider with HTTP inbounds: after a creation, update or deletion that the
    map of users allows, every inbound lets in a connection exactly under the rule of the
    new map: with users, only with the name and password of one of them, and under that
    name; without users, every connection, under no name. *)
Theorem http_users_exact w1 w2 w3 o s src m :
  up_inv s -> loads w1 s = Ok src -> loads w2 s = Ok src -> loads w3 s = Ok src -> spec_op o (view s src) = Ok m ->
  Forall (fun srv => forall shown,
    (m = ∅ -> newUserConnection <$> authorize srv shown = Some "") /\
    (m <> ∅ -> forall user, newUserConnection <$> authorize srv shown = Some user <->
       exists password u, shown = Some (user, password) /\ m !! user = Some u /\ au_Password u = password))
    (up_servers (run_op w1 w2 w3 o s).1).
Proof.
  intros Hi H1 H2 H3 Hm. pose proof (op_refines w1 w2 w3 o s src Hi H1 H2 H3) as (_ & _ & Hr). rewrite Hm in Hr.
  destruct Hr as (_ & Hl & Hs & _). rewrite Hs. apply Forall_fmap, Forall_true. intros srv shown. cbn.
  set (users := up_allUsers _) in *. split.
  - intros ->. assert (users = []) as ->; [|by rewrite authorize_empty].
    destruct users as [|u users]; [done|]. destruct Hl as [_ Hl]. specialize (Hl (au_Name u)). rewrite lookup_empty in Hl.
    exfalso. revert Hl. cbn. by rewrite decide_True.
  - intros Hne user. split; cycle 1.
    { intros (password & u & -> & Hu & <-). by rewrite (authorize_member _ _ _ (elem_authUsers _ _ _ _ Hl Hu)). }
    intros Hu. apply fmap_Some in Hu as (r & Hr & ->). apply authorize_users in Hr as (name & password & -> & -> & Hin).
    + destruct (authUsers_elem _ _ _ _ Hl Hin) as (u & ? & ?). by exists password, u.
    + intros E. apply Hne. apply map_eq. intros name. destruct Hl as [_ Hl]. rewrite <- Hl, lookup_empty. by destruct users.
Qed.

End Provider.

(** ** Examples *)

Module UsersDemo.
#[local] Existing Instance text_exceptions.
#[local] Existing Instance TrojanDemo.socks.

(** A provider with one Trojan inbound. *)
#[export] Instance trojanProvider : ProviderEnv := {|
  UnmarshalUsers := fun s => Err s;
  inbound := unit;
  server := Indexed trojanService;
  inbound_Type := fun _ => "trojan";
  asManaged := fun _ => None;
  srv_Type := fun _ => "trojan";
  srv_Tag := fun _ => "in";
  ReplaceUsers := fun users h => match trojan_ReplaceUsers users h with Ret r => r | Panic => (h, Some "panic") end;
  dialer := unit;
|}.

Definition nothing : Outside :=
  mkOutside (fun _ => Err "no file") (fun _ => Err "no file") None (fun _ => None) (fun _ _ _ => Err "down") (fun _ => Err "down") (fun _ => None) (fun _ => Err "down").

Definition h0 : Indexed trojanService := mkIndexed (svc := trojanService) (Trojan.NewService false) [].
Definition provider0 : UserProvider.Service := UserProvider.mkService ["in"] [h0] [] ∅ ∅ None None None None [].
Definition bob : OptionUser := mkOptionUser "bob" "b" "" 0 "".
Definition alice : OptionUser := mkOptionUser "alice" "a" "" 0 "".

(** Bob is created; then alice; then both are deleted. *)
Definition provider1 : UserProvider.Service := (CreateUser nothing nothing bob provider0).1.
Definition provider2 : UserProvider.Service := (CreateUser nothing nothing alice provider1).1.
Definition provider3 : UserProvider.Service := (DeleteUser nothing nothing nothing "alice" (DeleteUser nothing nothing nothing "bob" provider2).1).1.

(** The inbound of a provider. *)
Definition inboundOf (s : UserProvider.Service) : Indexed trojanService := default h0 (head (up_servers s)).

(** A session of a user known by index changes hands: bob's connection is authenticated
    as index 0, which is bob; when alice is created, multiplexed streams of that session
    are handed on, and counted, as alice's, although bob's key now has index 1; and when
    the users are deleted, the next stream of the session is an index out of range, which
    panics. *)
Theorem session_changes_hands :
  isAuth trojanService (Trojan.Key "b") (ixService (inboundOf provider1)) = Some 0%nat /\
  connectionUser (ixNames (inboundOf provider1)) (Some 0%nat) = Ret (Ok "bob") /\
  connectionUser (ixNames (inboundOf provider2)) (Some 0%nat) = Ret (Ok "alice") /\
  isAuth trojanService (Trojan.Key "b") (ixService (inboundOf provider2)) = Some 1%nat /\
  connectionUser (ixNames (inboundOf provider3)) (Some 0%nat) = Panic.
Proof. split_and!; vm_compute; reflexivity. Qed.

(** Growing lists: bob, then bob and carol. *)
Definition bobUser : AdapterUser := mkAdapterUser "bob" "b" "" 0 "".
Definition carolUser : AdapterUser := mkAdapterUser "carol" "c" "" 0 "".
Definition after (users : list AdapterUser) (h : Indexed trojanService) : Indexed trojanService :=
  match trojan_ReplaceUsers users h with Ret (h, _) => h | Panic => h end.
Definition accepted (users : list AdapterUser) (h : Indexed trojanService) : bool :=
  match trojan_ReplaceUsers users h with Ret (_, None) => true | _ => false end.
Lemma after_eq users h : accepted users h = true -> trojan_ReplaceUsers users h = Ret (after users h, None).
Proof. unfold accepted, after. by destruct (trojan_ReplaceUsers users h) as [[h' [e|]]|]. Qed.
Definition h1 : Indexed trojanService := after [bobUser] h0.
Definition h2 : Indexed trojanService := after [bobUser; carolUser] h1.
Lemma h1_eq : trojan_ReplaceUsers [bobUser] h0 = Ret (h1, None).
Proof. apply after_eq. vm_compute. reflexivity. Qed.
Lemma h2_eq : trojan_ReplaceUsers [bobUser; carolUser] h1 = Ret (h2, None).
Proof. apply after_eq. vm_compute. reflexivity. Qed.
Definition bobSession : Session (list Z) := mkSession (Trojan.Key "b") "bob" 0.

Lemma growing_lists_keep_users_witness :
  Forall (fun s => handedOnAs trojanService (mkWorld h2 [bobSession]) s = Ret s.(seOwner) /\
    exists u, u ∈ [bobUser; carolUser] /\ au_Name u = s.(seOwner) /\ isShow trojanService (au_Password u) = s.(seProof)) [bobSession].
Proof.
  apply (growing_lists_keep_users trojanService au_Password (fun u => u ∈ [bobUser; carolUser]) h0 (mkWorld h2 [bobSession])).
  - split; [done|]. intros c i Hc. cbn in Hc. by rewrite lookup_empty in Hc.
  - eapply rtc_l; [apply (GrowReplace trojanService au_Password _ [bobUser] h1 None)|].
    + exact h1_eq.
    + apply prefix_nil.
    + repeat constructor.
    + cbn [wSessions]. eapply rtc_l; [apply (GrowAuth trojanService au_Password _ (Trojan.Key "b") 0%nat "bob"); vm_compute; reflexivity|].
      eapply rtc_l; [|apply rtc_refl]. apply (GrowReplace trojanService au_Password _ [bobUser; carolUser] h2 None).
      * cbn [wInbound]. exact h2_eq.
      * exists ["carol"]. vm_compute. reflexivity.
      * repeat constructor.
Defined.

(** An authenticator that is the list of its users. *)
#[export] Instance listAuth : AuthLib := {|
  Authenticator := list (string * string);
  NewAuthenticator := id;
  authorize l shown :=
    match l, shown with
    | [], _ => Some None
    | _, Some p => if bool_decide (p ∈ l) then Some (Some p.1) else None
    | _, None => None
    end;
|}.
#[export] Instance listAuth_laws : AuthLibLaws listAuth.
Proof.
  split; [done| |]; cbn; cycle 1.
  { intros l name password Hin. unfold id. destruct l; [by apply elem_of_nil in Hin|]. by rewrite bool_decide_true. }
  unfold id. intros l shown r Hl. destruct l as [|p l]; [done|]. destruct shown as [[name password]|]; [|done].
  case_bool_decide as Hin; [|done]. intros [= <-]. by exists name, password.
Qed.

Definition httpEnv : ProviderEnv := httpProvider (fun s => Err s) unit (fun _ => "http") (fun _ => None).
Definition outsideH : Outside (PE := httpEnv) :=
  mkOutside (PE := httpEnv) (fun _ => Err "no file") (fun _ => Err "no file") None (fun _ => None) (fun _ _ _ => Err "down") (fun _ => Err "down") (fun _ => None) (fun _ => Err "down").
Definition httpProvider1 : UserProvider.Service (PE := httpEnv) :=
  UserProvider.mkService (PE := httpEnv) ["in"] [[("bob", "b")]] [] {["bob" := bob]} ∅ None None None None [bobUser].

(** Deleting the only user: the inbound lets everyone in. *)
Lemma http_users_exact_witness :
  Forall (fun srv => forall shown, newUserConnection <$> authorize srv shown = Some "")
    (up_servers (DeleteUser (PE := httpEnv) outsideH outsideH outsideH "bob" httpProvider1).1).
Proof.
  pose proof (http_users_exact (fun s => Err s) unit (fun _ => "http") (fun _ => None) outsideH outsideH outsideH (OpDelete "bob") httpProvider1 [] ∅) as H.
  eapply Forall_impl; [apply H|].
  - split_and!; [apply map_Forall_singleton; reflexivity|apply disjoint_empty_r|apply NoDup_singleton].
  - vm_compute; reflexivity.
  - vm_compute; reflexivity.
  - vm_compute; reflexivity.
  - vm_compute; reflexivity.
  - intros srv Hs shown. exact (proj1 (Hs shown) eq_refl).
Defined.

End UsersDemo.
