(* ===== verification/Geosite.v ===== *)
(** * Geosite files

    [src/common/geosite]: a file of domain lists, one per code.  The file starts with
    a table of the codes, each with where its items start and how many there are;
    reading a code seeks to its items. *)

From S2P Require Import Prelude GoStrings GoCrypto GoBinary UserProvider.

Local Open Scope string_scope.
Local Open Scope list_scope.
Local Open Scope Z_scope.

Record Item := mkItem { ItemType : Z; ItemValue : string }.

Definition RuleTypeDomain : Z := 0.
Definition RuleTypeDomainSuffix : Z := 1.
Definition RuleTypeDomainKeyword : Z := 2.
Definition RuleTypeDomainRegex : Z := 3.

Definition sizeofItem : Z := 24.

Section Geosite.
Context {EX : Exceptions} {VB : Varbin}.

(** ** Writing ([writer.go]) *)

Definition writeString (value : string) : list Z := writeBytes (to_bytes value).

Definition writeItem (item : Item) : list Z := [item.(ItemType) mod 256] ++ writeString item.(ItemValue).

(** The loop that fills [content] and [index]. *)
Fixpoint writeContent (domains : gmap string (list Item)) (keys : list string) (content : list Z) (index : gmap string Z)
  : list Z * gmap string Z :=
  match keys with
  | [] => (content, index)
  | code :: keys =>
      writeContent domains keys (content ++ List.concat (map writeItem (default [] (domains !! code))))
        (<[ code := Z.of_nat (length content) ]> index)
  end.

Definition writeEntry (domains : gmap string (list Item)) (index : gmap string Z) (code : string) : list Z :=
  writeString code ++ WriteUvarint (default 0 (index !! code)) ++
  WriteUvarint (Z.of_nat (length (default [] (domains !! code)))).

(** The map is read in some order, which sorting makes irrelevant. *)
Definition Geosite_Write (domains : gmap string (list Item)) : list Z :=
  let keys := sortStrings (map_to_list domains).*1 in
  let '(content, index) := writeContent domains keys [] ∅ in
  [0] ++ WriteUvarint (Z.of_nat (length keys)) ++ List.concat (map (writeEntry domains index) keys) ++ content.

(** ** Reading ([reader.go]) *)

Record Reader := mkReader {
  file : list Z;
  metadataIndex : Z;
  domainIndex : gmap string Z;
  domainLength : gmap string Z;
}.

Definition readString : Rd string :=
  rdBind ReadUvarint (fun n => rdBind (makeSlice 1 n) (fun _ =>
  rdBind (readMany (Z.to_nat n) ReadByte) (fun b => rdRet (bytes b)))).

(** The table, [n] entries of it left. *)
Fixpoint readEntries (n : nat) (index lengths : gmap string Z) : Rd (gmap string Z * gmap string Z) :=
  match n with
  | O => rdRet (index, lengths)
  | S n =>
      rdBind readString (fun code => rdBind ReadUvarint (fun codeIndex => rdBind ReadUvarint (fun codeLength =>
        readEntries n (<[ code := wrap64 codeIndex ]> index) (<[ code := wrap64 codeLength ]> lengths))))
  end.

(** [readMetadata]: what the buffered reader holds back is not counted, so the
    position is that of the first byte after the table. *)
Definition readMetadata (file : list Z) : outcome (result error Reader) :=
  match rdBind ReadByte (fun version =>
        if negb (version =? 0) then rdErr (E_New ["unknown version"])
        else rdBind ReadUvarint (fun entryLength => rdBind (makeSlice 16 entryLength) (fun _ =>
             readEntries (Z.to_nat entryLength) ∅ ∅))) file with
  | Panic => Panic
  | Ret (Err e) => Ret (Err e)
  | Ret (Ok ((index, lengths), rest)) => Ret (Ok (mkReader file (Z.of_nat (length file) - Z.of_nat (length rest)) index lengths))
  end.

(** [NewReader], with the codes. *)
Definition NewReader (file : list Z) : outcome (result error (Reader * list string)) :=
  match readMetadata file with
  | Panic => Panic
  | Ret (Err e) => Ret (Err e)
  | Ret (Ok r) => Ret (Ok (r, (map_to_list r.(domainIndex)).*1))
  end.

Definition readItem : Rd Item :=
  rdBind ReadByte (fun ty => rdBind readString (fun value => rdRet (mkItem ty value))).

Definition Reader_Read (code : string) (r : Reader) : outcome (result error (list Item)) :=
  match r.(domainIndex) !! code with
  | None => Ret (Err (E_New ["code "; code; " not exists!"]))
  | Some index =>
      let position := wrap64 (r.(metadataIndex) + index) in
      if position <? 0 then Ret (Err (Errorf "invalid argument"))
      else
        let n := default 0 (r.(domainLength) !! code) in
        if n <? 0 then Panic
        else
          match rdBind (makeSlice sizeofItem n) (fun _ => readMany (Z.to_nat n) readItem) (drop (Z.to_nat position) r.(file)) with
          | Panic => Panic
          | Ret (Err e) => Ret (Err e)
          | Ret (Ok (items, _)) => Ret (Ok items)
          end
  end.

End Geosite.

(** ** Rules from items ([rule.go]) *)

(** The four fields of [option.DefaultRule] that are set. *)
Record CodeRule := mkCodeRule { cr_Domain : list string; cr_DomainSuffix : list string; cr_DomainKeyword : list string; cr_DomainRegex : list string }.

Definition noCodeRule : CodeRule := mkCodeRule [] [] [] [].

Definition addItem (r : CodeRule) (item : Item) : CodeRule :=
  let v := item.(ItemValue) in
  if item.(ItemType) =? RuleTypeDomain then mkCodeRule (r.(cr_Domain) ++ [v]) r.(cr_DomainSuffix) r.(cr_DomainKeyword) r.(cr_DomainRegex)
  else if item.(ItemType) =? RuleTypeDomainSuffix then mkCodeRule r.(cr_Domain) (r.(cr_DomainSuffix) ++ [v]) r.(cr_DomainKeyword) r.(cr_DomainRegex)
  else if item.(ItemType) =? RuleTypeDomainKeyword then mkCodeRule r.(cr_Domain) r.(cr_DomainSuffix) (r.(cr_DomainKeyword) ++ [v]) r.(cr_DomainRegex)
  else if item.(ItemType) =? RuleTypeDomainRegex then mkCodeRule r.(cr_Domain) r.(cr_DomainSuffix) r.(cr_DomainKeyword) (r.(cr_DomainRegex) ++ [v])
  else r.

Definition Compile (code : list Item) : CodeRule := foldl addItem noCodeRule code.

Definition addRule (r s : CodeRule) : CodeRule :=
  mkCodeRule (r.(cr_Domain) ++ s.(cr_Domain)) (r.(cr_DomainSuffix) ++ s.(cr_DomainSuffix))
    (r.(cr_DomainKeyword) ++ s.(cr_DomainKeyword)) (r.(cr_DomainRegex) ++ s.(cr_DomainRegex)).

Definition Merge (rules : list CodeRule) : CodeRule := foldl addRule noCodeRule rules.
