(* ===== verification/GeositeProps.v ===== *)
(** * Geosite files are read as they were written *)

From stdpp Require Import sorting.
From S2P Require Import Prelude GoStrings GoCrypto GoBinary UserProvider FakeIP FakeIPProps CacheFile BoltLaws CacheFileProps Geosite.

Local Open Scope string_scope.
Local Open Scope list_scope.
Local Open Scope Z_scope.

Section GeositeProps.
Context {EX : Exceptions} {VB : Varbin} {VL : VarbinLaws VB}.
Implicit Types (domains : gmap string (list Item)) (index : gmap string Z).

Definition stringOk (s : string) : Prop := Z.of_nat (String.length s) <= maxAlloc.
Definition itemOk (i : Item) : Prop := 0 <= i.(ItemType) < 256 /\ stringOk i.(ItemValue).

Lemma readMany_bytes b : reads (readMany (length b) ReadByte) b b.
Proof.
  induction b as [|x b IH]; cbn [length readMany]; [apply reads_ret|].
  apply (reads_bind _ _ [x] b x); [apply reads_ReadByte|]. by apply reads_map with (f := cons x).
Qed.

Lemma reads_uvarint z : 0 <= z <= maxAlloc -> reads ReadUvarint (WriteUvarint z) z.
Proof. intros H. apply ReadUvarint_WriteUvarint. unfold uint64_range, maxAlloc in *. lia. Qed.

Lemma reads_string s : stringOk s -> reads readString (writeString s) s.
Proof.
  intros Hs. unfold stringOk in Hs. rewrite <-to_bytes_length in Hs. unfold readString, writeString, writeBytes.
  eapply reads_bind; [apply reads_uvarint; lia|]. eapply reads_skip; [apply reads_makeSlice; lia|]. rewrite Nat2Z.id.
  apply (reads_map_eq _ _ _ _ _ (bytes_to_bytes s)), readMany_bytes.
Qed.

Lemma reads_item i : itemOk i -> reads readItem (writeItem i) i.
Proof.
  intros [Ht Hv]. unfold readItem, writeItem. rewrite Z.mod_small by done. eapply reads_bind; [apply reads_ReadByte|].
  apply (reads_map_eq _ _ _ i.(ItemValue)); [by destruct i|by apply reads_string].
Qed.

(** ** The contents *)

Definition itemsOf domains (code : string) : list Item := default [] (domains !! code).
Definition encoded domains (code : string) : list Z := List.concat (map writeItem (itemsOf domains code)).

Lemma writeContent_bytes domains keys content index :
  (writeContent domains keys content index).1 = content ++ List.concat (map (encoded domains) keys).
Proof.
  revert content index. induction keys as [|k keys IH]; intros content index; cbn [writeContent map List.concat]; [by rewrite app_nil_r|].
  rewrite IH. by rewrite <-app_assoc.
Qed.

Lemma writeContent_other domains keys content index k : k ∉ keys -> (writeContent domains keys content index).2 !! k = index !! k.
Proof.
  revert content index. induction keys as [|x keys IH]; intros content index Hk; cbn [writeContent]; [done|].
  rewrite IH by set_solver. rewrite lookup_insert_ne by set_solver. done.
Qed.

(** The index of a code is where its items start. *)
Lemma writeContent_index domains keys content index k : NoDup keys -> k ∈ keys ->
  exists pre post, keys = pre ++ k :: post /\
    (writeContent domains keys content index).2 !! k = Some (Z.of_nat (length (content ++ List.concat (map (encoded domains) pre)))).
Proof.
  revert content index. induction keys as [|x keys IH]; intros content index Hn Hk; [by apply not_elem_of_nil in Hk|].
  apply NoDup_cons in Hn as [Hx Hn]. cbn [writeContent]. destruct (decide (k = x)) as [->|Hne].
  - exists [], keys. split; [done|]. rewrite writeContent_other by done. rewrite lookup_insert_eq. cbn. by rewrite app_nil_r.
  - assert (Hk' : k ∈ keys) by set_solver.
    destruct (IH (content ++ List.concat (map writeItem (default [] (domains !! x)))) (<[ x := Z.of_nat (length content) ]> index) Hn Hk')
      as (pre & post & -> & E). exists (x :: pre), post. split; [done|]. rewrite E. cbn [map List.concat]. by rewrite <-app_assoc.
Qed.

(** ** The table *)

Fixpoint tableOf domains index (keys : list string) (idx len : gmap string Z) : gmap string Z * gmap string Z :=
  match keys with
  | [] => (idx, len)
  | k :: keys => tableOf domains index keys (<[ k := default 0 (index !! k) ]> idx) (<[ k := Z.of_nat (length (itemsOf domains k)) ]> len)
  end.

Lemma tableOf_lookup domains index keys idx len k :
  (tableOf domains index keys idx len).1 !! k = (if decide (k ∈ keys) then Some (default 0 (index !! k)) else idx !! k) /\
  (tableOf domains index keys idx len).2 !! k = if decide (k ∈ keys) then Some (Z.of_nat (length (itemsOf domains k))) else len !! k.
Proof.
  revert idx len. induction keys as [|x keys IH]; intros idx len; cbn [tableOf]; [by rewrite !decide_False by set_solver|].
  destruct (IH (<[ x := default 0 (index !! x) ]> idx) (<[ x := Z.of_nat (length (itemsOf domains x)) ]> len)) as [-> ->].
  destruct (decide (k ∈ keys)); [by rewrite !decide_True by set_solver|].
  destruct (decide (k = x)) as [->|Hne]; [by rewrite !decide_True, !lookup_insert_eq by set_solver|].
  by rewrite !decide_False, !lookup_insert_ne by set_solver.
Qed.

Definition entryOk domains index (k : string) : Prop :=
  stringOk k /\ 0 <= default 0 (index !! k) <= maxAlloc /\ Z.of_nat (length (itemsOf domains k)) <= maxAlloc.

Lemma wrap64_small z : 0 <= z <= maxAlloc -> wrap64 z = z.
Proof. intros H. apply wrap64_id. unfold int64_range, min_int64, max_int64, maxAlloc in *. lia. Qed.

Lemma reads_table domains index keys idx len : Forall (entryOk domains index) keys ->
  reads (readEntries (length keys) idx len) (List.concat (map (writeEntry domains index) keys)) (tableOf domains index keys idx len).
Proof.
  intros H. revert idx len. induction H as [|k keys (Hk & Hi & Hl) _ IH]; intros idx len; cbn [length readEntries map List.concat tableOf]; [apply reads_ret|].
  unfold writeEntry. rewrite <-!app_assoc. eapply reads_bind; [by apply reads_string|].
  eapply reads_bind; [by apply reads_uvarint|]. fold (itemsOf domains k). eapply reads_bind; [apply reads_uvarint; lia|].
  rewrite !wrap64_small by lia. apply IH.
Qed.

(** ** Files *)

Definition sortedKeys domains : list string := sortStrings (map_to_list domains).*1.

Lemma sortedKeys_perm domains : sortedKeys domains ≡ₚ (map_to_list domains).*1.
Proof. apply merge_sort_Permutation. Qed.

Lemma sortedKeys_NoDup domains : NoDup (sortedKeys domains).
Proof. rewrite sortedKeys_perm. apply NoDup_fst_map_to_list. Qed.

Lemma sortedKeys_elem domains k : k ∈ sortedKeys domains <-> is_Some (domains !! k).
Proof.
  rewrite sortedKeys_perm, list_elem_of_fmap. split.
  - intros ([x y] & -> & H%elem_of_map_to_list). by eexists.
  - intros [y H]. exists (k, y). split; [done|]. by apply elem_of_map_to_list.
Qed.

(** Values that fit in memory. *)
Definition fits domains : Prop :=
  16 * Z.of_nat (length (sortedKeys domains)) <= maxAlloc /\ Z.of_nat (length (Geosite_Write domains)) <= maxAlloc /\
  forall k items, domains !! k = Some items -> stringOk k /\ sizeofItem * Z.of_nat (length items) <= maxAlloc /\ Forall itemOk items.

(** The parts of a written file. *)
Definition tableIndex domains : gmap string Z := (writeContent domains (sortedKeys domains) [] ∅).2.
Definition tableBytes domains : list Z :=
  [0] ++ WriteUvarint (Z.of_nat (length (sortedKeys domains))) ++ List.concat (map (writeEntry domains (tableIndex domains)) (sortedKeys domains)).

Lemma Write_parts domains : Geosite_Write domains = tableBytes domains ++ List.concat (map (encoded domains) (sortedKeys domains)).
Proof.
  unfold Geosite_Write, tableBytes, tableIndex. fold (sortedKeys domains).
  pose proof (writeContent_bytes domains (sortedKeys domains) [] ∅) as E.
  destruct (writeContent domains (sortedKeys domains) [] ∅) as [content index]. cbn in E. subst content. cbn [snd]. by rewrite <-!app_assoc.
Qed.

(** Where the items of a code are. *)
Lemma code_position domains k : fits domains -> is_Some (domains !! k) ->
  exists pre post, sortedKeys domains = pre ++ k :: post /\
    tableIndex domains !! k = Some (Z.of_nat (length (List.concat (map (encoded domains) pre)))) /\
    Z.of_nat (length (tableBytes domains)) + Z.of_nat (length (List.concat (map (encoded domains) pre))) <= maxAlloc.
Proof.
  intros (_ & Hf & _) Hk. apply sortedKeys_elem in Hk.
  destruct (writeContent_index domains (sortedKeys domains) [] ∅ k (sortedKeys_NoDup domains) Hk) as (pre & post & E & Ei).
  exists pre, post. split; [done|]. split; [exact Ei|]. rewrite Write_parts, E, map_app, concat_app, !length_app in Hf. lia.
Qed.

Lemma entries_ok domains : fits domains -> Forall (entryOk domains (tableIndex domains)) (sortedKeys domains).
Proof.
  intros Hf. apply Forall_forall. intros k Hk. apply sortedKeys_elem in Hk as [items Hk].
  destruct (code_position domains k Hf ltac:(by eexists)) as (pre & post & _ & Ei & Hb). destruct Hf as (_ & _ & Hf).
  destruct (Hf k items Hk) as (Hs & Hl & _). unfold entryOk, itemsOf. rewrite Hk, Ei. cbn.
  unfold sizeofItem in Hl. split; [done|]. lia.
Qed.

Lemma readMetadata_written domains : fits domains ->
  exists r, readMetadata (Geosite_Write domains) = Ret (Ok r) /\ r.(file) = Geosite_Write domains /\
    r.(metadataIndex) = Z.of_nat (length (tableBytes domains)) /\
    (r.(domainIndex), r.(domainLength)) = tableOf domains (tableIndex domains) (sortedKeys domains) ∅ ∅.
Proof.
  intros Hf. pose proof (entries_ok domains Hf) as He. pose proof Hf as (Hn & _).
  destruct (tableOf domains (tableIndex domains) (sortedKeys domains) ∅ ∅) as [idx len] eqn:Et.
  assert (R : reads (rdBind ReadByte (fun version =>
        if negb (version =? 0) then rdErr (E_New ["unknown version"])
        else rdBind ReadUvarint (fun entryLength => rdBind (makeSlice 16 entryLength) (fun _ =>
             readEntries (Z.to_nat entryLength) ∅ ∅)))) (tableBytes domains) (idx, len)).
  { unfold tableBytes. eapply reads_bind; [apply reads_ReadByte|]. cbn [Z.eqb negb].
    eapply reads_bind; [apply reads_uvarint; lia|]. eapply reads_skip; [apply reads_makeSlice; lia|]. rewrite Nat2Z.id, <-Et. by apply reads_table. }
  pose proof (R (List.concat (map (encoded domains) (sortedKeys domains)))) as R'. rewrite <-Write_parts in R'.
  unfold readMetadata. rewrite R'. eexists. split; [done|]. split; [done|]. split; [|done].
  cbn [metadataIndex]. rewrite Write_parts, length_app. lia.
Qed.

Lemma Read_position (r : Reader) code idx n (pre : list Z) items rest :
  r.(domainIndex) !! code = Some idx -> r.(domainLength) !! code = Some n -> n = Z.of_nat (length items) ->
  r.(file) = pre ++ List.concat (map writeItem items) ++ rest -> r.(metadataIndex) + idx = Z.of_nat (length pre) ->
  Z.of_nat (length pre) <= maxAlloc -> sizeofItem * n <= maxAlloc -> Forall itemOk items ->
  Reader_Read code r = Ret (Ok items).
Proof.
  intros Ei El -> Ef Hp Hpre Hn Hi. unfold Reader_Read. rewrite Ei, El, Hp. cbn [from_option id]. unfold id.
  rewrite wrap64_small by lia. rewrite (proj2 (Z.ltb_ge _ 0)) by lia. rewrite (proj2 (Z.ltb_ge _ 0)) by lia.
  rewrite !Nat2Z.id, Ef, drop_app_length.
  assert (R : reads (rdBind (makeSlice sizeofItem (Z.of_nat (length items))) (fun _ => readMany (length items) readItem))
    (List.concat (map writeItem items)) items).
  { eapply reads_skip; [by apply reads_makeSlice|]. apply reads_readMany. by apply (Forall_impl _ _ _ Hi), reads_item. }
  by rewrite R.
Qed.

(** C38: a geosite file is read as it was written: opening the file of a map of
    domain lists that fits in memory ([fits]) succeeds, lists exactly the codes of the map, reading a code gives
    its items, and any other code is an error. *)
Theorem geosite_roundtrip domains : fits domains ->
  exists r codes, NewReader (Geosite_Write domains) = Ret (Ok (r, codes)) /\
    (forall code, code ∈ codes <-> is_Some (domains !! code)) /\
    forall code, match domains !! code with
                 | Some items => Reader_Read code r = Ret (Ok items)
                 | None => exists e, Reader_Read code r = Ret (Err e)
                 end.
Proof.
  intros Hf. destruct (readMetadata_written domains Hf) as (r & E & Ef & Em & Et).
  pose proof (fun k => tableOf_lookup domains (tableIndex domains) (sortedKeys domains) ∅ ∅ k) as Hl. rewrite <-Et in Hl. cbn [fst snd] in Hl.
  exists r, (map_to_list r.(domainIndex)).*1. unfold NewReader. rewrite E. split; [done|]. split.
  - intros code. rewrite list_elem_of_fmap. rewrite <-sortedKeys_elem. destruct (Hl code) as [Hi _]. split.
    + intros ([k v] & -> & Hk%elem_of_map_to_list). cbn. destruct (decide (k ∈ sortedKeys domains)); [done|].
      destruct (Hl k) as [Hk' _]. rewrite decide_False in Hk' by done. cbn in Hk. rewrite Hk in Hk'. by rewrite lookup_empty in Hk'.
    + intros Hk. rewrite decide_True in Hi by done. eexists (code, _). split; [done|]. by apply elem_of_map_to_list.
  - intros code. destruct (Hl code) as [Hi Hn]. destruct (domains !! code) as [items|] eqn:Ed.
    + assert (Hk : is_Some (domains !! code)) by (by eexists). pose proof Hk as Hin. apply sortedKeys_elem in Hin.
      rewrite decide_True in Hi, Hn by done. destruct (code_position domains code Hf Hk) as (pre & post & Ek & Ei & Hb).
      rewrite Ei in Hi. pose proof Hf as (_ & _ & Hit). destruct (Hit code items Ed) as (_ & Hs & Hok).
      eapply (Read_position r code _ _ (tableBytes domains ++ List.concat (map (encoded domains) pre)) items); try done.
      * by unfold itemsOf; rewrite Ed.
      * rewrite Ef, Write_parts, Ek, map_app, concat_app. cbn [map List.concat]. unfold encoded at 2, itemsOf. rewrite Ed. cbn. by rewrite <-!app_assoc.
      * rewrite Em, length_app. cbn. lia.
      * rewrite length_app. lia.
      * unfold itemsOf. by rewrite Ed.
    + unfold Reader_Read. rewrite Hi, decide_False, lookup_empty by (rewrite sortedKeys_elem, Ed; by intros []). by eexists.
Qed.

(** ** Rules *)

Lemma addItem_addRule r items : foldl addItem r items = addRule r (foldl addItem noCodeRule items).
Proof.
  assert (Hassoc : forall a b c, addRule (addRule a b) c = addRule a (addRule b c)).
  { intros a b c. unfold addRule. cbn. by rewrite !app_assoc. }
  assert (Hone : forall a i, addItem a i = addRule a (addItem noCodeRule i)).
  { intros [] i. unfold addItem, addRule. cbn. repeat case_match; cbn; by rewrite ?app_nil_r. }
  revert r. induction items as [|i items IH]; intros r; cbn [foldl].
  - destruct r. unfold addRule. cbn. by rewrite !app_nil_r.
  - rewrite IH, (IH (addItem noCodeRule i)), (Hone r i). apply Hassoc.
Qed.

(** Merging compiled rules is compiling all items together. *)
Lemma Merge_Compile codes : Merge (map Compile codes) = Compile (List.concat codes).
Proof.
  unfold Merge. assert (H : forall r, foldl addRule r (map Compile codes) = foldl addItem r (List.concat codes)); [|apply H].
  induction codes as [|c codes IH]; intros r; cbn [map List.concat foldl]; [done|].
  rewrite foldl_app, IH. unfold Compile. by rewrite (addItem_addRule r c).
Qed.

End GeositeProps.

(** ** A file of two codes *)

Module GeositeDemo.
#[local] Existing Instance text_exceptions.

Definition lists : gmap string (list Item) :=
  {[ "cn" := [mkItem 1 "example.cn"; mkItem 0 "www.example.cn"]; "ads" := [mkItem 2 "ad"] ]}.

Lemma lists_file :
  bool_decide (Geosite_Write lists =
    [0; 2; 3; 97; 100; 115; 0; 1; 2; 99; 110; 4; 2; 2; 2; 97; 100; 1; 10] ++ to_bytes "example.cn" ++ [0; 14] ++ to_bytes "www.example.cn") = true.
Proof. vm_compute. reflexivity. Qed.

Lemma lists_fit : fits lists.
Proof.
  split; [vm_compute; congruence|]. split; [vm_compute; congruence|]. intros k items H. unfold lists in H.
  apply lookup_insert_Some in H as [[<- <-]|[_ [<- <-]%lookup_singleton_Some]];
    (split; [vm_compute; congruence|]; split; [vm_compute; congruence|]; repeat constructor; vm_compute; congruence).
Qed.

Lemma geosite_roundtrip_witness :
  exists r codes, NewReader (Geosite_Write lists) = Ret (Ok (r, codes)) /\
    (forall code, code ∈ codes <-> is_Some (lists !! code)) /\
    forall code, match lists !! code with
                 | Some items => Reader_Read code r = Ret (Ok items)
                 | None => exists e, Reader_Read code r = Ret (Err e)
                 end.
Proof. exact (geosite_roundtrip lists lists_fit). Defined.

End GeositeDemo.
